(* ===== verification/_CoqProject ===== *)
-Q . S2P
Prelude.v
Contract.v
Common.v
Dir24.v
Dir24Lpm.v
Dir24Inv.v
Dir24Tables.v
Dir24Correct.v
Dir24Refine.v
Dir24Props.v
Bpf.v
Frames.v
KernelRef.v
Maps.v
L2.v
L2Props.v
Policy.v
PolicyProps.v
Nat.v
NatProps.v
Encap.v
L3.v
Xdp.v
FrameRun.v
Bfd.v
MapRefs.v
Dataplane.v
DpRun.v
XdpTunnel.v
XdpEvpn.v
XdpSrv6.v
XdpReplace.v
XdpMain.v
TunnelProps.v
MplsProps.v
Srv6Props.v
L3Props.v
DpPolicy.v
FibEngines.v
Cni.v
CniProps.v
Text.v
L7.v
Control.v
Ports.v
Overlay.v
Pods.v
CtlRun.v
EsProps.v
HostRef.v
EsSpec.v
SlotProps.v
TraceProps.v
Echo.v
EchoFrame.v
EchoProps.v
IpText.v
Pb.v
Grpc.v
K8s.v
NetPol.v
Agent.v
NetPolSpec.v
AgentRun.v
AgentProps.v
SvcRun.v
SvcProps.v
Config.v
Ctl.v
TableTypes.v
CtlProps.v
IdentProps.v
Gen.v
Cli.v
Cep.v
Hubble.v
HubbleProps.v
CniPlugin.v
Cilium.v
CniAttach.v
