(* ===== verification/Prelude.v ===== *)
(** * cradle-rs: a verification library (root file)

    cradle-rs is an eBPF data plane for routers and Kubernetes nodes, and the
    daemon that programs it.  A frame enters [cradle_xdp] (XDP: pops,
    decapsulations, EVPN ingress), then [cradle_tc] (TC ingress: bridging,
    policy, NAT, routing, impositions), and on the way out [cradle_egress].
    The programs read BPF maps; the daemon writes them through [Dataplane],
    which [Control] drives on behalf of the control API, the CNI plugin and
    the kernel's link and address events.

    This library models both sides and the maps between them, so that a
    theorem can speak of requests at one end and of packets at the other.

    ** The files and what they model

    Shared:
    - [Prelude]: words, the state-and-error monad [M], list and option lemmas.
    - [Contract], [Common] (crates/cradle-common/src/lib.rs): the types and
      constants both sides share, the packed words, size and padding facts.
    - [Bpf]: a packet is a list of bytes, a [World] the packet with the state
      the programs may change; bounds-checked loads and stores; the BPF
      helpers as the class [Kernel] with their documented behaviour as
      [KernelLaws].  [KernelRef] is an instance that satisfies the laws.
    - [Frames], [FrameRun]: frames as records of fields, checksums, and the
      lemmas that run header surgery.
    - [Maps]: the maps as classes by area ([FibMaps], [L2Maps], ..), read by
      the programs.  [MapRefs]: the same maps as the fields of the record
      [Dp], the handles user space writes them through, and the runs [Run]
      that record every intermediate data plane a packet can meet.  A map
      system call may fail: [MapSys], with [MapSysLaws].

    The programs (crates/cradle-ebpf/src/main.rs, bfd.rs), one Definition per
    function:
    - [L2]: l2_switch, flood, learning, EVPN multihoming, E-Tree.
    - [Policy]: identities, connection tracking, the rule walk, enforcement.
    - [Nat]: dnat, snat, service_lookup, masquerade, egress_nat.
    - [Encap]: resolve_nh, MPLS, SRv6, GTP-U and VXLAN imposition.
    - [L3]: lookup, ECMP, the v4, v6 and MPLS pipelines, cradle_tc.
    - [Xdp], [XdpTunnel], [XdpEvpn], [XdpSrv6], [XdpReplace], [XdpMain]: the
      stages of cradle_xdp.
    - [Bfd]: the echo reflector and the expiration watchdog.

    The daemon (crates/cradle/src):
    - [Dir24] (dir24.rs): the DIR-24-8 engine; a transaction returns the plan
      of array writes.
    - [Dataplane] (dataplane.rs): every operation that writes maps, in the
      order it writes them, the readers and the rows of a dump.
    - [Cni] (cni.rs): the address allocator and the endpoint records.
    - [Text], [IpText] (util.rs), [L7] (l7.rs): MACs, addresses and prefixes
      as text, with std's readers and writers, and what is written as an
      address read back; the proxy's decisions.
    - [Control], [Ports], [Overlay], [Pods] (control.rs, kernel.rs): the state
      behind the control API and its requests.  The host's namespace is the
      class [HostOps]; [HostRef] is an instance.
    - [Echo] (bfd_echo.rs): the echo originator's sessions and frames.
    - [Pb] (proto/cradle.proto), [Grpc] (control.rs): the messages of the
      control API, its handlers [rpc_*] with their casts and refusals, and the
      FDB and BFD event streams round by round.
    - [Config] (config.rs): the declarative configuration and
      [apply_control].  [Ctl] (ctl.rs): the client that replays it.
    - [Cli] (main.rs, ctl.rs, grpc.rs, kernel.rs, bench.rs): the start of the
      daemon, the client's other operations with what they print, the [ip]
      commands behind [HostOps], the probes of the benchmark.  [Gen] (util.rs): the synthetic route table.
    - [Hubble] (hubble.rs): flow records as flows, the ring, the filters.
    - [Cilium] (cilium.rs): the agent API that Cilium's plugin speaks.

    The Kubernetes agent (crates/cradle-k8s/src):
    - [K8s]: the objects it reads, field by field.
    - [NetPol] (netpol.rs, identity.rs, cnp.rs): identities, their allocation,
      and the policies compiled into endpoint rules.
    - [Agent] (main.rs, sync.rs): services compiled into load balancer
      entries, one round of the policy and the service task, the tasks it
      starts; its calls are the [rpc_*] handlers, run against the daemon's
      state.
    - [Cep] (cep.rs, main.rs): the CiliumEndpoint objects it publishes, the
      collection of identities nothing uses, the CNI configuration it writes.

    The CNI plugin (crates/cradle-cni/src/main.rs):
    - [CniPlugin]: its commands, the [ip] commands they run (the class
      [IpTool]) and the requests they send.

    ** What the theorems show

    - C1-C5 ([Dir24Props], over [Dir24Lpm], [Dir24Inv], [Dir24Tables],
      [Dir24Correct], [Dir24Refine]): the route arrays refine longest-prefix
      match, updates are hitless, refusals change nothing, the group pool is
      partitioned.
    - C6, C7, C9 ([L2Props]): the exact flood set, leaf isolation, learning.
    - C8 ([TableTypes]): the routing tables stay well typed.
    - C10, C11, C13 ([NatProps]): translation round trips, the service's with
      checksums that verify both ways; checksum validity.
    - C12 ([CniAttach]): attaching a pod and detaching it again.
    - C14 ([HubbleProps]): a denied frame is observed, with its verdict and
      the identity it was judged by, by the requests that ask for it.
    - C15, C16 ([PolicyProps]): the verdict and its enforcement.
    - C17 ([Gen]): the table generator ends exactly when the table fits.
    - C18-C25 ([TunnelProps], [Srv6Props], [MplsProps]): what one node
      imposes the other removes, over GTP-U, VXLAN, SRv6 and MPLS; segment
      lists and micro-SID carriers are walked in order.
    - C26-C28 ([L3Props], [FibEngines]): one forwarding hop; what the XDP-only
      path takes from the stack, and that it does with it what the TC stage
      does, link header included; agreement of the two lookup engines.
    - C29 ([DpPolicy], over [DpRun]): replacing a policy is hitless, and what
      an update that failed leaves for the next.
    - C30, C31 ([CniProps]): addresses of both families are exclusive and stay
      their holder's until released, and are granted while there are any.
    - C32 ([TraceProps]): the policy trace predicts the enforcement point.
    - C33 ([EsSpec], over [CtlRun] and [EsProps]): Ethernet Segment requests
      implement the declared segments.
    - C34 ([SlotProps]): every flooded copy is carried toward a PE once.
    - C35, C36 ([EchoProps], over [EchoFrame]): a live path keeps its BFD
      session up; the originator serves every session and reports dead paths.
    - C37 ([AgentProps], over [NetPolSpec] and [AgentRun]): from the cluster's
      NetworkPolicies, as far as the agent supports them, to the frame,
      through the agent, the API, the daemon and the enforcement point.
    - C38 ([SvcProps], over [SvcRun]): the same for Services, round by round,
      and what a resync leaves.
    - C39 ([CtlProps]): replaying a configuration does what loading it does, up
      to the replay's own order and the fields it does not send.
    - C40 ([IdentProps]): allocated identities separate label sets.

    ** Bounds and fuel

    Words are [Z] with explicit [wrap].  A loop the verifier bounds is a
    [Fixpoint] over the same bound as the source ([MAX_SEGS], [ECMP] walks,
    flood slots), so no fuel is added.  [first_vacant] of [Cni] runs at most
    one step per allocation plus one, enough to meet a vacancy; the trims of
    [Text] one step per character.  The generator of [Gen] has fuel for its
    draws: [2^64] of them show every prefix it can draw (C17).  Every other
    recursion is structural.

    ** Not modelled

    The transport (tonic, hyper, the proxy's and the exporter's sockets,
    generated code), process set-up and program loading (aya), the reading of
    the command line (clap) and of JSON (serde), what [ip] does in a pod's
    namespace, the Kubernetes API calls and watches (kube-rs), the measuring
    loops of the benchmark and the test suites: they hold no decisions of the
    program's own. Program attachment, [ip] commands and sysfs reads are the
    operations of [HostOps]. Requests are atomic towards each other, as the
    locks make them; packets are not: they run against every state in
    between. The packet path runs one frame at a time; two CPUs racing on one
    LRU map entry are not modelled. *)

From stdpp Require Export base numbers list list_numbers gmap sets strings fin_maps sorting.
From Stdlib Require Export ZArith Lia.
#[export] Set Default Goal Selector "!".
#[global] Open Scope Z_scope.

(** ** Machine words

    An unsigned [w]-bit integer is a [Z]; the wrap-around of an operation is
    written out with [wrap w]. *)

Definition wrap (w z : Z) : Z := z mod 2 ^ w.

Definition in_range (w z : Z) : Prop := 0 ≤ z < 2 ^ w.

Abbreviation u8 := (in_range 8).
Abbreviation u16 := (in_range 16).
Abbreviation u32 := (in_range 32).
Abbreviation u64 := (in_range 64).
Abbreviation u128 := (in_range 128).

#[global] Instance in_range_dec w z : Decision (in_range w z).
Proof. unfold in_range. apply _. Defined.

Declare Scope word_scope.
Delimit Scope word_scope with word.
Infix ".&" := Z.land (at level 40, left associativity) : word_scope.
Infix ".^" := Z.lxor (at level 45, left associativity) : word_scope.
Infix ".|" := Z.lor (at level 50, left associativity) : word_scope.
#[global] Open Scope word_scope.

(** A single-bit flag test, [flags & FLAG != 0] in the sources. *)
Definition has (flags flag : Z) : bool := negb (flags .& flag =? 0).

(** ** Results and the state-and-error monad

    Rust's [Result<T>] with [?], run against [&mut self]: on an error the
    mutations made so far stay in the state, exactly as in the sources. *)

Inductive res (E A : Type) : Type :=
| Ok (a : A)
| Err (e : E).
Arguments Ok {E A} a.
Arguments Err {E A} e.

Definition M (S E A : Type) : Type := S → S * res E A.

#[global] Instance M_ret {S E} : MRet (M S E) := λ A a s, (s, Ok a).
#[global] Instance M_bind {S E} : MBind (M S E) := λ A B f m s,
  match m s with
  | (s', Ok a) => f a s'
  | (s', Err e) => (s', Err e)
  end.

#[global] Instance M_fmap {S E} : FMap (M S E) := λ A B f m s,
  match m s with
  | (s', Ok a) => (s', Ok (f a))
  | (s', Err e) => (s', Err e)
  end.

Definition get {S E} : M S E S := λ s, (s, Ok s).
Definition gets {S E A} (f : S → A) : M S E A := λ s, (s, Ok (f s)).
Definition modify {S E} (f : S → S) : M S E unit := λ s, (f s, Ok tt).
Definition bail {S E A} (e : E) : M S E A := λ s, (s, Err e).

(** [let _ = f()], [.unwrap_or(..)], [if let Ok(..)]: the error is handled,
    the state changes stay. *)
Definition catch {S E A} (m : M S E A) : M S E (option A) := λ s,
  match m s with
  | (s', Ok a) => (s', Ok (Some a))
  | (s', Err _) => (s', Ok None)
  end.

(** [.ok_or(e)?] *)
Definition of_option {S E A} (e : E) (o : option A) : M S E A :=
  match o with Some a => mret a | None => bail e end.

(** [for x in l { acc = f(acc, x)?; }] *)
Fixpoint mfold {S E A B} (f : B → A → M S E B) (l : list A) (b : B) : M S E B :=
  match l with
  | [] => mret b
  | x :: l => b' ← f b x; mfold f l b'
  end.

Lemma ok_pair {S E A} (r : S * res E A) a : r.2 = Ok a → r = (r.1, Ok a).
Proof. destruct r. cbn. by intros ->. Qed.

Lemma mfold_cons {S E A B} (f : B → A → M S E B) x l b s :
  mfold f (x :: l) b s =
  match f b x s with
  | (s', Ok b') => mfold f l b' s'
  | (s', Err e) => (s', Err e)
  end.
Proof. done. Qed.

Lemma mfold_app {S E A B} (f : B → A → M S E B) l1 l2 b s :
  mfold f (l1 ++ l2) b s =
  match mfold f l1 b s with
  | (s', Ok b') => mfold f l2 b' s'
  | (s', Err e) => (s', Err e)
  end.
Proof.
  revert b s; induction l1 as [|x l1 IH]; intros b s; [done|].
  cbn. unfold mbind, M_bind. by destruct (f b x s) as [s' [b'|e]].
Qed.

(** [Vec::pop]: the last element and the rest. *)
Definition vec_pop {A} (v : list A) : option (A * list A) :=
  match rev v with
  | [] => None
  | x :: r => Some (x, rev r)
  end.

Lemma vec_pop_None {A} (v : list A) : vec_pop v = None ↔ v = [].
Proof.
  unfold vec_pop. split.
  - destruct (rev v) eqn:E; [|done]. intros _.
    by rewrite <- (rev_involutive v), E.
  - by intros ->.
Qed.

Lemma vec_pop_Some {A} (v : list A) x r : vec_pop v = Some (x, r) ↔ v = r ++ [x].
Proof.
  unfold vec_pop. split.
  - destruct (rev v) as [|y l] eqn:E; [done|]. intros [= <- <-].
    by rewrite <- (rev_involutive v), E.
  - intros ->. rewrite rev_app_distr; cbn. by rewrite rev_involutive.
Qed.

(** The first element on which [f] is defined: [iter().find_map(f)] and the
    [for .. { if let Some(x) = .. { return x } }] loops. *)
Fixpoint first_some {A B} (f : A → option B) (l : list A) : option B :=
  match l with
  | [] => None
  | x :: l => match f x with Some y => Some y | None => first_some f l end
  end.

Lemma first_some_ext {A B} (f g : A → option B) l :
  (∀ x, x ∈ l → f x = g x) → first_some f l = first_some g l.
Proof.
  induction l as [|x l IH]; intros H; [done|]. cbn.
  rewrite (H x) by set_solver. rewrite IH by set_solver. done.
Qed.

Lemma first_some_app {A B} (f : A → option B) l1 l2 :
  first_some f (l1 ++ l2) =
  match first_some f l1 with Some y => Some y | None => first_some f l2 end.
Proof. induction l1 as [|x l1 IH]; [done|]. cbn. by destruct (f x). Qed.

Lemma first_some_None {A B} (f : A → option B) l :
  first_some f l = None ↔ ∀ x, x ∈ l → f x = None.
Proof.
  induction l as [|x l IH]; cbn; [set_solver|].
  destruct (f x) eqn:E; split; intros H.
  - done.
  - rewrite (H x) in E by set_solver. done.
  - intros y [->|Hy]%elem_of_cons; [done|]. by apply IH.
  - apply IH. set_solver.
Qed.

Lemma first_some_Some {A B} (f : A → option B) l y :
  first_some f l = Some y → ∃ x, x ∈ l ∧ f x = Some y.
Proof.
  induction l as [|x l IH]; cbn; [done|].
  destruct (f x) eqn:E.
  - intros [= ->]. exists x. set_solver.
  - intros (z & ? & ?)%IH. exists z. set_solver.
Qed.

Lemma size_list_to_set_le `{Countable A} (l : list A) :
  (size (list_to_set l : gset A) ≤ length l)%nat.
Proof.
  induction l as [|x l IH]; cbn [list_to_set length]; [done|].
  rewrite size_union_alt, size_singleton.
  assert (list_to_set l ∖ {[x]} ⊆@{gset A} list_to_set l) as Hs by set_solver.
  apply subseteq_size in Hs. lia.
Qed.

Lemma filter_ext_in {A} (P Q : A → Prop) `{∀ x, Decision (P x)} `{∀ x, Decision (Q x)} (l : list A) :
  (∀ x, x ∈ l → P x ↔ Q x) → filter P l = filter Q l.
Proof.
  induction l as [|x l IH]; intros Hpq; [done|]. rewrite !filter_cons, IH by set_solver.
  specialize (Hpq x ltac:(set_solver)). repeat case_decide; tauto.
Qed.

Lemma omap_ext_in {A B} (f g : A → option B) (l : list A) :
  (∀ x, x ∈ l → f x = g x) → omap f l = omap g l.
Proof.
  induction l as [|x l IH]; intros Hfg; [done|]. cbn. rewrite (Hfg x) by set_solver.
  by rewrite IH by set_solver.
Qed.

(** ** Words: masks, shifts and fields *)

Lemma land_ones' k z : 0 ≤ k → z .& (2 ^ k - 1) = z mod 2 ^ k.
Proof.
  intros Hk. rewrite <- Z.land_ones by done. f_equal. rewrite Z.ones_equiv. lia.
Qed.

(** Disjoint fields: the low [k] bits of [a * 2^k] are free. *)
Lemma lor_add k a b : 0 ≤ k → 0 ≤ b < 2 ^ k → (a * 2 ^ k) .| b = a * 2 ^ k + b.
Proof.
  intros Hk Hb. rewrite <- Z.shiftl_mul_pow2 by done.
  symmetry. rewrite <- Z.lxor_lor.
  - apply Z.add_nocarry_lxor. apply Z.bits_inj'. intros n Hn.
    rewrite Z.land_spec, Z.bits_0, Z.shiftl_spec by done.
    destruct (decide (n < k)).
    + by rewrite Z.testbit_neg_r by lia.
    + rewrite <- (Z.mod_small b (2 ^ k)) by done.
      rewrite Z.mod_pow2_bits_high by lia. by rewrite andb_false_r.
  - apply Z.bits_inj'. intros n Hn.
    rewrite Z.land_spec, Z.bits_0, Z.shiftl_spec by done.
    destruct (decide (n < k)).
    + by rewrite Z.testbit_neg_r by lia.
    + rewrite <- (Z.mod_small b (2 ^ k)) by done.
      rewrite Z.mod_pow2_bits_high by lia. by rewrite andb_false_r.
Qed.

Lemma land_pow2 k z : 0 ≤ k → z .& 2 ^ k = if Z.testbit z k then 2 ^ k else 0.
Proof.
  intros Hk. apply Z.bits_inj'. intros n Hn.
  rewrite Z.land_spec, Z.pow2_bits_eqb by done.
  destruct (Z.eqb_spec k n) as [->|Hne].
  - rewrite andb_true_r. destruct (Z.testbit z n).
    + by rewrite Z.pow2_bits_true.
    + by rewrite Z.bits_0.
  - rewrite andb_false_r. destruct (Z.testbit z k).
    + by rewrite Z.pow2_bits_false.
    + by rewrite Z.bits_0.
Qed.

Lemma has_pow2 k z : 0 ≤ k → has z (2 ^ k) = Z.testbit z k.
Proof.
  intros Hk. unfold has. rewrite land_pow2 by done.
  destruct (Z.testbit z k).
  - pose proof (Z.pow_pos_nonneg 2 k). by rewrite (proj2 (Z.eqb_neq _ 0)) by lia.
  - done.
Qed.

Lemma shr_div k z : 0 ≤ k → z ≫ k = z / 2 ^ k.
Proof. apply Z.shiftr_div_pow2. Qed.

Lemma shl_mul k z : 0 ≤ k → z ≪ k = z * 2 ^ k.
Proof. apply Z.shiftl_mul_pow2. Qed.

Lemma testbit_div k z : 0 ≤ k → Z.testbit z k = Z.odd (z / 2 ^ k).
Proof.
  intros Hk. rewrite <- Z.shiftr_div_pow2 by done.
  rewrite <- Z.bit0_odd, Z.shiftr_spec by done. f_equal; lia.
Qed.

(** Decides arithmetic that mentions [/] and [mod] by literals. *)
Ltac divlia := Z.div_mod_to_equations; lia.

Create HintDb cradle.
Create Rewrite HintDb cradle.
