(* ===== verification/Contract.v ===== *)
(** * The shared data-plane types ([crates/cradle-common/src/lib.rs])

    The map keys and values both sides of the data plane agree on, and the
    constants that name flags, operations, behaviours and counters.  A record
    has the source struct's fields in order, under a prefix of its own;
    explicit [_pad] fields, always zero, are left out.  Integers are [Z] at
    their width, byte arrays are lists of bytes.  Map keys carry decidable
    equality and [Countable], so that maps are [gmap]s. *)

From S2P Require Import Prelude.

Record NhGroupKey := mkNhGroupKey { ngk_group_id : Z; ngk_slot : Z }.
#[global] Instance NhGroupKey_eq_dec : EqDecision NhGroupKey.
Proof. solve_decision. Defined.
#[global] Instance NhGroupKey_countable : Countable NhGroupKey.
Proof.
  refine (inj_countable' (λ k, (ngk_group_id k, ngk_slot k)) (λ '(x0, x1), mkNhGroupKey x0 x1) _). by intros [].
Defined.

Record NextHop := mkNextHop { nh_gateway_v4 : Z; nh_gateway_v6 : list Z; nh_oif : Z;
  nh_flags : Z; nh_labels : list Z; nh_num_labels : Z; nh_backup_id : Z }.
#[global] Instance NextHop_eq_dec : EqDecision NextHop.
Proof. solve_decision. Defined.
Definition NH_F_V6 : Z := 2 ^ 0.
Definition NH_F_ONLINK : Z := 2 ^ 1.
Definition NH_F_MPLS : Z := 2 ^ 2.
Definition NH_F_SRV6 : Z := 2 ^ 3.
Definition NH_F_GTP : Z := 2 ^ 4.
Definition NH_F_VXLAN : Z := 2 ^ 5.
Definition NH_F_MPLS_PIPE : Z := 2 ^ 6.
Definition NH_F_GTP6 : Z := 2 ^ 7.
Definition MPLS_PIPE_TTL : Z := 255.
Definition MAX_LABELS : Z := 3.

Record Neigh4Key := mkNeigh4Key { n4_ifindex : Z; n4_addr : Z }.
#[global] Instance Neigh4Key_eq_dec : EqDecision Neigh4Key.
Proof. solve_decision. Defined.
#[global] Instance Neigh4Key_countable : Countable Neigh4Key.
Proof.
  refine (inj_countable' (λ k, (n4_ifindex k, n4_addr k)) (λ '(x0, x1), mkNeigh4Key x0 x1) _). by intros [].
Defined.

Record Neigh6Key := mkNeigh6Key { n6_ifindex : Z; n6_addr : list Z }.
#[global] Instance Neigh6Key_eq_dec : EqDecision Neigh6Key.
Proof. solve_decision. Defined.
#[global] Instance Neigh6Key_countable : Countable Neigh6Key.
Proof.
  refine (inj_countable' (λ k, (n6_ifindex k, n6_addr k)) (λ '(x0, x1), mkNeigh6Key x0 x1) _). by intros [].
Defined.

Record Vrf4Key := mkVrf4Key { v4k_vrf_id : Z; v4k_addr : list Z }.
#[global] Instance Vrf4Key_eq_dec : EqDecision Vrf4Key.
Proof. solve_decision. Defined.
#[global] Instance Vrf4Key_countable : Countable Vrf4Key.
Proof.
  refine (inj_countable' (λ k, (v4k_vrf_id k, v4k_addr k)) (λ '(x0, x1), mkVrf4Key x0 x1) _). by intros [].
Defined.

Record CradleXdpMeta := mkCradleXdpMeta { xm_magic : Z; xm_vrf_id : Z; xm_es_bits : Z }.
#[global] Instance CradleXdpMeta_eq_dec : EqDecision CradleXdpMeta.
Proof. solve_decision. Defined.
Definition ES_BITS_ETREE_LEAF : Z := 2 ^ 63.
Definition MAX_ES_ID : Z := 62.
Definition XDP_META_MAGIC : Z := 0xC7AD1E01.
Definition XDP_META_MAGIC_L2 : Z := 0xC7AD1E02.
Definition XDP_META_MAGIC_DX : Z := 0xC7AD1E03.
Definition XDP_META_MAGIC_DX2 : Z := 0xC7AD1E04.
Definition XDP_META_MAGIC_REPL : Z := 0xC7AD1E05.
Definition XDP_META_MAGIC_SRV6 : Z := 0xC7AD1E06.
Definition XDP_META_MAGIC_GTP : Z := 0xC7AD1E07.

Record NeighEntry := mkNeighEntry { ne_mac : list Z; ne_state : Z }.
#[global] Instance NeighEntry_eq_dec : EqDecision NeighEntry.
Proof. solve_decision. Defined.
Definition NEIGH_STATE_REACHABLE : Z := 1.

Record MplsEntry := mkMplsEntry { me_nexthop_id : Z; me_vrf_id : Z; me_op : Z; me_flags : Z
  }.
#[global] Instance MplsEntry_eq_dec : EqDecision MplsEntry.
Proof. solve_decision. Defined.
Definition MPLS_OP_SWAP : Z := 0.
Definition MPLS_OP_POP_L3 : Z := 1.
Definition MPLS_OP_POP : Z := 2.
Definition MPLS_OP_POP_L2 : Z := 3.
Definition MPLS_OP_POP_XC : Z := 4.
Definition MPLS_OP_POP_XC_VLAN : Z := 5.
Definition MPLS_E_TTL_UNIFORM : Z := 2 ^ 0.

Record LocalSid := mkLocalSid { ls_behavior : Z; ls_flavors : Z; ls_vrf_id : Z;
  ls_nexthop_id : Z; ls_block_bits : Z; ls_node_bits : Z; ls_fun_bits : Z; ls_arg_bits : Z }.
#[global] Instance LocalSid_eq_dec : EqDecision LocalSid.
Proof. solve_decision. Defined.
Definition SRV6_BH_END : Z := 0.
Definition SRV6_BH_END_X : Z := 1.
Definition SRV6_BH_END_DT4 : Z := 2.
Definition SRV6_BH_END_DT6 : Z := 3.
Definition SRV6_BH_END_DT46 : Z := 4.
Definition SRV6_BH_END_B6 : Z := 5.
Definition SRV6_BH_UN : Z := 6.
Definition SRV6_BH_UA : Z := 7.
Definition SRV6_BH_UALIB : Z := 8.
Definition SRV6_BH_END_DT2U : Z := 9.
Definition SRV6_BH_END_DT2M : Z := 10.
Definition SRV6_BH_END_M : Z := 11.
Definition SRV6_BH_END_REP : Z := 12.
Definition SRV6_BH_END_X_REP : Z := 13.
Definition SRV6_BH_END_T : Z := 14.
Definition SRV6_BH_END_DX4 : Z := 15.
Definition SRV6_BH_END_DX6 : Z := 16.
Definition SRV6_BH_END_DX2 : Z := 17.
Definition SRV6_BH_END_DX2V : Z := 18.
Definition SRV6_BH_END_REPLICATE : Z := 19.
Definition SRV6_FLAVOR_PSP : Z := 1.
Definition SRV6_FLAVOR_USP : Z := 2.
Definition SRV6_FLAVOR_USD : Z := 4.

Record MirrorKey := mkMirrorKey { mk_ctx : Z; mk_addr : list Z }.
#[global] Instance MirrorKey_eq_dec : EqDecision MirrorKey.
Proof. solve_decision. Defined.
#[global] Instance MirrorKey_countable : Countable MirrorKey.
Proof.
  refine (inj_countable' (λ k, (mk_ctx k, mk_addr k)) (λ '(x0, x1), mkMirrorKey x0 x1) _). by intros [].
Defined.

Record MirrorEntry := mkMirrorEntry { mi_behavior : Z; mi_vrf_id : Z }.
#[global] Instance MirrorEntry_eq_dec : EqDecision MirrorEntry.
Proof. solve_decision. Defined.

Record Dx2vKey := mkDx2vKey { dx_table : Z; dx_vid : Z }.
#[global] Instance Dx2vKey_eq_dec : EqDecision Dx2vKey.
Proof. solve_decision. Defined.
#[global] Instance Dx2vKey_countable : Countable Dx2vKey.
Proof.
  refine (inj_countable' (λ k, (dx_table k, dx_vid k)) (λ '(x0, x1), mkDx2vKey x0 x1) _). by intros [].
Defined.
Definition MAX_SEGS : Z := 6.

Record Srv6Encap := mkSrv6Encap { se_num_segs : Z; se_mode : Z; se_segs : list (list Z) }.
#[global] Instance Srv6Encap_eq_dec : EqDecision Srv6Encap.
Proof. solve_decision. Defined.
Definition SRV6_ENCAP_MODE_ENCAPS : Z := 0.
Definition SRV6_ENCAP_MODE_INSERT : Z := 2.

Record GtpEncap := mkGtpEncap { ge_src : list Z; ge_dst : list Z; ge_teid : list Z; ge_qfi :
  Z }.
#[global] Instance GtpEncap_eq_dec : EqDecision GtpEncap.
Proof. solve_decision. Defined.

Record Gtp6Encap := mkGtp6Encap { g6_src : list Z; g6_dst : list Z; g6_teid : list Z; g6_qfi
  : Z }.
#[global] Instance Gtp6Encap_eq_dec : EqDecision Gtp6Encap.
Proof. solve_decision. Defined.

Record GtpPdrKey := mkGtpPdrKey { pk_vrf_id : Z; pk_dst : list Z; pk_teid : list Z }.
#[global] Instance GtpPdrKey_eq_dec : EqDecision GtpPdrKey.
Proof. solve_decision. Defined.
#[global] Instance GtpPdrKey_countable : Countable GtpPdrKey.
Proof.
  refine (inj_countable' (λ k, (pk_vrf_id k, pk_dst k, pk_teid k)) (λ '(x0, x1, x2), mkGtpPdrKey x0 x1 x2) _). by intros [].
Defined.

Record Gtp6PdrKey := mkGtp6PdrKey { p6_vrf_id : Z; p6_dst : list Z; p6_teid : list Z }.
#[global] Instance Gtp6PdrKey_eq_dec : EqDecision Gtp6PdrKey.
Proof. solve_decision. Defined.
#[global] Instance Gtp6PdrKey_countable : Countable Gtp6PdrKey.
Proof.
  refine (inj_countable' (λ k, (p6_vrf_id k, p6_dst k, p6_teid k)) (λ '(x0, x1, x2), mkGtp6PdrKey x0 x1 x2) _). by intros [].
Defined.

Record GtpPdr := mkGtpPdr { pdr_vrf_id : Z }.
#[global] Instance GtpPdr_eq_dec : EqDecision GtpPdr.
Proof. solve_decision. Defined.

Record VniInfo := mkVniInfo { vi_vlan : Z; vi_flags : Z; vi_vrf_id : Z; vi_rmac : list Z }.
#[global] Instance VniInfo_eq_dec : EqDecision VniInfo.
Proof. solve_decision. Defined.
Definition VNI_F_L2 : Z := 2 ^ 0.
Definition VNI_F_L3 : Z := 2 ^ 1.
Definition VNI_F_ELINE : Z := 2 ^ 2.
Definition VNI_F_ELINE_VLAN : Z := 2 ^ 3.

Record VxlanEncap := mkVxlanEncap { ve_vtep : list Z; ve_l3vni : Z; ve_rmac : list Z }.
#[global] Instance VxlanEncap_eq_dec : EqDecision VxlanEncap.
Proof. solve_decision. Defined.

Record ReplTarget := mkReplTarget { rt_kind : Z; rt_vni : Z; rt_addr : list Z; rt_esi_label
  : Z }.
#[global] Instance ReplTarget_eq_dec : EqDecision ReplTarget.
Proof. solve_decision. Defined.
Definition REPL_EXTRA_ETREE_LEAF : Z := 2 ^ 31.
Definition MPLS_LABEL_MASK : Z := 0xFFFFF.
Definition REPL_KIND_SRV6 : Z := 0.
Definition REPL_KIND_VXLAN : Z := 1.
Definition REPL_KIND_MPLS : Z := 2.

Record SlotEs := mkSlotEs { so_only : Z; so_etree : Z; so_skip : Z }.
#[global] Instance SlotEs_eq_dec : EqDecision SlotEs.
Proof. solve_decision. Defined.
Definition SLOT_ETREE_LEAF : Z := 2 ^ 0.
Definition SLOT_ETREE_ROOT : Z := 2 ^ 1.
Definition MAX_REPL_BRANCHES : Z := 16.

Record ReplBranch := mkReplBranch { rb_sid : list Z; rb_nexthop_id : Z; rb_local_oif : Z;
  rb_flags : Z }.
#[global] Instance ReplBranch_eq_dec : EqDecision ReplBranch.
Proof. solve_decision. Defined.
Definition REPL_BRANCH_LOCAL : Z := 2 ^ 0.

Record ReplSeg := mkReplSeg { rs_n_branches : Z; rs_flags : Z; rs_hop_limit_threshold : Z;
  rs_branches : list ReplBranch }.
#[global] Instance ReplSeg_eq_dec : EqDecision ReplSeg.
Proof. solve_decision. Defined.
Definition REPL_ROLE_LEAF : Z := 2 ^ 0.

Record Vrf6Key := mkVrf6Key { v6k_vrf_id : Z; v6k_addr : list Z }.
#[global] Instance Vrf6Key_eq_dec : EqDecision Vrf6Key.
Proof. solve_decision. Defined.
#[global] Instance Vrf6Key_countable : Countable Vrf6Key.
Proof.
  refine (inj_countable' (λ k, (v6k_vrf_id k, v6k_addr k)) (λ '(x0, x1), mkVrf6Key x0 x1) _). by intros [].
Defined.

Record FdbKey := mkFdbKey { fk_mac : list Z; fk_vlan : Z }.
#[global] Instance FdbKey_eq_dec : EqDecision FdbKey.
Proof. solve_decision. Defined.
#[global] Instance FdbKey_countable : Countable FdbKey.
Proof.
  refine (inj_countable' (λ k, (fk_mac k, fk_vlan k)) (λ '(x0, x1), mkFdbKey x0 x1) _). by intros [].
Defined.

Record FdbEntry := mkFdbEntry { fe_oif : Z; fe_flags : Z; fe_remote_sid : list Z;
  fe_last_seen : Z; fe_label : Z }.
#[global] Instance FdbEntry_eq_dec : EqDecision FdbEntry.
Proof. solve_decision. Defined.
Definition FDB_F_LOCAL : Z := 2 ^ 0.
Definition FDB_F_REMOTE : Z := 2 ^ 1.
Definition FDB_F_VXLAN : Z := 2 ^ 2.
Definition FDB_F_MPLS : Z := 2 ^ 3.
Definition FDB_F_ESNHG : Z := 2 ^ 4.
Definition FDB_F_STATIC : Z := 2 ^ 5.
Definition FDB_F_ETREE_LEAF : Z := 2 ^ 6.

Record EsNhgKey := mkEsNhgKey { eg_es_id : Z; eg_bd : Z }.
#[global] Instance EsNhgKey_eq_dec : EqDecision EsNhgKey.
Proof. solve_decision. Defined.
#[global] Instance EsNhgKey_countable : Countable EsNhgKey.
Proof.
  refine (inj_countable' (λ k, (eg_es_id k, eg_bd k)) (λ '(x0, x1), mkEsNhgKey x0 x1) _). by intros [].
Defined.

Record EsNhgMemberKey := mkEsNhgMemberKey { em_es_id : Z; em_bd : Z; em_slot : Z }.
#[global] Instance EsNhgMemberKey_eq_dec : EqDecision EsNhgMemberKey.
Proof. solve_decision. Defined.
#[global] Instance EsNhgMemberKey_countable : Countable EsNhgMemberKey.
Proof.
  refine (inj_countable' (λ k, (em_es_id k, em_bd k, em_slot k)) (λ '(x0, x1, x2), mkEsNhgMemberKey x0 x1 x2) _). by intros [].
Defined.
Definition ES_NHG_COUNT_MASK : Z := 0xffff.
Definition ES_NHG_F_SINGLE_ACTIVE : Z := 2 ^ 16.

Record L2MemberKey := mkL2MemberKey { lm_vlan : Z; lm_slot : Z }.
#[global] Instance L2MemberKey_eq_dec : EqDecision L2MemberKey.
Proof. solve_decision. Defined.
#[global] Instance L2MemberKey_countable : Countable L2MemberKey.
Proof.
  refine (inj_countable' (λ k, (lm_vlan k, lm_slot k)) (λ '(x0, x1), mkL2MemberKey x0 x1) _). by intros [].
Defined.

Record VtepBdKey := mkVtepBdKey { vb_addr : list Z; vb_bd : Z }.
#[global] Instance VtepBdKey_eq_dec : EqDecision VtepBdKey.
Proof. solve_decision. Defined.
#[global] Instance VtepBdKey_countable : Countable VtepBdKey.
Proof.
  refine (inj_countable' (λ k, (vb_addr k, vb_bd k)) (λ '(x0, x1), mkVtepBdKey x0 x1) _). by intros [].
Defined.

Record EsDfKey := mkEsDfKey { ed_ifindex : Z; ed_bd : Z }.
#[global] Instance EsDfKey_eq_dec : EqDecision EsDfKey.
Proof. solve_decision. Defined.
#[global] Instance EsDfKey_countable : Countable EsDfKey.
Proof.
  refine (inj_countable' (λ k, (ed_ifindex k, ed_bd k)) (λ '(x0, x1), mkEsDfKey x0 x1) _). by intros [].
Defined.
Definition ES_DF_F_NON_DF : Z := 2 ^ 0.
Definition ES_DF_F_BLOCK : Z := 2 ^ 1.
Definition ETREE_F_LEAF : Z := 2 ^ 0.

Record PortConfig := mkPortConfig { pc_mac : list Z; pc_vlan : Z; pc_flags : Z; pc_vrf_id :
  Z }.
#[global] Instance PortConfig_eq_dec : EqDecision PortConfig.
Proof. solve_decision. Defined.
Definition PORT_F_L2 : Z := 2 ^ 0.
Definition PORT_F_L3 : Z := 2 ^ 1.
Definition PORT_F_ENDPOINT : Z := 2 ^ 2.
Definition IDENTITY_HOST : Z := 1.
Definition IDENTITY_WORLD : Z := 2.
Definition POLICY_DIR_INGRESS : Z := 0.
Definition POLICY_DIR_EGRESS : Z := 1.
Definition POLICY_KEY_GEN : Z := 2 ^ 1.
Definition EP_F_INGRESS : Z := 2 ^ 0.
Definition EP_F_EGRESS : Z := 2 ^ 1.
Definition EP_F_AUDIT : Z := 2 ^ 2.
Definition EP_F_GEN : Z := 2 ^ 3.
Definition PCT_POD_INITIATED : Z := 1.
Definition PCT_INBOUND : Z := 2.

Record VrfIdKey := mkVrfIdKey { vk_vrf_id : Z; vk_addr : Z }.
#[global] Instance VrfIdKey_eq_dec : EqDecision VrfIdKey.
Proof. solve_decision. Defined.
#[global] Instance VrfIdKey_countable : Countable VrfIdKey.
Proof.
  refine (inj_countable' (λ k, (vk_vrf_id k, vk_addr k)) (λ '(x0, x1), mkVrfIdKey x0 x1) _). by intros [].
Defined.

Record VrfId6Key := mkVrfId6Key { vk6_vrf_id : Z; vk6_addr : list Z }.
#[global] Instance VrfId6Key_eq_dec : EqDecision VrfId6Key.
Proof. solve_decision. Defined.
#[global] Instance VrfId6Key_countable : Countable VrfId6Key.
Proof.
  refine (inj_countable' (λ k, (vk6_vrf_id k, vk6_addr k)) (λ '(x0, x1), mkVrfId6Key x0 x1) _). by intros [].
Defined.
Definition POLICY_ALLOW : Z := 1.
Definition POLICY_DENY : Z := 2.

Record PolicyKey := mkPolicyKey { pol_ep : Z; pol_identity : Z; pol_port : Z; pol_proto : Z;
  pol_dir : Z }.
#[global] Instance PolicyKey_eq_dec : EqDecision PolicyKey.
Proof. solve_decision. Defined.
#[global] Instance PolicyKey_countable : Countable PolicyKey.
Proof.
  refine (inj_countable' (λ k, (pol_ep k, pol_identity k, pol_port k, pol_proto k, pol_dir k)) (λ '(x0, x1, x2, x3, x4), mkPolicyKey x0 x1 x2 x3 x4) _). by intros [].
Defined.

Record ServiceKey := mkServiceKey { sk_vip : Z; sk_port : Z; sk_proto : Z }.
#[global] Instance ServiceKey_eq_dec : EqDecision ServiceKey.
Proof. solve_decision. Defined.
#[global] Instance ServiceKey_countable : Countable ServiceKey.
Proof.
  refine (inj_countable' (λ k, (sk_vip k, sk_port k, sk_proto k)) (λ '(x0, x1, x2), mkServiceKey x0 x1 x2) _). by intros [].
Defined.

Record ServiceInfo := mkServiceInfo { si_backend_count : Z; si_lb_algo : Z; si_flags : Z;
  si_svc_id : Z }.
#[global] Instance ServiceInfo_eq_dec : EqDecision ServiceInfo.
Proof. solve_decision. Defined.
Definition LB_ALGO_RANDOM : Z := 0.
Definition LB_ALGO_MAGLEV : Z := 1.
Definition SVC_F_AFFINITY : Z := 2 ^ 0.

Record AffinityKey := mkAffinityKey { ak_svc_id : Z; ak_client : Z }.
#[global] Instance AffinityKey_eq_dec : EqDecision AffinityKey.
Proof. solve_decision. Defined.
#[global] Instance AffinityKey_countable : Countable AffinityKey.
Proof.
  refine (inj_countable' (λ k, (ak_svc_id k, ak_client k)) (λ '(x0, x1), mkAffinityKey x0 x1) _). by intros [].
Defined.

Record AffinityVal := mkAffinityVal { av_slot : Z; av_last_ns : Z }.
#[global] Instance AffinityVal_eq_dec : EqDecision AffinityVal.
Proof. solve_decision. Defined.
Definition AFFINITY_TIMEOUT_NS : Z := 10800 * 1000000000.

Record BackendKey := mkBackendKey { bk_svc_id : Z; bk_slot : Z }.
#[global] Instance BackendKey_eq_dec : EqDecision BackendKey.
Proof. solve_decision. Defined.
#[global] Instance BackendKey_countable : Countable BackendKey.
Proof.
  refine (inj_countable' (λ k, (bk_svc_id k, bk_slot k)) (λ '(x0, x1), mkBackendKey x0 x1) _). by intros [].
Defined.

Record Backend := mkBackend { be_addr : Z; be_port : Z; be_flags : Z }.
#[global] Instance Backend_eq_dec : EqDecision Backend.
Proof. solve_decision. Defined.

Record CtKey := mkCtKey { ct_src : Z; ct_dst : Z; ct_src_port : Z; ct_dst_port : Z; ct_proto
  : Z }.
#[global] Instance CtKey_eq_dec : EqDecision CtKey.
Proof. solve_decision. Defined.
#[global] Instance CtKey_countable : Countable CtKey.
Proof.
  refine (inj_countable' (λ k, (ct_src k, ct_dst k, ct_src_port k, ct_dst_port k, ct_proto k)) (λ '(x0, x1, x2, x3, x4), mkCtKey x0 x1 x2 x3 x4) _). by intros [].
Defined.

Record CtEntry := mkCtEntry { ce_rev_addr : Z; ce_rev_port : Z; ce_flags : Z; ce_last_seen :
  Z }.
#[global] Instance CtEntry_eq_dec : EqDecision CtEntry.
Proof. solve_decision. Defined.
Definition CT_F_DNAT : Z := 2 ^ 0.
Definition CT_F_SNAT : Z := 2 ^ 1.

Record ServiceKey6 := mkServiceKey6 { sk6_vip : list Z; sk6_port : Z; sk6_proto : Z }.
#[global] Instance ServiceKey6_eq_dec : EqDecision ServiceKey6.
Proof. solve_decision. Defined.
#[global] Instance ServiceKey6_countable : Countable ServiceKey6.
Proof.
  refine (inj_countable' (λ k, (sk6_vip k, sk6_port k, sk6_proto k)) (λ '(x0, x1, x2), mkServiceKey6 x0 x1 x2) _). by intros [].
Defined.

Record Backend6 := mkBackend6 { be6_addr : list Z; be6_port : Z; be6_flags : Z }.
#[global] Instance Backend6_eq_dec : EqDecision Backend6.
Proof. solve_decision. Defined.

Record CtKey6 := mkCtKey6 { ct6_src : list Z; ct6_dst : list Z; ct6_src_port : Z;
  ct6_dst_port : Z; ct6_proto : Z }.
#[global] Instance CtKey6_eq_dec : EqDecision CtKey6.
Proof. solve_decision. Defined.
#[global] Instance CtKey6_countable : Countable CtKey6.
Proof.
  refine (inj_countable' (λ k, (ct6_src k, ct6_dst k, ct6_src_port k, ct6_dst_port k, ct6_proto k)) (λ '(x0, x1, x2, x3, x4), mkCtKey6 x0 x1 x2 x3 x4) _). by intros [].
Defined.

Record CtEntry6 := mkCtEntry6 { ce6_rev_addr : list Z; ce6_rev_port : Z; ce6_flags : Z;
  ce6_last_seen : Z }.
#[global] Instance CtEntry6_eq_dec : EqDecision CtEntry6.
Proof. solve_decision. Defined.
Definition STAT_L2_FORWARD : Z := 0.
Definition STAT_L2_FLOOD : Z := 1.
Definition STAT_L3V4_FORWARD : Z := 2.
Definition STAT_L3V6_FORWARD : Z := 3.
Definition STAT_L3_LOCAL : Z := 4.
Definition STAT_L4_DNAT : Z := 5.
Definition STAT_L4_SNAT : Z := 6.
Definition STAT_DROP : Z := 7.
Definition STAT_L7_REDIRECT : Z := 8.
Definition STAT_MPLS_SWAP : Z := 9.
Definition STAT_MPLS_POP : Z := 10.
Definition STAT_MPLS_PUSH : Z := 11.
Definition STAT_FIB4_TBL24_HIT : Z := 12.
Definition STAT_FIB4_TBL8_HIT : Z := 13.
Definition STAT_FIB4_DEFAULT : Z := 14.
Definition STAT_FIB4_VRF_HIT : Z := 15.
Definition STAT_SRV6_ENCAP : Z := 16.
Definition STAT_SRV6_DECAP : Z := 17.
Definition STAT_FIB6_VRF_HIT : Z := 18.
Definition STAT_SRV6_END : Z := 19.
Definition STAT_SRV6_USID : Z := 20.
Definition STAT_SRV6_L2_ENCAP : Z := 21.
Definition STAT_SRV6_L2_DECAP : Z := 22.
Definition STAT_SRV6_L2_BUM : Z := 23.
Definition STAT_FDB_AGED : Z := 24.
Definition STAT_SRV6_HINSERT : Z := 25.
Definition STAT_NH_BACKUP : Z := 26.
Definition STAT_SRV6_ENDM : Z := 27.
Definition STAT_SRV6_PSP : Z := 28.
Definition STAT_SRV6_USP : Z := 29.
Definition STAT_SRV6_USD : Z := 30.
Definition STAT_SRV6_REPLACE : Z := 31.
Definition STAT_SRV6_B6 : Z := 32.
Definition STAT_SRV6_ENDT : Z := 33.
Definition STAT_SRV6_DX : Z := 34.
Definition STAT_GTP_ENCAP : Z := 35.
Definition STAT_GTP_DECAP : Z := 36.
Definition STAT_SRV6_DX2 : Z := 37.
Definition STAT_POLICY_DROP : Z := 38.
Definition STAT_MASQ : Z := 39.
Definition STAT_POLICY_AUDIT : Z := 40.
Definition STAT_VXLAN_ENCAP : Z := 41.
Definition STAT_VXLAN_DECAP : Z := 42.
Definition STAT_VXLAN_FLOOD : Z := 43.
Definition STAT_SRV6_REPLICATE : Z := 44.
Definition STAT_XDP_L3_FWD : Z := 45.
Definition STAT_MPLS_L2_ENCAP : Z := 46.
Definition STAT_MPLS_L2_DECAP : Z := 47.
Definition STAT_MPLS_L2_BUM : Z := 48.
Definition STAT_VXLAN_DX2 : Z := 49.
Definition STAT_MPLS_DX2 : Z := 50.
Definition STAT_L2_DROP_NONDF : Z := 51.
Definition STAT_L2_DROP_SPH : Z := 52.
Definition STAT_L2_ES_NHG : Z := 53.
Definition STAT_L2_DROP_SA : Z := 54.
Definition STAT_MPLS_L2_ESI_PUSH : Z := 55.
Definition STAT_MPLS_L2_ESI_POP : Z := 56.
Definition STAT_L2_DROP_ETREE_LOCAL : Z := 57.
Definition STAT_L2_DROP_ETREE_UC : Z := 58.
Definition STAT_MPLS_L2_LEAF_PUSH : Z := 59.
Definition STAT_MPLS_L2_LEAF_POP : Z := 60.
Definition STAT_L2_DROP_ETREE_BUM : Z := 61.
Definition STAT_SRV6_L2_LEAF_DECAP : Z := 62.
Definition STAT_SRV6_DROP_ARG : Z := 63.
Definition STAT_MAX : Z := 64.
Definition FLOW_FORWARDED : Z := 1.
Definition FLOW_DROPPED : Z := 2.
Definition FLOW_TRANSLATED : Z := 3.
Definition FLOW_AUDITED : Z := 4.
Definition FLOW_DIR_UNKNOWN : Z := 0.
Definition FLOW_DIR_INGRESS : Z := 1.
Definition FLOW_DIR_EGRESS : Z := 2.

Record FlowRecord := mkFlowRecord { fr_time_ns : Z; fr_ep_ifindex : Z; fr_saddr : list Z;
  fr_daddr : list Z; fr_sport : Z; fr_dport : Z; fr_proto : Z; fr_verdict : Z; fr_dir : Z;
  fr_peer_identity : Z }.
#[global] Instance FlowRecord_eq_dec : EqDecision FlowRecord.
Proof. solve_decision. Defined.
Definition L7_PROXY_PORT : Z := 18000.
Definition L7_PROXY_MARK : Z := 0x4c37.
