(* ===== verification/Common.v ===== *)
(** * The data-plane contract ([crates/cradle-common/src/lib.rs])

    The plain-old-data types shared by the eBPF data plane and the control
    plane, and the packed encodings both sides agree on: the DIR-24-8 slot
    word, the MPLS label stack entry and the End.DT2M argument.  IPv4 and
    IPv6 addresses, MACs and byte arrays are lists of bytes; integers are [Z]
    at their width. *)

From S2P Require Import Prelude.

(** ** L3: routes and the packed DIR-24-8 word *)

Record FibEntry := mkFibEntry { nexthop_id : Z; flags : Z }.

#[global] Instance FibEntry_eq_dec : EqDecision FibEntry.
Proof. solve_decision. Defined.

Definition FIB_F_BLACKHOLE : Z := 2 ^ 0.
Definition FIB_F_LOCAL : Z := 2 ^ 1.
Definition FIB_F_CONNECTED : Z := 2 ^ 2.
Definition FIB_F_ECMP : Z := 2 ^ 3.

Definition FIBW_VALID : Z := 2 ^ 31.
Definition FIBW_TBL8 : Z := 2 ^ 30.
Definition FIBW_FLAGS_SHIFT : Z := 26.
Definition FIBW_FLAGS_MASK : Z := 15.
Definition FIBW_ID_MASK : Z := 2 ^ 26 - 1.

Definition fibw_entry (nexthop_id flags : Z) : Z :=
  FIBW_VALID .| wrap 32 ((flags .& FIBW_FLAGS_MASK) ≪ FIBW_FLAGS_SHIFT)
             .| (nexthop_id .& FIBW_ID_MASK).

Definition fibw_group (group_idx : Z) : Z :=
  FIBW_VALID .| FIBW_TBL8 .| (group_idx .& FIBW_ID_MASK).

Definition fibw_unpack (w : Z) : Z * Z :=
  (w .& FIBW_ID_MASK, (w ≫ FIBW_FLAGS_SHIFT) .& FIBW_FLAGS_MASK).

Definition DIR24_TBL8_GROUPS : Z := 4096.
Definition DPC_FIB4_DIR24 : Z := 2 ^ 0.
Definition DPC_L3_ONLY : Z := 2 ^ 1.

(** ** MPLS label stack entries: Label(20) | TC(3) | S(1) | TTL(8) *)

Definition mpls_lse (label tc s ttl : Z) : Z :=
  wrap 32 ((label .& 0xfffff) ≪ 12) .| ((tc .& 7) ≪ 9) .| ((s .& 1) ≪ 8) .| ttl.

Definition mpls_lse_unpack (lse : Z) : Z * Z * Z * Z :=
  (lse ≫ 12, (lse ≫ 9) .& 7, (lse ≫ 8) .& 1, lse .& 0xff).

(** ** The End.DT2M argument: [len] bits at offset [off] of an address *)

Definition sid_arg (hi lo off len : Z) : option Z :=
  if negb (len =? 8) && negb (len =? 16) then None else
  let '(half, off) := if 64 <=? off then (lo, off - 64) else (hi, off) in
  if 64 <? off + len then None else
  let shift := 64 - off - len in
  Some (wrap 32 ((half ≫ shift) .& (wrap 64 (1 ≪ len) - 1))).

#[global] Arguments fibw_entry : simpl never.
#[global] Arguments fibw_group : simpl never.
#[global] Arguments fibw_unpack : simpl never.

(** The packed word as a sum of its fields. *)
Lemma fibw_entry_fields nh fl :
  fibw_entry nh fl = 2 ^ 31 + (fl mod 2 ^ 4) * 2 ^ 26 + nh mod 2 ^ 26.
Proof.
  unfold fibw_entry, FIBW_VALID, FIBW_FLAGS_MASK, FIBW_FLAGS_SHIFT, FIBW_ID_MASK, wrap.
  change 15 with (2 ^ 4 - 1). rewrite !land_ones', shl_mul by lia.
  pose proof (Z.mod_pos_bound fl (2 ^ 4)). pose proof (Z.mod_pos_bound nh (2 ^ 26)).
  rewrite (Z.mod_small (_ * _)) by lia.
  replace (2 ^ 31) with (1 * 2 ^ 31) by lia.
  rewrite lor_add by lia.
  replace (1 * 2 ^ 31 + fl mod 2 ^ 4 * 2 ^ 26)
    with ((1 * 2 ^ 5 + fl mod 2 ^ 4) * 2 ^ 26) by lia.
  rewrite lor_add by lia. lia.
Qed.

Lemma fibw_group_fields g : fibw_group g = 2 ^ 31 + 2 ^ 30 + g mod 2 ^ 26.
Proof.
  unfold fibw_group, FIBW_VALID, FIBW_TBL8, FIBW_ID_MASK.
  rewrite land_ones' by lia. pose proof (Z.mod_pos_bound g (2 ^ 26)).
  replace (2 ^ 31) with (1 * 2 ^ 31) by lia. rewrite lor_add by lia.
  replace (1 * 2 ^ 31 + 2 ^ 30) with ((2 ^ 5 + 2 ^ 4) * 2 ^ 26) by lia.
  rewrite lor_add by lia. lia.
Qed.

Lemma fibw_entry_valid nh fl : has (fibw_entry nh fl) FIBW_VALID = true.
Proof.
  unfold FIBW_VALID. rewrite has_pow2, testbit_div, fibw_entry_fields by lia.
  pose proof (Z.mod_pos_bound fl (2 ^ 4)). pose proof (Z.mod_pos_bound nh (2 ^ 26)).
  replace (_ / 2 ^ 31) with 1; [done|]. apply Z.div_unique with (r := (fl mod 2 ^ 4) * 2 ^ 26 + nh mod 2 ^ 26); lia.
Qed.

Lemma fibw_entry_direct nh fl : has (fibw_entry nh fl) FIBW_TBL8 = false.
Proof.
  unfold FIBW_TBL8. rewrite has_pow2, testbit_div, fibw_entry_fields by lia.
  pose proof (Z.mod_pos_bound fl (2 ^ 4)). pose proof (Z.mod_pos_bound nh (2 ^ 26)).
  replace (_ / 2 ^ 30) with 2; [done|]. apply Z.div_unique with (r := (fl mod 2 ^ 4) * 2 ^ 26 + nh mod 2 ^ 26); lia.
Qed.

Lemma fibw_group_tbl8 g : has (fibw_group g) FIBW_TBL8 = true.
Proof.
  unfold FIBW_TBL8. rewrite has_pow2, testbit_div, fibw_group_fields by lia.
  pose proof (Z.mod_pos_bound g (2 ^ 26)).
  replace (_ / 2 ^ 30) with 3; [done|]. apply Z.div_unique with (r := g mod 2 ^ 26); lia.
Qed.

Lemma fibw_group_id g : fibw_group g .& FIBW_ID_MASK = g mod 2 ^ 26.
Proof.
  unfold FIBW_ID_MASK. rewrite land_ones', fibw_group_fields by lia.
  replace (2 ^ 31 + 2 ^ 30 + g mod 2 ^ 26) with (g mod 2 ^ 26 + 48 * 2 ^ 26) by lia.
  rewrite Z.mod_add by lia. apply Z.mod_mod. lia.
Qed.

Lemma fibw_unpack_entry nh fl :
  fibw_unpack (fibw_entry nh fl) = (nh mod 2 ^ 26, fl mod 2 ^ 4).
Proof.
  unfold fibw_unpack, FIBW_ID_MASK, FIBW_FLAGS_SHIFT, FIBW_FLAGS_MASK.
  change 15 with (2 ^ 4 - 1). rewrite !land_ones', shr_div by lia.
  rewrite fibw_entry_fields.
  pose proof (Z.mod_pos_bound fl (2 ^ 4)). pose proof (Z.mod_pos_bound nh (2 ^ 26)).
  f_equal.
  - replace (2 ^ 31 + fl mod 2 ^ 4 * 2 ^ 26 + nh mod 2 ^ 26)
      with (nh mod 2 ^ 26 + (2 ^ 5 + fl mod 2 ^ 4) * 2 ^ 26) by lia.
    rewrite Z.mod_add by lia. apply Z.mod_mod. lia.
  - replace (_ / 2 ^ 26) with (fl mod 2 ^ 4 + 2 * 2 ^ 4).
    + rewrite Z.mod_add by lia. apply Z.mod_mod. lia.
    + apply Z.div_unique with (r := nh mod 2 ^ 26); lia.
Qed.

Lemma invalid_word flag : has 0 flag = false.
Proof. unfold has. by rewrite Z.land_0_l. Qed.

(** ** Label stack entries and arguments *)

Lemma mpls_lse_fields label tc s ttl : u8 ttl →
  mpls_lse label tc s ttl = label mod 2 ^ 20 * 2 ^ 12 + tc mod 2 ^ 3 * 2 ^ 9 + s mod 2 ^ 1 * 2 ^ 8 + ttl.
Proof.
  unfold in_range, mpls_lse, wrap. intros Ht.
  change 0xfffff with (2 ^ 20 - 1). change 7 with (2 ^ 3 - 1). change (s .& 1) with (s .& (2 ^ 1 - 1)).
  rewrite !land_ones', !shl_mul by lia.
  pose proof (Z.mod_pos_bound label (2 ^ 20)). pose proof (Z.mod_pos_bound tc (2 ^ 3)).
  pose proof (Z.mod_pos_bound s (2 ^ 1)).
  set (l := label mod _) in *. set (t := tc mod _) in *. set (b := s mod _) in *.
  rewrite (Z.mod_small (l * _)) by lia.
  rewrite (lor_add 12) by lia.
  replace (l * 2 ^ 12 + t * 2 ^ 9) with ((l * 2 ^ 3 + t) * 2 ^ 9) by lia.
  rewrite (lor_add 9) by lia.
  replace ((l * 2 ^ 3 + t) * 2 ^ 9 + b * 2 ^ 8) with (((l * 2 ^ 3 + t) * 2 + b) * 2 ^ 8) by lia.
  rewrite (lor_add 8) by lia. lia.
Qed.

Lemma mpls_lse_unpack_fields z :
  mpls_lse_unpack z = (z / 2 ^ 12, z / 2 ^ 9 mod 2 ^ 3, z / 2 ^ 8 mod 2 ^ 1, z mod 2 ^ 8).
Proof.
  unfold mpls_lse_unpack. change 7 with (2 ^ 3 - 1). change ((z ≫ 8) .& 1) with ((z ≫ 8) .& (2 ^ 1 - 1)).
  change 0xff with (2 ^ 8 - 1). by rewrite !land_ones', !shr_div by lia.
Qed.

(** What is packed is unpacked, each field at its width. *)
Lemma mpls_lse_unpack_pack label tc s ttl : u8 ttl →
  mpls_lse_unpack (mpls_lse label tc s ttl) = (label mod 2 ^ 20, tc mod 2 ^ 3, s mod 2 ^ 1, ttl).
Proof.
  intros Ht. rewrite mpls_lse_fields, mpls_lse_unpack_fields by done. unfold in_range in *.
  pose proof (Z.mod_pos_bound label (2 ^ 20)). pose proof (Z.mod_pos_bound tc (2 ^ 3)).
  pose proof (Z.mod_pos_bound s (2 ^ 1)).
  set (l := label mod _) in *. set (t := tc mod _) in *. set (b := s mod _) in *. clearbody l t b.
  repeat f_equal; divlia.
Qed.

Lemma mpls_lse_range label tc s ttl : u8 ttl → u32 (mpls_lse label tc s ttl).
Proof. intros Ht. rewrite mpls_lse_fields by done. unfold in_range in *. divlia. Qed.

(** Every 32-bit word is the packing of its fields. *)
Lemma mpls_lse_pack_unpack z : u32 z →
  let '(label, tc, s, ttl) := mpls_lse_unpack z in mpls_lse label tc s ttl = z.
Proof.
  unfold in_range. intros Hz. rewrite mpls_lse_unpack_fields, mpls_lse_fields by (unfold in_range; divlia).
  divlia.
Qed.

(** The argument is the [len] bits after the first [off] of the 128. *)
Lemma sid_arg_spec hi lo off len : u64 hi → u64 lo → 0 ≤ off →
  sid_arg hi lo off len =
    if decide ((len = 8 ∨ len = 16) ∧ (off + len ≤ 64 ∨ 64 ≤ off ∧ off + len ≤ 128))
    then Some ((hi * 2 ^ 64 + lo) / 2 ^ (128 - off - len) mod 2 ^ len) else None.
Proof.
  intros Hh Hl Ho. unfold sid_arg, in_range in *.
  assert (∀ half o, 0 ≤ half < 2 ^ 64 → 0 ≤ o → o + len ≤ 64 → len = 8 ∨ len = 16 →
    wrap 32 ((half ≫ (64 - o - len)) .& (wrap 64 (1 ≪ len) - 1)) = half / 2 ^ (64 - o - len) mod 2 ^ len) as Hhalf.
  { intros half o Hhf Hoo Hfit Hlen. unfold wrap. rewrite shl_mul by lia.
    assert (2 ^ len ≤ 2 ^ 16) by (apply Z.pow_le_mono_r; lia).
    rewrite Z.mul_1_l, (Z.mod_small (2 ^ len)) by (destruct Hlen as [-> | ->]; lia).
    rewrite land_ones', shr_div by lia.
    pose proof (Z.mod_pos_bound (half / 2 ^ (64 - o - len)) (2 ^ len) ltac:(lia)).
    apply Z.mod_small. lia. }
  destruct (negb (len =? 8) && negb (len =? 16)) eqn:E.
  { apply andb_true_iff in E as [?%negb_true_iff%Z.eqb_neq ?%negb_true_iff%Z.eqb_neq].
    rewrite decide_False by tauto. done. }
  assert (len = 8 ∨ len = 16) as Hlen.
  { apply andb_false_iff in E as [?%negb_false_iff%Z.eqb_eq|?%negb_false_iff%Z.eqb_eq]; tauto. }
  destruct (Z.leb_spec 64 off) as [H64|H64]; cbn [fst snd].
  - destruct (Z.ltb_spec 64 (off - 64 + len)) as [Hf|Hf].
    + rewrite decide_False by lia. done.
    + rewrite decide_True by lia. rewrite Hhalf by lia. f_equal.
      replace (64 - (off - 64) - len) with (128 - off - len) by lia.
      set (k := 128 - off - len). assert (0 ≤ k ∧ k + len ≤ 64) as Hk by lia.
      replace (hi * 2 ^ 64) with (hi * 2 ^ (64 - k - len) * 2 ^ len * 2 ^ k).
      2:{ rewrite <- !Z.mul_assoc, <- !Z.pow_add_r by lia. do 2 f_equal. lia. }
      rewrite Z.div_add_l by lia. rewrite Z.add_comm, Z.mod_add by lia. done.
  - destruct (Z.ltb_spec 64 (off + len)) as [Hf|Hf].
    + rewrite decide_False by lia. done.
    + rewrite decide_True by lia. rewrite Hhalf by lia. f_equal. f_equal.
      replace (128 - off - len) with (64 + (64 - off - len)) by lia.
      rewrite Z.pow_add_r, <- Z.div_div by lia. f_equal.
      rewrite Z.div_add_l by lia. rewrite Z.div_small; lia.
Qed.

#[export] Hint Rewrite fibw_entry_valid fibw_entry_direct fibw_group_tbl8
  fibw_group_id fibw_unpack_entry invalid_word : cradle.
