(* ===== verification/Dir24.v ===== *)
(** * The DIR-24-8 engine ([crates/cradle/src/dir24.rs]) and its lookup

    The user-space expansion engine that turns route changes into packed-word
    slot writes, the three BPF arrays it programs ([TBL24], [TBL8],
    [DEFAULT4]), the control plane's [dir24_apply], and the data plane's
    lookup over them ([fib4_lookup] in [crates/cradle-ebpf/src/main.rs], the
    DIR-24-8 arm).  Definitions only: [Dir24Lpm], [Dir24Inv] and
    [Dir24Correct] hold the theory. *)

From S2P Require Import Prelude.
From S2P Require Import Contract.
From S2P Require Import Common.

(** One map write of a plan; [Tbl8] indices are absolute. *)
Inductive SlotWrite : Type :=
| Tbl24 (idx word : Z)
| Tbl8 (idx word : Z)
| Default (word : Z).

Inductive Dir24Err : Type :=
| BadPrefixLength (len : Z)
| PoolExhausted (groups_in_use : nat)
| BatchExhausted (needed available : nat).

Definition QUARANTINE_DEPTH : nat := 64.

Record Dir24Engine := mkEngine {
  shadow : gmap (Z * Z) FibEntry;      (* (network, prefix_len) -> entry *)
  long_count : gmap Z Z;               (* /24 block -> routes longer than /24 *)
  groups : gmap Z Z;                   (* /24 block -> TBL8 group *)
  free : list Z;                       (* Vec: pop takes the last *)
  quarantine : list Z;                 (* VecDeque: pop_front takes the head *)
}.

Definition set_shadow f e :=
  mkEngine (f (shadow e)) (long_count e) (groups e) (free e) (quarantine e).
Definition set_long_count f e :=
  mkEngine (shadow e) (f (long_count e)) (groups e) (free e) (quarantine e).
Definition set_groups f e :=
  mkEngine (shadow e) (long_count e) (f (groups e)) (free e) (quarantine e).
Definition set_free f e :=
  mkEngine (shadow e) (long_count e) (groups e) (f (free e)) (quarantine e).
Definition set_quarantine f e :=
  mkEngine (shadow e) (long_count e) (groups e) (free e) (f (quarantine e)).

(** [u32::MAX << (32 - len)], 0 for length 0. *)
Definition mask (len : Z) : Z :=
  if len =? 0 then 0 else wrap 32 ((2 ^ 32 - 1) ≪ (32 - len)).

Definition new_engine (n_groups : Z) : Dir24Engine :=
  mkEngine ∅ ∅ ∅ (rev (seqZ 0 n_groups)) [].

Definition affected_blocks (addr len : Z) : list Z :=
  let first := addr ≫ 8 in
  if 24 <? len then seqZ first 1 else seqZ first (1 ≪ (24 - len)).

(** The prefix lengths [hi, hi - 1, .., lo] the covering-route loops visit. *)
Definition lens_down (hi lo : Z) : list Z := rev (seqZ lo (hi - lo + 1)).

(** The most specific route among the given lengths that covers [addr]. *)
Definition cover (sh : gmap (Z * Z) FibEntry) (lens : list Z) (addr : Z) : option FibEntry :=
  first_some (λ len, sh !! (addr .& mask len, len)) lens.

Definition word_of (o : option FibEntry) : Z :=
  match o with Some e => fibw_entry (nexthop_id e) (flags e) | None => 0 end.

Definition slot_word (sh : gmap (Z * Z) FibEntry) (blk low : Z) : Z :=
  word_of (cover sh (lens_down 32 1) ((blk ≪ 8) .| low)).

Definition block_cover_word (sh : gmap (Z * Z) FibEntry) (blk : Z) : Z :=
  word_of (cover sh (lens_down 24 1) (blk ≪ 8)).

(** Reference longest-prefix match over the shadow, the default included. *)
Definition lookup_lpm (e : Dir24Engine) (addr : Z) : option FibEntry :=
  cover (shadow e) (lens_down 32 0) addr.

Definition alloc_group : M Dir24Engine Dir24Err Z :=
  e ← get;
  match vec_pop (free e) with
  | Some (g, rest) => _ ← modify (set_free (λ _, rest)); mret g
  | None =>
      match quarantine e with
      | g :: rest => _ ← modify (set_quarantine (λ _, rest)); mret g
      | [] => bail (PoolExhausted (size (groups e)))
      end
  end.

(** The 256 writes that fill group [g] with block [blk]'s slots. *)
Definition fill_group (sh : gmap (Z * Z) FibEntry) (blk g : Z) : list SlotWrite :=
  (λ low, Tbl8 (wrap 32 (g * 256 + low)) (slot_word sh blk low)) <$> seqZ 0 256.

(** [while quarantine.len() > QUARANTINE_DEPTH { free.push(pop_front()) }]. *)
Fixpoint drain_quarantine (fuel : nat) (fr qu : list Z) : list Z * list Z :=
  match fuel, qu with
  | S fuel, g :: rest =>
      if (QUARANTINE_DEPTH <? length qu)%nat
      then drain_quarantine fuel (fr ++ [g]) rest
      else (fr, qu)
  | _, _ => (fr, qu)
  end.

Definition quarantine_group (g : Z) (e : Dir24Engine) : Dir24Engine :=
  let qu := quarantine e ++ [g] in
  let '(fr, qu) := drain_quarantine (length qu) (free e) qu in
  set_quarantine (λ _, qu) (set_free (λ _, fr) e).

(** Recompute one /24 block from the shadow; the writes are pushed on [out]. *)
Definition sync_block (out : list SlotWrite) (blk : Z) : M Dir24Engine Dir24Err (list SlotWrite) :=
  e ← get;
  let has_long := 0 <? default 0 (long_count e !! blk) in
  if has_long then
    match groups e !! blk with
    | Some g => mret (out ++ fill_group (shadow e) blk g)
    | None =>
        g ← alloc_group;
        _ ← modify (set_groups <[blk := g]>);
        mret (out ++ fill_group (shadow e) blk g ++ [Tbl24 blk (fibw_group g)])
    end
  else
    let out := out ++ [Tbl24 blk (block_cover_word (shadow e) blk)] in
    match groups e !! blk with
    | Some g =>
        _ ← modify (set_groups (delete blk));
        _ ← modify (quarantine_group g);
        mret out
    | None => mret out
    end.

(** [*long_count.entry(blk).or_insert(0) += 1]. *)
Definition long_incr (blk : Z) (lc : gmap Z Z) : gmap Z Z :=
  <[blk := wrap 32 (default 0 (lc !! blk) + 1)]> lc.

(** [if let Some(c) = get_mut { *c -= 1; if *c == 0 { remove } }]. *)
Definition long_decr (blk : Z) (lc : gmap Z Z) : gmap Z Z :=
  match lc !! blk with
  | Some c => if wrap 32 (c - 1) =? 0 then delete blk lc else <[blk := wrap 32 (c - 1)]> lc
  | None => lc
  end.

(** [shadow.insert] with the long-route count of a fresh long prefix. *)
Definition shadow_insert (addr len : Z) (entry : FibEntry) (e : Dir24Engine) : Dir24Engine :=
  let prev := shadow e !! (addr, len) in
  let e := set_shadow <[(addr, len) := entry]> e in
  match prev with
  | None => if 24 <? len then set_long_count (long_incr (addr ≫ 8)) e else e
  | Some _ => e
  end.

Definition route_add (addr len : Z) (entry : FibEntry) : M Dir24Engine Dir24Err (list SlotWrite) :=
  if 32 <? len then bail (BadPrefixLength len) else
  let addr := addr .& mask len in
  if len =? 0 then
    _ ← modify (set_shadow <[(addr, len) := entry]>);
    mret [Default (fibw_entry (nexthop_id entry) (flags entry))]
  else
    let blk := addr ≫ 8 in
    e ← get;
    if (24 <? len) && bool_decide (groups e !! blk = None)
       && bool_decide (free e = []) && bool_decide (quarantine e = [])
    then bail (PoolExhausted (size (groups e)))
    else
      _ ← modify (shadow_insert addr len entry);
      mfold sync_block (affected_blocks addr len) [].

Definition route_del (addr len : Z) : M Dir24Engine Dir24Err (list SlotWrite) :=
  if 32 <? len then bail (BadPrefixLength len) else
  let addr := addr .& mask len in
  e ← get;
  match shadow e !! (addr, len) with
  | None => mret []
  | Some _ =>
      _ ← modify (set_shadow (delete (addr, len)));
      if len =? 0 then mret [Default 0] else
      _ ← modify (λ e, if 24 <? len then set_long_count (long_decr (addr ≫ 8)) e else e);
      mfold sync_block (affected_blocks addr len) []
  end.

(** The capacity pre-check of a batch: the group-less blocks it needs. *)
Fixpoint batch_demand (gr : gmap Z Z) (routes : list (Z * Z * FibEntry)) (need : gset Z)
    : res Dir24Err (gset Z) :=
  match routes with
  | [] => Ok need
  | (addr, len, _) :: routes =>
      if 32 <? len then Err (BadPrefixLength len) else
      let blk := (addr .& mask len) ≫ 8 in
      batch_demand gr routes
        (if (24 <? len) && bool_decide (gr !! blk = None) then {[blk]} ∪ need else need)
  end.

(** One route of the batch's mutation loop: [(out, affected)]. *)
Definition bulk_insert (acc : list SlotWrite * gset Z) (r : Z * Z * FibEntry)
    : M Dir24Engine Dir24Err (list SlotWrite * gset Z) :=
  let '(out, affected) := acc in
  let '(addr, len, entry) := r in
  let addr := addr .& mask len in
  if len =? 0 then
    _ ← modify (set_shadow <[(addr, len) := entry]>);
    mret (out ++ [Default (fibw_entry (nexthop_id entry) (flags entry))], affected)
  else
    _ ← modify (shadow_insert addr len entry);
    mret (out, list_to_set (affected_blocks addr len) ∪ affected).

(** A [BTreeSet<u32>] is iterated in increasing order. *)
Definition in_order (s : gset Z) : list Z := merge_sort Z.le (elements s).

Definition route_add_bulk (routes : list (Z * Z * FibEntry)) : M Dir24Engine Dir24Err (list SlotWrite) :=
  e ← get;
  match batch_demand (groups e) routes ∅ with
  | Err er => bail er
  | Ok need =>
      let avail := (length (free e) + length (quarantine e))%nat in
      if (avail <? size need)%nat then bail (BatchExhausted (size need) avail) else
      '(out, affected) ← mfold bulk_insert routes ([], ∅);
      mfold sync_block (in_order affected) out
  end.

Definition groups_in_use (e : Dir24Engine) : nat := size (groups e).
Definition route_count (e : Dir24Engine) : nat := size (shadow e).
Definition routes (e : Dir24Engine) : list (Z * Z * FibEntry) :=
  (λ '((net, len), entry), (net, len, entry)) <$> map_to_list (shadow e).
Definition tbl8_free (e : Dir24Engine) : nat := (length (free e) + length (quarantine e))%nat.

(** ** The arrays and the data plane's lookup *)

(** A BPF array: [entries] zero-initialised words. *)
Record Array := mkArray { entries : Z; cells : gmap Z Z }.

Definition array_get (a : Array) (i : Z) : option Z :=
  if bool_decide (0 ≤ i < entries a) then Some (default 0 (cells a !! i)) else None.

(** [Array::set]: an out-of-range index is an error and changes nothing. *)
Definition array_set (i w : Z) (a : Array) : option Array :=
  if bool_decide (0 ≤ i < entries a) then Some (mkArray (entries a) (<[i := w]> (cells a))) else None.

Record Tables := mkTables { tbl24 : Array; tbl8 : Array; default4 : Array }.

(** The arrays as the loader sizes them in dir24 mode. *)
Definition new_tables (n_groups : Z) : Tables :=
  mkTables (mkArray (2 ^ 24) ∅) (mkArray (n_groups * 256) ∅) (mkArray 1 ∅).

Definition apply_write (t : Tables) (w : SlotWrite) : option Tables :=
  match w with
  | Tbl24 idx word => a ← array_set idx word (tbl24 t); Some (mkTables a (tbl8 t) (default4 t))
  | Tbl8 idx word => a ← array_set idx word (tbl8 t); Some (mkTables (tbl24 t) a (default4 t))
  | Default word => a ← array_set 0 word (default4 t); Some (mkTables (tbl24 t) (tbl8 t) a)
  end.

(** [dir24_apply]: the writes in plan order, stopping at the first error. *)
Fixpoint dir24_apply (plan : list SlotWrite) (t : Tables) : option Tables :=
  match plan with
  | [] => Some t
  | w :: plan => t' ← apply_write t w; dir24_apply plan t'
  end.

(** [fib4_lookup]'s DIR-24-8 arm on the host-order address, with the
    counters it bumps. *)
Definition dir24_lookup (t : Tables) (dst : Z) : option FibEntry * list Z :=
  match array_get (tbl24 t) (dst ≫ 8) with
  | None => (None, [])
  | Some w =>
      let step :=
        if has w FIBW_TBL8 then
          w ← array_get (tbl8 t) (wrap 32 ((w .& FIBW_ID_MASK) * 256 + (dst .& 255)));
          Some (w, if has w FIBW_VALID then [STAT_FIB4_TBL8_HIT] else [])
        else Some (w, if has w FIBW_VALID then [STAT_FIB4_TBL24_HIT] else []) in
      match step with
      | None => (None, [])
      | Some (w, st) =>
          let step :=
            if has w FIBW_VALID then Some (w, st)
            else w ← array_get (default4 t) 0;
                 if has w FIBW_VALID then Some (w, st ++ [STAT_FIB4_DEFAULT]) else None in
          match step with
          | None => (None, st)
          | Some (w, st) => let '(nh, fl) := fibw_unpack w in (Some (mkFibEntry nh fl), st)
          end
      end
  end.
