(* ===== verification/Dir24Lpm.v ===== *)
(** * Prefixes, blocks and covering routes

    The arithmetic under the DIR-24-8 engine: what masking an address keeps,
    which /24 blocks a prefix covers, and how the covering-route searches of
    [Dir24] react to a shadow update. *)

From S2P Require Import Prelude.
From S2P Require Import Common.
From S2P Require Import Dir24.

(** ** Masks *)

Lemma mask_shift len : 0 ≤ len ≤ 32 → mask len = Z.ones len ≪ (32 - len).
Proof.
  intros H. unfold mask. destruct (Z.eqb_spec len 0) as [->|]; [done|].
  unfold wrap. rewrite !shl_mul by lia. rewrite Z.ones_equiv.
  assert (2 ^ 32 = 2 ^ len * 2 ^ (32 - len)) as E.
  { rewrite <- Z.pow_add_r by lia. f_equal; lia. }
  rewrite E. pose proof (Z.pow_pos_nonneg 2 len). pose proof (Z.pow_pos_nonneg 2 (32 - len)).
  rewrite Z.mul_mod_distr_r by lia. f_equal.
  replace (2 ^ len * 2 ^ (32 - len) - 1) with (2 ^ len - 1 + (2 ^ (32 - len) - 1) * 2 ^ len) by lia.
  rewrite Z.mod_add by lia. rewrite Z.mod_small; lia.
Qed.

(** Masking keeps the network part. *)
Lemma land_mask a len : u32 a → 0 ≤ len ≤ 32 →
  a .& mask len = (a / 2 ^ (32 - len)) * 2 ^ (32 - len).
Proof.
  intros Ha H. rewrite mask_shift by done.
  rewrite <- shl_mul, <- shr_div by lia.
  apply Z.bits_inj'. intros n Hn.
  rewrite Z.land_spec, !Z.shiftl_spec by lia.
  destruct (decide (n < 32 - len)).
  - rewrite !(Z.testbit_neg_r _ (n - (32 - len))) by lia. apply andb_false_r.
  - rewrite Z.shiftr_spec by lia.
    replace (n - (32 - len) + (32 - len)) with n by lia.
    destruct (decide (n < 32)).
    + rewrite Z.ones_spec_low by lia. apply andb_true_r.
    + unfold in_range in Ha. rewrite <- (Z.mod_small a (2 ^ 32)) by done.
      by rewrite Z.mod_pow2_bits_high by lia.
Qed.

Lemma land_mask_le a len : u32 a → 0 ≤ len ≤ 32 → 0 ≤ a .& mask len ≤ a.
Proof.
  intros Ha H. rewrite land_mask by done. unfold in_range in *.
  pose proof (Z.pow_pos_nonneg 2 (32 - len)).
  pose proof (Z.mul_div_le a (2 ^ (32 - len))).
  pose proof (Z.div_pos a (2 ^ (32 - len))). nia.
Qed.

Lemma land_mask_u32 a len : u32 a → 0 ≤ len ≤ 32 → u32 (a .& mask len).
Proof. intros Ha H. pose proof (land_mask_le a len Ha H). unfold in_range in *. lia. Qed.

Lemma land_mask_eq a b len : u32 a → u32 b → 0 ≤ len ≤ 32 →
  a .& mask len = b .& mask len ↔ a / 2 ^ (32 - len) = b / 2 ^ (32 - len).
Proof.
  intros. rewrite !land_mask by done. pose proof (Z.pow_pos_nonneg 2 (32 - len)). nia.
Qed.

Lemma land_mask_div a len : u32 a → 0 ≤ len ≤ 32 →
  (a .& mask len) / 2 ^ (32 - len) = a / 2 ^ (32 - len).
Proof.
  intros. rewrite land_mask by done. apply Z.div_mul.
  pose proof (Z.pow_pos_nonneg 2 (32 - len)). lia.
Qed.

Lemma land_mask_idem a len : u32 a → 0 ≤ len ≤ 32 →
  (a .& mask len) .& mask len = a .& mask len.
Proof.
  intros. apply land_mask_eq; [by apply land_mask_u32|done..|].
  by apply land_mask_div.
Qed.

Lemma land_mask_0 a : a .& mask 0 = 0.
Proof. apply Z.land_0_r. Qed.

(** ** Blocks *)

Definition block_addr (blk low : Z) : Z := blk * 256 + low.

Lemma block_addr_bits blk low : 0 ≤ low < 256 → (blk ≪ 8) .| low = block_addr blk low.
Proof. intros H. rewrite shl_mul by lia. by apply (lor_add 8). Qed.

Lemma block_addr_u32 blk low : in_range 24 blk → 0 ≤ low < 256 → u32 (block_addr blk low).
Proof. unfold in_range, block_addr. intros. lia. Qed.

Lemma block_of a : u32 a → in_range 24 (a ≫ 8).
Proof. intros H. rewrite shr_div by lia. unfold in_range in *. change (2 ^ 8) with 256. divlia. Qed.

Lemma block_addr_split a : u32 a → a = block_addr (a ≫ 8) (a .& 255).
Proof.
  intros H. unfold block_addr. rewrite shr_div by lia.
  change 255 with (2 ^ 8 - 1). rewrite land_ones' by lia. change (2 ^ 8) with 256. divlia.
Qed.

Lemma low_range a : 0 ≤ a .& 255 < 256.
Proof. change 255 with (2 ^ 8 - 1). rewrite land_ones' by lia. apply Z.mod_pos_bound. lia. Qed.

Lemma block_addr_blk blk low : 0 ≤ low < 256 → block_addr blk low ≫ 8 = blk.
Proof. intros. rewrite shr_div by lia. unfold block_addr. change (2 ^ 8) with 256. divlia. Qed.

Lemma block_addr_low blk low : 0 ≤ low < 256 → block_addr blk low .& 255 = low.
Proof.
  intros. change 255 with (2 ^ 8 - 1). rewrite land_ones' by lia.
  unfold block_addr. change (2 ^ 8) with 256. divlia.
Qed.

(** A prefix no longer than /24 sees only the block number. *)
Lemma short_div a len : 0 ≤ len ≤ 24 → a / 2 ^ (32 - len) = (a ≫ 8) / 2 ^ (24 - len).
Proof.
  intros H. rewrite shr_div by lia. rewrite Z.div_div by lia.
  rewrite <- Z.pow_add_r by lia. f_equal. f_equal. lia.
Qed.

Lemma affected_short a len blk : 0 ≤ len ≤ 24 →
  blk ∈ affected_blocks a len ↔ a ≫ 8 ≤ blk < a ≫ 8 + 2 ^ (24 - len).
Proof.
  intros H. unfold affected_blocks. rewrite (proj2 (Z.ltb_ge _ _)) by lia.
  rewrite shl_mul, elem_of_seqZ by lia. lia.
Qed.

Lemma affected_long a len blk : 24 < len → blk ∈ affected_blocks a len ↔ blk = a ≫ 8.
Proof.
  intros H. unfold affected_blocks. rewrite (proj2 (Z.ltb_lt _ _)) by lia.
  rewrite elem_of_seqZ. lia.
Qed.

(** An address under a prefix lies in one of the prefix's blocks. *)
Lemma covered_affected a len x : u32 a → u32 x → 1 ≤ len ≤ 32 →
  x .& mask len = a .& mask len → x ≫ 8 ∈ affected_blocks (a .& mask len) len.
Proof.
  intros Ha Hx Hl E. destruct (decide (24 < len)).
  - rewrite affected_long by done. rewrite <- E.
    rewrite land_mask by (done || lia). rewrite !shr_div by lia.
    replace (2 ^ 8) with (2 ^ (32 - len) * 2 ^ (len - 24))
      by (rewrite <- Z.pow_add_r by lia; f_equal; lia).
    pose proof (Z.pow_pos_nonneg 2 (32 - len)). pose proof (Z.pow_pos_nonneg 2 (len - 24)).
    rewrite <- !Z.div_div by lia. by rewrite Z.div_mul by lia.
  - rewrite affected_short by lia. apply land_mask_eq in E; [|done..|lia].
    rewrite !short_div in E by lia.
    assert ((a .& mask len) ≫ 8 = ((a ≫ 8) / 2 ^ (24 - len)) * 2 ^ (24 - len)) as ->.
    { rewrite land_mask by (done || lia). rewrite short_div by lia.
      replace (2 ^ (32 - len)) with (2 ^ (24 - len) * 2 ^ 8)
        by (rewrite <- Z.pow_add_r by lia; f_equal; lia).
      rewrite (shr_div 8) by lia. rewrite Z.mul_assoc, Z.div_mul by lia. done. }
    rewrite <- E. pose proof (Z.pow_pos_nonneg 2 (24 - len)).
    pose proof (Z.mul_div_le (x ≫ 8) (2 ^ (24 - len))).
    pose proof (Z.mod_pos_bound (x ≫ 8) (2 ^ (24 - len))).
    pose proof (Z.div_mod (x ≫ 8) (2 ^ (24 - len))). lia.
Qed.

Lemma affected_range a len blk : u32 a → 1 ≤ len ≤ 32 →
  blk ∈ affected_blocks (a .& mask len) len → in_range 24 blk.
Proof.
  intros Ha Hl. destruct (decide (24 < len)).
  - rewrite affected_long by done. intros ->. apply block_of. apply land_mask_u32; [done|lia].
  - rewrite affected_short by lia.
    assert ((a .& mask len) ≫ 8 = ((a ≫ 8) / 2 ^ (24 - len)) * 2 ^ (24 - len)) as ->.
    { rewrite land_mask by (done || lia). rewrite short_div by lia.
      replace (2 ^ (32 - len)) with (2 ^ (24 - len) * 2 ^ 8)
        by (rewrite <- Z.pow_add_r by lia; f_equal; lia).
      rewrite (shr_div 8) by lia. rewrite Z.mul_assoc, Z.div_mul by lia. done. }
    pose proof (block_of a Ha) as Hb. unfold in_range in *.
    set (k := 2 ^ (24 - len)). set (c := a ≫ 8) in *.
    assert (2 ^ 24 = 2 ^ len * k) as E by (unfold k; rewrite <- Z.pow_add_r by lia; f_equal; lia).
    assert (0 < k) by (unfold k; apply Z.pow_pos_nonneg; lia).
    assert (0 < 2 ^ len) by (apply Z.pow_pos_nonneg; lia).
    assert (c / k < 2 ^ len) by (apply Z.div_lt_upper_bound; lia).
    assert (0 ≤ c / k) by (apply Z.div_pos; lia). nia.
Qed.

Lemma affected_nodup a len : NoDup (affected_blocks a len).
Proof. unfold affected_blocks. case_match; apply NoDup_seqZ. Qed.

(** ** Covering routes *)

Lemma elem_of_lens hi lo l : l ∈ lens_down hi lo ↔ lo ≤ l ≤ hi.
Proof.
  unfold lens_down. rewrite list_elem_of_In, <- in_rev, <- list_elem_of_In, elem_of_seqZ. lia.
Qed.

Lemma lens_down_split hi mid lo : lo ≤ mid + 1 → mid ≤ hi →
  lens_down hi lo = lens_down hi (mid + 1) ++ lens_down mid lo.
Proof.
  intros. unfold lens_down. rewrite <- rev_app_distr. f_equal.
  replace (hi - lo + 1) with ((mid - lo + 1) + (hi - (mid + 1) + 1)) by lia.
  rewrite seqZ_app by lia. f_equal. f_equal; lia.
Qed.

Lemma lens_down_one l : lens_down l l = [l].
Proof.
  unfold lens_down. replace (l - l + 1) with 1 by lia.
  rewrite seqZ_cons, seqZ_nil by lia. done.
Qed.

Lemma cover_update sh a len o lens x :
  x .& mask len ≠ a → cover (partial_alter (λ _, o) (a, len) sh) lens x = cover sh lens x.
Proof.
  intros Hne. unfold cover. apply first_some_ext. intros l _.
  apply lookup_partial_alter_ne. congruence.
Qed.

(** The lookup result is the most specific route: nothing longer covers. *)
Lemma cover_Some sh hi lo x e : cover sh (lens_down hi lo) x = Some e →
  ∃ l, lo ≤ l ≤ hi ∧ sh !! (x .& mask l, l) = Some e ∧
       ∀ l', l < l' ≤ hi → sh !! (x .& mask l', l') = None.
Proof.
  unfold cover. intros H. destruct (decide (lo ≤ hi)) as [Hle|Hgt].
  2: { unfold lens_down in H. by rewrite seqZ_nil in H by lia. }
  remember (Z.to_nat (hi - lo)) as n eqn:En. revert hi H Hle En.
  induction n as [|n IH]; intros hi H Hle En.
  - assert (hi = lo) as -> by lia. rewrite lens_down_one in H. cbn in H.
    destruct (sh !! (x .& mask lo, lo)) eqn:E; [|done].
    exists lo. split; [lia|]. split; [congruence|]. intros; lia.
  - rewrite (lens_down_split hi (hi - 1) lo) in H by lia.
    rewrite first_some_app in H.
    replace (hi - 1 + 1) with hi in H by lia. rewrite lens_down_one in H. cbn in H.
    destruct (sh !! (x .& mask hi, hi)) as [e'|] eqn:E.
    + injection H as ->. exists hi. split; [lia|]. split; [done|]. intros; lia.
    + apply IH in H as (l & ? & ? & Hmax); [|lia|lia]. exists l. split; [lia|].
      split; [done|]. intros l' ?. destruct (decide (l' = hi)) as [->|]; [done|].
      apply Hmax. lia.
Qed.

Lemma lookup_lpm_default e x :
  lookup_lpm e x =
  match cover (shadow e) (lens_down 32 1) x with
  | Some en => Some en
  | None => shadow e !! (0, 0)
  end.
Proof.
  unfold lookup_lpm, cover. rewrite (lens_down_split 32 0 0) by lia.
  rewrite first_some_app. change (lens_down 0 0) with [0]. cbn [first_some].
  rewrite land_mask_0. destruct (first_some _ _); [done|]. by destruct (shadow e !! _).
Qed.

(** A block with no long route has one word for all its addresses. *)
Lemma slot_word_uniform sh blk low :
  in_range 24 blk → 0 ≤ low < 256 →
  (∀ a l en, sh !! (a, l) = Some en → 24 < l → a ≫ 8 ≠ blk) →
  (∀ a l en, sh !! (a, l) = Some en → 0 ≤ l ≤ 32) →
  slot_word sh blk low = block_cover_word sh blk.
Proof.
  intros Hb Hlow Hno Hlen. unfold slot_word, block_cover_word. apply (f_equal word_of).
  rewrite block_addr_bits by done.
  assert (blk ≪ 8 = block_addr blk 0) as -> by (rewrite shl_mul by lia; unfold block_addr; lia).
  pose proof (block_addr_u32 blk low Hb Hlow) as Hu.
  pose proof (block_addr_u32 blk 0 Hb ltac:(lia)) as Hu0.
  unfold cover. rewrite (lens_down_split 32 24 1) by lia. rewrite first_some_app.
  rewrite (proj2 (first_some_None _ (lens_down 32 (24 + 1)))).
  - apply first_some_ext. intros l Hl%elem_of_lens.
    enough (block_addr blk low .& mask l = block_addr blk 0 .& mask l) as -> by reflexivity.
    apply land_mask_eq; [exact Hu|exact Hu0|lia|]. rewrite !short_div by lia.
    by rewrite !block_addr_blk by lia.
  - intros l Hl%elem_of_lens. destruct (sh !! _) as [en|] eqn:E; [|done]. exfalso.
    refine (Hno _ _ _ E _ _); [lia|].
    assert (block_addr blk low ≫ 8 ∈ affected_blocks (block_addr blk low .& mask l) l) as Hin
      by (apply covered_affected; [exact Hu|exact Hu|lia|reflexivity]).
    rewrite affected_long in Hin by lia. by rewrite <- Hin, block_addr_blk by done.
Qed.
