(* ===== verification/Dir24Inv.v ===== *)
(** * The engine's invariant

    What every [Dir24Engine] operation maintains: normalised shadow keys, an
    exact long-route count per /24 block, a group for exactly the blocks with
    a long route, and the TBL8 pool partitioned between the groups in use, the
    free list and the quarantine. *)

From S2P Require Import Prelude.
From S2P Require Import Common.
From S2P Require Import Dir24.
From S2P Require Import Dir24Lpm.

(** ** Long routes of a block *)

Definition wf_key (k : Z * Z) : Prop :=
  0 ≤ k.2 ≤ 32 ∧ u32 k.1 ∧ k.1 .& mask k.2 = k.1.

Definition is_long_in (blk : Z) (k : Z * Z) : Prop := 24 < k.2 ∧ k.1 ≫ 8 = blk.

#[global] Instance is_long_in_dec blk k : Decision (is_long_in blk k).
Proof. unfold is_long_in. apply _. Defined.

Definition long_routes (sh : gmap (Z * Z) FibEntry) (blk : Z) : nat :=
  size (filter (λ kv, is_long_in blk kv.1) sh).

Lemma long_routes_insert_fresh sh k en blk : sh !! k = None →
  long_routes (<[k := en]> sh) blk =
  if decide (is_long_in blk k) then S (long_routes sh blk) else long_routes sh blk.
Proof.
  intros Hk. unfold long_routes. case_decide as Hl.
  - rewrite map_filter_insert_True by done. apply map_size_insert_None.
    by apply map_lookup_filter_None_2; left.
  - rewrite map_filter_insert_False by done. by rewrite delete_id by done.
Qed.

Lemma long_routes_insert_replace sh k en en' blk : sh !! k = Some en' →
  long_routes (<[k := en]> sh) blk = long_routes sh blk.
Proof.
  intros Hk. unfold long_routes. destruct (decide (is_long_in blk k)).
  - rewrite map_filter_insert_True by done. apply map_size_insert_Some.
    exists en'. by apply map_lookup_filter_Some_2.
  - rewrite map_filter_insert_False by done. rewrite map_filter_delete_not; [done|].
    intros x Hx. done.
Qed.

Lemma long_routes_delete sh k en blk : sh !! k = Some en →
  long_routes sh blk =
  if decide (is_long_in blk k) then S (long_routes (delete k sh) blk)
  else long_routes (delete k sh) blk.
Proof.
  intros Hk. rewrite <- (insert_delete_id sh k en Hk) at 1.
  rewrite long_routes_insert_fresh by apply lookup_delete_eq. done.
Qed.

Lemma long_routes_pos sh blk : (0 < long_routes sh blk)%nat ↔
  ∃ k en, sh !! k = Some en ∧ is_long_in blk k.
Proof.
  unfold long_routes. split.
  - intros Hs. destruct (map_choose (filter (λ kv, is_long_in blk kv.1) sh)) as (k & en & Hk).
    { intros E. rewrite E, map_size_empty in Hs. lia. }
    apply map_lookup_filter_Some in Hk as [??]. eauto.
  - intros (k & en & Hk & Hl).
    enough (size (filter (λ kv, is_long_in blk kv.1) sh) ≠ 0%nat) by lia.
    rewrite map_size_non_empty_iff. intros E.
    assert (filter (λ kv, is_long_in blk kv.1) sh !! k = Some en) as F
      by (by apply map_lookup_filter_Some_2).
    by rewrite E in F.
Qed.

(** At most 256 networks of at most 8 lengths: the counter cannot wrap. *)
Lemma long_routes_bound sh blk : map_Forall (λ k _, wf_key k) sh →
  (long_routes sh blk ≤ 2048)%nat.
Proof.
  intros Hwf. unfold long_routes. rewrite <- size_dom.
  set (box := (λ p : Z * Z, (blk * 256 + p.1, p.2)) <$>
              (l ← seqZ 25 8; (λ low, (low, l)) <$> seqZ 0 256)).
  transitivity (size (list_to_set box : gset (Z * Z))).
  - apply subseteq_size. intros [a l] Hin. apply elem_of_dom in Hin as [en Hin].
    apply map_lookup_filter_Some in Hin as [Hk [Hl Hb]]. cbn in *.
    apply Hwf in Hk as (Hr & Hu & _). cbn in *.
    apply elem_of_list_to_set, list_elem_of_fmap. exists (a mod 256, l). split.
    + cbn. rewrite shr_div in Hb by lia. f_equal. subst blk. divlia.
    + apply list_elem_of_bind. exists l. split; [|apply elem_of_seqZ; lia].
      apply list_elem_of_fmap. exists (a mod 256). split; [done|].
      apply elem_of_seqZ. pose proof (Z.mod_pos_bound a 256). lia.
  - etransitivity; [apply size_list_to_set_le|]. unfold box. rewrite length_fmap.
    vm_compute. lia.
Qed.

(** ** The invariant *)

Record engine_core (n : Z) (e : Dir24Engine) : Prop := mkCore {
  core_keys : map_Forall (λ k _, wf_key k) (shadow e);
  core_count : ∀ blk, default 0 (long_count e !! blk) = Z.of_nat (long_routes (shadow e) blk);
  core_pool : (map_to_list (groups e)).*2 ++ free e ++ quarantine e ≡ₚ seqZ 0 n;
}.

Definition groups_ok (e : Dir24Engine) (blk : Z) : Prop :=
  is_Some (groups e !! blk) ↔ (0 < long_routes (shadow e) blk)%nat.

Definition engine_inv (n : Z) (e : Dir24Engine) : Prop :=
  engine_core n e ∧ ∀ blk, groups_ok e blk.

Definition pool (e : Dir24Engine) : list Z := free e ++ quarantine e.

Section pool.
Context (n : Z).
Implicit Types e : Dir24Engine.

Lemma core_range e blk g : engine_core n e → groups e !! blk = Some g → 0 ≤ g < n.
Proof.
  intros [_ _ Hp] Hg.
  assert (g ∈ seqZ 0 n) as Hin.
  { rewrite <- Hp. apply elem_of_app. left. apply list_elem_of_fmap.
    exists (blk, g). split; [done|]. by apply elem_of_map_to_list. }
  apply elem_of_seqZ in Hin. lia.
Qed.

Lemma core_nodup e : engine_core n e →
  NoDup ((map_to_list (groups e)).*2 ++ pool e).
Proof. intros [_ _ Hp]. unfold pool. rewrite Hp. apply NoDup_seqZ. Qed.

(** A pooled group backs no block. *)
Lemma pool_unreferenced e blk g g' : engine_core n e →
  g ∈ pool e → groups e !! blk = Some g' → g' ≠ g.
Proof.
  intros Hc Hg Hb ->. apply core_nodup, NoDup_app in Hc as (_ & Hd & _).
  apply (Hd g); [|done]. apply list_elem_of_fmap. exists (blk, g).
  split; [done|]. by apply elem_of_map_to_list.
Qed.

(** No two blocks share a group. *)
Lemma groups_inj e b1 b2 g : engine_core n e →
  groups e !! b1 = Some g → groups e !! b2 = Some g → b1 = b2.
Proof.
  intros Hc H1 H2. destruct (decide (b1 = b2)) as [|Hne]; [done|]. exfalso.
  apply core_nodup, NoDup_app in Hc as (Hnd & _).
  rewrite <- (insert_delete_id _ _ _ H1) in Hnd.
  rewrite map_to_list_insert in Hnd by apply lookup_delete_eq.
  cbn in Hnd. apply NoDup_cons in Hnd as [Hni _]. apply Hni.
  apply list_elem_of_fmap. exists (b2, g). split; [done|].
  apply elem_of_map_to_list. by rewrite lookup_delete_ne.
Qed.

Lemma groups_values_insert (m : gmap Z Z) blk g : m !! blk = None →
  (map_to_list (<[blk := g]> m)).*2 ≡ₚ g :: (map_to_list m).*2.
Proof. intros H. by rewrite map_to_list_insert. Qed.

Lemma groups_values_delete (m : gmap Z Z) blk g : m !! blk = Some g →
  (map_to_list m).*2 ≡ₚ g :: (map_to_list (delete blk m)).*2.
Proof.
  intros H. rewrite <- (insert_delete_id _ _ _ H) at 1.
  rewrite map_to_list_insert by apply lookup_delete_eq. done.
Qed.
End pool.

(** ** The allocator *)

(** Draining moves groups from the quarantine to the free list, in order, and
    leaves at most [QUARANTINE_DEPTH] behind. *)
Lemma drain_spec fuel fr qu : (length qu ≤ fuel)%nat →
  let '(fr', qu') := drain_quarantine fuel fr qu in
  (∃ moved, fr' = fr ++ moved ∧ qu = moved ++ qu') ∧
  (length qu' ≤ QUARANTINE_DEPTH)%nat ∧
  ((length qu ≤ QUARANTINE_DEPTH)%nat → qu' = qu).
Proof.
  revert fr qu; induction fuel as [|fuel IH]; intros fr qu Hl; cbn [drain_quarantine].
  - destruct qu; [|cbn in Hl; lia]. split; [exists []; by rewrite app_nil_r|]. cbn. split; [unfold QUARANTINE_DEPTH; lia|done].
  - destruct qu as [|g qu].
    { split; [exists []; by rewrite app_nil_r|]. cbn. split; [unfold QUARANTINE_DEPTH; lia|done]. }
    destruct (Nat.ltb_spec QUARANTINE_DEPTH (length (g :: qu))) as [Hlt|Hge].
    + specialize (IH (fr ++ [g]) qu ltac:(cbn in Hl; lia)).
      destruct (drain_quarantine fuel (fr ++ [g]) qu) as [fr' qu'].
      destruct IH as ((moved & -> & ->) & Hd & _).
      split; [|split; [done|lia]]. exists (g :: moved). by rewrite <- app_assoc.
    + split; [exists []; by rewrite app_nil_r|]. done.
Qed.

Lemma quarantine_group_spec g e :
  let e' := quarantine_group g e in
  shadow e' = shadow e ∧ long_count e' = long_count e ∧ groups e' = groups e ∧
  pool e' ≡ₚ g :: pool e ∧ (length (quarantine e') ≤ QUARANTINE_DEPTH)%nat.
Proof.
  cbn zeta. unfold quarantine_group.
  pose proof (drain_spec (length (quarantine e ++ [g])) (free e) (quarantine e ++ [g]) ltac:(done)) as H.
  destruct (drain_quarantine _ _ _) as [fr qu]. destruct H as ((moved & -> & Hq) & Hd & _).
  cbn. do 3 (split; [done|]). split; [|done]. unfold pool; cbn.
  rewrite <- app_assoc, <- Hq, app_assoc. by rewrite Permutation_app_comm.
Qed.

(** [alloc_group] returns a pooled group, and fails exactly on an empty pool;
    the quarantine is touched only when the free list is empty. *)
Lemma alloc_group_spec e :
  match alloc_group e with
  | (e', Ok g) =>
      pool e ≡ₚ g :: pool e' ∧ shadow e' = shadow e ∧ long_count e' = long_count e ∧
      groups e' = groups e ∧ (free e ≠ [] → quarantine e' = quarantine e)
  | (e', Err _) => e' = e ∧ pool e = []
  end.
Proof.
  unfold alloc_group, mbind, M_bind, get, modify, mret, M_ret, bail.
  destruct (vec_pop (free e)) as [[g rest]|] eqn:E.
  - apply vec_pop_Some in E. unfold pool. cbn. rewrite E. split; [|done].
    rewrite <- app_assoc. cbn. by rewrite <- Permutation_middle.
  - apply vec_pop_None in E. destruct (quarantine e) as [|g rest] eqn:Eq; unfold pool.
    + by rewrite E, Eq.
    + cbn. rewrite E, Eq. done.
Qed.

(** ** One block's step

    The three outcomes of [sync_block]: rewrite a live group in place, expand
    the block into a pooled group (fill, then flip), or collapse it to one
    direct word (flip, then quarantine the group it held). *)
Inductive block_step (n blk : Z) (e : Dir24Engine) : Dir24Engine → list SlotWrite → Prop :=
| step_live g :
    (0 < long_routes (shadow e) blk)%nat →
    groups e !! blk = Some g →
    block_step n blk e e (fill_group (shadow e) blk g)
| step_expand g e' :
    (0 < long_routes (shadow e) blk)%nat →
    groups e !! blk = None →
    g ∈ pool e →
    shadow e' = shadow e → long_count e' = long_count e →
    groups e' = <[blk := g]> (groups e) →
    pool e ≡ₚ g :: pool e' →
    block_step n blk e e' (fill_group (shadow e) blk g ++ [Tbl24 blk (fibw_group g)])
| step_collapse e' :
    long_routes (shadow e) blk = 0%nat →
    shadow e' = shadow e → long_count e' = long_count e →
    groups e' = delete blk (groups e) →
    (map_to_list (groups e)).*2 ++ pool e ≡ₚ (map_to_list (groups e')).*2 ++ pool e' →
    block_step n blk e e' [Tbl24 blk (block_cover_word (shadow e) blk)].

Lemma sync_block_step n out blk e : engine_core n e →
  (groups e !! blk = None → (0 < long_routes (shadow e) blk)%nat → pool e ≠ []) →
  ∃ e' ws, sync_block out blk e = (e', Ok (out ++ ws)) ∧ block_step n blk e e' ws.
Proof.
  intros Hc Hcap. unfold sync_block, mbind, M_bind, get, modify, mret, M_ret; cbn.
  rewrite (core_count _ _ Hc). destruct (Z.ltb_spec 0 (Z.of_nat (long_routes (shadow e) blk))) as [Hl|Hl].
  - destruct (groups e !! blk) as [g|] eqn:Eg.
    + eexists _, _. split; [done|]. apply step_live; [lia|done].
    + pose proof (alloc_group_spec e) as Ha. destruct (alloc_group e) as [e1 [g|er]].
      * destruct Ha as (Hp & Hs & Hlc & Hg & _).
        eexists _, _. split; [done|].
        apply step_expand; cbn; try congruence; [lia|by rewrite Hp; left|done].
      * destruct Ha as [_ Ha]. by destruct (Hcap eq_refl ltac:(lia)).
  - destruct (groups e !! blk) as [g|] eqn:Eg.
    + pose proof (quarantine_group_spec g (set_groups (delete blk) e)) as (Hs & Hlc & Hg & Hp & _).
      eexists _, _. split; [done|]. apply step_collapse; [lia|done..|].
      rewrite Hg, Hp, (groups_values_delete _ _ _ Eg). cbn.
      change (pool (set_groups (delete blk) e)) with (pool e).
      by rewrite Permutation_middle.
    + eexists _, _. split; [done|]. apply step_collapse; [lia|reflexivity|reflexivity|by rewrite delete_id|reflexivity].
Qed.

Section block_step.
Context {n blk : Z} {e e' : Dir24Engine} {ws : list SlotWrite}.
Hypothesis Hstep : block_step n blk e e' ws.

Lemma block_step_shadow : shadow e' = shadow e.
Proof. by destruct Hstep. Qed.

Lemma block_step_groups_ne b : b ≠ blk → groups e' !! b = groups e !! b.
Proof.
  intros Hne. destruct Hstep as [|???????->|????->]; [done|..].
  - by rewrite lookup_insert_ne.
  - by rewrite lookup_delete_ne.
Qed.

Lemma block_step_groups_ok : groups_ok e' blk.
Proof.
  unfold groups_ok. rewrite block_step_shadow.
  destruct Hstep as [g Hl ->|g ? Hl ? ? ? ? -> _|? Hl ? ? -> _].
  - by split; eauto.
  - rewrite lookup_insert_eq. by split; eauto.
  - rewrite lookup_delete_eq. split; [by intros []|lia].
Qed.

Lemma block_step_core : engine_core n e → engine_core n e'.
Proof.
  intros [Hk Hc Hp]. split.
  - by rewrite block_step_shadow.
  - rewrite block_step_shadow. by destruct Hstep as [|????? _ ->|?? _ ->].
  - destruct Hstep as [|g ? Hl Hg ? ? ? Heq Hpool|? Hl ? ? Heq Hpool]; [done|..].
    + change (free e' ++ quarantine e') with (pool e').
      rewrite Heq, groups_values_insert by done. rewrite <- Hp. cbn.
      change (free e ++ quarantine e) with (pool e).
      rewrite Hpool. by rewrite Permutation_middle.
    + change (free e' ++ quarantine e') with (pool e'). by rewrite <- Hpool.
Qed.
End block_step.
