(* ===== verification/Dir24Tables.v ===== *)
(** * Plans against the arrays

    What a reader of [TBL24]/[TBL8]/[DEFAULT4] sees while a plan is applied.
    [raw] is the word the two-step lookup resolves before the default-route
    fallthrough; a plan is [hitless] when every single write leaves each
    address at its old word or at its final one. *)

From S2P Require Import Prelude.
From S2P Require Import Common.
From S2P Require Import Dir24.
From S2P Require Import Dir24Lpm.
From S2P Require Import Dir24Inv.

Definition cell (a : Array) (i : Z) : Z := default 0 (cells a !! i).

Definition raw (t : Tables) (x : Z) : Z :=
  let w := cell (tbl24 t) (x ≫ 8) in
  if has w FIBW_TBL8 then cell (tbl8 t) ((w .& FIBW_ID_MASK) * 256 + (x .& 255)) else w.

Definition dims (n : Z) (t : Tables) : Prop :=
  entries (tbl24 t) = 2 ^ 24 ∧ entries (tbl8 t) = n * 256 ∧ entries (default4 t) = 1.

(** The block words mirror the engine's group table. *)
Definition shape (e : Dir24Engine) (t : Tables) : Prop :=
  ∀ blk, in_range 24 blk →
  match groups e !! blk with
  | Some g => cell (tbl24 t) blk = fibw_group g
  | None => has (cell (tbl24 t) blk) FIBW_TBL8 = false
  end.

(** The words a block's addresses resolve to are its slot words. *)
Definition block_coherent (e : Dir24Engine) (t : Tables) (blk : Z) : Prop :=
  ∀ low, 0 ≤ low < 256 → raw t (block_addr blk low) = slot_word (shadow e) blk low.

Definition default_coherent (e : Dir24Engine) (t : Tables) : Prop :=
  cell (default4 t) 0 = word_of (shadow e !! (0, 0)).

Lemma array_set_Some i w a : 0 ≤ i < entries a →
  array_set i w a = Some (mkArray (entries a) (<[i := w]> (cells a))).
Proof. intros H. unfold array_set. by rewrite bool_decide_eq_true_2. Qed.

Lemma array_get_Some i a : 0 ≤ i < entries a → array_get a i = Some (cell a i).
Proof. intros H. unfold array_get. by rewrite bool_decide_eq_true_2. Qed.

Lemma cell_insert a i w j n :
  cell (mkArray n (<[i := w]> (cells a))) j = if decide (i = j) then w else cell a j.
Proof.
  unfold cell; cbn. case_decide as E; [subst; by rewrite lookup_insert_eq|].
  by rewrite lookup_insert_ne.
Qed.

Lemma word_of_direct o : has (word_of o) FIBW_TBL8 = false.
Proof. destruct o; cbn; [apply fibw_entry_direct|apply invalid_word]. Qed.

Lemma word_of_valid o : has (word_of o) FIBW_VALID = bool_decide (is_Some o).
Proof. destruct o; cbn; [apply fibw_entry_valid|apply invalid_word]. Qed.

(** ** Hitless plans *)

Inductive hitless (f : Z → Z) : Tables → list SlotWrite → Tables → Prop :=
| hitless_nil t : hitless f t [] t
| hitless_cons t w ws t1 t' :
    apply_write t w = Some t1 →
    default4 t1 = default4 t →
    (∀ x, u32 x → raw t1 x = raw t x ∨ raw t1 x = f x) →
    hitless f t1 ws t' →
    hitless f t (w :: ws) t'.

Lemma hitless_app f t ws1 t1 ws2 t2 :
  hitless f t ws1 t1 → hitless f t1 ws2 t2 → hitless f t (ws1 ++ ws2) t2.
Proof. induction 1; [done|]. intros. cbn. by econstructor; eauto. Qed.

Lemma hitless_apply f t ws t' : hitless f t ws t' → dir24_apply ws t = Some t'.
Proof. induction 1 as [|t w ws t1 t' Hw _ _ _ IH]; [done|]. cbn. by rewrite Hw. Qed.

Lemma hitless_default f t ws t' : hitless f t ws t' → default4 t' = default4 t.
Proof. induction 1; congruence. Qed.

Lemma hitless_prefix f t ws t' : hitless f t ws t' → ∀ k, ∃ tk,
  dir24_apply (take k ws) t = Some tk ∧ default4 tk = default4 t ∧
  ∀ x, u32 x → raw tk x = raw t x ∨ raw tk x = f x.
Proof.
  induction 1 as [t|t w ws t1 t' Hw Hd Hx _ IH]; intros k.
  - exists t. rewrite take_nil. auto.
  - destruct k as [|k]; [by exists t; auto|].
    destruct (IH k) as (tk & Ha & Hdk & Hk). exists tk. cbn. rewrite Hw. cbn.
    split; [done|]. split; [congruence|]. intros x Hu.
    destruct (Hk x Hu) as [-> | ->]; auto.
Qed.

(** ** Safe arrays

    Every group pointer stays inside [TBL8], whatever prefix of a plan has
    been applied: the lookup never indexes out of range. *)

Definition safe (n : Z) (t : Tables) : Prop :=
  dims n t ∧ ∀ blk, in_range 24 blk → has (cell (tbl24 t) blk) FIBW_TBL8 = true →
  0 ≤ cell (tbl24 t) blk .& FIBW_ID_MASK < n.

Definition safe_write (n : Z) (w : SlotWrite) : Prop :=
  match w with
  | Tbl24 _ word => has word FIBW_TBL8 = true → 0 ≤ word .& FIBW_ID_MASK < n
  | _ => True
  end.

Lemma array_set_inv i w a a' : array_set i w a = Some a' →
  a' = mkArray (entries a) (<[i := w]> (cells a)).
Proof. unfold array_set. case_bool_decide; [congruence|done]. Qed.

Lemma apply_write_safe n t w t' : safe n t → safe_write n w → apply_write t w = Some t' → safe n t'.
Proof.
  intros [(H24 & H8 & Hd) Hs] Hw.
  destruct w as [i w|i w|w]; cbn; intros (a & ->%array_set_inv & [= <-])%bind_Some;
    (split; [done|]); cbn; try done.
  intros blk Hb. rewrite cell_insert. case_decide; [done|by apply Hs].
Qed.

Lemma dir24_apply_safe n ws t t' : safe n t → Forall (safe_write n) ws →
  dir24_apply ws t = Some t' → safe n t'.
Proof.
  intros Hs Hw. revert t Hs. induction Hw as [|w ws Hw _ IH]; intros t Hs; cbn.
  - by intros [= <-].
  - intros (t1 & H1 & H2)%bind_Some. eapply IH; [|done]. by eapply apply_write_safe.
Qed.

(** ** Filling a group *)

(** Only [blk]'s word may lead to group [g]. *)
Definition only_block (t : Tables) (g blk : Z) : Prop :=
  ∀ b, in_range 24 b → has (cell (tbl24 t) b) FIBW_TBL8 = true →
  cell (tbl24 t) b .& FIBW_ID_MASK = g → b = blk.

Lemma fill_hitless n f t g blk sh lows :
  dims n t → 0 ≤ g < n → n ≤ 2 ^ 24 →
  only_block t g blk →
  (∀ low, 0 ≤ low < 256 → f (block_addr blk low) = slot_word sh blk low) →
  Forall (λ low, 0 ≤ low < 256) lows →
  ∃ t', hitless f t ((λ low, Tbl8 (wrap 32 (g * 256 + low)) (slot_word sh blk low)) <$> lows) t' ∧
    dims n t' ∧ tbl24 t' = tbl24 t ∧
    (∀ low, low ∈ lows → cell (tbl8 t') (g * 256 + low) = slot_word sh blk low) ∧
    (∀ i, (∀ low, low ∈ lows → i ≠ g * 256 + low) → cell (tbl8 t') i = cell (tbl8 t) i).
Proof.
  intros Hd Hg Hn Hob Hf. revert t Hd Hob.
  induction lows as [|low lows IH]; intros t Hd Hob Hlows.
  { exists t. split; [constructor|]. repeat split; set_solver || apply Hd. }
  apply Forall_cons in Hlows as [Hlow Hlows].
  destruct Hd as (H24 & H8 & Hdef).
  set (t1 := mkTables (tbl24 t)
    (mkArray (entries (tbl8 t)) (<[g * 256 + low := slot_word sh blk low]> (cells (tbl8 t)))) (default4 t)).
  destruct (IH t1) as (t' & Hh & Hd' & H24' & Hin & Hout); [done..|].
  exists t'. split; [|split; [done|split; [done|split]]].
  - cbn. apply (hitless_cons _ _ _ _ t1); [|done| |done].
    + cbn. unfold wrap. rewrite Z.mod_small by lia. rewrite array_set_Some by lia. done.
    + intros x Hx. unfold raw, t1; cbn. case_match eqn:Ht; [|by left].
      rewrite cell_insert. case_decide as E; [|by left]. right.
      pose proof (low_range x) as Hlx.
      assert (0 ≤ cell (tbl24 t) (x ≫ 8) .& FIBW_ID_MASK) as Hpos
        by (apply Z.land_nonneg; right; by vm_compute).
      assert (cell (tbl24 t) (x ≫ 8) .& FIBW_ID_MASK = g ∧ x .& 255 = low) as [Eg El] by lia.
      assert (x ≫ 8 = blk) as Eb by (apply Hob; [by apply block_of|done..]).
      rewrite (block_addr_split x Hx), Eb, El. by rewrite Hf.
  - intros l [->|Hl]%elem_of_cons; [|by apply Hin].
    destruct (decide (low ∈ lows)); [by apply Hin|].
    rewrite Hout by (intros l' ? E; assert (low = l') by lia; congruence).
    unfold t1; cbn. rewrite cell_insert. by rewrite decide_True.
  - intros i Hi. rewrite Hout by set_solver. unfold t1; cbn. rewrite cell_insert.
    rewrite decide_False; [done|]. intros <-. by apply (Hi low); [set_solver|].
Qed.

(** ** One block's step on the arrays *)

Lemma shape_safe n e t : engine_core n e → n ≤ 2 ^ 24 → dims n t → shape e t → safe n t.
Proof.
  intros Hc Hn Hd Hs. split; [done|]. intros b Hb Ht. specialize (Hs b Hb).
  destruct (groups e !! b) as [g|] eqn:Eg; [|congruence].
  rewrite Hs, fibw_group_id. pose proof (core_range _ _ _ _ Hc Eg). rewrite Z.mod_small by lia. lia.
Qed.

Lemma block_step_safe n blk e e' ws : engine_core n e → n ≤ 2 ^ 24 →
  block_step n blk e e' ws → Forall (safe_write n) ws.
Proof.
  intros Hc Hn. assert (∀ g, Forall (safe_write n) (fill_group (shadow e) blk g)) as Hfill.
  { intros g. apply Forall_fmap, Forall_true. by intros. }
  destruct 1 as [|g ? ? ? Hg|]; [done|..].
  - apply Forall_app. split; [done|]. apply Forall_singleton. cbn. intros _.
    assert (0 ≤ g < n).
    { destruct Hc as [_ _ Hp]. assert (g ∈ seqZ 0 n) as Hin; [|apply elem_of_seqZ in Hin; lia].
      rewrite <- Hp. unfold pool in Hg. set_solver. }
    rewrite fibw_group_id, Z.mod_small; lia.
  - apply Forall_singleton. cbn. unfold block_cover_word. rewrite word_of_direct. done.
Qed.

Lemma shape_only_block n e t g blk : engine_core n e → n ≤ 2 ^ 24 → shape e t →
  groups e !! blk = Some g → only_block t g blk.
Proof.
  intros Hc Hn Hs Hg b Hb Ht Hid. specialize (Hs b Hb).
  destruct (groups e !! b) as [g'|] eqn:Eb; [|congruence].
  rewrite Hs, fibw_group_id in Hid. pose proof (core_range _ _ _ _ Hc Eb).
  rewrite Z.mod_small in Hid by lia. subst g'. by eapply groups_inj.
Qed.

Lemma shape_pool_unreferenced n e t g blk : engine_core n e → n ≤ 2 ^ 24 → shape e t →
  g ∈ pool e → only_block t g blk.
Proof.
  intros Hc Hn Hs Hg b Hb Ht Hid. exfalso. specialize (Hs b Hb).
  destruct (groups e !! b) as [g'|] eqn:Eb; [|congruence].
  rewrite Hs, fibw_group_id in Hid. pose proof (core_range _ _ _ _ Hc Eb).
  rewrite Z.mod_small in Hid by lia. subst g'. by eapply pool_unreferenced.
Qed.

Lemma raw_other_block t t' x :
  cell (tbl24 t') (x ≫ 8) = cell (tbl24 t) (x ≫ 8) →
  (has (cell (tbl24 t) (x ≫ 8)) FIBW_TBL8 = true →
   cell (tbl8 t') ((cell (tbl24 t) (x ≫ 8) .& FIBW_ID_MASK) * 256 + (x .& 255)) =
   cell (tbl8 t) ((cell (tbl24 t) (x ≫ 8) .& FIBW_ID_MASK) * 256 + (x .& 255))) →
  raw t' x = raw t x.
Proof. intros E H. unfold raw. rewrite E. case_match; [by apply H|done]. Qed.

Lemma raw_group t blk g low : 0 ≤ low < 256 → 0 ≤ g < 2 ^ 26 →
  cell (tbl24 t) blk = fibw_group g →
  raw t (block_addr blk low) = cell (tbl8 t) (g * 256 + low).
Proof.
  intros Hl Hg E. unfold raw. rewrite block_addr_blk, block_addr_low, E by done.
  rewrite fibw_group_tbl8, fibw_group_id. by rewrite Z.mod_small.
Qed.

Lemma raw_direct t blk low : 0 ≤ low < 256 →
  has (cell (tbl24 t) blk) FIBW_TBL8 = false →
  raw t (block_addr blk low) = cell (tbl24 t) blk.
Proof. intros Hl E. unfold raw. rewrite block_addr_blk by done. by rewrite E. Qed.

(** Rewriting one block word. *)
Definition set24 (blk w : Z) (t : Tables) : Tables :=
  mkTables (mkArray (entries (tbl24 t)) (<[blk := w]> (cells (tbl24 t)))) (tbl8 t) (default4 t).

Lemma set24_apply n t blk w : dims n t → in_range 24 blk →
  apply_write t (Tbl24 blk w) = Some (set24 blk w t).
Proof. intros (E & _) Hb. cbn. by rewrite array_set_Some by (rewrite E; done). Qed.

Lemma set24_cell t blk w b :
  cell (tbl24 (set24 blk w t)) b = if decide (blk = b) then w else cell (tbl24 t) b.
Proof. apply cell_insert. Qed.

Lemma set24_other t blk w x : x ≫ 8 ≠ blk → raw (set24 blk w t) x = raw t x.
Proof. intros Hx. apply raw_other_block; [|done]. by rewrite set24_cell, decide_False. Qed.

Lemma flip_hitless n f t blk w : dims n t → in_range 24 blk →
  (∀ low, 0 ≤ low < 256 → raw (set24 blk w t) (block_addr blk low) = f (block_addr blk low)) →
  hitless f t [Tbl24 blk w] (set24 blk w t).
Proof.
  intros Hd Hb Hf. eapply hitless_cons; [by eapply set24_apply|done| |constructor].
  intros x Hx. destruct (decide (x ≫ 8 = blk)) as [E|E]; [|left; by apply set24_other].
  right. rewrite (block_addr_split x Hx), E. apply Hf, low_range.
Qed.

Lemma fill_other t t' g blk x :
  only_block t g blk → tbl24 t' = tbl24 t →
  (∀ i, (∀ low, low ∈ seqZ 0 256 → i ≠ g * 256 + low) → cell (tbl8 t') i = cell (tbl8 t) i) →
  u32 x → x ≫ 8 ≠ blk → raw t' x = raw t x.
Proof.
  intros Hob H24 Hout Hx Hb. apply raw_other_block; [by rewrite H24|].
  intros Ht. apply Hout. intros low Hl%elem_of_seqZ E. pose proof (low_range x).
  apply Hb, Hob; [by apply block_of|done|].
  assert (0 ≤ cell (tbl24 t) (x ≫ 8) .& FIBW_ID_MASK)
    by (apply Z.land_nonneg; right; by vm_compute). lia.
Qed.

Section block_tables.
Context (n blk : Z) (e e' : Dir24Engine) (ws : list SlotWrite) (t : Tables) (f : Z → Z).
Hypothesis Hcore : engine_core n e.
Hypothesis Hn : n ≤ 2 ^ 24.
Hypothesis Hblk : in_range 24 blk.
Hypothesis Hdims : dims n t.
Hypothesis Hshape : shape e t.
Hypothesis Hf : ∀ low, 0 ≤ low < 256 → f (block_addr blk low) = slot_word (shadow e) blk low.

Let lows_ok : Forall (λ low, 0 ≤ low < 256) (seqZ 0 256).
Proof. apply Forall_forall. intros low ?%elem_of_seqZ. lia. Qed.

Let outcome (e' : Dir24Engine) (ws : list SlotWrite) : Prop :=
  ∃ t', hitless f t ws t' ∧ dims n t' ∧ shape e' t' ∧ block_coherent e' t' blk ∧
    (∀ x, u32 x → x ≫ 8 ≠ blk → raw t' x = raw t x).

Let live g : groups e !! blk = Some g → outcome e (fill_group (shadow e) blk g).
Proof.
  intros Hg. pose proof (core_range _ _ _ _ Hcore Hg) as Hr.
  pose proof (shape_only_block _ _ _ _ _ Hcore Hn Hshape Hg) as Hob.
  destruct (fill_hitless n f t g blk (shadow e) (seqZ 0 256)) as (t' & Hh & Hd & H24 & Hin & Hout); [done..|].
  exists t'. split; [done|]. split; [done|]. split; [|split].
  - intros b Hb. rewrite H24. by apply Hshape.
  - intros low Hl. pose proof (Hshape blk Hblk) as Hs. rewrite Hg in Hs.
    rewrite (raw_group t' blk g) by (rewrite ?H24; done || lia).
    apply Hin. apply elem_of_seqZ. lia.
  - intros x Hx Hne. by eapply fill_other.
Qed.

Let expand g e1 : g ∈ pool e → groups e !! blk = None →
  shadow e1 = shadow e → groups e1 = <[blk := g]> (groups e) →
  outcome e1 (fill_group (shadow e) blk g ++ [Tbl24 blk (fibw_group g)]).
Proof.
  intros Hg Hnone Hs1 Hg1.
  pose proof (shape_pool_unreferenced _ _ _ _ blk Hcore Hn Hshape Hg) as Hob.
  assert (0 ≤ g < n) as Hr.
  { destruct Hcore as [_ _ Hp]. assert (g ∈ seqZ 0 n) as Hin; [|apply elem_of_seqZ in Hin; lia].
    rewrite <- Hp. unfold pool in Hg. set_solver. }
  destruct (fill_hitless n f t g blk (shadow e) (seqZ 0 256)) as (t1 & Hh & Hd & H24 & Hin & Hout); [done..|].
  assert (∀ low, 0 ≤ low < 256 →
    raw (set24 blk (fibw_group g) t1) (block_addr blk low) = slot_word (shadow e) blk low) as Hnew.
  { intros low Hl. rewrite (raw_group _ blk g); [|done|lia|by rewrite set24_cell, decide_True].
    apply Hin. apply elem_of_seqZ. lia. }
  exists (set24 blk (fibw_group g) t1). split; [|split; [done|split; [|split]]].
  - eapply hitless_app; [done|]. apply (flip_hitless n); [done..|].
    intros low Hl. by rewrite Hf, Hnew.
  - intros b Hb. rewrite Hg1, set24_cell. case_decide as E; [subst; by rewrite lookup_insert_eq|].
    rewrite lookup_insert_ne by done. rewrite H24. by apply Hshape.
  - intros low Hl. rewrite Hs1. by apply Hnew.
  - intros x Hx Hne. rewrite set24_other by done. by eapply fill_other.
Qed.

Let collapse e1 : long_routes (shadow e) blk = 0%nat →
  shadow e1 = shadow e → groups e1 = delete blk (groups e) →
  outcome e1 [Tbl24 blk (block_cover_word (shadow e) blk)].
Proof.
  intros Hl Hs1 Hg1.
  assert (∀ low, 0 ≤ low < 256 → slot_word (shadow e) blk low = block_cover_word (shadow e) blk) as Hu.
  { intros low Hlow. apply slot_word_uniform; [done..| |].
    - intros a l en Hk Hl24 Hb. apply Nat.lt_irrefl with 0%nat. rewrite <- Hl at 2.
      apply long_routes_pos. exists (a, l), en. by split.
    - intros a l en Hk. by apply (core_keys _ _ Hcore) in Hk as [? _]. }
  assert (∀ low, 0 ≤ low < 256 →
    raw (set24 blk (block_cover_word (shadow e) blk) t) (block_addr blk low) = slot_word (shadow e) blk low) as Hnew.
  { intros low Hlow. rewrite raw_direct; [|done|]; rewrite set24_cell, decide_True by done.
    - by rewrite Hu.
    - apply word_of_direct. }
  eexists. split; [apply (flip_hitless n); [done..|]|split; [|split; [|split]]].
  - intros low Hlow. by rewrite Hf, Hnew.
  - done.
  - intros b Hb. rewrite Hg1, set24_cell. case_decide as E.
    + subst. rewrite lookup_delete_eq. apply word_of_direct.
    + rewrite lookup_delete_ne by done. by apply Hshape.
  - intros low Hlow. rewrite Hs1. by apply Hnew.
  - intros x Hx Hne. by apply set24_other.
Qed.

Lemma block_step_tables : block_step n blk e e' ws → outcome e' ws.
Proof. destruct 1; [by apply live|by apply expand|by apply collapse]. Qed.
End block_tables.
