(* ===== verification/Dir24Correct.v ===== *)
(** * DIR-24-8: the engine refines longest-prefix match

    The engine together with the arrays it programs implements an abstract
    route table: after any sequence of operations the data plane's lookup
    returns the longest matching route, a failed operation changes nothing,
    and while a plan is being applied every reader sees the old answer or the
    new one. *)

From S2P Require Import Prelude.
From S2P Require Import Common.
From S2P Require Import Dir24.
From S2P Require Import Dir24Lpm.
From S2P Require Import Dir24Inv.
From S2P Require Import Dir24Tables.

(** ** The simulation relation *)

Record coherent (n : Z) (e : Dir24Engine) (t : Tables) : Prop := mkCoherent {
  co_core : engine_core n e;
  co_groups : ∀ blk, groups_ok e blk;
  co_dims : dims n t;
  co_shape : shape e t;
  co_blocks : ∀ blk, in_range 24 blk → block_coherent e t blk;
  co_default : default_coherent e t;
}.

(** What the 26-bit and 4-bit fields of a word keep of an entry. *)
Definition dp_view (o : option FibEntry) : option FibEntry :=
  (λ e, mkFibEntry (nexthop_id e mod 2 ^ 26) (flags e mod 2 ^ 4)) <$> o.

(** The new words: each address's slot word under shadow [sh]. *)
Definition target (sh : gmap (Z * Z) FibEntry) (x : Z) : Z :=
  slot_word sh (x ≫ 8) (x .& 255).

Lemma target_block sh blk low : 0 ≤ low < 256 →
  target sh (block_addr blk low) = slot_word sh blk low.
Proof. intros. unfold target. by rewrite block_addr_blk, block_addr_low. Qed.

Lemma target_cover sh x : u32 x → target sh x = word_of (cover sh (lens_down 32 1) x).
Proof.
  intros Hx. unfold target, slot_word. rewrite block_addr_bits by apply low_range.
  by rewrite <- (block_addr_split x Hx).
Qed.

(** The default-route fallthrough, on words. *)
Definition resolve (w d : Z) : option FibEntry :=
  let w := if has w FIBW_VALID then w else d in
  if has w FIBW_VALID then Some (mkFibEntry (fibw_unpack w).1 (fibw_unpack w).2) else None.

Lemma lookup_resolve n t x : n ≤ 2 ^ 24 → safe n t → u32 x →
  (dir24_lookup t x).1 = resolve (raw t x) (cell (default4 t) 0).
Proof.
  intros Hn [(H24 & H8 & Hd) Hs] Hx. unfold dir24_lookup, raw, resolve.
  pose proof (block_of x Hx) as Hb. pose proof (low_range x).
  rewrite (array_get_Some (x ≫ 8)) by (rewrite H24; done).
  specialize (Hs _ Hb). destruct (has (cell (tbl24 t) (x ≫ 8)) FIBW_TBL8) eqn:Et.
  - specialize (Hs eq_refl). unfold wrap. rewrite Z.mod_small by lia.
    rewrite (array_get_Some (_ * 256 + _)) by lia. cbn.
    destruct (has (cell (tbl8 t) _) FIBW_VALID) eqn:Ev; [by rewrite Ev|].
    rewrite array_get_Some by lia. cbn. by destruct (has (cell (default4 t) 0) FIBW_VALID).
  - cbn.
    destruct (has (cell (tbl24 t) _) FIBW_VALID) eqn:Ev; [by rewrite Ev|].
    rewrite array_get_Some by lia. cbn. by destruct (has (cell (default4 t) 0) FIBW_VALID).
Qed.

Lemma resolve_words o d : resolve (word_of o) (word_of d) =
  dp_view (match o with Some e => Some e | None => d end).
Proof.
  unfold resolve. rewrite word_of_valid. destruct o as [e|]; cbn [is_Some].
  - rewrite bool_decide_eq_true_2 by eauto. cbn. by rewrite fibw_entry_valid, fibw_unpack_entry.
  - rewrite bool_decide_eq_false_2 by (by intros []). rewrite word_of_valid.
    destruct d as [e|].
    + rewrite bool_decide_eq_true_2 by eauto. cbn. by rewrite fibw_unpack_entry.
    + by rewrite bool_decide_eq_false_2 by (by intros []).
Qed.

Lemma lookup_coherent n e t x : n ≤ 2 ^ 24 → coherent n e t → u32 x →
  (dir24_lookup t x).1 = dp_view (lookup_lpm e x).
Proof.
  intros Hn [Hc _ Hd Hs Hb Hdef] Hx.
  rewrite (lookup_resolve n) by (done || by eapply shape_safe). rewrite Hdef.
  rewrite (block_addr_split x Hx) at 1. rewrite Hb by (apply block_of || apply low_range; done).
  change (slot_word _ _ _) with (target (shadow e) x). rewrite target_cover by done.
  rewrite resolve_words, lookup_lpm_default. by destruct (cover _ _ _).
Qed.

(** ** A run of block steps *)

(** The group-less blocks of [l] that will need a group. *)
Definition needs_group (e : Dir24Engine) (blk : Z) : Prop :=
  groups e !! blk = None ∧ (0 < long_routes (shadow e) blk)%nat.

#[global] Instance needs_group_dec e blk : Decision (needs_group e blk).
Proof. unfold needs_group. apply _. Defined.

Definition demand (e : Dir24Engine) (l : list Z) : nat :=
  length (filter (needs_group e) l).

Lemma demand_ext e e' l : shadow e' = shadow e →
  (∀ b, b ∈ l → groups e' !! b = groups e !! b) → demand e' l = demand e l.
Proof.
  intros Hs. unfold demand. induction l as [|b l IH]; intros Hg; [done|].
  rewrite !filter_cons.
  assert (needs_group e' b ↔ needs_group e b) as Hiff.
  { unfold needs_group. rewrite Hs, (Hg b) by (by left). done. }
  specialize (IH (λ b H, Hg b (list_elem_of_further _ _ _ H))).
  do 2 case_decide; cbn; tauto || lia.
Qed.

Lemma pool_step n blk e e' ws : block_step n blk e e' ws →
  (length (pool e) ≤ length (pool e') + (if decide (needs_group e blk) then 1 else 0))%nat.
Proof.
  destruct 1 as [|g ? Hl Hg ? ? ? ? Hp|? Hl ? ? Hg Hp]; [lia|..].
  - rewrite decide_True by done. apply Permutation_length in Hp. cbn in Hp. lia.
  - rewrite decide_False by (intros []; lia).
    destruct (groups e !! blk) as [g|] eqn:Eg.
    + rewrite Hg, (groups_values_delete _ _ _ Eg) in Hp. cbn in Hp.
      rewrite Permutation_middle in Hp. apply Permutation_app_inv_l, Permutation_length in Hp.
      cbn in Hp. lia.
    + rewrite Hg, delete_id in Hp by done. apply Permutation_app_inv_l, Permutation_length in Hp. lia.
Qed.

Lemma sync_run n l out e t : n ≤ 2 ^ 24 → NoDup l → (∀ b, b ∈ l → in_range 24 b) →
  engine_core n e → dims n t → shape e t →
  (∀ b, b ∉ l → groups_ok e b) →
  (∀ b, b ∉ l → in_range 24 b → block_coherent e t b) →
  (demand e l ≤ length (pool e))%nat →
  ∃ e' t' ws, mfold sync_block l out e = (e', Ok (out ++ ws)) ∧
    shadow e' = shadow e ∧ hitless (target (shadow e)) t ws t' ∧ Forall (safe_write n) ws ∧
    engine_core n e' ∧ dims n t' ∧ shape e' t' ∧
    (∀ b, groups_ok e' b) ∧ (∀ b, in_range 24 b → block_coherent e' t' b).
Proof.
  intros Hn. revert out e t.
  induction l as [|b l IH]; intros out e t Hnd Hin Hc Hd Hs Hok Hco Hdem.
  { exists e, t, []. rewrite app_nil_r.
    do 2 (split; [done|]). do 2 (split; [constructor|]). do 3 (split; [done|]).
    split; intros b; [|intros Hb]; [apply Hok|apply Hco]; try apply not_elem_of_nil; done. }
  apply NoDup_cons in Hnd as [Hni Hnd].
  unfold demand in Hdem. rewrite filter_cons in Hdem.
  destruct (sync_block_step n out b e Hc) as (e1 & ws1 & Hrun1 & Hst).
  { intros Hg Hl Hp. rewrite decide_True in Hdem by done. rewrite Hp in Hdem. cbn in Hdem. lia. }
  destruct (block_step_tables n b e e1 ws1 t (target (shadow e))) as (t1 & Hh1 & Hd1 & Hs1 & Hb1 & Ho1);
    [done|done|by apply Hin; left|done|done|apply target_block|done|].
  pose proof (block_step_shadow Hst) as Hsh1.
  destruct (IH (out ++ ws1) e1 t1) as (e' & t' & ws & Hrun & Hsh & Hh & Hsafe & Hc' & Hd' & Hs' & Hok' & Hco');
    [done| |by eapply block_step_core|done|done| | | |].
  - intros b' ?. apply Hin. by right.
  - intros b' Hb'. destruct (decide (b' = b)) as [->|Hne]; [by eapply block_step_groups_ok|].
    unfold groups_ok. rewrite (block_step_groups_ne Hst _ Hne), Hsh1. apply Hok. set_solver.
  - intros b' Hb' Hr. destruct (decide (b' = b)) as [->|Hne]; [done|].
    intros low Hlow. rewrite Ho1; [|by apply block_addr_u32|by rewrite block_addr_blk].
    rewrite Hsh1. apply Hco; [set_solver|done|done].
  - rewrite (demand_ext e e1); [|done|intros b' Hb'; apply (block_step_groups_ne Hst); congruence].
    pose proof (pool_step _ _ _ _ _ Hst). unfold demand. case_decide; cbn in Hdem; lia.
  - exists e', t', (ws1 ++ ws). cbn. unfold mbind, M_bind. rewrite Hrun1, Hrun.
    split; [by rewrite app_assoc|]. split; [congruence|].
    split; [eapply hitless_app; [done|]; by rewrite <- Hsh1|]. split; [|done].
    apply Forall_app. split; [|done]. exact (block_step_safe _ _ _ _ _ Hc Hn Hst).
Qed.

(** ** Updating the shadow *)

(** What a route change outside [blk] leaves alone. *)
Definition same_block (sh sh' : gmap (Z * Z) FibEntry) (blk : Z) : Prop :=
  long_routes sh' blk = long_routes sh blk ∧
  ∀ low, in_range 24 blk → 0 ≤ low < 256 → slot_word sh' blk low = slot_word sh blk low.

Lemma same_block_trans sh1 sh2 sh3 blk :
  same_block sh1 sh2 blk → same_block sh2 sh3 blk → same_block sh1 sh3 blk.
Proof. intros [? H1] [? H2]. split; [congruence|]. intros. by rewrite H2, H1. Qed.

Lemma update_unaffected sh addr len o blk : u32 addr → 1 ≤ len ≤ 32 → in_range 24 blk →
  blk ∉ affected_blocks (addr .& mask len) len →
  ∀ low, 0 ≤ low < 256 →
  slot_word (partial_alter (λ _, o) (addr .& mask len, len) sh) blk low = slot_word sh blk low.
Proof.
  intros Ha Hl Hb Hni low Hlow. unfold slot_word. rewrite block_addr_bits by done.
  f_equal. apply cover_update. intros E. apply Hni.
  rewrite <- (block_addr_blk blk low Hlow). by apply covered_affected; [|apply block_addr_u32|..].
Qed.

Lemma not_long_elsewhere a len blk : blk ∉ affected_blocks a len → ¬ is_long_in blk (a, len).
Proof. intros Hni [Hl Hb]. cbn in *. apply Hni. by apply affected_long. Qed.

Lemma long_routes_insert sh k en blk : ¬ is_long_in blk k →
  long_routes (<[k := en]> sh) blk = long_routes sh blk.
Proof.
  intros Hn. destruct (sh !! k) eqn:E; [by eapply long_routes_insert_replace|].
  by rewrite long_routes_insert_fresh, decide_False.
Qed.

Lemma long_routes_delete_ne sh k blk : ¬ is_long_in blk k →
  long_routes (delete k sh) blk = long_routes sh blk.
Proof.
  intros Hn. destruct (sh !! k) eqn:E; [|by rewrite delete_id].
  by rewrite (long_routes_delete sh k _ blk E), decide_False.
Qed.

Lemma insert_same_block sh addr len en blk : u32 addr → 1 ≤ len ≤ 32 →
  blk ∉ affected_blocks (addr .& mask len) len →
  same_block sh (<[(addr .& mask len, len) := en]> sh) blk.
Proof.
  intros. split; [by apply long_routes_insert, not_long_elsewhere|]. intros. by apply update_unaffected.
Qed.

Lemma delete_same_block sh addr len blk : u32 addr → 1 ≤ len ≤ 32 →
  blk ∉ affected_blocks (addr .& mask len) len →
  same_block sh (delete (addr .& mask len, len) sh) blk.
Proof.
  intros. split; [by apply long_routes_delete_ne, not_long_elsewhere|]. intros. by apply update_unaffected.
Qed.

Lemma wf_masked addr len : u32 addr → 0 ≤ len ≤ 32 → wf_key (addr .& mask len, len).
Proof.
  intros. split; [done|]. split; [by apply land_mask_u32|]. by apply land_mask_idem.
Qed.

(** The counter arithmetic of [long_incr]/[long_decr] is exact. *)
Lemma long_incr_lookup lc blk c b : default 0 (lc !! blk) = Z.of_nat c → (c ≤ 2048)%nat →
  default 0 (long_incr blk lc !! b) = if decide (b = blk) then Z.of_nat (S c) else default 0 (lc !! b).
Proof.
  intros Hc Hb. unfold long_incr. rewrite Hc. case_decide as E.
  - subst. rewrite lookup_insert_eq. unfold default, from_option, id, wrap. rewrite Z.mod_small; lia.
  - by rewrite lookup_insert_ne.
Qed.

Lemma long_decr_lookup lc blk c b : default 0 (lc !! blk) = Z.of_nat (S c) → (c ≤ 2048)%nat →
  default 0 (long_decr blk lc !! b) = if decide (b = blk) then Z.of_nat c else default 0 (lc !! b).
Proof.
  intros Hc Hb. unfold long_decr. destruct (lc !! blk) as [c'|] eqn:E; [|by cbn in Hc; lia].
  assert (c' = Z.of_nat (S c)) as -> by exact Hc.
  unfold wrap. rewrite Z.mod_small by lia. case_decide as Eb.
  - subst. replace (Z.of_nat (S c) - 1) with (Z.of_nat c) by lia.
    destruct (Z.eqb_spec (Z.of_nat c) 0) as [->|]; [by rewrite lookup_delete_eq|by rewrite lookup_insert_eq].
  - case_match; [by rewrite lookup_delete_ne|by rewrite lookup_insert_ne].
Qed.

(** A mutation of the shadow and its counts only. *)
Definition same_pool (e e' : Dir24Engine) : Prop :=
  groups e' = groups e ∧ free e' = free e ∧ quarantine e' = quarantine e.

Lemma same_pool_trans e1 e2 e3 : same_pool e1 e2 → same_pool e2 e3 → same_pool e1 e3.
Proof. intros (?&?&?) (?&?&?). repeat split; congruence. Qed.

Lemma shadow_insert_core n e addr len en : engine_core n e → u32 addr → 1 ≤ len ≤ 32 →
  let e' := shadow_insert (addr .& mask len) len en e in
  engine_core n e' ∧ shadow e' = <[(addr .& mask len, len) := en]> (shadow e) ∧ same_pool e e'.
Proof.
  intros [Hk Hc Hp] Ha Hl. cbn zeta. unfold shadow_insert.
  set (k := (addr .& mask len, len)).
  assert (map_Forall (λ k _, wf_key k) (<[k := en]> (shadow e))) as Hk'.
  { apply map_Forall_insert_2; [apply wf_masked; [done|lia]|done]. }
  destruct (shadow e !! k) as [en'|] eqn:Ek.
  - split; [|done]. split; [done| |done]. intros b. cbn. rewrite Hc.
    by erewrite (long_routes_insert_replace _ _ _ _ b Ek).
  - destruct (Z.ltb_spec 24 len) as [Hlt|Hge].
    + split; [|done]. split; [done| |done]. intros b. cbn.
      rewrite (long_incr_lookup _ _ _ _ (Hc _)) by (by apply long_routes_bound).
      rewrite long_routes_insert_fresh by done. unfold is_long_in, k; cbn.
      destruct (decide (b = _)) as [->|Hne]; [by rewrite decide_True|].
      rewrite decide_False by (intros []; congruence). apply Hc.
    + split; [|done]. split; [done| |done]. intros b. cbn. rewrite Hc.
      rewrite long_routes_insert; [done|]. intros []; cbn in *; lia.
Qed.

Lemma default_insert_core n e en : engine_core n e →
  engine_core n (set_shadow <[(0, 0) := en]> e).
Proof.
  intros [Hk Hc Hp]. split; [|intros b; cbn|done].
  - apply map_Forall_insert_2; [|done]. by apply (wf_masked 0 0); [unfold in_range; lia|].
  - rewrite Hc, long_routes_insert; [done|]. intros []; cbn in *; lia.
Qed.

Lemma shadow_delete_core n e addr len en : engine_core n e → u32 addr → 1 ≤ len ≤ 32 →
  shadow e !! (addr .& mask len, len) = Some en →
  let e1 := set_shadow (delete (addr .& mask len, len)) e in
  let e' := if 24 <? len then set_long_count (long_decr ((addr .& mask len) ≫ 8)) e1 else e1 in
  engine_core n e' ∧ shadow e' = delete (addr .& mask len, len) (shadow e) ∧ same_pool e e'.
Proof.
  intros [Hk Hc Hp] Ha Hl Ek. cbn zeta. set (k := (addr .& mask len, len)) in *.
  assert (map_Forall (λ k _, wf_key k) (delete k (shadow e))) as Hk' by by apply map_Forall_delete.
  destruct (Z.ltb_spec 24 len) as [Hlt|Hge].
  - split; [|done]. split; [done| |done]. intros b. cbn.
    pose proof (Hc ((addr .& mask len) ≫ 8)) as Hcb.
    rewrite (long_routes_delete _ _ _ _ Ek), decide_True in Hcb by done.
    rewrite (long_decr_lookup _ _ _ _ Hcb) by (by apply long_routes_bound).
    case_decide as E; [by subst|]. rewrite Hc, long_routes_delete_ne; [done|].
    intros [? Hb]. by cbn in Hb.
  - split; [|done]. split; [done| |done]. intros b. cbn. rewrite Hc.
    rewrite long_routes_delete_ne; [done|]. intros []; cbn in *; lia.
Qed.

Lemma default_delete_core n e : engine_core n e →
  engine_core n (set_shadow (delete (0, 0)) e).
Proof.
  intros [Hk Hc Hp]. split; [by apply map_Forall_delete|intros b; cbn|done].
  rewrite Hc, long_routes_delete_ne; [done|]. intros []; cbn in *; lia.
Qed.

(** ** Resynchronising the affected blocks *)

Lemma resync n e t e1 l out : n ≤ 2 ^ 24 → engine_core n e1 →
  (∀ b, groups_ok e b) → dims n t → shape e t →
  (∀ b, in_range 24 b → block_coherent e t b) → default_coherent e1 t →
  same_pool e e1 → NoDup l → (∀ b, b ∈ l → in_range 24 b) →
  (∀ b, b ∉ l → same_block (shadow e) (shadow e1) b) →
  (demand e1 l ≤ length (pool e1))%nat →
  ∃ e' t' ws, mfold sync_block l out e1 = (e', Ok (out ++ ws)) ∧ shadow e' = shadow e1 ∧
    hitless (target (shadow e1)) t ws t' ∧ Forall (safe_write n) ws ∧ coherent n e' t'.
Proof.
  intros Hn Hc Hg Hd Hs Hb Hdef (Hgr & Hfr & Hqu) Hnd Hin Hsame Hdem.
  destruct (sync_run n l out e1 t) as (e' & t' & ws & Hrun & Hsh & Hh & Hsafe & Hc' & Hd' & Hs' & Hg' & Hb');
    [done..| | | |done|].
  - intros b Hr. specialize (Hs b Hr). by rewrite Hgr.
  - intros b Hni. unfold groups_ok. rewrite Hgr, (proj1 (Hsame b Hni)). apply Hg.
  - intros b Hni Hr low Hlow. rewrite (proj2 (Hsame b Hni)) by done. by apply Hb.
  - exists e', t', ws. split; [done|]. split; [done|]. split; [done|]. split; [done|].
    split; [done..|]. unfold default_coherent. by rewrite (hitless_default _ _ _ _ Hh), Hsh.
Qed.

Lemma demand_zero e l : (∀ b, b ∈ l → ¬ needs_group e b) → demand e l = 0%nat.
Proof.
  intros H. unfold demand. induction l as [|b l IH]; [done|].
  rewrite filter_cons, decide_False by (apply H; by left). apply IH. intros b' ?. apply H. by right.
Qed.

Lemma demand_le_one e b : (demand e [b] ≤ 1)%nat.
Proof. unfold demand. rewrite filter_cons, filter_nil. case_decide; cbn; lia. Qed.

(** The observable outcome of an operation: the engine reaches shadow [sh'],
    the plan applies in full, the data plane is coherent with the new engine,
    and no prefix of the plan shows a reader anything but the old or the new
    answer. *)
Definition transitions (n : Z) (t : Tables) (sh' : gmap (Z * Z) FibEntry)
    (r : Dir24Engine * res Dir24Err (list SlotWrite)) : Prop :=
  ∃ e' plan t', r = (e', Ok plan) ∧ shadow e' = sh' ∧
    dir24_apply plan t = Some t' ∧ coherent n e' t' ∧
    ∀ k, ∃ tk, dir24_apply (take k plan) t = Some tk ∧
      ∀ x, u32 x → (dir24_lookup tk x).1 = (dir24_lookup t x).1 ∨
                   (dir24_lookup tk x).1 = (dir24_lookup t' x).1.

Lemma resync_transitions n e t e1 l : 0 ≤ n ≤ 2 ^ 24 → coherent n e t → engine_core n e1 →
  shadow e1 !! (0, 0) = shadow e !! (0, 0) →
  same_pool e e1 → NoDup l → (∀ b, b ∈ l → in_range 24 b) →
  (∀ b, b ∉ l → same_block (shadow e) (shadow e1) b) →
  (demand e1 l ≤ length (pool e1))%nat →
  transitions n t (shadow e1) (mfold sync_block l [] e1).
Proof.
  intros Hn [Hc Hg Hd Hs Hb Hdef] Hc1 H0 Hp Hnd Hin Hsame Hdem.
  destruct (resync n e t e1 l []) as (e' & t' & ws & Hrun & Hsh & Hh & Hw & Hco); [lia|done..| |done|done|done|done|done|].
  { unfold default_coherent. by rewrite H0. }
  exists e', ws, t'. split; [done|]. split; [done|]. split; [by eapply hitless_apply|]. split; [done|].
  intros k. destruct (hitless_prefix _ _ _ _ Hh k) as (tk & Hk & Hdk & Hxk).
  exists tk. split; [done|]. intros x Hx.
  assert (safe n t) as Hst by (apply (shape_safe n e); [done|lia|done|done]).
  assert (safe n t') as Hst' by (destruct Hco; apply (shape_safe n e'); [done|lia|done|done]).
  assert (safe n tk) as Hsk by (apply (dir24_apply_safe n (take k ws) t); [done|by apply Forall_take|done]).
  rewrite (lookup_resolve n tk), (lookup_resolve n t), (lookup_resolve n t') by (done || lia).
  rewrite Hdk, (hitless_default _ _ _ _ Hh).
  destruct (Hxk x Hx) as [->|E]; [by left|right]. rewrite E. f_equal.
  rewrite (block_addr_split x Hx) at 2.
  rewrite (co_blocks _ _ _ Hco) by (apply block_of || apply low_range; done).
  by rewrite Hsh.
Qed.

Lemma dir24_apply_one t w : dir24_apply [w] t = apply_write t w.
Proof. cbn. by destruct (apply_write t w). Qed.

(** A plan of the single default-route word. *)
Lemma default_transitions n e t e1 : n ≤ 2 ^ 24 → coherent n e t → engine_core n e1 →
  same_pool e e1 → (∀ b, same_block (shadow e) (shadow e1) b) →
  transitions n t (shadow e1) (e1, Ok [Default (word_of (shadow e1 !! (0, 0)))]).
Proof.
  intros Hn [Hc Hg Hd Hs Hb Hdef] Hc1 (Hgr & _) Hsame.
  set (w := word_of _).
  set (t1 := mkTables (tbl24 t) (tbl8 t) (mkArray (entries (default4 t)) (<[0 := w]> (cells (default4 t))))).
  assert (apply_write t (Default w) = Some t1) as Happ.
  { destruct Hd as (_ & _ & Hd). cbn. rewrite array_set_Some by lia. done. }
  exists e1, [Default w], t1. do 2 (split; [done|]).
  split; [by rewrite dir24_apply_one|]. split.
  - split; [done| |done| | |].
    + intros b. unfold groups_ok. rewrite Hgr, (proj1 (Hsame b)). apply Hg.
    + intros b Hr. specialize (Hs b Hr). by rewrite Hgr.
    + intros b Hr low Hlow. rewrite (proj2 (Hsame b)) by done. by apply Hb.
    + unfold default_coherent, t1; cbn. rewrite cell_insert. by rewrite decide_True.
  - intros [|k]; [exists t; cbn; auto|]. exists t1.
    change (take (S k) [Default w]) with (Default w :: take k []). rewrite take_nil, dir24_apply_one. auto.
Qed.
