(* ===== verification/Dir24Refine.v ===== *)
(** * DIR-24-8: operations, refinement and the control plane's transactions

    Each operation of the engine against the abstract route table, the
    transaction [route4_add]/[route4_del]/[route4_add_bulk] make of it (run
    the engine, apply the plan to the arrays), and the properties of any
    sequence of transactions from the empty table. *)

From S2P Require Import Prelude.
From S2P Require Import Common.
From S2P Require Import Dir24.
From S2P Require Import Dir24Lpm.
From S2P Require Import Dir24Inv.
From S2P Require Import Dir24Tables.
From S2P Require Import Dir24Correct.

(** ** The abstract route table *)

Abbreviation RouteTable := (gmap (Z * Z) FibEntry).

(** The network of [addr]/[len]: the low [32 - len] bits cleared. *)
Definition network (addr len : Z) : Z := addr / 2 ^ (32 - len) * 2 ^ (32 - len).

Definition covers (net len x : Z) : Prop := x / 2 ^ (32 - len) = net / 2 ^ (32 - len).

(** [o] is the entry of the longest route covering [x]. *)
Definition longest_match (tbl : RouteTable) (x : Z) (o : option FibEntry) : Prop :=
  match o with
  | Some en => ∃ net len, tbl !! (net, len) = Some en ∧ covers net len x ∧
      ∀ net' len' en', tbl !! (net', len') = Some en' → covers net' len' x → len' ≤ len
  | None => ∀ net' len' en', tbl !! (net', len') = Some en' → ¬ covers net' len' x
  end.

Definition spec_insert (tbl : RouteTable) (r : Z * Z * FibEntry) : RouteTable :=
  let '(addr, len, en) := r in <[(network addr len, len) := en]> tbl.

Definition spec_delete (tbl : RouteTable) (addr len : Z) : RouteTable :=
  delete (network addr len, len) tbl.

Lemma network_mask addr len : u32 addr → 0 ≤ len ≤ 32 → network addr len = addr .& mask len.
Proof. intros. by rewrite land_mask. Qed.

(** The engine's reference lookup is the longest match. *)
Lemma lookup_lpm_longest n e x : engine_core n e → u32 x → longest_match (shadow e) x (lookup_lpm e x).
Proof.
  intros Hc Hx. unfold lookup_lpm.
  assert (∀ net len en, shadow e !! (net, len) = Some en → covers net len x →
    0 ≤ len ≤ 32 ∧ x .& mask len = net) as Hcov.
  { intros net len en Hk Hcv. apply (core_keys _ _ Hc) in Hk as (Hl & Hu & Hm). cbn in *.
    split; [done|]. rewrite <- Hm. by apply land_mask_eq. }
  destruct (cover (shadow e) (lens_down 32 0) x) as [en|] eqn:E.
  - apply cover_Some in E as (l & Hl & Hk & Hno). exists (x .& mask l), l. split; [done|].
    split; [unfold covers; by rewrite land_mask_div|]. intros net' len' en' Hk' Hcv.
    destruct (Hcov _ _ _ Hk' Hcv) as [Hl' Em].
    destruct (decide (len' ≤ l)) as [|Hgt]; [done|]. specialize (Hno len' ltac:(lia)).
    rewrite Em in Hno. congruence.
  - intros net len en Hk Hcv. destruct (Hcov _ _ _ Hk Hcv) as [Hl Em].
    unfold cover in E. rewrite first_some_None in E.
    specialize (E len (proj2 (elem_of_lens _ _ _) Hl)). rewrite Em in E. congruence.
Qed.

Lemma affected_long_eq a len : 24 < len → affected_blocks a len = [a ≫ 8].
Proof.
  intros Hl. unfold affected_blocks. rewrite (proj2 (Z.ltb_lt _ _)) by done.
  by rewrite seqZ_cons, seqZ_nil by lia.
Qed.

(** ** Each operation *)

Section operations.
Context (n : Z) (Hn : 0 ≤ n ≤ 2 ^ 24) (e : Dir24Engine) (t : Tables) (Hco : coherent n e t).

Let Hcore : engine_core n e.
Proof. by destruct Hco. Qed.
Let Hgroups : ∀ b, groups_ok e b.
Proof. by destruct Hco. Qed.

(** Deleting routes creates no new demand for groups. *)
Lemma no_new_demand e1 l : same_pool e e1 →
  (∀ b, (long_routes (shadow e1) b ≤ long_routes (shadow e) b)%nat) → demand e1 l = 0%nat.
Proof.
  intros (Hg & _) Hle. apply demand_zero. intros b _ [Hnone Hl]. rewrite Hg in Hnone.
  assert (is_Some (groups e !! b)) as [? Hs] by (apply Hgroups; specialize (Hle b); lia). congruence.
Qed.

(** When the pool pre-check of [route_add] refuses. *)
Definition add_refused (addr len : Z) : Prop :=
  24 < len ∧ groups e !! (network addr len ≫ 8) = None ∧ pool e = [].

Lemma pool_nil : pool e = [] ↔ free e = [] ∧ quarantine e = [].
Proof. unfold pool. apply app_nil. Qed.

Lemma route_add_ok addr len en : u32 addr → 0 ≤ len ≤ 32 → ¬ add_refused addr len →
  transitions n t (spec_insert (shadow e) (addr, len, en)) (route_add addr len en e).
Proof.
  intros Ha Hl Hpre. unfold route_add. rewrite (proj2 (Z.ltb_ge _ _)) by lia.
  unfold add_refused in Hpre. cbn [spec_insert]. rewrite !network_mask in * by done.
  destruct (Z.eqb_spec len 0) as [->|Hnz].
  { rewrite land_mask_0. unfold mbind, M_bind, modify, mret, M_ret.
    pose proof (default_insert_core n e en Hcore) as Hc1.
    replace (fibw_entry _ _) with (word_of (shadow (set_shadow <[(0, 0):=en]> e) !! (0, 0)))
      by (cbn; by rewrite lookup_insert_eq).
    apply (default_transitions n e t); [lia|done..|]. intros b. split.
    - apply long_routes_insert. intros []; cbn in *; lia.
    - intros low _ _. unfold slot_word. f_equal. unfold cover. apply first_some_ext.
      intros l' ?%elem_of_lens. cbn. apply lookup_insert_ne. intros [=]. lia. }
  unfold mbind, M_bind, get, modify. cbn zeta.
  case_match eqn:Egrd.
  { exfalso. apply Hpre. rewrite pool_nil.
    repeat (apply andb_true_iff in Egrd as [Egrd ?]).
    repeat match goal with H : bool_decide _ = true |- _ => apply bool_decide_eq_true in H end.
    apply Z.ltb_lt in Egrd. done. }
  pose proof (shadow_insert_core n e addr len en Hcore Ha ltac:(lia)) as (Hc1 & Hs1 & Hp1).
  rewrite <- Hs1. apply (resync_transitions n e); [done..| | |apply affected_nodup| | |].
  - rewrite Hs1. apply lookup_insert_ne. intros [=]. done.
  - done.
  - intros b. apply affected_range; [done|lia].
  - intros b Hni. rewrite Hs1. apply insert_same_block; [done|lia|done].
  - destruct (Z.ltb_spec 24 len) as [Hlt|Hge].
    + rewrite affected_long_eq by done.
      destruct (groups e !! ((addr .& mask len) ≫ 8)) eqn:Eg.
      { rewrite demand_zero; [lia|]. intros b ->%list_elem_of_singleton [Hnone _].
        destruct Hp1 as (Hg1 & _). congruence. }
      etransitivity; [apply demand_le_one|].
      destruct Hp1 as (_ & Hf1 & Hq1). unfold pool. rewrite Hf1, Hq1.
      destruct (free e ++ quarantine e) eqn:Ep; [|cbn; lia]. by destruct Hpre.
    + rewrite no_new_demand; [lia|done|]. intros b. rewrite Hs1, long_routes_insert; [done|].
      intros []; cbn in *; lia.
Qed.

Lemma route_add_err addr len en : u32 addr → 0 ≤ len → len > 32 ∨ add_refused addr len →
  ∃ er, route_add addr len en e = (e, Err er).
Proof.
  intros Ha Hl Herr. unfold route_add. destruct (Z.ltb_spec 32 len) as [Hlt|Hge]; [by eexists|].
  destruct Herr as [?|(Hlong & Hnone & [Hf Hq]%pool_nil)]; [lia|].
  rewrite network_mask in Hnone by (done || lia).
  rewrite (proj2 (Z.eqb_neq _ _)) by lia.
  unfold mbind, M_bind, get. rewrite !bool_decide_eq_true_2 by done.
  rewrite (proj2 (Z.ltb_lt _ _)) by done. by eexists.
Qed.

Lemma route_del_ok addr len : u32 addr → 0 ≤ len ≤ 32 →
  transitions n t (spec_delete (shadow e) addr len) (route_del addr len e).
Proof.
  intros Ha Hl. unfold route_del, spec_delete. rewrite (proj2 (Z.ltb_ge _ _)) by lia.
  rewrite network_mask by done. unfold mbind, M_bind, get, modify, mret, M_ret. cbn zeta.
  destruct (shadow e !! (addr .& mask len, len)) as [en|] eqn:Ek.
  2: { exists e, [], t. rewrite delete_id by done. do 3 (split; [done|]). split; [done|].
       intros k. rewrite take_nil. exists t. auto. }
  destruct (Z.eqb_spec len 0) as [->|Hnz].
  { rewrite land_mask_0. pose proof (default_delete_core n e Hcore) as Hc1.
    replace (Default 0) with (Default (word_of (shadow (set_shadow (delete (0, 0)) e) !! (0, 0))))
      by (cbn; by rewrite lookup_delete_eq).
    apply (default_transitions n e t); [lia|done..|]. intros b. split.
    - apply long_routes_delete_ne. intros []; cbn in *; lia.
    - intros low _ _. unfold slot_word. f_equal. unfold cover. apply first_some_ext.
      intros l' ?%elem_of_lens. cbn. apply lookup_delete_ne. intros [=]. lia. }
  pose proof (shadow_delete_core n e addr len en Hcore Ha ltac:(lia) Ek) as (Hc1 & Hs1 & Hp1).
  rewrite <- Hs1. apply (resync_transitions n e); [done..| | |apply affected_nodup| | |].
  - rewrite Hs1. apply lookup_delete_ne. intros [=]. done.
  - done.
  - intros b. apply affected_range; [done|lia].
  - intros b Hni. rewrite Hs1. apply delete_same_block; [done|lia|done].
  - rewrite no_new_demand; [lia|done|]. intros b. rewrite Hs1.
    rewrite (long_routes_delete _ _ _ b Ek). case_decide; lia.
Qed.
End operations.

#[global] Instance add_refused_dec e addr len : Decision (add_refused e addr len).
Proof. unfold add_refused. apply _. Defined.

(** ** Batches *)

Definition wf_route (r : Z * Z * FibEntry) : Prop := u32 r.1.1 ∧ 0 ≤ r.1.2 ≤ 32.

(** The block a batch route may need a new group for. *)
Definition long_block (gr : gmap Z Z) (r : Z * Z * FibEntry) (b : Z) : Prop :=
  24 < r.1.2 ∧ gr !! b = None ∧ b = network r.1.1 r.1.2 ≫ 8.

(** The pre-check computes the group-less blocks of the batch's long routes. *)
Lemma batch_demand_spec gr rs need : Forall wf_route rs → ∃ need',
  batch_demand gr rs need = Ok need' ∧
  ∀ b, b ∈ need' ↔ b ∈ need ∨ ∃ r, r ∈ rs ∧ long_block gr r b.
Proof.
  intros Hwf. revert need. induction Hwf as [|[[a len] en] rs [Ha Hl] _ IH]; intros need.
  { exists need. split; [done|]. intros b. split; [by left|]. intros [?|(? & []%not_elem_of_nil & _)]. done. }
  cbn in Ha, Hl. cbn [batch_demand]. rewrite (proj2 (Z.ltb_ge _ _)) by lia.
  destruct (IH (if (24 <? len) && bool_decide (gr !! ((a .& mask len) ≫ 8) = None)
                then {[(a .& mask len) ≫ 8]} ∪ need else need)) as (need' & -> & Hneed).
  exists need'. split; [done|]. intros b. rewrite Hneed. clear Hneed IH.
  assert (long_block gr (a, len, en) b ↔
    (24 <? len) && bool_decide (gr !! ((a .& mask len) ≫ 8) = None) = true ∧ b = (a .& mask len) ≫ 8) as Hlb.
  { unfold long_block; cbn [fst snd]. rewrite network_mask by done.
    rewrite andb_true_iff, bool_decide_eq_true, Z.ltb_lt. split; [intros (? & ? & ->)|intros [[? ?] ->]]; done. }
  destruct ((24 <? len) && _).
  - rewrite elem_of_union, elem_of_singleton. split.
    + intros [[->|?]|(r & Hr & Hb)]; [right|by left|right].
      * exists (a, len, en). split; [by left|]. by apply Hlb.
      * exists r. split; [by right|done].
    + intros [?|(r & [->|Hr]%elem_of_cons & Hb)]; [by left; right|left; left|right; eauto].
      by apply Hlb in Hb as [_ ->].
  - split.
    + intros [?|(r & Hr & Hb)]; [by left|right]. exists r. split; [by right|done].
    + intros [?|(r & [->|Hr]%elem_of_cons & Hb)]; [by left|by apply Hlb in Hb as [? _]|right; eauto].
Qed.

Lemma batch_demand_bad gr rs need : Exists (λ r, 32 < r.1.2) rs →
  ∃ len, batch_demand gr rs need = Err (BadPrefixLength len) ∧ 32 < len.
Proof.
  intros Hex. revert need. induction rs as [|[[a len] en] rs IH]; intros need; [by apply Exists_nil in Hex|].
  cbn [batch_demand]. destruct (Z.ltb_spec 32 len) as [Hlt|Hge]; [by eexists|].
  apply Exists_cons in Hex as [Hlt|Hex]; [cbn in Hlt; lia|]. by apply IH.
Qed.

(** The mutation loop of a batch. *)
Record batch_run (n : Z) (rs : list (Z * Z * FibEntry)) (e e1 : Dir24Engine)
    (aff aff' : gset Z) (defs : list SlotWrite) : Prop := mkBatchRun {
  br_core : engine_core n e1;
  br_pool : same_pool e e1;
  br_shadow : shadow e1 = foldl spec_insert (shadow e) rs;
  br_sub : aff ⊆ aff';
  br_range : ∀ b, b ∈ aff' → b ∈ aff ∨ in_range 24 b;
  br_same : ∀ b, b ∉ aff' → same_block (shadow e) (shadow e1) b;
  br_long : ∀ b, (0 < long_routes (shadow e1) b)%nat →
    (0 < long_routes (shadow e) b)%nat ∨ ∃ r, r ∈ rs ∧ 24 < r.1.2 ∧ b = network r.1.1 r.1.2 ≫ 8;
  br_defs : ∀ t, dims n t → default_coherent e t → ∃ t', dir24_apply defs t = Some t' ∧
    dims n t' ∧ tbl24 t' = tbl24 t ∧ tbl8 t' = tbl8 t ∧ default_coherent e1 t';
}.

Lemma batch_run_refl n e aff : engine_core n e → batch_run n [] e e aff aff [].
Proof. split; try done; [by left|by left|]. intros t ? ?. by exists t. Qed.

Lemma dir24_apply_app p1 p2 t : dir24_apply (p1 ++ p2) t = dir24_apply p1 t ≫= dir24_apply p2.
Proof.
  revert t. induction p1 as [|w p1 IH]; intros t; [done|]. cbn.
  destruct (apply_write t w); [by apply IH|done].
Qed.

Lemma batch_run_trans n rs1 rs2 e e1 e2 a a1 a2 d1 d2 :
  batch_run n rs1 e e1 a a1 d1 → batch_run n rs2 e1 e2 a1 a2 d2 →
  batch_run n (rs1 ++ rs2) e e2 a a2 (d1 ++ d2).
Proof.
  intros [Hc1 Hp1 Hs1 Hsub1 Hr1 Hb1 Hl1 Hd1] [Hc2 Hp2 Hs2 Hsub2 Hr2 Hb2 Hl2 Hd2]. split.
  - done.
  - by eapply same_pool_trans.
  - by rewrite foldl_app, <- Hs1.
  - by etransitivity.
  - intros b Hb. destruct (Hr2 b Hb) as [Hb'|?]; [by apply Hr1|by right].
  - intros b Hb. eapply same_block_trans; [apply Hb1; set_solver|by apply Hb2].
  - intros b Hb. setoid_rewrite elem_of_app.
    destruct (Hl2 b Hb) as [Hb'|?]; [destruct (Hl1 b Hb')|]; naive_solver.
  - intros t Hd Ht. destruct (Hd1 t Hd Ht) as (t1 & Ha1 & Hdt1 & H24 & H8 & Hdc1).
    destruct (Hd2 t1 Hdt1 Hdc1) as (t2 & Ha2 & Hdt2 & H24' & H8' & Hdc2).
    exists t2. rewrite dir24_apply_app, Ha1. split; [done|]. repeat split; (apply Hdt2 || congruence || done).
Qed.

Lemma bulk_insert_run n e out aff r : engine_core n e → wf_route r → ∃ e1 aff' defs,
  bulk_insert (out, aff) r e = (e1, Ok (out ++ defs, aff')) ∧ batch_run n [r] e e1 aff aff' defs.
Proof.
  destruct r as [[a len] en]. intros Hc [Ha Hl]. cbn in Ha, Hl.
  unfold bulk_insert, mbind, M_bind, modify, mret, M_ret.
  assert (∀ b, 24 < len → b = (a .& mask len) ≫ 8 →
    ∃ r, r ∈ [(a, len, en)] ∧ 24 < r.1.2 ∧ b = network r.1.1 r.1.2 ≫ 8) as Hex.
  { intros b ? ->. exists (a, len, en). cbn. rewrite network_mask by done. split; [by left|done]. }
  destruct (Z.eqb_spec len 0) as [->|Hnz].
  - rewrite land_mask_0. eexists _, aff, [_]. split; [done|]. split.
    + by apply default_insert_core.
    + done.
    + cbn. by rewrite network_mask, land_mask_0 by done.
    + done.
    + by left.
    + intros b _. split.
      * apply long_routes_insert. intros []; cbn in *; lia.
      * intros low _ _. unfold slot_word. f_equal. unfold cover. apply first_some_ext.
        intros l' ?%elem_of_lens. cbn. apply lookup_insert_ne. intros [=]. lia.
    + intros b. cbn. rewrite long_routes_insert; [by left|]. intros []; cbn in *; lia.
    + intros t (H24 & H8 & Hd) _. eexists. rewrite dir24_apply_one. cbn. rewrite array_set_Some by lia.
      split; [done|]. split; [done|]. do 2 (split; [done|]). unfold default_coherent; cbn.
      rewrite cell_insert, lookup_insert_eq. by rewrite decide_True.
  - pose proof (shadow_insert_core n e a len en Hc Ha ltac:(lia)) as (Hc1 & Hs1 & Hp1).
    eexists _, _, []. rewrite app_nil_r. split; [done|]. split.
    + done.
    + done.
    + rewrite Hs1. cbn. by rewrite network_mask by done.
    + set_solver.
    + intros b [Hb|Hb]%elem_of_union; [right|by left].
      apply elem_of_list_to_set in Hb. by apply affected_range in Hb; [|done|lia].
    + intros b Hb. rewrite Hs1. apply insert_same_block; [done|lia|].
      intros Hin. apply Hb, elem_of_union_l. by apply elem_of_list_to_set.
    + intros b. rewrite Hs1. destruct (decide (is_long_in b (a .& mask len, len))) as [[? Hb]|Hno].
      * intros _. right. by apply Hex.
      * rewrite long_routes_insert by done. by left.
    + intros t Hd Hdc. exists t. split; [done|]. split; [done|]. do 2 (split; [done|]).
      unfold default_coherent. rewrite Hs1, lookup_insert_ne; [done|]. intros [=]. done.
Qed.

Lemma bulk_insert_runs n rs e out aff : engine_core n e → Forall wf_route rs → ∃ e1 aff' defs,
  mfold bulk_insert rs (out, aff) e = (e1, Ok (out ++ defs, aff')) ∧ batch_run n rs e e1 aff aff' defs.
Proof.
  intros Hc Hwf. revert e out aff Hc. induction Hwf as [|r rs Hr _ IH]; intros e out aff Hc.
  { exists e, aff, []. rewrite app_nil_r. split; [done|]. by apply batch_run_refl. }
  destruct (bulk_insert_run n e out aff r Hc Hr) as (e1 & a1 & d1 & Hrun1 & Hbr1).
  destruct (IH e1 (out ++ d1) a1 (br_core _ _ _ _ _ _ _ Hbr1)) as (e2 & a2 & d2 & Hrun2 & Hbr2).
  exists e2, a2, (d1 ++ d2). rewrite mfold_cons, Hrun1, Hrun2, app_assoc.
  split; [done|]. by apply (batch_run_trans n [r] rs e e1 e2 aff a1 a2).
Qed.

(** The new groups a batch needs, as a set. *)
Definition batch_need (e : Dir24Engine) (rs : list (Z * Z * FibEntry)) (need : gset Z) : Prop :=
  ∀ b, b ∈ need ↔ ∃ r, r ∈ rs ∧ long_block (groups e) r b.

Lemma batch_need_ex e rs : Forall wf_route rs → ∃ need,
  batch_demand (groups e) rs ∅ = Ok need ∧ batch_need e rs need.
Proof.
  intros Hwf. destruct (batch_demand_spec (groups e) rs ∅ Hwf) as (need & Hn & Hin).
  exists need. split; [done|]. intros b. rewrite Hin. set_solver.
Qed.

Lemma batch_need_unique e rs n1 n2 : batch_need e rs n1 → batch_need e rs n2 → n1 = n2.
Proof. intros H1 H2. apply set_eq. intros b. by rewrite (H1 b), (H2 b). Qed.

Lemma in_order_elem s b : b ∈ in_order s ↔ b ∈ s.
Proof. unfold in_order. by rewrite merge_sort_Permutation, elem_of_elements. Qed.

Lemma in_order_nodup s : NoDup (in_order s).
Proof. unfold in_order. rewrite merge_sort_Permutation. apply NoDup_elements. Qed.

Lemma batch_demand_bound n rs e e1 aff defs need : (∀ b, groups_ok e b) → 
  batch_run n rs e e1 ∅ aff defs → batch_need e rs need →
  (demand e1 (in_order aff) ≤ size need)%nat.
Proof.
  intros Hg Hbr Hneed. unfold demand.
  rewrite <- (size_list_to_set (C := gset Z)) by (apply NoDup_filter, in_order_nodup).
  apply subseteq_size. intros b Hb.
  apply elem_of_list_to_set, list_elem_of_filter in Hb as [[Hnone Hl] _].
  destruct (br_pool _ _ _ _ _ _ _ Hbr) as (Hgr & _). rewrite Hgr in Hnone.
  destruct (br_long _ _ _ _ _ _ _ Hbr b Hl) as [Hold|(r & Hr & Hlr & ->)].
  - apply Hg in Hold as [? Hs]. congruence.
  - apply Hneed. by exists r.
Qed.

Lemma route_add_bulk_ok n e t rs need : 0 ≤ n ≤ 2 ^ 24 → coherent n e t →
  Forall wf_route rs → batch_need e rs need → (size need ≤ length (pool e))%nat →
  ∃ e' plan t', route_add_bulk rs e = (e', Ok plan) ∧
    shadow e' = foldl spec_insert (shadow e) rs ∧
    dir24_apply plan t = Some t' ∧ coherent n e' t'.
Proof.
  intros Hn [Hc Hg Hd Hs Hb Hdef] Hwf Hneed Hsz.
  destruct (batch_need_ex e rs Hwf) as (need' & Hdem & Hneed').
  rewrite (batch_need_unique _ _ _ _ Hneed Hneed') in *.
  destruct (bulk_insert_runs n rs e [] ∅ Hc Hwf) as (e1 & aff & defs & Hrun & Hbr).
  destruct (br_defs _ _ _ _ _ _ _ Hbr t Hd Hdef) as (t1 & Ha1 & Hd1 & H24 & H8 & Hdef1).
  pose proof (br_pool _ _ _ _ _ _ _ Hbr) as (Hgr & Hfr & Hqu).
  destruct (resync n e t1 e1 (in_order aff) defs) as (e' & t' & ws & Hrun' & Hsh & Hh & _ & Hco');
    [lia|by destruct Hbr|done|done| | |done|done|apply in_order_nodup| | | |].
  - intros b Hr. specialize (Hs b Hr). by rewrite H24.
  - intros b Hr low Hlow. unfold raw. rewrite H24, H8. by apply Hb.
  - intros b Hin%in_order_elem. destruct (br_range _ _ _ _ _ _ _ Hbr b Hin); [set_solver|done].
  - intros b Hni. apply (br_same _ _ _ _ _ _ _ Hbr). by rewrite <- in_order_elem.
  - etransitivity; [by eapply batch_demand_bound|]. unfold pool in *. by rewrite Hfr, Hqu.
  - exists e', (defs ++ ws), t'. split; [|split; [|split; [|done]]].
    + unfold route_add_bulk, mbind, M_bind, get. rewrite Hdem.
      destruct (Nat.ltb_spec (length (free e) + length (quarantine e)) (size need')) as [Hlt|_].
      { unfold pool in Hsz. rewrite length_app in Hsz. lia. }
      rewrite Hrun. done.
    + rewrite Hsh. by destruct Hbr.
    + rewrite dir24_apply_app, Ha1. cbn. by eapply hitless_apply.
Qed.

Lemma route_add_bulk_err e rs :
  Exists (λ r, 32 < r.1.2) rs ∨
  (Forall wf_route rs ∧ ∃ need, batch_need e rs need ∧ (length (pool e) < size need)%nat) →
  ∃ er, route_add_bulk rs e = (e, Err er).
Proof.
  unfold route_add_bulk, mbind, M_bind, get. intros [Hbad|(Hwf & need & Hneed & Hsz)].
  - destruct (batch_demand_bad (groups e) rs ∅ Hbad) as (len & -> & _). by eexists.
  - destruct (batch_need_ex e rs Hwf) as (need' & -> & Hneed').
    rewrite (batch_need_unique _ _ _ _ Hneed Hneed') in *.
    unfold pool in Hsz. rewrite length_app in Hsz. rewrite (proj2 (Nat.ltb_lt _ _)) by lia. by eexists.
Qed.

(** ** Transactions

    [route4_add], [route4_del] and [route4_add_bulk] of [dataplane.rs] in
    dir24 mode: run the engine under its lock, then apply the plan to the
    arrays before the next operation runs. *)
Inductive Op : Type :=
| OpAdd (addr len : Z) (entry : FibEntry)
| OpDel (addr len : Z)
| OpBulk (routes : list (Z * Z * FibEntry)).

(** The operands at their Rust types: [u32] addresses and [u8] lengths. *)
Definition wf_op (o : Op) : Prop :=
  match o with
  | OpAdd addr len _ | OpDel addr len => u32 addr ∧ u8 len
  | OpBulk rs => Forall (λ r, u32 r.1.1 ∧ u8 r.1.2) rs
  end.

Definition run_op (o : Op) : M Dir24Engine Dir24Err (list SlotWrite) :=
  match o with
  | OpAdd addr len entry => route_add addr len entry
  | OpDel addr len => route_del addr len
  | OpBulk rs => route_add_bulk rs
  end.

(** [true] for an accepted operation; [None] when an array write fails. *)
Definition transact (o : Op) (s : Dir24Engine * Tables) : option (bool * (Dir24Engine * Tables)) :=
  let '(e, t) := s in
  match run_op o e with
  | (e', Ok plan) => t' ← dir24_apply plan t; Some (true, (e', t'))
  | (e', Err _) => Some (false, (e', t))
  end.

#[global] Arguments transact : simpl never.

Fixpoint transact_all (os : list Op) (s : Dir24Engine * Tables)
    : option (list bool * (Dir24Engine * Tables)) :=
  match os with
  | [] => Some ([], s)
  | o :: os =>
      '(b, s) ← transact o s;
      '(bs, s) ← transact_all os s;
      Some (b :: bs, s)
  end.

Definition spec_op (tbl : RouteTable) (o : Op) : RouteTable :=
  match o with
  | OpAdd addr len entry => spec_insert tbl (addr, len, entry)
  | OpDel addr len => spec_delete tbl addr len
  | OpBulk rs => foldl spec_insert tbl rs
  end.

(** The abstract table after the accepted operations of a history. *)
Fixpoint spec_history (tbl : RouteTable) (os : list Op) (bs : list bool) : RouteTable :=
  match os, bs with
  | o :: os, b :: bs => spec_history (if b then spec_op tbl o else tbl) os bs
  | _, _ => tbl
  end.

(** Which operations the engine refuses. *)
Definition refused (e : Dir24Engine) (o : Op) : Prop :=
  match o with
  | OpAdd addr len _ => 32 < len ∨ add_refused e addr len
  | OpDel _ len => 32 < len
  | OpBulk rs => Exists (λ r, 32 < r.1.2) rs ∨
      ∃ need, batch_need e rs need ∧ (length (pool e) < size need)%nat
  end.

Lemma transitions_transact n e t o sh' : transitions n t sh' (run_op o e) →
  ∃ e' t', transact o (e, t) = Some (true, (e', t')) ∧ shadow e' = sh' ∧ coherent n e' t'.
Proof.
  intros (e' & plan & t' & Hrun & Hsh & Hap & Hco & _). exists e', t'.
  unfold transact. rewrite Hrun, Hap. done.
Qed.

Lemma refused_transact e t o er : run_op o e = (e, Err er) → transact o (e, t) = Some (false, (e, t)).
Proof. intros H. unfold transact. by rewrite H. Qed.

Lemma bulk_len_cases (rs : list (Z * Z * FibEntry)) : Forall (λ r, u32 r.1.1 ∧ u8 r.1.2) rs →
  Exists (λ r, 32 < r.1.2) rs ∨ Forall wf_route rs.
Proof.
  induction 1 as [|r rs [Ha Hl] _ IH]; [by right|].
  destruct (decide (32 < r.1.2)); [by left; left|].
  destruct IH; [by left; right|right]. constructor; [|done]. split; [done|].
  unfold in_range in Hl. lia.
Qed.

(** Every transaction keeps the pair coherent and moves the abstract table by
    the specification, or is refused and changes nothing. *)
Lemma transact_step n e t o : 0 ≤ n ≤ 2 ^ 24 → coherent n e t → wf_op o →
  (∃ e' t', transact o (e, t) = Some (true, (e', t')) ∧
     shadow e' = spec_op (shadow e) o ∧ coherent n e' t' ∧ ¬ refused e o) ∨
  (transact o (e, t) = Some (false, (e, t)) ∧ refused e o).
Proof.
  intros Hn Hco Hwf. destruct o as [addr len en|addr len|rs]; cbn in Hwf.
  - destruct Hwf as [Ha Hl]. assert (0 ≤ len) by (unfold in_range in Hl; lia).
    destruct (decide (add_refused e addr len)) as [Href|Hok].
    + right. destruct (route_add_err e addr len en) as [er Her]; [done|lia|by right|].
      split; [by apply (refused_transact _ _ _ er)|by right].
    + destruct (decide (32 < len)).
      * right. destruct (route_add_err e addr len en) as [er Her]; [done|lia|left; lia|].
        split; [by apply (refused_transact _ _ _ er)|by left].
      * left. destruct (transitions_transact n e t (OpAdd addr len en) _
          (route_add_ok n Hn e t Hco addr len en Ha ltac:(lia) Hok)) as (e' & t' & ?&?&?).
        exists e', t'. do 3 (split; [done|]). intros [?|?]; [lia|done].
  - destruct Hwf as [Ha Hl]. assert (0 ≤ len) by (unfold in_range in Hl; lia).
    destruct (decide (32 < len)).
    + right. split; [|done]. apply (refused_transact _ _ _ (BadPrefixLength len)). cbn [run_op].
      unfold route_del. by rewrite (proj2 (Z.ltb_lt _ _)).
    + left. destruct (transitions_transact n e t (OpDel addr len) _
        (route_del_ok n Hn e t Hco addr len Ha ltac:(lia))) as (e' & t' & ?&?&?).
      exists e', t'. by do 3 (split; [done|]).
  - destruct (bulk_len_cases rs Hwf) as [Hbad|Hok].
    { right. destruct (route_add_bulk_err e rs) as [er Her]; [by left|].
      split; [by apply (refused_transact _ _ _ er)|by left]. }
    destruct (batch_need_ex e rs Hok) as (need & _ & Hneed).
    destruct (decide (length (pool e) < size need)%nat).
    + right. destruct (route_add_bulk_err e rs) as [er Her]; [right; split; [done|by exists need]|].
      split; [by apply (refused_transact _ _ _ er)|right; by exists need].
    + left. destruct (route_add_bulk_ok n e t rs need) as (e' & plan & t' & Hrun & Hsh & Hap & Hco');
        [done..|lia|]. exists e', t'. unfold transact; cbn [run_op]. rewrite Hrun, Hap.
      do 3 (split; [done|]). intros [Hbad|(need' & Hneed' & ?)].
      * apply Exists_exists in Hbad as (r & Hr & Hlen).
        rewrite Forall_forall in Hok. apply Hok in Hr as [_ ?]. lia.
      * rewrite (batch_need_unique _ _ _ _ Hneed Hneed') in *. lia.
Qed.

Lemma coherent_new n : 0 ≤ n → coherent n (new_engine n) (new_tables n).
Proof.
  intros Hn. split.
  - split; [apply map_Forall_empty|done|]. cbn. rewrite app_nil_r. symmetry. apply Permutation_rev.
  - intros b. split; [by intros []|]. intros Hl. vm_compute in Hl. lia.
  - done.
  - intros b _. by vm_compute.
  - intros b _ low _. unfold slot_word, cover.
    replace (first_some _ _) with (@None FibEntry); [|done].
    unfold raw, cell. cbn. by rewrite lookup_empty.
  - done.
Qed.

Lemma transact_history n os e t : 0 ≤ n ≤ 2 ^ 24 → coherent n e t → Forall wf_op os →
  ∃ bs e' t', transact_all os (e, t) = Some (bs, (e', t')) ∧ coherent n e' t' ∧
    shadow e' = spec_history (shadow e) os bs.
Proof.
  intros Hn Hco Hwf. revert e t Hco. induction Hwf as [|o os Ho _ IH]; intros e t Hco.
  { exists [], e, t. done. }
  destruct (transact_step n e t o Hn Hco Ho) as [(e1 & t1 & Hstep & Hsh & Hco1 & _)|[Hstep _]].
  - destruct (IH e1 t1 Hco1) as (bs & e' & t' & Hall & Hco' & Hsh').
    exists (true :: bs), e', t'. cbn. rewrite Hstep. cbn. rewrite Hall. cbn.
    split; [done|]. split; [done|]. by rewrite Hsh', Hsh.
  - destruct (IH e t Hco) as (bs & e' & t' & Hall & Hco' & Hsh').
    exists (false :: bs), e', t'. cbn. rewrite Hstep. cbn. rewrite Hall. done.
Qed.
