(* ===== verification/Dir24Props.v ===== *)
(** * DIR-24-8: the properties *)

From S2P Require Import Prelude.
From S2P Require Import Common.
From S2P Require Import Dir24.
From S2P Require Import Dir24Lpm.
From S2P Require Import Dir24Inv.
From S2P Require Import Dir24Tables.
From S2P Require Import Dir24Correct.
From S2P Require Import Dir24Refine.

(** A concrete history: a /8, a /25 inside it, a host route in the same
    block, a refused length, a withdrawal and a batch. *)
Definition sample_ops : list Op :=
  [OpAdd 0x0a000000 8 (mkFibEntry 1 0); OpAdd 0x0a000180 25 (mkFibEntry 2 FIB_F_ECMP);
   OpAdd 0x0a000181 32 (mkFibEntry 3 0); OpAdd 0x0a000000 33 (mkFibEntry 4 0);
   OpDel 0x0a000180 25; OpBulk [(0xc0a80000, 16, mkFibEntry 5 0); (0xc0a80101, 32, mkFibEntry 6 0)]].

Lemma sample_ops_wf : Forall wf_op sample_ops.
Proof. repeat constructor; cbn; unfold in_range; lia. Qed.

(** C1. Refinement: any sequence of route additions, deletions and batches,
    run from the empty engine against zeroed arrays with the plans applied in
    order, never fails an array write, and afterwards the data plane's lookup
    of every address is the longest matching route of the abstract table
    that holds the accepted operations (its word fields truncated to the 26
    and 4 bits the packed word has). *)
Theorem dir24_refines_lpm (n : Z) (os : list Op) :
  0 ≤ n ≤ 2 ^ 24 → Forall wf_op os →
  ∃ bs e t, transact_all os (new_engine n, new_tables n) = Some (bs, (e, t)) ∧
    ∀ x, u32 x → ∃ o, longest_match (spec_history ∅ os bs) x o ∧
      (dir24_lookup t x).1 = dp_view o.
Proof.
  intros Hn Hwf.
  destruct (transact_history n os _ _ Hn (coherent_new n ltac:(lia)) Hwf)
    as (bs & e & t & Hrun & Hco & Hsh).
  exists bs, e, t. split; [done|]. intros x Hx. exists (lookup_lpm e x). split.
  - change ∅ with (shadow (new_engine n)). rewrite <- Hsh.
    apply (lookup_lpm_longest n); [by destruct Hco|done].
  - by apply (lookup_coherent n); [lia|..].
Qed.

Lemma dir24_refines_lpm_witness :
  0 ≤ 4096 ≤ 2 ^ 24 ∧ ∃ bs e t,
    transact_all sample_ops (new_engine 4096, new_tables 4096) = Some (bs, (e, t)) ∧
    ∀ x, u32 x → ∃ o, longest_match (spec_history ∅ sample_ops bs) x o ∧
      (dir24_lookup t x).1 = dp_view o.
Proof.
  assert (0 ≤ 4096 ≤ 2 ^ 24) as Hn by lia.
  split; [exact Hn|]. exact (dir24_refines_lpm 4096 sample_ops Hn sample_ops_wf).
Defined.

(** The pair a witness starts from: the empty engine and zeroed arrays. *)
Lemma coherent_4096 : coherent 4096 (new_engine 4096) (new_tables 4096).
Proof. apply coherent_new. lia. Qed.

(** C2. Hitless updates: while the plan of an accepted [route_add] or
    [route_del] is being written, after every single write, every reader
    gets either the answer of the old table or the answer of the new one -
    never a third route, never a miss both tables would have resolved. *)
Theorem dir24_hitless (n : Z) (e : Dir24Engine) (t : Tables) (o : Op) (e' : Dir24Engine) (plan : list SlotWrite) :
  0 ≤ n ≤ 2 ^ 24 → coherent n e t → wf_op o → (∀ rs, o ≠ OpBulk rs) →
  run_op o e = (e', Ok plan) →
  ∀ k, ∃ tk, dir24_apply (take k plan) t = Some tk ∧
    ∀ x, u32 x → (dir24_lookup tk x).1 = dp_view (lookup_lpm e x) ∨
                 (dir24_lookup tk x).1 = dp_view (lookup_lpm e' x).
Proof.
  intros Hn Hco Hwf Hnb Hrun.
  assert (∃ sh', transitions n t sh' (run_op o e)) as (sh' & e1 & p1 & t1 & Hrun1 & _ & _ & Hco1 & Hk).
  { destruct o as [addr len en|addr len|rs]; [| |by destruct (Hnb rs)]; destruct Hwf as [Ha Hl];
      assert (0 ≤ len) by (unfold in_range in Hl; lia); cbn [run_op] in *.
    - destruct (decide (32 < len ∨ add_refused e addr len)) as [Hr|Hr].
      { destruct (route_add_err e addr len en) as [er Her]; [done|done| |congruence].
        destruct Hr; [left; lia|by right]. }
      eexists. apply (route_add_ok n); [done..|lia|tauto].
    - destruct (decide (len ≤ 32)) as [Hle|Hgt].
      + eexists. by apply (route_del_ok n).
      + unfold route_del in Hrun. by rewrite (proj2 (Z.ltb_lt _ _)) in Hrun by lia. }
  rewrite Hrun in Hrun1. injection Hrun1 as <- <-. intros k.
  destruct (Hk k) as (tk & Htk & Hx). exists tk. split; [done|]. intros x Hu.
  rewrite <- (lookup_coherent n e t), <- (lookup_coherent n e' t1) by (done || lia). auto.
Qed.

Lemma dir24_hitless_witness :
  let e := new_engine 4096 in let t := new_tables 4096 in
  let o := OpAdd 0x0a000180 25 (mkFibEntry 2 0) in
  let e' := (run_op o e).1 in
  ∃ plan, run_op o e = (e', Ok plan) ∧ length plan = 257%nat ∧
  ∀ k, ∃ tk, dir24_apply (take k plan) t = Some tk ∧
    ∀ x, u32 x → (dir24_lookup tk x).1 = dp_view (lookup_lpm e x) ∨
                 (dir24_lookup tk x).1 = dp_view (lookup_lpm e' x).
Proof.
  set (e := new_engine 4096). set (t := new_tables 4096).
  set (o := OpAdd 0x0a000180 25 (mkFibEntry 2 0)). cbn zeta.
  set (r := run_op o e).
  assert (∃ plan, r.2 = Ok plan ∧ length plan = 257%nat) as (plan & Hr & Hl).
  { vm_compute. eexists. split; reflexivity. }
  exists plan. pose proof (ok_pair r plan Hr) as Er.
  split; [exact Er|]. split; [exact Hl|].
  apply (dir24_hitless 4096 e t o r.1 plan); [lia|exact coherent_4096| |done|exact Er].
  cbn. unfold in_range. lia.
Defined.

(** C3. Errors: a transaction is refused exactly when a prefix length exceeds
    32 or the TBL8 pool cannot back the new groups, in which case the engine
    and the arrays are exactly as before; otherwise it is accepted and the
    pair stays coherent. No array write ever fails. *)
Theorem dir24_refusals (n : Z) (e : Dir24Engine) (t : Tables) (o : Op) :
  0 ≤ n ≤ 2 ^ 24 → coherent n e t → wf_op o →
  ∃ b e' t', transact o (e, t) = Some (b, (e', t')) ∧
    (b = false ↔ refused e o) ∧ (b = false → e' = e ∧ t' = t) ∧ coherent n e' t' ∧
    shadow e' = (if b then spec_op (shadow e) o else shadow e).
Proof.
  intros Hn Hco Hwf.
  destruct (transact_step n e t o Hn Hco Hwf) as [(e' & t' & Hs & Hsh & Hco' & Hr)|[Hs Hr]].
  - exists true, e', t'. by do 3 (split; [done|]).
  - exists false, e, t. by do 3 (split; [done|]).
Qed.

Lemma dir24_refusals_witness :
  let e := new_engine 0 in let t := new_tables 0 in
  let o := OpAdd 0x0a000001 32 (mkFibEntry 7 0) in
  refused e o ∧ ∃ b e' t', transact o (e, t) = Some (b, (e', t')) ∧
    (b = false ↔ refused e o) ∧ (b = false → e' = e ∧ t' = t) ∧ coherent 0 e' t' ∧
    shadow e' = (if b then spec_op (shadow e) o else shadow e).
Proof.
  cbn zeta. split.
  - right. by vm_compute.
  - apply (dir24_refusals 0); [lia|apply coherent_new; lia|]. cbn. unfold in_range. lia.
Defined.

(** [route_add] over a list, the plans concatenated: what [route_add_bulk]
    replaces. *)
Definition route_add_serial (rs : list (Z * Z * FibEntry)) : M Dir24Engine Dir24Err (list SlotWrite) :=
  mfold (λ plan '(addr, len, entry), p ← route_add addr len entry; mret (plan ++ p)) rs [].

Lemma serial_run n t rs e tc acc e2 p2 : 0 ≤ n ≤ 2 ^ 24 → Forall wf_route rs →
  coherent n e tc → dir24_apply acc t = Some tc →
  mfold (λ plan '(addr, len, entry), p ← route_add addr len entry; mret (plan ++ p)) rs acc e
    = (e2, Ok p2) →
  shadow e2 = foldl spec_insert (shadow e) rs ∧
  ∃ t2, dir24_apply p2 t = Some t2 ∧ coherent n e2 t2.
Proof.
  intros Hn Hwf. revert e tc acc. induction Hwf as [|[[addr len] en] rs [Ha Hl] _ IH];
    intros e tc acc Hco Hacc Hrun.
  { injection Hrun as <- <-. split; [done|]. by exists tc. }
  rewrite mfold_cons in Hrun. unfold mbind, M_bind in Hrun. cbn in Ha, Hl.
  destruct (route_add addr len en e) as [e1 [p|er]] eqn:E; [|done]. cbn in Hrun.
  destruct (transact_step n e tc (OpAdd addr len en) Hn Hco) as [(e1' & t1 & Hs & Hsh & Hco1 & _)|[Hs _]].
  - cbn. unfold in_range. split; [done|lia].
  - unfold transact in Hs. cbn [run_op] in Hs. rewrite E in Hs.
    apply bind_Some in Hs as (t1' & Hap & [= <- <-]).
    destruct (IH e1 t1' (acc ++ p)) as [Hsh2 Hex]; [done| |done|].
    + by rewrite dir24_apply_app, Hacc.
    + split; [|done]. by rewrite Hsh2, Hsh.
  - unfold transact in Hs. cbn [run_op] in Hs. rewrite E in Hs.
    by apply bind_Some in Hs as (? & _ & [=]).
Qed.

(** C4. A batch is a faster serial load: when the batch and the one-by-one
    additions are both accepted they leave the same route table, and the data
    plane programmed by either plan answers every lookup the same. *)
Theorem dir24_bulk_serial (n : Z) (e : Dir24Engine) (t : Tables) (rs : list (Z * Z * FibEntry))
    (e1 e2 : Dir24Engine) (p1 p2 : list SlotWrite) :
  0 ≤ n ≤ 2 ^ 24 → coherent n e t → Forall wf_route rs →
  route_add_bulk rs e = (e1, Ok p1) → route_add_serial rs e = (e2, Ok p2) →
  shadow e1 = shadow e2 ∧
  ∃ t1 t2, dir24_apply p1 t = Some t1 ∧ dir24_apply p2 t = Some t2 ∧
    ∀ x, u32 x → (dir24_lookup t1 x).1 = (dir24_lookup t2 x).1.
Proof.
  intros Hn Hco Hwf Hb Hs.
  destruct (serial_run n t rs e t [] e2 p2 Hn Hwf Hco eq_refl Hs) as (Hsh2 & t2 & Hap2 & Hco2).
  destruct (transact_step n e t (OpBulk rs) Hn Hco) as [(e' & t1 & Ht & Hsh & Hco1 & _)|[Ht _]].
  - cbn. eapply Forall_impl; [done|]. intros r [? ?]. unfold in_range. split; [done|lia].
  - unfold transact in Ht. cbn [run_op] in Ht. rewrite Hb in Ht.
    apply bind_Some in Ht as (t1' & Hap1 & [= <- <-]).
    assert (shadow e1 = shadow e2) as Hsh12 by (by rewrite Hsh, Hsh2). split; [done|].
    exists t1', t2. do 2 (split; [done|]). intros x Hx.
    rewrite (lookup_coherent n e1), (lookup_coherent n e2) by (done || lia).
    unfold lookup_lpm. by rewrite Hsh12.
  - unfold transact in Ht. cbn [run_op] in Ht. rewrite Hb in Ht. by apply bind_Some in Ht as (? & _ & [=]).
Qed.

Definition sample_routes : list (Z * Z * FibEntry) :=
  [(0, 0, mkFibEntry 9 0); (0x0a000200, 24, mkFibEntry 1 0); (0x0a000201, 32, mkFibEntry 2 0)].

Lemma dir24_bulk_serial_witness :
  let e := new_engine 4096 in
  let r1 := route_add_bulk sample_routes e in let r2 := route_add_serial sample_routes e in
  ∃ p1 p2, r1 = (r1.1, Ok p1) ∧ r2 = (r2.1, Ok p2) ∧ p1 ≠ p2 ∧ shadow r1.1 = shadow r2.1 ∧
  ∃ t1 t2, dir24_apply p1 (new_tables 4096) = Some t1 ∧ dir24_apply p2 (new_tables 4096) = Some t2 ∧
    ∀ x, u32 x → (dir24_lookup t1 x).1 = (dir24_lookup t2 x).1.
Proof.
  cbn zeta. set (e := new_engine 4096).
  set (r1 := route_add_bulk sample_routes e). set (r2 := route_add_serial sample_routes e).
  assert (∃ p1, r1.2 = Ok p1 ∧ length p1 = 258%nat) as (p1 & H1 & L1) by (vm_compute; eexists; split; reflexivity).
  assert (∃ p2, r2.2 = Ok p2 ∧ length p2 = 259%nat) as (p2 & H2 & L2) by (vm_compute; eexists; split; reflexivity).
  pose proof (ok_pair r1 p1 H1) as E1.
  pose proof (ok_pair r2 p2 H2) as E2.
  exists p1, p2. split; [exact E1|]. split; [exact E2|]. split; [intros Epp; rewrite Epp, L2 in L1; discriminate L1|].
  apply (dir24_bulk_serial 4096 e (new_tables 4096) sample_routes r1.1 r2.1 p1 p2);
    [lia|exact coherent_4096| |exact E1|exact E2].
  repeat constructor; cbn; unfold in_range; lia.
Defined.

(** C5. Group conservation: whatever the history, every TBL8 group is in
    exactly one of three places - backing one block, free, or quarantined -
    so none leaks and none is shared; a block holds a group exactly when a
    route longer than /24 lies in it; and the long-route counters are exact. *)
Theorem dir24_pool_partition (n : Z) (os : list Op) :
  0 ≤ n ≤ 2 ^ 24 → Forall wf_op os →
  ∃ bs e t, transact_all os (new_engine n, new_tables n) = Some (bs, (e, t)) ∧
    (map_to_list (groups e)).*2 ++ free e ++ quarantine e ≡ₚ seqZ 0 n ∧
    (groups_in_use e + tbl8_free e = Z.to_nat n)%nat ∧
    (∀ blk, is_Some (groups e !! blk) ↔
       ∃ net len en, shadow e !! (net, len) = Some en ∧ 24 < len ∧ net ≫ 8 = blk) ∧
    (∀ blk, default 0 (long_count e !! blk) = Z.of_nat (long_routes (shadow e) blk)).
Proof.
  intros Hn Hwf.
  destruct (transact_history n os _ _ Hn (coherent_new n ltac:(lia)) Hwf)
    as (bs & e & t & Hrun & Hco & _). destruct Hco as [[Hk Hc Hp] Hg _ _ _ _].
  exists bs, e, t. split; [done|]. split; [done|]. split; [|split; [|done]].
  - apply Permutation_length in Hp. rewrite !length_app, length_fmap, length_seqZ in Hp.
    unfold groups_in_use, tbl8_free. rewrite <- length_map_to_list. lia.
  - intros blk. specialize (Hg blk). unfold groups_ok in Hg. rewrite Hg, long_routes_pos. split.
    + intros ([net len] & en & ? & ?). eauto.
    + intros (net & len & en & ? & ? & ?). by exists (net, len), en.
Qed.

Lemma dir24_pool_partition_witness :
  0 ≤ 4096 ≤ 2 ^ 24 ∧ ∃ bs e t,
    transact_all sample_ops (new_engine 4096, new_tables 4096) = Some (bs, (e, t)) ∧
    (map_to_list (groups e)).*2 ++ free e ++ quarantine e ≡ₚ seqZ 0 4096 ∧
    (groups_in_use e + tbl8_free e = Z.to_nat 4096)%nat ∧
    (∀ blk, is_Some (groups e !! blk) ↔
       ∃ net len en, shadow e !! (net, len) = Some en ∧ 24 < len ∧ net ≫ 8 = blk) ∧
    (∀ blk, default 0 (long_count e !! blk) = Z.of_nat (long_routes (shadow e) blk)).
Proof.
  assert (0 ≤ 4096 ≤ 2 ^ 24) as Hn by lia.
  split; [exact Hn|]. exact (dir24_pool_partition 4096 sample_ops Hn sample_ops_wf).
Defined.
