(* ===== verification/Bpf.v ===== *)
(** * Packets and kernel helpers

    What the eBPF programs of [crates/cradle-ebpf] run on.  A frame is the
    list of its bytes; loads and stores are bounds-checked.  The BPF helpers
    are kernel code the repository does not contain: they are the fields of
    the class [Kernel], and what the programs rely on of them (their
    documented behaviour) is the class [KernelLaws].  [World] is the state a
    program reads and writes, and programs are computations of the
    state-and-error monad over it: the sources' [Result<_, ()>] keeps the
    writes made before an error, and so does [M]. *)

From S2P Require Import Prelude.
From S2P Require Import Contract.

Abbreviation bytes := (list Z).

(** ** Reading and writing bytes *)

Definition rd (p : bytes) (off n : Z) : option bytes :=
  if bool_decide (0 ≤ off ∧ 0 ≤ n ∧ off + n ≤ Z.of_nat (length p))
  then Some (take (Z.to_nat n) (drop (Z.to_nat off) p)) else None.

Definition wr (p : bytes) (off : Z) (b : bytes) : option bytes :=
  if bool_decide (0 ≤ off ∧ off + Z.of_nat (length b) ≤ Z.of_nat (length p))
  then Some (take (Z.to_nat off) p ++ b ++ drop (Z.to_nat off + length b) p) else None.

(** Native (little-endian) and network order. *)
Definition of_le (b : bytes) : Z := foldr (λ x acc, x + 256 * acc) 0 b.
Definition of_be (b : bytes) : Z := of_le (rev b).

Fixpoint to_le (n : nat) (z : Z) : bytes :=
  match n with
  | O => []
  | S n => (z mod 256) :: to_le n (z / 256)
  end.
Definition to_be (n : nat) (z : Z) : bytes := rev (to_le n z).

Definition is_byte (z : Z) : Prop := 0 ≤ z < 256.

(** ** Ethernet, IPv4 and IPv6 layout *)

Definition ETH_HLEN : Z := 14.
Definition MAX_L2_MEMBERS : Z := 64.
Definition ETH_P_IP : Z := 0x0800.
Definition ETH_P_MPLS_UC : Z := 0x8847.
Definition ETH_P_8021Q : Z := 0x8100.
Definition ETH_P_IPV6 : Z := 0x86dd.
Definition ETH_TYPE_OFF : Z := 12.
Definition ETH_DST_OFF : Z := 0.
Definition ETH_SRC_OFF : Z := 6.
Definition IP_VER_IHL_OFF : Z := ETH_HLEN.
Definition IP_TTL_OFF : Z := ETH_HLEN + 8.
Definition IP_PROTO_OFF : Z := ETH_HLEN + 9.
Definition IP_CSUM_OFF : Z := ETH_HLEN + 10.
Definition IP_SRC_OFF : Z := ETH_HLEN + 12.
Definition IP_DST_OFF : Z := ETH_HLEN + 16.
Definition L4_OFF : Z := ETH_HLEN + 20.
Definition GTP_PORT : Z := 2152.
Definition GTP_ENCAP_HDR_LEN : Z := 36.
Definition GTP6_ENCAP_HDR_LEN : Z := 56.
Definition VXLAN_PORT : Z := 4789.
Definition BFD_ECHO_PORT : Z := 3785.
Definition BFD_CTRL_PORT : Z := 3784.
Definition VXLAN_ENCAP_HDR_LEN : Z := 50.
Definition VXLAN6_ENCAP_HDR_LEN : Z := 70.
Definition IP6_HDR_LEN : Z := 40.
Definition VXLAN6_L4_OFF : Z := ETH_HLEN + IP6_HDR_LEN.
Definition VXLAN6_HDR_OFF : Z := VXLAN6_L4_OFF + 8.
Definition VXLAN_HDR_OFF : Z := L4_OFF + 8.
Definition VXLAN_L3_INNER_OFF : Z := VXLAN_HDR_OFF + 8.
Definition VXLAN_L3_GROW : Z := 20 + 8 + 8 + 14.
Definition BPF_F_ADJ_ROOM_ENCAP_L3_IPV4 : Z := 2 ^ 1.
Definition BPF_F_ADJ_ROOM_ENCAP_L4_UDP : Z := 2 ^ 4.
Definition BPF_F_ADJ_ROOM_NO_CSUM_RESET : Z := 2 ^ 5.
Definition BPF_F_ADJ_ROOM_ENCAP_L2_ETH : Z := 2 ^ 6.
Definition bpf_f_adj_room_encap_l2 (len : Z) : Z := wrap 64 (len ≪ 56).
Definition IPPROTO_TCP : Z := 6.
Definition IPPROTO_UDP : Z := 17.
Definition AF_INET : Z := 2.
Definition AF_INET6 : Z := 10.
Definition IP6_NEXTHDR_OFF : Z := ETH_HLEN + 6.
Definition IP6_HOP_OFF : Z := ETH_HLEN + 7.
Definition IP6_SRC_OFF : Z := ETH_HLEN + 8.
Definition IP6_DST_OFF : Z := ETH_HLEN + 24.
Definition IP6_L4_OFF : Z := ETH_HLEN + 40.
Definition BPF_F_PSEUDO_HDR : Z := 16.
Definition BPF_F_MARK_MANGLED_0 : Z := 32.
Definition TCP_LISTEN : Z := 10.

(** Verdicts ([uapi/linux/pkt_cls.h], [uapi/linux/bpf.h]). *)
Definition TC_ACT_OK : Z := 0.
Definition TC_ACT_SHOT : Z := 2.
Definition TC_ACT_PIPE : Z := 3.
Definition XDP_DROP : Z := 1.
Definition XDP_PASS : Z := 2.
Definition XDP_TX : Z := 3.
Definition BPF_ADJ_ROOM_NET : Z := 0.
Definition BPF_ADJ_ROOM_MAC : Z := 1.

(** ** The kernel's helpers *)

Class Kernel := {
  (** [bpf_skb_load_bytes] (as [ctx.load] uses it) and [bpf_skb_store_bytes]. *)
  skb_load_bytes : bytes → Z → Z → option bytes;
  skb_store_bytes : bytes → Z → bytes → option bytes;
  (** [bpf_l3_csum_replace(off, from, to, size)], [bpf_l4_csum_replace(off, from, to, flags)]. *)
  l3_csum_replace : bytes → Z → Z → Z → Z → option bytes;
  l4_csum_replace : bytes → Z → Z → Z → Z → option bytes;
  (** [bpf_skb_adjust_room(len_diff, mode, flags)]. *)
  skb_adjust_room : bytes → Z → Z → Z → option bytes;
  (** [bpf_xdp_adjust_head(delta)]; [bpf_xdp_adjust_meta] succeeds or not. *)
  xdp_adjust_head : bytes → Z → option bytes;
  xdp_adjust_meta : bytes → Z → bool;
  (** The verdict [bpf_redirect]/[bpf_redirect_neigh] return for a port. *)
  redirect_ret : Z → Z;
  xdp_redirect_ret : Z → Z;
  (** [bpf_ktime_get_ns], [bpf_get_prandom_u32], a [FLOWS] reservation: the
      n-th call of an invocation. *)
  ktime : nat → Z;
  prandom : nat → Z;
  ring_reserve : nat → bool;
  (** [bpf_timer_init] returns 0. *)
  timer_init : nat → bool;
  (** [bpf_skc_lookup_tcp]: [(socket, state)]; [bpf_sk_assign] returns 0. *)
  skc_lookup_tcp : Z → Z → Z → Z → option (Z * Z);
  sk_assign : Z → Z;
  (** Updates of [BPF_MAP_TYPE_HASH] and [_LRU_HASH] maps of a capacity. *)
  hash_insert {K} `{Countable K} {V} : Z → K → V → gmap K V → gmap K V;
  lru_insert {K} `{Countable K} {V} : Z → K → V → gmap K V → gmap K V;
  (** A [BPF_MAP_TYPE_LPM_TRIE] lookup of a full-length key; the trie is the
      set of its [(prefix length, data)] entries. *)
  lpm_get {V} : gmap (Z * bytes) V → bytes → option V;
}.

(** The first [n] bits of two equally long byte strings agree. *)
Fixpoint bits_agree (n : Z) (a b : bytes) : bool :=
  if n <=? 0 then true else
  match a, b with
  | x :: a, y :: b =>
      if n <? 8 then x ≫ (8 - n) =? y ≫ (8 - n)
      else (x =? y) && bits_agree (n - 8) a b
  | _, _ => false
  end.

(** The 16-bit words of a checksum operand, added up. *)
Definition halves (size w : Z) : Z :=
  if size =? 4 then (w .& 0xffff) + ((w ≫ 16) .& 0xffff) else w .& 0xffff.

(** [HC' = HC + from - to] in one's-complement arithmetic: modulo [65535]. *)
Definition csum_upd (c from to size c' : Z) : Prop :=
  (c' - (c + halves size from - halves size to)) mod 65535 = 0.

Definition csum_replaced (p : bytes) (off from to size : Z) (p' : bytes) : Prop :=
  ∃ c c', rd p off 2 = Some c ∧ wr p off c' = Some p' ∧ length c' = 2%nat ∧
    Forall is_byte c' ∧ csum_upd (of_le c) from to size (of_le c').

Class KernelLaws `{Kernel} := {
  load_spec p off n : 0 < n → skb_load_bytes p off n = rd p off n;
  store_spec p off b : b ≠ [] → skb_store_bytes p off b = wr p off b;
  (** A checksum update rewrites the checksum's two bytes only, by RFC 1624's
      equation (for a frame that carries its complete checksum). With
      [BPF_F_MARK_MANGLED_0] a null checksum is left untouched and an update
      never gives one. *)
  l3_csum_spec p off from to size p' : l3_csum_replace p off from to size = Some p' →
    csum_replaced p off from to size p';
  l4_csum_spec p off from to fl p' : l4_csum_replace p off from to fl = Some p' →
    if has fl BPF_F_MARK_MANGLED_0 then
      (rd p off 2 = Some [0; 0] ∧ p' = p) ∨
      (csum_replaced p off from to (fl .& 0xf) p' ∧
       rd p off 2 ≠ Some [0; 0] ∧ rd p' off 2 ≠ Some [0; 0])
    else csum_replaced p off from to (fl .& 0xf) p';
  (** Room at the MAC layer opens after the Ethernet header, room at the
      network layer after the (40-byte) IPv6 header. *)
  adjust_room_mac p d fl p' : 0 < d → skb_adjust_room p d BPF_ADJ_ROOM_MAC fl = Some p' →
    ∃ room, Z.of_nat (length room) = d ∧ p' = take 14 p ++ room ++ drop 14 p;
  adjust_room_net p d fl p' : 0 < d → rd p ETH_TYPE_OFF 2 = Some (to_be 2 ETH_P_IPV6) →
    skb_adjust_room p d BPF_ADJ_ROOM_NET fl = Some p' →
    ∃ room, Z.of_nat (length room) = d ∧ p' = take 54 p ++ room ++ drop 54 p;
  (** [data] moves forward over bytes or back into headroom. *)
  adjust_head_shrink p d p' : 0 ≤ d → xdp_adjust_head p d = Some p' → p' = drop (Z.to_nat d) p;
  adjust_head_grow p d p' : d < 0 → xdp_adjust_head p d = Some p' →
    ∃ room, Z.of_nat (length room) = - d ∧ p' = room ++ p;
  prandom_u32 n : u32 (prandom n);
  (** A successful hash update sets the key; a failed one (full map) changes
      nothing. An LRU update always sets the key and may evict others. *)
  hash_insert_spec {K} `{Countable K} {V} cap (k : K) (v : V) (m : gmap K V) :
    hash_insert cap k v m = <[k := v]> m ∨
    (m !! k = None ∧ cap ≤ Z.of_nat (size m) ∧ hash_insert cap k v m = m);
  lru_insert_spec {K} `{Countable K} {V} cap (k : K) (v : V) (m : gmap K V) :
    lru_insert cap k v m !! k = Some v ∧
    ∀ k', k' ≠ k → lru_insert cap k v m !! k' = None ∨ lru_insert cap k v m !! k' = m !! k';
  lpm_get_spec {V} (t : gmap (Z * bytes) V) key :
    match lpm_get t key with
    | Some v => ∃ n d, t !! (n, d) = Some v ∧ bits_agree n d key = true ∧
        ∀ n' d' v', t !! (n', d') = Some v' → bits_agree n' d' key = true → n' ≤ n
    | None => ∀ n' d' v', t !! (n', d') = Some v' → bits_agree n' d' key = false
    end;
  (** A header checksum inside the frame can be updated; [data] can move
      forward as long as an Ethernet header remains. *)
  l3_csum_some p off from to size c : rd p off 2 = Some c → Forall is_byte c →
    is_Some (l3_csum_replace p off from to size);
  adjust_head_some p d : 0 ≤ d → d + ETH_HLEN ≤ Z.of_nat (length p) → is_Some (xdp_adjust_head p d);
}.

(** ** The state of a program run *)

(** What leaves the program, in order. *)
Inductive Effect : Type :=
| Redirect (oif : Z)
| RedirectNeigh (oif family : Z) (nexthop : bytes)
| CloneRedirect (oif : Z) (frame : bytes)
| SkAssign (sk : Z).

(** A BFD session's detector: the embedded one-shot timer is the delay it was
    last started with, [None] before the kernel has initialised it. *)
Record DetectState := mkDetectState {
  ds_timer : option Z; ds_detect_ns : Z; ds_armed : Z; ds_down : Z }.

Record World := mkWorld {
  pkt : bytes;
  xmeta : option CradleXdpMeta;        (* the [data_meta..data] window *)
  mark : Z;
  peer_id : Z;               (* [POL6_SCRATCH.peer_id] *)
  stats : gmap Z Z;
  FDB : gmap FdbKey FdbEntry;
  CT : gmap CtKey CtEntry;
  CT6 : gmap CtKey6 CtEntry6;
  AFFINITY : gmap AffinityKey AffinityVal;
  PCT : gmap CtKey Z;
  PCT6 : gmap CtKey6 Z;
  ECHO_TIMERS : gmap Z DetectState;
  CONTROL_TIMERS : gmap Z DetectState;
  FLOWS : list FlowRecord;
  sent : list Effect;
  ticks : nat;                (* helper calls made so far *)
}.

Definition set_pkt x w := mkWorld x (xmeta w) (mark w) (peer_id w) (stats w) (FDB w) (CT w) (CT6 w) (AFFINITY w) (PCT w) (PCT6 w) (ECHO_TIMERS w) (CONTROL_TIMERS w) (FLOWS w) (sent w) (ticks w).
Definition set_xmeta x w := mkWorld (pkt w) x (mark w) (peer_id w) (stats w) (FDB w) (CT w) (CT6 w) (AFFINITY w) (PCT w) (PCT6 w) (ECHO_TIMERS w) (CONTROL_TIMERS w) (FLOWS w) (sent w) (ticks w).
Definition set_mark x w := mkWorld (pkt w) (xmeta w) x (peer_id w) (stats w) (FDB w) (CT w) (CT6 w) (AFFINITY w) (PCT w) (PCT6 w) (ECHO_TIMERS w) (CONTROL_TIMERS w) (FLOWS w) (sent w) (ticks w).
Definition set_peer_id x w := mkWorld (pkt w) (xmeta w) (mark w) x (stats w) (FDB w) (CT w) (CT6 w) (AFFINITY w) (PCT w) (PCT6 w) (ECHO_TIMERS w) (CONTROL_TIMERS w) (FLOWS w) (sent w) (ticks w).
Definition set_stats x w := mkWorld (pkt w) (xmeta w) (mark w) (peer_id w) x (FDB w) (CT w) (CT6 w) (AFFINITY w) (PCT w) (PCT6 w) (ECHO_TIMERS w) (CONTROL_TIMERS w) (FLOWS w) (sent w) (ticks w).
Definition set_FDB x w := mkWorld (pkt w) (xmeta w) (mark w) (peer_id w) (stats w) x (CT w) (CT6 w) (AFFINITY w) (PCT w) (PCT6 w) (ECHO_TIMERS w) (CONTROL_TIMERS w) (FLOWS w) (sent w) (ticks w).
Definition set_CT x w := mkWorld (pkt w) (xmeta w) (mark w) (peer_id w) (stats w) (FDB w) x (CT6 w) (AFFINITY w) (PCT w) (PCT6 w) (ECHO_TIMERS w) (CONTROL_TIMERS w) (FLOWS w) (sent w) (ticks w).
Definition set_CT6 x w := mkWorld (pkt w) (xmeta w) (mark w) (peer_id w) (stats w) (FDB w) (CT w) x (AFFINITY w) (PCT w) (PCT6 w) (ECHO_TIMERS w) (CONTROL_TIMERS w) (FLOWS w) (sent w) (ticks w).
Definition set_AFFINITY x w := mkWorld (pkt w) (xmeta w) (mark w) (peer_id w) (stats w) (FDB w) (CT w) (CT6 w) x (PCT w) (PCT6 w) (ECHO_TIMERS w) (CONTROL_TIMERS w) (FLOWS w) (sent w) (ticks w).
Definition set_PCT x w := mkWorld (pkt w) (xmeta w) (mark w) (peer_id w) (stats w) (FDB w) (CT w) (CT6 w) (AFFINITY w) x (PCT6 w) (ECHO_TIMERS w) (CONTROL_TIMERS w) (FLOWS w) (sent w) (ticks w).
Definition set_PCT6 x w := mkWorld (pkt w) (xmeta w) (mark w) (peer_id w) (stats w) (FDB w) (CT w) (CT6 w) (AFFINITY w) (PCT w) x (ECHO_TIMERS w) (CONTROL_TIMERS w) (FLOWS w) (sent w) (ticks w).
Definition set_ECHO_TIMERS x w := mkWorld (pkt w) (xmeta w) (mark w) (peer_id w) (stats w) (FDB w) (CT w) (CT6 w) (AFFINITY w) (PCT w) (PCT6 w) x (CONTROL_TIMERS w) (FLOWS w) (sent w) (ticks w).
Definition set_CONTROL_TIMERS x w := mkWorld (pkt w) (xmeta w) (mark w) (peer_id w) (stats w) (FDB w) (CT w) (CT6 w) (AFFINITY w) (PCT w) (PCT6 w) (ECHO_TIMERS w) x (FLOWS w) (sent w) (ticks w).
Definition set_FLOWS x w := mkWorld (pkt w) (xmeta w) (mark w) (peer_id w) (stats w) (FDB w) (CT w) (CT6 w) (AFFINITY w) (PCT w) (PCT6 w) (ECHO_TIMERS w) (CONTROL_TIMERS w) x (sent w) (ticks w).
Definition set_sent x w := mkWorld (pkt w) (xmeta w) (mark w) (peer_id w) (stats w) (FDB w) (CT w) (CT6 w) (AFFINITY w) (PCT w) (PCT6 w) (ECHO_TIMERS w) (CONTROL_TIMERS w) (FLOWS w) x (ticks w).
Definition set_ticks x w := mkWorld (pkt w) (xmeta w) (mark w) (peer_id w) (stats w) (FDB w) (CT w) (CT6 w) (AFFINITY w) (PCT w) (PCT6 w) (ECHO_TIMERS w) (CONTROL_TIMERS w) (FLOWS w) (sent w) x.

(** ** Programs *)

Abbreviation Prog := (M World unit).

Definition err {A} : Prog A := bail tt.
Definition must {A} (o : option A) : Prog A := of_option tt o.

Section programs.
Context `{Kernel}.

(** TC: [ctx.load::<[u8; n]>], native and [u16/u32::from_be] loads. *)
Definition load (off n : Z) : Prog bytes :=
  w ← get; must (skb_load_bytes (pkt w) off n).
Definition load_ne (n off : Z) : Prog Z := of_le <$> load off n.
Definition load_be (n off : Z) : Prog Z := of_be <$> load off n.

Definition put_pkt (o : option bytes) : Prog unit :=
  p ← must o; modify (set_pkt p).
Definition store (off : Z) (b : bytes) : Prog unit :=
  w ← get; put_pkt (skb_store_bytes (pkt w) off b).
Definition l3_csum (off from to size : Z) : Prog unit :=
  w ← get; put_pkt (l3_csum_replace (pkt w) off from to size).
Definition l4_csum (off from to fl : Z) : Prog unit :=
  w ← get; put_pkt (l4_csum_replace (pkt w) off from to fl).
Definition adjust_room (d mode fl : Z) : Prog unit :=
  w ← get; put_pkt (skb_adjust_room (pkt w) d mode fl).

(** [xdp_ptr]: a bounds-checked read or write of packet memory. *)
Definition xdp_rd (off n : Z) : Prog bytes := w ← get; must (rd (pkt w) off n).
Definition xdp_ne (n off : Z) : Prog Z := of_le <$> xdp_rd off n.
Definition xdp_be (n off : Z) : Prog Z := of_be <$> xdp_rd off n.
Definition xdp_wr (off : Z) (b : bytes) : Prog unit :=
  w ← get; put_pkt (wr (pkt w) off b).
(** [bpf_xdp_adjust_head(ctx, d) != 0] is the [false] result. *)
Definition adjust_head (d : Z) : Prog bool :=
  w ← get;
  match xdp_adjust_head (pkt w) d with
  | Some p => _ ← modify (set_pkt p); mret true
  | None => mret false
  end.

(** [bpf_xdp_adjust_meta] and the store of the [CradleXdpMeta] it makes room
    for; [false] when the helper refuses. *)
Definition put_meta (m : CradleXdpMeta) : Prog bool :=
  w ← get;
  if xdp_adjust_meta (pkt w) (-16)
  then _ ← modify (set_xmeta (Some m)); mret true else mret false.

Definition frame_len : Prog Z := w ← get; mret (Z.of_nat (length (pkt w))).

Definition stat_inc (idx : Z) : Prog unit :=
  modify (λ w, if bool_decide (0 ≤ idx < STAT_MAX)
               then set_stats (<[idx := wrap 64 (default 0 (stats w !! idx) + 1)]> (stats w)) w
               else w).

Definition tick : Prog nat :=
  w ← get; _ ← modify (set_ticks (S (ticks w))); mret (ticks w).
Definition ktime_get_ns : Prog Z := ktime <$> tick.
Definition get_prandom_u32 : Prog Z := prandom <$> tick.

Definition send (ev : Effect) : Prog unit := modify (λ w, set_sent (sent w ++ [ev]) w).
Definition redirect (oif : Z) : Prog Z := _ ← send (Redirect oif); mret (redirect_ret oif).
Definition xdp_redirect (oif : Z) : Prog Z :=
  _ ← send (Redirect oif); mret (xdp_redirect_ret oif).
Definition redirect_neigh (oif family : Z) (nh : bytes) : Prog Z :=
  _ ← send (RedirectNeigh oif family nh); mret (redirect_ret oif).
Definition clone_redirect (oif : Z) : Prog unit :=
  w ← get; send (CloneRedirect oif (pkt w)).
End programs.


(** ** Running programs *)

Lemma bind_run {A B} (m : Prog A) (f : A → Prog B) w :
  (m ≫= f) w = match m w with (w', Ok a) => f a w' | (w', Err e) => (w', Err e) end.
Proof. done. Qed.

Lemma bind_ok {A B} {m : Prog A} {f : A → Prog B} {w w' a} :
  m w = (w', Ok a) → (m ≫= f) w = f a w'.
Proof. intros H. by rewrite bind_run, H. Qed.

Lemma bind_err {A B} {m : Prog A} {f : A → Prog B} {w w' e} :
  m w = (w', Err e) → (m ≫= f) w = (w', Err e).
Proof. intros H. by rewrite bind_run, H. Qed.

(** A run of [m ≫= f] that succeeds passes through a success of [m]. *)
Lemma bind_inv {A B} (m : Prog A) (f : A → Prog B) w w' b :
  (m ≫= f) w = (w', Ok b) → ∃ w1 a, m w = (w1, Ok a) ∧ f a w1 = (w', Ok b).
Proof. rewrite bind_run. destruct (m w) as [w1 [a|e]]; [eauto|done]. Qed.

Lemma bind_assoc {A B C} (m : Prog A) (f : A → Prog B) (g : B → Prog C) w :
  ((m ≫= f) ≫= g) w = (m ≫= λ x, f x ≫= g) w.
Proof. rewrite !bind_run. by destruct (m w) as [w1 [a|e]]. Qed.

Lemma bind_ret {A B} (a : A) (f : A → Prog B) w : (mret a ≫= f) w = f a w.
Proof. done. Qed.

Lemma stat_inc_run idx w : ∃ st, stat_inc idx w = (set_stats st w, Ok tt).
Proof.
  unfold stat_inc, modify. case_bool_decide; [by eexists|]. exists (stats w). by destruct w.
Qed.

Lemma set_stats_stats a b w : set_stats a (set_stats b w) = set_stats a w.
Proof. done. Qed.

Lemma set_pkt_pkt a b w : set_pkt a (set_pkt b w) = set_pkt a w.
Proof. done. Qed.

Lemma set_pkt_id w : set_pkt (pkt w) w = w.
Proof. by destruct w. Qed.

Lemma load_run `{KernelLaws} off n b w : rd (pkt w) off n = Some b → 0 < n → load off n w = (w, Ok b).
Proof.
  intros Hr Hn. unfold load. rewrite bind_run. cbn [get]. by rewrite load_spec, Hr.
Qed.

Lemma load_ne_run `{KernelLaws} n off b w :
  rd (pkt w) off n = Some b → 0 < n → load_ne n off w = (w, Ok (of_le b)).
Proof.
  intros Hr Hn. unfold load_ne, fmap, M_fmap. by rewrite (load_run _ _ b).
Qed.

Lemma load_be_run `{KernelLaws} n off b w :
  rd (pkt w) off n = Some b → 0 < n → load_be n off w = (w, Ok (of_be b)).
Proof.
  intros Hr Hn. unfold load_be, fmap, M_fmap. by rewrite (load_run _ _ b).
Qed.

Lemma store_run `{KernelLaws} off b p w :
  wr (pkt w) off b = Some p → b ≠ [] → store off b w = (set_pkt p w, Ok tt).
Proof.
  intros Hr Hn. unfold store, put_pkt. rewrite bind_run. cbn [get]. by rewrite store_spec, Hr.
Qed.

Lemma xdp_rd_run off n b w : rd (pkt w) off n = Some b → xdp_rd off n w = (w, Ok b).
Proof. intros Hr. unfold xdp_rd. rewrite bind_run. cbn [get]. by rewrite Hr. Qed.

Lemma xdp_ne_run n off b w : rd (pkt w) off n = Some b → xdp_ne n off w = (w, Ok (of_le b)).
Proof. intros Hr. unfold xdp_ne, fmap, M_fmap. by rewrite (xdp_rd_run _ _ b). Qed.

Lemma xdp_be_run n off b w : rd (pkt w) off n = Some b → xdp_be n off w = (w, Ok (of_be b)).
Proof. intros Hr. unfold xdp_be, fmap, M_fmap. by rewrite (xdp_rd_run _ _ b). Qed.

Lemma xdp_wr_run off b p w : wr (pkt w) off b = Some p → xdp_wr off b w = (set_pkt p w, Ok tt).
Proof. intros Hr. unfold xdp_wr, put_pkt. rewrite bind_run. cbn [get]. by rewrite Hr. Qed.

(** Loads and [mret] leave the world alone. *)
Lemma load_world `{Kernel} off n w w' r : load off n w = (w', r) → w' = w.
Proof.
  unfold load, must, of_option. rewrite bind_run. cbn [get].
  destruct (skb_load_bytes _ _ _); unfold mret, M_ret, bail; congruence.
Qed.

Lemma load_ne_world `{Kernel} n off w w' r : load_ne n off w = (w', r) → w' = w.
Proof.
  unfold load_ne, fmap, M_fmap. destruct (load off n w) as [w1 [a|e]] eqn:E;
    apply load_world in E as ->; by intros [= <- _].
Qed.

Lemma load_be_world `{Kernel} n off w w' r : load_be n off w = (w', r) → w' = w.
Proof.
  unfold load_be, fmap, M_fmap. destruct (load off n w) as [w1 [a|e]] eqn:E;
    apply load_world in E as ->; by intros [= <- _].
Qed.

(** ** Framing: what a program leaves alone

    [keeps g m]: no run of [m], successful or not, changes the component [g]
    of the world. *)

Definition keeps {X A} (g : World → X) (m : Prog A) : Prop := ∀ w, g (m w).1 = g w.

Section keeps.
Context {X : Type} (g : World → X).

Lemma keeps_ret {A} (a : A) : keeps g (mret a).
Proof. done. Qed.
Lemma keeps_err {A} : keeps g (@err A).
Proof. done. Qed.
Lemma keeps_get : keeps g get.
Proof. done. Qed.
Lemma keeps_must {A} (o : option A) : keeps g (must o).
Proof. by destruct o. Qed.
Lemma keeps_modify f : (∀ w, g (f w) = g w) → keeps g (modify f).
Proof. intros Hf w. apply Hf. Qed.
Lemma keeps_bind {A B} (m : Prog A) (f : A → Prog B) :
  keeps g m → (∀ a, keeps g (f a)) → keeps g (m ≫= f).
Proof.
  intros Hm Hf w. rewrite bind_run. specialize (Hm w).
  destruct (m w) as [w1 [a|e]]; cbn in *; [|done]. by rewrite (Hf a w1).
Qed.
Lemma keeps_fmap {A B} (f : A → B) (m : Prog A) : keeps g m → keeps g (f <$> m).
Proof.
  intros Hm w. specialize (Hm w). unfold fmap, M_fmap.
  by destruct (m w) as [w1 [a|e]]; cbn in *.
Qed.
Lemma keeps_catch {A} (m : Prog A) : keeps g m → keeps g (catch m).
Proof. intros Hm w. specialize (Hm w). unfold catch. by destruct (m w) as [w1 [a|e]]; cbn in *. Qed.
End keeps.

Create HintDb keeps.
#[export] Hint Resolve keeps_ret keeps_err keeps_get keeps_must : keeps.

(** Decomposes a [keeps] goal along the program; the leaves are closed by the
    [keeps] hints or because the update does not touch the component. *)
Ltac keeps_step :=
  match goal with
  | |- keeps _ (let _ := _ in _) => cbv zeta
  | |- keeps _ (mbind _ _) => apply keeps_bind; [|intros ?]
  | |- keeps _ (fmap _ _) => apply keeps_fmap
  | |- keeps _ (catch _) => apply keeps_catch
  | |- keeps _ (modify _) => apply keeps_modify; intros ?; try done
  | |- keeps _ (match ?x with _ => _ end) => destruct x
  | |- keeps _ _ => solve [eauto with keeps]
  end.
Ltac keeps := repeat keeps_step.

Lemma keeps_run {X A} (g : World → X) (m : Prog A) w w' r : keeps g m → m w = (w', r) → g w' = g w.
Proof. intros Hk Hr. specialize (Hk w). by rewrite Hr in Hk. Qed.

Section keeps_prims.
Context `{Kernel} {X : Type} (g : World → X).

Lemma keeps_load off n : keeps g (load off n).
Proof. unfold load. keeps. Qed.
Lemma keeps_xdp_rd off n : keeps g (xdp_rd off n).
Proof. unfold xdp_rd. keeps. Qed.
Lemma keeps_frame_len : keeps g frame_len.
Proof. unfold frame_len. keeps. Qed.
Lemma keeps_load_ne n off : keeps g (load_ne n off).
Proof. apply keeps_fmap, keeps_load. Qed.
Lemma keeps_load_be n off : keeps g (load_be n off).
Proof. apply keeps_fmap, keeps_load. Qed.
Lemma keeps_xdp_ne n off : keeps g (xdp_ne n off).
Proof. apply keeps_fmap, keeps_xdp_rd. Qed.
Lemma keeps_xdp_be n off : keeps g (xdp_be n off).
Proof. apply keeps_fmap, keeps_xdp_rd. Qed.

(** Packet writes, for a component that does not read the packet. *)
Context (Hg : ∀ p w, g (set_pkt p w) = g w).

Lemma keeps_put_pkt o : keeps g (put_pkt o).
Proof. unfold put_pkt. keeps. Qed.
Lemma keeps_store off b : keeps g (store off b).
Proof. unfold store. keeps; apply keeps_put_pkt. Qed.
Lemma keeps_l3_csum off from to size : keeps g (l3_csum off from to size).
Proof. unfold l3_csum. keeps; apply keeps_put_pkt. Qed.
Lemma keeps_l4_csum off from to fl : keeps g (l4_csum off from to fl).
Proof. unfold l4_csum. keeps; apply keeps_put_pkt. Qed.
Lemma keeps_adjust_room d mode fl : keeps g (adjust_room d mode fl).
Proof. unfold adjust_room. keeps; apply keeps_put_pkt. Qed.
Lemma keeps_xdp_wr off b : keeps g (xdp_wr off b).
Proof. unfold xdp_wr. keeps; apply keeps_put_pkt. Qed.
Lemma keeps_adjust_head d : keeps g (adjust_head d).
Proof. unfold adjust_head. keeps. Qed.
End keeps_prims.

#[export] Hint Resolve keeps_load keeps_xdp_rd keeps_frame_len keeps_load_ne keeps_load_be
  keeps_xdp_ne keeps_xdp_be : keeps.
#[export] Hint Extern 1 (keeps _ (store _ _)) => apply keeps_store; done : keeps.
#[export] Hint Extern 1 (keeps _ (l3_csum _ _ _ _)) => apply keeps_l3_csum; done : keeps.
#[export] Hint Extern 1 (keeps _ (l4_csum _ _ _ _)) => apply keeps_l4_csum; done : keeps.
#[export] Hint Extern 1 (keeps _ (adjust_room _ _ _)) => apply keeps_adjust_room; done : keeps.
#[export] Hint Extern 1 (keeps _ (xdp_wr _ _)) => apply keeps_xdp_wr; done : keeps.
#[export] Hint Extern 1 (keeps _ (adjust_head _)) => apply keeps_adjust_head; done : keeps.

Lemma keeps_stat_inc {X} (g : World → X) idx : (∀ x w, g (set_stats x w) = g w) → keeps g (stat_inc idx).
Proof. intros Hg. unfold stat_inc. keeps; by case_bool_decide. Qed.
Lemma keeps_tick {X} (g : World → X) : (∀ x w, g (set_ticks x w) = g w) → keeps g tick.
Proof. intros Hg. unfold tick. keeps. Qed.
Lemma keeps_ktime `{Kernel} {X} (g : World → X) : (∀ x w, g (set_ticks x w) = g w) → keeps g ktime_get_ns.
Proof. intros Hg. by apply keeps_fmap, keeps_tick. Qed.
Lemma keeps_prandom `{Kernel} {X} (g : World → X) : (∀ x w, g (set_ticks x w) = g w) → keeps g get_prandom_u32.
Proof. intros Hg. by apply keeps_fmap, keeps_tick. Qed.
Lemma keeps_send {X} (g : World → X) ev : (∀ x w, g (set_sent x w) = g w) → keeps g (send ev).
Proof. intros Hg. unfold send. keeps. Qed.
#[export] Hint Extern 1 (keeps _ (stat_inc _)) => apply keeps_stat_inc; done : keeps.
#[export] Hint Extern 1 (keeps _ tick) => apply keeps_tick; done : keeps.
#[export] Hint Extern 1 (keeps _ ktime_get_ns) => apply keeps_ktime; done : keeps.
#[export] Hint Extern 1 (keeps _ get_prandom_u32) => apply keeps_prandom; done : keeps.
#[export] Hint Extern 1 (keeps _ (send _)) => apply keeps_send; done : keeps.

(** ** Programs that cannot fail *)

Definition total {A} (m : Prog A) : Prop := ∀ w, ∃ w' a, m w = (w', Ok a).

Lemma total_ret {A} (a : A) : total (mret a).
Proof. intros w. by eexists _, _. Qed.
Lemma total_get : total get.
Proof. intros w. by eexists _, _. Qed.
Lemma total_modify f : total (modify f).
Proof. intros w. by eexists _, _. Qed.
Lemma total_catch {A} (m : Prog A) : total (catch m).
Proof. intros w. unfold catch. destruct (m w) as [w' [a|e]]; by eexists _, _. Qed.
Lemma total_bind {A B} (m : Prog A) (f : A → Prog B) : total m → (∀ a, total (f a)) → total (m ≫= f).
Proof. intros Hm Hf w. destruct (Hm w) as (w1 & a & E). rewrite (bind_ok E). apply Hf. Qed.
Lemma total_fmap {A B} (f : A → B) (m : Prog A) : total m → total (f <$> m).
Proof. intros Hm w. destruct (Hm w) as (w1 & a & E). unfold fmap, M_fmap. rewrite E. by eexists _, _. Qed.
Lemma total_tick : total tick.
Proof. intros w. by eexists _, _. Qed.
Lemma total_ktime `{Kernel} : total ktime_get_ns.
Proof. apply total_fmap, total_tick. Qed.
Lemma total_prandom `{Kernel} : total get_prandom_u32.
Proof. apply total_fmap, total_tick. Qed.
Lemma total_stat_inc idx : total (stat_inc idx).
Proof. apply total_modify. Qed.
Lemma total_send ev : total (send ev).
Proof. apply total_modify. Qed.

Create HintDb total.
#[export] Hint Resolve total_ret total_get total_modify total_catch total_tick total_ktime
  total_prandom total_stat_inc total_send : total.

Ltac total_step :=
  match goal with
  | |- total (let _ := _ in _) => cbv zeta
  | |- total (mbind _ _) => apply total_bind; [|intros ?]
  | |- total (fmap _ _) => apply total_fmap
  | |- total (match ?x with _ => _ end) => destruct x
  | |- total _ => solve [eauto with total]
  end.
Ltac total := repeat total_step.
