(* ===== verification/Frames.v ===== *)
(** * Frames by field

    A frame as the concatenation of its header fields, with the lemmas that
    run a read or a write of one field; the IPv4 and IPv6 layouts; and the
    Internet checksum: [csum16_update] and [ipv4_hdr_csum] of
    [crates/cradle-ebpf/src/main.rs], the validity of a header and its
    preservation by incremental updates. *)

From S2P Require Import Prelude.
From S2P Require Import Contract.
From S2P Require Import Bpf.

(** ** Fields of a concatenation *)

Definition fields_len (fs : list bytes) : nat := sum_list_with length fs.

Lemma concat_length (fs : list bytes) : length (concat fs) = fields_len fs.
Proof. induction fs as [|f fs IH]; cbn; [done|]. by rewrite length_app, IH. Qed.

Lemma concat_split k (fs : list bytes) x : fs !! k = Some x →
  concat fs = concat (take k fs) ++ x ++ concat (drop (S k) fs).
Proof.
  intros Hk. rewrite <- (take_drop_middle fs k x Hk) at 1.
  rewrite concat_app. by cbn.
Qed.

Lemma rd_app (a x c : bytes) off n :
  off = Z.of_nat (length a) → n = Z.of_nat (length x) → rd (a ++ x ++ c) off n = Some x.
Proof.
  intros -> ->. unfold rd. rewrite bool_decide_true.
  - rewrite !Nat2Z.id, drop_app_length, take_app_length. done.
  - rewrite !length_app. lia.
Qed.

Lemma wr_app (a x c b : bytes) off :
  off = Z.of_nat (length a) → length b = length x → wr (a ++ x ++ c) off b = Some (a ++ b ++ c).
Proof.
  intros -> Hl. unfold wr. rewrite bool_decide_true.
  - rewrite !Nat2Z.id, take_app_length. do 2 f_equal.
    rewrite Hl, drop_app_add, drop_app_length. done.
  - rewrite !length_app. lia.
Qed.

(** Read or write the [k]-th field. *)
Lemma rd_field k fs x off n : fs !! k = Some x →
  off = Z.of_nat (fields_len (take k fs)) → n = Z.of_nat (length x) →
  rd (concat fs) off n = Some x.
Proof.
  intros Hk -> ->. rewrite (concat_split k fs x Hk). apply rd_app; [|done].
  by rewrite concat_length.
Qed.

Lemma wr_field k fs x b off : fs !! k = Some x →
  off = Z.of_nat (fields_len (take k fs)) → length b = length x →
  wr (concat fs) off b = Some (concat (<[k := b]> fs)).
Proof.
  intros Hk -> Hl. rewrite (concat_split k fs x Hk). rewrite (wr_app _ x _ b).
  - pose proof (lookup_lt_Some _ _ _ Hk). rewrite insert_take_drop by done.
    rewrite concat_app. done.
  - by rewrite concat_length.
  - done.
Qed.

Lemma wr_length p off b p' : wr p off b = Some p' → length p' = length p.
Proof.
  unfold wr. case_bool_decide; [|done]. intros [= <-].
  rewrite !length_app, length_take, length_drop. lia.
Qed.

(** ** Bytes *)

Lemma to_be_length n z : length (to_be n z) = n.
Proof.
  unfold to_be. rewrite length_rev. revert z. induction n; intros; cbn; auto.
Qed.

Lemma of_le_app a b : of_le (a ++ b) = of_le a + 256 ^ Z.of_nat (length a) * of_le b.
Proof.
  induction a as [|x a IH]; [unfold of_le; cbn [app length foldr]; lia|].
  cbn [app length]. unfold of_le in *. cbn [foldr]. rewrite IH.
  rewrite Nat2Z.inj_succ, Z.pow_succ_r by lia. ring.
Qed.

Lemma of_to_le n z : 0 ≤ z < 256 ^ Z.of_nat n → of_le (to_le n z) = z.
Proof.
  revert z. induction n as [|n IH]; intros z Hz; [cbn in *; lia|].
  rewrite Nat2Z.inj_succ, Z.pow_succ_r in Hz by lia.
  unfold of_le in *. cbn [to_le foldr]. rewrite IH; divlia.
Qed.

Lemma to_of_le b : Forall is_byte b → to_le (length b) (of_le b) = b.
Proof.
  induction 1 as [|x b Hx _ IH]; [done|]. unfold is_byte in *. unfold of_le in *.
  cbn [length to_le foldr]. set (v := foldr _ 0 b) in *. f_equal; [divlia|].
  replace ((x + 256 * v) / 256) with v by divlia. done.
Qed.

Lemma of_to_be n z : 0 ≤ z < 256 ^ Z.of_nat n → of_be (to_be n z) = z.
Proof. intros. unfold of_be, to_be. rewrite rev_involutive. by apply of_to_le. Qed.

Lemma to_of_be b : Forall is_byte b → to_be (length b) (of_be b) = b.
Proof.
  intros Hb. unfold of_be, to_be. rewrite <- length_rev, to_of_le.
  - by rewrite rev_involutive.
  - by apply Forall_rev.
Qed.

Lemma of_le_range b : Forall is_byte b → 0 ≤ of_le b < 256 ^ Z.of_nat (length b).
Proof.
  induction 1 as [|x b Hx _ IH]; [cbn; lia|]. unfold is_byte, of_le in *.
  cbn [length foldr]. rewrite Nat2Z.inj_succ, Z.pow_succ_r by lia. lia.
Qed.

Lemma of_be_range b : Forall is_byte b → 0 ≤ of_be b < 256 ^ Z.of_nat (length b).
Proof.
  intros Hb. unfold of_be. rewrite <- length_rev. apply of_le_range. by apply Forall_rev.
Qed.

Lemma to_le_bytes n z : Forall is_byte (to_le n z).
Proof.
  revert z. induction n; intros z; cbn; constructor; auto. apply Z.mod_pos_bound. lia.
Qed.

Lemma to_be_bytes n z : Forall is_byte (to_be n z).
Proof. apply Forall_rev, to_le_bytes. Qed.

(** ** The Internet checksum *)

(** The sum of the 16-bit words, in memory order. *)
Fixpoint sum16 (p : bytes) : Z :=
  match p with
  | a :: b :: p => a + 256 * b + sum16 p
  | [a] => a
  | [] => 0
  end.

(** A header whose checksum verifies: its words add up to [-0] in
    one's-complement arithmetic. *)
Definition csum_valid (hdr : bytes) : Prop := sum16 hdr mod 65535 = 0.

#[global] Instance csum_valid_dec hdr : Decision (csum_valid hdr).
Proof. unfold csum_valid. apply _. Defined.

Definition csum16_update (hc old new : Z) : Z :=
  let sum := (0xffff - hc) + ((0xffff - old) .& 0xffff) + new in
  let sum := (sum .& 0xffff) + (sum ≫ 16) in
  let sum := (sum .& 0xffff) + (sum ≫ 16) in
  0xffff - wrap 16 sum.

(** A 16-bit word of two bytes, [(b0 as u32) << 8 | b1]. *)
Definition word_at (b : bytes) (i : nat) : Z :=
  (default 0 (b !! i) ≪ 8) .| default 0 (b !! S i).

Definition ipv4_hdr_csum (total_len : Z) (src dst : bytes) : Z :=
  let sum := 0x4500 + total_len + 0x4011 in
  let sum := sum + word_at src 0 in
  let sum := sum + word_at src 2 in
  let sum := sum + word_at dst 0 in
  let sum := sum + word_at dst 2 in
  let sum := (sum .& 0xffff) + (sum ≫ 16) in
  let sum := (sum .& 0xffff) + (sum ≫ 16) in
  0xffff - wrap 16 sum.

Lemma fold_twice s : 0 ≤ s < 65536 * 65535 →
  let s1 := (s .& 0xffff) + (s ≫ 16) in
  let s2 := (s1 .& 0xffff) + (s1 ≫ 16) in
  0 ≤ s2 ≤ 65535 ∧ wrap 16 s2 = s2 ∧ s2 mod 65535 = s mod 65535.
Proof.
  intros Hs s1 s2.
  assert (s1 = s mod 65536 + s / 65536) as E1.
  { unfold s1. change 0xffff with (2 ^ 16 - 1). by rewrite land_ones', shr_div by lia. }
  assert (s2 = s1 mod 65536 + s1 / 65536) as E2.
  { unfold s2. change 0xffff with (2 ^ 16 - 1). by rewrite land_ones', shr_div by lia. }
  clearbody s1 s2. unfold wrap.
  assert (0 ≤ s2 ≤ 65535) by divlia.
  split; [done|]. split; [rewrite Z.mod_small; lia|]. divlia.
Qed.

(** RFC 1624: the checksum moves by [old - new], modulo [65535]. *)
Lemma csum16_update_spec hc old new : u16 hc → u16 old → u16 new →
  u16 (csum16_update hc old new) ∧
  (csum16_update hc old new - (hc + old - new)) mod 65535 = 0.
Proof.
  unfold in_range, csum16_update. intros Hh Ho Hn.
  pose proof (land_ones' 16 (0xffff - old)) as Hl. rewrite Z.mod_small in Hl by lia.
  change (2 ^ 16 - 1) with 0xffff in Hl. rewrite Hl by lia.
  destruct (fold_twice (65535 - hc + (65535 - old) + new)) as (Hr & -> & Hm); [lia|].
  set (s2 := _ + _) in *. clearbody s2. divlia.
Qed.

Lemma word_at_be b i x y : b !! i = Some x → b !! S i = Some y → is_byte x → is_byte y →
  word_at b i = 256 * x + y.
Proof.
  unfold is_byte, word_at. intros -> -> Hx Hy. cbn.
  rewrite shl_mul, lor_add by lia. lia.
Qed.

Lemma sum16_app a b : Nat.Even (length a) → sum16 (a ++ b) = sum16 a + sum16 b.
Proof.
  intros [n Hn]. revert a Hn. induction n as [|n IH]; intros a Hn.
  - by destruct a.
  - destruct a as [|x [|y a]]; cbn in Hn; try lia. cbn [app sum16].
    rewrite IH by lia. lia.
Qed.

Lemma sum16_2 x y : sum16 [x; y] = of_le [x; y].
Proof. cbn. lia. Qed.

Lemma sum16_len2 b : length b = 2%nat → sum16 b = of_le b.
Proof. destruct b as [|x [|y [|]]]; try done. intros _. apply sum16_2. Qed.

(** The same word in the two byte orders, modulo [65535]. *)
Lemma of_be_le2 b : length b = 2%nat → of_be b mod 65535 = (256 * of_le b) mod 65535.
Proof. destruct b as [|x [|y [|]]]; try done. intros _. cbn. divlia. Qed.

Lemma fields_len_cons f fs : fields_len (f :: fs) = (length f + fields_len fs)%nat.
Proof. done. Qed.

Lemma to_le_length n z : length (to_le n z) = n.
Proof. revert z; induction n; intros; cbn; auto. Qed.

(** ** IPv4 frames *)

Record Ip4 := mkIp4 {
  i4_dmac : bytes; i4_smac : bytes; i4_type : bytes;
  i4_vihl : bytes; i4_tos : bytes; i4_len : bytes; i4_id : bytes; i4_frag : bytes;
  i4_ttl : bytes; i4_proto : bytes; i4_csum : bytes; i4_src : bytes; i4_dst : bytes;
  i4_rest : bytes;                       (* options, L4 and payload *)
}.

Definition ip4_fields (f : Ip4) : list bytes :=
  [i4_dmac f; i4_smac f; i4_type f; i4_vihl f; i4_tos f; i4_len f; i4_id f; i4_frag f;
   i4_ttl f; i4_proto f; i4_csum f; i4_src f; i4_dst f; i4_rest f].

Definition ip4_bytes (f : Ip4) : bytes := concat (ip4_fields f).

(** The 20 bytes the header checksum covers. *)
Definition ip4_header (f : Ip4) : bytes := concat (take 10 (drop 3 (ip4_fields f))).

Record wf_ip4 (f : Ip4) : Prop := {
  w4_dmac : length (i4_dmac f) = 6%nat; w4_smac : length (i4_smac f) = 6%nat;
  w4_type : length (i4_type f) = 2%nat; w4_vihl : length (i4_vihl f) = 1%nat;
  w4_tos : length (i4_tos f) = 1%nat; w4_len : length (i4_len f) = 2%nat;
  w4_id : length (i4_id f) = 2%nat; w4_frag : length (i4_frag f) = 2%nat;
  w4_ttl : length (i4_ttl f) = 1%nat; w4_proto : length (i4_proto f) = 1%nat;
  w4_csum : length (i4_csum f) = 2%nat; w4_src : length (i4_src f) = 4%nat;
  w4_dst : length (i4_dst f) = 4%nat; w4_bytes : Forall is_byte (ip4_bytes f);
}.

(** Read or write [m] adjacent fields from the [k]-th. *)
Lemma rd_span k m fs off n :
  off = Z.of_nat (fields_len (take k fs)) → n = Z.of_nat (fields_len (take m (drop k fs))) →
  rd (concat fs) off n = Some (concat (take m (drop k fs))).
Proof.
  intros -> ->. rewrite <- !concat_length.
  rewrite <- (take_drop k fs) at 1. rewrite <- (take_drop m (drop k fs)) at 1.
  rewrite !concat_app. by apply rd_app.
Qed.

Lemma wr_span k m fs b off :
  off = Z.of_nat (fields_len (take k fs)) → length b = fields_len (take m (drop k fs)) →
  wr (concat fs) off b = Some (concat (take k fs ++ [b] ++ drop m (drop k fs))).
Proof.
  intros -> Hl. rewrite <- concat_length in *. rewrite <- (take_drop k fs) at 1.
  rewrite <- (take_drop m (drop k fs)) at 1.
  rewrite !concat_app. rewrite (wr_app _ _ _ b); [|done..].
  cbn. by rewrite app_nil_r.
Qed.

Lemma rd_byte p off b : rd p off 1 = Some b → ∃ x, b = [x].
Proof.
  unfold rd. case_bool_decide as E; [|done]. intros [= <-].
  destruct (drop (Z.to_nat off) p) as [|x l] eqn:Ed.
  - pose proof (length_drop p (Z.to_nat off)) as Hl. rewrite Ed in Hl. cbn in Hl. lia.
  - exists x. done.
Qed.

Definition ip4_set_ttl (t : bytes) (f : Ip4) : Ip4 :=
  mkIp4 (i4_dmac f) (i4_smac f) (i4_type f) (i4_vihl f) (i4_tos f) (i4_len f) (i4_id f)
    (i4_frag f) t (i4_proto f) (i4_csum f) (i4_src f) (i4_dst f) (i4_rest f).
Definition ip4_set_csum (c : bytes) (f : Ip4) : Ip4 :=
  mkIp4 (i4_dmac f) (i4_smac f) (i4_type f) (i4_vihl f) (i4_tos f) (i4_len f) (i4_id f)
    (i4_frag f) (i4_ttl f) (i4_proto f) c (i4_src f) (i4_dst f) (i4_rest f).
Definition ip4_set_src (a : bytes) (f : Ip4) : Ip4 :=
  mkIp4 (i4_dmac f) (i4_smac f) (i4_type f) (i4_vihl f) (i4_tos f) (i4_len f) (i4_id f)
    (i4_frag f) (i4_ttl f) (i4_proto f) (i4_csum f) a (i4_dst f) (i4_rest f).
Definition ip4_set_dst (a : bytes) (f : Ip4) : Ip4 :=
  mkIp4 (i4_dmac f) (i4_smac f) (i4_type f) (i4_vihl f) (i4_tos f) (i4_len f) (i4_id f)
    (i4_frag f) (i4_ttl f) (i4_proto f) (i4_csum f) (i4_src f) a (i4_rest f).
Definition ip4_set_rest (r : bytes) (f : Ip4) : Ip4 :=
  mkIp4 (i4_dmac f) (i4_smac f) (i4_type f) (i4_vihl f) (i4_tos f) (i4_len f) (i4_id f)
    (i4_frag f) (i4_ttl f) (i4_proto f) (i4_csum f) (i4_src f) (i4_dst f) r.
Definition ip4_set_macs (d s : bytes) (f : Ip4) : Ip4 :=
  mkIp4 d s (i4_type f) (i4_vihl f) (i4_tos f) (i4_len f) (i4_id f)
    (i4_frag f) (i4_ttl f) (i4_proto f) (i4_csum f) (i4_src f) (i4_dst f) (i4_rest f).

Lemma ip4_header_sum f : wf_ip4 f →
  sum16 (ip4_header f) =
    of_le (i4_vihl f ++ i4_tos f) + of_le (i4_len f) + of_le (i4_id f) + of_le (i4_frag f)
    + of_le (i4_ttl f ++ i4_proto f) + of_le (i4_csum f) + sum16 (i4_src f) + sum16 (i4_dst f).
Proof.
  intros []. unfold ip4_header. cbn [ip4_fields drop take concat].
  rewrite !(app_assoc (i4_vihl f)), app_assoc.
  destruct (i4_vihl f) as [|? [|]]; try done. destruct (i4_tos f) as [|? [|]]; try done.
  destruct (i4_ttl f) as [|? [|]]; try done. destruct (i4_proto f) as [|? [|]]; try done.
  destruct (i4_len f) as [|? [|? [|]]]; try done. destruct (i4_id f) as [|? [|? [|]]]; try done.
  destruct (i4_frag f) as [|? [|? [|]]]; try done. destruct (i4_csum f) as [|? [|? [|]]]; try done.
  destruct (i4_src f) as [|? [|? [|? [|? [|]]]]]; try done.
  destruct (i4_dst f) as [|? [|? [|? [|? [|]]]]]; try done.
  cbn. lia.
Qed.

(** ** TCP and UDP segments *)

Record Seg := mkSeg { sg_sport : bytes; sg_dport : bytes; sg_mid : bytes; sg_csum : bytes; sg_pl : bytes }.

Definition sg_fields (l : Seg) : list bytes := [sg_sport l; sg_dport l; sg_mid l; sg_csum l; sg_pl l].
Definition sg_bytes (l : Seg) : bytes := concat (sg_fields l).

Definition sg_set_sport (p : bytes) (l : Seg) : Seg := mkSeg p (sg_dport l) (sg_mid l) (sg_csum l) (sg_pl l).
Definition sg_set_dport (p : bytes) (l : Seg) : Seg := mkSeg (sg_sport l) p (sg_mid l) (sg_csum l) (sg_pl l).
Definition sg_set_csum (c : bytes) (l : Seg) : Seg := mkSeg (sg_sport l) (sg_dport l) (sg_mid l) c (sg_pl l).

(** The checksum sits at offset 16 of a TCP segment, 6 of a UDP one. *)
Record wf_sg (proto : Z) (l : Seg) : Prop := {
  wl_sport : length (sg_sport l) = 2%nat; wl_dport : length (sg_dport l) = 2%nat;
  wl_mid : length (sg_mid l) = (if proto =? IPPROTO_TCP then 12%nat else 2%nat);
  wl_csum : length (sg_csum l) = 2%nat; wl_bytes : Forall is_byte (sg_bytes l);
}.

(** An IPv4 frame without options carrying a segment. *)
Definition seg_fields (f : Ip4) (l : Seg) : list bytes :=
  [i4_dmac f; i4_smac f; i4_type f; i4_vihl f; i4_tos f; i4_len f; i4_id f; i4_frag f;
   i4_ttl f; i4_proto f; i4_csum f; i4_src f; i4_dst f;
   sg_sport l; sg_dport l; sg_mid l; sg_csum l; sg_pl l].
Definition seg_bytes (f : Ip4) (l : Seg) : bytes := concat (seg_fields f l).

(** The words the segment's checksum covers: pseudo-header and segment. *)
Definition seg_sum (f : Ip4) (l : Seg) : Z :=
  sum16 (i4_src f) + sum16 (i4_dst f) + sum16 (0 :: i4_proto f)
  + sum16 (to_be 2 (Z.of_nat (length (sg_bytes l)))) + sum16 (sg_bytes l).
Definition seg_valid (f : Ip4) (l : Seg) : Prop := seg_sum f l mod 65535 = 0.

Record wf_seg (f : Ip4) (l : Seg) (proto : Z) : Prop := {
  ws_ip : wf_ip4 f; ws_l4 : wf_sg proto l; ws_rest : i4_rest f = sg_bytes l;
  ws_type : i4_type f = to_be 2 ETH_P_IP;
  ws_ihl : ∃ x, i4_vihl f = [x] ∧ (x .& 0x0f) = 5;
  ws_proto : i4_proto f = [proto]; ws_l4p : proto = IPPROTO_TCP ∨ proto = IPPROTO_UDP;
}.

Lemma sg_bytes_sum proto l : wf_sg proto l →
  sum16 (sg_bytes l) = of_le (sg_sport l) + of_le (sg_dport l) + sum16 (sg_mid l)
    + of_le (sg_csum l) + sum16 (sg_pl l).
Proof.
  intros []. unfold sg_bytes. cbn [sg_fields concat]. rewrite app_nil_r.
  rewrite !sum16_app; rewrite ?(sum16_len2 (sg_sport l)), ?(sum16_len2 (sg_dport l)), ?(sum16_len2 (sg_csum l)) by done.
  - lia.
  - exists 1%nat. lia.
  - destruct (proto =? IPPROTO_TCP); [exists 6%nat|exists 1%nat]; lia.
  - exists 1%nat. lia.
  - exists 1%nat. lia.
Qed.

(** ** Well-formedness of an updated frame *)

Ltac wf_update :=
  intros [] ? ?; split; cbn; try done;
  unfold ip4_bytes, sg_bytes, ip4_fields, sg_fields in *; cbn [concat] in *;
  rewrite !Forall_app in *; cbn; tauto.

Lemma wf_set_csum c f : wf_ip4 f → length c = 2%nat → Forall is_byte c → wf_ip4 (ip4_set_csum c f).
Proof. wf_update. Qed.
Lemma wf_set_ttl c f : wf_ip4 f → length c = 1%nat → Forall is_byte c → wf_ip4 (ip4_set_ttl c f).
Proof. wf_update. Qed.
Lemma wf_set_src c f : wf_ip4 f → length c = 4%nat → Forall is_byte c → wf_ip4 (ip4_set_src c f).
Proof. wf_update. Qed.
Lemma wf_set_dst c f : wf_ip4 f → length c = 4%nat → Forall is_byte c → wf_ip4 (ip4_set_dst c f).
Proof. wf_update. Qed.
Lemma wf_set_sport p l c : wf_sg p l → length c = 2%nat → Forall is_byte c → wf_sg p (sg_set_sport c l).
Proof. wf_update. Qed.
Lemma wf_set_dport p l c : wf_sg p l → length c = 2%nat → Forall is_byte c → wf_sg p (sg_set_dport c l).
Proof. wf_update. Qed.
Lemma wf_set_sgcsum p l c : wf_sg p l → length c = 2%nat → Forall is_byte c → wf_sg p (sg_set_csum c l).
Proof. wf_update. Qed.

(** ** Checksum helpers on a field *)

Lemma csum_replaced_field k fs x off from to size p' : fs !! k = Some x →
  off = Z.of_nat (fields_len (take k fs)) → length x = 2%nat →
  csum_replaced (concat fs) off from to size p' →
  ∃ c, p' = concat (<[k := c]> fs) ∧ length c = 2%nat ∧ Forall is_byte c ∧
    csum_upd (of_le x) from to size (of_le c).
Proof.
  intros Hk Ho Hx (c & c' & Hr & Hw & Hl & Hb & Hu).
  rewrite (rd_field k fs x) in Hr by (done || by rewrite Hx). injection Hr as <-.
  rewrite (wr_field k fs x) in Hw by (done || congruence). injection Hw as <-.
  by exists c'.
Qed.

Lemma l3_csum_field `{KernelLaws} k fs x off from to size w w' : pkt w = concat fs →
  fs !! k = Some x → off = Z.of_nat (fields_len (take k fs)) → length x = 2%nat →
  l3_csum off from to size w = (w', Ok tt) →
  ∃ c, w' = set_pkt (concat (<[k := c]> fs)) w ∧ length c = 2%nat ∧ Forall is_byte c ∧
    csum_upd (of_le x) from to size (of_le c).
Proof.
  intros Hp Hk Ho Hx. unfold l3_csum, put_pkt. rewrite !bind_run. cbn [get]. rewrite Hp.
  destruct (l3_csum_replace _ _ _ _ _) as [p'|] eqn:E; [|done]. intros [= <-].
  apply l3_csum_spec in E. destruct (csum_replaced_field _ _ _ _ _ _ _ _ Hk Ho Hx E) as (c & -> & ?).
  by exists c.
Qed.

Definition l4_upd (mangled : bool) (x : bytes) (from to size : Z) (c : bytes) : Prop :=
  if mangled then (x = [0; 0] ∧ c = [0; 0]) ∨
    (csum_upd (of_le x) from to size (of_le c) ∧ x ≠ [0; 0] ∧ c ≠ [0; 0])
  else csum_upd (of_le x) from to size (of_le c).

Lemma l4_csum_field `{KernelLaws} k fs x off from to fl w w' : pkt w = concat fs →
  fs !! k = Some x → off = Z.of_nat (fields_len (take k fs)) → length x = 2%nat →
  Forall is_byte x → l4_csum off from to fl w = (w', Ok tt) →
  ∃ c, w' = set_pkt (concat (<[k := c]> fs)) w ∧ length c = 2%nat ∧ Forall is_byte c ∧
    l4_upd (has fl BPF_F_MARK_MANGLED_0) x from to (fl .& 0xf) c.
Proof.
  intros Hp Hk Ho Hx Hb. unfold l4_csum, put_pkt, l4_upd. rewrite !bind_run. cbn [get]. rewrite Hp.
  destruct (l4_csum_replace _ _ _ _ _) as [p'|] eqn:E; [|done]. intros [= <-].
  apply l4_csum_spec in E.
  assert (rd (concat fs) off 2 = Some x) as Hr.
  { apply (rd_field k fs x); [done..|]. by rewrite Hx. }
  rewrite Hr in E. destruct (has fl BPF_F_MARK_MANGLED_0).
  - destruct E as [[[= ->] ->]|(E & Hx0 & Hc0)].
    + exists [0; 0]. rewrite list_insert_id by done. split_and!; [done..|by left].
    + destruct (csum_replaced_field _ _ _ _ _ _ _ _ Hk Ho Hx E) as (c & -> & Hl & Hcb & Hu).
      exists c. split_and!; [done..|]. right. split_and!; [done|congruence|].
      intros ->. apply Hc0. apply (rd_field k); [|by rewrite take_insert_ge by done|done].
      rewrite list_lookup_insert_eq; [done|]. by eapply lookup_lt_Some.
  - destruct (csum_replaced_field _ _ _ _ _ _ _ _ Hk Ho Hx E) as (c & -> & Hl & Hcb & Hu).
    by exists c.
Qed.

Lemma store_field `{KernelLaws} k fs x b off w : pkt w = concat fs → fs !! k = Some x →
  off = Z.of_nat (fields_len (take k fs)) → length b = length x → b ≠ [] →
  store off b w = (set_pkt (concat (<[k := b]> fs)) w, Ok tt).
Proof. intros Hp Hk Ho Hl Hb. apply store_run; [|done]. rewrite Hp. by apply (wr_field k fs x). Qed.

Lemma load_field `{KernelLaws} k fs x off n w : pkt w = concat fs → fs !! k = Some x →
  off = Z.of_nat (fields_len (take k fs)) → n = Z.of_nat (length x) → 0 < n →
  load off n w = (w, Ok x).
Proof. intros Hp Hk Ho Hn Hb. apply load_run; [|done]. rewrite Hp. by apply (rd_field k fs x). Qed.

Lemma load_ne_field `{KernelLaws} k fs x off n w : pkt w = concat fs → fs !! k = Some x →
  off = Z.of_nat (fields_len (take k fs)) → n = Z.of_nat (length x) → 0 < n →
  load_ne n off w = (w, Ok (of_le x)).
Proof. intros Hp Hk Ho Hn Hb. apply load_ne_run; [|done]. rewrite Hp. by apply (rd_field k fs x). Qed.

Lemma load_be_field `{KernelLaws} k fs x off n w : pkt w = concat fs → fs !! k = Some x →
  off = Z.of_nat (fields_len (take k fs)) → n = Z.of_nat (length x) → 0 < n →
  load_be n off w = (w, Ok (of_be x)).
Proof. intros Hp Hk Ho Hn Hb. apply load_be_run; [|done]. rewrite Hp. by apply (rd_field k fs x). Qed.

(** Discharges the offset and length side conditions of the field lemmas. *)
Ltac flen :=
  cbv [IP_VER_IHL_OFF IP_TTL_OFF IP_PROTO_OFF IP_CSUM_OFF IP_SRC_OFF IP_DST_OFF L4_OFF
       ETH_HLEN ETH_TYPE_OFF ETH_DST_OFF ETH_SRC_OFF IP6_NEXTHDR_OFF IP6_HOP_OFF IP6_SRC_OFF
       IP6_DST_OFF IP6_L4_OFF seg_fields ip4_fields
       ip4_set_ttl ip4_set_csum ip4_set_src ip4_set_dst ip4_set_macs ip4_set_rest
       sg_set_sport sg_set_dport sg_set_csum];
  cbn [take drop insert list_insert lookup
       i4_dmac i4_smac i4_type i4_vihl i4_tos i4_len i4_id i4_frag i4_ttl i4_proto i4_csum
       i4_src i4_dst i4_rest sg_sport sg_dport sg_mid sg_csum sg_pl];
  rewrite ?fields_len_cons;
  cbn [fields_len sum_list_with]; rewrite ?to_be_length, ?to_le_length, ?length_app;
  cbn [length app]; try lia.
