(* ===== verification/KernelRef.v ===== *)
(** * A reference kernel

    One concrete function for every helper of [Bpf.Kernel], and the proof
    that it has the documented behaviour [Bpf.KernelLaws] asks for.  The
    theorems are proved for every kernel with those laws; the witnesses run
    the programs on this one. *)

From S2P Require Import Prelude.
From S2P Require Import Contract.
From S2P Require Import Bpf.
From S2P Require Import Frames.

(** One's-complement addition of 16-bit words (RFC 1071). *)
Definition oc_fold (s : Z) : Z :=
  let s := (s .& 0xffff) + (s ≫ 16) in (s .& 0xffff) + (s ≫ 16).

(** RFC 1624 update of the checksum at [off], in memory order. *)
Definition ref_csum (c from to size : Z) : Z :=
  0xffff - oc_fold ((0xffff - c) + halves size (Z.lnot from) + halves size to).

Definition ref_csum_replace (p : bytes) (off from to size : Z) : option bytes :=
  c ← rd p off 2;
  if bool_decide (Forall is_byte c) then
    wr p off (to_le 2 (ref_csum (of_le c) from to size))
  else None.

(** [CSUM_MANGLED_0]: an update that gives a null checksum stores [0xffff]. *)
Definition ref_l4_csum (p : bytes) (off from to fl : Z) : option bytes :=
  c ← rd p off 2;
  if bool_decide (Forall is_byte c) then
    if has fl BPF_F_MARK_MANGLED_0 && bool_decide (c = [0; 0]) then Some p else
    let c' := ref_csum (of_le c) from to (fl .& 0xf) in
    wr p off (to_le 2 (if has fl BPF_F_MARK_MANGLED_0 && (c' =? 0) then 0xffff else c'))
  else None.

Definition open_room (at_ : nat) (p : bytes) (d : Z) : option bytes :=
  if bool_decide (0 < d ∧ (at_ ≤ length p)%nat)
  then Some (take at_ p ++ replicate (Z.to_nat d) 0 ++ drop at_ p) else None.

Definition ref_lpm {V} (t : gmap (Z * bytes) V) (key : bytes) : option V :=
  snd <$> foldr (λ (e : Z * bytes * V) (best : option (Z * V)),
    let '((n, d), v) := e in
    if bits_agree n d key then
      match best with
      | Some (n0, _) => if n0 <? n then Some (n, v) else best
      | None => Some (n, v)
      end
    else best) None (map_to_list t).

#[global] Instance ref_kernel : Kernel := {
  skb_load_bytes := rd;
  skb_store_bytes := wr;
  l3_csum_replace := ref_csum_replace;
  l4_csum_replace := ref_l4_csum;
  skb_adjust_room p d mode _ := open_room (if mode =? BPF_ADJ_ROOM_MAC then 14 else 54) p d;
  xdp_adjust_head p d :=
    if 0 <=? d then (if bool_decide (Z.to_nat d + 14 ≤ length p)%nat then Some (drop (Z.to_nat d) p) else None)
    else Some (replicate (Z.to_nat (- d)) 0 ++ p);
  xdp_adjust_meta _ _ := true;
  redirect_ret _ := 7;
  xdp_redirect_ret _ := 4;
  ktime n := 1000 + Z.of_nat n;
  prandom n := wrap 32 (Z.of_nat n * 2654435761);
  ring_reserve _ := true;
  timer_init _ := true;
  skc_lookup_tcp _ _ _ _ := None;
  sk_assign _ := 0;
  hash_insert K _ _ V cap k v m :=
    if bool_decide (is_Some (m !! k) ∨ Z.of_nat (size m) < cap) then <[k := v]> m else m;
  lru_insert K _ _ V cap k v m :=
    <[k := v]> (if bool_decide (Z.of_nat (size m) < cap) then m
                else match map_to_list m with (k0, _) :: _ => delete k0 m | [] => m end);
  lpm_get V t key := ref_lpm t key;
}.

Lemma oc_fold_mod s : 0 ≤ s → oc_fold s mod 65535 = s mod 65535.
Proof.
  intros Hs. unfold oc_fold. change 0xffff with (2 ^ 16 - 1).
  rewrite !land_ones', !shr_div by lia. divlia.
Qed.

Lemma oc_fold_range s : 0 ≤ s ≤ 65535 * 5 → 0 ≤ oc_fold s ≤ 65535.
Proof.
  intros Hs. unfold oc_fold. change 0xffff with (2 ^ 16 - 1).
  rewrite !land_ones', !shr_div by lia. divlia.
Qed.

Lemma land_lnot_16 z : Z.lnot z .& 0xffff = 65535 - z .& 0xffff.
Proof.
  change 0xffff with (2 ^ 16 - 1). rewrite !land_ones' by lia.
  unfold Z.lnot. divlia.
Qed.

Lemma halves_lnot size z :
  halves size (Z.lnot z) = (if size =? 4 then 2 * 65535 else 65535) - halves size z.
Proof.
  unfold halves. destruct (size =? 4); [|apply land_lnot_16].
  rewrite land_lnot_16, <- Z.lnot_shiftr by lia. rewrite land_lnot_16. lia.
Qed.

Lemma halves_range size z : 0 ≤ halves size z ≤ 2 * 65535.
Proof.
  unfold halves. change 0xffff with (2 ^ 16 - 1). rewrite !land_ones' by lia.
  pose proof (Z.mod_pos_bound z (2 ^ 16)). pose proof (Z.mod_pos_bound (z ≫ 16) (2 ^ 16)).
  destruct (size =? 4); lia.
Qed.

Lemma ref_csum_ok c from to size : 0 ≤ c ≤ 65535 →
  0 ≤ ref_csum c from to size ≤ 65535 ∧ csum_upd c from to size (ref_csum c from to size).
Proof.
  intros Hc. unfold ref_csum, csum_upd. rewrite halves_lnot.
  pose proof (halves_range size from). pose proof (halves_range size to).
  set (s := 65535 - c + _ + _).
  assert (0 ≤ s ≤ 65535 * 5) as Hs.
  { unfold s. pose proof (halves_lnot size from). pose proof (halves_range size (Z.lnot from)).
    destruct (size =? 4); lia. }
  pose proof (oc_fold_range s Hs). pose proof (oc_fold_mod s ltac:(lia)) as Hm.
  split; [lia|].
  assert (∃ k, oc_fold s = s + 65535 * k) as [k ->].
  { exists (oc_fold s / 65535 - s / 65535). divlia. }
  unfold s. destruct (size =? 4); divlia.
Qed.

Lemma of_to_le2 z : 0 ≤ z ≤ 65535 → of_le (to_le 2 z) = z.
Proof. intros. cbn. divlia. Qed.

Lemma of_le2_range c : length c = 2%nat → Forall is_byte c → 0 ≤ of_le c ≤ 65535.
Proof.
  destruct c as [|x [|y [|? ?]]]; try done. intros _.
  rewrite !Forall_cons. unfold is_byte. cbn. lia.
Qed.

Lemma rd_length p off n b : rd p off n = Some b → Z.of_nat (length b) = n.
Proof.
  unfold rd. case_bool_decide; [|done]. intros [= <-].
  rewrite length_take, length_drop. lia.
Qed.

Lemma ref_csum_spec p off from to size p' : ref_csum_replace p off from to size = Some p' →
  csum_replaced p off from to size p'.
Proof.
  unfold ref_csum_replace. intros (c & Hr & Hw)%bind_Some.
  case_bool_decide as Hb; [|done].
  pose proof (rd_length _ _ _ _ Hr) as Hl.
  destruct (ref_csum_ok (of_le c) from to size) as [Hrg Hu].
  { apply of_le2_range; [lia|done]. }
  exists c, (to_le 2 (ref_csum (of_le c) from to size)). split_and!; try done.
  - apply to_le_bytes.
  - by rewrite of_to_le2 by lia.
Qed.

Lemma rd_wr_same p off b p' : wr p off b = Some p' → rd p' off (Z.of_nat (length b)) = Some b.
Proof.
  unfold wr, rd. case_bool_decide as E; [|done]. intros [= <-].
  rewrite bool_decide_true.
  - rewrite Nat2Z.id, drop_app_length' by (rewrite length_take; lia).
    by rewrite take_app_length.
  - rewrite !length_app, length_take, length_drop. lia.
Qed.

Lemma ref_l4_csum_spec p off from to fl p' : ref_l4_csum p off from to fl = Some p' →
  if has fl BPF_F_MARK_MANGLED_0 then
    (rd p off 2 = Some [0; 0] ∧ p' = p) ∨
    (csum_replaced p off from to (fl .& 0xf) p' ∧
     rd p off 2 ≠ Some [0; 0] ∧ rd p' off 2 ≠ Some [0; 0])
  else csum_replaced p off from to (fl .& 0xf) p'.
Proof.
  unfold ref_l4_csum. intros (c & Hr & Hw)%bind_Some.
  case_bool_decide as Hb; [|done].
  pose proof (rd_length _ _ _ _ Hr) as Hl.
  destruct (ref_csum_ok (of_le c) from to (fl .& 0xf)) as [Hrg Hu].
  { apply of_le2_range; [lia|done]. }
  set (c' := ref_csum _ _ _ _) in *.
  destruct (has fl BPF_F_MARK_MANGLED_0); cbn [andb] in Hw.
  - case_bool_decide as Hz; [left; split; congruence|right].
    pose proof (rd_wr_same _ _ _ _ Hw) as Hr'. rewrite to_le_length in Hr'.
    split_and!; [|congruence|].
    + eexists c, _. split_and!; [done|exact Hw|done|apply to_le_bytes|].
      destruct (Z.eqb_spec c' 0) as [E|]; rewrite of_to_le2 by lia; [|done].
      unfold csum_upd in *. rewrite E in Hu. divlia.
    + change (Z.of_nat 2) with 2 in Hr'. rewrite Hr'. intros [= E1 E2].
      revert E1 E2. destruct (Z.eqb_spec c' 0); [done|]. divlia.
  - eexists c, _. split_and!; [done|exact Hw|done|apply to_le_bytes|].
    by rewrite of_to_le2 by lia.
Qed.

Lemma open_room_spec k p d p' : open_room k p d = Some p' →
  ∃ room, Z.of_nat (length room) = d ∧ p' = take k p ++ room ++ drop k p.
Proof.
  unfold open_room. case_bool_decide as E; [|done]. intros [= <-].
  exists (replicate (Z.to_nat d) 0). rewrite length_replicate. split; [lia|done].
Qed.

Lemma ref_lpm_list {V} (l : list (Z * bytes * V)) (key : bytes) :
  match foldr (λ (e : Z * bytes * V) (best : option (Z * V)),
    let '((n, d), v) := e in
    if bits_agree n d key then
      match best with
      | Some (n0, _) => if n0 <? n then Some (n, v) else best
      | None => Some (n, v)
      end
    else best) None l with
  | Some (n, v) => (∃ d, (n, d, v) ∈ l ∧ bits_agree n d key = true) ∧
      ∀ n' d' v', (n', d', v') ∈ l → bits_agree n' d' key = true → n' ≤ n
  | None => ∀ n' d' v', (n', d', v') ∈ l → bits_agree n' d' key = false
  end.
Proof.
  induction l as [|[[n0 d0] v0] l IH]; cbn [foldr].
  { intros ? ? ? []%not_elem_of_nil. }
  destruct (foldr _ None l) as [[n v]|]; destruct (bits_agree n0 d0 key) eqn:Eb.
  - destruct IH as [(d & Hin & Hb) Hmax]. destruct (Z.ltb_spec n n0).
    + split; [exists d0; split; [by left|done]|]. intros n' d' v' [[= -> -> ->]|Hin']%elem_of_cons Hb'; [lia|].
      specialize (Hmax _ _ _ Hin' Hb'). lia.
    + split; [exists d; split; [by right|done]|]. intros n' d' v' [[= -> -> ->]|Hin']%elem_of_cons Hb'; [lia|eauto].
  - destruct IH as [(d & Hin & Hb) Hmax]. split; [exists d; split; [by right|done]|].
    intros n' d' v' [[= -> -> ->]|Hin']%elem_of_cons Hb'; [congruence|eauto].
  - split; [exists d0; split; [by left|done]|].
    intros n' d' v' [[= -> -> ->]|Hin']%elem_of_cons Hb'; [lia|]. rewrite (IH _ _ _ Hin') in Hb'. done.
  - intros n' d' v' [[= -> -> ->]|Hin']%elem_of_cons; [done|eauto].
Qed.

#[global] Instance ref_kernel_laws : KernelLaws.
Proof.
  split.
  - done.
  - done.
  - intros. by eapply ref_csum_spec.
  - intros. by eapply ref_l4_csum_spec.
  - intros p d fl p' _. apply open_room_spec.
  - intros p d fl p' _ _. apply open_room_spec.
  - intros p d p' Hd. cbn. rewrite (proj2 (Z.leb_le _ _)) by done. case_bool_decide; congruence.
  - intros p d p' Hd. cbn. rewrite (proj2 (Z.leb_gt _ _)) by done. intros [= <-].
    exists (replicate (Z.to_nat (- d)) 0). rewrite length_replicate. split; [lia|done].
  - intros n. apply Z.mod_pos_bound. lia.
  - intros K ? ? V cap k v m. cbn. case_bool_decide as E; [by left|right].
    split; [|split; [|done]].
    + destruct (m !! k) eqn:Ek; [|done]. destruct E. left. eauto.
    + destruct (decide (Z.of_nat (size m) < cap)); [|lia]. destruct E. by right.
  - intros K ? ? V cap k v m. cbn. split; [apply lookup_insert_eq|].
    intros k' Hne. rewrite lookup_insert_ne by done.
    case_bool_decide; [by right|]. destruct (map_to_list m) as [|[k0 x] l]; [by right|].
    destruct (decide (k0 = k')) as [->|]; [left; apply lookup_delete_eq|right; by apply lookup_delete_ne].
  - intros V t key. cbn. unfold ref_lpm. pose proof (ref_lpm_list (map_to_list t) key) as Hl.
    destruct (foldr _ None (map_to_list t)) as [[n v]|]; cbn.
    + destruct Hl as [(d & Hin & Hb) Hmax]. exists n, d. apply elem_of_map_to_list in Hin.
      split; [done|]. split; [done|]. intros n' d' v' Hin'. apply elem_of_map_to_list in Hin'. eauto.
    + intros n' d' v' Hin'. apply elem_of_map_to_list in Hin'. eauto.
  - intros p off from to size c Hr Hb. cbn. unfold ref_csum_replace. rewrite Hr. cbn.
    rewrite bool_decide_true by done. unfold wr.
    unfold rd in Hr. case_bool_decide as E; [|done]. rewrite bool_decide_true; [eauto|].
    cbn [length to_le]. lia.
  - intros p d Hd Hl. cbn. rewrite (proj2 (Z.leb_le _ _)) by done. unfold ETH_HLEN in Hl.
    rewrite bool_decide_true by lia. eauto.
Qed.

(** A world whose maps are empty, holding frame [p]. *)
Definition world_of (p : bytes) : World := mkWorld p None 0 0 ∅ ∅ ∅ ∅ ∅ ∅ ∅ ∅ ∅ [] [] 0.
