(* ===== verification/Maps.v ===== *)
(** * The maps user space programs and the data plane reads

    The BPF maps of [crates/cradle-ebpf/src/main.rs] that no program writes,
    grouped in the order the source declares them; the maps the programs do
    write ([FDB], [CT], [PCT], ..) are in [Bpf.World].  A map is a [gmap], an
    LPM trie the set of its [(prefix length, data)] entries, a one-element
    array an [option].  The keys of the per-VRF tries carry the VRF id as
    four native bytes before the address. *)

From S2P Require Import Prelude.
From S2P Require Import Contract.
From S2P Require Import Common.
From S2P Require Import Bpf.
From S2P Require Import Dir24.

Class FibMaps := mkFibMaps {
  PORTS : gmap Z PortConfig;
  FIB4 : gmap (Z * bytes) FibEntry;
  FIB6 : gmap (Z * bytes) FibEntry;
  FIB4_VRF : gmap (Z * bytes) FibEntry;
  FIB6_VRF : gmap (Z * bytes) FibEntry;
}.

Class TunnelMaps := mkTunnelMaps {
  SRV6_LOCALSID : gmap (Z * bytes) LocalSid;
  SRV6_ENCAP : gmap Z Srv6Encap;
  SRV6_ENCAP_SRC : option bytes;
  GTP_ENCAP : gmap Z GtpEncap;
  GTP_PDR : gmap GtpPdrKey GtpPdr;
  GTP_PDR6 : gmap Gtp6PdrKey GtpPdr;
  GTP6_ENCAP : gmap Z Gtp6Encap;
  VLAN_VNI : gmap Z Z;
  VNI_INFO : gmap Z VniInfo;
  VXLAN_SRC : option bytes;
  VXLAN_SRC6 : option bytes;
  VXLAN_ENCAP : gmap Z VxlanEncap;
  META_COOKIE : option Z;
}.

(** [TBL24], [TBL8] and [DEFAULT4] are the arrays of [Dir24.Tables]. *)
Class L3Maps := mkL3Maps {
  TBLS : Tables;
  DP_CONFIG : option Z;
  NEXTHOPS : gmap Z NextHop;
  LINK_DOWN : gmap Z Z;
  NHGROUP : gmap Z Z;
  NHGROUP_MEMBER : gmap NhGroupKey Z;
  NEIGH4 : gmap Neigh4Key NeighEntry;
  NEIGH6 : gmap Neigh6Key NeighEntry;
  MPLS_FIB : gmap Z MplsEntry;
}.

Class L2Maps := mkL2Maps {
  REPL_SID : gmap Z ReplTarget;
  REPL_SEG : gmap bytes ReplSeg;
  XCONNECT : gmap Z ReplTarget;
  XCONNECT_VLAN : gmap Dx2vKey ReplTarget;
  DX2V : gmap Dx2vKey Z;
  MIRROR : gmap (Z * bytes) MirrorEntry;
  L2_MEMBERS : gmap L2MemberKey Z;
  L2_COUNT : gmap Z Z;
  ES_DF : gmap EsDfKey Z;
  PORT_ES : gmap Z Z;
  VTEP_ES : gmap bytes Z;
  VTEP_ETREE : gmap VtepBdKey Z;
  PORT_MASTER : gmap Z Z;
  SLOT_ES : gmap Z SlotEs;
  ESI_LABEL : gmap Z Z;
  ES_NHG : gmap EsNhgKey Z;
  ES_NHG_MEMBER : gmap EsNhgMemberKey ReplTarget;
  PORT_ETREE : gmap Z Z;
  LEAF_LABEL : gmap Z Z;
  LEAF_ARG : gmap Z Z;
}.

Class PolicyMaps := mkPolicyMaps {
  IDENTITY : gmap VrfIdKey Z;
  CIDR_ID : gmap (Z * bytes) Z;
  IDENTITY6 : gmap VrfId6Key Z;
  CIDR_ID6 : gmap (Z * bytes) Z;
  EP_POLICY : gmap Z Z;
  POLICY : gmap PolicyKey Z;
}.

Class L4Maps := mkL4Maps {
  SERVICES : gmap ServiceKey ServiceInfo;
  BACKENDS : gmap BackendKey Backend;
  MASQ_CFG : option Z;
  NON_MASQ : gmap (Z * bytes) Z;
  SERVICES6 : gmap ServiceKey6 ServiceInfo;
  BACKENDS6 : gmap BackendKey Backend6;
  L7_SERVICES : gmap ServiceKey Z;
}.

(** The declared capacities of the maps the programs insert into. *)
Definition FDB_MAX : Z := 8192.
Definition CT_MAX : Z := 65536.
Definition AFFINITY_MAX : Z := 65536.
Definition PCT_MAX : Z := 65536.
Definition PCT6_MAX : Z := 65536.
Definition CT6_MAX : Z := 65536.

(** Test a [DP_CONFIG[0]] bit. *)
Definition dpc `{L3Maps} (flag : Z) : bool :=
  match DP_CONFIG with Some w => has w flag | None => false end.

Definition meta_cookie `{TunnelMaps} : Z := default 0 META_COOKIE.

(** LPM keys: [Key::new(32, addr)], and the VRF-scoped [Vrf4Key]/[Vrf6Key]
    (and [MirrorKey]) layouts. *)
Definition vrf_key (vrf_id : Z) (addr : bytes) : bytes := to_le 4 vrf_id ++ addr.

(** IEEE 802.1D reserved group addresses [01:80:c2:00:00:00]-[0f]. *)
Definition byte_at (b : bytes) (i : nat) : Z := default 0 (b !! i).

Definition is_reserved_l2 (dst : bytes) : bool :=
  (byte_at dst 0 =? 0x01) && (byte_at dst 1 =? 0x80) && (byte_at dst 2 =? 0xc2)
  && (byte_at dst 3 =? 0) && (byte_at dst 4 =? 0) && (byte_at dst 5 .& 0xf0 =? 0).

(** The group bit of a destination MAC. *)
Definition is_group_mac (dst : bytes) : bool := has (byte_at dst 0) 0x01.
