(* ===== verification/L2.v ===== *)
(** * L2 switching, EVPN multihoming and E-Tree (TC stage)

    [l2_switch], [flood] and the Ethernet Segment and E-Tree predicates of
    [crates/cradle-ebpf/src/main.rs]. *)

From S2P Require Import Prelude.
From S2P Require Import Contract.
From S2P Require Import Bpf.
From S2P Require Import Maps.

Section l2.
Context `{Kernel} `{L2Maps}.

(** [VTEP_ES], plus the leaf mark of a leaf-only E-Tree VTEP. *)
Definition vtep_bd_bits (key : VtepBdKey) : Z :=
  let es := default 0 (VTEP_ES !! vb_addr key) in
  match VTEP_ETREE !! key with
  | Some _ => es .| ES_BITS_ETREE_LEAF
  | None => es
  end.

Definition v4_mapped (s : bytes) : bytes :=
  [0; 0; 0; 0; 0; 0; 0; 0; 0; 0; 0xff; 0xff] ++ s.

Definition vtep4_es_bits (s : bytes) (bd : Z) : Z := vtep_bd_bits (mkVtepBdKey (v4_mapped s) bd).
Definition vtep6_vxlan_bits (p : bytes) (bd : Z) : Z := vtep_bd_bits (mkVtepBdKey p bd).
Definition vtep6_es_bits (p : bytes) : Z := default 0 (VTEP_ES !! p).

Definition es_df_flags (ifindex bd : Z) : Z := default 0 (ES_DF !! mkEsDfKey ifindex bd).
Definition es_non_df (oif bd : Z) : bool := has (es_df_flags oif bd) ES_DF_F_NON_DF.
Definition es_blocked (ifindex bd : Z) : bool := has (es_df_flags ifindex bd) ES_DF_F_BLOCK.

Definition es_peer_port (oif es_bits : Z) : bool :=
  match PORT_ES !! oif with
  | Some id => has es_bits (1 ≪ (id .& 63))
  | None => false
  end.

Definition etree_leaf (ifindex : Z) : bool :=
  match PORT_ETREE !! ifindex with
  | Some f => has f ETREE_F_LEAF
  | None => false
  end.

(** Does replication slot [oif] serve a copy from segment [in_es] (id + 1,
    0 = none), sent by a leaf or not? *)
Definition slot_affinity (oif in_es : Z) (from_leaf : bool) : bool :=
  match SLOT_ES !! oif with
  | Some r =>
      if has (so_etree r) SLOT_ETREE_LEAF then from_leaf
      else if from_leaf && has (so_etree r) SLOT_ETREE_ROOT then false
      else if negb (so_only r =? 0) then so_only r =? in_es
      else (in_es =? 0) || negb (has (so_skip r) (1 ≪ ((in_es - 1) .& 63)))
  | None => true
  end.

(** One flood-list member. *)
Definition flood_member (iif vlan : Z) (local_only : bool) (es_bits in_es : Z)
    (from_leaf from_remote_leaf : bool) (oif : Z) : Prog unit :=
  if slot_affinity oif in_es from_leaf && negb (oif =? iif)
     && negb (local_only && bool_decide (is_Some (REPL_SID !! oif)))
  then
    if es_non_df oif vlan then stat_inc STAT_L2_DROP_NONDF
    else if from_leaf && etree_leaf oif then stat_inc STAT_L2_DROP_ETREE_LOCAL
    else if from_remote_leaf && etree_leaf oif then stat_inc STAT_L2_DROP_ETREE_BUM
    else if negb (es_bits =? 0) && es_peer_port oif es_bits then stat_inc STAT_L2_DROP_SPH
    else clone_redirect oif
  else mret tt.

(** The slots [slot, slot + 1, ..] below [count], at most [fuel] of them. *)
Fixpoint flood_slots (fuel : nat) (slot count vlan : Z) (f : Z → Prog unit) : Prog unit :=
  match fuel with
  | O => mret tt
  | S fuel =>
      if count <=? slot then mret tt else
      _ ← match L2_MEMBERS !! mkL2MemberKey vlan slot with
          | Some oif => f oif
          | None => mret tt
          end;
      flood_slots fuel (slot + 1) count vlan f
  end.

Definition flood (iif vlan : Z) (local_only : bool) (es_bits : Z) : Prog Z :=
  _ ← stat_inc STAT_L2_FLOOD;
  let count := default 0 (L2_COUNT !! vlan) in
  let in_es := match PORT_ES !! iif with Some id => wrap 32 (id + 1) | None => 0 end in
  let from_leaf := negb local_only && etree_leaf iif in
  let from_remote_leaf := local_only && has es_bits ES_BITS_ETREE_LEAF in
  _ ← flood_slots (Z.to_nat MAX_L2_MEMBERS) 0 count vlan
        (flood_member iif vlan local_only es_bits in_es from_leaf from_remote_leaf);
  mret TC_ACT_SHOT.

(** [FDB.insert] of a locally learned station. *)
Definition fdb_learn (mac : bytes) (vlan iif : Z) : Prog unit :=
  now ← ktime_get_ns;
  modify (λ w, set_FDB (hash_insert FDB_MAX (mkFdbKey mac vlan)
                         (mkFdbEntry iif 0 (replicate 16 0) now 0) (FDB w)) w).

Definition l2_switch (iif vlan : Z) (from_overlay : bool) (es_bits : Z) : Prog Z :=
  dst ← load ETH_DST_OFF 6;
  if is_reserved_l2 dst then mret TC_ACT_OK else
  if negb from_overlay && es_blocked iif vlan then
    _ ← stat_inc STAT_L2_DROP_SA; mret TC_ACT_SHOT
  else
  _ ← (if from_overlay then mret tt else
       src ← load ETH_SRC_OFF 6; fdb_learn src vlan iif);
  if is_group_mac dst then flood iif vlan from_overlay es_bits else
  w ← get;
  match FDB w !! mkFdbKey dst vlan with
  | Some e =>
      if has (fe_flags e) FDB_F_REMOTE then flood iif vlan from_overlay es_bits else
      let oif := fe_oif e in
      if oif =? iif then mret TC_ACT_SHOT
      else if negb from_overlay && etree_leaf iif && etree_leaf oif then
        _ ← stat_inc STAT_L2_DROP_ETREE_LOCAL; mret TC_ACT_SHOT
      else if from_overlay && has es_bits ES_BITS_ETREE_LEAF && etree_leaf oif then
        _ ← stat_inc STAT_L2_DROP_ETREE_BUM; mret TC_ACT_SHOT
      else if es_blocked oif vlan then
        _ ← stat_inc STAT_L2_DROP_SA; mret TC_ACT_SHOT
      else
        _ ← stat_inc STAT_L2_FORWARD; redirect oif
  | None => flood iif vlan from_overlay es_bits
  end.
End l2.
