(* ===== verification/L2Props.v ===== *)
(** * L2 switching: the properties

    What a bridged frame can reach.  [flood] is shown equal to a declarative
    delivery set; the isolation guarantees (E-Tree, split horizon, non-DF,
    single-active, no hairpin) are stated of the whole of [l2_switch]. *)

From S2P Require Import Prelude.
From S2P Require Import Contract.
From S2P Require Import Bpf.
From S2P Require Import KernelRef.
From S2P Require Import Maps.
From S2P Require Import L2.

(** The port an effect delivers to. *)
Definition delivers_to (ev : Effect) (oif : Z) : Prop :=
  match ev with
  | Redirect o | CloneRedirect o _ | RedirectNeigh o _ _ => o = oif
  | SkAssign _ => False
  end.

Section l2_props.
Context `{Kernel} `{L2Maps}.

(** ** The flood set *)

(** The ports of a bridge domain's flood list, in slot order. *)
Definition flood_list (vlan : Z) : list Z :=
  omap (λ slot, L2_MEMBERS !! mkL2MemberKey vlan slot)
       (seqZ 0 (Z.min MAX_L2_MEMBERS (default 0 (L2_COUNT !! vlan)))).

Definition ingress_segment (iif : Z) : Z :=
  match PORT_ES !! iif with Some id => wrap 32 (id + 1) | None => 0 end.

(** Port [oif] gets a copy of a frame that entered the domain at [iif]. *)
Record flood_admits (iif vlan : Z) (overlay : bool) (es_bits oif : Z) : Prop := {
  fa_affinity : slot_affinity oif (ingress_segment iif) (negb overlay && etree_leaf iif) = true;
  fa_ingress : oif ≠ iif;
  fa_overlay : overlay = true → REPL_SID !! oif = None;
  fa_df : es_non_df oif vlan = false;
  fa_leaf : overlay = false → etree_leaf iif = true → etree_leaf oif = false;
  fa_remote_leaf : overlay = true → has es_bits ES_BITS_ETREE_LEAF = true → etree_leaf oif = false;
  fa_segment : es_bits ≠ 0 → es_peer_port oif es_bits = false;
}.

Definition flood_admitsb (iif vlan : Z) (overlay : bool) (es_bits oif : Z) : bool :=
  slot_affinity oif (ingress_segment iif) (negb overlay && etree_leaf iif)
  && negb (oif =? iif)
  && negb (overlay && bool_decide (is_Some (REPL_SID !! oif)))
  && negb (es_non_df oif vlan)
  && negb ((negb overlay && etree_leaf iif) && etree_leaf oif)
  && negb ((overlay && has es_bits ES_BITS_ETREE_LEAF) && etree_leaf oif)
  && negb (negb (es_bits =? 0) && es_peer_port oif es_bits).

Lemma flood_admitsb_spec iif vlan overlay es_bits oif :
  flood_admitsb iif vlan overlay es_bits oif = true ↔ flood_admits iif vlan overlay es_bits oif.
Proof.
  unfold flood_admitsb. rewrite !andb_true_iff, !negb_true_iff.
  rewrite !andb_false_iff, !negb_false_iff, Z.eqb_neq, bool_decide_eq_false, Z.eqb_eq.
  rewrite <- eq_None_not_Some. split.
  - intros ((((((H1 & H2) & H3) & H4) & H5) & H6) & H7). split; try done.
    + intros ->. by destruct H3.
    + intros -> Hl. rewrite Hl in H5. destruct H5 as [[]|]; done.
    + intros -> Hl. rewrite Hl in H6. destruct H6 as [[]|]; done.
    + intros. by destruct H7.
  - intros [H1 H2 H3 H4 H5 H6 H7]. repeat split; try done.
    + destruct overlay; [right; by apply H3|by left].
    + destruct overlay; [by left; left|]. destruct (etree_leaf iif); [|by left; right].
      right. by apply H5.
    + destruct overlay; [|by left; left]. destruct (has es_bits ES_BITS_ETREE_LEAF); [|by left; right].
      right. by apply H6.
    + destruct (decide (es_bits = 0)); [by left|right]. by apply H7.
Qed.

Definition flood_set (iif vlan : Z) (overlay : bool) (es_bits : Z) : list Z :=
  filter (λ oif, flood_admitsb iif vlan overlay es_bits oif = true) (flood_list vlan).

(** A world that differs in counters and in what has been sent. *)
Definition sent_more (w : World) (evs : list Effect) (w' : World) : Prop :=
  ∃ st, w' = set_stats st (set_sent (sent w ++ evs) w).

Lemma sent_more_refl w : sent_more w [] w.
Proof. exists (stats w). rewrite app_nil_r. by destruct w. Qed.

Lemma sent_more_trans w1 w2 w3 l1 l2 : sent_more w1 l1 w2 → sent_more w2 l2 w3 → sent_more w1 (l1 ++ l2) w3.
Proof. intros [s1 ->] [s2 ->]. exists s2. cbn. by rewrite app_assoc. Qed.

Lemma stat_inc_sent idx w : ∃ w', stat_inc idx w = (w', Ok tt) ∧ sent_more w [] w'.
Proof.
  destruct (stat_inc_run idx w) as [st Hr]. eexists. split; [done|].
  exists st. rewrite app_nil_r. by destruct w.
Qed.

Lemma flood_member_run iif vlan overlay es_bits oif w :
  ∃ w', flood_member iif vlan overlay es_bits (ingress_segment iif)
          (negb overlay && etree_leaf iif) (overlay && has es_bits ES_BITS_ETREE_LEAF) oif w = (w', Ok tt) ∧
    sent_more w (if flood_admitsb iif vlan overlay es_bits oif then [CloneRedirect oif (pkt w)] else []) w'.
Proof.
  unfold flood_member, flood_admitsb.
  destruct (slot_affinity _ _ _); cbn [andb]; [|exists w; split; [done|apply sent_more_refl]].
  destruct (negb (oif =? iif)); cbn [andb]; [|exists w; split; [done|apply sent_more_refl]].
  destruct (negb (overlay && _)); cbn [andb]; [|exists w; split; [done|apply sent_more_refl]].
  destruct (es_non_df oif vlan); cbn [andb negb]; [apply stat_inc_sent|].
  destruct ((negb overlay && etree_leaf iif) && etree_leaf oif); cbn [andb negb]; [apply stat_inc_sent|].
  destruct ((overlay && has es_bits ES_BITS_ETREE_LEAF) && etree_leaf oif); cbn [andb negb]; [apply stat_inc_sent|].
  destruct (negb (es_bits =? 0) && es_peer_port oif es_bits); cbn [andb negb]; [apply stat_inc_sent|].
  eexists. split; [done|]. exists (stats w). by destruct w.
Qed.

Lemma flood_slots_run vlan count (adm : Z → bool) (f : Z → Prog unit) fuel slot w :
  (∀ oif w, ∃ w', f oif w = (w', Ok tt) ∧
     sent_more w (if adm oif then [CloneRedirect oif (pkt w)] else []) w') →
  ∃ w', flood_slots fuel slot count vlan f w = (w', Ok tt) ∧
    sent_more w ((λ oif, CloneRedirect oif (pkt w)) <$>
      filter (λ oif, adm oif = true)
        (omap (λ s, L2_MEMBERS !! mkL2MemberKey vlan s) (seqZ slot (Z.min (Z.of_nat fuel) (count - slot))))) w'.
Proof.
  intros Hf. revert slot w. induction fuel as [|fuel IH]; intros slot w; cbn [flood_slots].
  { rewrite seqZ_nil by lia. exists w. split; [done|apply sent_more_refl]. }
  destruct (Z.leb_spec count slot) as [Hle|Hlt].
  { rewrite seqZ_nil by lia. exists w. split; [done|apply sent_more_refl]. }
  rewrite seqZ_cons by lia. cbn [omap list_omap].
  replace (Z.pred (Z.min (Z.of_nat (S fuel)) (count - slot)))
    with (Z.min (Z.of_nat fuel) (count - (slot + 1))) by lia.
  replace (Z.succ slot) with (slot + 1) by lia.
  destruct (L2_MEMBERS !! mkL2MemberKey vlan slot) as [oif|].
  - destruct (Hf oif w) as (w1 & Hr1 & Hs1). destruct (IH (slot + 1) w1) as (w2 & Hr2 & Hs2).
    exists w2. rewrite (bind_ok Hr1). split; [done|].
    rewrite filter_cons. destruct Hs1 as [st1 ->].
    replace (filter _ _) with (filter (λ o, adm o = true) (omap (λ s, L2_MEMBERS !! mkL2MemberKey vlan s)
      (seqZ (slot + 1) (Z.min (Z.of_nat fuel) (count - (slot + 1)))))) in * by done.
    pose proof (sent_more_trans w _ _ _ _ (ex_intro _ st1 eq_refl) Hs2) as Hs. cbn in Hs.
    destruct (adm oif); [rewrite decide_True by done|rewrite decide_False by done]; done.
  - destruct (IH (slot + 1) w) as (w2 & Hr2 & Hs2). exists w2. done.
Qed.

Lemma flood_run iif vlan overlay es_bits w :
  ∃ w', flood iif vlan overlay es_bits w = (w', Ok TC_ACT_SHOT) ∧
    sent_more w ((λ oif, CloneRedirect oif (pkt w)) <$> flood_set iif vlan overlay es_bits) w'.
Proof.
  unfold flood. destruct (stat_inc_sent STAT_L2_FLOOD w) as (w1 & Hr1 & Hs1).
  rewrite (bind_ok Hr1). cbn zeta.
  destruct (flood_slots_run vlan (default 0 (L2_COUNT !! vlan)) (flood_admitsb iif vlan overlay es_bits)
    _ (Z.to_nat MAX_L2_MEMBERS) 0 w1 (flood_member_run iif vlan overlay es_bits)) as (w2 & Hr2 & Hs2).
  exists w2. rewrite (bind_ok Hr2). split; [done|].
  pose proof (sent_more_trans _ _ _ _ _ Hs1 Hs2) as Hs. destruct Hs1 as [st ->]. cbn in Hs.
  rewrite Z.sub_0_r in Hs. exact Hs.
Qed.

(** ** The whole of [l2_switch] *)

(** Port [oif] may receive a known unicast that entered at [iif]. *)
Record unicast_admits (iif vlan : Z) (overlay : bool) (es_bits oif : Z) : Prop := {
  ua_ingress : oif ≠ iif;
  ua_leaf : overlay = false → etree_leaf iif = true → etree_leaf oif = false;
  ua_remote_leaf : overlay = true → has es_bits ES_BITS_ETREE_LEAF = true → etree_leaf oif = false;
  ua_active : es_blocked oif vlan = false;
}.

Inductive admitted (iif vlan : Z) (overlay : bool) (es_bits : Z) (p : bytes) : Effect → Prop :=
| adm_flood oif : oif ∈ flood_list vlan → flood_admits iif vlan overlay es_bits oif →
    admitted iif vlan overlay es_bits p (CloneRedirect oif p)
| adm_unicast oif : unicast_admits iif vlan overlay es_bits oif →
    admitted iif vlan overlay es_bits p (Redirect oif).

Definition emits (iif vlan : Z) (overlay : bool) (es_bits : Z) (w w' : World) : Prop :=
  pkt w' = pkt w ∧ ∃ evs, sent w' = sent w ++ evs ∧ Forall (admitted iif vlan overlay es_bits (pkt w)) evs.

Lemma emits_none iif vlan overlay es_bits w w' : sent_more w [] w' → emits iif vlan overlay es_bits w w'.
Proof. intros [st ->]. split; [done|]. by exists []. Qed.

Lemma stat_emits iif vlan overlay es_bits idx v w :
  emits iif vlan overlay es_bits w ((_ ← stat_inc idx; mret v : Prog Z) w).1.
Proof.
  destruct (stat_inc_sent idx w) as (w1 & Hr1 & Hs1). rewrite (bind_ok Hr1). by apply emits_none.
Qed.

Lemma flood_emits iif vlan overlay es_bits w :
  emits iif vlan overlay es_bits w (flood iif vlan overlay es_bits w).1.
Proof.
  destruct (flood_run iif vlan overlay es_bits w) as (w' & -> & st & ->). split; [done|].
  eexists. split; [done|]. apply Forall_fmap, Forall_forall. intros oif Hin.
  unfold flood_set in Hin. apply list_elem_of_filter in Hin as [Ha Hin].
  apply flood_admitsb_spec in Ha. by apply adm_flood.
Qed.

(** Deciding a destination once the source has been learned. *)
Let l2_switch_tail iif vlan overlay es_bits dst : Prog Z :=
    (if is_group_mac dst then flood iif vlan overlay es_bits else
      w ← get;
      match FDB w !! mkFdbKey dst vlan with
      | Some e =>
          if has (fe_flags e) FDB_F_REMOTE then flood iif vlan overlay es_bits else
          let oif := fe_oif e in
          if oif =? iif then mret TC_ACT_SHOT
          else if negb overlay && etree_leaf iif && etree_leaf oif then
            _ ← stat_inc STAT_L2_DROP_ETREE_LOCAL; mret TC_ACT_SHOT
          else if overlay && has es_bits ES_BITS_ETREE_LEAF && etree_leaf oif then
            _ ← stat_inc STAT_L2_DROP_ETREE_BUM; mret TC_ACT_SHOT
          else if es_blocked oif vlan then
            _ ← stat_inc STAT_L2_DROP_SA; mret TC_ACT_SHOT
          else _ ← stat_inc STAT_L2_FORWARD; redirect oif
      | None => flood iif vlan overlay es_bits
      end).

Lemma forward_emits iif vlan overlay es_bits dst w :
  emits iif vlan overlay es_bits w (l2_switch_tail iif vlan overlay es_bits dst w).1.
Proof.
  unfold l2_switch_tail. destruct (is_group_mac dst); [apply flood_emits|].
  rewrite bind_run. cbn [get]. destruct (FDB w !! _) as [e|]; [|apply flood_emits].
  destruct (has (fe_flags e) FDB_F_REMOTE); [apply flood_emits|]. cbn zeta.
  destruct (Z.eqb_spec (fe_oif e) iif) as [Heq|Hne]; [apply emits_none, sent_more_refl|].
  destruct (negb overlay && etree_leaf iif && etree_leaf (fe_oif e)) eqn:E1; [apply stat_emits|].
  destruct (overlay && has es_bits ES_BITS_ETREE_LEAF && etree_leaf (fe_oif e)) eqn:E2; [apply stat_emits|].
  destruct (es_blocked (fe_oif e) vlan) eqn:E3; [apply stat_emits|].
  destruct (stat_inc_sent STAT_L2_FORWARD w) as (w1 & Hr1 & st & ->). rewrite (bind_ok Hr1).
  split; [done|]. exists [Redirect (fe_oif e)]. cbn. rewrite app_nil_r. split; [done|].
  apply Forall_singleton, adm_unicast. split; try done.
  - intros -> Hl. by rewrite Hl in E1.
  - intros -> Hl. by rewrite Hl in E2.
Qed.

Lemma tail_keeps_fdb iif vlan overlay es_bits dst w :
  FDB (l2_switch_tail iif vlan overlay es_bits dst w).1 = FDB w.
Proof.
  assert (FDB (flood iif vlan overlay es_bits w).1 = FDB w) as Hf.
  { destruct (flood_run iif vlan overlay es_bits w) as (w' & -> & st & ->). done. }
  assert (∀ idx (k : Prog Z), (∀ w, FDB (k w).1 = FDB w) → FDB ((_ ← stat_inc idx; k) w).1 = FDB w) as Hst.
  { intros idx k Hk. destruct (stat_inc_run idx w) as [st Hr]. by rewrite (bind_ok Hr), Hk. }
  unfold l2_switch_tail. destruct (is_group_mac dst); [done|].
  rewrite bind_run. cbn [get]. destruct (FDB w !! _) as [e|]; [|done].
  repeat case_match; done || by apply Hst.
Qed.

Lemma emits_learn iif vlan overlay es_bits w w1 w2 :
  pkt w1 = pkt w → sent w1 = sent w → emits iif vlan overlay es_bits w1 w2 → emits iif vlan overlay es_bits w w2.
Proof. intros Hp Hs [Hp2 (evs & Hs2 & Hf)]. split; [congruence|]. exists evs. by rewrite Hs2, Hs, <- Hp. Qed.

Lemma load_keeps off n w : (load off n w).1 = w.
Proof. unfold load. rewrite bind_run. cbn. by destruct (skb_load_bytes (pkt w) off n). Qed.

Lemma l2_switch_emits iif vlan overlay es_bits w :
  emits iif vlan overlay es_bits w (l2_switch iif vlan overlay es_bits w).1.
Proof.
  unfold l2_switch. rewrite bind_run. pose proof (load_keeps ETH_DST_OFF 6 w) as Hk.
  destruct (load ETH_DST_OFF 6 w) as [w0 [dst|]]; cbn in Hk; subst w0; [|apply emits_none, sent_more_refl].
  destruct (is_reserved_l2 dst); [apply emits_none, sent_more_refl|].
  destruct (negb overlay && es_blocked iif vlan); [apply stat_emits|].
  rewrite bind_run. destruct overlay.
  - cbn [mret M_ret]. apply (forward_emits iif vlan true es_bits dst).
  - rewrite bind_run. pose proof (load_keeps ETH_SRC_OFF 6 w) as Hk.
    destruct (load ETH_SRC_OFF 6 w) as [w0 [src|]]; cbn in Hk; subst w0; [|apply emits_none, sent_more_refl].
    eapply emits_learn; [| |apply (forward_emits iif vlan false es_bits dst)]; done.
Qed.

(** C6. The flood set: [flood] transmits an unmodified copy to exactly the
    members of the bridge domain's flood list that the delivery rules
    admit, in slot order, drops the original, and touches nothing but the
    counters. The rules are: the replication slot serves this ingress
    segment, the port is not the ingress port, an overlay frame does not
    re-enter an overlay slot, this PE is the segment's Designated
    Forwarder, no leaf-to-leaf copy, and no copy to a segment the overlay
    source shares. *)
Theorem flood_exact iif vlan overlay es_bits w :
  ∃ w' ports, flood iif vlan overlay es_bits w = (w', Ok TC_ACT_SHOT) ∧
    sent w' = sent w ++ ((λ oif, CloneRedirect oif (pkt w)) <$> ports) ∧
    ports `sublist_of` flood_list vlan ∧
    (∀ oif, oif ∈ ports ↔ oif ∈ flood_list vlan ∧ flood_admits iif vlan overlay es_bits oif) ∧
    pkt w' = pkt w ∧ FDB w' = FDB w.
Proof.
  destruct (flood_run iif vlan overlay es_bits w) as (w' & Hrun & st & ->).
  exists (set_stats st (set_sent (sent w ++ ((λ oif, CloneRedirect oif (pkt w)) <$> flood_set iif vlan overlay es_bits)) w)),
    (flood_set iif vlan overlay es_bits).
  split; [done|]. split; [done|]. split; [apply sublist_filter|]. split; [|done].
  intros oif. unfold flood_set. rewrite list_elem_of_filter, flood_admitsb_spec. tauto.
Qed.

(** C7. E-Tree isolation (RFC 8317): nothing a leaf sends reaches a leaf.
    Whatever [l2_switch] does with a frame from a local leaf port, or with
    an overlay frame marked as a remote leaf's, no copy and no redirect
    goes to a leaf port. *)
Theorem etree_isolation iif vlan overlay es_bits w w' r oif ev :
  l2_switch iif vlan overlay es_bits w = (w', r) →
  (overlay = false ∧ etree_leaf iif = true ∨
   overlay = true ∧ has es_bits ES_BITS_ETREE_LEAF = true) →
  ev ∈ drop (length (sent w)) (sent w') → delivers_to ev oif → etree_leaf oif = false.
Proof.
  intros Hrun Hleaf Hev Hdel. pose proof (l2_switch_emits iif vlan overlay es_bits w) as [_ (evs & Hs & Hf)].
  rewrite Hrun in Hs. cbn in Hs. rewrite Hs, drop_app_length in Hev.
  rewrite Forall_forall in Hf. destruct (Hf ev Hev) as [o _ Ha|o Ha]; cbn in Hdel; subst o; destruct Ha, Hleaf as [[]|[]]; auto.
Qed.

(** No hairpin and segment isolation: nothing leaves through the
    ingress port; and where the control plane marks a standby segment port
    both blocked and non-DF (as it does), no frame reaches that port. *)
Theorem l2_no_hairpin iif vlan overlay es_bits w w' r oif ev :
  l2_switch iif vlan overlay es_bits w = (w', r) →
  ev ∈ drop (length (sent w)) (sent w') → delivers_to ev oif →
  oif ≠ iif ∧ ((es_blocked oif vlan = true → es_non_df oif vlan = true) → es_blocked oif vlan = false).
Proof.
  intros Hrun Hev Hdel. pose proof (l2_switch_emits iif vlan overlay es_bits w) as [_ (evs & Hs & Hf)].
  rewrite Hrun in Hs. cbn in Hs. rewrite Hs, drop_app_length in Hev.
  rewrite Forall_forall in Hf. destruct (Hf ev Hev) as [o _ Ha|o Ha]; cbn in Hdel; subst o; destruct Ha; (split; [done|]); intros Hb.
  - destruct (es_blocked oif vlan); [|done]. rewrite Hb in fa_df0; done.
  - done.
Qed.

(** C9. Learning: an overlay frame never changes the FDB; a frame from a
    blocked single-active port is neither learned nor forwarded; every
    other local frame that is not link-local control is learned on its
    ingress port, whatever then happens to it. *)
Theorem l2_learning `{!KernelLaws} iif vlan overlay es_bits w dst src :
  rd (pkt w) ETH_DST_OFF 6 = Some dst → rd (pkt w) ETH_SRC_OFF 6 = Some src →
  let w' := (l2_switch iif vlan overlay es_bits w).1 in
  if overlay || is_reserved_l2 dst then FDB w' = FDB w
  else if es_blocked iif vlan then FDB w' = FDB w ∧ sent w' = sent w
  else ∃ now, FDB w' = hash_insert FDB_MAX (mkFdbKey src vlan)
                         (mkFdbEntry iif 0 (replicate 16 0) now 0) (FDB w).
Proof.
  intros Hd Hs. cbn zeta.
  assert (∀ overlay w, FDB (l2_switch_tail iif vlan overlay es_bits dst w).1 = FDB w) as Htail.
  { clear. intros overlay w. apply tail_keeps_fdb. }
  unfold l2_switch. rewrite bind_run, (load_run _ _ _ _ Hd) by lia.
  destruct (is_reserved_l2 dst); [by rewrite orb_true_r|]. rewrite orb_false_r.
  destruct overlay; cbn [negb andb].
  { rewrite bind_run. cbn [mret M_ret]. apply Htail. }
  destruct (es_blocked iif vlan).
  { destruct (stat_inc_run STAT_L2_DROP_SA w) as [st Hr]. by rewrite (bind_ok Hr). }
  rewrite bind_run, bind_run, (load_run _ _ _ _ Hs) by lia.
  eexists. cbn [fdb_learn]. etransitivity; [apply Htail|]. done.
Qed.
End l2_props.

(** ** Witnesses

    Bridge domain 10 with ports 1 (root), 2 and 3 (leaves), 4 (a standby
    single-active segment port) and 9 (an overlay replication slot). *)

#[local] Instance sample_l2 : L2Maps :=
  mkL2Maps {[9 := mkReplTarget 1 100 [] 0]} ∅ ∅ ∅ ∅ ∅
    {[mkL2MemberKey 10 0 := 1; mkL2MemberKey 10 1 := 2; mkL2MemberKey 10 2 := 3;
      mkL2MemberKey 10 3 := 4; mkL2MemberKey 10 4 := 9]}
    {[10 := 5]} {[mkEsDfKey 4 10 := ES_DF_F_NON_DF + ES_DF_F_BLOCK]} {[4 := 7]}
    ∅ ∅ ∅ ∅ ∅ ∅ ∅ {[2 := ETREE_F_LEAF; 3 := ETREE_F_LEAF]} ∅ ∅.

(** A broadcast frame from station [02:00:00:00:00:05]. *)
Definition bcast_frame : bytes :=
  [255; 255; 255; 255; 255; 255; 2; 0; 0; 0; 0; 5; 8; 6] ++ replicate 46 0.

Lemma etree_isolation_witness :
  let w := world_of bcast_frame in
  let run := l2_switch 2 10 false 0 w in
  sent run.1 = [CloneRedirect 1 bcast_frame; CloneRedirect 9 bcast_frame] ∧
  etree_leaf 2 = true ∧
  ∀ oif ev, ev ∈ drop (length (sent w)) (sent run.1) → delivers_to ev oif → etree_leaf oif = false.
Proof.
  cbn zeta. split; [vm_compute; reflexivity|]. split; [vm_compute; reflexivity|].
  intros oif ev. apply (etree_isolation 2 10 false 0 (world_of bcast_frame)
    (l2_switch 2 10 false 0 (world_of bcast_frame)).1 (l2_switch 2 10 false 0 (world_of bcast_frame)).2).
  - apply surjective_pairing.
  - left. split; [reflexivity|vm_compute; reflexivity].
Defined.

Lemma l2_no_hairpin_witness :
  let w := world_of bcast_frame in
  let run := l2_switch 1 10 false 0 w in
  ∃ ev, ev ∈ drop (length (sent w)) (sent run.1) ∧ delivers_to ev 2 ∧
  2 ≠ 1 ∧ ((es_blocked 2 10 = true → es_non_df 2 10 = true) → es_blocked 2 10 = false).
Proof.
  cbn zeta. set (run := l2_switch 1 10 false 0 (world_of bcast_frame)).
  assert (sent run.1 = [CloneRedirect 2 bcast_frame; CloneRedirect 3 bcast_frame; CloneRedirect 9 bcast_frame])
    as Hs by (vm_compute; reflexivity).
  exists (CloneRedirect 2 bcast_frame). rewrite Hs. split; [by left|]. split; [reflexivity|].
  apply (l2_no_hairpin 1 10 false 0 (world_of bcast_frame) run.1 run.2 2 (CloneRedirect 2 bcast_frame)).
  - apply surjective_pairing.
  - rewrite Hs. by left.
  - reflexivity.
Defined.

Lemma l2_learning_witness :
  let w := world_of bcast_frame in
  let w' := (l2_switch 1 10 false 0 w).1 in
  ∃ now, FDB w' = hash_insert FDB_MAX (mkFdbKey [2; 0; 0; 0; 0; 5] 10)
                    (mkFdbEntry 1 0 (replicate 16 0) now 0) (FDB w).
Proof.
  exact (l2_learning 1 10 false 0 (world_of bcast_frame) [255; 255; 255; 255; 255; 255] [2; 0; 0; 0; 0; 5]
    ltac:(vm_compute; reflexivity) ltac:(vm_compute; reflexivity)).
Defined.
