(* ===== verification/Policy.v ===== *)
(** * Network policy (TC stage)

    Flow records, policy connection tracking, the policy verdict and the
    ingress enforcement point of [crates/cradle-ebpf/src/main.rs]:
    [emit_flow_v4], [pct_track], [policy_denied] with their v6 siblings, and
    [ingress_policy] of [cradle_egress]. *)

From S2P Require Import Prelude.
From S2P Require Import Contract.
From S2P Require Import Bpf.
From S2P Require Import Maps.

(** Most-specific-first probe patterns: bit 0 any identity, bit 1 any
    protocol, bit 2 any port. *)
Definition POLICY_PATS : list Z := [0; 4; 6; 1; 5; 7].

Definition dir_gen (ep_flags dir : Z) : Z :=
  dir .| (if has ep_flags EP_F_GEN then POLICY_KEY_GEN else 0).

Definition is_l4 (proto : Z) : bool := (proto =? IPPROTO_TCP) || (proto =? IPPROTO_UDP).

(** [let Ok(..) = .. else { return }] on an optional result. *)
Definition unwrap_or {A} (d : A) (m : Prog A) : Prog A := default d <$> catch m.

Section policy.
Context `{Kernel} `{FibMaps} `{PolicyMaps}.

Definition emit_flow_v4 (verdict dir ep peer_identity : Z) : Prog unit :=
  saddr ← catch (load IP_SRC_OFF 4);
  daddr ← catch (load IP_DST_OFF 4);
  proto ← catch (load_ne 1 IP_PROTO_OFF);
  match saddr, daddr, proto with
  | Some saddr, Some daddr, Some proto =>
      ver_ihl ← unwrap_or 0 (load_ne 1 IP_VER_IHL_OFF);
      '(sport, dport) ←
        (if is_l4 proto && (ver_ihl .& 0x0f =? 5) then
           sport ← unwrap_or 0 (load_ne 2 L4_OFF);
           dport ← unwrap_or 0 (load_ne 2 (L4_OFF + 2));
           mret (sport, dport)
         else mret (0, 0));
      n ← tick;
      if ring_reserve n then
        now ← ktime_get_ns;
        modify (λ w, set_FLOWS (FLOWS w ++
          [mkFlowRecord now ep saddr daddr sport dport proto verdict dir peer_identity]) w)
      else mret tt
  | _, _, _ => mret tt
  end.

(** ** Connection tracking *)

Definition pct_track (val : Z) : Prog unit :=
  ethertype ← load_be 2 ETH_TYPE_OFF;
  if negb (ethertype =? ETH_P_IP) then mret tt else
  ver_ihl ← load_ne 1 IP_VER_IHL_OFF;
  if negb (ver_ihl .& 0x0f =? 5) then mret tt else
  proto ← load_ne 1 IP_PROTO_OFF;
  if negb (is_l4 proto) then mret tt else
  src ← load_ne 4 IP_SRC_OFF;
  dst ← load_ne 4 IP_DST_OFF;
  sport ← load_ne 2 L4_OFF;
  dport ← load_ne 2 (L4_OFF + 2);
  modify (λ w, set_PCT (lru_insert PCT_MAX (mkCtKey src dst sport dport proto) val (PCT w)) w).

Definition pct_track6 (val : Z) : Prog unit :=
  ethertype ← load_be 2 ETH_TYPE_OFF;
  if negb (ethertype =? ETH_P_IPV6) then mret tt else
  proto ← load_ne 1 IP6_NEXTHDR_OFF;
  if negb (is_l4 proto) then mret tt else
  src ← load IP6_SRC_OFF 16;
  dst ← load IP6_DST_OFF 16;
  sport ← load_ne 2 IP6_L4_OFF;
  dport ← load_ne 2 (IP6_L4_OFF + 2);
  modify (λ w, set_PCT6 (lru_insert PCT6_MAX (mkCtKey6 src dst sport dport proto) val (PCT6 w)) w).

(** ** The verdict *)

Definition policy_key (ep identity dport proto dir pat : Z) : PolicyKey :=
  mkPolicyKey ep (if has pat 1 then 0 else identity) (if has pat 4 then 0 else dport)
    (if has pat 2 then 0 else proto) dir.

(** The probe loop: denied on the first deny hit, else denied unless some
    probe hit. *)
Fixpoint policy_walk (key : Z → PolicyKey) (pats : list Z) (allowed : bool) : bool :=
  match pats with
  | [] => negb allowed
  | pat :: pats =>
      match POLICY !! key pat with
      | Some v => if v =? POLICY_DENY then true else policy_walk key pats true
      | None => policy_walk key pats allowed
      end
  end.

(** The peer's identity: its exact binding, else its longest CIDR, else world. *)
Definition identity4 (vrf peer : Z) : Z :=
  match IDENTITY !! mkVrfIdKey vrf peer with
  | Some id => id
  | None => default IDENTITY_WORLD (lpm_get CIDR_ID (vrf_key vrf (to_le 4 peer)))
  end.

Definition identity6 (vrf : Z) (peer : bytes) : Z :=
  match IDENTITY6 !! mkVrfId6Key vrf peer with
  | Some id => id
  | None => default IDENTITY_WORLD (lpm_get CIDR_ID6 (vrf_key vrf peer))
  end.

Definition policy_denied_v6 (ep dir vrf : Z) : Prog bool :=
  proto ← load_ne 1 IP6_NEXTHDR_OFF;
  '(sport, dport) ←
    (if is_l4 proto then
       sport ← load_ne 2 IP6_L4_OFF; dport ← load_ne 2 (IP6_L4_OFF + 2); mret (sport, dport)
     else mret (0, 0));
  ksrc ← load IP6_DST_OFF 16;
  kdst ← load IP6_SRC_OFF 16;
  w ← get;
  if bool_decide (is_Some (PCT6 w !! mkCtKey6 ksrc kdst dport sport proto)) then mret false else
  let peer := if has dir POLICY_DIR_EGRESS then ksrc else kdst in
  let identity := identity6 vrf peer in
  _ ← modify (set_peer_id identity);
  mret (policy_walk (policy_key ep identity dport proto dir) POLICY_PATS false).

Definition policy_denied (ep dir vrf : Z) : Prog bool :=
  proto ← load_ne 1 IP_PROTO_OFF;
  src ← load_ne 4 IP_SRC_OFF;
  dst ← load_ne 4 IP_DST_OFF;
  ver_ihl ← load_ne 1 IP_VER_IHL_OFF;
  '(sport, dport) ←
    (if is_l4 proto && (ver_ihl .& 0x0f =? 5) then
       sport ← load_ne 2 L4_OFF; dport ← load_ne 2 (L4_OFF + 2); mret (sport, dport)
     else mret (0, 0));
  w ← get;
  if bool_decide (is_Some (PCT w !! mkCtKey dst src dport sport proto)) then mret false else
  let peer := if has dir POLICY_DIR_EGRESS then dst else src in
  let identity := identity4 vrf peer in
  _ ← modify (set_peer_id identity);
  mret (policy_walk (policy_key ep identity dport proto dir) POLICY_PATS false).

(** ** Ingress enforcement, at the endpoint veth's TC egress hook *)

Definition ingress_policy (ifindex : Z) : Prog Z :=
  match EP_POLICY !! ifindex with
  | None => mret TC_ACT_PIPE
  | Some ep_flags =>
      let vrf := match PORTS !! ifindex with Some p => pc_vrf_id p | None => 0 end in
      ethertype ← load_be 2 ETH_TYPE_OFF;
      if ethertype =? ETH_P_IP then
        denied ← (if has ep_flags EP_F_INGRESS
                  then unwrap_or true (policy_denied ifindex (dir_gen ep_flags POLICY_DIR_INGRESS) vrf)
                  else mret false);
        w ← get;
        drop ← (if (denied : bool) then
                  if has ep_flags EP_F_AUDIT then
                    _ ← stat_inc STAT_POLICY_AUDIT;
                    _ ← emit_flow_v4 FLOW_AUDITED FLOW_DIR_INGRESS ifindex (peer_id w);
                    mret false
                  else
                    _ ← stat_inc STAT_POLICY_DROP;
                    _ ← emit_flow_v4 FLOW_DROPPED FLOW_DIR_INGRESS ifindex (peer_id w);
                    mret true
                else mret false);
        if (drop : bool) then mret TC_ACT_SHOT else
        _ ← (if has ep_flags EP_F_EGRESS then _ ← catch (pct_track PCT_INBOUND); mret tt else mret tt);
        mret TC_ACT_PIPE
      else if ethertype =? ETH_P_IPV6 then
        denied ← (if has ep_flags EP_F_INGRESS
                  then unwrap_or true (policy_denied_v6 ifindex (dir_gen ep_flags POLICY_DIR_INGRESS) vrf)
                  else mret false);
        drop ← (if (denied : bool) then
                  if has ep_flags EP_F_AUDIT then _ ← stat_inc STAT_POLICY_AUDIT; mret false
                  else _ ← stat_inc STAT_POLICY_DROP; mret true
                else mret false);
        if (drop : bool) then mret TC_ACT_SHOT else
        _ ← (if has ep_flags EP_F_EGRESS then _ ← catch (pct_track6 PCT_INBOUND); mret tt else mret tt);
        mret TC_ACT_PIPE
      else mret TC_ACT_PIPE
  end.
End policy.
