(* ===== verification/PolicyProps.v ===== *)
(** * Network policy: the properties

    The verdict of [policy_denied] is the declarative one (a reply is
    admitted; else a deny at any specificity wins over every allow, and no
    matching rule denies), a recorded flow's replies pass, and
    [ingress_policy] drops exactly what an enforcing endpoint's rules deny. *)

From S2P Require Import Prelude.
From S2P Require Import Contract.
From S2P Require Import Bpf.
From S2P Require Import Frames.
From S2P Require Import KernelRef.
From S2P Require Import Maps.
From S2P Require Import Policy.

(** ** The flow a packet belongs to *)

(** The 5-tuple the verdict is taken on: ports are 0 where they cannot be
    read off (other protocols, IPv4 options). *)
Definition flow4 (p : bytes) : option CtKey :=
  proto ← rd p IP_PROTO_OFF 1;
  src ← rd p IP_SRC_OFF 4;
  dst ← rd p IP_DST_OFF 4;
  vihl ← rd p IP_VER_IHL_OFF 1;
  if is_l4 (of_le proto) && (of_le vihl .& 0x0f =? 5) then
    sport ← rd p L4_OFF 2;
    dport ← rd p (L4_OFF + 2) 2;
    Some (mkCtKey (of_le src) (of_le dst) (of_le sport) (of_le dport) (of_le proto))
  else Some (mkCtKey (of_le src) (of_le dst) 0 0 (of_le proto)).

Definition flow6 (p : bytes) : option CtKey6 :=
  proto ← rd p IP6_NEXTHDR_OFF 1;
  if is_l4 (of_le proto) then
    sport ← rd p IP6_L4_OFF 2;
    dport ← rd p (IP6_L4_OFF + 2) 2;
    dst ← rd p IP6_DST_OFF 16;
    src ← rd p IP6_SRC_OFF 16;
    Some (mkCtKey6 src dst (of_le sport) (of_le dport) (of_le proto))
  else
    dst ← rd p IP6_DST_OFF 16;
    src ← rd p IP6_SRC_OFF 16;
    Some (mkCtKey6 src dst 0 0 (of_le proto)).

Definition reverse4 (k : CtKey) : CtKey :=
  mkCtKey (ct_dst k) (ct_src k) (ct_dst_port k) (ct_src_port k) (ct_proto k).
Definition reverse6 (k : CtKey6) : CtKey6 :=
  mkCtKey6 (ct6_dst k) (ct6_src k) (ct6_dst_port k) (ct6_src_port k) (ct6_proto k).

Section policy_props.
Context `{KernelLaws} `{FibMaps} `{PolicyMaps}.

(** ** The rules that match *)

(** The rules of endpoint [ep] that match a peer, port and protocol: any
    field may be a wildcard, a port only counts with its protocol. *)
Definition matching_rules (ep identity dport proto dir : Z) : list PolicyKey :=
  [ mkPolicyKey ep identity dport proto dir; mkPolicyKey ep identity 0 proto dir;
    mkPolicyKey ep identity 0 0 dir; mkPolicyKey ep 0 dport proto dir;
    mkPolicyKey ep 0 0 proto dir; mkPolicyKey ep 0 0 0 dir ].

(** Some rule matches and none of the matching ones denies. *)
Definition policy_allows (ep identity dport proto dir : Z) : Prop :=
  Exists (λ k, is_Some (POLICY !! k)) (matching_rules ep identity dport proto dir) ∧
  Forall (λ k, POLICY !! k ≠ Some POLICY_DENY) (matching_rules ep identity dport proto dir).

#[global] Instance policy_allows_dec ep identity dport proto dir :
  Decision (policy_allows ep identity dport proto dir).
Proof. unfold policy_allows. apply _. Defined.

Lemma matching_rules_pats ep identity dport proto dir :
  policy_key ep identity dport proto dir <$> POLICY_PATS = matching_rules ep identity dport proto dir.
Proof. done. Qed.

Lemma policy_walk_spec key pats allowed :
  policy_walk key pats allowed = false ↔
    (allowed = true ∨ Exists (λ k, is_Some (POLICY !! k)) (key <$> pats)) ∧
    Forall (λ k, POLICY !! k ≠ Some POLICY_DENY) (key <$> pats).
Proof.
  revert allowed. induction pats as [|p pats IH]; intros allowed; cbn [policy_walk fmap list_fmap].
  - rewrite negb_false_iff, Exists_nil. naive_solver.
  - rewrite Exists_cons, Forall_cons. destruct (POLICY !! key p) as [v|] eqn:E.
    + destruct (Z.eqb_spec v POLICY_DENY) as [->|Hv].
      * naive_solver.
      * rewrite IH. assert (is_Some (Some v)) by done. naive_solver.
    + rewrite IH. split.
      * intros [[?|?] ?]; split_and!; auto; done.
      * intros [[?|[[? ?]|?]] [? ?]]; split_and!; auto; done.
Qed.

Lemma policy_walk_denied ep identity dport proto dir :
  policy_walk (policy_key ep identity dport proto dir) POLICY_PATS false = false ↔
  policy_allows ep identity dport proto dir.
Proof.
  rewrite policy_walk_spec, matching_rules_pats. unfold policy_allows. naive_solver.
Qed.

(** ** The verdict *)

(** What the maps say of a flow at endpoint [ep]. *)
Definition admits4 (pct : gmap CtKey Z) (ep dir vrf : Z) (k : CtKey) : Prop :=
  is_Some (pct !! reverse4 k) ∨
  policy_allows ep (identity4 vrf (if has dir POLICY_DIR_EGRESS then ct_dst k else ct_src k))
    (ct_dst_port k) (ct_proto k) dir.
Definition admits6 (pct : gmap CtKey6 Z) (ep dir vrf : Z) (k : CtKey6) : Prop :=
  is_Some (pct !! reverse6 k) ∨
  policy_allows ep (identity6 vrf (if has dir POLICY_DIR_EGRESS then ct6_dst k else ct6_src k))
    (ct6_dst_port k) (ct6_proto k) dir.

Lemma load_eq off n w : 0 < n →
  load off n w = match rd (pkt w) off n with Some b => (w, Ok b) | None => (w, Err tt) end.
Proof.
  intros Hn. unfold load. rewrite bind_run. cbn [get]. rewrite load_spec by done.
  by destruct (rd _ _ _).
Qed.

Lemma load_ne_eq n off w : 0 < n →
  load_ne n off w = match rd (pkt w) off n with Some b => (w, Ok (of_le b)) | None => (w, Err tt) end.
Proof.
  intros Hn. unfold load_ne, fmap, M_fmap. rewrite load_eq by done. by destruct (rd _ _ _).
Qed.

Ltac load_case :=
  rewrite bind_run; first [rewrite load_ne_eq by lia | rewrite load_eq by lia];
  match goal with |- context [rd ?p ?off ?n] => destruct (rd p off n) eqn:?; cbn [mbind option_bind]; [|by eauto] end.

(** The common tail: conntrack, then the walk for the peer's identity. *)
Lemma verdict_run (hit : World → Prop) `{!∀ w, Decision (hit w)} i ep dport proto dir w :
  ∃ w' b,
    (w ← get; if bool_decide (hit w) then mret false else
     _ ← (modify (set_peer_id i) : Prog unit);
     mret (policy_walk (policy_key ep i dport proto dir) POLICY_PATS false)) w = (w', Ok b) ∧
    (w' = w ∨ ∃ i, w' = set_peer_id i w) ∧
    (b = false ↔ hit w ∨ policy_allows ep i dport proto dir).
Proof.
  destruct (decide (hit w)) as [Hh|Hh].
  - exists w, false. split; [|naive_solver]. rewrite bind_run. cbn [get].
    by rewrite bool_decide_true.
  - eexists _, _. split; [|split].
    + rewrite bind_run. cbn [get]. rewrite bool_decide_false by done. reflexivity.
    + by right; eexists.
    + rewrite policy_walk_denied. naive_solver.
Qed.

(** The verdict, and the peer identity it leaves for the flow record. *)
Lemma policy_denied_run ep dir vrf w :
  match flow4 (pkt w) with
  | None => policy_denied ep dir vrf w = (w, Err tt)
  | Some k => ∃ w' b, policy_denied ep dir vrf w = (w', Ok b) ∧
      (w' = w ∨ ∃ i, w' = set_peer_id i w) ∧ (b = false ↔ admits4 (PCT w) ep dir vrf k)
  end.
Proof.
  unfold flow4, policy_denied, admits4, reverse4.
  do 4 load_case. destruct (is_l4 _ && _).
  - do 2 (rewrite bind_assoc; load_case). apply (verdict_run (λ w, is_Some (PCT w !! _))).
  - apply (verdict_run (λ w, is_Some (PCT w !! _))).
Qed.

Lemma policy_denied_v6_run ep dir vrf w :
  match flow6 (pkt w) with
  | None => policy_denied_v6 ep dir vrf w = (w, Err tt)
  | Some k => ∃ w' b, policy_denied_v6 ep dir vrf w = (w', Ok b) ∧
      (w' = w ∨ ∃ i, w' = set_peer_id i w) ∧ (b = false ↔ admits6 (PCT6 w) ep dir vrf k)
  end.
Proof.
  unfold flow6, policy_denied_v6, admits6, reverse6.
  load_case. destruct (is_l4 _).
  - do 2 (rewrite bind_assoc; load_case). rewrite bind_ret. do 2 load_case.
    apply (verdict_run (λ w, is_Some (PCT6 w !! _))).
  - rewrite bind_ret. do 2 load_case. apply (verdict_run (λ w, is_Some (PCT6 w !! _))).
Qed.

(** A denial leaves the identity the rules were matched against. *)
Lemma denied_identity ep dir vrf w w' k : flow4 (pkt w) = Some k → policy_denied ep dir vrf w = (w', Ok true) →
  w' = set_peer_id (identity4 vrf (if has dir POLICY_DIR_EGRESS then ct_dst k else ct_src k)) w.
Proof.
  unfold flow4, policy_denied.
  intros (proto & Hpr & (src & Hs & (dst & Hd & (vi & Hvi & Hk)%bind_Some)%bind_Some)%bind_Some)%bind_Some.
  rewrite (bind_ok (load_ne_run 1 _ _ _ Hpr ltac:(lia))), (bind_ok (load_ne_run 4 _ _ _ Hs ltac:(lia))).
  rewrite (bind_ok (load_ne_run 4 _ _ _ Hd ltac:(lia))), (bind_ok (load_ne_run 1 _ _ _ Hvi ltac:(lia))).
  destruct (is_l4 _ && _).
  - apply bind_Some in Hk as (sp & Hsp & (dp & Hdp & [= <-])%bind_Some).
    rewrite bind_assoc, (bind_ok (load_ne_run 2 _ _ _ Hsp ltac:(lia))).
    rewrite bind_assoc, (bind_ok (load_ne_run 2 _ _ _ Hdp ltac:(lia))).
    rewrite bind_ret, bind_run. cbn [get]. by case_bool_decide; intros [= <-].
  - injection Hk as <-. rewrite bind_ret, bind_run. cbn [get]. by case_bool_decide; intros [= <-].
Qed.

(** ** Enforcement *)

Definition denies4 (w : World) (ep dir vrf : Z) : Prop :=
  ∀ k, flow4 (pkt w) = Some k → ¬ admits4 (PCT w) ep dir vrf k.
Definition denies6 (w : World) (ep dir vrf : Z) : Prop :=
  ∀ k, flow6 (pkt w) = Some k → ¬ admits6 (PCT6 w) ep dir vrf k.

(** [has(..) && policy_denied(..).unwrap_or(true)] *)
Lemma enforced_run (on : bool) ep dir vrf w :
  ∃ w' d, (if on then unwrap_or true (policy_denied ep dir vrf) else mret false) w = (w', Ok d) ∧
    (w' = w ∨ ∃ i, w' = set_peer_id i w) ∧ (d = true ↔ on = true ∧ denies4 w ep dir vrf).
Proof.
  destruct on; [|exists w, false; naive_solver].
  pose proof (policy_denied_run ep dir vrf w) as Hp. unfold unwrap_or, fmap, M_fmap, catch, denies4.
  destruct (flow4 (pkt w)) as [k|].
  - destruct Hp as (w' & b & -> & Hw & Hb). exists w', b. split_and!; [done..|].
    destruct b; naive_solver.
  - rewrite Hp. exists w, true. naive_solver.
Qed.

Lemma enforced_identity (on : bool) ep dir vrf w w' k : flow4 (pkt w) = Some k →
  (if on then unwrap_or true (policy_denied ep dir vrf) else mret false) w = (w', Ok true) →
  w' = set_peer_id (identity4 vrf (if has dir POLICY_DIR_EGRESS then ct_dst k else ct_src k)) w.
Proof.
  intros Hk. destruct on; [|done]. pose proof (policy_denied_run ep dir vrf w) as Hp. rewrite Hk in Hp.
  destruct Hp as (w1 & b & E & _ & _). unfold unwrap_or, fmap, M_fmap, catch. rewrite E. cbn. intros [= -> ->].
  by apply (denied_identity ep dir vrf w).
Qed.

Lemma enforced6_run (on : bool) ep dir vrf w :
  ∃ w' d, (if on then unwrap_or true (policy_denied_v6 ep dir vrf) else mret false) w = (w', Ok d) ∧
    (w' = w ∨ ∃ i, w' = set_peer_id i w) ∧ (d = true ↔ on = true ∧ denies6 w ep dir vrf).
Proof.
  destruct on; [|exists w, false; naive_solver].
  pose proof (policy_denied_v6_run ep dir vrf w) as Hp. unfold unwrap_or, fmap, M_fmap, catch, denies6.
  destruct (flow6 (pkt w)) as [k|].
  - destruct Hp as (w' & b & -> & Hw & Hb). exists w', b. split_and!; [done..|].
    destruct b; naive_solver.
  - rewrite Hp. exists w, true. naive_solver.
Qed.

Lemma total_emit_flow v d ep pid : total (emit_flow_v4 v d ep pid).
Proof. unfold emit_flow_v4, unwrap_or. total. Qed.

Lemma keeps_policy_denied {X} (g : World → X) ep dir vrf :
  (∀ x w, g (set_peer_id x w) = g w) → keeps g (policy_denied ep dir vrf).
Proof. intros Hg. unfold policy_denied. keeps. Qed.
Lemma keeps_policy_denied_v6 {X} (g : World → X) ep dir vrf :
  (∀ x w, g (set_peer_id x w) = g w) → keeps g (policy_denied_v6 ep dir vrf).
Proof. intros Hg. unfold policy_denied_v6. keeps. Qed.
Lemma keeps_emit_flow' {X} (g : World → X) v d ep pid :
  (∀ x w, g (set_ticks x w) = g w) → (∀ x w, g (set_FLOWS x w) = g w) →
  keeps g (emit_flow_v4 v d ep pid).
Proof. intros Ht Hf. unfold emit_flow_v4, unwrap_or. keeps. Qed.

#[local] Hint Extern 1 (keeps _ (policy_denied _ _ _)) => apply keeps_policy_denied; done : keeps.
#[local] Hint Extern 1 (keeps _ (policy_denied_v6 _ _ _)) => apply keeps_policy_denied_v6; done : keeps.
#[local] Hint Extern 1 (keeps _ (emit_flow_v4 _ _ _ _)) => apply keeps_emit_flow'; done : keeps.

Lemma ingress_policy_pkt ifindex : keeps pkt (ingress_policy ifindex).
Proof. unfold ingress_policy, unwrap_or, pct_track, pct_track6. keeps. Qed.
Lemma ingress_policy_sent ifindex : keeps sent (ingress_policy ifindex).
Proof. unfold ingress_policy, unwrap_or, pct_track, pct_track6. keeps. Qed.

(** The audit switch: counters and flow records, then the drop decision. *)
Lemma total_track (on : bool) (m : Prog unit) :
  total (if on then _ ← catch m; mret tt else mret tt).
Proof. total. Qed.

Lemma verdict_tail (d audit : bool) (m1 m2 : Prog bool) (m3 : Prog unit) w :
  (∀ w, ∃ w', m1 w = (w', Ok false)) → (∀ w, ∃ w', m2 w = (w', Ok true)) → total m3 →
  ∃ w', (drop ← (if d then if audit then m1 else m2 else mret false);
         if (drop : bool) then mret TC_ACT_SHOT else _ ← m3; mret TC_ACT_PIPE) w =
        (w', Ok (if d && negb audit then TC_ACT_SHOT else TC_ACT_PIPE)).
Proof.
  intros T1 T2 T3. destruct d, audit; cbn [andb negb].
  - destruct (T1 w) as (w1 & E1). rewrite (bind_ok E1). destruct (T3 w1) as (w3 & [] & E3).
    rewrite (bind_ok E3). by eexists.
  - destruct (T2 w) as (w1 & E1). rewrite (bind_ok E1). by eexists.
  - rewrite bind_ret. destruct (T3 w) as (w3 & [] & E3). rewrite (bind_ok E3). by eexists.
  - rewrite bind_ret. destruct (T3 w) as (w3 & [] & E3). rewrite (bind_ok E3). by eexists.
Qed.

Lemma then_yields {A B} (m : Prog A) (m' : Prog B) b :
  total m → (∀ w, ∃ w', m' w = (w', Ok b)) → ∀ w, ∃ w', (_ ← m; m') w = (w', Ok b).
Proof. intros Hm Hm' w. destruct (Hm w) as (w1 & a & E). rewrite (bind_ok E). apply Hm'. Qed.

Lemma act_spec (d audit : bool) act : act = (if d && negb audit then TC_ACT_SHOT else TC_ACT_PIPE) →
  (act = TC_ACT_SHOT ∨ act = TC_ACT_PIPE) ∧ (act = TC_ACT_SHOT ↔ d = true ∧ audit = false).
Proof. intros ->. destruct d, audit; cbn; naive_solver. Qed.

(** ** The claims *)

(** C15: the verdict of a rule check, on every packet and in both families: a
    packet too short to parse is an error; a reply of a recorded flow is
    admitted; any other packet is admitted exactly if some rule matches it and
    no matching rule, however unspecific, denies it. Nothing but the recorded
    peer identity changes. *)
Theorem policy_verdict ep dir vrf w :
  match flow4 (pkt w) with
  | None => policy_denied ep dir vrf w = (w, Err tt)
  | Some k => ∃ w' b, policy_denied ep dir vrf w = (w', Ok b) ∧
      (w' = w ∨ ∃ i, w' = set_peer_id i w) ∧ (b = false ↔ admits4 (PCT w) ep dir vrf k)
  end ∧
  match flow6 (pkt w) with
  | None => policy_denied_v6 ep dir vrf w = (w, Err tt)
  | Some k => ∃ w' b, policy_denied_v6 ep dir vrf w = (w', Ok b) ∧
      (w' = w ∨ ∃ i, w' = set_peer_id i w) ∧ (b = false ↔ admits6 (PCT6 w) ep dir vrf k)
  end.
Proof. split; [apply policy_denied_run|apply policy_denied_v6_run]. Qed.

(** The VRF an endpoint's port is bound to. *)
Definition port_vrf (ifindex : Z) : Z :=
  match PORTS !! ifindex with Some p => pc_vrf_id p | None => 0 end.

(** The whole enforcement point. *)
Lemma ingress_policy_run ifindex w ty :
  rd (pkt w) ETH_TYPE_OFF 2 = Some ty →
  ∃ w' act, ingress_policy ifindex w = (w', Ok act) ∧ pkt w' = pkt w ∧ sent w' = sent w ∧
    (act = TC_ACT_SHOT ∨ act = TC_ACT_PIPE) ∧
    (act = TC_ACT_SHOT ↔ ∃ fl, EP_POLICY !! ifindex = Some fl ∧
       has fl EP_F_INGRESS = true ∧ has fl EP_F_AUDIT = false ∧
       (of_be ty = ETH_P_IP ∧ denies4 w ifindex (dir_gen fl POLICY_DIR_INGRESS) (port_vrf ifindex) ∨
        of_be ty = ETH_P_IPV6 ∧ denies6 w ifindex (dir_gen fl POLICY_DIR_INGRESS) (port_vrf ifindex))).
Proof.
  intros Hty.
  assert (∃ w' act, ingress_policy ifindex w = (w', Ok act) ∧
    (act = TC_ACT_SHOT ∨ act = TC_ACT_PIPE) ∧
    (act = TC_ACT_SHOT ↔ ∃ fl, EP_POLICY !! ifindex = Some fl ∧
       has fl EP_F_INGRESS = true ∧ has fl EP_F_AUDIT = false ∧
       (of_be ty = ETH_P_IP ∧ denies4 w ifindex (dir_gen fl POLICY_DIR_INGRESS) (port_vrf ifindex) ∨
        of_be ty = ETH_P_IPV6 ∧ denies6 w ifindex (dir_gen fl POLICY_DIR_INGRESS) (port_vrf ifindex))))
    as (w' & act & Hr & Ha & Hs).
  2:{ exists w', act. split_and!; try done.
      - exact (keeps_run pkt _ _ _ _ (ingress_policy_pkt ifindex) Hr).
      - exact (keeps_run sent _ _ _ _ (ingress_policy_sent ifindex) Hr). }
  unfold ingress_policy. destruct (EP_POLICY !! ifindex) as [fl|]; [|by exists w, TC_ACT_PIPE; naive_solver].
  fold (port_vrf ifindex). cbv zeta.
  rewrite (bind_ok (load_be_run 2 _ _ _ Hty ltac:(lia))).
  destruct (Z.eqb_spec (of_be ty) ETH_P_IP) as [E|E].
  - destruct (enforced_run (has fl EP_F_INGRESS) ifindex (dir_gen fl POLICY_DIR_INGRESS) (port_vrf ifindex) w)
      as (w1 & d & E1 & _ & Hd). rewrite (bind_ok E1), bind_run. cbn [get].
    edestruct (verdict_tail d (has fl EP_F_AUDIT)) as [w' Hw'];
      [..|rewrite Hw'; exists w'; eexists; split; [reflexivity|]].
    { apply then_yields; [apply total_stat_inc|]. apply then_yields; [apply total_emit_flow|]. by eexists. }
    { apply then_yields; [apply total_stat_inc|]. apply then_yields; [apply total_emit_flow|]. by eexists. }
    { total. }
    destruct (act_spec d (has fl EP_F_AUDIT) _ eq_refl) as [Ha Hi]. split; [done|]. rewrite Hi, Hd.
    split; [intros [[? ?] ?]; exists fl; tauto|].
    intros (fl' & [= <-] & ? & ? & [[_ ?]|[E6 _]]); [done|]. by rewrite E in E6.
  - destruct (Z.eqb_spec (of_be ty) ETH_P_IPV6) as [E6|E6]; [|by exists w, TC_ACT_PIPE; naive_solver].
    destruct (enforced6_run (has fl EP_F_INGRESS) ifindex (dir_gen fl POLICY_DIR_INGRESS) (port_vrf ifindex) w)
      as (w1 & d & E1 & _ & Hd). rewrite (bind_ok E1).
    edestruct (verdict_tail d (has fl EP_F_AUDIT)) as [w' Hw'];
      [..|rewrite Hw'; exists w'; eexists; split; [reflexivity|]].
    { apply then_yields; [apply total_stat_inc|]. by eexists. }
    { apply then_yields; [apply total_stat_inc|]. by eexists. }
    { total. }
    destruct (act_spec d (has fl EP_F_AUDIT) _ eq_refl) as [Ha Hi]. split; [done|]. rewrite Hi, Hd.
    split; [intros [[? ?] ?]; exists fl; tauto|].
    intros (fl' & [= <-] & ? & ? & [[E' _]|[_ ?]]); [by rewrite E' in E|done].
Qed.

(** C16: ingress enforcement. A frame for an endpoint without a policy, or of
    another protocol, passes; a frame for an enforcing endpoint is dropped
    exactly if its family's verdict under the active rule generation is a
    denial (an unparsable one included) and the endpoint is not in audit
    mode. The frame itself is never touched or sent elsewhere. *)
Theorem ingress_enforcement ifindex w ty :
  rd (pkt w) ETH_TYPE_OFF 2 = Some ty →
  ∃ w' act, ingress_policy ifindex w = (w', Ok act) ∧ pkt w' = pkt w ∧ sent w' = sent w ∧
    (act = TC_ACT_SHOT ∨ act = TC_ACT_PIPE) ∧
    (act = TC_ACT_SHOT ↔ ∃ fl, EP_POLICY !! ifindex = Some fl ∧
       has fl EP_F_INGRESS = true ∧ has fl EP_F_AUDIT = false ∧
       (of_be ty = ETH_P_IP ∧ denies4 w ifindex (dir_gen fl POLICY_DIR_INGRESS) (port_vrf ifindex) ∨
        of_be ty = ETH_P_IPV6 ∧ denies6 w ifindex (dir_gen fl POLICY_DIR_INGRESS) (port_vrf ifindex))).
Proof. apply ingress_policy_run. Qed.

(** Frames whose flow the trackers record. *)
Definition tracked4 (p : bytes) : Prop :=
  rd p ETH_TYPE_OFF 2 = Some (to_be 2 ETH_P_IP) ∧
  (∃ v, rd p IP_VER_IHL_OFF 1 = Some v ∧ (of_le v .& 0x0f) = 5) ∧
  (∃ pr, rd p IP_PROTO_OFF 1 = Some pr ∧ is_l4 (of_le pr) = true).
Definition tracked6 (p : bytes) : Prop :=
  rd p ETH_TYPE_OFF 2 = Some (to_be 2 ETH_P_IPV6) ∧
  (∃ pr, rd p IP6_NEXTHDR_OFF 1 = Some pr ∧ is_l4 (of_le pr) = true).

Lemma pct_track_run val k w : tracked4 (pkt w) → flow4 (pkt w) = Some k →
  pct_track val w = (set_PCT (lru_insert PCT_MAX k val (PCT w)) w, Ok tt).
Proof.
  intros (Hty & (v & Hv & Hv5) & (pr & Hpr & Hl4)). unfold flow4, pct_track.
  rewrite Hpr, Hv. cbn [mbind option_bind]. rewrite Hl4, Hv5. cbn [andb Z.eqb Pos.eqb].
  rewrite (bind_ok (load_be_run 2 _ _ _ Hty ltac:(lia))), of_to_be, Z.eqb_refl by done. cbn [negb].
  rewrite (bind_ok (load_ne_run 1 _ _ _ Hv ltac:(lia))), Hv5. cbn [negb Z.eqb Pos.eqb].
  rewrite (bind_ok (load_ne_run 1 _ _ _ Hpr ltac:(lia))), Hl4. cbn [negb].
  intros (src & Hs & (dst & Hd & (sp & Hsp & (dp & Hdp & [= <-])%bind_Some)%bind_Some)%bind_Some)%bind_Some.
  rewrite (bind_ok (load_ne_run 4 _ _ _ Hs ltac:(lia))), (bind_ok (load_ne_run 4 _ _ _ Hd ltac:(lia))).
  rewrite (bind_ok (load_ne_run 2 _ _ _ Hsp ltac:(lia))), (bind_ok (load_ne_run 2 _ _ _ Hdp ltac:(lia))).
  done.
Qed.

Lemma pct_track6_run val k w : tracked6 (pkt w) → flow6 (pkt w) = Some k →
  pct_track6 val w = (set_PCT6 (lru_insert PCT6_MAX k val (PCT6 w)) w, Ok tt).
Proof.
  intros (Hty & (pr & Hpr & Hl4)). unfold flow6, pct_track6.
  rewrite Hpr. cbn [mbind option_bind]. rewrite Hl4.
  rewrite (bind_ok (load_be_run 2 _ _ _ Hty ltac:(lia))), of_to_be, Z.eqb_refl by done. cbn [negb].
  rewrite (bind_ok (load_ne_run 1 _ _ _ Hpr ltac:(lia))), Hl4. cbn [negb].
  intros (sp & Hsp & (dp & Hdp & (dst & Hd & (src & Hs & [= <-])%bind_Some)%bind_Some)%bind_Some)%bind_Some.
  rewrite (bind_ok (load_run _ 16 _ _ Hs ltac:(lia))), (bind_ok (load_run _ 16 _ _ Hd ltac:(lia))).
  rewrite (bind_ok (load_ne_run 2 _ _ _ Hsp ltac:(lia))), (bind_ok (load_ne_run 2 _ _ _ Hdp ltac:(lia))).
  done.
Qed.

(** Policy is stateful: once a TCP or UDP flow has been recorded, a
    packet of the opposite direction is admitted at every endpoint and in
    every direction, whatever the rules say, in both families. *)
Theorem policy_stateful val ep dir vrf w w2 :
  (∀ k, tracked4 (pkt w) → flow4 (pkt w) = Some k →
     PCT w2 = PCT (pct_track val w).1 → flow4 (pkt w2) = Some (reverse4 k) →
     ∃ w3, policy_denied ep dir vrf w2 = (w3, Ok false)) ∧
  (∀ k, tracked6 (pkt w) → flow6 (pkt w) = Some k →
     PCT6 w2 = PCT6 (pct_track6 val w).1 → flow6 (pkt w2) = Some (reverse6 k) →
     ∃ w3, policy_denied_v6 ep dir vrf w2 = (w3, Ok false)).
Proof.
  split; intros k Ht Hk HP Hrev.
  - pose proof (policy_denied_run ep dir vrf w2) as Hp. rewrite Hrev in Hp.
    destruct Hp as (w3 & b & Hr & _ & Hb). exists w3. rewrite Hr.
    rewrite (proj2 Hb); [done|]. left. rewrite HP, (pct_track_run val k w) by done.
    destruct k. cbn [fst PCT set_PCT]. eexists. apply lru_insert_spec.
  - pose proof (policy_denied_v6_run ep dir vrf w2) as Hp. rewrite Hrev in Hp.
    destruct Hp as (w3 & b & Hr & _ & Hb). exists w3. rewrite Hr.
    rewrite (proj2 Hb); [done|]. left. rewrite HP, (pct_track6_run val k w) by done.
    destruct k. cbn [fst PCT6 set_PCT6]. eexists. apply lru_insert_spec.
Qed.
End policy_props.

(** ** Witnesses *)

(** A TCP packet 10.0.0.2:4660 to 10.0.0.3:80, and one of the other direction. *)
Definition tcp_frame (src dst sport dport : bytes) : bytes :=
  [2; 0; 0; 0; 0; 1; 2; 0; 0; 0; 0; 2; 8; 0; 0x45; 0; 0; 40; 0; 0; 0; 0; 64; 6; 0; 0] ++
  src ++ dst ++ sport ++ dport ++ replicate 16 0.
Definition tcp_fwd : bytes := tcp_frame [10; 0; 0; 2] [10; 0; 0; 3] [18; 52] [0; 80].
Definition tcp_rev : bytes := tcp_frame [10; 0; 0; 3] [10; 0; 0; 2] [0; 80] [18; 52].

(** Port 7 is an enforcing endpoint that admits identity 5 on every port but
    denies it port 80. *)
#[local] Instance ex_fib : FibMaps := {|
  PORTS := {[ 7 := mkPortConfig [2; 0; 0; 0; 0; 9] 0 PORT_F_ENDPOINT 0 ]};
  FIB4 := ∅; FIB6 := ∅; FIB4_VRF := ∅; FIB6_VRF := ∅ |}.
#[local] Instance ex_policy : PolicyMaps := {|
  IDENTITY := {[ mkVrfIdKey 0 (of_le [10; 0; 0; 2]) := 5 ]};
  CIDR_ID := ∅; IDENTITY6 := ∅; CIDR_ID6 := ∅;
  EP_POLICY := {[ 7 := EP_F_INGRESS ]};
  POLICY := {[ mkPolicyKey 7 5 0 0 0 := POLICY_ALLOW; mkPolicyKey 7 5 (of_le [0; 80]) 6 0 := POLICY_DENY ]} |}.

(** The packet to port 80 is denied. *)
Lemma policy_verdict_witness :
  let w := world_of tcp_fwd in
  ∃ k, flow4 (pkt w) = Some k ∧ (policy_denied 7 POLICY_DIR_INGRESS 0 w).2 = Ok true ∧
  ∃ w' b, policy_denied 7 POLICY_DIR_INGRESS 0 w = (w', Ok b) ∧
    (w' = w ∨ ∃ i, w' = set_peer_id i w) ∧ (b = false ↔ admits4 (PCT w) 7 POLICY_DIR_INGRESS 0 k).
Proof.
  cbn zeta. exists (mkCtKey (of_le [10; 0; 0; 2]) (of_le [10; 0; 0; 3]) (of_le [18; 52]) (of_le [0; 80]) 6).
  split; [vm_compute; reflexivity|]. split; [vm_compute; reflexivity|].
  exact (proj1 (policy_verdict 7 POLICY_DIR_INGRESS 0 (world_of tcp_fwd))).
Defined.

Lemma ingress_enforcement_witness :
  let w := world_of tcp_fwd in
  let run := ingress_policy 7 w in
  run.2 = Ok TC_ACT_SHOT ∧
  ∃ w' act, ingress_policy 7 w = (w', Ok act) ∧ pkt w' = pkt w ∧ sent w' = sent w ∧
    (act = TC_ACT_SHOT ∨ act = TC_ACT_PIPE) ∧
    (act = TC_ACT_SHOT ↔ ∃ fl, EP_POLICY !! 7 = Some fl ∧
       has fl EP_F_INGRESS = true ∧ has fl EP_F_AUDIT = false ∧
       (of_be [8; 0] = ETH_P_IP ∧ denies4 w 7 (dir_gen fl POLICY_DIR_INGRESS) (port_vrf 7) ∨
        of_be [8; 0] = ETH_P_IPV6 ∧ denies6 w 7 (dir_gen fl POLICY_DIR_INGRESS) (port_vrf 7))).
Proof.
  cbn zeta. split; [vm_compute; reflexivity|].
  apply (ingress_enforcement 7 (world_of tcp_fwd) [8; 0]). vm_compute. reflexivity.
Defined.

Lemma policy_stateful_witness :
  let w := world_of tcp_fwd in
  let w2 := set_pkt tcp_rev (pct_track PCT_POD_INITIATED w).1 in
  ∃ w3, policy_denied 7 0 0 w2 = (w3, Ok false).
Proof.
  cbn zeta. set (w := world_of tcp_fwd). set (w2 := set_pkt tcp_rev (pct_track PCT_POD_INITIATED w).1).
  apply (proj1 (policy_stateful PCT_POD_INITIATED 7 0 0 w w2)
    (mkCtKey (of_le [10; 0; 0; 2]) (of_le [10; 0; 0; 3]) (of_le [18; 52]) (of_le [0; 80]) 6)).
  - split; [|split].
    + vm_compute. reflexivity.
    + exists [0x45]. vm_compute. split; reflexivity.
    + exists [6]. vm_compute. split; reflexivity.
  - vm_compute. reflexivity.
  - reflexivity.
  - vm_compute. reflexivity.
Defined.
