(* ===== verification/Nat.v ===== *)
(** * L4 NAT (TC stage)

    Service load-balancing, connection tracking and masquerade of
    [crates/cradle-ebpf/src/main.rs]: [l4_nat] with its v4 and v6 handlers,
    [masq_v4], the rewrites [dnat], [snat], [dnat6], [snat6] with their
    checksum fix-ups, and [egress_reverse_snat] of [cradle_egress].
    Addresses and ports are loaded in native order, as the maps hold them. *)

From S2P Require Import Prelude.
From S2P Require Import Contract.
From S2P Require Import Bpf.
From S2P Require Import Maps.
From S2P Require Import Policy.

Definition l4_csum_off (proto : Z) : Z :=
  L4_OFF + (if proto =? IPPROTO_TCP then 16 else 6).

Definition mangled_flag (proto : Z) : Z :=
  if proto =? IPPROTO_UDP then BPF_F_MARK_MANGLED_0 else 0.

(** [core::mem::transmute::<[u8; 16], [u32; 4]>]: the [i]-th native word. *)
Definition ne_word (a : bytes) (i : nat) : Z := of_le (take 4 (drop (4 * i) a)).

Section nat.
Context `{Kernel} `{L4Maps}.

(** ** The rewrites *)

Definition dnat (proto old_ip old_port new_ip new_port : Z) : Prog unit :=
  let csum := l4_csum_off proto in
  let mangled := mangled_flag proto in
  _ ← l3_csum IP_CSUM_OFF old_ip new_ip 4;
  _ ← l4_csum csum old_ip new_ip (BPF_F_PSEUDO_HDR .| mangled .| 4);
  _ ← l4_csum csum old_port new_port (mangled .| 2);
  _ ← store IP_DST_OFF (to_le 4 new_ip);
  _ ← store (L4_OFF + 2) (to_le 2 new_port);
  stat_inc STAT_L4_DNAT.

Definition snat (proto old_ip old_port new_ip new_port : Z) : Prog unit :=
  let csum := l4_csum_off proto in
  let mangled := mangled_flag proto in
  _ ← l3_csum IP_CSUM_OFF old_ip new_ip 4;
  _ ← l4_csum csum old_ip new_ip (BPF_F_PSEUDO_HDR .| mangled .| 4);
  _ ← l4_csum csum old_port new_port (mangled .| 2);
  _ ← store IP_SRC_OFF (to_le 4 new_ip);
  _ ← store L4_OFF (to_le 2 new_port);
  stat_inc STAT_L4_SNAT.

Definition v6_csum_fixup (proto : Z) (old_ip new_ip : bytes) (old_port new_port : Z) : Prog unit :=
  let csum := IP6_L4_OFF + (if proto =? IPPROTO_TCP then 16 else 6) in
  let mangled := mangled_flag proto in
  _ ← l4_csum csum (ne_word old_ip 0) (ne_word new_ip 0) (BPF_F_PSEUDO_HDR .| 4);
  _ ← l4_csum csum (ne_word old_ip 1) (ne_word new_ip 1) (BPF_F_PSEUDO_HDR .| 4);
  _ ← l4_csum csum (ne_word old_ip 2) (ne_word new_ip 2) (BPF_F_PSEUDO_HDR .| 4);
  _ ← l4_csum csum (ne_word old_ip 3) (ne_word new_ip 3) (BPF_F_PSEUDO_HDR .| 4);
  l4_csum csum old_port new_port (mangled .| 2).

Definition dnat6 (proto : Z) (old_ip new_ip : bytes) (old_port new_port : Z) : Prog unit :=
  _ ← v6_csum_fixup proto old_ip new_ip old_port new_port;
  _ ← store IP6_DST_OFF new_ip;
  _ ← store (IP6_L4_OFF + 2) (to_le 2 new_port);
  stat_inc STAT_L4_DNAT.

Definition snat6 (proto : Z) (old_ip new_ip : bytes) (old_port new_port : Z) : Prog unit :=
  _ ← v6_csum_fixup proto old_ip new_ip old_port new_port;
  _ ← store IP6_SRC_OFF new_ip;
  _ ← store IP6_L4_OFF (to_le 2 new_port);
  stat_inc STAT_L4_SNAT.

(** [CT.insert] and its siblings; the result of an LRU insert is ignored. *)
Definition ct_insert (k : CtKey) (v : CtEntry) : Prog unit :=
  modify (λ w, set_CT (lru_insert CT_MAX k v (CT w)) w).
Definition ct6_insert (k : CtKey6) (v : CtEntry6) : Prog unit :=
  modify (λ w, set_CT6 (lru_insert CT6_MAX k v (CT6 w)) w).
Definition affinity_insert (k : AffinityKey) (v : AffinityVal) : Prog unit :=
  modify (λ w, set_AFFINITY (lru_insert AFFINITY_MAX k v (AFFINITY w)) w).

(** ** Masquerade of a pod's flow to outside the cluster *)

Definition masq_v4 (masq_src : bool) (src_ip dst_ip sport dport proto : Z) : Prog unit :=
  if negb masq_src then mret tt else
  match MASQ_CFG with
  | None => mret tt
  | Some node =>
      if node =? 0 then mret tt else
      dst_bytes ← load IP_DST_OFF 4;
      if bool_decide (is_Some (lpm_get NON_MASQ dst_bytes)) then mret tt else
      now ← ktime_get_ns;
      _ ← ct_insert (mkCtKey src_ip dst_ip sport dport proto) (mkCtEntry node sport CT_F_SNAT now);
      _ ← ct_insert (mkCtKey dst_ip node dport sport proto) (mkCtEntry src_ip sport CT_F_DNAT now);
      _ ← emit_flow_v4 FLOW_TRANSLATED FLOW_DIR_EGRESS 0 0;
      _ ← snat proto src_ip sport node sport;
      stat_inc STAT_MASQ
  end.

(** ** Services *)

(** A fresh backend slot: [(bpf_get_prandom_u32() % count as u32) as u16]. *)
Definition random_slot (svc : ServiceInfo) : Prog Z :=
  r ← get_prandom_u32; mret (wrap 16 (r mod si_backend_count svc)).

(** The live sticky slot of this client, if the service has affinity. *)
Definition sticky_slot (aff : gmap AffinityKey AffinityVal) (svc : ServiceInfo) (akey : AffinityKey)
    (now : Z) : option Z :=
  match aff !! akey with
  | Some a =>
      if (wrap 64 (now - av_last_ns a) <? AFFINITY_TIMEOUT_NS) && (av_slot a <? si_backend_count svc)
      then Some (av_slot a) else None
  | None => None
  end.

Definition backend_slot (svc : ServiceInfo) (client now : Z) : Prog Z :=
  if has (si_flags svc) SVC_F_AFFINITY then
    let akey := mkAffinityKey (si_svc_id svc) client in
    w ← get;
    s ← match sticky_slot (AFFINITY w) svc akey now with
        | Some s => mret s
        | None => random_slot svc
        end;
    _ ← affinity_insert akey (mkAffinityVal s now);
    mret s
  else random_slot svc.

(** Apply the translation recorded for an established flow. *)
Definition apply_ct (ct : CtEntry) (proto src_ip sport dst_ip dport : Z) : Prog unit :=
  if has (ce_flags ct) CT_F_DNAT then dnat proto dst_ip dport (ce_rev_addr ct) (ce_rev_port ct)
  else if has (ce_flags ct) CT_F_SNAT then snat proto src_ip sport (ce_rev_addr ct) (ce_rev_port ct)
  else mret tt.

Definition l4_nat_v4 (masq_src : bool) : Prog unit :=
  ver_ihl ← load_ne 1 IP_VER_IHL_OFF;
  if negb (ver_ihl .& 0x0f =? 5) then mret tt else
  proto ← load_ne 1 IP_PROTO_OFF;
  if negb (is_l4 proto) then mret tt else
  src_ip ← load_ne 4 IP_SRC_OFF;
  dst_ip ← load_ne 4 IP_DST_OFF;
  sport ← load_ne 2 L4_OFF;
  dport ← load_ne 2 (L4_OFF + 2);
  let key := mkCtKey src_ip dst_ip sport dport proto in
  w ← get;
  match CT w !! key with
  | Some ct => apply_ct ct proto src_ip sport dst_ip dport
  | None =>
      match SERVICES !! mkServiceKey dst_ip dport proto with
      | None => masq_v4 masq_src src_ip dst_ip sport dport proto
      | Some svc =>
          if si_backend_count svc =? 0 then mret tt else
          now ← ktime_get_ns;
          slot ← backend_slot svc src_ip now;
          match BACKENDS !! mkBackendKey (si_svc_id svc) slot with
          | None => mret tt
          | Some be =>
              _ ← ct_insert key (mkCtEntry (be_addr be) (be_port be) CT_F_DNAT now);
              _ ← ct_insert (mkCtKey (be_addr be) src_ip (be_port be) sport proto)
                    (mkCtEntry dst_ip dport CT_F_SNAT now);
              _ ← emit_flow_v4 FLOW_TRANSLATED FLOW_DIR_INGRESS 0 0;
              dnat proto dst_ip dport (be_addr be) (be_port be)
          end
      end
  end.

Definition l4_nat_v6 : Prog unit :=
  proto ← load_ne 1 IP6_NEXTHDR_OFF;
  if negb (is_l4 proto) then mret tt else
  src ← load IP6_SRC_OFF 16;
  dst ← load IP6_DST_OFF 16;
  sport ← load_ne 2 IP6_L4_OFF;
  dport ← load_ne 2 (IP6_L4_OFF + 2);
  let key := mkCtKey6 src dst sport dport proto in
  w ← get;
  match CT6 w !! key with
  | Some ct =>
      if has (ce6_flags ct) CT_F_DNAT then dnat6 proto dst (ce6_rev_addr ct) dport (ce6_rev_port ct)
      else if has (ce6_flags ct) CT_F_SNAT then snat6 proto src (ce6_rev_addr ct) sport (ce6_rev_port ct)
      else mret tt
  | None =>
      match SERVICES6 !! mkServiceKey6 dst dport proto with
      | None => mret tt
      | Some svc =>
          if si_backend_count svc =? 0 then mret tt else
          slot ← random_slot svc;
          match BACKENDS6 !! mkBackendKey (si_svc_id svc) slot with
          | None => mret tt
          | Some be =>
              now ← ktime_get_ns;
              _ ← ct6_insert key (mkCtEntry6 (be6_addr be) (be6_port be) CT_F_DNAT now);
              _ ← ct6_insert (mkCtKey6 (be6_addr be) src (be6_port be) sport proto)
                    (mkCtEntry6 dst dport CT_F_SNAT now);
              dnat6 proto dst (be6_addr be) dport (be6_port be)
          end
      end
  end.

Definition l4_nat (masq_src : bool) : Prog unit :=
  ethertype ← load_be 2 ETH_TYPE_OFF;
  if ethertype =? ETH_P_IP then l4_nat_v4 masq_src
  else if ethertype =? ETH_P_IPV6 then l4_nat_v6
  else mret tt.

(** Reverse SNAT of a reply that reaches the egress hook. *)
Definition egress_reverse_snat : Prog unit :=
  ethertype ← load_be 2 ETH_TYPE_OFF;
  if negb (ethertype =? ETH_P_IP) then mret tt else
  ver_ihl ← load_ne 1 IP_VER_IHL_OFF;
  if negb (ver_ihl .& 0x0f =? 5) then mret tt else
  proto ← load_ne 1 IP_PROTO_OFF;
  if negb (is_l4 proto) then mret tt else
  src ← load_ne 4 IP_SRC_OFF;
  dst ← load_ne 4 IP_DST_OFF;
  sport ← load_ne 2 L4_OFF;
  dport ← load_ne 2 (L4_OFF + 2);
  w ← get;
  match CT w !! mkCtKey src dst sport dport proto with
  | Some ct =>
      if has (ce_flags ct) CT_F_SNAT
      then snat proto src sport (ce_rev_addr ct) (ce_rev_port ct) else mret tt
  | None => mret tt
  end.
End nat.

(** ** The TC egress program *)

Section egress.
Context `{Kernel} `{FibMaps} `{PolicyMaps}.

Definition cradle_egress (ifindex : Z) : Prog Z :=
  _ ← catch egress_reverse_snat;
  unwrap_or TC_ACT_PIPE (ingress_policy ifindex).
End egress.
