(* ===== verification/NatProps.v ===== *)
(** * L4 NAT: the properties

    A rewrite replaces one end of the flow and keeps both checksums valid; a
    service connection and a masqueraded one are undone on the way back;
    ClientIP affinity keeps a client on its backend slot. *)

From S2P Require Import Prelude.
From S2P Require Import Contract.
From S2P Require Import Bpf.
From S2P Require Import Frames.
From S2P Require Import KernelRef.
From S2P Require Import Maps.
From S2P Require Import Policy.
From S2P Require Import Nat.

(** ** What a rewrite does to a frame *)

(** The checksum after a change of a (pseudo-header) address and a port; the
    null checksum of a UDP segment stays. *)
Definition seg_csum_upd (proto : Z) (k old_ip new_ip old_port new_port k' : Z) : Prop :=
  (proto = IPPROTO_UDP ∧ k = 0 ∧ k' = 0) ∨
  ((proto = IPPROTO_UDP → k ≠ 0 ∧ k' ≠ 0) ∧
   (k' - (k + halves 4 old_ip - halves 4 new_ip + halves 2 old_port - halves 2 new_port)) mod 65535 = 0).

(** [f', l'] is [f, l] with new checksums that account for the change. *)
Record resummed (proto old_ip new_ip old_port new_port : Z) (f : Ip4) (l : Seg) (c k : bytes) : Prop := {
  rs_len : length c = 2%nat ∧ length k = 2%nat;
  rs_bytes : Forall is_byte c ∧ Forall is_byte k;
  rs_ip : csum_upd (of_le (i4_csum f)) old_ip new_ip 4 (of_le c);
  rs_l4 : seg_csum_upd proto (of_le (sg_csum l)) old_ip new_ip old_port new_port (of_le k);
}.

Lemma seg_is_ip4 f l : i4_rest f = sg_bytes l → ip4_bytes f = seg_bytes f l.
Proof.
  intros E. unfold ip4_bytes, seg_bytes, ip4_fields, seg_fields. cbn [concat]. rewrite E.
  unfold sg_bytes, sg_fields. cbn [concat]. by rewrite !app_nil_r.
Qed.

Lemma mangled_flags proto (n : Z) : n = 4 ∨ n = 2 → ∀ hd, hd = 0 ∨ hd = BPF_F_PSEUDO_HDR →
  has (hd .| mangled_flag proto .| n) BPF_F_MARK_MANGLED_0 = (proto =? IPPROTO_UDP) ∧
  (hd .| mangled_flag proto .| n) .& 0xf = n.
Proof.
  unfold mangled_flag. intros [-> | ->] hd [-> | ->]; by destruct (proto =? IPPROTO_UDP).
Qed.

Section rewriting.
Context `{KernelLaws}.

Lemma of_le_zero2 x : length x = 2%nat → Forall is_byte x → x = [0; 0] ↔ of_le x = 0.
Proof.
  destruct x as [|a [|b [|]]]; try done. intros _. rewrite !Forall_cons. unfold is_byte. cbn.
  intros (? & ? & _). split; [by intros [= -> ->]|]. intros. f_equal; [lia|f_equal; lia].
Qed.

(** The checksum part of [dnat] and [snat]. *)
Lemma resum_run (f : Ip4) (l : Seg) proto old_ip old_port new_ip new_port w w' {B} (k : unit → Prog B) r :
  wf_seg f l proto → pkt w = seg_bytes f l →
  (_ ← l3_csum IP_CSUM_OFF old_ip new_ip 4;
   _ ← l4_csum (l4_csum_off proto) old_ip new_ip (BPF_F_PSEUDO_HDR .| mangled_flag proto .| 4);
   l4_csum (l4_csum_off proto) old_port new_port (mangled_flag proto .| 2) ≫= k) w = (w', Ok r) →
  ∃ c kc, resummed proto old_ip new_ip old_port new_port f l c kc ∧
    k tt (set_pkt (seg_bytes (ip4_set_csum c f) (sg_set_csum kc l)) w) = (w', Ok r).
Proof.
  intros [Hip Hl4 Hrest _ _ _ Hp4] Hp Hrun. destruct Hip, Hl4.
  assert (Hk : Forall is_byte (sg_csum l)).
  { unfold sg_bytes in *. cbn [sg_fields concat] in *. rewrite !Forall_app in wl_bytes. tauto. }
  assert (Ho : l4_csum_off proto =
    14 + 20 + 4 + Z.of_nat (if proto =? IPPROTO_TCP then 12%nat else 2%nat)).
  { unfold l4_csum_off. by destruct (proto =? IPPROTO_TCP). }
  apply bind_inv in Hrun as (w1 & [] & H1 & Hrun).
  eapply (l3_csum_field 10 (seg_fields f l) (i4_csum f)) in H1 as (c & -> & Hlc & Hbc & Hu1);
    [|done|done|flen|done].
  apply bind_inv in Hrun as (w2 & [] & H2 & Hrun).
  eapply (l4_csum_field 16 (seg_fields (ip4_set_csum c f) l) (sg_csum l)) in H2
    as (k1 & -> & Hl1 & Hb1 & Hu2); [|done|done|rewrite Ho; flen|done|done].
  apply bind_inv in Hrun as (w3 & [] & H3 & Hrun).
  eapply (l4_csum_field 16 (seg_fields (ip4_set_csum c f) (sg_set_csum k1 l)) k1) in H3
    as (k2 & -> & Hl2 & Hb2 & Hu3); [|done|done|rewrite Ho; flen|done|done].
  exists c, k2. split; [|done]. split; [done..| ].
  destruct (mangled_flags proto 4 ltac:(lia) BPF_F_PSEUDO_HDR ltac:(by right)) as [Em4 Es4].
  destruct (mangled_flags proto 2 ltac:(lia) 0 ltac:(by left)) as [Em2 Es2].
  rewrite Z.lor_0_l in Em2, Es2. rewrite Em4, Es4 in Hu2. rewrite Em2, Es2 in Hu3.
  unfold l4_upd, csum_upd, seg_csum_upd in *.
  pose proof (of_le_zero2 (sg_csum l) wl_csum Hk) as Z0.
  pose proof (of_le_zero2 k1 Hl1 Hb1) as Z1. pose proof (of_le_zero2 k2 Hl2 Hb2) as Z2.
  destruct (Z.eqb_spec proto IPPROTO_UDP).
  - destruct Hu2 as [[E1 E2]|(E1 & E2 & E3)], Hu3 as [[E4 E5]|(E4 & E5 & E6)]; try done.
    + left. tauto.
    + right. split; [tauto|]. divlia.
  - right. split; [done|]. divlia.
Qed.

Lemma snat_run f l proto old_ip old_port new_ip new_port w w' :
  wf_seg f l proto → pkt w = seg_bytes f l →
  snat proto old_ip old_port new_ip new_port w = (w', Ok tt) →
  ∃ c k, resummed proto old_ip new_ip old_port new_port f l c k ∧
    pkt w' = seg_bytes (ip4_set_src (to_le 4 new_ip) (ip4_set_csum c f))
                       (sg_set_sport (to_le 2 new_port) (sg_set_csum k l)).
Proof.
  intros Hwf Hp Hrun. unfold snat in Hrun.
  eapply resum_run in Hrun as (c & k & Hrs & Hrun); [|done..].
  destruct Hwf as [[] [] _ _ _ _ _], (rs_len _ _ _ _ _ _ _ _ _ Hrs) as [Hlc Hlk].
  exists c, k. split; [done|].
  erewrite bind_ok in Hrun by (by eapply (store_field 11); [done|done|flen|flen|done]).
  erewrite bind_ok in Hrun by (by eapply (store_field 13 (seg_fields (ip4_set_src (to_le 4 new_ip) (ip4_set_csum c f)) (sg_set_csum k l))); [done|done|flen|flen|done]).
  destruct (stat_inc_run STAT_L4_SNAT (set_pkt (concat (<[13%nat := to_le 2 new_port]>
    (seg_fields (ip4_set_src (to_le 4 new_ip) (ip4_set_csum c f)) (sg_set_csum k l)))) w)) as [st Hst].
  rewrite !set_pkt_pkt in Hrun. rewrite Hst in Hrun. injection Hrun as <-. done.
Qed.

Lemma dnat_run f l proto old_ip old_port new_ip new_port w w' :
  wf_seg f l proto → pkt w = seg_bytes f l →
  dnat proto old_ip old_port new_ip new_port w = (w', Ok tt) →
  ∃ c k, resummed proto old_ip new_ip old_port new_port f l c k ∧
    pkt w' = seg_bytes (ip4_set_dst (to_le 4 new_ip) (ip4_set_csum c f))
                       (sg_set_dport (to_le 2 new_port) (sg_set_csum k l)).
Proof.
  intros Hwf Hp Hrun. unfold dnat in Hrun.
  eapply resum_run in Hrun as (c & k & Hrs & Hrun); [|done..].
  destruct Hwf as [[] [] _ _ _ _ _], (rs_len _ _ _ _ _ _ _ _ _ Hrs) as [Hlc Hlk].
  exists c, k. split; [done|].
  erewrite bind_ok in Hrun by (by eapply (store_field 12); [done|done|flen|flen|done]).
  erewrite bind_ok in Hrun by (by eapply (store_field 14 (seg_fields (ip4_set_dst (to_le 4 new_ip) (ip4_set_csum c f)) (sg_set_csum k l))); [done|done|flen|flen|done]).
  destruct (stat_inc_run STAT_L4_DNAT (set_pkt (concat (<[14%nat := to_le 2 new_port]>
    (seg_fields (ip4_set_dst (to_le 4 new_ip) (ip4_set_csum c f)) (sg_set_csum k l)))) w)) as [st Hst].
  rewrite !set_pkt_pkt in Hrun. rewrite Hst in Hrun. injection Hrun as <-. done.
Qed.
End rewriting.

(** ** Framing of the NAT stage *)

Section nat_keeps.
Context `{Kernel} `{L4Maps}.

Lemma keeps_emit_flow {X} (g : World → X) v d ep pid :
  (∀ x w, g (set_ticks x w) = g w) → (∀ x w, g (set_FLOWS x w) = g w) →
  keeps g (emit_flow_v4 v d ep pid).
Proof. intros Ht Hf. unfold emit_flow_v4, unwrap_or. keeps. Qed.

Lemma keeps_snat {X} (g : World → X) proto oi op ni np :
  (∀ p w, g (set_pkt p w) = g w) → (∀ x w, g (set_stats x w) = g w) →
  keeps g (snat proto oi op ni np).
Proof. intros Hp Hs. unfold snat. keeps. Qed.

Lemma keeps_dnat {X} (g : World → X) proto oi op ni np :
  (∀ p w, g (set_pkt p w) = g w) → (∀ x w, g (set_stats x w) = g w) →
  keeps g (dnat proto oi op ni np).
Proof. intros Hp Hs. unfold dnat. keeps. Qed.
End nat_keeps.
#[export] Hint Extern 1 (keeps _ (emit_flow_v4 _ _ _ _)) => apply keeps_emit_flow; done : keeps.
#[export] Hint Extern 1 (keeps _ (snat _ _ _ _ _)) => apply keeps_snat; done : keeps.
#[export] Hint Extern 1 (keeps _ (dnat _ _ _ _ _)) => apply keeps_dnat; done : keeps.

(** ** The flow of a frame *)

Definition flow_of (f : Ip4) (l : Seg) (proto : Z) : CtKey :=
  mkCtKey (of_le (i4_src f)) (of_le (i4_dst f)) (of_le (sg_sport l)) (of_le (sg_dport l)) proto.

Section flows.
Context `{KernelLaws} `{L4Maps}.

Lemma seg_loads f l proto w : wf_seg f l proto → pkt w = seg_bytes f l →
  load_be 2 ETH_TYPE_OFF w = (w, Ok ETH_P_IP) ∧
  (∃ vi, load_ne 1 IP_VER_IHL_OFF w = (w, Ok vi) ∧ (vi .& 0x0f) = 5) ∧
  (load_ne 1 IP_PROTO_OFF w = (w, Ok proto) ∧ is_l4 proto = true) ∧
  load_ne 4 IP_SRC_OFF w = (w, Ok (of_le (i4_src f))) ∧
  load_ne 4 IP_DST_OFF w = (w, Ok (of_le (i4_dst f))) ∧
  load_ne 2 L4_OFF w = (w, Ok (of_le (sg_sport l))) ∧
  load_ne 2 (L4_OFF + 2) w = (w, Ok (of_le (sg_dport l))).
Proof.
  intros [[] [] Hrest Hty [x [Hx Hx5]] Hpr Hp4] Hp.
  split_and!.
  - rewrite (load_be_field 2 (seg_fields f l) (i4_type f)); [by rewrite Hty|done|done|flen..].
  - exists x. rewrite (load_ne_field 3 (seg_fields f l) (i4_vihl f)); [|done|done|flen..].
    rewrite Hx. cbn. by rewrite Z.add_0_r.
  - rewrite (load_ne_field 9 (seg_fields f l) (i4_proto f)); [|done|done|flen..].
    rewrite Hpr. cbn. by rewrite Z.add_0_r.
  - by destruct Hp4 as [-> | ->].
  - by rewrite (load_ne_field 11 (seg_fields f l) (i4_src f)); [|done|done|flen..].
  - by rewrite (load_ne_field 12 (seg_fields f l) (i4_dst f)); [|done|done|flen..].
  - by rewrite (load_ne_field 13 (seg_fields f l) (sg_sport l)); [|done|done|flen..].
  - by rewrite (load_ne_field 14 (seg_fields f l) (sg_dport l)); [|done|done|flen..].
Qed.

End flows.

(** Runs the header loads at the front of a program. *)
Ltac run_loads Hwf Hp :=
  destruct (seg_loads _ _ _ _ Hwf Hp) as (Hty & (vi & Hvi & Hvi5) & (Hpr & Hpr4) & Hs & Hd & Hsp & Hdp);
  rewrite ?(bind_ok Hty); cbv beta; rewrite ?Z.eqb_refl; cbn [negb];
  rewrite (bind_ok Hvi); cbv beta; rewrite Hvi5, Z.eqb_refl; cbn [negb];
  rewrite (bind_ok Hpr), Hpr4; cbn [negb];
  rewrite (bind_ok Hs), (bind_ok Hd), (bind_ok Hsp), (bind_ok Hdp).

Section established.
Context `{KernelLaws} `{L4Maps}.

(** An established SNAT entry applied on the egress hook. *)
Lemma egress_applies f l proto ct w : wf_seg f l proto → pkt w = seg_bytes f l →
  CT w !! flow_of f l proto = Some ct → has (ce_flags ct) CT_F_SNAT = true →
  egress_reverse_snat w =
    snat proto (of_le (i4_src f)) (of_le (sg_sport l)) (ce_rev_addr ct) (ce_rev_port ct) w.
Proof.
  intros Hwf Hp Hct Hf. unfold egress_reverse_snat. run_loads Hwf Hp.
  rewrite bind_run. cbn [get]. unfold flow_of in Hct. by rewrite Hct, Hf.
Qed.

(** An established entry applied on the ingress hook. *)
Lemma ingress_applies masq f l proto ct w : wf_seg f l proto → pkt w = seg_bytes f l →
  CT w !! flow_of f l proto = Some ct →
  l4_nat masq w = apply_ct ct proto (of_le (i4_src f)) (of_le (sg_sport l))
                    (of_le (i4_dst f)) (of_le (sg_dport l)) w.
Proof.
  intros Hwf Hp Hct. unfold l4_nat, l4_nat_v4. run_loads Hwf Hp.
  rewrite bind_run. cbn [get]. unfold flow_of in Hct. by rewrite Hct.
Qed.
End established.

(** ** Choosing a backend *)

(** Affinity slots are unsigned. *)
Definition wf_affinity (w : World) : Prop := ∀ k a, AFFINITY w !! k = Some a → 0 ≤ av_slot a.

Section backends.
Context `{KernelLaws} `{L4Maps}.

Lemma random_slot_run svc w : 0 < si_backend_count svc < 2 ^ 16 →
  ∃ w' s, random_slot svc w = (w', Ok s) ∧ 0 ≤ s < si_backend_count svc ∧
    w' = set_ticks (S (ticks w)) w.
Proof.
  intros Hc. unfold random_slot, get_prandom_u32, tick.
  eexists _, _. split_and!; [reflexivity|..|done]; unfold wrap;
    pose proof (Z.mod_pos_bound (prandom (ticks w)) (si_backend_count svc));
    rewrite Z.mod_small; lia.
Qed.

Lemma sticky_slot_range aff svc ak now s : (∀ k a, aff !! k = Some a → 0 ≤ av_slot a) →
  sticky_slot aff svc ak now = Some s → 0 ≤ s < si_backend_count svc.
Proof.
  unfold sticky_slot. intros Hwf. destruct (aff !! ak) as [a|] eqn:E; [|done].
  destruct (_ && _) eqn:Eb; [|done]. intros [= <-].
  apply andb_true_iff in Eb as [_ ?%Z.ltb_lt]. apply Hwf in E. lia.
Qed.

(** The slot is in range; an affinity service records it for the client. *)
Lemma backend_slot_run svc client now w : 0 < si_backend_count svc < 2 ^ 16 → wf_affinity w →
  ∃ w' s, backend_slot svc client now w = (w', Ok s) ∧ 0 ≤ s < si_backend_count svc ∧
    pkt w' = pkt w ∧ CT w' = CT w ∧
    (has (si_flags svc) SVC_F_AFFINITY = true →
      AFFINITY w' !! mkAffinityKey (si_svc_id svc) client = Some (mkAffinityVal s now)).
Proof.
  intros Hc Hwf. unfold backend_slot. destruct (has (si_flags svc) SVC_F_AFFINITY).
  - rewrite bind_run. cbn [get].
    destruct (sticky_slot _ _ _ _) as [s|] eqn:Es.
    + eapply sticky_slot_range in Es; [|done]. eexists _, s. split_and!; try done; try lia.
      intros _. cbn. apply lru_insert_spec.
    + destruct (random_slot_run svc w Hc) as (w1 & s & Hr & Hs & ->).
      rewrite (bind_ok Hr). eexists _, s. split_and!; try done; try lia.
      intros _. cbn. apply lru_insert_spec.
  - destruct (random_slot_run svc w Hc) as (w1 & s & Hr & Hs & ->).
    eexists _, s. split_and!; done || lia.
Qed.

End backends.

(** The rewritten frames. *)
Definition with_dst (be : Backend) (c k : bytes) (f : Ip4) (l : Seg) : bytes :=
  seg_bytes (ip4_set_dst (to_le 4 (be_addr be)) (ip4_set_csum c f))
            (sg_set_dport (to_le 2 (be_port be)) (sg_set_csum k l)).
Definition with_src (addr port c k : bytes) (f : Ip4) (l : Seg) : bytes :=
  seg_bytes (ip4_set_src addr (ip4_set_csum c f)) (sg_set_sport port (sg_set_csum k l)).

Lemma seg_parts f l proto : wf_seg f l proto →
  Forall is_byte (i4_src f) ∧ Forall is_byte (i4_dst f) ∧
  Forall is_byte (sg_sport l) ∧ Forall is_byte (sg_dport l).
Proof.
  intros [[] [] _ _ _ _ _]. unfold ip4_bytes, sg_bytes in *.
  cbn [ip4_fields sg_fields concat] in *. rewrite !Forall_app in *. tauto.
Qed.

Lemma seg_ends f l proto : wf_seg f l proto →
  to_le 4 (of_le (i4_src f)) = i4_src f ∧ to_le 4 (of_le (i4_dst f)) = i4_dst f ∧
  to_le 2 (of_le (sg_sport l)) = sg_sport l ∧ to_le 2 (of_le (sg_dport l)) = sg_dport l.
Proof.
  intros Hwf. destruct (seg_parts f l proto Hwf) as (Hs & Hd & Hsp & Hdp), Hwf as [[] [] _ _ _ _ _].
  split_and!.
  - rewrite <- w4_src at 1. by apply to_of_le.
  - rewrite <- w4_dst at 1. by apply to_of_le.
  - rewrite <- wl_sport at 1. by apply to_of_le.
  - rewrite <- wl_dport at 1. by apply to_of_le.
Qed.

Section services.
Context `{KernelLaws} `{L4Maps}.

(** A new flow to a service. *)
Lemma service_new masq f l proto svc w w1 r :
  wf_seg f l proto → pkt w = seg_bytes f l → wf_affinity w →
  CT w !! flow_of f l proto = None →
  SERVICES !! mkServiceKey (of_le (i4_dst f)) (of_le (sg_dport l)) proto = Some svc →
  0 < si_backend_count svc < 2 ^ 16 →
  l4_nat masq w = (w1, r) →
  ∃ slot, 0 ≤ slot < si_backend_count svc ∧
  match BACKENDS !! mkBackendKey (si_svc_id svc) slot with
  | None => r = Ok tt ∧ pkt w1 = pkt w ∧ CT w1 = CT w
  | Some be =>
      (r = Ok tt → ∃ c k, pkt w1 = with_dst be c k f l ∧
         resummed proto (of_le (i4_dst f)) (be_addr be) (of_le (sg_dport l)) (be_port be) f l c k) ∧
      ∃ now, CT w1 !! mkCtKey (be_addr be) (of_le (i4_src f)) (be_port be) (of_le (sg_sport l)) proto =
        Some (mkCtEntry (of_le (i4_dst f)) (of_le (sg_dport l)) CT_F_SNAT now)
  end.
Proof.
  intros Hwf Hp Haff Hct Hsvc Hc. unfold l4_nat, l4_nat_v4. run_loads Hwf Hp.
  rewrite bind_run. cbn [get]. unfold flow_of in Hct. rewrite Hct, Hsvc.
  rewrite (proj2 (Z.eqb_neq _ 0)) by lia.
  set (w0 := set_ticks (S (ticks w)) w).
  assert (ktime_get_ns w = (w0, Ok (ktime (ticks w)))) as Hk by done. rewrite (bind_ok Hk).
  destruct (backend_slot_run svc (of_le (i4_src f)) (ktime (ticks w)) w0 Hc) as (w2 & s & Hs2 & Hsr & Hpk & HCT & _); [done|].
  rewrite (bind_ok Hs2). intros Hrun. exists s. split; [done|].
  destruct (BACKENDS !! _) as [be|].
  - rewrite bind_run in Hrun. cbn [ct_insert modify] in Hrun.
    rewrite bind_run in Hrun. cbn [ct_insert modify] in Hrun.
    set (w3 := set_CT _ (set_CT _ _)) in Hrun.
    destruct (emit_flow_v4 FLOW_TRANSLATED FLOW_DIR_INGRESS 0 0 w3) as [w4 re] eqn:Eem.
    assert (pkt w4 = seg_bytes f l) as Hp4.
    { rewrite (keeps_run pkt _ _ _ _ ltac:(by apply keeps_emit_flow) Eem). cbn. by rewrite Hpk. }
    assert (CT w4 = CT w3) as HC4 by exact (keeps_run CT _ _ _ _ ltac:(by apply keeps_emit_flow) Eem).
    destruct re as [[]|]; [|].
    + rewrite (bind_ok Eem) in Hrun. split.
      * intros ->. by eapply dnat_run in Hrun as (c & k & Hrs & Hpf); eauto.
      * exists (ktime (ticks w)). rewrite (keeps_run CT _ _ _ _ ltac:(by apply keeps_dnat) Hrun), HC4.
        cbn. apply lru_insert_spec.
    + rewrite (bind_err Eem) in Hrun. injection Hrun as <- <-. split; [done|].
      exists (ktime (ticks w)). rewrite HC4. cbn. apply lru_insert_spec.
  - injection Hrun as <- <-. split_and!; [done|by rewrite Hpk|by rewrite HCT].
Qed.

(** The reply to a flow with a reverse entry leaves with the service's
    address and port, on either hook. *)
Lemma reply_restored masq f l g m proto now w w' :
  wf_seg f l proto → wf_seg g m proto → pkt w = seg_bytes g m →
  CT w !! flow_of g m proto = Some (mkCtEntry (of_le (i4_dst f)) (of_le (sg_dport l)) CT_F_SNAT now) →
  egress_reverse_snat w = (w', Ok tt) ∨ l4_nat masq w = (w', Ok tt) →
  ∃ c k, pkt w' = with_src (i4_dst f) (sg_dport l) c k g m ∧
    resummed proto (of_le (i4_src g)) (of_le (i4_dst f)) (of_le (sg_sport m)) (of_le (sg_dport l)) g m c k.
Proof.
  intros Hf Hg Hp Hct Hrun. destruct (seg_ends f l proto Hf) as (_ & Hd & _ & Hdp).
  assert (snat proto (of_le (i4_src g)) (of_le (sg_sport m)) (of_le (i4_dst f)) (of_le (sg_dport l)) w = (w', Ok tt)) as Hs.
  { destruct Hrun as [Hrun|Hrun].
    - by erewrite egress_applies in Hrun by done.
    - by erewrite ingress_applies in Hrun by done. }
  eapply snat_run in Hs as (c & k & Hrs & Hpk); [|done..].
  exists c, k. split; [|done]. rewrite Hpk. unfold with_src. by rewrite Hd, Hdp.
Qed.
End services.

(** ** Checksums *)

Lemma halves_le4 z : u32 z → halves 4 z = sum16 (to_le 4 z).
Proof.
  unfold in_range, halves. intros Hz. cbn [Z.eqb Pos.eqb to_le sum16].
  change 0xffff with (2 ^ 16 - 1). rewrite !land_ones', shr_div by lia. divlia.
Qed.

Lemma halves_le2 z : u16 z → halves 2 z = z.
Proof.
  unfold in_range, halves. intros Hz. cbn [Z.eqb Pos.eqb].
  change 0xffff with (2 ^ 16 - 1). rewrite !land_ones' by lia. rewrite Z.mod_small; lia.
Qed.

Lemma of_le_u32 b : length b = 4%nat → Forall is_byte b → u32 (of_le b).
Proof. intros Hl Hb. pose proof (of_le_range b Hb). rewrite Hl in *. unfold in_range. lia. Qed.
Lemma of_le_u16 b : length b = 2%nat → Forall is_byte b → u16 (of_le b).
Proof. intros Hl Hb. pose proof (of_le_range b Hb). rewrite Hl in *. unfold in_range. lia. Qed.

Lemma halves_bytes4 b : length b = 4%nat → Forall is_byte b → halves 4 (of_le b) = sum16 b.
Proof.
  intros Hl Hb. rewrite halves_le4 by by apply of_le_u32. rewrite <- Hl. by rewrite to_of_le.
Qed.

Section checksums.
Variables (f : Ip4) (l : Seg) (proto new_ip new_port : Z).
Hypothesis Hwf : wf_seg f l proto.
Hypothesis Hip : u32 new_ip.
Hypothesis Hport : u16 new_port.

(** The segment's checksum verifies, or is the null checksum of UDP. *)
Definition seg_ok (f : Ip4) (l : Seg) (proto : Z) : Prop :=
  (proto = IPPROTO_UDP ∧ of_le (sg_csum l) = 0) ∨ seg_valid f l.

Lemma resummed_ends (new_src : bool) old_ip old_port c k :
  old_ip = of_le (if new_src then i4_src f else i4_dst f) →
  old_port = of_le (if new_src then sg_sport l else sg_dport l) →
  resummed proto old_ip new_ip old_port new_port f l c k →
  let f' := (if new_src then ip4_set_src else ip4_set_dst) (to_le 4 new_ip) (ip4_set_csum c f) in
  let l' := (if new_src then sg_set_sport else sg_set_dport) (to_le 2 new_port) (sg_set_csum k l) in
  (csum_valid (ip4_header f) → csum_valid (ip4_header f')) ∧
  (seg_ok f l proto → seg_ok f' l' proto).
Proof.
  intros -> -> [[Hlc Hlk] [Hbc Hbk] Hci Hcs] f' l'.
  destruct (seg_parts f l proto Hwf) as (Hs & Hd & Hsp & Hdp).
  destruct Hwf as [Hw4 Hwl _ _ _ _ _]. pose proof Hw4 as []. pose proof Hwl as [].
  assert (wf_ip4 f') as Hw4'.
  { unfold f'. destruct new_src; [apply wf_set_src|apply wf_set_dst]; try done;
      try apply to_le_bytes; by apply wf_set_csum. }
  assert (wf_sg proto l') as Hwl'.
  { unfold l'. destruct new_src; [apply wf_set_sport|apply wf_set_dport]; try done;
      try apply to_le_bytes; by apply wf_set_sgcsum. }
  unfold csum_upd, seg_csum_upd in *.
  assert (of_le (to_le 2 new_port) = new_port) as Hnp by by apply of_to_le.
  rewrite halves_le2 in Hcs by (destruct new_src; by apply of_le_u16).
  rewrite (halves_le2 new_port) in Hcs by done.
  rewrite halves_bytes4 in Hci, Hcs by (by destruct new_src).
  rewrite halves_le4 in Hci, Hcs by done.
  assert (length (sg_bytes l') = length (sg_bytes l)) as Hlen.
  { unfold sg_bytes. rewrite !concat_length. unfold l'. destruct new_src; cbn; lia. }
  split.
  - unfold csum_valid. rewrite !ip4_header_sum by done. unfold f'.
    destruct new_src; cbn [ip4_set_src ip4_set_dst ip4_set_csum i4_vihl i4_tos i4_len i4_id i4_frag i4_ttl i4_proto
      i4_csum i4_src i4_dst]; divlia.
  - unfold seg_ok, seg_valid, seg_sum. rewrite Hlen. rewrite !(sg_bytes_sum proto) by done. unfold f', l'.
    destruct new_src; cbn [ip4_set_src ip4_set_dst ip4_set_csum i4_proto i4_src i4_dst
      sg_set_sport sg_set_dport sg_set_csum sg_sport sg_dport sg_mid sg_csum sg_pl]; rewrite Hnp;
      intros [[Hu Hz]|Hv]; destruct Hcs as [(Hu1 & Hz1 & Hz2)|[Hnz Hm]].
    all: try (left; split; done).
    all: try (destruct (Hnz Hu); done).
    all: try (left; tauto).
    all: right; divlia.
Qed.
End checksums.

(** The frame [(f', l')] made of [(f, l)] verifies wherever [(f, l)] did: the
    header checksum, and the segment's. *)
Definition keeps_verifying (f : Ip4) (l : Seg) (f' : Ip4) (l' : Seg) (proto : Z) : Prop :=
  (csum_valid (ip4_header f) → csum_valid (ip4_header f')) ∧ (seg_ok f l proto → seg_ok f' l' proto).

(** A request sent on to [be], and a reply given the address [a] and the port
    [p] of the service, with the checksums [c] and [k]. *)
Definition sent_on (be : Backend) (c k : bytes) (f : Ip4) (l : Seg) (proto : Z) : Prop :=
  keeps_verifying f l (ip4_set_dst (to_le 4 (be_addr be)) (ip4_set_csum c f))
    (sg_set_dport (to_le 2 (be_port be)) (sg_set_csum k l)) proto.
Definition sent_back (a p c k : bytes) (g : Ip4) (m : Seg) (proto : Z) : Prop :=
  keeps_verifying g m (ip4_set_src a (ip4_set_csum c g)) (sg_set_sport p (sg_set_csum k m)) proto.

(** The address and port a frame goes to, as words and as bytes. *)
Lemma service_end f l proto : wf_seg f l proto →
  u32 (of_le (i4_dst f)) ∧ u16 (of_le (sg_dport l)) ∧
  to_le 4 (of_le (i4_dst f)) = i4_dst f ∧ to_le 2 (of_le (sg_dport l)) = sg_dport l.
Proof.
  intros Hwf. destruct (seg_ends f l proto Hwf) as (_ & Ed & _ & Ep), (seg_parts f l proto Hwf) as (_ & Hd & _ & Hp).
  destruct Hwf as [[] [] _ _ _ _ _]. split_and!; [by apply of_le_u32|by apply of_le_u16|done..].
Qed.

(** ** The claims *)

Section claims.
Context `{KernelLaws} `{L4Maps}.

(** C10: a new flow to a service is given one of its backends, and a reply
    from that backend to that client leaves with the service's own address
    and port, whichever hook (TC ingress or egress) it meets first, however
    the request's own rewrite ended.  Both ways a frame whose header and
    segment checksums verify leaves with checksums that verify; a UDP
    segment without checksum stays without. *)
Theorem service_roundtrip masq f l proto svc w w1 r :
  wf_seg f l proto → pkt w = seg_bytes f l → wf_affinity w →
  (∀ k be, BACKENDS !! k = Some be → u32 (be_addr be) ∧ u16 (be_port be)) →
  CT w !! flow_of f l proto = None →
  SERVICES !! mkServiceKey (of_le (i4_dst f)) (of_le (sg_dport l)) proto = Some svc →
  0 < si_backend_count svc < 2 ^ 16 →
  l4_nat masq w = (w1, r) →
  ∃ slot, 0 ≤ slot < si_backend_count svc ∧
  match BACKENDS !! mkBackendKey (si_svc_id svc) slot with
  | None => r = Ok tt ∧ pkt w1 = pkt w ∧ CT w1 = CT w
  | Some be =>
      (r = Ok tt → ∃ c k, pkt w1 = with_dst be c k f l ∧ sent_on be c k f l proto) ∧
      ∀ g m w2 w3,
        wf_seg g m proto → pkt w2 = seg_bytes g m → CT w2 = CT w1 →
        flow_of g m proto =
          mkCtKey (be_addr be) (of_le (i4_src f)) (be_port be) (of_le (sg_sport l)) proto →
        egress_reverse_snat w2 = (w3, Ok tt) ∨ l4_nat masq w2 = (w3, Ok tt) →
        ∃ c k, pkt w3 = with_src (i4_dst f) (sg_dport l) c k g m ∧ sent_back (i4_dst f) (sg_dport l) c k g m proto
  end.
Proof.
  intros Hwf Hp Haff Hbes Hct Hsvc Hc Hrun.
  destruct (service_new masq f l proto svc w w1 r Hwf Hp Haff Hct Hsvc Hc Hrun) as (s & Hs & Hb).
  exists s. split; [done|]. destruct (BACKENDS !! _) as [be|] eqn:Ebe; [|done].
  destruct (Hbes _ _ Ebe) as [Hip Hport]. destruct Hb as [Hfwd [now Hrev]]. split.
  - intros Hr. destruct (Hfwd Hr) as (c & k & Hpk & Hrs). exists c, k. split; [done|].
    exact (resummed_ends f l proto _ _ Hwf Hip Hport false _ _ c k eq_refl eq_refl Hrs).
  - intros g m w2 w3 Hg Hpg HCT Hfl Hrun2. rewrite <- HCT, <- Hfl in Hrev.
    destruct (reply_restored masq f l g m proto now w2 w3) as (c & k & Hpk & Hrs); [done..|].
    exists c, k. split; [done|]. destruct (service_end f l proto Hwf) as (Hvip & Hvp & Ed & Ep).
    pose proof (resummed_ends g m proto _ _ Hg Hvip Hvp true _ _ c k eq_refl eq_refl Hrs) as Hv. cbv zeta in Hv.
    by rewrite Ed, Ep in Hv.
Qed.

(** C11: an address and port rewrite, of the source or of the destination,
    writes exactly the new end and the two checksums, and both checksums of a
    frame that verified still verify (a UDP segment without checksum stays
    without). *)
Theorem nat_checksums f l proto new_ip new_port w w' :
  wf_seg f l proto → pkt w = seg_bytes f l → u32 new_ip → u16 new_port →
  csum_valid (ip4_header f) → seg_ok f l proto →
  (snat proto (of_le (i4_src f)) (of_le (sg_sport l)) new_ip new_port w = (w', Ok tt) →
   ∃ c k, pkt w' = with_src (to_le 4 new_ip) (to_le 2 new_port) c k f l ∧
     csum_valid (ip4_header (ip4_set_src (to_le 4 new_ip) (ip4_set_csum c f))) ∧
     seg_ok (ip4_set_src (to_le 4 new_ip) (ip4_set_csum c f))
            (sg_set_sport (to_le 2 new_port) (sg_set_csum k l)) proto) ∧
  (dnat proto (of_le (i4_dst f)) (of_le (sg_dport l)) new_ip new_port w = (w', Ok tt) →
   ∃ c k, pkt w' = with_dst (mkBackend new_ip new_port 0) c k f l ∧
     csum_valid (ip4_header (ip4_set_dst (to_le 4 new_ip) (ip4_set_csum c f))) ∧
     seg_ok (ip4_set_dst (to_le 4 new_ip) (ip4_set_csum c f))
            (sg_set_dport (to_le 2 new_port) (sg_set_csum k l)) proto).
Proof.
  intros Hwf Hp Hip Hport Hv Hs. split; intros Hrun.
  - eapply snat_run in Hrun as (c & k & Hrs & Hpk); [|done..]. exists c, k. split; [done|].
    destruct (resummed_ends f l proto new_ip new_port Hwf Hip Hport true _ _ c k eq_refl eq_refl Hrs); auto.
  - eapply dnat_run in Hrun as (c & k & Hrs & Hpk); [|done..]. exists c, k. split; [done|].
    destruct (resummed_ends f l proto new_ip new_port Hwf Hip Hport false _ _ c k eq_refl eq_refl Hrs); auto.
Qed.

(** ClientIP affinity: once a client of an affinity service was given a
    slot, its next flow within the timeout is given the same slot, and the
    slot is always one of the service's. *)
Theorem affinity_sticky svc client now now' w w1 w2 r :
  0 < si_backend_count svc < 2 ^ 16 → wf_affinity w →
  has (si_flags svc) SVC_F_AFFINITY = true →
  backend_slot svc client now w = (w1, r) →
  AFFINITY w2 = AFFINITY w1 → 0 ≤ now ≤ now' → now' < 2 ^ 64 → now' - now < AFFINITY_TIMEOUT_NS →
  ∃ s w3, r = Ok s ∧ 0 ≤ s < si_backend_count svc ∧ backend_slot svc client now' w2 = (w3, Ok s).
Proof.
  intros Hc Hwf Haf Hrun HA Hn Hn' Ht.
  destruct (backend_slot_run svc client now w Hc Hwf) as (w1' & s & Hs & Hr & _ & _ & Haff).
  rewrite Hs in Hrun. injection Hrun as <- <-. specialize (Haff Haf).
  exists s. unfold backend_slot. rewrite Haf.
  rewrite bind_run. cbn [get]. unfold sticky_slot. rewrite HA, Haff. cbn [av_last_ns av_slot].
  unfold wrap. rewrite Z.mod_small by lia.
  rewrite (proj2 (Z.ltb_lt _ _)), (proj2 (Z.ltb_lt s _)) by lia. eexists. done.
Qed.

(** C13: masquerade: a pod's flow to a destination outside the cluster that
    is no service leaves with the node's address, and a reply to the node's
    address and that port is delivered to the pod. *)
Theorem masquerade_roundtrip f l proto node w w1 :
  wf_seg f l proto → pkt w = seg_bytes f l →
  CT w !! flow_of f l proto = None →
  SERVICES !! mkServiceKey (of_le (i4_dst f)) (of_le (sg_dport l)) proto = None →
  MASQ_CFG = Some node → node ≠ 0 → lpm_get NON_MASQ (i4_dst f) = None →
  l4_nat true w = (w1, Ok tt) →
  (∃ c k, pkt w1 = with_src (to_le 4 node) (sg_sport l) c k f l) ∧
  ∀ masq g m w2 w3,
    wf_seg g m proto → pkt w2 = seg_bytes g m → CT w2 = CT w1 →
    flow_of g m proto =
      mkCtKey (of_le (i4_dst f)) node (of_le (sg_dport l)) (of_le (sg_sport l)) proto →
    l4_nat masq w2 = (w3, Ok tt) →
    ∃ c k, pkt w3 = seg_bytes (ip4_set_dst (i4_src f) (ip4_set_csum c g))
                              (sg_set_dport (sg_sport l) (sg_set_csum k m)).
Proof.
  intros Hwf Hp Hct Hsvc Hcfg Hnode Hnm Hrun.
  destruct (seg_ends f l proto Hwf) as (Hs4 & _ & Hs2 & _).
  revert Hrun. match goal with |- _ → ?G => set (goal := G) end.
  unfold l4_nat, l4_nat_v4. run_loads Hwf Hp.
  rewrite bind_run. cbn [get]. unfold flow_of in Hct. rewrite Hct, Hsvc.
  unfold masq_v4. cbn [negb]. rewrite Hcfg, (proj2 (Z.eqb_neq _ _) Hnode).
  assert (load IP_DST_OFF 4 w = (w, Ok (i4_dst f))) as Hld.
  { destruct Hwf as [[] _ _ _ _ _ _]. apply (load_field 12 (seg_fields f l)); [done|done|flen..]. }
  rewrite (bind_ok Hld), Hnm. rewrite bool_decide_false by by intros [? ?].
  unfold goal. clear goal. intros (w2 & now & Hk & Hrun)%bind_inv. injection Hk as <- <-.
  rewrite bind_run in Hrun. cbn [ct_insert modify] in Hrun.
  rewrite bind_run in Hrun. cbn [ct_insert modify] in Hrun.
  apply bind_inv in Hrun as (w4 & [] & Hem & Hrun).
  apply bind_inv in Hrun as (w5 & [] & Hsn & Hrun).
  assert (pkt w4 = seg_bytes f l) as Hp4.
  { by rewrite (keeps_run pkt _ _ _ _ ltac:(by apply keeps_emit_flow) Hem). }
  pose proof (keeps_run CT _ _ _ _ ltac:(by apply keeps_emit_flow) Hem) as HC4.
  pose proof (keeps_run CT _ _ _ _ ltac:(by apply keeps_snat) Hsn) as HC5.
  pose proof (keeps_run CT _ _ _ _ ltac:(by apply keeps_stat_inc) Hrun) as HC6.
  pose proof (keeps_run pkt _ _ _ _ ltac:(by apply keeps_stat_inc) Hrun) as Hp6.
  eapply snat_run in Hsn as (c & k & Hrs & Hpk); [|done..]. rewrite Hs2 in Hpk.
  split; [exists c, k; by rewrite Hp6, Hpk|].
  intros masq g m w2 w3 Hg Hpg HCT Hfl Hrun2.
  erewrite ingress_applies in Hrun2; [|done|done|].
  2:{ rewrite HCT, HC6, HC5, HC4, Hfl. cbn [CT set_CT]. apply lru_insert_spec. }
  unfold apply_ct in Hrun2. cbn [ce_flags ce_rev_addr ce_rev_port] in Hrun2.
  change (has CT_F_DNAT CT_F_DNAT) with true in Hrun2. cbv iota in Hrun2.
  eapply dnat_run in Hrun2 as (c' & k' & _ & Hpk'); [|done..].
  exists c', k'. by rewrite Hpk', Hs4, Hs2.
Qed.
End claims.

(** ** Witnesses: a TCP connection to a service *)

Definition ex_ip (c src dst : bytes) : Ip4 :=
  mkIp4 [2; 0; 0; 0; 0; 1] [2; 0; 0; 0; 0; 2] [8; 0] [0x45] [0] [0; 42] [0; 0] [0; 0] [64] [6]
    c src dst (src ++ dst).
Definition ex_seg (sport dport k : bytes) : Seg :=
  mkSeg sport dport [0; 0; 0; 1; 0; 0; 0; 0; 0x50; 2; 0xff; 0xff] k [0; 0; 104; 105].
Definition ex_frame (c src dst sport dport k : bytes) : Ip4 * Seg :=
  let l := ex_seg sport dport k in (ip4_set_rest (sg_bytes l) (ex_ip c src dst), l).

(** 10.0.0.2:40000 asks 10.96.0.1:80; 10.0.1.5:8080 answers. *)
Definition ex_request : Ip4 * Seg := ex_frame [102; 108] [10; 0; 0; 2] [10; 96; 0; 1] [156; 64] [0; 80] [150; 131].
Definition ex_reply : Ip4 * Seg := ex_frame [101; 200] [10; 0; 1; 5] [10; 0; 0; 2] [31; 144] [156; 64] [118; 159].

#[local] Instance ex_l4 : L4Maps := {|
  SERVICES := {[ mkServiceKey (of_le [10; 96; 0; 1]) (of_le [0; 80]) 6 := mkServiceInfo 1 0 SVC_F_AFFINITY 7 ]};
  BACKENDS := {[ mkBackendKey 7 0 := mkBackend (of_le [10; 0; 1; 5]) (of_le [31; 144]) 0 ]};
  MASQ_CFG := Some (of_le [192; 168; 0; 1]); NON_MASQ := ∅; SERVICES6 := ∅; BACKENDS6 := ∅; L7_SERVICES := ∅ |}.

Lemma wf_ex c src dst sport dport k :
  length c = 2%nat → length src = 4%nat → length dst = 4%nat → length sport = 2%nat →
  length dport = 2%nat → length k = 2%nat →
  Forall is_byte (c ++ src ++ dst ++ sport ++ dport ++ k) →
  wf_seg (ex_frame c src dst sport dport k).1 (ex_frame c src dst sport dport k).2 6.
Proof.
  intros Hc Hs Hd Hsp Hdp Hk Hb. rewrite !Forall_app in Hb. unfold ex_frame. cbn.
  assert (∀ x, 0 ≤ x < 256 → is_byte x) as Hby by done.
  split; cbn; [| |done|done|by exists 0x45|done|by left].
  - split; cbn; try done. unfold ip4_bytes, sg_bytes; cbn.
    repeat (apply Forall_cons; split; [by apply Hby|]).
    rewrite !Forall_app; repeat split; try tauto;
      repeat first [apply Forall_nil_2 | apply Forall_cons; split; [by apply Hby|]].
    all: rewrite ?Forall_app; repeat split; try tauto; repeat first [apply Forall_nil_2 | apply Forall_cons; split; [by apply Hby|]].
  - split; cbn; try done. unfold sg_bytes; cbn.
    rewrite !Forall_app; repeat split; try tauto;
      repeat first [apply Forall_nil_2 | apply Forall_cons; split; [by apply Hby|]].
    all: rewrite ?Forall_app; repeat split; try tauto; repeat first [apply Forall_nil_2 | apply Forall_cons; split; [by apply Hby|]].
Qed.

Lemma wf_request : wf_seg ex_request.1 ex_request.2 6.
Proof. by apply wf_ex; [..|vm_compute; repeat constructor]. Qed.
Lemma wf_reply : wf_seg ex_reply.1 ex_reply.2 6.
Proof. by apply wf_ex; [..|vm_compute; repeat constructor]. Qed.

Definition ex_world : World := world_of (seg_bytes ex_request.1 ex_request.2).
Definition ex_run : World * res unit unit := l4_nat false ex_world.

Lemma service_roundtrip_witness :
  (∃ slot, 0 ≤ slot < 1 ∧
   match BACKENDS !! mkBackendKey 7 slot with
   | None => ex_run.2 = Ok tt ∧ pkt ex_run.1 = pkt ex_world ∧ CT ex_run.1 = CT ex_world
   | Some be =>
      (ex_run.2 = Ok tt → ∃ c k, pkt ex_run.1 = with_dst be c k ex_request.1 ex_request.2 ∧
         sent_on be c k ex_request.1 ex_request.2 6) ∧
      ∀ g m w2 w3,
        wf_seg g m 6 → pkt w2 = seg_bytes g m → CT w2 = CT ex_run.1 →
        flow_of g m 6 = mkCtKey (be_addr be) (of_le [10; 0; 0; 2]) (be_port be) (of_le [156; 64]) 6 →
        egress_reverse_snat w2 = (w3, Ok tt) ∨ l4_nat false w2 = (w3, Ok tt) →
        ∃ c k, pkt w3 = with_src [10; 96; 0; 1] [0; 80] c k g m ∧ sent_back [10; 96; 0; 1] [0; 80] c k g m 6
   end) ∧
  ex_run.2 = Ok tt ∧
  pkt (egress_reverse_snat (set_pkt (seg_bytes ex_reply.1 ex_reply.2) ex_run.1)).1 =
    with_src [10; 96; 0; 1] [0; 80] [102; 108] [150; 131] ex_reply.1 ex_reply.2.
Proof.
  split; [|split; vm_compute; reflexivity].
  apply (service_roundtrip false ex_request.1 ex_request.2 6
    (mkServiceInfo 1 0 SVC_F_AFFINITY 7) ex_world ex_run.1 ex_run.2).
  - apply wf_request.
  - reflexivity.
  - intros k a Hk. vm_compute in Hk. destruct k. discriminate.
  - intros k be Hk. cbn [BACKENDS ex_l4] in Hk. apply lookup_singleton_Some in Hk as [_ <-]. vm_compute. split; split; (discriminate || reflexivity).
  - vm_compute. reflexivity.
  - vm_compute. reflexivity.
  - cbn. lia.
  - apply surjective_pairing.
Defined.

Lemma nat_checksums_witness :
  let run := dnat 6 (of_le [10; 96; 0; 1]) (of_le [0; 80]) (of_le [10; 0; 1; 5]) (of_le [31; 144]) ex_world in
  run.2 = Ok tt ∧
  ∃ c k, pkt run.1 = with_dst (mkBackend (of_le [10; 0; 1; 5]) (of_le [31; 144]) 0) c k ex_request.1 ex_request.2 ∧
    csum_valid (ip4_header (ip4_set_dst [10; 0; 1; 5] (ip4_set_csum c ex_request.1))) ∧
    seg_ok (ip4_set_dst [10; 0; 1; 5] (ip4_set_csum c ex_request.1))
           (sg_set_dport [31; 144] (sg_set_csum k ex_request.2)) 6.
Proof.
  cbn zeta. set (run := dnat _ _ _ _ _ ex_world). assert (run.2 = Ok tt) as Hr by (vm_compute; reflexivity).
  split; [exact Hr|].
  apply (nat_checksums ex_request.1 ex_request.2 6 (of_le [10; 0; 1; 5]) (of_le [31; 144]) ex_world run.1).
  - apply wf_request.
  - reflexivity.
  - vm_compute. split; [discriminate|reflexivity].
  - vm_compute. split; [discriminate|reflexivity].
  - vm_compute. reflexivity.
  - right. vm_compute. reflexivity.
  - apply (ok_pair run tt Hr).
Defined.

Lemma affinity_sticky_witness :
  let svc := mkServiceInfo 3 0 SVC_F_AFFINITY 7 in
  let run := backend_slot svc 99 1000 ex_world in
  ∃ s w3, run.2 = Ok s ∧ 0 ≤ s < 3 ∧ backend_slot svc 99 2000 run.1 = (w3, Ok s).
Proof.
  cbn zeta. set (svc := mkServiceInfo 3 0 SVC_F_AFFINITY 7).
  apply (affinity_sticky svc 99 1000 2000 ex_world (backend_slot svc 99 1000 ex_world).1
    (backend_slot svc 99 1000 ex_world).1 (backend_slot svc 99 1000 ex_world).2).
  - cbn. lia.
  - intros k a Hk. vm_compute in Hk. destruct k. discriminate.
  - vm_compute. reflexivity.
  - apply surjective_pairing.
  - reflexivity.
  - lia.
  - lia.
  - unfold AFFINITY_TIMEOUT_NS. lia.
Defined.

(** 10.0.0.2:40000 reaches 10.0.9.1, outside the services, as 192.168.0.1. *)
Definition ex_out : Ip4 * Seg := ex_frame [102; 108] [10; 0; 0; 2] [10; 0; 9; 1] [156; 64] [0; 80] [150; 131].

Lemma masquerade_roundtrip_witness :
  let w := world_of (seg_bytes ex_out.1 ex_out.2) in
  let run := l4_nat true w in
  run.2 = Ok tt ∧
  (∃ c k, pkt run.1 = with_src [192; 168; 0; 1] [156; 64] c k ex_out.1 ex_out.2) ∧
  ∀ masq g m w2 w3,
    wf_seg g m 6 → pkt w2 = seg_bytes g m → CT w2 = CT run.1 →
    flow_of g m 6 =
      mkCtKey (of_le [10; 0; 9; 1]) (of_le [192; 168; 0; 1]) (of_le [0; 80]) (of_le [156; 64]) 6 →
    l4_nat masq w2 = (w3, Ok tt) →
    ∃ c k, pkt w3 = seg_bytes (ip4_set_dst [10; 0; 0; 2] (ip4_set_csum c g))
                              (sg_set_dport [156; 64] (sg_set_csum k m)).
Proof.
  cbn zeta. set (run := l4_nat true _). assert (run.2 = Ok tt) as Hr by (vm_compute; reflexivity).
  split; [exact Hr|].
  apply (masquerade_roundtrip ex_out.1 ex_out.2 6 (of_le [192; 168; 0; 1])
    (world_of (seg_bytes ex_out.1 ex_out.2)) run.1).
  - by apply wf_ex; [..|vm_compute; repeat constructor].
  - reflexivity.
  - vm_compute. reflexivity.
  - vm_compute. reflexivity.
  - reflexivity.
  - vm_compute. discriminate.
  - vm_compute. reflexivity.
  - apply (ok_pair run tt Hr).
Defined.

(** ** A UDP/IPv6 checksum can be lost *)

(** Pseudo-header and datagram of an IPv6 frame without extension headers. *)
Definition udp6_sum (p : bytes) : Z :=
  sum16 (drop 22 p) + sum16 [0; IPPROTO_UDP] + sum16 (take 2 (drop 18 p)).
(** RFC 8200: the checksum is not null and verifies. *)
Definition udp6_ok (p : bytes) : Prop :=
  udp6_sum p mod 65535 = 0 ∧ rd p (IP6_L4_OFF + 6) 2 ≠ Some [0; 0].

Definition v6_addr (last : Z) : bytes := [0xfd; 0; 0; 0; 0; 0; 0; 0; 0; 0; 0; 0; 0; 0; 0; last].
Definition ex_udp6 : bytes :=
  [2; 0; 0; 0; 0; 1; 2; 0; 0; 0; 0; 2; 0x86; 0xdd; 0x60; 0; 0; 0; 0; 12; 17; 64] ++ v6_addr 2 ++ v6_addr 1
  ++ [156; 64; 0; 53; 0; 12; 0; 52; 105; 40; 0; 0].

(** [v6_csum_fixup] marks only its last update with
    [BPF_F_MARK_MANGLED_0]: when the address words bring the checksum to
    zero, the port's update is skipped, and a UDP/IPv6 datagram whose checksum
    verified leaves with a null one. *)
Theorem dnat6_can_lose_udp_checksum :
  ∃ p old new old_port new_port w',
    udp6_ok p ∧ rd p IP6_DST_OFF 16 = Some old ∧ rd p (IP6_L4_OFF + 2) 2 = Some (to_le 2 old_port) ∧
    dnat6 IPPROTO_UDP old new old_port new_port (world_of p) = (w', Ok tt) ∧
    rd (pkt w') IP6_DST_OFF 16 = Some new ∧ rd (pkt w') (IP6_L4_OFF + 6) 2 = Some [0; 0] ∧
    udp6_sum (pkt w') mod 65535 ≠ 0.
Proof.
  exists ex_udp6, (v6_addr 1), (v6_addr 0x35), (of_le [0; 53]), (of_le [0x14; 0xe9]).
  eexists. split; [by vm_compute|]. split; [done|]. split; [done|].
  split; [vm_compute; reflexivity|]. by vm_compute.
Qed.
