(* ===== verification/Encap.v ===== *)
(** * Nexthops and tunnel imposition (TC stage)

    Nexthop resolution with failover, the explicit Ethernet rewrite, and every
    encapsulation of [crates/cradle-ebpf/src/main.rs] the TC stage performs:
    MPLS label push, SRv6 H.Encaps and H.Insert, GTP-U over IPv4 and IPv6,
    and the EVPN symmetric-IRB VXLAN header. *)

From S2P Require Import Prelude.
From S2P Require Import Contract.
From S2P Require Import Common.
From S2P Require Import Bpf.
From S2P Require Import Frames.
From S2P Require Import Maps.

Definition MPLS_LSE_OFF : Z := ETH_HLEN.
Definition IP6_PAYLOAD_LEN_OFF : Z := ETH_HLEN + 4.
Definition IP6_VER_TC_FL : Z := 0x60000000.
Definition IPPROTO_IPIP : Z := 4.
Definition IPPROTO_IPV6 : Z := 41.
Definition IPPROTO_ROUTING : Z := 43.
Definition IPPROTO_ETHERNET : Z := 143.
Definition SRH_OFF : Z := ETH_HLEN + IP6_HDR_LEN.
Definition SRH_SL_OFF : Z := SRH_OFF + 3.
Definition SRH_LAST_ENTRY_OFF : Z := SRH_OFF + 4.
Definition SRH_SEGLIST_OFF : Z := SRH_OFF + 8.

(** Entry [j] of a [segs: [[u8; 16]; MAX_SEGS]] or [labels] array. *)
Definition seg_at (segs : list bytes) (j : Z) : bytes := default (replicate 16 0) (segs !! Z.to_nat j).
Definition label_at (labels : list Z) (j : Z) : Z := default 0 (labels !! Z.to_nat j).

(** [(ctx.len() as usize).saturating_sub(EthHdr::LEN)] *)
Definition inner_length (len : Z) : Z := Z.max 0 (len - ETH_HLEN).

(** [for i in lo..hi { if i >= n { break } f(i) }], [hi - lo] being [fuel]. *)
Fixpoint for_upto (fuel : nat) (i n : Z) (f : Z → Prog unit) : Prog unit :=
  match fuel with
  | O => mret tt
  | S fuel => if n <=? i then mret tt else _ ← f i; for_upto fuel (i + 1) n f
  end.

Section encap.
Context `{Kernel} `{FibMaps} `{TunnelMaps} `{L3Maps}.

(** ** Nexthops *)

(** The effective nexthop of an id: its backup when the egress link is down. *)
Definition resolve_nh (nh_id : Z) : Prog (option (Z * NextHop)) :=
  match NEXTHOPS !! nh_id with
  | None => mret None
  | Some nh =>
      if negb (nh_backup_id nh =? 0) && bool_decide (is_Some (LINK_DOWN !! nh_oif nh)) then
        match NEXTHOPS !! nh_backup_id nh with
        | None => mret None
        | Some b => _ ← stat_inc STAT_NH_BACKUP; mret (Some (nh_backup_id nh, b))
        end
      else mret (Some (nh_id, nh))
  end.

Definition fib6_lookup (vrf_id : Z) (dst : bytes) : Prog (option FibEntry) :=
  if negb (vrf_id =? 0) then
    match lpm_get FIB6_VRF (vrf_key vrf_id dst) with
    | Some fib => _ ← stat_inc STAT_FIB6_VRF_HIT; mret (Some fib)
    | None => mret None
    end
  else mret (lpm_get FIB6 dst).

(** [(dst_mac, src_mac)] of a nexthop's egress Ethernet header. *)
Definition tc_resolve_l2 (nh : NextHop) : option (bytes * bytes) :=
  dst_mac ← (if has (nh_flags nh) NH_F_V6
             then ne_mac <$> NEIGH6 !! mkNeigh6Key (nh_oif nh) (nh_gateway_v6 nh)
             else ne_mac <$> NEIGH4 !! mkNeigh4Key (nh_oif nh) (nh_gateway_v4 nh));
  src_mac ← pc_mac <$> PORTS !! nh_oif nh;
  Some (dst_mac, src_mac).

Definition l2_xmit (nh : NextHop) (ethertype : Z) : Prog Z :=
  match tc_resolve_l2 nh with
  | None => mret TC_ACT_PIPE
  | Some (dst_mac, src_mac) =>
      _ ← store ETH_DST_OFF dst_mac;
      _ ← store ETH_SRC_OFF src_mac;
      _ ← store ETH_TYPE_OFF (to_be 2 ethertype);
      redirect (nh_oif nh)
  end.

Definition mpls_l2_xmit (nh : NextHop) : Prog Z := l2_xmit nh ETH_P_MPLS_UC.

(** ** MPLS imposition *)

Definition mpls_push (nh : NextHop) (ttl : Z) : Prog Z :=
  let n := nh_num_labels nh in
  if (n =? 0) || (MAX_LABELS <? n) then mret TC_ACT_PIPE else
  let seed_ttl := if has (nh_flags nh) NH_F_MPLS_PIPE then MPLS_PIPE_TTL else ttl in
  _ ← adjust_room (4 * n) BPF_ADJ_ROOM_MAC 0;
  _ ← for_upto (Z.to_nat MAX_LABELS) 0 n (λ i,
        let s := if i =? n - 1 then 1 else 0 in
        store (MPLS_LSE_OFF + 4 * i) (to_be 4 (mpls_lse (label_at (nh_labels nh) i) 0 s seed_ttl)));
  _ ← store ETH_TYPE_OFF (to_be 2 ETH_P_MPLS_UC);
  _ ← stat_inc STAT_MPLS_PUSH;
  mpls_l2_xmit nh.

(** ** SRv6 imposition *)

(** One H.Encaps layer; [Some act]: bail out with that action. *)
Definition apply_hencap (enc : Srv6Encap) (inner_ethertype : Z) : Prog (option Z) :=
  let n := se_num_segs enc in
  if (n =? 0) || (MAX_SEGS <? n) then mret (Some TC_ACT_PIPE) else
  match SRV6_ENCAP_SRC with
  | None => mret (Some TC_ACT_PIPE)
  | Some src =>
      let inner_proto := if inner_ethertype =? ETH_P_IPV6 then IPPROTO_IPV6 else IPPROTO_IPIP in
      let srh_len := if n =? 1 then 0 else 8 + 16 * (n - 1) in
      let hdr_len := IP6_HDR_LEN + srh_len in
      len ← frame_len;
      let payload_len := wrap 16 (inner_length len + srh_len) in
      _ ← adjust_room hdr_len BPF_ADJ_ROOM_MAC 0;
      let outer_nh := if n =? 1 then inner_proto else IPPROTO_ROUTING in
      _ ← store ETH_HLEN (to_be 4 IP6_VER_TC_FL);
      _ ← store IP6_PAYLOAD_LEN_OFF (to_be 2 payload_len);
      _ ← store IP6_NEXTHDR_OFF [outer_nh];
      _ ← store IP6_HOP_OFF [64];
      _ ← store IP6_SRC_OFF src;
      _ ← store IP6_DST_OFF (seg_at (se_segs enc) 0);
      _ ← (if 1 <? n then
             _ ← store SRH_OFF [inner_proto];
             _ ← store (SRH_OFF + 1) [2 * (n - 1)];
             _ ← store (SRH_OFF + 2) [4];
             _ ← store SRH_SL_OFF [n - 1];
             _ ← store (SRH_OFF + 4) [n - 2];
             _ ← store (SRH_OFF + 5) [0];
             _ ← store (SRH_OFF + 6) [0; 0];
             for_upto (Z.to_nat (MAX_SEGS - 1)) 1 n (λ j,
               store (SRH_SEGLIST_OFF + 16 * (n - 1 - j)) (seg_at (se_segs enc) j))
           else mret tt);
      mret None
  end.

(** H.Insert: an SRH into the existing IPv6 packet. *)
Definition srv6_insert (enc : Srv6Encap) (nh : NextHop) : Prog Z :=
  let n := se_num_segs enc in
  hop ← load_ne 1 IP6_HOP_OFF;
  if hop <=? 1 then mret TC_ACT_PIPE else
  orig_da ← load IP6_DST_OFF 16;
  orig_nh ← load_ne 1 IP6_NEXTHDR_OFF;
  payload_len ← load_be 2 IP6_PAYLOAD_LEN_OFF;
  let srh_len := 8 + 16 * (n + 1) in
  _ ← adjust_room srh_len BPF_ADJ_ROOM_NET 0;
  _ ← store IP6_NEXTHDR_OFF [IPPROTO_ROUTING];
  _ ← store IP6_PAYLOAD_LEN_OFF (to_be 2 (wrap 16 (payload_len + wrap 16 srh_len)));
  _ ← store IP6_HOP_OFF [hop - 1];
  _ ← store SRH_OFF [orig_nh];
  _ ← store (SRH_OFF + 1) [2 * (n + 1)];
  _ ← store (SRH_OFF + 2) [4];
  _ ← store SRH_SL_OFF [n];
  _ ← store (SRH_OFF + 4) [n];
  _ ← store (SRH_OFF + 5) [0];
  _ ← store (SRH_OFF + 6) [0; 0];
  _ ← store SRH_SEGLIST_OFF orig_da;
  _ ← for_upto (Z.to_nat MAX_SEGS) 0 n (λ j,
        store (SRH_SEGLIST_OFF + 16 * (n - j)) (seg_at (se_segs enc) j));
  _ ← store IP6_DST_OFF (seg_at (se_segs enc) 0);
  _ ← stat_inc STAT_SRV6_HINSERT;
  l2_xmit nh ETH_P_IPV6.

(** The post-encap lookup: a second layer when the new outer destination
    itself resolves to an H.Encaps route. [None]: leave by the first nexthop. *)
Definition srv6_second_layer (enc : Srv6Encap) : Prog (option NextHop) :=
  fib ← fib6_lookup 0 (seg_at (se_segs enc) 0);
  match fib with
  | Some fib =>
      if has (flags fib) (FIB_F_LOCAL .| FIB_F_BLACKHOLE .| FIB_F_ECMP) then mret None else
      r ← resolve_nh (nexthop_id fib);
      match r with
      | Some (nh2_id, nh2) =>
          if negb (has (nh_flags nh2) NH_F_SRV6) then mret None else
          match SRV6_ENCAP !! nh2_id with
          | Some enc2 =>
              let n2 := se_num_segs enc2 in
              if negb (se_mode enc2 =? SRV6_ENCAP_MODE_INSERT) && (1 <=? n2) && (n2 <=? MAX_SEGS) then
                bail ← apply_hencap enc2 ETH_P_IPV6;
                match bail with
                | None => _ ← stat_inc STAT_SRV6_ENCAP; mret (Some nh2)
                | Some _ => mret None
                end
              else mret None
          | None => mret None
          end
      | None => mret None
      end
  | None => mret None
  end.

Definition srv6_encap (nh_id : Z) (nh : NextHop) (inner_ethertype : Z) : Prog Z :=
  match SRV6_ENCAP !! nh_id with
  | None => mret TC_ACT_PIPE
  | Some enc =>
      let n := se_num_segs enc in
      if (n =? 0) || (MAX_SEGS <? n) then mret TC_ACT_PIPE
      else if se_mode enc =? SRV6_ENCAP_MODE_INSERT then
        if negb (inner_ethertype =? ETH_P_IPV6) then mret TC_ACT_PIPE else srv6_insert enc nh
      else
        bail ← apply_hencap enc inner_ethertype;
        match bail with
        | Some _ => mret TC_ACT_PIPE
        | None =>
            _ ← stat_inc STAT_SRV6_ENCAP;
            second ← srv6_second_layer enc;
            match second with
            | Some nh2 => l2_xmit nh2 ETH_P_IPV6
            | None => l2_xmit nh ETH_P_IPV6
            end
        end
  end.

(** ** GTP-U imposition *)

Definition gtp_encap (nh_id : Z) (nh : NextHop) : Prog Z :=
  match GTP_ENCAP !! nh_id with
  | None => mret TC_ACT_PIPE
  | Some enc =>
      len ← frame_len;
      let inner_len := wrap 16 (inner_length len) in
      let ip_total := wrap 16 (inner_len + GTP_ENCAP_HDR_LEN) in
      let udp_len := wrap 16 (inner_len + 16) in
      let gtp_len := inner_len in
      _ ← adjust_room GTP_ENCAP_HDR_LEN BPF_ADJ_ROOM_MAC 0;
      let csum := ipv4_hdr_csum ip_total (ge_src enc) (ge_dst enc) in
      _ ← store IP_VER_IHL_OFF [0x45];
      _ ← store (IP_VER_IHL_OFF + 1) [0];
      _ ← store (IP_VER_IHL_OFF + 2) (to_be 2 ip_total);
      _ ← store (IP_VER_IHL_OFF + 4) [0; 0];
      _ ← store (IP_VER_IHL_OFF + 6) [0; 0];
      _ ← store IP_TTL_OFF [64];
      _ ← store IP_PROTO_OFF [IPPROTO_UDP];
      _ ← store IP_CSUM_OFF (to_be 2 csum);
      _ ← store IP_SRC_OFF (ge_src enc);
      _ ← store IP_DST_OFF (ge_dst enc);
      _ ← store L4_OFF (to_be 2 GTP_PORT);
      _ ← store (L4_OFF + 2) (to_be 2 GTP_PORT);
      _ ← store (L4_OFF + 4) (to_be 2 udp_len);
      _ ← store (L4_OFF + 6) [0; 0];
      _ ← store (L4_OFF + 8) [0x30];
      _ ← store (L4_OFF + 9) [0xFF];
      _ ← store (L4_OFF + 10) (to_be 2 gtp_len);
      _ ← store (L4_OFF + 12) (ge_teid enc);
      _ ← stat_inc STAT_GTP_ENCAP;
      l2_xmit nh ETH_P_IP
  end.

Definition gtp6_encap (nh_id : Z) (nh : NextHop) : Prog Z :=
  match GTP6_ENCAP !! nh_id with
  | None => mret TC_ACT_PIPE
  | Some enc =>
      len ← frame_len;
      let inner_len := wrap 16 (inner_length len) in
      let udp_len := wrap 16 (inner_len + 16) in
      let gtp_len := inner_len in
      _ ← adjust_room GTP6_ENCAP_HDR_LEN BPF_ADJ_ROOM_MAC 0;
      _ ← store ETH_HLEN (to_be 4 0x60000000);
      _ ← store (ETH_HLEN + 4) (to_be 2 udp_len);
      _ ← store (ETH_HLEN + 6) [IPPROTO_UDP];
      _ ← store (ETH_HLEN + 7) [64];
      _ ← store IP6_SRC_OFF (g6_src enc);
      _ ← store IP6_DST_OFF (g6_dst enc);
      let L4 := ETH_HLEN + IP6_HDR_LEN in
      _ ← store L4 (to_be 2 GTP_PORT);
      _ ← store (L4 + 2) (to_be 2 GTP_PORT);
      _ ← store (L4 + 4) (to_be 2 udp_len);
      _ ← store (L4 + 6) [0; 0];
      _ ← store (L4 + 8) [0x30];
      _ ← store (L4 + 9) [0xFF];
      _ ← store (L4 + 10) (to_be 2 gtp_len);
      _ ← store (L4 + 12) (g6_teid enc);
      _ ← stat_inc STAT_GTP_ENCAP;
      l2_xmit nh ETH_P_IPV6
  end.

(** ** VXLAN with an L3VNI (EVPN symmetric IRB) *)

Definition vxlan_l3_encap (nh_id : Z) (nh : NextHop) (inner_et : Z) : Prog Z :=
  match VXLAN_ENCAP !! nh_id with
  | None => mret TC_ACT_PIPE
  | Some enc =>
  match VNI_INFO !! ve_l3vni enc with
  | None => mret TC_ACT_PIPE
  | Some info =>
  match VXLAN_SRC with
  | None => mret TC_ACT_PIPE
  | Some src4 =>
      if bool_decide (src4 = [0; 0; 0; 0]) then mret TC_ACT_PIPE else
      let local_rmac := vi_rmac info in
      len ← frame_len;
      let inner_len := wrap 16 (inner_length len) in
      let ip_total := wrap 16 (inner_len + VXLAN_L3_GROW) in
      let udp_len := wrap 16 (inner_len + (VXLAN_L3_GROW - 20)) in
      let fl := BPF_F_ADJ_ROOM_ENCAP_L3_IPV4 .| BPF_F_ADJ_ROOM_ENCAP_L4_UDP
                .| BPF_F_ADJ_ROOM_ENCAP_L2_ETH .| BPF_F_ADJ_ROOM_NO_CSUM_RESET
                .| bpf_f_adj_room_encap_l2 ETH_HLEN in
      _ ← adjust_room VXLAN_L3_GROW BPF_ADJ_ROOM_MAC fl;
      let csum := ipv4_hdr_csum ip_total src4 (ve_vtep enc) in
      _ ← store IP_VER_IHL_OFF [0x45];
      _ ← store (IP_VER_IHL_OFF + 1) [0];
      _ ← store (IP_VER_IHL_OFF + 2) (to_be 2 ip_total);
      _ ← store (IP_VER_IHL_OFF + 4) [0; 0];
      _ ← store (IP_VER_IHL_OFF + 6) [0; 0];
      _ ← store IP_TTL_OFF [64];
      _ ← store IP_PROTO_OFF [IPPROTO_UDP];
      _ ← store IP_CSUM_OFF (to_be 2 csum);
      _ ← store IP_SRC_OFF src4;
      _ ← store IP_DST_OFF (ve_vtep enc);
      _ ← store L4_OFF (to_be 2 VXLAN_PORT);
      _ ← store (L4_OFF + 2) (to_be 2 VXLAN_PORT);
      _ ← store (L4_OFF + 4) (to_be 2 udp_len);
      _ ← store (L4_OFF + 6) [0; 0];
      _ ← store VXLAN_HDR_OFF (to_be 4 0x08000000);
      _ ← store (VXLAN_HDR_OFF + 4) (to_be 4 (wrap 32 (ve_l3vni enc ≪ 8)));
      _ ← store VXLAN_L3_INNER_OFF (ve_rmac enc);
      _ ← store (VXLAN_L3_INNER_OFF + 6) local_rmac;
      _ ← store (VXLAN_L3_INNER_OFF + 12) (to_be 2 inner_et);
      _ ← stat_inc STAT_VXLAN_ENCAP;
      l2_xmit nh ETH_P_IP
  end
  end
  end.
End encap.
