(* ===== verification/L3.v ===== *)
(** * L3 forwarding and the TC ingress program

    Route lookup, ECMP, the v4 and v6 forwarding pipelines, MPLS swap,
    End.Replicate fan-out, L7 steering and the dispatcher [try_main] of
    [crates/cradle-ebpf/src/main.rs]. *)

From S2P Require Import Prelude.
From S2P Require Import Contract.
From S2P Require Import Common.
From S2P Require Import Dir24.
From S2P Require Import Bpf.
From S2P Require Import Maps.
From S2P Require Import L2.
From S2P Require Import Policy.
From S2P Require Import Nat.
From S2P Require Import Encap.

(** ** Flow hashes *)

Definition rotl16 (x : Z) : Z := wrap 32 (x ≪ 16) .| (x ≫ 16).

(** Murmur3's 32-bit finalizer. *)
Definition fmix32 (h : Z) : Z :=
  let h := h .^ (h ≫ 16) in
  let h := wrap 32 (h * 0x85ebca6b) in
  let h := h .^ (h ≫ 13) in
  let h := wrap 32 (h * 0xc2b2ae35) in
  h .^ (h ≫ 16).

Section l3.
Context `{Kernel} `{FibMaps} `{TunnelMaps} `{L3Maps} `{L2Maps} `{PolicyMaps} `{L4Maps}.

(** ** The XDP stage's hand-off *)

(** The metadata window, if it carries one of the given magics. *)
Definition tc_meta (magics : list Z) : Prog (option CradleXdpMeta) :=
  w ← get;
  mret (match xmeta w with
        | Some m => if existsb (λ magic, xm_magic m =? magic .^ meta_cookie) magics then Some m else None
        | None => None
        end).

Definition tc_meta_dx2 : Prog Z :=
  m ← tc_meta [XDP_META_MAGIC_DX2]; mret (from_option xm_vrf_id 0 m).
Definition tc_meta_dx : Prog Z :=
  m ← tc_meta [XDP_META_MAGIC_DX]; mret (from_option xm_vrf_id 0 m).
Definition tc_meta_vrf : Prog Z :=
  m ← tc_meta [XDP_META_MAGIC; XDP_META_MAGIC_SRV6; XDP_META_MAGIC_GTP];
  mret (from_option xm_vrf_id 0 m).
Definition tc_meta_from_srv6 : Prog bool :=
  m ← tc_meta [XDP_META_MAGIC_SRV6]; mret (bool_decide (is_Some m)).
Definition tc_meta_from_gtp : Prog bool :=
  m ← tc_meta [XDP_META_MAGIC_GTP]; mret (bool_decide (is_Some m)).
Definition tc_meta_l2 : Prog (option (Z * Z)) :=
  m ← tc_meta [XDP_META_MAGIC_L2];
  mret ((λ m, (wrap 16 (xm_vrf_id m), xm_es_bits m)) <$> m).
Definition tc_meta_repl : Prog bool :=
  m ← tc_meta [XDP_META_MAGIC_REPL]; mret (bool_decide (is_Some m)).

(** ** ECMP *)

Definition ecmp_member (group_id hash : Z) : option Z :=
  count ← NHGROUP !! group_id;
  if count =? 0 then None
  else NHGROUP_MEMBER !! mkNhGroupKey group_id (hash mod count).

Definition flow_hash_v4 (src dst : Z) : Prog Z :=
  proto ← unwrap_or 0 (load_ne 1 IP_PROTO_OFF);
  let h := src .^ rotl16 dst .^ proto in
  h ← (if is_l4 proto then
         ports ← catch (load_ne 4 L4_OFF);
         mret (match ports with Some ports => h .^ ports | None => h end)
       else mret h);
  mret (fmix32 h).

Definition flow_hash_v6 (src dst : bytes) : Prog Z :=
  let sw := ne_word src in
  let dw := ne_word dst in
  let h := (sw 0%nat .^ sw 1%nat .^ sw 2%nat .^ sw 3%nat)
           .^ rotl16 (dw 0%nat .^ dw 1%nat .^ dw 2%nat .^ dw 3%nat) in
  nexthdr ← unwrap_or 0 (load_ne 1 IP6_NEXTHDR_OFF);
  let h := h .^ nexthdr in
  h ← (if is_l4 nexthdr then
         ports ← catch (load_ne 4 IP6_L4_OFF);
         mret (match ports with Some ports => h .^ ports | None => h end)
       else mret h);
  mret (fmix32 h).

(** ** Route lookup *)

Definition stat_all (idxs : list Z) : Prog unit := mfold (λ _ i, stat_inc i) idxs tt.

Definition fib4_lookup (vrf_id : Z) (dst : bytes) : Prog (option FibEntry) :=
  if negb (vrf_id =? 0) then
    match lpm_get FIB4_VRF (vrf_key vrf_id dst) with
    | Some fib => _ ← stat_inc STAT_FIB4_VRF_HIT; mret (Some fib)
    | None => mret None
    end
  else if negb (dpc DPC_FIB4_DIR24) then mret (lpm_get FIB4 dst)
  else
    let '(fib, hits) := dir24_lookup TBLS (of_be dst) in
    _ ← stat_all hits; mret fib.

(** The decap metadata's VRF, else the ingress port's. *)
Definition routing_vrf (port_vrf : Z) : Prog Z :=
  meta_vrf ← tc_meta_vrf;
  mret (if meta_vrf =? 0 then port_vrf else meta_vrf).

(** ** IPv4 *)

(** Egress policy for a packet a local endpoint sent: is it dropped? *)
Definition egress_policy_v4 (port_vrf from_ep : Z) : Prog bool :=
  if from_ep =? 0 then mret false else
  match EP_POLICY !! from_ep with
  | None => mret false
  | Some ep_flags =>
      denied ← (if has ep_flags EP_F_EGRESS
                then unwrap_or true (policy_denied from_ep (dir_gen ep_flags POLICY_DIR_EGRESS) port_vrf)
                else mret false);
      if (denied : bool) then
        if has ep_flags EP_F_AUDIT then
          _ ← stat_inc STAT_POLICY_AUDIT;
          w ← get;
          _ ← emit_flow_v4 FLOW_AUDITED FLOW_DIR_EGRESS from_ep (peer_id w);
          mret false
        else
          _ ← stat_inc STAT_POLICY_DROP;
          w ← get;
          _ ← emit_flow_v4 FLOW_DROPPED FLOW_DIR_EGRESS from_ep (peer_id w);
          mret true
      else mret false
  end.

(** The last leg of a plain forward: TTL, checksum, neighbour redirect. *)
Definition l3_xmit_v4 (nh : NextHop) (dst : bytes) (from_ep : Z) : Prog Z :=
  ttl ← load_ne 1 IP_TTL_OFF;
  if ttl <=? 1 then mret TC_ACT_PIPE else
  old_word ← load_ne 2 IP_TTL_OFF;
  let new_word := old_word - 1 in
  _ ← store IP_TTL_OFF (to_le 2 new_word);
  _ ← l3_csum IP_CSUM_OFF old_word new_word 2;
  let nh_octets := if negb (nh_gateway_v4 nh =? 0) then to_be 4 (nh_gateway_v4 nh) else dst in
  _ ← stat_inc STAT_L3V4_FORWARD;
  let '(dir, ep) := if negb (from_ep =? 0) then (FLOW_DIR_EGRESS, 0) else (FLOW_DIR_INGRESS, nh_oif nh) in
  _ ← emit_flow_v4 FLOW_FORWARDED dir ep 0;
  redirect_neigh (nh_oif nh) AF_INET nh_octets.

(** Impose the nexthop's tunnel, or forward plainly. *)
Definition l3_egress_v4 (nh_id : Z) (nh : NextHop) (dst : bytes) (from_ep : Z) : Prog Z :=
  if has (nh_flags nh) NH_F_SRV6 then
    from_gtp ← tc_meta_from_gtp;
    if (from_gtp : bool) then _ ← stat_inc STAT_DROP; mret TC_ACT_SHOT else
    ttl ← load_ne 1 IP_TTL_OFF;
    if ttl <=? 1 then mret TC_ACT_PIPE else srv6_encap nh_id nh ETH_P_IP
  else if has (nh_flags nh) NH_F_GTP then
    from_srv6 ← tc_meta_from_srv6;
    if (from_srv6 : bool) then _ ← stat_inc STAT_DROP; mret TC_ACT_SHOT else gtp_encap nh_id nh
  else if has (nh_flags nh) NH_F_GTP6 then
    from_srv6 ← tc_meta_from_srv6;
    if (from_srv6 : bool) then _ ← stat_inc STAT_DROP; mret TC_ACT_SHOT else gtp6_encap nh_id nh
  else if has (nh_flags nh) NH_F_VXLAN then vxlan_l3_encap nh_id nh ETH_P_IP
  else if has (nh_flags nh) NH_F_MPLS && (0 <? nh_num_labels nh) then
    ttl ← load_ne 1 IP_TTL_OFF;
    if ttl <=? 1 then mret TC_ACT_PIPE else mpls_push nh ttl
  else l3_xmit_v4 nh dst from_ep.

Definition l3_forward_v4 (port_vrf from_ep : Z) : Prog Z :=
  dx_nh ← tc_meta_dx;
  if negb (dx_nh =? 0) then
    r ← resolve_nh dx_nh;
    match r with Some (_, nh) => l2_xmit nh ETH_P_IP | None => mret TC_ACT_PIPE end
  else
  drop ← egress_policy_v4 port_vrf from_ep;
  if (drop : bool) then mret TC_ACT_SHOT else
  dst ← load IP_DST_OFF 4;
  vrf_id ← routing_vrf port_vrf;
  fib ← fib4_lookup vrf_id dst;
  match fib with
  | None => mret TC_ACT_PIPE
  | Some fib =>
      if has (flags fib) FIB_F_BLACKHOLE then _ ← stat_inc STAT_DROP; mret TC_ACT_SHOT
      else if has (flags fib) FIB_F_LOCAL then _ ← stat_inc STAT_L3_LOCAL; mret TC_ACT_PIPE
      else
      nh_id ← (if has (flags fib) FIB_F_ECMP then
                 src ← load IP_SRC_OFF 4;
                 hash ← flow_hash_v4 (of_le src) (of_le dst);
                 mret (ecmp_member (nexthop_id fib) hash)
               else mret (Some (nexthop_id fib)));
      match nh_id with
      | None => mret TC_ACT_PIPE
      | Some nh_id =>
          r ← resolve_nh nh_id;
          '(nh_id, nh) ← must r;
          l3_egress_v4 nh_id nh dst from_ep
      end
  end.

(** ** IPv6 *)

Definition egress_policy_v6 (port_vrf from_ep : Z) : Prog bool :=
  if from_ep =? 0 then mret false else
  match EP_POLICY !! from_ep with
  | None => mret false
  | Some ep_flags =>
      denied ← (if has ep_flags EP_F_EGRESS
                then unwrap_or true (policy_denied_v6 from_ep (dir_gen ep_flags POLICY_DIR_EGRESS) port_vrf)
                else mret false);
      if (denied : bool) then
        if has ep_flags EP_F_AUDIT then _ ← stat_inc STAT_POLICY_AUDIT; mret false
        else _ ← stat_inc STAT_POLICY_DROP; mret true
      else mret false
  end.

Definition l3_xmit_v6 (nh : NextHop) (dst : bytes) : Prog Z :=
  hop ← load_ne 1 IP6_HOP_OFF;
  if hop <=? 1 then mret TC_ACT_PIPE else
  let new_hop := hop - 1 in
  _ ← store IP6_HOP_OFF [new_hop];
  let nh6 := if bool_decide (nh_gateway_v6 nh = replicate 16 0) then dst else nh_gateway_v6 nh in
  _ ← stat_inc STAT_L3V6_FORWARD;
  redirect_neigh (nh_oif nh) AF_INET6 nh6.

Definition l3_egress_v6 (nh_id : Z) (nh : NextHop) (dst : bytes) : Prog Z :=
  if has (nh_flags nh) NH_F_SRV6 then
    from_gtp ← tc_meta_from_gtp;
    if (from_gtp : bool) then _ ← stat_inc STAT_DROP; mret TC_ACT_SHOT else
    hop ← load_ne 1 IP6_HOP_OFF;
    if hop <=? 1 then mret TC_ACT_PIPE else srv6_encap nh_id nh ETH_P_IPV6
  else if has (nh_flags nh) NH_F_GTP then
    from_srv6 ← tc_meta_from_srv6;
    if (from_srv6 : bool) then _ ← stat_inc STAT_DROP; mret TC_ACT_SHOT else gtp_encap nh_id nh
  else if has (nh_flags nh) NH_F_GTP6 then
    from_srv6 ← tc_meta_from_srv6;
    if (from_srv6 : bool) then _ ← stat_inc STAT_DROP; mret TC_ACT_SHOT else gtp6_encap nh_id nh
  else if has (nh_flags nh) NH_F_VXLAN then vxlan_l3_encap nh_id nh ETH_P_IPV6
  else if has (nh_flags nh) NH_F_MPLS && (0 <? nh_num_labels nh) then
    hop ← load_ne 1 IP6_HOP_OFF;
    if hop <=? 1 then mret TC_ACT_PIPE else mpls_push nh hop
  else l3_xmit_v6 nh dst.

Definition l3_forward_v6 (port_vrf from_ep : Z) : Prog Z :=
  dx_nh ← tc_meta_dx;
  if negb (dx_nh =? 0) then
    r ← resolve_nh dx_nh;
    match r with Some (_, nh) => l2_xmit nh ETH_P_IPV6 | None => mret TC_ACT_PIPE end
  else
  drop ← egress_policy_v6 port_vrf from_ep;
  if (drop : bool) then mret TC_ACT_SHOT else
  dst ← load IP6_DST_OFF 16;
  if bool_decide (is_Some (lpm_get SRV6_LOCALSID dst)) then mret TC_ACT_PIPE else
  vrf_id ← routing_vrf port_vrf;
  fib ← fib6_lookup vrf_id dst;
  match fib with
  | None => mret TC_ACT_PIPE
  | Some fib =>
      if has (flags fib) FIB_F_BLACKHOLE then _ ← stat_inc STAT_DROP; mret TC_ACT_SHOT
      else if has (flags fib) FIB_F_LOCAL then _ ← stat_inc STAT_L3_LOCAL; mret TC_ACT_PIPE
      else
      nh_id ← (if has (flags fib) FIB_F_ECMP then
                 src ← load IP6_SRC_OFF 16;
                 hash ← flow_hash_v6 src dst;
                 mret (ecmp_member (nexthop_id fib) hash)
               else mret (Some (nexthop_id fib)));
      match nh_id with
      | None => mret TC_ACT_PIPE
      | Some nh_id =>
          r ← resolve_nh nh_id;
          '(nh_id, nh) ← must r;
          l3_egress_v6 nh_id nh dst
      end
  end.

(** ** MPLS *)

(** The TC stage swaps a single label; every other operation is the XDP
    stage's and is punted. *)
Definition mpls_forward : Prog Z :=
  lse ← load_be 4 MPLS_LSE_OFF;
  let '(label, tc, s, ttl) := mpls_lse_unpack lse in
  if ttl <=? 1 then mret TC_ACT_PIPE else
  match MPLS_FIB !! label with
  | None => mret TC_ACT_PIPE
  | Some ent =>
      nh ← must (NEXTHOPS !! me_nexthop_id ent);
      if (me_op ent =? MPLS_OP_SWAP) && (nh_num_labels nh =? 1) then
        _ ← store MPLS_LSE_OFF (to_be 4 (mpls_lse (label_at (nh_labels nh) 0) tc s (ttl - 1)));
        _ ← stat_inc STAT_MPLS_SWAP;
        mpls_l2_xmit nh
      else mret TC_ACT_PIPE
  end.

Definition l3_forward (port_vrf from_ep : Z) : Prog Z :=
  ethertype ← load_be 2 ETH_TYPE_OFF;
  if ethertype =? ETH_P_IP then l3_forward_v4 port_vrf from_ep
  else if ethertype =? ETH_P_IPV6 then l3_forward_v6 port_vrf from_ep
  else if ethertype =? ETH_P_MPLS_UC then mpls_forward
  else mret TC_ACT_PIPE.

(** ** End.Replicate fan-out *)

Definition repl_clone_remote (br : ReplBranch) : Prog unit :=
  nh_id ← (if negb (rb_nexthop_id br =? 0) then mret (rb_nexthop_id br)
           else
             fib ← fib6_lookup 0 (rb_sid br);
             fib ← must fib;
             if has (flags fib) (FIB_F_ECMP .| FIB_F_BLACKHOLE .| FIB_F_LOCAL) then err
             else mret (nexthop_id fib));
  r ← resolve_nh nh_id;
  '(_, nh) ← must r;
  '(dst_mac, src_mac) ← must (tc_resolve_l2 nh);
  _ ← store ETH_DST_OFF dst_mac;
  _ ← store ETH_SRC_OFF src_mac;
  _ ← store ETH_TYPE_OFF (to_be 2 ETH_P_IPV6);
  clone_redirect (nh_oif nh).

Definition branch_at (rs : ReplSeg) (i : Z) : ReplBranch :=
  default (mkReplBranch (replicate 16 0) 0 0 0) (rs_branches rs !! Z.to_nat i).

Definition srv6_replicate : Prog Z :=
  da ← load IP6_DST_OFF 16;
  match REPL_SEG !! da with
  | None => mret TC_ACT_SHOT
  | Some rs =>
      hl ← load_ne 1 IP6_HOP_OFF;
      if (hl <=? 1) || (hl <? rs_hop_limit_threshold rs) then mret TC_ACT_SHOT else
      _ ← store IP6_HOP_OFF [hl - 1];
      _ ← for_upto (Z.to_nat MAX_REPL_BRANCHES) 0 (rs_n_branches rs) (λ slot,
            let br := branch_at rs slot in
            _ ← store IP6_DST_OFF (rb_sid br);
            if has (rb_flags br) REPL_BRANCH_LOCAL then clone_redirect (rb_local_oif br)
            else _ ← catch (repl_clone_remote br); mret tt);
      _ ← stat_inc STAT_SRV6_REPLICATE;
      mret TC_ACT_SHOT
  end.

(** ** L7 steering *)

Definition assign_socket (sk : Z) : Prog Z :=
  if sk_assign sk =? 0 then
    _ ← send (SkAssign sk);
    _ ← modify (set_mark L7_PROXY_MARK);
    _ ← stat_inc STAT_L7_REDIRECT;
    mret TC_ACT_OK
  else err.

(** [None] (fall through to routing) is the error of the inner computation. *)
Definition l7_redirect : Prog (option Z) := catch (
  ethertype ← load_be 2 ETH_TYPE_OFF;
  if negb (ethertype =? ETH_P_IP) then err else
  ver_ihl ← load_ne 1 IP_VER_IHL_OFF;
  if negb (ver_ihl .& 0x0f =? 5) then err else
  proto ← load_ne 1 IP_PROTO_OFF;
  if negb (proto =? IPPROTO_TCP) then err else
  src_ip ← load_ne 4 IP_SRC_OFF;
  dst_ip ← load_ne 4 IP_DST_OFF;
  sport ← load_ne 2 L4_OFF;
  dport ← load_ne 2 (L4_OFF + 2);
  _ ← must (L7_SERVICES !! mkServiceKey dst_ip dport proto);
  match skc_lookup_tcp src_ip dst_ip sport dport with
  | Some (sk, state) =>
      if negb (state =? TCP_LISTEN) then assign_socket sk
      else
        '(psk, _) ← must (skc_lookup_tcp 0 dst_ip 0 (of_le (to_be 2 L7_PROXY_PORT)));
        assign_socket psk
  | None =>
      '(psk, _) ← must (skc_lookup_tcp 0 dst_ip 0 (of_le (to_be 2 L7_PROXY_PORT)));
      assign_socket psk
  end).

(** ** The TC ingress program *)

(** The L3 port's pre-routing stages; [Some act] ends the run, otherwise the
    endpoint the packet comes from (0: none). *)
Definition pre_routing (iif : Z) (port : PortConfig) : Prog (option Z * Z) :=
  if dpc DPC_L3_ONLY then mret (None, 0) else
  r ← l7_redirect;
  match r with
  | Some act => mret (Some act, 0)
  | None =>
      let masq_src := has (pc_flags port) PORT_F_ENDPOINT in
      _ ← (if masq_src then
             _ ← catch (pct_track PCT_POD_INITIATED);
             _ ← catch (pct_track6 PCT_POD_INITIATED);
             mret tt
           else mret tt);
      _ ← catch (l4_nat masq_src);
      mret (None, if masq_src then iif else 0)
  end.

Definition try_main (iif : Z) : Prog Z :=
  dx2_oif ← tc_meta_dx2;
  if negb (dx2_oif =? 0) then redirect dx2_oif else
  l2 ← tc_meta_l2;
  match l2 with
  | Some (bd, es_bits) => l2_switch iif bd true es_bits
  | None =>
      repl ← tc_meta_repl;
      if (repl : bool) then srv6_replicate else
      match PORTS !! iif with
      | None => mret TC_ACT_PIPE
      | Some port =>
          if has (pc_flags port) PORT_F_L2 then l2_switch iif (pc_vlan port) false 0
          else if has (pc_flags port) PORT_F_L3 then
            r ← pre_routing iif port;
            match r with
            | (Some act, _) => mret act
            | (None, from_ep) => l3_forward (pc_vrf_id port) from_ep
            end
          else mret TC_ACT_PIPE
      end
  end.

Definition cradle_tc (iif : Z) : Prog Z := unwrap_or TC_ACT_PIPE (try_main iif).
End l3.
