(* ===== verification/Xdp.v ===== *)
(** * The XDP stage: shared operations, plain IPv4 and MPLS

    Frame surgery the decapsulations share ([decap_head], [pop_head],
    [pop_srh], the metadata hand-off), the [xdp-only] IPv4 fast path and the
    MPLS stage of [crates/cradle-ebpf/src/main.rs]. *)

From S2P Require Import Prelude.
From S2P Require Import Contract.
From S2P Require Import Common.
From S2P Require Import Dir24.
From S2P Require Import Bpf.
From S2P Require Import Frames.
From S2P Require Import Maps.
From S2P Require Import Encap.

Section xdp.
Context `{Kernel} `{FibMaps} `{TunnelMaps} `{L3Maps} `{L2Maps}.

(** ** Shared operations *)

(** Attach the metadata the TC stage reads, or drop. *)
Definition attach_meta (magic vrf_id es_bits : Z) : Prog Z :=
  ok ← put_meta (mkCradleXdpMeta (magic .^ meta_cookie) vrf_id es_bits);
  if (ok : bool) then mret XDP_PASS else _ ← stat_inc STAT_DROP; mret XDP_DROP.

Definition drop_frame : Prog Z := _ ← stat_inc STAT_DROP; mret XDP_DROP.

(** [bpf_xdp_adjust_head(..) != 0 => return Err(())] *)
Definition must_adjust_head (d : Z) : Prog unit :=
  ok ← adjust_head d; if (ok : bool) then mret tt else err.

Definition xdp_resolve_l2 (nh : NextHop) : option (bytes * bytes) :=
  dst_mac ← (if has (nh_flags nh) NH_F_V6
             then ne_mac <$> NEIGH6 !! mkNeigh6Key (nh_oif nh) (nh_gateway_v6 nh)
             else ne_mac <$> NEIGH4 !! mkNeigh4Key (nh_oif nh) (nh_gateway_v4 nh));
  src_mac ← pc_mac <$> PORTS !! nh_oif nh;
  Some (dst_mac, src_mac).

Definition write_macs (dst_mac src_mac : bytes) : Prog unit :=
  _ ← xdp_wr ETH_DST_OFF dst_mac; xdp_wr ETH_SRC_OFF src_mac.

(** Slide the 12 address bytes forward over [strip] bytes of header, write
    the inner EtherType, trim. *)
Definition slide_eth (strip new_ethertype : Z) : Prog unit :=
  macs ← xdp_rd 0 12;
  _ ← xdp_wr strip macs;
  _ ← xdp_wr (strip + ETH_TYPE_OFF) (to_be 2 new_ethertype);
  must_adjust_head strip.

Definition decap_head (strip new_ethertype : Z) : Prog unit :=
  if negb ((IP6_HDR_LEN <=? strip) && (strip <=? IP6_HDR_LEN + 104)) then err
  else slide_eth strip new_ethertype.

Definition pop_head (new_ethertype : Z) : Prog unit :=
  _ ← slide_eth 4 new_ethertype; stat_inc STAT_MPLS_POP.

Definition pop_srh : Prog unit :=
  srh_nh ← xdp_rd SRH_OFF 1;
  ext_len ← xdp_ne 1 (SRH_OFF + 1);
  if 12 <? ext_len then err else
  let srh_len := 8 * (ext_len + 1) in
  payload_len ← xdp_be 2 IP6_PAYLOAD_LEN_OFF;
  if payload_len <? srh_len then err else
  _ ← xdp_wr IP6_NEXTHDR_OFF srh_nh;
  _ ← xdp_wr IP6_PAYLOAD_LEN_OFF (to_be 2 (payload_len - srh_len));
  hdr ← xdp_rd 0 54;
  _ ← xdp_wr srh_len hdr;
  must_adjust_head srh_len.

(** The inner EtherType of a packet whose first byte is at [off]. *)
Definition ip_ethertype (off : Z) : Prog (option Z) :=
  ver ← xdp_ne 1 off;
  mret (if ver ≫ 4 =? 4 then Some ETH_P_IP else if ver ≫ 4 =? 6 then Some ETH_P_IPV6 else None).

(** ** Plain IPv4 ([--ebpf-mode xdp-only]) *)

Definition xdp_ttl_decrement (old_word : Z) : Prog unit :=
  let new_word := old_word - (1 ≪ 8) in
  hc ← xdp_be 2 IP_CSUM_OFF;
  let new_hc := csum16_update hc old_word new_word in
  _ ← xdp_wr IP_TTL_OFF (to_be 2 new_word);
  xdp_wr IP_CSUM_OFF (to_be 2 new_hc).

Definition xdp_l3_forward_v4 : Prog Z :=
  dst ← xdp_rd IP_DST_OFF 4;
  match (dir24_lookup TBLS (of_be dst)).1 with
  | None => mret XDP_PASS
  | Some fib =>
      if has (flags fib) (FIB_F_BLACKHOLE .| FIB_F_LOCAL .| FIB_F_ECMP) then mret XDP_PASS else
      match NEXTHOPS !! nexthop_id fib with
      | None => mret XDP_PASS
      | Some nh =>
          if has (nh_flags nh) (NH_F_MPLS .| NH_F_SRV6 .| NH_F_GTP .| NH_F_GTP6 .| NH_F_VXLAN)
          then mret XDP_PASS else
          match xdp_resolve_l2 nh with
          | None => mret XDP_PASS
          | Some (dst_mac, src_mac) =>
              old_word ← xdp_be 2 IP_TTL_OFF;
              if old_word ≫ 8 <=? 1 then mret XDP_PASS else
              _ ← xdp_ttl_decrement old_word;
              _ ← write_macs dst_mac src_mac;
              _ ← stat_inc STAT_XDP_L3_FWD;
              xdp_redirect (nh_oif nh)
          end
      end
  end.

Definition cradle_xdp_l3 : Prog Z :=
  r ← catch (
    et ← xdp_be 2 ETH_TYPE_OFF;
    if negb (et =? ETH_P_IP) then mret XDP_PASS else xdp_l3_forward_v4);
  mret (default XDP_PASS r).

(** ** MPLS *)

Definition popped_ethertype : Prog Z :=
  et ← ip_ethertype (MPLS_LSE_OFF + 4); must et.

(** Uniform-model disposition (RFC 3443). *)
Definition mpls_uniform_to_ip (et ttl : Z) : Prog unit :=
  if et =? ETH_P_IP then
    old_word ← xdp_be 2 IP_TTL_OFF;
    let new_word := (old_word .& 0x00ff) .| (ttl ≪ 8) in
    if new_word =? old_word then mret tt else
    hc ← xdp_be 2 IP_CSUM_OFF;
    let new_hc := csum16_update hc old_word new_word in
    _ ← xdp_wr IP_TTL_OFF (to_be 2 new_word);
    xdp_wr IP_CSUM_OFF (to_be 2 new_hc)
  else if et =? ETH_P_IPV6 then xdp_wr IP6_HOP_OFF [ttl]
  else mret tt.

Definition pop_decap_local (vrf_id ttl : Z) (uniform : bool) : Prog Z :=
  et ← catch popped_ethertype;
  match et with
  | None => drop_frame
  | Some et =>
      _ ← pop_head et;
      _ ← (if uniform then mpls_uniform_to_ip et ttl else mret tt);
      if negb (vrf_id =? 0) then attach_meta XDP_META_MAGIC vrf_id 0 else mret XDP_PASS
  end.

Definition pop_and_forward (nh : NextHop) (s ttl : Z) (uniform : bool) : Prog Z :=
  match xdp_resolve_l2 nh with
  | None => mret XDP_PASS
  | Some (dst_mac, src_mac) =>
      et ← (if s =? 0 then mret (Some ETH_P_MPLS_UC) else catch popped_ethertype);
      match et with
      | None => drop_frame
      | Some et =>
          _ ← pop_head et;
          _ ← (if uniform && (s =? 1) then mpls_uniform_to_ip et (ttl - 1) else mret tt);
          _ ← write_macs dst_mac src_mac;
          xdp_redirect (nh_oif nh)
      end
  end.

Definition grow_swap (nh : NextHop) (s_in ttl_in : Z) : Prog Z :=
  let n := nh_num_labels nh in
  if (n <? 2) || (MAX_LABELS <? n) then mret XDP_PASS else
  match xdp_resolve_l2 nh with
  | None => mret XDP_PASS
  | Some (dst_mac, src_mac) =>
      ok ← adjust_head (- (4 * (n - 1)));
      if negb (ok : bool) then mret XDP_PASS else
      _ ← write_macs dst_mac src_mac;
      _ ← xdp_wr ETH_TYPE_OFF (to_be 2 ETH_P_MPLS_UC);
      _ ← for_upto (Z.to_nat MAX_LABELS) 0 n (λ i,
            let s := if i =? n - 1 then s_in else 0 in
            xdp_wr (MPLS_LSE_OFF + 4 * i) (to_be 4 (mpls_lse (label_at (nh_labels nh) i) 0 s (ttl_in - 1))));
      _ ← stat_inc STAT_MPLS_SWAP;
      xdp_redirect (nh_oif nh)
  end.

(** EVPN-over-MPLS egress: the inner frame, tagged with its bridge domain. *)
Definition pop_decap_l2 (s bd : Z) : Prog Z :=
  r ← (if s =? 1 then mret (Some (ETH_HLEN + 4, 0))
       else
         lse ← xdp_be 4 (MPLS_LSE_OFF + 4);
         let '(esi_label, _, s2, _) := mpls_lse_unpack lse in
         if negb (s2 =? 1) then mret None else
         match ESI_LABEL !! esi_label with
         | Some id => _ ← stat_inc STAT_MPLS_L2_ESI_POP; mret (Some (ETH_HLEN + 8, 1 ≪ (id .& 63)))
         | None =>
             if bool_decide (is_Some (LEAF_LABEL !! esi_label))
             then _ ← stat_inc STAT_MPLS_L2_LEAF_POP; mret (Some (ETH_HLEN + 8, ES_BITS_ETREE_LEAF))
             else mret None
         end);
  match r with
  | None => drop_frame
  | Some (strip, es_bits) =>
      _ ← must_adjust_head strip;
      _ ← stat_inc STAT_MPLS_L2_DECAP;
      attach_meta XDP_META_MAGIC_L2 bd es_bits
  end.

(** The attachment circuit of an E-Line: [target] itself, or by the 802.1Q
    VID of the inner frame at [off]. [None]: pass to the stack. *)
Definition eline_ac (vlan_scoped : bool) (target off : Z) : Prog (option Z) :=
  oif ← (if vlan_scoped then
           inner_et ← xdp_be 2 (off + ETH_TYPE_OFF);
           if negb (inner_et =? ETH_P_8021Q) then mret None else
           tci ← xdp_be 2 (off + ETH_HLEN);
           mret (DX2V !! mkDx2vKey target (tci .& 0x0fff))
         else mret (Some target));
  mret (match oif with Some oif => if oif =? 0 then None else Some oif | None => None end).

Definition pop_decap_xc (s target : Z) (vlan_scoped : bool) : Prog Z :=
  if negb (s =? 1) then drop_frame else
  let strip := ETH_HLEN + 4 in
  oif ← eline_ac vlan_scoped target strip;
  match oif with
  | None => mret XDP_PASS
  | Some oif =>
      _ ← must_adjust_head strip;
      _ ← stat_inc STAT_MPLS_DX2;
      attach_meta XDP_META_MAGIC_DX2 oif 0
  end.

(** One label; [None]: a local pop, look at the next one. *)
Definition mpls_step : Prog (option Z) :=
  ethertype ← xdp_be 2 ETH_TYPE_OFF;
  if negb (ethertype =? ETH_P_MPLS_UC) then mret (Some XDP_PASS) else
  lse ← xdp_be 4 MPLS_LSE_OFF;
  let '(label, _, s, ttl) := mpls_lse_unpack lse in
  if ttl <=? 1 then mret (Some XDP_PASS) else
  match MPLS_FIB !! label with
  | None => mret (Some XDP_PASS)
  | Some ent =>
      if me_op ent =? MPLS_OP_POP_L2 then Some <$> pop_decap_l2 s (me_vrf_id ent)
      else if (me_op ent =? MPLS_OP_POP_XC) || (me_op ent =? MPLS_OP_POP_XC_VLAN) then
        Some <$> pop_decap_xc s (me_vrf_id ent) (me_op ent =? MPLS_OP_POP_XC_VLAN)
      else
      match NEXTHOPS !! me_nexthop_id ent with
      | None => mret (Some XDP_PASS)
      | Some nh =>
          let uniform := has (me_flags ent) MPLS_E_TTL_UNIFORM in
          let swap_or_pop := (me_op ent =? MPLS_OP_SWAP) || (me_op ent =? MPLS_OP_POP) in
          if (me_op ent =? MPLS_OP_POP_L3) && (s =? 1) then
            Some <$> pop_decap_local (me_vrf_id ent) ttl uniform
          else if swap_or_pop && (nh_num_labels nh =? 0) && negb (nh_oif nh =? 0) then
            Some <$> pop_and_forward nh s ttl uniform
          else if swap_or_pop && (nh_num_labels nh =? 0) then
            if s =? 1 then Some <$> pop_decap_local (me_vrf_id ent) ttl uniform
            else _ ← pop_head ETH_P_MPLS_UC; mret None
          else if (me_op ent =? MPLS_OP_SWAP) && (1 <? nh_num_labels nh) then
            Some <$> grow_swap nh s ttl
          else mret (Some XDP_PASS)
      end
  end.

(** [for _ in 0..=MAX_LABELS] *)
Fixpoint mpls_steps (fuel : nat) : Prog Z :=
  match fuel with
  | O => mret XDP_PASS
  | S fuel => r ← mpls_step; match r with Some act => mret act | None => mpls_steps fuel end
  end.

Definition try_mpls_xdp : Prog Z := mpls_steps (S (Z.to_nat MAX_LABELS)).
End xdp.
