(* ===== verification/FrameRun.v ===== *)
(** * Running header surgery

    Lemmas that run the reads, the contiguous header writes and the growing
    or trimming of frames that the encapsulations and decapsulations of
    [crates/cradle-ebpf/src/main.rs] are made of.  An encapsulation writes
    its header front to back into the room the kernel opened: the frame is
    kept as [done ++ room ++ rest] and every store moves bytes from [room]
    to [done]. *)

From S2P Require Import Prelude.
From S2P Require Import Contract.
From S2P Require Import Bpf.
From S2P Require Import Frames.
From S2P Require Import Maps.
From S2P Require Import Encap.
From S2P Require Import Xdp.

(** ** Reads at known places *)

Lemma rd_mid a x c p off n : p = a ++ x ++ c →
  off = Z.of_nat (length a) → n = Z.of_nat (length x) → rd p off n = Some x.
Proof. intros -> -> ->. by apply rd_app. Qed.

Lemma xdp_rd_mid a x c w off n : pkt w = a ++ x ++ c →
  off = Z.of_nat (length a) → n = Z.of_nat (length x) → xdp_rd off n w = (w, Ok x).
Proof. intros. apply xdp_rd_run. by eapply rd_mid. Qed.

Lemma xdp_ne_mid a x c w off n : pkt w = a ++ x ++ c →
  off = Z.of_nat (length a) → n = Z.of_nat (length x) → xdp_ne n off w = (w, Ok (of_le x)).
Proof. intros. apply xdp_ne_run. by eapply rd_mid. Qed.

Lemma xdp_be_mid a x c w off n : pkt w = a ++ x ++ c →
  off = Z.of_nat (length a) → n = Z.of_nat (length x) → xdp_be n off w = (w, Ok (of_be x)).
Proof. intros. apply xdp_be_run. by eapply rd_mid. Qed.

Lemma xdp_wr_mid a x c w off b : pkt w = a ++ x ++ c →
  off = Z.of_nat (length a) → length b = length x →
  xdp_wr off b w = (set_pkt (a ++ b ++ c) w, Ok tt).
Proof. intros E -> ?. apply xdp_wr_run. rewrite E. by apply wr_app. Qed.

Lemma xdp_rd_field k fs x off n w : pkt w = concat fs → fs !! k = Some x →
  off = Z.of_nat (fields_len (take k fs)) → n = Z.of_nat (length x) → xdp_rd off n w = (w, Ok x).
Proof. intros E ? ? ?. apply xdp_rd_run. rewrite E. by eapply rd_field. Qed.

Lemma xdp_ne_field k fs x off n w : pkt w = concat fs → fs !! k = Some x →
  off = Z.of_nat (fields_len (take k fs)) → n = Z.of_nat (length x) →
  xdp_ne n off w = (w, Ok (of_le x)).
Proof. intros E ? ? ?. apply xdp_ne_run. rewrite E. by eapply rd_field. Qed.

Lemma xdp_be_field k fs x off n w : pkt w = concat fs → fs !! k = Some x →
  off = Z.of_nat (fields_len (take k fs)) → n = Z.of_nat (length x) →
  xdp_be n off w = (w, Ok (of_be x)).
Proof. intros E ? ? ?. apply xdp_be_run. rewrite E. by eapply rd_field. Qed.

Lemma xdp_wr_field k fs x b off w : pkt w = concat fs → fs !! k = Some x →
  off = Z.of_nat (fields_len (take k fs)) → length b = length x →
  xdp_wr off b w = (set_pkt (concat (<[k := b]> fs)) w, Ok tt).
Proof. intros E ? ? ?. apply xdp_wr_run. rewrite E. by eapply wr_field. Qed.

Lemma of_le1 x : of_le [x] = x.
Proof. unfold of_le. cbn. lia. Qed.

Lemma of_be1 x : of_be [x] = x.
Proof. apply of_le1. Qed.

(** ** Contiguous writes *)

Lemma wr_next d room rest b off : off = Z.of_nat (length d) → (length b ≤ length room)%nat →
  wr (d ++ room ++ rest) off b = Some ((d ++ b) ++ drop (length b) room ++ rest).
Proof.
  intros -> Hl. rewrite <- (take_drop (length b) room) at 1. rewrite <- app_assoc.
  rewrite (wr_app _ _ _ b); [|done|by rewrite length_take_le]. by rewrite <- !app_assoc.
Qed.

Lemma xdp_wr_next d room rest b off w : pkt w = d ++ room ++ rest →
  off = Z.of_nat (length d) → (length b ≤ length room)%nat →
  xdp_wr off b w = (set_pkt ((d ++ b) ++ drop (length b) room ++ rest) w, Ok tt).
Proof. intros E ? ?. apply xdp_wr_run. rewrite E. by apply wr_next. Qed.

Lemma store_next `{KernelLaws} d room rest b off w : pkt w = d ++ room ++ rest →
  off = Z.of_nat (length d) → (length b ≤ length room)%nat → b ≠ [] →
  store off b w = (set_pkt ((d ++ b) ++ drop (length b) room ++ rest) w, Ok tt).
Proof. intros E ? ? ?. apply store_run; [|done]. rewrite E. by apply wr_next. Qed.

(** Discharges the offsets and lengths of the lemmas above. *)
Ltac len :=
  rewrite ?length_app, ?length_drop, ?to_be_length, ?length_take; cbn [length];
  cbv [IP_VER_IHL_OFF IP_TTL_OFF IP_PROTO_OFF IP_CSUM_OFF IP_SRC_OFF IP_DST_OFF L4_OFF
       ETH_HLEN ETH_TYPE_OFF ETH_DST_OFF ETH_SRC_OFF IP6_NEXTHDR_OFF IP6_HOP_OFF IP6_SRC_OFF
       IP6_DST_OFF IP6_L4_OFF IP6_PAYLOAD_LEN_OFF IP6_HDR_LEN GTP_ENCAP_HDR_LEN GTP6_ENCAP_HDR_LEN
       VXLAN_ENCAP_HDR_LEN VXLAN6_ENCAP_HDR_LEN VXLAN6_L4_OFF VXLAN6_HDR_OFF VXLAN_HDR_OFF
       MPLS_LSE_OFF SRH_OFF SRH_SL_OFF SRH_LAST_ENTRY_OFF SRH_SEGLIST_OFF]; lia.

Ltac nonempty :=
  first [discriminate
        | let E := fresh in intros E; apply (f_equal length) in E; revert E; cbn [length]; lia].

(** One store (TC) or write (XDP) at the end of what is already written. *)
Ltac put :=
  erewrite bind_ok by (eapply store_next;
    [first [eassumption | cbn [pkt set_pkt]; reflexivity]|len|len|nonempty]);
  rewrite ?set_pkt_pkt.
Ltac xput :=
  erewrite bind_ok by (eapply xdp_wr_next;
    [first [eassumption | cbn [pkt set_pkt]; reflexivity]|len|len]);
  rewrite ?set_pkt_pkt.

(** Reading a frame written as nested concatenations. *)
Lemma rd_skip a p off n : Z.of_nat (length a) ≤ off → 0 ≤ n →
  rd (a ++ p) off n = rd p (off - Z.of_nat (length a)) n.
Proof.
  intros Ho Hn. unfold rd. rewrite length_app.
  destruct (decide (0 ≤ off ∧ 0 ≤ n ∧ off + n ≤ Z.of_nat (length a + length p))).
  - rewrite !bool_decide_true by lia. do 2 f_equal.
    replace (Z.to_nat off) with (length a + Z.to_nat (off - Z.of_nat (length a)))%nat by lia.
    by rewrite drop_app_add.
  - rewrite !bool_decide_false by lia. done.
Qed.

Lemma rd_skip1 x p off n : 1 ≤ off → 0 ≤ n → rd (x :: p) off n = rd p (off - 1) n.
Proof. intros. apply (rd_skip [x] p off n); cbn; lia. Qed.

Lemma rd_here x c off n : off = 0 → n = Z.of_nat (length x) → rd (x ++ c) off n = Some x.
Proof. intros -> ->. by apply (rd_app [] x c). Qed.

Lemma rd_here1 x c off : off = 0 → rd (x :: c) off 1 = Some [x].
Proof. intros ->. by apply (rd_app [] [x] c). Qed.

Ltac rd_solve :=
  repeat first [rewrite rd_skip by len | rewrite rd_skip1 by len];
  first [rewrite rd_here by len; reflexivity | rewrite rd_here1 by len; reflexivity].

(** One read of a frame whose contents are known by [Hp]. *)
Ltac xread Hp :=
  first [erewrite bind_ok by (eapply xdp_ne_run; cbn [pkt set_pkt]; rewrite ?Hp; rd_solve)
        |erewrite bind_ok by (eapply xdp_be_run; cbn [pkt set_pkt]; rewrite ?Hp; rd_solve)
        |erewrite bind_ok by (eapply xdp_rd_run; cbn [pkt set_pkt]; rewrite ?Hp; rd_solve)];
  cbv beta; rewrite ?of_le1, ?of_be1.

Lemma frame_len_run w : frame_len w = (w, Ok (Z.of_nat (length (pkt w)))).
Proof. done. Qed.

(** Decide the tests between known words. *)
Ltac tests :=
  repeat match goal with
  | |- context [?a =? ?b] =>
      let r := eval vm_compute in (a =? b) in
      lazymatch r with true => idtac | false => idtac end; change (a =? b) with r
  end; cbn [negb andb orb].

Ltac count :=
  match goal with
  | |- context [(stat_inc ?i ≫= _) ?w] =>
      let st := fresh "st" in let E := fresh in
      destruct (stat_inc_run i w) as [st E]; rewrite (bind_ok E); clear E
  end.

(** ** Growing and trimming *)

Section trim.
Context `{KernelLaws}.

Lemma must_adjust_head_trim strip w hdr inner :
  pkt w = hdr ++ inner → Z.of_nat (length hdr) = strip → (14 ≤ length inner)%nat →
  must_adjust_head strip w = (set_pkt inner w, Ok tt).
Proof.
  intros Hp Hs Hi. unfold must_adjust_head, adjust_head. rewrite !bind_run. cbn [get].
  destruct (adjust_head_some (pkt w) strip) as [p' E]; [lia|rewrite Hp, length_app; unfold ETH_HLEN; lia|].
  rewrite E. apply adjust_head_shrink in E as ->; [|lia]. cbn.
  by rewrite Hp, drop_app_length' by lia.
Qed.

Lemma slide_eth_take strip et w eth hdr inner :
  pkt w = eth ++ hdr ++ inner → length eth = 14%nat → Z.of_nat (length hdr) = strip → 4 ≤ strip →
  slide_eth strip et w = (set_pkt (take 12 eth ++ to_be 2 et ++ inner) w, Ok tt).
Proof.
  intros Hp He Hs Hs4. unfold slide_eth.
  erewrite bind_ok by (apply (xdp_rd_mid [] (take 12 eth) (drop 12 eth ++ hdr ++ inner));
    [by rewrite Hp; cbn [app]; rewrite (app_assoc (take 12 eth)), take_drop|done
    |by rewrite length_take_le by lia]).
  set (all := eth ++ hdr) in *.
  assert (length all = 14 + Z.to_nat strip)%nat as Hal by (unfold all; rewrite length_app; lia).
  set (k := Z.to_nat strip) in *.
  assert (Hp1 : pkt w = take k all ++ take 12 (drop k all) ++ drop 12 (drop k all) ++ inner).
  { rewrite Hp, app_assoc. fold all. rewrite (app_assoc (take 12 _)), take_drop.
    by rewrite app_assoc, take_drop. }
  assert (length (take k all) = k) as Hk by (rewrite length_take_le; lia).
  assert (length (take 12 (drop k all)) = 12%nat) as Hk2 by (rewrite length_take_le; rewrite ?length_drop; lia).
  assert (length (take 12 eth) = 12%nat) as He12 by (rewrite length_take_le; lia).
  erewrite bind_ok by (apply (xdp_wr_mid _ _ _ w strip (take 12 eth) Hp1); lia).
  set (a := take k all ++ take 12 eth) in *.
  assert (length a = k + 12)%nat as Ha by (unfold a; rewrite length_app; lia).
  erewrite bind_ok by (apply (xdp_wr_mid a (drop 12 (drop k all)) inner);
    [cbn; unfold a; by rewrite <- app_assoc|rewrite Ha; unfold ETH_TYPE_OFF; lia
    |rewrite to_be_length, !length_drop; lia]).
  rewrite set_pkt_pkt.
  erewrite (must_adjust_head_trim strip _ (take k all) (take 12 eth ++ to_be 2 et ++ inner)).
  - by rewrite set_pkt_pkt.
  - cbn. unfold a. by rewrite <- app_assoc.
  - lia.
  - rewrite !length_app, He12, to_be_length. lia.
Qed.

Lemma slide_eth_run strip et w macs ty hdr inner :
  pkt w = macs ++ ty ++ hdr ++ inner → length macs = 12%nat → length ty = 2%nat →
  Z.of_nat (length hdr) = strip → 4 ≤ strip →
  slide_eth strip et w = (set_pkt (macs ++ to_be 2 et ++ inner) w, Ok tt).
Proof.
  intros Hp Hm Ht Hs Hs4.
  rewrite (slide_eth_take strip et w (macs ++ ty) hdr inner); [|by rewrite <- app_assoc|by rewrite length_app, Hm, Ht|done..].
  by rewrite take_app_length'.
Qed.

Lemma must_adjust_head_grow d w : 0 < d →
  must_adjust_head (- d) w = (w, Err tt) ∨
  ∃ room, Z.of_nat (length room) = d ∧ must_adjust_head (- d) w = (set_pkt (room ++ pkt w) w, Ok tt).
Proof.
  intros Hd. unfold must_adjust_head, adjust_head. rewrite !bind_run. cbn [get].
  destruct (xdp_adjust_head _ _) as [p'|] eqn:E; [right|by left].
  apply adjust_head_grow in E as (room & Hr & ->); [|lia]. exists room. split; [lia|done].
Qed.

Lemma adjust_room_mac_run d fl w eth rest : 0 < d → pkt w = eth ++ rest → length eth = 14%nat →
  adjust_room d BPF_ADJ_ROOM_MAC fl w = (w, Err tt) ∨
  ∃ room, Z.of_nat (length room) = d ∧
    adjust_room d BPF_ADJ_ROOM_MAC fl w = (set_pkt (eth ++ room ++ rest) w, Ok tt).
Proof.
  intros Hd Hp He. unfold adjust_room, put_pkt. rewrite !bind_run. cbn [get].
  destruct (skb_adjust_room _ _ _ _) as [p'|] eqn:E; [right|by left].
  apply adjust_room_mac in E as (room & Hr & ->); [|done].
  exists room. split; [done|]. by rewrite Hp, take_app_length', drop_app_length' by done.
Qed.
End trim.

Lemma attach_meta_run `{KernelLaws} `{TunnelMaps} magic vrf es w :
  ∃ w', attach_meta magic vrf es w =
      (w', Ok (if xdp_adjust_meta (pkt w) (-16) then XDP_PASS else XDP_DROP)) ∧
    pkt w' = pkt w ∧ sent w' = sent w ∧
    xmeta w' = (if xdp_adjust_meta (pkt w) (-16)
                then Some (mkCradleXdpMeta (magic .^ meta_cookie) vrf es) else xmeta w).
Proof.
  unfold attach_meta, put_meta. rewrite !bind_run. cbn [get].
  destruct (xdp_adjust_meta _ _).
  - by eexists.
  - cbn [mret M_ret]. count. by eexists.
Qed.

(** ** Leaving through a nexthop *)

(** The nexthop resolves to a pair of link addresses. *)
Record adjacency `{FibMaps} `{L3Maps} (nh : NextHop) (dmac smac : bytes) : Prop := {
  adj_resolve : tc_resolve_l2 nh = Some (dmac, smac);
  adj_dmac : length dmac = 6%nat; adj_smac : length smac = 6%nat;
}.

Lemma l2_xmit_run `{KernelLaws} `{FibMaps} `{L3Maps} nh et dmac smac eth rest w :
  adjacency nh dmac smac → pkt w = eth ++ rest → length eth = 14%nat →
  l2_xmit nh et w = (set_sent (sent w ++ [Redirect (nh_oif nh)])
      (set_pkt (dmac ++ smac ++ to_be 2 et ++ rest) w), Ok (redirect_ret (nh_oif nh))).
Proof.
  intros [Hr Hd Hs] Hp He. unfold l2_xmit. rewrite Hr.
  assert (Hp1 : pkt w = [] ++ eth ++ rest) by done.
  do 3 put. unfold redirect. rewrite bind_run. cbn. rewrite skipn_all2 by len.
  by rewrite <- !app_assoc.
Qed.

(** ** The outer IPv4 header of the UDP tunnels *)

Definition ip4_udp_header (total : Z) (src dst : bytes) : bytes :=
  [0x45; 0] ++ to_be 2 total ++ [0; 0] ++ [0; 0] ++ [64; IPPROTO_UDP]
  ++ to_be 2 (ipv4_hdr_csum total src dst) ++ src ++ dst.

Lemma ip4_udp_header_length total src dst : length src = 4%nat → length dst = 4%nat →
  length (ip4_udp_header total src dst) = 20%nat.
Proof. intros. unfold ip4_udp_header. rewrite !length_app, !to_be_length. cbn. lia. Qed.

Lemma ipv4_hdr_csum_range total src dst : 0 ≤ ipv4_hdr_csum total src dst ≤ 65535.
Proof. unfold ipv4_hdr_csum, wrap. divlia. Qed.

Lemma sum16_be z : u16 z → (sum16 (to_be 2 z) - 256 * z) mod 65535 = 0.
Proof.
  intros Hz. rewrite sum16_len2 by apply to_be_length. unfold in_range in Hz.
  cbn. divlia.
Qed.

(** A tunnel's outer header carries a valid checksum. *)
Lemma ip4_udp_header_valid total src dst : u16 total →
  length src = 4%nat → length dst = 4%nat → Forall is_byte src → Forall is_byte dst →
  csum_valid (ip4_udp_header total src dst).
Proof.
  intros Ht Hs Hd Hbs Hbd.
  destruct src as [|s0 [|s1 [|s2 [|s3 [|]]]]]; try done.
  destruct dst as [|d0 [|d1 [|d2 [|d3 [|]]]]]; try done.
  rewrite !Forall_cons in *. destruct Hbs as (? & ? & ? & ? & _), Hbd as (? & ? & ? & ? & _).
  unfold csum_valid, ip4_udp_header.
  pose proof (ipv4_hdr_csum_range total [s0; s1; s2; s3] [d0; d1; d2; d3]) as Hr.
  pose proof (sum16_be total Ht) as Et.
  pose proof (sum16_be (ipv4_hdr_csum total [s0; s1; s2; s3] [d0; d1; d2; d3])
    ltac:(unfold in_range; lia)) as Ec.
  rewrite sum16_app, sum16_app by (cbn; exists 1%nat; done). cbn [app].
  change (0 :: 0 :: 0 :: 0 :: 64 :: IPPROTO_UDP :: ?x) with ([0; 0; 0; 0; 64; IPPROTO_UDP] ++ x).
  rewrite sum16_app by (exists 3%nat; done). rewrite sum16_app by (exists 1%nat; by rewrite to_be_length).
  set (c := ipv4_hdr_csum _ _ _) in *.
  assert (Hc : (c + 0x4500 + total + 0x4011 + (256 * s0 + s1) + (256 * s2 + s3)
                + (256 * d0 + d1) + (256 * d2 + d3)) mod 65535 = 0).
  { unfold is_byte, in_range in *. unfold c, ipv4_hdr_csum.
    rewrite (word_at_be [s0; s1; s2; s3] 0 s0 s1), (word_at_be [s0; s1; s2; s3] 2 s2 s3),
      (word_at_be [d0; d1; d2; d3] 0 d0 d1), (word_at_be [d0; d1; d2; d3] 2 d2 d3) by done.
    destruct (fold_twice (0x4500 + total + 0x4011 + (256 * s0 + s1) + (256 * s2 + s3)
                + (256 * d0 + d1) + (256 * d2 + d3))) as (Hr1 & -> & Hm); [lia|].
    set (x := _ + _ ≫ 16) in *. clearbody x. clear -Hm. divlia. }
  clearbody c. unfold sum16 in *. fold sum16 in *.
  set (A := sum16 (to_be 2 total)) in *. set (B := sum16 (to_be 2 c)) in *.
  unfold IPPROTO_UDP. clearbody A B. clear -Et Ec Hc. divlia.
Qed.

(** ** TTL updates *)

(** Replacing the TTL and updating the checksum keeps a header valid. *)
Lemma ttl_word_valid h0 t t' pr c h1 : length h0 = 8%nat → length c = 2%nat →
  Forall is_byte c → is_byte t → is_byte t' → is_byte pr →
  csum_valid (h0 ++ [t; pr] ++ c ++ h1) →
  csum_valid (h0 ++ [t'; pr] ++ to_be 2 (csum16_update (of_be c) (256 * t + pr) (256 * t' + pr)) ++ h1).
Proof.
  intros Hh Hc Hb Ht Ht' Hpr. unfold csum_valid.
  assert (Nat.Even (length h0)) as He by (exists 4%nat; lia).
  rewrite !(sum16_app h0), !(sum16_app [_; pr]), !(sum16_app c), !(sum16_app (to_be _ _)) by
    (done || (exists 1%nat; by rewrite ?to_be_length)).
  assert (0 ≤ of_be c < 65536) as Hcr.
  { destruct c as [|x [|y [|]]]; try done. rewrite !Forall_cons in Hb. unfold is_byte in *.
    unfold of_be, of_le. cbn. lia. }
  unfold is_byte in *.
  destruct (csum16_update_spec (of_be c) (256 * t + pr) (256 * t' + pr)) as [Hr Hu]; [unfold in_range; lia..|].
  pose proof (sum16_be _ Hr) as Hs. set (c' := csum16_update _ _ _) in *.
  assert (of_be c mod 65535 = 256 * of_le c mod 65535) as Hbl by (by apply of_be_le2).
  rewrite (sum16_len2 c) by done. cbn [sum16]. set (S' := sum16 (to_be 2 c')) in *.
  clearbody c' S'. clear -Hu Hs Hbl. intros Hv.
  set (b := of_be c) in *. set (l := of_le c) in *. set (A := sum16 h0) in *. set (B := sum16 h1) in *.
  clearbody b l A B. divlia.
Qed.
