(* ===== verification/Bfd.v ===== *)
(** * BFD Echo reflector and expiration watchdog

    [crates/cradle-ebpf/src/bfd.rs]: a peer's Echo is reflected, our own
    returning Echo and the observed control packets re-arm the session's
    in-kernel detector. *)

From S2P Require Import Prelude.
From S2P Require Import Contract.
From S2P Require Import Bpf.

(** The [OUR_LOCAL_IPS] maps, which user space fills. *)
Class BfdMaps := mkBfdMaps {
  OUR_LOCAL_IPS : gmap Z Z;
  OUR_LOCAL_IPS_V6 : gmap bytes Z;
}.

Definition IP_OFF : Z := ETH_HLEN.
Definition IP_CHECK_OFF : Z := IP_OFF + 10.
Definition UDP_OFF : Z := IP_OFF + 20.
Definition CTRL_OFF : Z := UDP_OFF + 8.
Definition CTRL_VERS_DIAG : Z := 0.
Definition CTRL_YOUR_DISC : Z := 8.
Definition BFD_VERSION : Z := 1.
Definition CTRL_TTL : Z := 255.
Definition PAYLOAD_OFF : Z := UDP_OFF + 8.
Definition PL_MAGIC_OFF : Z := PAYLOAD_OFF.
Definition PL_DISCR_OFF : Z := PAYLOAD_OFF + 4.
Definition ECHO_MAGIC : Z := 0x7a626664.
Definition IP6_OFF : Z := ETH_HLEN.
Definition IP6_HOPLIMIT_OFF : Z := IP6_OFF + 7.
Definition UDP6_OFF : Z := IP6_OFF + 40.
Definition PAYLOAD6_OFF : Z := UDP6_OFF + 8.
Definition PL6_MAGIC_OFF : Z := PAYLOAD6_OFF.
Definition PL6_DISCR_OFF : Z := PAYLOAD6_OFF + 4.
Definition CTRL6_OFF : Z := UDP6_OFF + 8.

Section bfd.
Context `{Kernel} `{BfdMaps}.

(** ** Frame updates *)

(** RFC 1141: the checksum grows by [0x0100] with end-around carry. *)
Definition decrement_ttl : Prog unit :=
  ck ← xdp_be 2 IP_CHECK_OFF;
  ttl ← xdp_ne 1 IP_TTL_OFF;
  if ttl =? 0 then err else
  _ ← xdp_wr IP_TTL_OFF [ttl - 1];
  let sum := ck + 0x0100 in
  let sum := (sum .& 0xffff) + (sum ≫ 16) in
  xdp_wr IP_CHECK_OFF [wrap 8 (sum ≫ 8); sum .& 0xff].

Definition decrement_hop_limit : Prog unit :=
  hl ← xdp_ne 1 IP6_HOPLIMIT_OFF;
  if hl =? 0 then err else xdp_wr IP6_HOPLIMIT_OFF [hl - 1].

Definition swap_macs : Prog unit :=
  dst ← xdp_rd ETH_DST_OFF 6;
  src ← xdp_rd ETH_SRC_OFF 6;
  _ ← xdp_wr ETH_DST_OFF src;
  xdp_wr ETH_SRC_OFF dst.

Definition swap_ip6 : Prog unit :=
  src ← xdp_rd IP6_SRC_OFF 16;
  dst ← xdp_rd IP6_DST_OFF 16;
  _ ← xdp_wr IP6_SRC_OFF dst;
  xdp_wr IP6_DST_OFF src.

(** ** The detector *)

(** The timer callback: tracked packets stopped. *)
Definition detect_timeout (st : DetectState) : DetectState :=
  mkDetectState (ds_timer st) (ds_detect_ns st) (ds_armed st) 1.

(** A tracked packet arrived: initialise the timer the first time, clear the
    [down] flag, (re)start the timer. *)
Definition kick_timer (init_ok : bool) (st : DetectState) : DetectState :=
  let armed := if (ds_armed st =? 0) && init_ok then 1 else ds_armed st in
  mkDetectState (if armed =? 0 then ds_timer st else Some (ds_detect_ns st))
    (ds_detect_ns st) armed 0.

Definition record_return (magic_off discr_off : Z) : Prog unit :=
  magic ← xdp_be 4 magic_off;
  if negb (magic =? ECHO_MAGIC) then mret tt else
  discr ← xdp_be 4 discr_off;
  w ← get;
  match ECHO_TIMERS w !! discr with
  | None => mret tt
  | Some st =>
      n ← tick;
      modify (set_ECHO_TIMERS (<[discr := kick_timer (timer_init n) st]> (ECHO_TIMERS w)))
  end.

Definition observe_control (ttl_off ctrl_off : Z) : Prog unit :=
  ttl ← xdp_ne 1 ttl_off;
  if negb (ttl =? CTRL_TTL) then mret tt else
  vers ← xdp_ne 1 (ctrl_off + CTRL_VERS_DIAG);
  if negb (vers ≫ 5 =? BFD_VERSION) then mret tt else
  discr ← xdp_be 4 (ctrl_off + CTRL_YOUR_DISC);
  if discr =? 0 then mret tt else
  w ← get;
  match CONTROL_TIMERS w !! discr with
  | None => mret tt
  | Some st =>
      n ← tick;
      modify (set_CONTROL_TIMERS (<[discr := kick_timer (timer_init n) st]> (CONTROL_TIMERS w)))
  end.

(** ** The handlers *)

Definition reflect_v4 : Prog Z :=
  src_ip ← xdp_be 4 IP_SRC_OFF;
  if bool_decide (is_Some (OUR_LOCAL_IPS !! src_ip)) then
    _ ← record_return PL_MAGIC_OFF PL_DISCR_OFF; mret XDP_DROP
  else
    _ ← decrement_ttl; _ ← swap_macs; mret XDP_TX.

Definition reflect_v6 : Prog Z :=
  src ← xdp_rd IP6_SRC_OFF 16;
  if bool_decide (is_Some (OUR_LOCAL_IPS_V6 !! src)) then
    _ ← record_return PL6_MAGIC_OFF PL6_DISCR_OFF; mret XDP_DROP
  else
    _ ← decrement_hop_limit; _ ← swap_ip6; _ ← swap_macs; mret XDP_TX.

Definition observe_ctrl_v4 : Prog unit :=
  _ ← catch (observe_control IP_TTL_OFF CTRL_OFF); mret tt.
Definition observe_ctrl_v6 : Prog unit :=
  _ ← catch (observe_control IP6_HOPLIMIT_OFF CTRL6_OFF); mret tt.
End bfd.
