(* ===== verification/MapRefs.v ===== *)
(** * The map handles user space programs the data plane through

    The [Dataplane] struct of [crates/cradle/src/dataplane.rs]: one handle per
    BPF map, plus the DIR-24-8 engine and the BFD bookkeeping that live in
    user space only.  A handle names a map of the state and its declared
    capacity.  A write goes through the [bpf(2)] system call, which is kernel
    code: [MapSys] holds its operations and [MapSysLaws] their documented
    behaviour.  Every successful write is one atomic step that a packet may
    observe, so the state of a computation keeps the snapshots, in order. *)

From S2P Require Import Prelude.
From S2P Require Import Contract.
From S2P Require Import Common.
From S2P Require Import Dir24.
From S2P Require Import Bpf.
From S2P Require Import Maps.
From S2P Require Import Bfd.

(** ** The state *)

Inductive IpAddr : Type := V4 (a : bytes) | V6 (a : bytes).
#[global] Instance IpAddr_eq_dec : EqDecision IpAddr.
Proof. solve_decision. Defined.
#[global] Instance IpAddr_countable : Countable IpAddr.
Proof.
  refine (inj_countable' (λ a, match a with V4 b => inl b | V6 b => inr b end)
    (λ s, match s with inl b => V4 b | inr b => V6 b end) _). by intros [].
Defined.

Record Dp := mkDp {
  dp_fib : FibMaps;
  dp_tun : TunnelMaps;
  dp_l3 : L3Maps;
  dp_l2 : L2Maps;
  dp_pol : PolicyMaps;
  dp_l4 : L4Maps;
  dp_bfd : BfdMaps;
  dp_fdb : gmap FdbKey FdbEntry;
  dp_echo_timers : gmap Z DetectState;
  dp_ctrl_timers : gmap Z DetectState;
  dp_stats : gmap Z Z;
  dp_dir24 : option Dir24Engine;         (* [None]: the LPM trie *)
  dp_ip_refs : gmap IpAddr Z;            (* [bfd_ip_refs] *)
  dp_echo_local : gmap Z IpAddr;         (* [bfd_echo_local] *)
}.

Definition set_fib (f : FibMaps → FibMaps) d := mkDp (f (dp_fib d)) (dp_tun d) (dp_l3 d) (dp_l2 d)
  (dp_pol d) (dp_l4 d) (dp_bfd d) (dp_fdb d) (dp_echo_timers d) (dp_ctrl_timers d) (dp_stats d)
  (dp_dir24 d) (dp_ip_refs d) (dp_echo_local d).
Definition set_tun (f : TunnelMaps → TunnelMaps) d := mkDp (dp_fib d) (f (dp_tun d)) (dp_l3 d)
  (dp_l2 d) (dp_pol d) (dp_l4 d) (dp_bfd d) (dp_fdb d) (dp_echo_timers d) (dp_ctrl_timers d)
  (dp_stats d) (dp_dir24 d) (dp_ip_refs d) (dp_echo_local d).
Definition set_l3 (f : L3Maps → L3Maps) d := mkDp (dp_fib d) (dp_tun d) (f (dp_l3 d)) (dp_l2 d)
  (dp_pol d) (dp_l4 d) (dp_bfd d) (dp_fdb d) (dp_echo_timers d) (dp_ctrl_timers d) (dp_stats d)
  (dp_dir24 d) (dp_ip_refs d) (dp_echo_local d).
Definition set_l2 (f : L2Maps → L2Maps) d := mkDp (dp_fib d) (dp_tun d) (dp_l3 d) (f (dp_l2 d))
  (dp_pol d) (dp_l4 d) (dp_bfd d) (dp_fdb d) (dp_echo_timers d) (dp_ctrl_timers d) (dp_stats d)
  (dp_dir24 d) (dp_ip_refs d) (dp_echo_local d).
Definition set_pol (f : PolicyMaps → PolicyMaps) d := mkDp (dp_fib d) (dp_tun d) (dp_l3 d) (dp_l2 d)
  (f (dp_pol d)) (dp_l4 d) (dp_bfd d) (dp_fdb d) (dp_echo_timers d) (dp_ctrl_timers d) (dp_stats d)
  (dp_dir24 d) (dp_ip_refs d) (dp_echo_local d).
Definition set_l4 (f : L4Maps → L4Maps) d := mkDp (dp_fib d) (dp_tun d) (dp_l3 d) (dp_l2 d) (dp_pol
  d) (f (dp_l4 d)) (dp_bfd d) (dp_fdb d) (dp_echo_timers d) (dp_ctrl_timers d) (dp_stats d)
  (dp_dir24 d) (dp_ip_refs d) (dp_echo_local d).
Definition set_bfd (f : BfdMaps → BfdMaps) d := mkDp (dp_fib d) (dp_tun d) (dp_l3 d) (dp_l2 d)
  (dp_pol d) (dp_l4 d) (f (dp_bfd d)) (dp_fdb d) (dp_echo_timers d) (dp_ctrl_timers d) (dp_stats d)
  (dp_dir24 d) (dp_ip_refs d) (dp_echo_local d).
Definition set_fdb x d := mkDp (dp_fib d) (dp_tun d) (dp_l3 d) (dp_l2 d) (dp_pol d) (dp_l4 d)
  (dp_bfd d) x (dp_echo_timers d) (dp_ctrl_timers d) (dp_stats d) (dp_dir24 d) (dp_ip_refs d)
  (dp_echo_local d).
Definition set_echo_timers x d := mkDp (dp_fib d) (dp_tun d) (dp_l3 d) (dp_l2 d) (dp_pol d) (dp_l4
  d) (dp_bfd d) (dp_fdb d) x (dp_ctrl_timers d) (dp_stats d) (dp_dir24 d) (dp_ip_refs d)
  (dp_echo_local d).
Definition set_ctrl_timers x d := mkDp (dp_fib d) (dp_tun d) (dp_l3 d) (dp_l2 d) (dp_pol d) (dp_l4
  d) (dp_bfd d) (dp_fdb d) (dp_echo_timers d) x (dp_stats d) (dp_dir24 d) (dp_ip_refs d)
  (dp_echo_local d).
Definition set_stats x d := mkDp (dp_fib d) (dp_tun d) (dp_l3 d) (dp_l2 d) (dp_pol d) (dp_l4 d)
  (dp_bfd d) (dp_fdb d) (dp_echo_timers d) (dp_ctrl_timers d) x (dp_dir24 d) (dp_ip_refs d)
  (dp_echo_local d).
Definition set_dir24 x d := mkDp (dp_fib d) (dp_tun d) (dp_l3 d) (dp_l2 d) (dp_pol d) (dp_l4 d)
  (dp_bfd d) (dp_fdb d) (dp_echo_timers d) (dp_ctrl_timers d) (dp_stats d) x (dp_ip_refs d)
  (dp_echo_local d).
Definition set_ip_refs x d := mkDp (dp_fib d) (dp_tun d) (dp_l3 d) (dp_l2 d) (dp_pol d) (dp_l4 d)
  (dp_bfd d) (dp_fdb d) (dp_echo_timers d) (dp_ctrl_timers d) (dp_stats d) (dp_dir24 d) x
  (dp_echo_local d).
Definition set_echo_local x d := mkDp (dp_fib d) (dp_tun d) (dp_l3 d) (dp_l2 d) (dp_pol d) (dp_l4 d)
  (dp_bfd d) (dp_fdb d) (dp_echo_timers d) (dp_ctrl_timers d) (dp_stats d) (dp_dir24 d) (dp_ip_refs
  d) x.

(** ** Handles *)

Record MapRef (X : Type) := mkMapRef {
  view : Dp → X;
  over : X → Dp → Dp;
  capacity : Z;
}.
Arguments mkMapRef {X} _ _ _.
Arguments view {X} _ _.
Arguments over {X} _ _ _.
Arguments capacity {X} _.

(** [FibMaps] *)

Definition m_PORTS := mkMapRef (λ d, @PORTS (dp_fib d)) (λ m, set_fib (λ c, mkFibMaps m FIB4 FIB6
  FIB4_VRF FIB6_VRF)) 256.

Definition m_FIB4 := mkMapRef (λ d, @FIB4 (dp_fib d)) (λ m, set_fib (λ c, mkFibMaps PORTS m FIB6
  FIB4_VRF FIB6_VRF)) 4096.

Definition m_FIB6 := mkMapRef (λ d, @FIB6 (dp_fib d)) (λ m, set_fib (λ c, mkFibMaps PORTS FIB4 m
  FIB4_VRF FIB6_VRF)) 4096.

Definition m_FIB4_VRF := mkMapRef (λ d, @FIB4_VRF (dp_fib d)) (λ m, set_fib (λ c, mkFibMaps PORTS
  FIB4 FIB6 m FIB6_VRF)) 4096.

Definition m_FIB6_VRF := mkMapRef (λ d, @FIB6_VRF (dp_fib d)) (λ m, set_fib (λ c, mkFibMaps PORTS
  FIB4 FIB6 FIB4_VRF m)) 4096.

(** [TunnelMaps] *)

Definition m_SRV6_LOCALSID := mkMapRef (λ d, @SRV6_LOCALSID (dp_tun d)) (λ m, set_tun (λ c,
  mkTunnelMaps m SRV6_ENCAP SRV6_ENCAP_SRC GTP_ENCAP GTP_PDR GTP_PDR6 GTP6_ENCAP VLAN_VNI VNI_INFO
  VXLAN_SRC VXLAN_SRC6 VXLAN_ENCAP META_COOKIE)) 4096.

Definition m_SRV6_ENCAP := mkMapRef (λ d, @SRV6_ENCAP (dp_tun d)) (λ m, set_tun (λ c, mkTunnelMaps
  SRV6_LOCALSID m SRV6_ENCAP_SRC GTP_ENCAP GTP_PDR GTP_PDR6 GTP6_ENCAP VLAN_VNI VNI_INFO VXLAN_SRC
  VXLAN_SRC6 VXLAN_ENCAP META_COOKIE)) 4096.

Definition set_srv6_encap_src (m : option bytes) (d : Dp) : Dp :=
  set_tun (λ c, mkTunnelMaps SRV6_LOCALSID SRV6_ENCAP m GTP_ENCAP GTP_PDR GTP_PDR6 GTP6_ENCAP
    VLAN_VNI VNI_INFO VXLAN_SRC VXLAN_SRC6 VXLAN_ENCAP META_COOKIE) d.

Definition m_GTP_ENCAP := mkMapRef (λ d, @GTP_ENCAP (dp_tun d)) (λ m, set_tun (λ c, mkTunnelMaps
  SRV6_LOCALSID SRV6_ENCAP SRV6_ENCAP_SRC m GTP_PDR GTP_PDR6 GTP6_ENCAP VLAN_VNI VNI_INFO VXLAN_SRC
  VXLAN_SRC6 VXLAN_ENCAP META_COOKIE)) 4096.

Definition m_GTP_PDR := mkMapRef (λ d, @GTP_PDR (dp_tun d)) (λ m, set_tun (λ c, mkTunnelMaps
  SRV6_LOCALSID SRV6_ENCAP SRV6_ENCAP_SRC GTP_ENCAP m GTP_PDR6 GTP6_ENCAP VLAN_VNI VNI_INFO
  VXLAN_SRC VXLAN_SRC6 VXLAN_ENCAP META_COOKIE)) 4096.

Definition m_GTP_PDR6 := mkMapRef (λ d, @GTP_PDR6 (dp_tun d)) (λ m, set_tun (λ c, mkTunnelMaps
  SRV6_LOCALSID SRV6_ENCAP SRV6_ENCAP_SRC GTP_ENCAP GTP_PDR m GTP6_ENCAP VLAN_VNI VNI_INFO VXLAN_SRC
  VXLAN_SRC6 VXLAN_ENCAP META_COOKIE)) 4096.

Definition m_GTP6_ENCAP := mkMapRef (λ d, @GTP6_ENCAP (dp_tun d)) (λ m, set_tun (λ c, mkTunnelMaps
  SRV6_LOCALSID SRV6_ENCAP SRV6_ENCAP_SRC GTP_ENCAP GTP_PDR GTP_PDR6 m VLAN_VNI VNI_INFO VXLAN_SRC
  VXLAN_SRC6 VXLAN_ENCAP META_COOKIE)) 4096.

Definition m_VLAN_VNI := mkMapRef (λ d, @VLAN_VNI (dp_tun d)) (λ m, set_tun (λ c, mkTunnelMaps
  SRV6_LOCALSID SRV6_ENCAP SRV6_ENCAP_SRC GTP_ENCAP GTP_PDR GTP_PDR6 GTP6_ENCAP m VNI_INFO VXLAN_SRC
  VXLAN_SRC6 VXLAN_ENCAP META_COOKIE)) 4096.

Definition m_VNI_INFO := mkMapRef (λ d, @VNI_INFO (dp_tun d)) (λ m, set_tun (λ c, mkTunnelMaps
  SRV6_LOCALSID SRV6_ENCAP SRV6_ENCAP_SRC GTP_ENCAP GTP_PDR GTP_PDR6 GTP6_ENCAP VLAN_VNI m VXLAN_SRC
  VXLAN_SRC6 VXLAN_ENCAP META_COOKIE)) 4096.

Definition set_vxlan_src (m : option bytes) (d : Dp) : Dp :=
  set_tun (λ c, mkTunnelMaps SRV6_LOCALSID SRV6_ENCAP SRV6_ENCAP_SRC GTP_ENCAP GTP_PDR GTP_PDR6
    GTP6_ENCAP VLAN_VNI VNI_INFO m VXLAN_SRC6 VXLAN_ENCAP META_COOKIE) d.

Definition set_vxlan_src6 (m : option bytes) (d : Dp) : Dp :=
  set_tun (λ c, mkTunnelMaps SRV6_LOCALSID SRV6_ENCAP SRV6_ENCAP_SRC GTP_ENCAP GTP_PDR GTP_PDR6
    GTP6_ENCAP VLAN_VNI VNI_INFO VXLAN_SRC m VXLAN_ENCAP META_COOKIE) d.

Definition m_VXLAN_ENCAP := mkMapRef (λ d, @VXLAN_ENCAP (dp_tun d)) (λ m, set_tun (λ c, mkTunnelMaps
  SRV6_LOCALSID SRV6_ENCAP SRV6_ENCAP_SRC GTP_ENCAP GTP_PDR GTP_PDR6 GTP6_ENCAP VLAN_VNI VNI_INFO
  VXLAN_SRC VXLAN_SRC6 m META_COOKIE)) 4096.

Definition set_meta_cookie (m : option Z) (d : Dp) : Dp :=
  set_tun (λ c, mkTunnelMaps SRV6_LOCALSID SRV6_ENCAP SRV6_ENCAP_SRC GTP_ENCAP GTP_PDR GTP_PDR6
    GTP6_ENCAP VLAN_VNI VNI_INFO VXLAN_SRC VXLAN_SRC6 VXLAN_ENCAP m) d.

(** [L3Maps] *)

Definition set_tbls (t : Tables) (d : Dp) : Dp :=
  set_l3 (λ c, mkL3Maps t DP_CONFIG NEXTHOPS LINK_DOWN NHGROUP NHGROUP_MEMBER NEIGH4 NEIGH6 MPLS_FIB) d.

Definition set_dp_config (m : option Z) (d : Dp) : Dp :=
  set_l3 (λ c, mkL3Maps TBLS m NEXTHOPS LINK_DOWN NHGROUP NHGROUP_MEMBER NEIGH4 NEIGH6 MPLS_FIB) d.

Definition m_NEXTHOPS := mkMapRef (λ d, @NEXTHOPS (dp_l3 d)) (λ m, set_l3 (λ c, mkL3Maps TBLS
  DP_CONFIG m LINK_DOWN NHGROUP NHGROUP_MEMBER NEIGH4 NEIGH6 MPLS_FIB)) 4096.

Definition m_LINK_DOWN := mkMapRef (λ d, @LINK_DOWN (dp_l3 d)) (λ m, set_l3 (λ c, mkL3Maps TBLS
  DP_CONFIG NEXTHOPS m NHGROUP NHGROUP_MEMBER NEIGH4 NEIGH6 MPLS_FIB)) 256.

Definition m_NHGROUP := mkMapRef (λ d, @NHGROUP (dp_l3 d)) (λ m, set_l3 (λ c, mkL3Maps TBLS
  DP_CONFIG NEXTHOPS LINK_DOWN m NHGROUP_MEMBER NEIGH4 NEIGH6 MPLS_FIB)) 1024.

Definition m_NHGROUP_MEMBER := mkMapRef (λ d, @NHGROUP_MEMBER (dp_l3 d)) (λ m, set_l3 (λ c, mkL3Maps
  TBLS DP_CONFIG NEXTHOPS LINK_DOWN NHGROUP m NEIGH4 NEIGH6 MPLS_FIB)) 8192.

Definition m_NEIGH4 := mkMapRef (λ d, @NEIGH4 (dp_l3 d)) (λ m, set_l3 (λ c, mkL3Maps TBLS DP_CONFIG
  NEXTHOPS LINK_DOWN NHGROUP NHGROUP_MEMBER m NEIGH6 MPLS_FIB)) 4096.

Definition m_NEIGH6 := mkMapRef (λ d, @NEIGH6 (dp_l3 d)) (λ m, set_l3 (λ c, mkL3Maps TBLS DP_CONFIG
  NEXTHOPS LINK_DOWN NHGROUP NHGROUP_MEMBER NEIGH4 m MPLS_FIB)) 4096.

Definition m_MPLS_FIB := mkMapRef (λ d, @MPLS_FIB (dp_l3 d)) (λ m, set_l3 (λ c, mkL3Maps TBLS
  DP_CONFIG NEXTHOPS LINK_DOWN NHGROUP NHGROUP_MEMBER NEIGH4 NEIGH6 m)) 4096.

(** [L2Maps] *)

Definition m_REPL_SID := mkMapRef (λ d, @REPL_SID (dp_l2 d)) (λ m, set_l2 (λ c, mkL2Maps m REPL_SEG
  XCONNECT XCONNECT_VLAN DX2V MIRROR L2_MEMBERS L2_COUNT ES_DF PORT_ES VTEP_ES VTEP_ETREE
  PORT_MASTER SLOT_ES ESI_LABEL ES_NHG ES_NHG_MEMBER PORT_ETREE LEAF_LABEL LEAF_ARG)) 256.

Definition m_REPL_SEG := mkMapRef (λ d, @REPL_SEG (dp_l2 d)) (λ m, set_l2 (λ c, mkL2Maps REPL_SID m
  XCONNECT XCONNECT_VLAN DX2V MIRROR L2_MEMBERS L2_COUNT ES_DF PORT_ES VTEP_ES VTEP_ETREE
  PORT_MASTER SLOT_ES ESI_LABEL ES_NHG ES_NHG_MEMBER PORT_ETREE LEAF_LABEL LEAF_ARG)) 256.

Definition m_XCONNECT := mkMapRef (λ d, @XCONNECT (dp_l2 d)) (λ m, set_l2 (λ c, mkL2Maps REPL_SID
  REPL_SEG m XCONNECT_VLAN DX2V MIRROR L2_MEMBERS L2_COUNT ES_DF PORT_ES VTEP_ES VTEP_ETREE
  PORT_MASTER SLOT_ES ESI_LABEL ES_NHG ES_NHG_MEMBER PORT_ETREE LEAF_LABEL LEAF_ARG)) 256.

Definition m_XCONNECT_VLAN := mkMapRef (λ d, @XCONNECT_VLAN (dp_l2 d)) (λ m, set_l2 (λ c, mkL2Maps
  REPL_SID REPL_SEG XCONNECT m DX2V MIRROR L2_MEMBERS L2_COUNT ES_DF PORT_ES VTEP_ES VTEP_ETREE
  PORT_MASTER SLOT_ES ESI_LABEL ES_NHG ES_NHG_MEMBER PORT_ETREE LEAF_LABEL LEAF_ARG)) 1024.

Definition m_DX2V := mkMapRef (λ d, @DX2V (dp_l2 d)) (λ m, set_l2 (λ c, mkL2Maps REPL_SID REPL_SEG
  XCONNECT XCONNECT_VLAN m MIRROR L2_MEMBERS L2_COUNT ES_DF PORT_ES VTEP_ES VTEP_ETREE PORT_MASTER
  SLOT_ES ESI_LABEL ES_NHG ES_NHG_MEMBER PORT_ETREE LEAF_LABEL LEAF_ARG)) 1024.

Definition m_MIRROR := mkMapRef (λ d, @MIRROR (dp_l2 d)) (λ m, set_l2 (λ c, mkL2Maps REPL_SID
  REPL_SEG XCONNECT XCONNECT_VLAN DX2V m L2_MEMBERS L2_COUNT ES_DF PORT_ES VTEP_ES VTEP_ETREE
  PORT_MASTER SLOT_ES ESI_LABEL ES_NHG ES_NHG_MEMBER PORT_ETREE LEAF_LABEL LEAF_ARG)) 1024.

Definition m_L2_MEMBERS := mkMapRef (λ d, @L2_MEMBERS (dp_l2 d)) (λ m, set_l2 (λ c, mkL2Maps
  REPL_SID REPL_SEG XCONNECT XCONNECT_VLAN DX2V MIRROR m L2_COUNT ES_DF PORT_ES VTEP_ES VTEP_ETREE
  PORT_MASTER SLOT_ES ESI_LABEL ES_NHG ES_NHG_MEMBER PORT_ETREE LEAF_LABEL LEAF_ARG)) 4096.

Definition m_L2_COUNT := mkMapRef (λ d, @L2_COUNT (dp_l2 d)) (λ m, set_l2 (λ c, mkL2Maps REPL_SID
  REPL_SEG XCONNECT XCONNECT_VLAN DX2V MIRROR L2_MEMBERS m ES_DF PORT_ES VTEP_ES VTEP_ETREE
  PORT_MASTER SLOT_ES ESI_LABEL ES_NHG ES_NHG_MEMBER PORT_ETREE LEAF_LABEL LEAF_ARG)) 256.

Definition m_ES_DF := mkMapRef (λ d, @ES_DF (dp_l2 d)) (λ m, set_l2 (λ c, mkL2Maps REPL_SID REPL_SEG
  XCONNECT XCONNECT_VLAN DX2V MIRROR L2_MEMBERS L2_COUNT m PORT_ES VTEP_ES VTEP_ETREE PORT_MASTER
  SLOT_ES ESI_LABEL ES_NHG ES_NHG_MEMBER PORT_ETREE LEAF_LABEL LEAF_ARG)) 1024.

Definition m_PORT_ES := mkMapRef (λ d, @PORT_ES (dp_l2 d)) (λ m, set_l2 (λ c, mkL2Maps REPL_SID
  REPL_SEG XCONNECT XCONNECT_VLAN DX2V MIRROR L2_MEMBERS L2_COUNT ES_DF m VTEP_ES VTEP_ETREE
  PORT_MASTER SLOT_ES ESI_LABEL ES_NHG ES_NHG_MEMBER PORT_ETREE LEAF_LABEL LEAF_ARG)) 256.

Definition m_VTEP_ES := mkMapRef (λ d, @VTEP_ES (dp_l2 d)) (λ m, set_l2 (λ c, mkL2Maps REPL_SID
  REPL_SEG XCONNECT XCONNECT_VLAN DX2V MIRROR L2_MEMBERS L2_COUNT ES_DF PORT_ES m VTEP_ETREE
  PORT_MASTER SLOT_ES ESI_LABEL ES_NHG ES_NHG_MEMBER PORT_ETREE LEAF_LABEL LEAF_ARG)) 1024.

Definition m_VTEP_ETREE := mkMapRef (λ d, @VTEP_ETREE (dp_l2 d)) (λ m, set_l2 (λ c, mkL2Maps
  REPL_SID REPL_SEG XCONNECT XCONNECT_VLAN DX2V MIRROR L2_MEMBERS L2_COUNT ES_DF PORT_ES VTEP_ES m
  PORT_MASTER SLOT_ES ESI_LABEL ES_NHG ES_NHG_MEMBER PORT_ETREE LEAF_LABEL LEAF_ARG)) 1024.

Definition m_PORT_MASTER := mkMapRef (λ d, @PORT_MASTER (dp_l2 d)) (λ m, set_l2 (λ c, mkL2Maps
  REPL_SID REPL_SEG XCONNECT XCONNECT_VLAN DX2V MIRROR L2_MEMBERS L2_COUNT ES_DF PORT_ES VTEP_ES
  VTEP_ETREE m SLOT_ES ESI_LABEL ES_NHG ES_NHG_MEMBER PORT_ETREE LEAF_LABEL LEAF_ARG)) 256.

Definition m_SLOT_ES := mkMapRef (λ d, @SLOT_ES (dp_l2 d)) (λ m, set_l2 (λ c, mkL2Maps REPL_SID
  REPL_SEG XCONNECT XCONNECT_VLAN DX2V MIRROR L2_MEMBERS L2_COUNT ES_DF PORT_ES VTEP_ES VTEP_ETREE
  PORT_MASTER m ESI_LABEL ES_NHG ES_NHG_MEMBER PORT_ETREE LEAF_LABEL LEAF_ARG)) 256.

Definition m_ESI_LABEL := mkMapRef (λ d, @ESI_LABEL (dp_l2 d)) (λ m, set_l2 (λ c, mkL2Maps REPL_SID
  REPL_SEG XCONNECT XCONNECT_VLAN DX2V MIRROR L2_MEMBERS L2_COUNT ES_DF PORT_ES VTEP_ES VTEP_ETREE
  PORT_MASTER SLOT_ES m ES_NHG ES_NHG_MEMBER PORT_ETREE LEAF_LABEL LEAF_ARG)) 256.

Definition m_ES_NHG := mkMapRef (λ d, @ES_NHG (dp_l2 d)) (λ m, set_l2 (λ c, mkL2Maps REPL_SID
  REPL_SEG XCONNECT XCONNECT_VLAN DX2V MIRROR L2_MEMBERS L2_COUNT ES_DF PORT_ES VTEP_ES VTEP_ETREE
  PORT_MASTER SLOT_ES ESI_LABEL m ES_NHG_MEMBER PORT_ETREE LEAF_LABEL LEAF_ARG)) 1024.

Definition m_ES_NHG_MEMBER := mkMapRef (λ d, @ES_NHG_MEMBER (dp_l2 d)) (λ m, set_l2 (λ c, mkL2Maps
  REPL_SID REPL_SEG XCONNECT XCONNECT_VLAN DX2V MIRROR L2_MEMBERS L2_COUNT ES_DF PORT_ES VTEP_ES
  VTEP_ETREE PORT_MASTER SLOT_ES ESI_LABEL ES_NHG m PORT_ETREE LEAF_LABEL LEAF_ARG)) 4096.

Definition m_PORT_ETREE := mkMapRef (λ d, @PORT_ETREE (dp_l2 d)) (λ m, set_l2 (λ c, mkL2Maps
  REPL_SID REPL_SEG XCONNECT XCONNECT_VLAN DX2V MIRROR L2_MEMBERS L2_COUNT ES_DF PORT_ES VTEP_ES
  VTEP_ETREE PORT_MASTER SLOT_ES ESI_LABEL ES_NHG ES_NHG_MEMBER m LEAF_LABEL LEAF_ARG)) 256.

Definition m_LEAF_LABEL := mkMapRef (λ d, @LEAF_LABEL (dp_l2 d)) (λ m, set_l2 (λ c, mkL2Maps
  REPL_SID REPL_SEG XCONNECT XCONNECT_VLAN DX2V MIRROR L2_MEMBERS L2_COUNT ES_DF PORT_ES VTEP_ES
  VTEP_ETREE PORT_MASTER SLOT_ES ESI_LABEL ES_NHG ES_NHG_MEMBER PORT_ETREE m LEAF_ARG)) 16.

Definition m_LEAF_ARG := mkMapRef (λ d, @LEAF_ARG (dp_l2 d)) (λ m, set_l2 (λ c, mkL2Maps REPL_SID
  REPL_SEG XCONNECT XCONNECT_VLAN DX2V MIRROR L2_MEMBERS L2_COUNT ES_DF PORT_ES VTEP_ES VTEP_ETREE
  PORT_MASTER SLOT_ES ESI_LABEL ES_NHG ES_NHG_MEMBER PORT_ETREE LEAF_LABEL m)) 16.

(** [PolicyMaps] *)

Definition m_IDENTITY := mkMapRef (λ d, @IDENTITY (dp_pol d)) (λ m, set_pol (λ c, mkPolicyMaps m
  CIDR_ID IDENTITY6 CIDR_ID6 EP_POLICY POLICY)) 65536.

Definition m_CIDR_ID := mkMapRef (λ d, @CIDR_ID (dp_pol d)) (λ m, set_pol (λ c, mkPolicyMaps
  IDENTITY m IDENTITY6 CIDR_ID6 EP_POLICY POLICY)) 4096.

Definition m_IDENTITY6 := mkMapRef (λ d, @IDENTITY6 (dp_pol d)) (λ m, set_pol (λ c, mkPolicyMaps
  IDENTITY CIDR_ID m CIDR_ID6 EP_POLICY POLICY)) 65536.

Definition m_CIDR_ID6 := mkMapRef (λ d, @CIDR_ID6 (dp_pol d)) (λ m, set_pol (λ c, mkPolicyMaps
  IDENTITY CIDR_ID IDENTITY6 m EP_POLICY POLICY)) 4096.

Definition m_EP_POLICY := mkMapRef (λ d, @EP_POLICY (dp_pol d)) (λ m, set_pol (λ c, mkPolicyMaps
  IDENTITY CIDR_ID IDENTITY6 CIDR_ID6 m POLICY)) 4096.

Definition m_POLICY := mkMapRef (λ d, @POLICY (dp_pol d)) (λ m, set_pol (λ c, mkPolicyMaps IDENTITY
  CIDR_ID IDENTITY6 CIDR_ID6 EP_POLICY m)) 65536.

(** [L4Maps] *)

Definition m_SERVICES := mkMapRef (λ d, @SERVICES (dp_l4 d)) (λ m, set_l4 (λ c, mkL4Maps m BACKENDS
  MASQ_CFG NON_MASQ SERVICES6 BACKENDS6 L7_SERVICES)) 1024.

Definition m_BACKENDS := mkMapRef (λ d, @BACKENDS (dp_l4 d)) (λ m, set_l4 (λ c, mkL4Maps SERVICES m
  MASQ_CFG NON_MASQ SERVICES6 BACKENDS6 L7_SERVICES)) 8192.

Definition set_masq_cfg (m : option Z) (d : Dp) : Dp :=
  set_l4 (λ c, mkL4Maps SERVICES BACKENDS m NON_MASQ SERVICES6 BACKENDS6 L7_SERVICES) d.

Definition m_NON_MASQ := mkMapRef (λ d, @NON_MASQ (dp_l4 d)) (λ m, set_l4 (λ c, mkL4Maps SERVICES
  BACKENDS MASQ_CFG m SERVICES6 BACKENDS6 L7_SERVICES)) 1024.

Definition m_SERVICES6 := mkMapRef (λ d, @SERVICES6 (dp_l4 d)) (λ m, set_l4 (λ c, mkL4Maps SERVICES
  BACKENDS MASQ_CFG NON_MASQ m BACKENDS6 L7_SERVICES)) 1024.

Definition m_BACKENDS6 := mkMapRef (λ d, @BACKENDS6 (dp_l4 d)) (λ m, set_l4 (λ c, mkL4Maps SERVICES
  BACKENDS MASQ_CFG NON_MASQ SERVICES6 m L7_SERVICES)) 8192.

Definition m_L7_SERVICES := mkMapRef (λ d, @L7_SERVICES (dp_l4 d)) (λ m, set_l4 (λ c, mkL4Maps
  SERVICES BACKENDS MASQ_CFG NON_MASQ SERVICES6 BACKENDS6 m)) 1024.

(** [BfdMaps] *)

Definition m_OUR_LOCAL_IPS := mkMapRef (λ d, @OUR_LOCAL_IPS (dp_bfd d)) (λ m, set_bfd (λ c,
  mkBfdMaps m OUR_LOCAL_IPS_V6)) 256.

Definition m_OUR_LOCAL_IPS_V6 := mkMapRef (λ d, @OUR_LOCAL_IPS_V6 (dp_bfd d)) (λ m, set_bfd (λ c,
  mkBfdMaps OUR_LOCAL_IPS m)) 256.

(** The maps the eBPF programs write too. *)
Definition m_FDB := mkMapRef dp_fdb set_fdb FDB_MAX.
Definition m_ECHO_TIMERS := mkMapRef dp_echo_timers set_echo_timers 256.
Definition m_CONTROL_TIMERS := mkMapRef dp_ctrl_timers set_ctrl_timers 256.

(** ** The system calls *)

Class MapSys := {
  hash_update {K} `{Countable K} {V} : Z → K → V → gmap K V → option (gmap K V);
  hash_delete {K} `{Countable K} {V} : K → gmap K V → option (gmap K V);
  trie_update {V} : Z → Z → bytes → V → gmap (Z * bytes) V → option (gmap (Z * bytes) V);
  trie_delete {V} : Z → bytes → gmap (Z * bytes) V → option (gmap (Z * bytes) V);
}.

(** [bpf(2)]: an update replaces or adds one element or fails (a full map, no
    memory) and changes nothing; deleting an absent key is an error; a trie
    holds one element per prefix, whatever its host bits. *)
Class MapSysLaws `{MapSys} := {
  hash_update_some {K} `{Countable K} {V} cap (k : K) (v : V) m m' :
    hash_update cap k v m = Some m' → m' = <[k := v]> m;
  hash_delete_spec {K} `{Countable K} {V} (k : K) (m : gmap K V) :
    hash_delete k m = if bool_decide (is_Some (m !! k)) then Some (delete k m) else None;
  trie_update_some {V} (cap n : Z) (d : bytes) (v : V) (t t' : gmap (Z * bytes) V) : trie_update cap n d v t = Some t' →
    n ≤ 8 * Z.of_nat (length d) ∧
    ∀ n' d', t' !! (n', d') =
      if bool_decide (n' = n ∧ d' = d) then Some v
      else if bool_decide (n' = n ∧ bits_agree n d' d = true) then None else t !! (n', d');
  trie_delete_some {V} (n : Z) (d : bytes) (t t' : gmap (Z * bytes) V) : trie_delete n d t = Some t' →
    ∀ n' d', t' !! (n', d') =
      if bool_decide (n' = n ∧ bits_agree n d' d = true) then None else t !! (n', d');
  trie_delete_none {V} (n : Z) (d : bytes) (t : gmap (Z * bytes) V) : trie_delete n d t = None →
    8 * Z.of_nat (length d) < n ∨ ∀ d', bits_agree n d' d = true → t !! (n, d') = None;
}.

(** ** Runs *)

(** The maps now, and every state of them a packet could have observed since
    the run began. *)
Record Run := mkRun { now : Dp; seen : list Dp }.

Inductive DpErr : Type :=
| Sys                                    (* a map operation failed *)
| EngineErr (e : Dir24Err)
| LabelStackTooDeep
| LabelTooLarge (label : Z)
| BadSegmentList
| BumExclusive (bd : Z).

Definition Ctl (A : Type) : Type := M Run DpErr A.

Definition dp : Ctl Dp := gets now.
Definition commit (d : Dp) : Ctl unit := modify (λ s, mkRun d (seen s ++ [d])).
(** User-space bookkeeping: no packet sees it. *)
Definition private (f : Dp → Dp) : Ctl unit := modify (λ s, mkRun (f (now s)) (seen s)).

Section calls.
Context `{MapSys}.

Definition map_put {X} (r : MapRef X) (call : X → option X) : Ctl unit :=
  d ← dp;
  m ← of_option Sys (call (view r d));
  commit (over r m d).

Definition hash_put {K} `{Countable K} {V} (r : MapRef (gmap K V)) (k : K) (v : V) : Ctl unit :=
  map_put r (hash_update (capacity r) k v).
Definition hash_del {K} `{Countable K} {V} (r : MapRef (gmap K V)) (k : K) : Ctl unit :=
  map_put r (hash_delete k).
Definition trie_put {V} (r : MapRef (gmap (Z * bytes) V)) (n : Z) (d : bytes) (v : V) : Ctl unit :=
  map_put r (trie_update (capacity r) n d v).
Definition trie_del {V} (r : MapRef (gmap (Z * bytes) V)) (n : Z) (d : bytes) : Ctl unit :=
  map_put r (trie_delete n d).

(** [let _ = map.remove(..)]: absence is not an error. *)
Definition ignore (m : Ctl unit) : Ctl unit := _ ← catch m; mret tt.
Definition hash_drop {K} `{Countable K} {V} (r : MapRef (gmap K V)) (k : K) : Ctl unit :=
  ignore (hash_del r k).
Definition trie_drop {V} (r : MapRef (gmap (Z * bytes) V)) (n : Z) (d : bytes) : Ctl unit :=
  ignore (trie_del r n d).

(** [for (i, x) in xs.iter().enumerate() { f(i, x)?; }] from index [i]. *)
Fixpoint for_each {A} (f : Z → A → Ctl unit) (i : Z) (xs : list A) : Ctl unit :=
  match xs with
  | [] => mret tt
  | x :: xs => _ ← f i x; for_each f (i + 1) xs
  end.
End calls.

(** ** A reference [bpf(2)]

    A hash map holds at most its capacity, and at most [limit] elements. *)

(** The elements with prefix [n] of [d]. *)
Definition same_prefix (n : Z) (d : bytes) (k : Z * bytes) : Prop := k.1 = n ∧ bits_agree n k.2 d = true.
#[global] Instance same_prefix_dec n d k : Decision (same_prefix n d k).
Proof. unfold same_prefix. apply _. Defined.

Definition without {V} (n : Z) (d : bytes) (t : gmap (Z * bytes) V) : gmap (Z * bytes) V :=
  filter (λ kv, ¬ same_prefix n d kv.1) t.

Lemma lookup_without {V} (n : Z) (d : bytes) (t : gmap (Z * bytes) V) (n' : Z) (d' : bytes) :
  without n d t !! (n', d') =
    if bool_decide (n' = n ∧ bits_agree n d' d = true) then None else t !! (n', d').
Proof.
  unfold without. rewrite map_lookup_filter. destruct (t !! (n', d')) as [v|]; cbn.
  - unfold same_prefix. cbn [fst snd]. rewrite option_guard_decide. destruct (decide (¬ (n' = n ∧ _))); case_bool_decide; (done || tauto).
  - by case_bool_decide.
Qed.

Definition limited_sys (limit : Z) : MapSys := {|
  hash_update K _ _ V cap k v m :=
    if bool_decide (is_Some (m !! k) ∨ Z.of_nat (size m) < Z.min cap limit) then Some (<[k := v]> m) else None;
  hash_delete K _ _ V k m := if bool_decide (is_Some (m !! k)) then Some (delete k m) else None;
  trie_update V _ n d v t :=
    if n <=? 8 * Z.of_nat (length d) then Some (<[(n, d) := v]> (without n d t)) else None;
  trie_delete V n d t :=
    if bool_decide (map_Forall (λ k _, ¬ same_prefix n d k) t) then None else Some (without n d t);
|}.

Lemma limited_sys_laws limit : @MapSysLaws (limited_sys limit).
Proof.
  split.
  - intros K ? ? V cap k v m m'. cbn. case_bool_decide; by intros [= <-].
  - done.
  - intros V cap n d v t t'. cbn. destruct (Z.leb_spec n (8 * Z.of_nat (length d))); [|done].
    intros [= <-]. split; [done|]. intros n' d'. case_bool_decide as E.
    + destruct E as [-> ->]. by rewrite lookup_insert_eq.
    + rewrite lookup_insert_ne by naive_solver. apply lookup_without.
  - intros V n d t t'. cbn. case_bool_decide; [done|]. intros [= <-] n' d'. apply lookup_without.
  - intros V n d t. cbn. case_bool_decide as E; [|done]. intros _. right. intros d' Hb.
    destruct (t !! (n, d')) as [v|] eqn:Ed; [|done]. by destruct (E _ _ Ed).
Qed.

Definition ref_sys : MapSys := limited_sys (2 ^ 32).
Lemma ref_sys_laws : @MapSysLaws ref_sys.
Proof. apply limited_sys_laws. Qed.
