(* ===== verification/Dataplane.v ===== *)
(** * Programming the data plane ([crates/cradle/src/dataplane.rs])

    Every operation of [Dataplane] that writes a map, as a computation over
    the handles of [MapRefs], the readers and the rows of [cradle dump].  Addresses are their octets; integers are
    stored as the source stores them: [ipv4_to_map] and [port_to_map] in the
    byte order the programs load, [of_be] where the source says
    [u32::from(addr)]. *)

From S2P Require Import Prelude.
From S2P Require Import Contract.
From S2P Require Import Common.
From S2P Require Import Dir24.
From S2P Require Import Bpf.
From S2P Require Import Maps.
From S2P Require Import L2.
From S2P Require Import Bfd.
From S2P Require Import MapRefs.

(** ** Encodings ([util.rs]) *)

Definition ipv4_to_map (a : bytes) : Z := of_le a.
Definition port_to_map (p : Z) : Z := of_le (to_be 2 p).
Definition ip_to_v6_bytes (a : IpAddr) : bytes := match a with V4 b => v4_mapped b | V6 b => b end.

Definition etree_flag (leaf : bool) : Z := if leaf then FDB_F_ETREE_LEAF else 0.

(** [arr = [default; n]; arr[..l.len()].copy_from_slice(l)] *)
Definition padded {A} (n : nat) (x : A) (l : list A) : list A := l ++ replicate (n - length l) x.

(** The out-label stack of a nexthop: the array, its length, the flags. *)
Definition pack_labels (labels : list Z) (pipe : bool) : res DpErr (list Z * Z * Z) :=
  if (Z.to_nat MAX_LABELS <? length labels)%nat then Err LabelStackTooDeep else
  match first_some (λ l, if 2 ^ 20 <=? l then Some l else None) labels with
  | Some l => Err (LabelTooLarge l)
  | None =>
      let fl := match labels with
                | [] => 0
                | _ => if pipe then NH_F_MPLS .| NH_F_MPLS_PIPE else NH_F_MPLS
                end in
      Ok (padded (Z.to_nat MAX_LABELS) 0 labels, Z.of_nat (length labels), fl)
  end.

(** A validation that needs no state. *)
Definition check {A} (r : res DpErr A) : Ctl A :=
  match r with Ok a => mret a | Err e => bail e end.

Definition zero6 : bytes := replicate 6 0.
Definition zero16 : bytes := replicate 16 0.

Section dataplane.
Context `{MapSys}.

(** ** L4 services *)

Definition l7_service_add (vip : bytes) (port : Z) : Ctl unit :=
  hash_put m_L7_SERVICES (mkServiceKey (ipv4_to_map vip) (port_to_map port) 6) 1.
Definition l7_service_del (vip : bytes) (port : Z) : Ctl unit :=
  hash_drop m_L7_SERVICES (mkServiceKey (ipv4_to_map vip) (port_to_map port) 6).

Definition svc_info (svc_id : Z) (n : nat) (affinity : bool) : ServiceInfo :=
  mkServiceInfo (wrap 16 (Z.of_nat n)) LB_ALGO_RANDOM (if affinity then SVC_F_AFFINITY else 0) svc_id.

Definition service_add (svc_id : Z) (vip : bytes) (port proto : Z)
    (backends : list (bytes * Z)) (affinity : bool) : Ctl unit :=
  let key := mkServiceKey (ipv4_to_map vip) (port_to_map port) proto in
  d ← dp;
  let old := view m_SERVICES d !! key in
  _ ← hash_put m_SERVICES key (svc_info svc_id (length backends) affinity);
  _ ← for_each (λ slot '(ip, p),
        hash_put m_BACKENDS (mkBackendKey svc_id (wrap 16 slot))
          (mkBackend (ipv4_to_map ip) (port_to_map p) 0)) 0 backends;
  match old with
  | Some old =>
      let n := wrap 16 (Z.of_nat (length backends)) in
      for_each (λ _ slot, hash_drop m_BACKENDS (mkBackendKey (si_svc_id old) slot)) 0
        (seqZ n (si_backend_count old - n))
  | None => mret tt
  end.

Definition service_del (vip : bytes) (port proto : Z) : Ctl unit :=
  let key := mkServiceKey (ipv4_to_map vip) (port_to_map port) proto in
  d ← dp;
  match view m_SERVICES d !! key with
  | None => mret tt
  | Some info =>
      _ ← for_each (λ _ slot, hash_drop m_BACKENDS (mkBackendKey (si_svc_id info) slot)) 0
            (seqZ 0 (si_backend_count info));
      hash_del m_SERVICES key
  end.

Definition service6_add (svc_id : Z) (vip : bytes) (port proto : Z)
    (backends : list (bytes * Z)) (affinity : bool) : Ctl unit :=
  let key := mkServiceKey6 vip (port_to_map port) proto in
  d ← dp;
  let old := view m_SERVICES6 d !! key in
  _ ← hash_put m_SERVICES6 key (svc_info svc_id (length backends) affinity);
  _ ← for_each (λ slot '(ip, p),
        hash_put m_BACKENDS6 (mkBackendKey svc_id (wrap 16 slot)) (mkBackend6 ip (port_to_map p) 0))
        0 backends;
  match old with
  | Some old =>
      let n := wrap 16 (Z.of_nat (length backends)) in
      for_each (λ _ slot, hash_drop m_BACKENDS6 (mkBackendKey (si_svc_id old) slot)) 0
        (seqZ n (si_backend_count old - n))
  | None => mret tt
  end.

Definition service6_del (vip : bytes) (port proto : Z) : Ctl unit :=
  let key := mkServiceKey6 vip (port_to_map port) proto in
  d ← dp;
  match view m_SERVICES6 d !! key with
  | None => mret tt
  | Some info =>
      _ ← for_each (λ _ slot, hash_drop m_BACKENDS6 (mkBackendKey (si_svc_id info) slot)) 0
            (seqZ 0 (si_backend_count info));
      hash_del m_SERVICES6 key
  end.

Definition masq_node_set (node : option bytes) : Ctl unit :=
  d ← dp; commit (set_masq_cfg (Some (from_option ipv4_to_map 0 node)) d).
Definition non_masq_add (net : bytes) (prefix_len : Z) : Ctl unit := trie_put m_NON_MASQ prefix_len net 1.
Definition non_masq_del (net : bytes) (prefix_len : Z) : Ctl unit := trie_drop m_NON_MASQ prefix_len net.

(** ** Policy *)

Definition identity_set (vrf : Z) (ip : bytes) (identity : Z) : Ctl unit :=
  hash_put m_IDENTITY (mkVrfIdKey vrf (ipv4_to_map ip)) identity.
Definition identity_del (vrf : Z) (ip : bytes) : Ctl unit :=
  hash_drop m_IDENTITY (mkVrfIdKey vrf (ipv4_to_map ip)).
Definition cidr_identity_set (vrf : Z) (net : bytes) (prefix_len identity : Z) (del : bool) : Ctl unit :=
  if del then trie_drop m_CIDR_ID (32 + prefix_len) (vrf_key vrf net)
  else trie_put m_CIDR_ID (32 + prefix_len) (vrf_key vrf net) identity.
Definition identity6_set (vrf : Z) (ip : bytes) (identity : Z) (del : bool) : Ctl unit :=
  if del then hash_drop m_IDENTITY6 (mkVrfId6Key vrf ip) else hash_put m_IDENTITY6 (mkVrfId6Key vrf ip) identity.
Definition cidr6_identity_set (vrf : Z) (net : bytes) (prefix_len identity : Z) (del : bool) : Ctl unit :=
  if del then trie_drop m_CIDR_ID6 (32 + prefix_len) (vrf_key vrf net)
  else trie_put m_CIDR_ID6 (32 + prefix_len) (vrf_key vrf net) identity.

(** A rule: [(identity, proto, port, deny)], 0 a wildcard. *)
Record Rule := mkRule { r_identity : Z; r_proto : Z; r_port : Z; r_deny : bool }.

Definition rule_key (ep dir : Z) (r : Rule) : PolicyKey :=
  mkPolicyKey ep (r_identity r) (port_to_map (r_port r)) (r_proto r) dir.
Definition rule_verdict (r : Rule) : Z := if r_deny r then POLICY_DENY else POLICY_ALLOW.

(** The keys [sweep] removes: the endpoint's, but for one generation. *)
Definition stale_rule (ep : Z) (keep_gen : option Z) (k : PolicyKey) : bool :=
  (pol_ep k =? ep) &&
  match keep_gen with None => true | Some g => negb (pol_dir k .& POLICY_KEY_GEN =? g) end.

Definition sweep (ep : Z) (keep_gen : option Z) : Ctl unit :=
  d ← dp;
  let stale := filter (λ k, stale_rule ep keep_gen k = true) ((map_to_list (view m_POLICY d)).*1) in
  for_each (λ _ k, hash_drop m_POLICY k) 0 stale.

(** The generation the next table goes to. *)
Definition next_gen (cur : option Z) : Z :=
  match cur with
  | Some v => if has v EP_F_GEN then 0 else EP_F_GEN
  | None => 0
  end.

Definition install_rules (ep dir : Z) (rules : list Rule) : Ctl unit :=
  for_each (λ _ r, hash_put m_POLICY (rule_key ep dir r) (rule_verdict r)) 0 rules.

Definition endpoint_policy_set (ep : Z) (enforce enforce_egress audit : bool)
    (rules egress_rules : list Rule) : Ctl unit :=
  if negb enforce && negb enforce_egress then
    _ ← hash_drop m_EP_POLICY ep;
    sweep ep None
  else
    d ← dp;
    let new_gen := next_gen (view m_EP_POLICY d !! ep) in
    let gen_bit := if negb (new_gen =? 0) then POLICY_KEY_GEN else 0 in
    _ ← (if enforce then install_rules ep (POLICY_DIR_INGRESS .| gen_bit) rules else mret tt);
    _ ← (if enforce_egress then install_rules ep (POLICY_DIR_EGRESS .| gen_bit) egress_rules else mret tt);
    let fl := (if enforce then EP_F_INGRESS else 0) .| (if enforce_egress then EP_F_EGRESS else 0)
              .| (if audit then EP_F_AUDIT else 0) .| new_gen in
    _ ← hash_put m_EP_POLICY ep fl;
    sweep ep (Some gen_bit).

(** ** Ports and L2 domains *)

Definition port_set (ifindex : Z) (mac : bytes) (fl vlan vrf_id : Z) : Ctl unit :=
  hash_put m_PORTS ifindex (mkPortConfig mac vlan fl vrf_id).
Definition port_del (ifindex : Z) : Ctl unit := hash_drop m_PORTS ifindex.

Definition l2_domain_set (vlan : Z) (members : list Z) : Ctl unit :=
  _ ← hash_put m_L2_COUNT vlan (wrap 32 (Z.of_nat (length members)));
  for_each (λ slot m, hash_put m_L2_MEMBERS (mkL2MemberKey vlan (wrap 16 slot)) m) 0 members.

Definition l2_member_add (vlan ifindex : Z) : Ctl unit :=
  d ← dp;
  let count := default 0 (view m_L2_COUNT d !! vlan) in
  if existsb (λ slot, bool_decide (view m_L2_MEMBERS d !! mkL2MemberKey vlan (wrap 16 slot) = Some ifindex))
       (seqZ 0 count)
  then mret tt
  else
    _ ← hash_put m_L2_MEMBERS (mkL2MemberKey vlan (wrap 16 count)) ifindex;
    hash_put m_L2_COUNT vlan (wrap 32 (count + 1)).

(** The members the dense slots hold, missing slots skipped. *)
Definition slot_members (d : Dp) (vlan count : Z) : list Z :=
  omap (λ slot, view m_L2_MEMBERS d !! mkL2MemberKey vlan (wrap 16 slot)) (seqZ 0 count).

Definition l2_member_remove (vlan ifindex : Z) : Ctl unit :=
  d ← dp;
  let count := default 0 (view m_L2_COUNT d !! vlan) in
  let before := slot_members d vlan count in
  let members := filter (λ m, m ≠ ifindex) before in
  if (length members =? length before)%nat then mret tt else
  _ ← l2_domain_set vlan members;
  hash_drop m_L2_MEMBERS (mkL2MemberKey vlan (wrap 16 (Z.of_nat (length members)))).

Definition es_df_set (ifindex bd fl : Z) : Ctl unit := hash_put m_ES_DF (mkEsDfKey ifindex bd) fl.
Definition es_df_del (ifindex bd : Z) : Ctl unit := hash_drop m_ES_DF (mkEsDfKey ifindex bd).
Definition port_es_set (ifindex id : Z) : Ctl unit := hash_put m_PORT_ES ifindex id.
Definition port_es_del (ifindex : Z) : Ctl unit := hash_drop m_PORT_ES ifindex.
Definition port_etree_set (ifindex : Z) : Ctl unit := hash_put m_PORT_ETREE ifindex ETREE_F_LEAF.
Definition port_etree_del (ifindex : Z) : Ctl unit := hash_drop m_PORT_ETREE ifindex.
Definition slot_es_set (flood_ifindex only skip etree : Z) : Ctl unit :=
  if (only =? 0) && (skip =? 0) && (etree =? 0) then hash_drop m_SLOT_ES flood_ifindex
  else hash_put m_SLOT_ES flood_ifindex (mkSlotEs only etree skip).
Definition esi_label_set (label es_id : Z) : Ctl unit := hash_put m_ESI_LABEL label es_id.
Definition esi_label_del (label : Z) : Ctl unit := hash_drop m_ESI_LABEL label.
Definition leaf_label_set (label : Z) : Ctl unit := hash_put m_LEAF_LABEL label 1.
Definition leaf_label_del (label : Z) : Ctl unit := hash_drop m_LEAF_LABEL label.
Definition leaf_arg_set (arg : Z) : Ctl unit := hash_put m_LEAF_ARG arg 1.
Definition leaf_arg_del (arg : Z) : Ctl unit := hash_drop m_LEAF_ARG arg.
Definition vtep_etree_set (vtep : IpAddr) (bd : Z) : Ctl unit :=
  hash_put m_VTEP_ETREE (mkVtepBdKey (ip_to_v6_bytes vtep) bd) 1.
Definition vtep_etree_del (vtep : IpAddr) (bd : Z) : Ctl unit :=
  hash_drop m_VTEP_ETREE (mkVtepBdKey (ip_to_v6_bytes vtep) bd).
Definition port_master_set (member port : Z) : Ctl unit := hash_put m_PORT_MASTER member port.
Definition port_master_del (member : Z) : Ctl unit := hash_drop m_PORT_MASTER member.
Definition vtep_es_set (addr : IpAddr) (bits : Z) : Ctl unit :=
  if bits =? 0 then hash_drop m_VTEP_ES (ip_to_v6_bytes addr)
  else hash_put m_VTEP_ES (ip_to_v6_bytes addr) bits.

(** ** Ethernet Segment nexthop groups *)

Definition es_nhg_set (es_id bd : Z) (members : list ReplTarget) (single_active : bool) : Ctl unit :=
  let key := mkEsNhgKey es_id bd in
  d ← dp;
  let old := default 0 (view m_ES_NHG d !! key) .& ES_NHG_COUNT_MASK in
  let n := Z.min (Z.of_nat (length members)) (2 ^ 16 - 1) in
  _ ← for_each (λ slot m, hash_put m_ES_NHG_MEMBER (mkEsNhgMemberKey es_id bd (wrap 16 slot)) m)
        0 (take (Z.to_nat n) members);
  _ ← (if n =? 0 then hash_drop m_ES_NHG key
       else hash_put m_ES_NHG key (n .| (if single_active then ES_NHG_F_SINGLE_ACTIVE else 0)));
  for_each (λ _ slot, hash_drop m_ES_NHG_MEMBER (mkEsNhgMemberKey es_id bd (wrap 16 slot))) 0
    (seqZ n (old - n)).

(** ** Overlay FDB and BUM replication *)

Definition BUM_SENTINEL : bytes := replicate 6 0xff.

Definition bd_has_bum_sentinel (d : Dp) (bd : Z) : bool :=
  match view m_FDB d !! mkFdbKey BUM_SENTINEL bd with
  | Some e => has (fe_flags e) FDB_F_REMOTE
  | None => false
  end.

Definition bd_has_repl_slot (d : Dp) (bd : Z) : bool :=
  existsb (λ slot,
      match view m_L2_MEMBERS d !! mkL2MemberKey bd (wrap 16 slot) with
      | Some m => bool_decide (is_Some (view m_REPL_SID d !! m))
      | None => false
      end)
    (seqZ 0 (default 0 (view m_L2_COUNT d !! bd))).

(** The map is iterated in the kernel's order; [order] stands for it. *)
Definition bd_of_member (order : list (L2MemberKey * Z)) (ifindex : Z) : option Z :=
  first_some (λ '(k, m), if m =? ifindex then Some (lm_vlan k) else None) order.

Definition check_bum_exclusive (sentinel slots : bool) (bd : Z) : Ctl unit :=
  if sentinel && slots then bail (BumExclusive bd) else mret tt.

Definition fdb_overlay_add (mac : bytes) (bd : Z) (remote_sid : bytes) (fl nexthop_id label : Z) : Ctl bool :=
  d ← dp;
  _ ← (if bool_decide (mac = BUM_SENTINEL) && has fl FDB_F_REMOTE
       then check_bum_exclusive true (bd_has_repl_slot d bd) bd else mret tt);
  let displaced_local := match view m_FDB d !! mkFdbKey mac bd with
                         | Some e => negb (has (fe_flags e) FDB_F_REMOTE)
                         | None => false
                         end in
  _ ← hash_put m_FDB (mkFdbKey mac bd) (mkFdbEntry nexthop_id fl remote_sid 0 label);
  mret displaced_local.

Definition fdb_es_add (mac : bytes) (bd es_id : Z) (leaf : bool) : Ctl bool :=
  fdb_overlay_add mac bd zero16 (FDB_F_REMOTE .| FDB_F_ESNHG .| etree_flag leaf) es_id 0.
Definition fdb_remote_add (mac : bytes) (bd : Z) (remote_sid : bytes) (nexthop_id : Z) (leaf : bool) : Ctl bool :=
  fdb_overlay_add mac bd remote_sid (FDB_F_REMOTE .| etree_flag leaf) nexthop_id 0.
Definition fdb_remote_add_vxlan (mac : bytes) (bd : Z) (vtep : IpAddr) (nexthop_id : Z) (leaf : bool) : Ctl bool :=
  fdb_overlay_add mac bd (ip_to_v6_bytes vtep) (FDB_F_REMOTE .| FDB_F_VXLAN .| etree_flag leaf) nexthop_id 0.
Definition fdb_remote_add_mpls (mac : bytes) (bd : Z) (pe : IpAddr) (label nexthop_id : Z) (leaf : bool) : Ctl bool :=
  fdb_overlay_add mac bd (ip_to_v6_bytes pe) (FDB_F_REMOTE .| FDB_F_MPLS .| etree_flag leaf) nexthop_id label.

Definition fdb_remote_del (mac : bytes) (bd : Z) : Ctl unit :=
  let key := mkFdbKey mac bd in
  d ← dp;
  match view m_FDB d !! key with
  | Some e => if negb (has (fe_flags e) (FDB_F_REMOTE .| FDB_F_STATIC)) then mret tt else hash_del m_FDB key
  | None => hash_del m_FDB key
  end.

Definition fdb_local_add (mac : bytes) (bd ifindex : Z) : Ctl unit :=
  hash_put m_FDB (mkFdbKey mac bd) (mkFdbEntry ifindex FDB_F_STATIC zero16 0 0).

(** The keys a flush or an aging sweep removes; [count] of them. *)
Definition fdb_remove_all (stale : list FdbKey) (each : Ctl unit) : Ctl nat :=
  _ ← for_each (λ _ k, _ ← hash_drop m_FDB k; each) 0 stale;
  mret (length stale).

(** A filter that was not given matches everything. *)
Definition matches_opt (f : option Z) (x : Z) : bool := from_option (λ y, x =? y) true f.

Definition fdb_flush (port vlan : option Z) : Ctl nat :=
  d ← dp;
  let stale := filter (λ kv : FdbKey * FdbEntry,
      (fe_flags kv.2 =? 0) && matches_opt port (fe_oif kv.2) && matches_opt vlan (fk_vlan kv.1) = true)
      (map_to_list (view m_FDB d)) in
  fdb_remove_all stale.*1 (mret tt).

Definition stat_bump (idx : Z) : Ctl unit :=
  d ← dp; commit (set_stats (<[idx := wrap 64 (default 0 (dp_stats d !! idx) + 1)]> (dp_stats d)) d).

Definition fdb_age_sweep (now_ns max_idle_ns : Z) : Ctl nat :=
  d ← dp;
  let stale := filter (λ kv : FdbKey * FdbEntry,
      fe_flags kv.2 = 0 ∧ fe_last_seen kv.2 ≠ 0 ∧ max_idle_ns < Z.max 0 (now_ns - fe_last_seen kv.2))
      (map_to_list (view m_FDB d)) in
  fdb_remove_all stale.*1 (stat_bump STAT_FDB_AGED).

Definition repl_target_add (order : list (L2MemberKey * Z)) (flood_ifindex encap_ifindex : Z)
    (target : ReplTarget) : Ctl unit :=
  d ← dp;
  _ ← (match bd_of_member order flood_ifindex with
       | Some bd => check_bum_exclusive (bd_has_bum_sentinel d bd) true bd
       | None => mret tt
       end);
  _ ← hash_put m_REPL_SID flood_ifindex target;
  hash_put m_REPL_SID encap_ifindex target.

Definition repl_slot_add order flood_ifindex encap_ifindex (remote_sid : bytes) : Ctl unit :=
  repl_target_add order flood_ifindex encap_ifindex (mkReplTarget REPL_KIND_SRV6 0 remote_sid 0).
Definition repl_slot_add_vxlan order flood_ifindex encap_ifindex (vtep : IpAddr) (vni : Z) : Ctl unit :=
  repl_target_add order flood_ifindex encap_ifindex (mkReplTarget REPL_KIND_VXLAN vni (ip_to_v6_bytes vtep) 0).
Definition repl_slot_add_mpls order flood_ifindex encap_ifindex (pe : IpAddr) (label esi_label : Z) : Ctl unit :=
  repl_target_add order flood_ifindex encap_ifindex
    (mkReplTarget REPL_KIND_MPLS label (ip_to_v6_bytes pe) esi_label).
Definition repl_sid_del (ifindex : Z) : Ctl unit := hash_del m_REPL_SID ifindex.

Definition repl_seg_set (sid : bytes) (hop_limit_threshold : Z) (role_leaf : bool)
    (branches : list ReplBranch) : Ctl unit :=
  let n := Nat.min (length branches) (Z.to_nat MAX_REPL_BRANCHES) in
  hash_put m_REPL_SEG sid (mkReplSeg (Z.of_nat n) (if role_leaf then REPL_ROLE_LEAF else 0)
    hop_limit_threshold (padded (Z.to_nat MAX_REPL_BRANCHES) (mkReplBranch zero16 0 0 0) (take n branches))).
Definition repl_seg_del (sid : bytes) : Ctl unit := hash_del m_REPL_SEG sid.

Definition mirror_route_add (ctx : Z) (prefix : bytes) (prefix_len behavior vrf_id : Z) : Ctl unit :=
  trie_put m_MIRROR (32 + prefix_len) (vrf_key ctx prefix) (mkMirrorEntry behavior vrf_id).
Definition mirror_route_del (ctx : Z) (prefix : bytes) (prefix_len : Z) : Ctl unit :=
  trie_del m_MIRROR (32 + prefix_len) (vrf_key ctx prefix).
Definition xconnect_add (ifindex : Z) (target : ReplTarget) : Ctl unit := hash_put m_XCONNECT ifindex target.
Definition xconnect_del (ifindex : Z) : Ctl unit := hash_del m_XCONNECT ifindex.
Definition xconnect_vlan_add (ifindex vid : Z) (target : ReplTarget) : Ctl unit :=
  hash_put m_XCONNECT_VLAN (mkDx2vKey ifindex vid) target.
Definition xconnect_vlan_del (ifindex vid : Z) : Ctl unit := hash_del m_XCONNECT_VLAN (mkDx2vKey ifindex vid).
Definition dx2v_add (table vid oif : Z) : Ctl unit := hash_put m_DX2V (mkDx2vKey table vid) oif.
Definition dx2v_del (table vid : Z) : Ctl unit := hash_del m_DX2V (mkDx2vKey table vid).
Definition link_state_set (ifindex : Z) (down : bool) : Ctl unit :=
  if down then hash_put m_LINK_DOWN ifindex 1 else hash_drop m_LINK_DOWN ifindex.

(** ** Nexthops *)

Definition nexthop_set (id : Z) (gateway : option bytes) (oif : Z) (labels : list Z) (backup_id : Z)
    (pipe : bool) : Ctl unit :=
  '(labels, num_labels, fl) ← check (pack_labels labels pipe);
  hash_put m_NEXTHOPS id (mkNextHop (from_option of_be 0 gateway) zero16 oif fl labels num_labels backup_id).

Definition nexthop_set_v6 (id : Z) (gateway : option bytes) (oif : Z) (labels : list Z) (backup_id : Z)
    (pipe : bool) : Ctl unit :=
  '(labels, num_labels, fl) ← check (pack_labels labels pipe);
  hash_put m_NEXTHOPS id (mkNextHop 0 (default zero16 gateway) oif (NH_F_V6 .| fl) labels num_labels backup_id).

Definition no_labels : list Z := replicate (Z.to_nat MAX_LABELS) 0.

Definition nexthop_set_srv6 (id : Z) (gateway : option bytes) (oif : Z) (segs : list bytes) (mode : Z) : Ctl unit :=
  if bool_decide (segs = []) || (MAX_SEGS <? Z.of_nat (length segs)) then bail BadSegmentList else
  _ ← hash_put m_NEXTHOPS id
        (mkNextHop 0 (default zero16 gateway) oif (NH_F_V6 .| NH_F_SRV6) no_labels 0 0);
  hash_put m_SRV6_ENCAP id
    (mkSrv6Encap (Z.of_nat (length segs)) mode (padded (Z.to_nat MAX_SEGS) zero16 segs)).

Definition nexthop_set_gtp (id : Z) (gateway : option bytes) (oif : Z) (src dst : bytes) (teid : Z) : Ctl unit :=
  _ ← hash_put m_NEXTHOPS id (mkNextHop (from_option of_be 0 gateway) zero16 oif NH_F_GTP no_labels 0 0);
  hash_put m_GTP_ENCAP id (mkGtpEncap src dst (to_be 4 teid) 0).
Definition nexthop_set_gtp6 (id : Z) (gateway : option bytes) (oif : Z) (src dst : bytes) (teid : Z) : Ctl unit :=
  _ ← hash_put m_NEXTHOPS id (mkNextHop 0 (default zero16 gateway) oif (NH_F_V6 .| NH_F_GTP6) no_labels 0 0);
  hash_put m_GTP6_ENCAP id (mkGtp6Encap src dst (to_be 4 teid) 0).
Definition nexthop_set_vxlan (id : Z) (gateway : option bytes) (oif : Z) (vtep : bytes) (l3vni : Z)
    (rmac : bytes) : Ctl unit :=
  _ ← hash_put m_NEXTHOPS id (mkNextHop (from_option of_be 0 gateway) zero16 oif NH_F_VXLAN no_labels 0 0);
  hash_put m_VXLAN_ENCAP id (mkVxlanEncap vtep l3vni rmac).
Definition nexthop_del (id : Z) : Ctl unit := hash_drop m_NEXTHOPS id.

Definition nexthop_group_set (group_id : Z) (members : list Z) : Ctl unit :=
  _ ← hash_put m_NHGROUP group_id (wrap 32 (Z.of_nat (length members)));
  for_each (λ slot nh_id, hash_put m_NHGROUP_MEMBER (mkNhGroupKey group_id (wrap 32 slot)) nh_id) 0 members.

Definition neigh4_set (ifindex : Z) (ip mac : bytes) : Ctl unit :=
  hash_put m_NEIGH4 (mkNeigh4Key ifindex (of_be ip)) (mkNeighEntry mac NEIGH_STATE_REACHABLE).
Definition neigh6_set (ifindex : Z) (ip mac : bytes) : Ctl unit :=
  hash_put m_NEIGH6 (mkNeigh6Key ifindex ip) (mkNeighEntry mac NEIGH_STATE_REACHABLE).

(** ** Routes *)

Definition set_fib4_mode_dir24 : Ctl unit :=
  _ ← private (set_dir24 (Some (new_engine DIR24_TBL8_GROUPS)));
  d ← dp; commit (set_dp_config (Some DPC_FIB4_DIR24) d).
Definition add_dp_config (bits : Z) : Ctl unit :=
  d ← dp; commit (set_dp_config (Some (default 0 (@DP_CONFIG (dp_l3 d)) .| bits)) d).

(** [dir24_apply]: one array write at a time. *)
Definition apply_plan (plan : list SlotWrite) : Ctl unit :=
  for_each (λ _ w, d ← dp; t ← of_option Sys (apply_write (@TBLS (dp_l3 d)) w); commit (set_tbls t d)) 0 plan.

(** Run the engine, keep what it became, program its plan. *)
Definition with_engine (eng : Dir24Engine) (op : M Dir24Engine Dir24Err (list SlotWrite)) : Ctl unit :=
  let '(eng', r) := op eng in
  _ ← private (set_dir24 (Some eng'));
  match r with Ok plan => apply_plan plan | Err e => bail (EngineErr e) end.

Definition route4_add (vrf : Z) (addr : bytes) (prefix_len nexthop_id fl : Z) : Ctl unit :=
  if negb (vrf =? 0) then trie_put m_FIB4_VRF (32 + prefix_len) (vrf_key vrf addr) (mkFibEntry nexthop_id fl) else
  d ← dp;
  match dp_dir24 d with
  | Some eng => with_engine eng (route_add (of_be addr) prefix_len (mkFibEntry nexthop_id fl))
  | None => trie_put m_FIB4 prefix_len addr (mkFibEntry nexthop_id fl)
  end.

Definition route4_del (vrf : Z) (addr : bytes) (prefix_len : Z) : Ctl unit :=
  if negb (vrf =? 0) then trie_del m_FIB4_VRF (32 + prefix_len) (vrf_key vrf addr) else
  d ← dp;
  match dp_dir24 d with
  | Some eng => with_engine eng (route_del (of_be addr) prefix_len)
  | None => trie_del m_FIB4 prefix_len addr
  end.

(** A route of a bulk load: [(vrf, addr, prefix_len, nexthop_id, flags)]. *)
Record Route4 := mkRoute4 { r4_vrf : Z; r4_addr : bytes; r4_len : Z; r4_nexthop : Z; r4_flags : Z }.

Definition route4_add_bulk (rs : list Route4) : Ctl unit :=
  _ ← for_each (λ _ r, route4_add (r4_vrf r) (r4_addr r) (r4_len r) (r4_nexthop r) (r4_flags r)) 0
        (filter (λ r, r4_vrf r ≠ 0) rs);
  let global := filter (λ r, r4_vrf r = 0) rs in
  d ← dp;
  match dp_dir24 d with
  | Some eng =>
      let batch := (λ r, (of_be (r4_addr r), r4_len r, mkFibEntry (r4_nexthop r) (r4_flags r))) <$> global in
      if bool_decide (batch = []) then mret tt else with_engine eng (route_add_bulk batch)
  | None =>
      for_each (λ _ r, trie_put m_FIB4 (r4_len r) (r4_addr r) (mkFibEntry (r4_nexthop r) (r4_flags r))) 0 global
  end.

Definition route6_add (vrf : Z) (addr : bytes) (prefix_len nexthop_id fl : Z) : Ctl unit :=
  if negb (vrf =? 0) then trie_put m_FIB6_VRF (32 + prefix_len) (vrf_key vrf addr) (mkFibEntry nexthop_id fl)
  else trie_put m_FIB6 prefix_len addr (mkFibEntry nexthop_id fl).
Definition route6_del (vrf : Z) (addr : bytes) (prefix_len : Z) : Ctl unit :=
  if negb (vrf =? 0) then trie_del m_FIB6_VRF (32 + prefix_len) (vrf_key vrf addr)
  else trie_del m_FIB6 prefix_len addr.

Definition ilm_add (in_label nexthop_id op vrf_id fl : Z) : Ctl unit :=
  if 2 ^ 20 <=? in_label then bail (LabelTooLarge in_label)
  else hash_put m_MPLS_FIB in_label (mkMplsEntry nexthop_id vrf_id op fl).
Definition ilm_del (in_label : Z) : Ctl unit := hash_del m_MPLS_FIB in_label.

(** ** Tunnels *)

Definition gtp_pdr_add (dst : IpAddr) (teid vrf match_vrf : Z) : Ctl unit :=
  match dst with
  | V4 dst => hash_put m_GTP_PDR (mkGtpPdrKey match_vrf dst (to_be 4 teid)) (mkGtpPdr vrf)
  | V6 dst => hash_put m_GTP_PDR6 (mkGtp6PdrKey match_vrf dst (to_be 4 teid)) (mkGtpPdr vrf)
  end.
Definition gtp_pdr_del (dst : IpAddr) (teid match_vrf : Z) : Ctl unit :=
  match dst with
  | V4 dst => hash_drop m_GTP_PDR (mkGtpPdrKey match_vrf dst (to_be 4 teid))
  | V6 dst => hash_drop m_GTP_PDR6 (mkGtp6PdrKey match_vrf dst (to_be 4 teid))
  end.

(** [buf]: four random bytes. *)
Definition meta_cookie_seed (buf : Z) : Ctl unit := d ← dp; commit (set_meta_cookie (Some (buf .| 1)) d).
Definition srv6_encap_source_set (addr : bytes) : Ctl unit := d ← dp; commit (set_srv6_encap_src (Some addr) d).
Definition vxlan_source_set (addr : IpAddr) : Ctl unit :=
  d ← dp;
  commit (match addr with V4 a => set_vxlan_src (Some a) d | V6 a => set_vxlan_src6 (Some a) d end).

Definition vni_set (vni vlan : Z) : Ctl unit :=
  _ ← hash_put m_VLAN_VNI vlan vni;
  hash_put m_VNI_INFO vni (mkVniInfo vlan VNI_F_L2 0 zero6).
Definition vni_set_l3 (vni vrf_id : Z) (rmac : bytes) : Ctl unit :=
  hash_put m_VNI_INFO vni (mkVniInfo 0 VNI_F_L3 vrf_id rmac).
Definition vni_set_eline (vni ifindex : Z) : Ctl unit :=
  hash_put m_VNI_INFO vni (mkVniInfo 0 VNI_F_ELINE ifindex zero6).
Definition vni_set_eline_vlan (vni table : Z) : Ctl unit :=
  hash_put m_VNI_INFO vni (mkVniInfo 0 (VNI_F_ELINE .| VNI_F_ELINE_VLAN) table zero6).
Definition vni_del (vni : Z) : Ctl unit :=
  d ← dp;
  _ ← (match view m_VNI_INFO d !! vni with
       | Some info => hash_drop m_VLAN_VNI (vi_vlan info)
       | None => mret tt
       end);
  hash_drop m_VNI_INFO vni.
Definition vni_of (d : Dp) (vlan : Z) : option Z := view m_VLAN_VNI d !! vlan.

Definition localsid_add (sid : bytes) (prefix_len : Z) (ls : LocalSid) : Ctl unit :=
  trie_put m_SRV6_LOCALSID prefix_len sid ls.
Definition localsid_del (sid : bytes) (prefix_len : Z) : Ctl unit := trie_del m_SRV6_LOCALSID prefix_len sid.

(** ** BFD sessions *)

Definition seed (detect_ns : Z) : DetectState := mkDetectState None detect_ns 0 0.

Definition put_local_ip (local : IpAddr) : Ctl unit :=
  match local with
  | V4 a => hash_put m_OUR_LOCAL_IPS (of_be a) 1
  | V6 a => hash_put m_OUR_LOCAL_IPS_V6 a 1
  end.
Definition drop_local_ip (local : IpAddr) : Ctl unit :=
  match local with
  | V4 a => hash_drop m_OUR_LOCAL_IPS (of_be a)
  | V6 a => hash_drop m_OUR_LOCAL_IPS_V6 a
  end.

Definition set_refs (f : gmap IpAddr Z → gmap IpAddr Z) : Ctl unit :=
  private (λ d, set_ip_refs (f (dp_ip_refs d)) d).

Definition bfd_echo_arm (discr : Z) (local : IpAddr) (detect_ns : Z) : Ctl unit :=
  d ← dp;
  let refs := default 0 (dp_ip_refs d !! local) in
  _ ← set_refs <[local := refs]>;
  _ ← (if refs =? 0 then put_local_ip local else mret tt);
  _ ← set_refs <[local := wrap 32 (refs + 1)]>;
  _ ← private (λ d, set_echo_local (<[discr := local]> (dp_echo_local d)) d);
  hash_put m_ECHO_TIMERS discr (seed detect_ns).

Definition bfd_echo_disarm (discr : Z) : Ctl unit :=
  _ ← hash_drop m_ECHO_TIMERS discr;
  d ← dp;
  _ ← private (λ d, set_echo_local (delete discr (dp_echo_local d)) d);
  match dp_echo_local d !! discr with
  | None => mret tt
  | Some local =>
      match dp_ip_refs d !! local with
      | None => mret tt
      | Some refs =>
          let refs := Z.max 0 (refs - 1) in
          if refs =? 0 then _ ← set_refs (delete local); drop_local_ip local
          else set_refs <[local := refs]>
      end
  end.

Definition bfd_detect_arm (discr detect_ns : Z) : Ctl unit := hash_put m_CONTROL_TIMERS discr (seed detect_ns).
Definition bfd_detect_disarm (discr : Z) : Ctl unit := hash_drop m_CONTROL_TIMERS discr.

(** Kind 0: echo, 1: control. *)
Definition bfd_poll_down (d : Dp) : list (Z * Z) :=
  omap (λ '(discr, st), if negb (ds_down st =? 0) then Some (discr, 0) else None) (map_to_list (dp_echo_timers d))
  ++ omap (λ '(discr, st), if negb (ds_down st =? 0) then Some (discr, 1) else None)
       (map_to_list (dp_ctrl_timers d)).

Definition bfd_echo_mark_down (discr : Z) : Ctl unit :=
  d ← dp;
  match dp_echo_timers d !! discr with
  | Some st =>
      if (ds_armed st =? 0) && (ds_down st =? 0)
      then ignore (hash_put m_ECHO_TIMERS discr (mkDetectState (ds_timer st) (ds_detect_ns st) 0 1))
      else mret tt
  | None => mret tt
  end.
End dataplane.

(** * Reading the data plane back

    The readers of [Dataplane] ([crates/cradle/src/dataplane.rs]): single
    lookups for the policy trace, the counters of the engine, the
    locally-learned MACs and the rows of [cradle dump].  Map iteration is in
    the kernel's order; rows come in the order of [map_to_list]. *)

(** ** Lookups *)

Definition identity_get (d : Dp) (vrf : Z) (ip : bytes) : option Z :=
  view m_IDENTITY d !! mkVrfIdKey vrf (ipv4_to_map ip).
Definition identity6_get (d : Dp) (vrf : Z) (ip : bytes) : option Z :=
  view m_IDENTITY6 d !! mkVrfId6Key vrf ip.
Definition cidr_identity_get `{Kernel} (d : Dp) (vrf : Z) (ip : bytes) : option Z :=
  lpm_get (view m_CIDR_ID d) (vrf_key vrf ip).
Definition cidr6_identity_get `{Kernel} (d : Dp) (vrf : Z) (ip : bytes) : option Z :=
  lpm_get (view m_CIDR_ID6 d) (vrf_key vrf ip).
Definition ep_policy_get (d : Dp) (ep : Z) : option Z := view m_EP_POLICY d !! ep.
Definition policy_get (d : Dp) (key : PolicyKey) : option Z := view m_POLICY d !! key.

(** Unicast MACs learned on a local port: [(mac, domain, port)]. *)
Definition fdb_local_entries (d : Dp) : list (bytes * Z * Z) :=
  omap (λ '(k, v), if negb (fe_flags v =? 0) || is_group_mac (fk_mac k) then None
                   else Some (fk_mac k, fk_vlan k, fe_oif v)) (map_to_list (view m_FDB d)).

(** [(mode, routes, groups in use, groups free)] *)
Definition fib_summary (d : Dp) : string * Z * Z * Z :=
  match dp_dir24 d with
  | Some eng => ("dir24"%string, Z.of_nat (route_count eng), Z.of_nat (groups_in_use eng), Z.of_nat (tbl8_free eng))
  | None => ("lpm"%string, 0, 0, 0)
  end.

(** ** Dumps *)

Inductive DumpTable : Type := DumpL2 | DumpIpv4 | DumpIpv6 | DumpMpls | DumpSrv6 | DumpNexthop.

Inductive DumpRow : Type :=
| RowFdb (mac : bytes) (vlan oif fl : Z) (remote_sid : bytes) (age_ms : Z)
| RowFib (addr : IpAddr) (prefix_len vrf nexthop_id fl : Z) (nh : option NextHop)
| RowMpls (label op nexthop_id vrf : Z) (nh : option NextHop)
| RowLocalSid (sid : bytes) (prefix_len behavior flavors vrf nexthop_id : Z) (nh : option NextHop)
| RowEncap (nexthop_id : Z) (encap : Srv6Encap)
| RowNexthop (id : Z) (nh : NextHop)
| RowGroup (id : Z) (members : list Z).

Definition nexthop_dump (d : Dp) : list DumpRow :=
  ((λ '(id, nh), RowNexthop id nh) <$> map_to_list (view m_NEXTHOPS d)) ++
  ((λ '(id, count), RowGroup id (omap (λ slot, view m_NHGROUP_MEMBER d !! mkNhGroupKey id slot) (seqZ 0 count)))
     <$> map_to_list (view m_NHGROUP d)).

Definition nh_resolve (d : Dp) (resolve : bool) (nexthop_id fl : Z) : option NextHop :=
  if negb resolve || has fl FIB_F_ECMP then None else view m_NEXTHOPS d !! nexthop_id.

Definition fdb_dump (now_ns : Z) (d : Dp) : list DumpRow :=
  (λ '(k, v), RowFdb (fk_mac k) (fk_vlan k) (fe_oif v) (fe_flags v) (fe_remote_sid v)
     (if fe_last_seen v =? 0 then 0 else Z.max 0 (now_ns - fe_last_seen v) / 1000000))
    <$> map_to_list (view m_FDB d).

Definition fib_row (d : Dp) (addr : IpAddr) (prefix_len vrf : Z) (e : FibEntry) (resolve : bool) : DumpRow :=
  RowFib addr prefix_len vrf (nexthop_id e) (flags e) (nh_resolve d resolve (nexthop_id e) (flags e)).

(** The [vrf_id] and the address of a VRF-scoped key. *)
Definition key_vrf (k : bytes) : Z := of_le (take 4 k).
Definition key_addr (k : bytes) : bytes := drop 4 k.

Definition vrf_rows (d : Dp) (wrap_addr : bytes → IpAddr) (t : gmap (Z * bytes) FibEntry) (vrf : Z) (resolve : bool)
    : list DumpRow :=
  omap (λ '((n, k), e), if negb (key_vrf k =? vrf) then None
                        else Some (fib_row d (wrap_addr (key_addr k)) (Z.max 0 (n - 32)) vrf e resolve)) (map_to_list t).

Definition fib4_dump (d : Dp) (vrf : Z) (resolve : bool) : list DumpRow :=
  if vrf =? 0 then
    match dp_dir24 d with
    | Some eng => (λ '(net, len, e), fib_row d (V4 (to_be 4 net)) len 0 e resolve) <$> Dir24.routes eng
    | None => (λ '((n, k), e), fib_row d (V4 k) n 0 e resolve) <$> map_to_list (view m_FIB4 d)
    end
  else vrf_rows d V4 (view m_FIB4_VRF d) vrf resolve.

Definition fib6_dump (d : Dp) (vrf : Z) (resolve : bool) : list DumpRow :=
  if vrf =? 0 then (λ '((n, k), e), fib_row d (V6 k) n 0 e resolve) <$> map_to_list (view m_FIB6 d)
  else vrf_rows d V6 (view m_FIB6_VRF d) vrf resolve.

(** A swap to a nexthop without labels is a pop. *)
Definition mpls_dump (d : Dp) (resolve : bool) : list DumpRow :=
  (λ '(label, e),
     let nh := view m_NEXTHOPS d !! me_nexthop_id e in
     let op := match nh with
               | Some n => if (me_op e =? MPLS_OP_SWAP) && (nh_num_labels n =? 0) then MPLS_OP_POP else me_op e
               | None => me_op e
               end in
     RowMpls label op (me_nexthop_id e) (me_vrf_id e) (if resolve then nh else None))
    <$> map_to_list (view m_MPLS_FIB d).

Definition srv6_dump (d : Dp) (resolve : bool) : list DumpRow :=
  ((λ '((n, k), v), RowLocalSid k n (ls_behavior v) (ls_flavors v) (ls_vrf_id v) (ls_nexthop_id v)
      (nh_resolve d resolve (ls_nexthop_id v) 0)) <$> map_to_list (view m_SRV6_LOCALSID d)) ++
  ((λ '(id, enc), RowEncap id enc) <$> map_to_list (view m_SRV6_ENCAP d)).

Definition dump (now_ns : Z) (d : Dp) (table : DumpTable) (vrf : Z) (resolve : bool) : list DumpRow :=
  match table with
  | DumpL2 => fdb_dump now_ns d
  | DumpIpv4 => fib4_dump d vrf resolve
  | DumpIpv6 => fib6_dump d vrf resolve
  | DumpMpls => mpls_dump d resolve
  | DumpSrv6 => srv6_dump d resolve
  | DumpNexthop => nexthop_dump d
  end.
