(* ===== verification/DpRun.v ===== *)
(** * Reasoning about map writes

    What one system call, a loop of them, and a sequence of operations do to
    the maps; and relations every snapshot of a run keeps to the state the
    run began in. *)

From S2P Require Import Prelude.
From S2P Require Import Contract.
From S2P Require Import Common.
From S2P Require Import Dir24.
From S2P Require Import Bpf.
From S2P Require Import Frames.
From S2P Require Import Maps.
From S2P Require Import Bfd.
From S2P Require Import MapRefs.
From S2P Require Import Dataplane.

(** ** Addresses and ports as keys *)

Lemma port_to_map_inj n m : u16 n → u16 m → port_to_map n = port_to_map m → n = m.
Proof.
  intros Hn Hm E. rewrite <- (of_to_be 2 n), <- (of_to_be 2 m) by (unfold in_range in *; cbn; lia).
  f_equal. unfold port_to_map in E. rewrite <- (to_of_le (to_be 2 n)), <- (to_of_le (to_be 2 m)) by apply to_be_bytes.
  by rewrite !to_be_length, E.
Qed.

Lemma ipv4_to_map_inj a b : length a = 4%nat → Forall is_byte a → length b = 4%nat → Forall is_byte b →
  ipv4_to_map a = ipv4_to_map b → a = b.
Proof. intros Ha Hba Hb Hbb E. rewrite <- (to_of_le a), <- (to_of_le b) by done. unfold ipv4_to_map in E. by rewrite Ha, Hb, E. Qed.

(** ** Handles name independent parts of the state *)

Class LawfulRef {X} (r : MapRef X) : Prop := {
  view_over m d : view r (over r m d) = m;
  over_over m m' d : over r m (over r m' d) = over r m d;
  over_view d : over r (view r d) d = d;
}.

Ltac lawful_ref := split; [done|done|intros [[] [] [] [] [] [] [] ? ? ? ? ? ? ?]; done].
#[export] Hint Extern 0 (LawfulRef _) => lawful_ref : typeclass_instances.

Lemma bind_run_ctl {A B} (m : Ctl A) (f : A → Ctl B) s :
  (m ≫= f) s = match m s with (s', Ok a) => f a s' | (s', Err e) => (s', Err e) end.
Proof. done. Qed.

Lemma bind_ok_ctl {A B} (m : Ctl A) (f : A → Ctl B) s s' a : m s = (s', Ok a) → (m ≫= f) s = f a s'.
Proof. intros E. by rewrite bind_run_ctl, E. Qed.
Lemma bind_inv_ctl {A B} (m : Ctl A) (f : A → Ctl B) s s' b : (m ≫= f) s = (s', Ok b) →
  ∃ s1 a, m s = (s1, Ok a) ∧ f a s1 = (s', Ok b).
Proof. rewrite bind_run_ctl. destruct (m s) as [s1 [a|]]; [eauto|done]. Qed.

Lemma dp_run s : dp s = (s, Ok (now s)).
Proof. done. Qed.
Lemma bind_dp {B} (f : Dp → Ctl B) s : (dp ≫= f) s = f (now s) s.
Proof. done. Qed.

(** ** Tables *)

(** The insertions of a loop, in order. *)
Fixpoint put_all {K} `{Countable K} {A V} (kf : Z → A → K) (vf : Z → A → V) (i : Z) (xs : list A)
    (m : gmap K V) : gmap K V :=
  match xs with
  | [] => m
  | x :: xs => put_all kf vf (i + 1) xs (<[kf i x := vf i x]> m)
  end.

Lemma put_all_union {K} `{Countable K} {A V} (kf : Z → A → K) (vf : Z → A → V) i xs (m : gmap K V) :
  put_all kf vf i xs m = put_all kf vf i xs ∅ ∪ m.
Proof.
  revert i m. induction xs as [|x xs IH]; intros i m; cbn [put_all]; [by rewrite (left_id_L ∅ (∪))|].
  rewrite (IH _ (<[kf i x := vf i x]> m)), (IH _ (<[kf i x := vf i x]> ∅)).
  rewrite <- (assoc_L (∪)), insert_empty. by rewrite insert_union_singleton_l.
Qed.

Lemma put_all_None {K} `{Countable K} {A V} (kf : Z → A → K) (vf : Z → A → V) i xs (m : gmap K V) k :
  (∀ j x, x ∈ xs → kf j x ≠ k) → put_all kf vf i xs m !! k = m !! k.
Proof.
  revert i m. induction xs as [|x xs IH]; intros i m Hk; cbn [put_all]; [done|].
  rewrite IH by set_solver. apply lookup_insert_ne, Hk. set_solver.
Qed.

Lemma foldl_delete {K} `{Countable K} {V} (ks : list K) (m : gmap K V) k :
  foldl (λ m k, delete k m) m ks !! k = if bool_decide (k ∈ ks) then None else m !! k.
Proof.
  revert m. induction ks as [|k0 ks IH]; intros m; cbn [foldl].
  - by rewrite bool_decide_false by set_solver.
  - rewrite IH. destruct (decide (k = k0)) as [->|Hn].
    + rewrite (bool_decide_true (k0 ∈ k0 :: ks)) by set_solver. rewrite lookup_delete_eq. by case_bool_decide.
    + rewrite lookup_delete_ne by done. repeat case_bool_decide; set_solver.
Qed.

(** Every insertion of the loop is there, and nothing else changed, when
    equal keys get equal values. *)
Lemma put_all_lookup {K} `{Countable K} {A V} (kf : A → K) (vf : A → V) i xs (m : gmap K V) k v :
  (∀ x y, x ∈ xs → y ∈ xs → kf x = kf y → vf x = vf y) →
  put_all (λ _ x, kf x) (λ _ x, vf x) i xs m !! k = Some v ↔
    (∃ x, x ∈ xs ∧ kf x = k ∧ vf x = v) ∨ (∀ x, x ∈ xs → kf x ≠ k) ∧ m !! k = Some v.
Proof.
  revert i m. induction xs as [|x xs IH]; intros i m Hf; cbn [put_all].
  { set_solver. }
  rewrite IH by set_solver. destruct (decide (kf x = k)) as [<-|Hne].
  - rewrite lookup_insert_eq. split.
    + intros [(y & ? & ? & ?)|[Hn [= <-]]]; [left; exists y; set_solver|left; exists x; set_solver].
    + intros [(y & Hy & Hk & <-)|[Hn _]]; [|by destruct (Hn x); set_solver].
      destruct (decide (Exists (λ z, kf z = kf x) xs)) as [(z & Hz & Hkz)%Exists_exists|Hno].
      * left. exists z. split_and!; [done..|]. apply Hf; [set_solver|set_solver|congruence].
      * right. rewrite Exists_exists in Hno. split; [naive_solver|]. f_equal. apply Hf; [set_solver|set_solver|congruence].
  - rewrite lookup_insert_ne by done. set_solver.
Qed.

(** ** Single calls *)

Definition committed (d : Dp) (s : Run) : Run := mkRun d (seen s ++ [d]).

Section runs.
Context `{MapSysLaws}.

Lemma hash_put_cases {K} `{Countable K} {V} (r : MapRef (gmap K V)) (k : K) (v : V) s :
  hash_put r k v s = (s, Err Sys) ∨
  hash_put r k v s = (committed (over r (<[k := v]> (view r (now s))) (now s)) s, Ok tt).
Proof.
  unfold hash_put, map_put. rewrite bind_dp. unfold of_option.
  destruct (hash_update _ _ _ _) as [m|] eqn:E; [|by left]. right.
  by apply hash_update_some in E as ->.
Qed.

Lemma hash_del_run {K} `{Countable K} {V} (r : MapRef (gmap K V)) (k : K) s :
  hash_del r k s =
    if bool_decide (is_Some (view r (now s) !! k))
    then (committed (over r (delete k (view r (now s))) (now s)) s, Ok tt) else (s, Err Sys).
Proof.
  unfold hash_del, map_put. rewrite bind_dp, hash_delete_spec. by case_bool_decide.
Qed.

Lemma hash_drop_run {K} `{Countable K} {V} (r : MapRef (gmap K V)) (k : K) s :
  hash_drop r k s =
    (if bool_decide (is_Some (view r (now s) !! k))
     then committed (over r (delete k (view r (now s))) (now s)) s else s, Ok tt).
Proof.
  unfold hash_drop, ignore. rewrite bind_run_ctl. unfold catch. rewrite hash_del_run.
  by case_bool_decide.
Qed.

(** The state a drop ends in, whether or not the key was there. *)
Lemma hash_drop_now {K} `{Countable K} {V} (r : MapRef (gmap K V)) `{!LawfulRef r} (k : K) s :
  now (hash_drop r k s).1 = over r (delete k (view r (now s))) (now s).
Proof.
  rewrite hash_drop_run. case_bool_decide as E; [done|]. cbn.
  rewrite delete_id by (by apply eq_None_not_Some). by rewrite over_view.
Qed.

(** ** Loops *)

Lemma for_each_app {A} (f : Z → A → Ctl unit) i xs ys s :
  for_each f i (xs ++ ys) s =
  match for_each f i xs s with
  | (s', Ok _) => for_each f (i + Z.of_nat (length xs)) ys s'
  | (s', Err e) => (s', Err e)
  end.
Proof.
  revert i s. induction xs as [|x xs IH]; intros i s; cbn [app for_each length].
  - by rewrite Z.add_0_r.
  - rewrite !bind_run_ctl. destruct (f i x s) as [s' [[]|]]; [|done]. rewrite IH.
    destruct (for_each f (i + 1) xs s') as [s2 [[]|]]; [|done]. f_equal. lia.
Qed.

Lemma for_each_put {K} `{Countable K} {A V} (r : MapRef (gmap K V)) `{!LawfulRef r}
    (f : Z → A → Ctl unit) (kf : Z → A → K) (vf : Z → A → V) i xs s s' :
  (∀ i x, f i x = hash_put r (kf i x) (vf i x)) →
  for_each f i xs s = (s', Ok tt) →
  now s' = over r (put_all kf vf i xs (view r (now s))) (now s).
Proof.
  intros Hf. revert i s. induction xs as [|x xs IH]; intros i s; cbn [for_each put_all].
  - intros [= <-]. by rewrite over_view.
  - rewrite Hf. intros (s1 & [] & E1 & E2)%bind_inv_ctl.
    destruct (hash_put_cases r (kf i x) (vf i x) s) as [E|E]; rewrite E in E1; [done|].
    injection E1 as <-. apply IH in E2 as ->. cbn. by rewrite over_over, view_over.
Qed.

Lemma for_each_drop {K} `{Countable K} {A V} (r : MapRef (gmap K V)) `{!LawfulRef r}
    (f : Z → A → Ctl unit) (kf : Z → A → K) i xs s :
  (∀ i x, f i x = hash_drop r (kf i x)) →
  ∃ s', for_each f i xs s = (s', Ok tt) ∧
    now s' = over r (foldl (λ m k, delete k m) (view r (now s)) (imap (λ j x, kf (i + Z.of_nat j) x) xs)) (now s).
Proof.
  intros Hf. revert i s. induction xs as [|x xs IH]; intros i s; cbn [for_each imap foldl].
  - exists s. split; [done|]. by rewrite over_view.
  - rewrite Hf. pose proof (hash_drop_now r (kf i x) s) as Hn.
    destruct (hash_drop r (kf i x) s) as [s1 o] eqn:E.
    assert (o = Ok tt) as -> by (rewrite hash_drop_run in E; congruence).
    rewrite (bind_ok_ctl _ _ _ _ _ E). destruct (IH (i + 1) s1) as (s' & E' & Hs').
    exists s'. split; [done|]. cbn in Hn. rewrite Hs', Hn, view_over, over_over.
    rewrite Z.add_0_r. f_equal. f_equal. apply imap_ext. intros j y _. cbn. f_equal. lia.
Qed.

(** ** What every snapshot keeps *)

(** Every state of the run, the last one included, is [R]-related to the
    first. *)
Definition evolves (R : Dp → Dp → Prop) {A} (m : Ctl A) : Prop := ∀ s,
  R (now s) (now (m s).1) ∧ ∃ ds, seen (m s).1 = seen s ++ ds ∧ Forall (R (now s)) ds.

Section evolution.
Context (R : Dp → Dp → Prop) `{!PreOrder R}.

Lemma evolves_ret {A} (a : A) : evolves R (mret a).
Proof. intros s. split; [cbn; reflexivity|]. exists []. by rewrite app_nil_r. Qed.

Lemma evolves_bail {A} e : evolves R (bail e : Ctl A).
Proof. intros s. split; [cbn; reflexivity|]. exists []. by rewrite app_nil_r. Qed.

Lemma evolves_bind {A B} (m : Ctl A) (f : A → Ctl B) :
  evolves R m → (∀ a, evolves R (f a)) → evolves R (m ≫= f).
Proof.
  intros Hm Hf s. rewrite bind_run_ctl. specialize (Hm s). destruct (m s) as [s1 [a|e]]; [|done].
  destruct Hm as (H1 & ds1 & E1 & F1). destruct (Hf a s1) as (H2 & ds2 & E2 & F2). cbn in *.
  split; [by transitivity (now s1)|]. exists (ds1 ++ ds2). rewrite E2, E1, app_assoc. split; [done|].
  apply Forall_app. split; [done|]. eapply Forall_impl; [done|]. intros d Hd. by transitivity (now s1).
Qed.

Lemma evolves_dp {B} (f : Dp → Ctl B) : (∀ d, evolves R (f d)) → evolves R (dp ≫= f).
Proof.
  intros Hf s. rewrite bind_dp. apply Hf.
Qed.

Lemma evolves_commit (f : Dp → Dp) s : R (now s) (f (now s)) →
  let s' := committed (f (now s)) s in
  R (now s) (now s') ∧ ∃ ds, seen s' = seen s ++ ds ∧ Forall (R (now s)) ds.
Proof. intros HR. split; [done|]. exists [f (now s)]. split; [done|]. by repeat constructor. Qed.

Lemma evolves_put {K} `{Countable K} {V} (r : MapRef (gmap K V)) (k : K) (v : V) :
  (∀ d, R d (over r (<[k := v]> (view r d)) d)) → evolves R (hash_put r k v).
Proof.
  intros HR s. destruct (hash_put_cases r k v s) as [E|E]; rewrite E.
  - split; [cbn; reflexivity|]. exists []. by rewrite app_nil_r.
  - apply (evolves_commit (λ d, over r (<[k := v]> (view r d)) d)), HR.
Qed.

Lemma evolves_drop {K} `{Countable K} {V} (r : MapRef (gmap K V)) (k : K) :
  (∀ d, R d (over r (delete k (view r d)) d)) → evolves R (hash_drop r k).
Proof.
  intros HR s. rewrite hash_drop_run. case_bool_decide; cbn [fst].
  - apply (evolves_commit (λ d, over r (delete k (view r d)) d)), HR.
  - split; [reflexivity|]. exists []. by rewrite app_nil_r.
Qed.

Lemma evolves_for {A} (f : Z → A → Ctl unit) i xs :
  (∀ j x, x ∈ xs → evolves R (f j x)) → evolves R (for_each f i xs).
Proof.
  revert i. induction xs as [|x xs IH]; intros i Hf; [apply evolves_ret|]. cbn [for_each].
  apply evolves_bind; [apply Hf; set_solver|]. intros _. apply IH. set_solver.
Qed.
End evolution.
End runs.
