(* ===== verification/XdpTunnel.v ===== *)
(** * UDP tunnel decapsulation (XDP stage)

    GTP-U and VXLAN over IPv4 and IPv6: [try_gtp_xdp], [try_gtp6_xdp],
    [try_vxlan_xdp] and [try_vxlan6_xdp] of
    [crates/cradle-ebpf/src/main.rs]. *)

From S2P Require Import Prelude.
From S2P Require Import Contract.
From S2P Require Import Bpf.
From S2P Require Import Maps.
From S2P Require Import L2.
From S2P Require Import Encap.
From S2P Require Import Xdp.

Section tunnels.
Context `{Kernel} `{FibMaps} `{TunnelMaps} `{L3Maps} `{L2Maps}.

(** The VRF of the ingress port's binding (0: global). *)
Definition ingress_vrf (iif : Z) : Z :=
  match PORTS !! iif with Some p => pc_vrf_id p | None => 0 end.

(** ** GTP-U *)

(** The length of the GTP-U header at [L4 + 8], for the shapes that are
    decapsulated: none, the optional fields, or one PDU Session Container. *)
Definition gtp_header_len (L4 : Z) : Prog (option Z) :=
  mtype ← xdp_ne 1 (L4 + 9);
  if negb (mtype =? 0xFF) then mret None else
  gflags ← xdp_ne 1 (L4 + 8);
  if gflags .& 0x07 =? 0 then mret (Some 8) else
  next ← xdp_ne 1 (L4 + 19);
  if next =? 0 then mret (Some 12)
  else if next =? 0x85 then
    len ← xdp_ne 1 (L4 + 20);
    if negb (len =? 1) then mret None else
    more ← xdp_ne 1 (L4 + 23);
    if negb (more =? 0) then mret None else mret (Some 16)
  else mret None.

(** Strip, tag with the GTP provenance and the PDR's VRF. *)
Definition gtp_decap (strip : Z) (pdr : GtpPdr) : Prog Z :=
  inner_et ← ip_ethertype (ETH_HLEN + strip);
  match inner_et with
  | None => drop_frame
  | Some inner_et =>
      _ ← slide_eth strip inner_et;
      _ ← stat_inc STAT_GTP_DECAP;
      attach_meta XDP_META_MAGIC_GTP (pdr_vrf_id pdr) 0
  end.

Definition try_gtp_xdp (iif : Z) : Prog Z :=
  ver_ihl ← xdp_ne 1 IP_VER_IHL_OFF;
  if negb (ver_ihl .& 0x0f =? 5) then mret XDP_PASS else
  proto ← xdp_ne 1 IP_PROTO_OFF;
  if negb (proto =? IPPROTO_UDP) then mret XDP_PASS else
  dport ← xdp_be 2 (L4_OFF + 2);
  if negb (dport =? GTP_PORT) then mret XDP_PASS else
  gtp_hdr_len ← gtp_header_len L4_OFF;
  match gtp_hdr_len with
  | None => mret XDP_PASS
  | Some gtp_hdr_len =>
      let strip := GTP_ENCAP_HDR_LEN - 8 + gtp_hdr_len in
      dst ← xdp_rd IP_DST_OFF 4;
      teid ← xdp_rd (L4_OFF + 12) 4;
      match GTP_PDR !! mkGtpPdrKey (ingress_vrf iif) dst teid with
      | None => mret XDP_PASS
      | Some pdr => gtp_decap strip pdr
      end
  end.

Definition try_gtp6_xdp (iif : Z) : Prog Z :=
  let L4 := ETH_HLEN + IP6_HDR_LEN in
  gtp_hdr_len ← gtp_header_len L4;
  match gtp_hdr_len with
  | None => mret XDP_PASS
  | Some gtp_hdr_len =>
      let strip := IP6_HDR_LEN + 8 + gtp_hdr_len in
      dst ← xdp_rd IP6_DST_OFF 16;
      teid ← xdp_rd (L4 + 12) 4;
      match GTP_PDR6 !! mkGtp6PdrKey (ingress_vrf iif) dst teid with
      | None => mret XDP_PASS
      | Some pdr => gtp_decap strip pdr
      end
  end.

(** ** VXLAN *)

(** What a VNI binds the inner frame to: the metadata magic, its target and
    the counter. [None]: pass to the stack. [hdr]: the outer header's length. *)
Definition vni_target (info : VniInfo) (hdr : Z) : Prog (option (Z * Z * Z)) :=
  if has (vi_flags info) VNI_F_ELINE then
    oif ← eline_ac (has (vi_flags info) VNI_F_ELINE_VLAN) (vi_vrf_id info) hdr;
    mret ((λ oif, (XDP_META_MAGIC_DX2, oif, STAT_VXLAN_DX2)) <$> oif)
  else if has (vi_flags info) VNI_F_L3 then
    mret (Some (XDP_META_MAGIC, vi_vrf_id info, STAT_VXLAN_DECAP))
  else mret (Some (XDP_META_MAGIC_L2, vi_vlan info, STAT_VXLAN_DECAP)).

(** The part common to both underlays: VXLAN header at [vx], source address
    read by [es_of]. *)
Definition vxlan_decap (vx hdr : Z) (es_of : Z → Prog Z) : Prog Z :=
  fl ← xdp_ne 1 vx;
  if negb (has fl 0x08) then mret XDP_PASS else
  word ← xdp_be 4 (vx + 4);
  let vni := word ≫ 8 in
  match VNI_INFO !! vni with
  | None => mret XDP_PASS
  | Some info =>
      target ← vni_target info hdr;
      match target with
      | None => mret XDP_PASS
      | Some (magic, vrf, stat) =>
          es_bits ← (if magic =? XDP_META_MAGIC_L2 then es_of vrf else mret 0);
          _ ← must_adjust_head hdr;
          _ ← stat_inc stat;
          attach_meta magic vrf es_bits
      end
  end.

Definition try_vxlan_xdp : Prog Z :=
  match VXLAN_SRC with
  | None => mret XDP_PASS
  | Some local =>
      if bool_decide (local = [0; 0; 0; 0]) then mret XDP_PASS else
      dst ← xdp_rd IP_DST_OFF 4;
      if negb (bool_decide (dst = local)) then mret XDP_PASS else
      vxlan_decap VXLAN_HDR_OFF VXLAN_ENCAP_HDR_LEN
        (λ bd, src ← xdp_rd IP_SRC_OFF 4; mret (vtep4_es_bits src bd))
  end.

Definition try_vxlan6_xdp : Prog Z :=
  match VXLAN_SRC6 with
  | None => mret XDP_PASS
  | Some local =>
      if bool_decide (local = replicate 16 0) then mret XDP_PASS else
      dst ← xdp_rd IP6_DST_OFF 16;
      if negb (bool_decide (dst = local)) then mret XDP_PASS else
      vxlan_decap VXLAN6_HDR_OFF VXLAN6_ENCAP_HDR_LEN
        (λ bd, src ← xdp_rd IP6_SRC_OFF 16; mret (vtep6_vxlan_bits src bd))
  end.
End tunnels.
