(* ===== verification/XdpEvpn.v ===== *)
(** * EVPN ingress: L2 frames into overlays (XDP stage)

    [l2_evpn_xdp], the Ethernet Segment nexthop groups and the three overlay
    encapsulations behind [l2_overlay_encap] of
    [crates/cradle-ebpf/src/main.rs]. *)

From S2P Require Import Prelude.
From S2P Require Import Contract.
From S2P Require Import Common.
From S2P Require Import Bpf.
From S2P Require Import Frames.
From S2P Require Import Maps.
From S2P Require Import L2.
From S2P Require Import Encap.
From S2P Require Import L3.
From S2P Require Import Xdp.

(** [u32::rotate_left]. *)
Definition rotl (k x : Z) : Z := wrap 32 (x ≪ k) .| (x ≫ (32 - k)).

Definition is_v4_mapped (addr : bytes) : bool :=
  bool_decide (take 12 addr = [0; 0; 0; 0; 0; 0; 0; 0; 0; 0; 0xff; 0xff]).

Section evpn.
Context `{Kernel} `{FibMaps} `{TunnelMaps} `{L3Maps} `{L2Maps}.

(** The underlay nexthop of an overlay target; 0: no usable route. *)
Definition overlay_fib_nexthop_id (addr : bytes) : Z :=
  match (if is_v4_mapped addr then lpm_get FIB4 (drop 12 addr) else lpm_get FIB6 addr) with
  | None => 0
  | Some fib =>
      if has (flags fib) (FIB_F_ECMP .| FIB_F_BLACKHOLE .| FIB_F_LOCAL) then 0 else nexthop_id fib
  end.

(** The adjacency: an explicit nexthop, or by the underlay route. *)
Definition overlay_adjacency (nh_id : Z) (addr : bytes) : option (NextHop * bytes * bytes) :=
  let nh_id := if negb (nh_id =? 0) then nh_id else overlay_fib_nexthop_id addr in
  if nh_id =? 0 then None else
  nh ← NEXTHOPS !! nh_id;
  '(dst_mac, src_mac) ← xdp_resolve_l2 nh;
  Some (nh, dst_mac, src_mac).

(** ** MAC-in-SRv6 *)

Definition srv6_adjacency (nh_id : Z) (sid : bytes) : option (NextHop * bytes * bytes) :=
  nh_id ← (if negb (nh_id =? 0) then Some nh_id
           else
             fib ← lpm_get FIB6 sid;
             if has (flags fib) (FIB_F_ECMP .| FIB_F_BLACKHOLE .| FIB_F_LOCAL) then None
             else Some (nexthop_id fib));
  nh ← NEXTHOPS !! nh_id;
  '(dst_mac, src_mac) ← xdp_resolve_l2 nh;
  Some (nh, dst_mac, src_mac).

Definition l2_srv6_encap (sid : bytes) (nh_id stat : Z) : Prog Z :=
  match srv6_adjacency nh_id sid with
  | None => mret XDP_PASS
  | Some (nh, dst_mac, src_mac) =>
  match SRV6_ENCAP_SRC with
  | None => mret XDP_PASS
  | Some src6 =>
      len ← frame_len;
      let inner_len := wrap 16 len in
      _ ← must_adjust_head (- (ETH_HLEN + IP6_HDR_LEN));
      _ ← write_macs dst_mac src_mac;
      _ ← xdp_wr ETH_TYPE_OFF (to_be 2 ETH_P_IPV6);
      _ ← xdp_wr ETH_HLEN (to_be 4 IP6_VER_TC_FL);
      _ ← xdp_wr IP6_PAYLOAD_LEN_OFF (to_be 2 inner_len);
      _ ← xdp_wr IP6_NEXTHDR_OFF [IPPROTO_ETHERNET];
      _ ← xdp_wr IP6_HOP_OFF [64];
      _ ← xdp_wr IP6_SRC_OFF src6;
      _ ← xdp_wr IP6_DST_OFF sid;
      _ ← stat_inc stat;
      xdp_redirect (nh_oif nh)
  end
  end.

(** ** VXLAN *)

(** The UDP source port: entropy from the inner MACs in the dynamic range. *)
Definition vxlan_sport : Prog Z :=
  b0 ← xdp_ne 1 0;
  b6 ← xdp_ne 1 6;
  b5 ← xdp_ne 1 5;
  b11 ← xdp_ne 1 11;
  let h := (b0 .^ b6) .| ((b5 .^ b11) ≪ 8) in
  mret (0xC000 .| (h .& 0x3FFF)).

(** Destination port 4789, checksum 0, and the VXLAN header with [vni]. *)
Definition write_vxlan (l4 sport udp_len vni : Z) : Prog unit :=
  _ ← xdp_wr l4 (to_be 2 sport);
  _ ← xdp_wr (l4 + 2) (to_be 2 VXLAN_PORT);
  _ ← xdp_wr (l4 + 4) (to_be 2 udp_len);
  _ ← xdp_wr (l4 + 6) [0; 0];
  _ ← xdp_wr (l4 + 8) (to_be 4 0x08000000);
  xdp_wr (l4 + 12) (to_be 4 (wrap 32 (vni ≪ 8))).

Definition l2_vxlan6_encap (vtep : bytes) (nh_id vni stat : Z) : Prog Z :=
  match overlay_adjacency nh_id vtep with
  | None => mret XDP_PASS
  | Some (nh, dst_mac, src_mac) =>
  match VXLAN_SRC6 with
  | None => mret XDP_PASS
  | Some src6 =>
      if bool_decide (src6 = replicate 16 0) then mret XDP_PASS else
      sport ← vxlan_sport;
      len ← frame_len;
      let inner_len := wrap 16 len in
      let udp_len := wrap 16 (inner_len + 16) in
      _ ← must_adjust_head (- VXLAN6_ENCAP_HDR_LEN);
      _ ← write_macs dst_mac src_mac;
      _ ← xdp_wr ETH_TYPE_OFF (to_be 2 ETH_P_IPV6);
      _ ← xdp_wr ETH_HLEN (to_be 4 IP6_VER_TC_FL);
      _ ← xdp_wr IP6_PAYLOAD_LEN_OFF (to_be 2 udp_len);
      _ ← xdp_wr IP6_NEXTHDR_OFF [IPPROTO_UDP];
      _ ← xdp_wr IP6_HOP_OFF [64];
      _ ← xdp_wr IP6_SRC_OFF src6;
      _ ← xdp_wr IP6_DST_OFF vtep;
      _ ← write_vxlan VXLAN6_L4_OFF sport udp_len vni;
      _ ← stat_inc stat;
      xdp_redirect (nh_oif nh)
  end
  end.

Definition l2_vxlan_encap (addr : bytes) (nh_id vni stat : Z) : Prog Z :=
  if negb (is_v4_mapped addr) then l2_vxlan6_encap addr nh_id vni stat else
  let vtep := drop 12 addr in
  match overlay_adjacency nh_id addr with
  | None => mret XDP_PASS
  | Some (nh, dst_mac, src_mac) =>
  match VXLAN_SRC with
  | None => mret XDP_PASS
  | Some src4 =>
      if bool_decide (src4 = [0; 0; 0; 0]) then mret XDP_PASS else
      sport ← vxlan_sport;
      len ← frame_len;
      let inner_len := wrap 16 len in
      let ip_total := wrap 16 (inner_len + (VXLAN_ENCAP_HDR_LEN - ETH_HLEN)) in
      let udp_len := wrap 16 (inner_len + 16) in
      _ ← must_adjust_head (- VXLAN_ENCAP_HDR_LEN);
      _ ← write_macs dst_mac src_mac;
      _ ← xdp_wr ETH_TYPE_OFF (to_be 2 ETH_P_IP);
      let csum := ipv4_hdr_csum ip_total src4 vtep in
      _ ← xdp_wr IP_VER_IHL_OFF [0x45];
      _ ← xdp_wr (IP_VER_IHL_OFF + 1) [0];
      _ ← xdp_wr (IP_VER_IHL_OFF + 2) (to_be 2 ip_total);
      _ ← xdp_wr (IP_VER_IHL_OFF + 4) [0; 0];
      _ ← xdp_wr (IP_VER_IHL_OFF + 6) [0; 0];
      _ ← xdp_wr IP_TTL_OFF [64];
      _ ← xdp_wr IP_PROTO_OFF [IPPROTO_UDP];
      _ ← xdp_wr IP_CSUM_OFF (to_be 2 csum);
      _ ← xdp_wr IP_SRC_OFF src4;
      _ ← xdp_wr IP_DST_OFF vtep;
      _ ← write_vxlan L4_OFF sport udp_len vni;
      _ ← stat_inc stat;
      xdp_redirect (nh_oif nh)
  end
  end.

(** ** MPLS *)

Definition l2_mpls_encap (addr : bytes) (nh_id label esi_label stat : Z) : Prog Z :=
  match overlay_adjacency nh_id addr with
  | None => mret XDP_PASS
  | Some (nh, dst_mac, src_mac) =>
      let n := nh_num_labels nh in
      if MAX_LABELS <? n then mret XDP_PASS else
      let leaf := has esi_label REPL_EXTRA_ETREE_LEAF in
      let esi_label := esi_label .& MPLS_LABEL_MASK in
      let esi := negb (esi_label =? 0) in
      _ ← must_adjust_head (- (ETH_HLEN + 4 * (n + 1) + (if esi then 4 else 0)));
      _ ← write_macs dst_mac src_mac;
      _ ← xdp_wr ETH_TYPE_OFF (to_be 2 ETH_P_MPLS_UC);
      _ ← for_upto (Z.to_nat MAX_LABELS) 0 n (λ i,
            xdp_wr (MPLS_LSE_OFF + 4 * i) (to_be 4 (mpls_lse (label_at (nh_labels nh) i) 0 0 MPLS_PIPE_TTL)));
      let svc := mpls_lse label 0 (if esi then 0 else 1) MPLS_PIPE_TTL in
      _ ← xdp_wr (MPLS_LSE_OFF + 4 * n) (to_be 4 svc);
      _ ← (if esi then
             _ ← xdp_wr (MPLS_LSE_OFF + 4 * n + 4) (to_be 4 (mpls_lse esi_label 0 1 MPLS_PIPE_TTL));
             stat_inc (if leaf then STAT_MPLS_L2_LEAF_PUSH else STAT_MPLS_L2_ESI_PUSH)
           else mret tt);
      _ ← stat_inc stat;
      xdp_redirect (nh_oif nh)
  end.

(** ** The encap site *)

Definition l2_overlay_encap (addr : bytes) (nh_id fl aux esi_label : Z) (bum : bool) : Prog Z :=
  if has fl FDB_F_MPLS then
    l2_mpls_encap addr nh_id aux esi_label (if bum then STAT_MPLS_L2_BUM else STAT_MPLS_L2_ENCAP)
  else if has fl FDB_F_VXLAN then
    l2_vxlan_encap addr nh_id aux (if bum then STAT_VXLAN_FLOOD else STAT_VXLAN_ENCAP)
  else
    l2_srv6_encap addr nh_id (if bum then STAT_SRV6_L2_BUM else STAT_SRV6_L2_ENCAP).

(** ** Ethernet Segment nexthop groups *)

Definition es_nhg_member (es_id bd hash : Z) : option ReplTarget :=
  value ← ES_NHG !! mkEsNhgKey es_id bd;
  let count := value .& ES_NHG_COUNT_MASK in
  if count =? 0 then None else
  let slot := if has value ES_NHG_F_SINGLE_ACTIVE then 0 else wrap 16 (hash mod count) in
  ES_NHG_MEMBER !! mkEsNhgMemberKey es_id bd slot.

(** Mix a word into the hash if it can be read. *)
Definition mix (h off : Z) (f : Z → Z) : Prog Z :=
  p ← catch (xdp_ne 4 off);
  mret (match p with Some x => h .^ f x | None => h end).

Definition l2_flow_hash : Prog Z :=
  h ← mix 0 2 (λ x, x);
  h ← mix h 8 (rotl 16);
  t ← catch (xdp_be 2 ETH_TYPE_OFF);
  match t with
  | None => mret (fmix32 h)
  | Some t =>
      if t =? 0x0800 then
        h ← mix h IP_SRC_OFF (rotl 8); h ← mix h IP_DST_OFF (rotl 24); mret (fmix32 h)
      else if t =? 0x86dd then
        h ← mix h (IP6_SRC_OFF + 12) (rotl 8); h ← mix h (IP6_DST_OFF + 12) (rotl 24); mret (fmix32 h)
      else mret (fmix32 h)
  end.

(** ** The CE-facing port *)

Definition l2_evpn_bum_tunnel (fdb : gmap FdbKey FdbEntry) (bd : Z) : option FdbEntry :=
  ent ← fdb !! mkFdbKey (replicate 6 0xff) bd;
  if has (fe_flags ent) FDB_F_REMOTE then Some ent else None.

(** What becomes of a frame for [dst]: [inl act], or the overlay entry and
    whether it is flooded. *)
Definition l2_evpn_target (iif bd : Z) (dst : bytes) : Prog (Z + FdbEntry * bool) :=
  w ← get;
  let bum := match l2_evpn_bum_tunnel (FDB w) bd with
             | Some ent => inr (ent, true) | None => inl XDP_PASS end in
  if is_group_mac dst then mret bum else
  match FDB w !! mkFdbKey dst bd with
  | Some ent =>
      if negb (has (fe_flags ent) FDB_F_REMOTE) then mret (inl XDP_PASS)
      else if has (fe_flags ent) FDB_F_ETREE_LEAF && etree_leaf iif then
        _ ← stat_inc STAT_L2_DROP_ETREE_UC; mret (inl XDP_DROP)
      else mret (inr (ent, false))
  | None => mret bum
  end.

Definition l2_evpn_xdp (iif bd : Z) : Prog Z :=
  dst ← xdp_rd ETH_DST_OFF 6;
  if is_reserved_l2 dst then mret XDP_PASS else
  if es_blocked iif bd then _ ← stat_inc STAT_L2_DROP_SA; mret XDP_DROP else
  src ← xdp_rd ETH_SRC_OFF 6;
  _ ← (if is_group_mac src then mret tt else fdb_learn src bd iif);
  t ← l2_evpn_target iif bd dst;
  match t with
  | inl act => mret act
  | inr (ent, bum) =>
      if has (fe_flags ent) FDB_F_ESNHG then
        hash ← l2_flow_hash;
        match es_nhg_member (fe_oif ent) bd hash with
        | None => mret XDP_PASS
        | Some m =>
            _ ← stat_inc STAT_L2_ES_NHG;
            let fl := if rt_kind m =? REPL_KIND_VXLAN then FDB_F_VXLAN
                      else if rt_kind m =? REPL_KIND_MPLS then FDB_F_MPLS else 0 in
            l2_overlay_encap (rt_addr m) 0 fl (rt_vni m) 0 bum
        end
      else if has (fe_flags ent) FDB_F_VXLAN then
        match VLAN_VNI !! bd with
        | None => mret XDP_PASS
        | Some vni => l2_overlay_encap (fe_remote_sid ent) (fe_oif ent) (fe_flags ent) vni 0 bum
        end
      else l2_overlay_encap (fe_remote_sid ent) (fe_oif ent) (fe_flags ent) (fe_label ent) 0 bum
  end.
End evpn.
