(* ===== verification/XdpSrv6.v ===== *)
(** * SRv6 endpoints (XDP stage)

    Every endpoint behavior [try_srv6_xdp] of
    [crates/cradle-ebpf/src/main.rs] dispatches to: End/End.X/End.T with the
    PSP, USP and USD flavors, the End.DT*, End.DX* and End.DT2* decapsulations,
    End.M, End.B6.Encaps, NEXT-C-SID ([uN], [uA]) and REPLACE-C-SID. *)

From S2P Require Import Prelude.
From S2P Require Import Contract.
From S2P Require Import Common.
From S2P Require Import Bpf.
From S2P Require Import Maps.
From S2P Require Import L2.
From S2P Require Import Encap.
From S2P Require Import Xdp.

Section srv6.
Context `{Kernel} `{FibMaps} `{TunnelMaps} `{L3Maps} `{L2Maps}.

(** ** Metadata *)

Definition srv6_decap_meta (vrf_id : Z) : Prog Z := attach_meta XDP_META_MAGIC_SRV6 vrf_id 0.

Definition replicate_meta : Prog Z := attach_meta XDP_META_MAGIC_REPL 0 0.

(** Scope the TC forward to the SID's table; a decapsulation always carries
    the SRv6 provenance. *)
Definition endt_meta (sid : LocalSid) (decap : bool) : Prog Z :=
  let scoped := negb (ls_vrf_id sid =? 0)
                && ((ls_behavior sid =? SRV6_BH_END_T) || (ls_behavior sid =? SRV6_BH_UN)) in
  if negb scoped && negb decap then mret XDP_PASS else
  _ ← (if scoped then stat_inc STAT_SRV6_ENDT else mret tt);
  srv6_decap_meta (if scoped then ls_vrf_id sid else 0).

(** ** Adjacency *)

Definition srv6_forward_adjacency (nexthop_id : Z) : Prog Z :=
  match NEXTHOPS !! nexthop_id with
  | None => mret XDP_PASS
  | Some nh =>
      match xdp_resolve_l2 nh with
      | None => mret XDP_PASS
      | Some (dst_mac, src_mac) =>
          hop ← xdp_ne 1 IP6_HOP_OFF;
          if hop <=? 1 then mret XDP_PASS else
          _ ← xdp_wr IP6_HOP_OFF [hop - 1];
          _ ← write_macs dst_mac src_mac;
          xdp_redirect (nh_oif nh)
      end
  end.

(** ** Decapsulation *)

(** The payload's protocol and what to strip to reach it: nothing but the
    outer header, or one exhausted SRH. [None]: a live or oversized SRH. *)
Definition reach_inner : Prog (option (Z * Z)) :=
  outer_nh ← xdp_ne 1 IP6_NEXTHDR_OFF;
  if outer_nh =? IPPROTO_ROUTING then
    srh_nh ← xdp_ne 1 SRH_OFF;
    ext_len ← xdp_ne 1 (SRH_OFF + 1);
    sl ← xdp_ne 1 SRH_SL_OFF;
    if negb (sl =? 0) || (12 <? ext_len) then mret None
    else mret (Some (srh_nh, IP6_HDR_LEN + 8 * (ext_len + 1)))
  else mret (Some (outer_nh, IP6_HDR_LEN)).

(** The EtherType an End.DT* behavior accepts for a payload protocol. *)
Definition dt_ethertype (inner_proto behavior : Z) : option Z :=
  if (inner_proto =? IPPROTO_IPIP) && ((behavior =? SRV6_BH_END_DT4) || (behavior =? SRV6_BH_END_DT46))
  then Some ETH_P_IP
  else if (inner_proto =? IPPROTO_IPV6) && ((behavior =? SRV6_BH_END_DT6) || (behavior =? SRV6_BH_END_DT46))
  then Some ETH_P_IPV6 else None.

Definition ip_in_ip6 (proto : Z) : option Z :=
  if proto =? IPPROTO_IPIP then Some ETH_P_IP
  else if proto =? IPPROTO_IPV6 then Some ETH_P_IPV6 else None.

(** End.DT4/DT6/DT46. *)
Definition srv6_dt (sid : LocalSid) : Prog Z :=
  r ← reach_inner;
  match r with
  | None => mret XDP_PASS
  | Some (inner_proto, strip) =>
      match dt_ethertype inner_proto (ls_behavior sid) with
      | None => drop_frame
      | Some inner_et =>
          _ ← decap_head strip inner_et;
          _ ← stat_inc STAT_SRV6_DECAP;
          srv6_decap_meta (ls_vrf_id sid)
      end
  end.

Definition srv6_dx (sid : LocalSid) : Prog Z :=
  r ← reach_inner;
  match r with
  | None => mret XDP_PASS
  | Some (inner_proto, strip) =>
      let inner_et :=
        if (inner_proto =? IPPROTO_IPIP) && (ls_behavior sid =? SRV6_BH_END_DX4) then Some ETH_P_IP
        else if (inner_proto =? IPPROTO_IPV6) && (ls_behavior sid =? SRV6_BH_END_DX6)
        then Some ETH_P_IPV6 else None in
      match inner_et with
      | None => drop_frame
      | Some inner_et =>
          if bool_decide (NEXTHOPS !! ls_nexthop_id sid = None) then mret XDP_PASS else
          _ ← decap_head strip inner_et;
          ok ← put_meta (mkCradleXdpMeta (XDP_META_MAGIC_DX .^ meta_cookie) (ls_nexthop_id sid) 0);
          if negb (ok : bool) then drop_frame
          else _ ← stat_inc STAT_SRV6_DX; mret XDP_PASS
      end
  end.

Definition srv6_dx2 (sid : LocalSid) : Prog Z :=
  outer_nh ← xdp_ne 1 IP6_NEXTHDR_OFF;
  if negb (outer_nh =? IPPROTO_ETHERNET) then mret XDP_PASS else
  let strip := ETH_HLEN + IP6_HDR_LEN in
  oif ← eline_ac (negb (ls_behavior sid =? SRV6_BH_END_DX2)) (ls_vrf_id sid) strip;
  match oif with
  | None => mret XDP_PASS
  | Some oif =>
      _ ← must_adjust_head strip;
      _ ← stat_inc STAT_SRV6_DX2;
      attach_meta XDP_META_MAGIC_DX2 oif 0
  end.

(** The [es_bits] an End.DT2M argument contributes; [None]: drop. *)
Definition srv6_dt2m_arg_bits (da : bytes) (off len : Z) : Prog (option Z) :=
  match sid_arg (of_be (take 8 da)) (of_be (drop 8 da)) off len with
  | None => mret (Some 0)
  | Some arg =>
      if arg =? 0 then mret (Some 0)
      else if bool_decide (is_Some (LEAF_ARG !! arg)) then
        _ ← stat_inc STAT_SRV6_L2_LEAF_DECAP; mret (Some ES_BITS_ETREE_LEAF)
      else _ ← stat_inc STAT_SRV6_DROP_ARG; mret None
  end.

Definition srv6_dt2u (sid : LocalSid) : Prog Z :=
  outer_nh ← xdp_ne 1 IP6_NEXTHDR_OFF;
  if negb (outer_nh =? IPPROTO_ETHERNET) then mret XDP_PASS else
  src ← xdp_rd IP6_SRC_OFF 16;
  let es_bits := vtep6_es_bits src in
  bits ← (if ls_arg_bits sid =? 0 then mret (Some 0)
          else
            da ← xdp_rd IP6_DST_OFF 16;
            srv6_dt2m_arg_bits da (ls_block_bits sid + ls_node_bits sid + ls_fun_bits sid) (ls_arg_bits sid));
  match bits with
  | None => mret XDP_DROP
  | Some bits =>
      _ ← must_adjust_head (ETH_HLEN + IP6_HDR_LEN);
      _ ← stat_inc STAT_SRV6_L2_DECAP;
      attach_meta XDP_META_MAGIC_L2 (ls_vrf_id sid) (es_bits .| bits)
  end.

(** End.M: decapsulate the repair, then what the failed egress would have. *)
Definition srv6_endm (sid : LocalSid) : Prog Z :=
  r ← reach_inner;
  match r with
  | None => mret XDP_PASS
  | Some (exposed_proto, strip) =>
      if negb (exposed_proto =? IPPROTO_IPV6) then mret XDP_PASS else
      exposed_da ← xdp_rd (strip + IP6_DST_OFF) 16;
      match lpm_get MIRROR (vrf_key (ls_vrf_id sid) exposed_da) with
      | None => mret XDP_PASS
      | Some ment =>
          _ ← decap_head strip ETH_P_IPV6;
          r ← reach_inner;
          match r with
          | None => mret XDP_PASS
          | Some (inner_proto, strip2) =>
              match dt_ethertype inner_proto (mi_behavior ment) with
              | None => drop_frame
              | Some inner_et =>
                  _ ← decap_head strip2 inner_et;
                  _ ← stat_inc STAT_SRV6_ENDM;
                  srv6_decap_meta (mi_vrf_id ment)
              end
          end
      end
  end.

(** ** End, End.X, End.T and their flavors *)

Definition is_adjacency (behavior : Z) : bool :=
  (behavior =? SRV6_BH_END_X) || (behavior =? SRV6_BH_UA) || (behavior =? SRV6_BH_UALIB).

(** USD: decapsulate an inner IP packet. *)
Definition usd_decap (strip inner_et : Z) : Prog unit :=
  _ ← decap_head strip inner_et; stat_inc STAT_SRV6_USD.

Definition usp_pop : Prog unit := _ ← pop_srh; stat_inc STAT_SRV6_USP.
Definition psp_pop : Prog unit := _ ← pop_srh; stat_inc STAT_SRV6_PSP.

(** Load segment [new_sl] into the destination address. *)
Definition advance_segment (new_sl : Z) : Prog unit :=
  next_seg ← xdp_rd (SRH_SEGLIST_OFF + 16 * new_sl) 16;
  _ ← xdp_wr SRH_SL_OFF [new_sl];
  xdp_wr IP6_DST_OFF next_seg.

Definition srv6_end (sid : LocalSid) : Prog Z :=
  let ult_ok := negb (is_adjacency (ls_behavior sid)) in
  let usd := has (ls_flavors sid) SRV6_FLAVOR_USD && ult_ok in
  outer_nh ← xdp_ne 1 IP6_NEXTHDR_OFF;
  if negb (outer_nh =? IPPROTO_ROUTING) then
    if usd then
      match ip_in_ip6 outer_nh with
      | None => mret XDP_PASS
      | Some inner_et => _ ← usd_decap IP6_HDR_LEN inner_et; endt_meta sid true
      end
    else mret XDP_PASS
  else
  sl ← xdp_ne 1 SRH_SL_OFF;
  if sl =? 0 then
    ext_len ← xdp_ne 1 (SRH_OFF + 1);
    if 12 <? ext_len then mret XDP_PASS else
    inner_et ← (if usd then srh_nh ← xdp_ne 1 SRH_OFF; mret (ip_in_ip6 srh_nh) else mret None);
    match inner_et with
    | Some et => _ ← usd_decap (IP6_HDR_LEN + 8 * (ext_len + 1)) et; endt_meta sid true
    | None =>
        _ ← (if has (ls_flavors sid) SRV6_FLAVOR_USP && ult_ok then usp_pop else mret tt);
        mret XDP_PASS
    end
  else if MAX_SEGS <? sl then mret XDP_PASS
  else
  let new_sl := sl - 1 in
  _ ← advance_segment new_sl;
  _ ← stat_inc STAT_SRV6_END;
  _ ← (if (new_sl =? 0) && has (ls_flavors sid) SRV6_FLAVOR_PSP then psp_pop else mret tt);
  if negb ((ls_behavior sid =? SRV6_BH_END_X) || (ls_behavior sid =? SRV6_BH_UA))
  then endt_meta sid false
  else srv6_forward_adjacency (ls_nexthop_id sid).

(** ** NEXT-C-SID *)

(** The container shifted left by one micro-SID after the locator block. *)
Definition usid_shift (block_bits node_bits : Z) (da : bytes) : option bytes :=
  let b := Z.to_nat (block_bits / 8) in
  if ((block_bits =? 16) || (block_bits =? 32) || (block_bits =? 48)) && (node_bits =? 16)
  then Some (take b da ++ drop (b + 2) da ++ [0; 0]) else None.

Definition srv6_usid_shift (sid : LocalSid) : Prog bool :=
  da ← xdp_rd IP6_DST_OFF 16;
  match usid_shift (ls_block_bits sid) (ls_node_bits sid) da with
  | None => mret false
  | Some nda => _ ← xdp_wr IP6_DST_OFF nda; _ ← stat_inc STAT_SRV6_USID; mret true
  end.

(** The micro-SID that the shift would make active is zero. *)
Definition end_of_carrier (sid : LocalSid) (da : bytes) : bool :=
  let block := ls_block_bits sid / 8 in
  let node := ls_node_bits sid / 8 in
  (block + node + 2 <=? 16) && (byte_at da (Z.to_nat (block + node)) =? 0)
  && (byte_at da (Z.to_nat (block + node + 1)) =? 0).

Definition srv6_ua (sid : LocalSid) : Prog Z :=
  da ← xdp_rd IP6_DST_OFF 16;
  if end_of_carrier sid da then
    srv6_end (mkLocalSid SRV6_BH_UA (ls_flavors sid) (ls_vrf_id sid) (ls_nexthop_id sid)
                (ls_block_bits sid) (ls_node_bits sid) (ls_fun_bits sid) (ls_arg_bits sid))
  else
  shifted ← srv6_usid_shift sid;
  if negb (shifted : bool) then mret XDP_PASS else srv6_forward_adjacency (ls_nexthop_id sid).

Definition srv6_un (sid : LocalSid) : Prog Z :=
  da ← xdp_rd IP6_DST_OFF 16;
  if end_of_carrier sid da then srv6_end sid else
  _ ← srv6_usid_shift sid;
  nda ← xdp_rd IP6_DST_OFF 16;
  match lpm_get SRV6_LOCALSID nda with
  | Some next => if ls_behavior next =? SRV6_BH_UALIB then srv6_ua next else mret XDP_PASS
  | None => mret XDP_PASS
  end.
End srv6.
