(* ===== verification/XdpReplace.v ===== *)
(** * REPLACE-C-SID, End.B6.Encaps and the SRv6 dispatcher (XDP stage)

    [replace_pos], [write_csid], [srv6_replace_once], [srv6_replace],
    [srv6_b6_encaps] and [try_srv6_xdp] of [crates/cradle-ebpf/src/main.rs]. *)

From S2P Require Import Prelude.
From S2P Require Import Contract.
From S2P Require Import Common.
From S2P Require Import Bpf.
From S2P Require Import Maps.
From S2P Require Import L2.
From S2P Require Import Encap.
From S2P Require Import Xdp.
From S2P Require Import XdpSrv6.

(** The outcome of one pass: a final verdict, or look the new destination up. *)
Inductive ReplaceStep : Type :=
| Act (act : Z)
| Redispatch.

(** [K - 1] positions of a container, by the width of a C-SID. *)
Definition csid_idx_mask (csid_bits : Z) : option Z :=
  if csid_bits =? 32 then Some 3 else if csid_bits =? 16 then Some 7 else None.

Section replace.
Context `{Kernel} `{FibMaps} `{TunnelMaps} `{L3Maps} `{L2Maps}.

(** ** Containers *)

Definition replace_pos (sl_idx pos idx_mask : Z) : Prog Z :=
  let entry := SRH_SEGLIST_OFF + 16 * (sl_idx .& 7) in
  if idx_mask =? 3 then xdp_be 4 (entry + 4 * (pos .& 3)) else xdp_be 2 (entry + 2 * (pos .& 7)).

Definition write_csid (block_bytes csid idx_mask : Z) : Prog unit :=
  let off := IP6_DST_OFF + (block_bytes .& 15) in
  if idx_mask =? 3 then xdp_wr off (to_be 4 csid) else xdp_wr off (to_be 2 (wrap 16 csid)).

(** Put a C-SID and its index into the destination address. *)
Definition write_active (block_bits csid nidx idx_mask : Z) : Prog unit :=
  _ ← write_csid (block_bits / 8) csid idx_mask;
  da15 ← xdp_ne 1 (IP6_DST_OFF + 15);
  _ ← xdp_wr (IP6_DST_OFF + 15) [(da15 .& Z.lnot idx_mask) .| nidx];
  stat_inc STAT_SRV6_REPLACE.

(** ** One pass *)

Definition is_x (sid : LocalSid) : bool := ls_behavior sid =? SRV6_BH_END_X_REP.

(** No SRH: plain upper-layer processing. *)
Definition replace_bare (sid : LocalSid) (outer_nh : Z) : Prog ReplaceStep :=
  if has (ls_flavors sid) SRV6_FLAVOR_USD && negb (is_x sid) then
    match ip_in_ip6 outer_nh with
    | None => mret (Act XDP_PASS)
    | Some inner_et => _ ← usd_decap IP6_HDR_LEN inner_et; Act <$> srv6_decap_meta 0
    end
  else mret (Act XDP_PASS).

(** The ultimate segment: USD, then USP, then plain delivery. *)
Definition replace_ultimate (sid : LocalSid) (ext_len : Z) : Prog ReplaceStep :=
  inner_et ← (if has (ls_flavors sid) SRV6_FLAVOR_USD && negb (is_x sid)
              then srh_nh ← xdp_ne 1 SRH_OFF; mret (ip_in_ip6 srh_nh) else mret None);
  match inner_et with
  | Some et => _ ← usd_decap (IP6_HDR_LEN + 8 * (ext_len + 1)) et; Act <$> srv6_decap_meta 0
  | None =>
      _ ← (if has (ls_flavors sid) SRV6_FLAVOR_USP && negb (is_x sid) then usp_pop else mret tt);
      mret (Act XDP_PASS)
  end.

(** The C-SID just made active is followed by another one in container 0. *)
Definition last_csid (nidx idx_mask : Z) : Prog bool :=
  c ← replace_pos 0 (nidx - 1) idx_mask; mret (c =? 0).

Definition replace_leave (sid : LocalSid) : Prog ReplaceStep :=
  if is_x sid then Act <$> srv6_forward_adjacency (ls_nexthop_id sid) else mret (Act XDP_PASS).

(** R01-R11: the next position of the current container. *)
Definition replace_next (sid : LocalSid) (idx_mask sl idx : Z) : Prog ReplaceStep :=
  let nidx := idx - 1 in
  csid ← replace_pos sl nidx idx_mask;
  if csid =? 0 then
    if sl =? 0 then mret (Act XDP_PASS) else
    let new_sl := sl - 1 in
    _ ← advance_segment new_sl;
    _ ← stat_inc STAT_SRV6_REPLACE;
    _ ← (if (new_sl =? 0) && has (ls_flavors sid) SRV6_FLAVOR_PSP then psp_pop else mret tt);
    mret Redispatch
  else
    _ ← write_active (ls_block_bits sid) csid nidx idx_mask;
    last ← (if (sl =? 0) && has (ls_flavors sid) SRV6_FLAVOR_PSP then
              if nidx =? 0 then mret true else last_csid nidx idx_mask
            else mret false);
    _ ← (if (last : bool) then psp_pop else mret tt);
    replace_leave sid.

(** R12-R17: the next container, from its least significant position. *)
Definition replace_container (sid : LocalSid) (idx_mask sl : Z) : Prog ReplaceStep :=
  let new_sl := sl - 1 in
  let nidx := idx_mask in
  csid ← replace_pos new_sl nidx idx_mask;
  _ ← xdp_wr SRH_SL_OFF [new_sl];
  _ ← write_active (ls_block_bits sid) csid nidx idx_mask;
  last ← (if (new_sl =? 0) && has (ls_flavors sid) SRV6_FLAVOR_PSP
          then last_csid nidx idx_mask else mret false);
  _ ← (if (last : bool) then psp_pop else mret tt);
  replace_leave sid.

Definition srv6_replace_once (sid : LocalSid) : Prog ReplaceStep :=
  let lb := ls_block_bits sid in
  let csid_bits := ls_node_bits sid + ls_fun_bits sid in
  match csid_idx_mask csid_bits with
  | None => mret (Act XDP_PASS)
  | Some idx_mask =>
  if negb (lb mod 8 =? 0) || (120 <? lb + csid_bits) then mret (Act XDP_PASS) else
  outer_nh ← xdp_ne 1 IP6_NEXTHDR_OFF;
  if negb (outer_nh =? IPPROTO_ROUTING) then replace_bare sid outer_nh else
  ext_len ← xdp_ne 1 (SRH_OFF + 1);
  if 12 <? ext_len then mret (Act XDP_PASS) else
  sl ← xdp_ne 1 SRH_SL_OFF;
  da15 ← xdp_ne 1 (IP6_DST_OFF + 15);
  let idx := da15 .& idx_mask in
  ultimate ← (if sl =? 0 then
                if idx =? 0 then mret true
                else if 2 <=? ext_len then last_csid idx idx_mask else mret false
              else mret false);
  if (ultimate : bool) then replace_ultimate sid ext_len else
  if (ext_len <? 2) || (MAX_SEGS <? sl) then mret (Act XDP_PASS) else
  last_entry ← xdp_ne 1 SRH_LAST_ENTRY_OFF;
  let max_le := ext_len / 2 - 1 in
  if negb (idx =? 0) then
    if (max_le <? last_entry) || (last_entry <? sl) then mret (Act XDP_PASS)
    else replace_next sid idx_mask sl idx
  else
    if (max_le <? last_entry) || (last_entry + 1 <? sl) || (sl =? 0) then mret (Act XDP_PASS)
    else replace_container sid idx_mask sl
  end.

(** ** The endpoint: at most two passes *)

Fixpoint srv6_replace_loop (fuel : nat) (cur : LocalSid) : Prog Z :=
  match fuel with
  | O => mret XDP_PASS
  | S fuel =>
      step ← srv6_replace_once cur;
      match step with
      | Act a => mret a
      | Redispatch =>
          da ← xdp_rd IP6_DST_OFF 16;
          match lpm_get SRV6_LOCALSID da with
          | Some n =>
              if (ls_behavior n =? SRV6_BH_END_REP) || (ls_behavior n =? SRV6_BH_END_X_REP)
              then srv6_replace_loop fuel n
              else if is_x cur then srv6_forward_adjacency (ls_nexthop_id cur) else mret XDP_PASS
          | None => if is_x cur then srv6_forward_adjacency (ls_nexthop_id cur) else mret XDP_PASS
          end
      end
  end.

Definition srv6_replace (sid : LocalSid) : Prog Z := srv6_replace_loop 2 sid.

(** ** End.B6.Encaps *)

(** The outer IPv6 header and reduced SRH of a policy, over [inner_len]
    bytes; the frame has already grown. *)
Definition b6_push (enc : Srv6Encap) (src : bytes) (inner_len srh_len grow : Z) : Prog unit :=
  let n := se_num_segs enc in
  macs ← xdp_rd grow 12;
  _ ← xdp_wr 0 macs;
  _ ← xdp_wr ETH_TYPE_OFF (to_be 2 ETH_P_IPV6);
  let '(outer_proto, payload_len) :=
    if n =? 1 then (IPPROTO_IPV6, inner_len) else (IPPROTO_ROUTING, wrap 16 (inner_len + srh_len)) in
  _ ← xdp_wr ETH_HLEN (to_be 4 IP6_VER_TC_FL);
  _ ← xdp_wr IP6_PAYLOAD_LEN_OFF (to_be 2 payload_len);
  _ ← xdp_wr IP6_NEXTHDR_OFF [outer_proto];
  _ ← xdp_wr IP6_HOP_OFF [64];
  _ ← xdp_wr IP6_SRC_OFF src;
  _ ← xdp_wr IP6_DST_OFF (seg_at (se_segs enc) 0);
  if 1 <? n then
    _ ← xdp_wr SRH_OFF [IPPROTO_IPV6];
    _ ← xdp_wr (SRH_OFF + 1) [2 * (n - 1)];
    _ ← xdp_wr (SRH_OFF + 2) [4];
    _ ← xdp_wr SRH_SL_OFF [n - 1];
    _ ← xdp_wr SRH_LAST_ENTRY_OFF [n - 2];
    _ ← xdp_wr (SRH_OFF + 5) [0];
    _ ← xdp_wr (SRH_OFF + 6) [0; 0];
    for_upto (Z.to_nat (MAX_SEGS - 1)) 1 n (λ j,
      xdp_wr ((SRH_SEGLIST_OFF + 16 * (n - 1 - j)) .& 0x1ff) (seg_at (se_segs enc) j))
  else mret tt.

Definition srv6_b6_encaps (sid : LocalSid) : Prog Z :=
  outer_nh ← xdp_ne 1 IP6_NEXTHDR_OFF;
  if negb (outer_nh =? IPPROTO_ROUTING) then mret XDP_PASS else
  ext_len ← xdp_ne 1 (SRH_OFF + 1);
  if negb ((2 <=? ext_len) && (ext_len <=? 12)) then mret XDP_PASS else
  sl ← xdp_ne 1 SRH_SL_OFF;
  if (sl =? 0) || (MAX_SEGS <? sl) then mret XDP_PASS else
  last_entry ← xdp_ne 1 SRH_LAST_ENTRY_OFF;
  let max_le := ext_len / 2 - 1 in
  if (max_le <? last_entry) || (last_entry + 1 <? sl) then mret XDP_PASS else
  hop ← xdp_ne 1 IP6_HOP_OFF;
  if hop <=? 1 then mret XDP_PASS else
  match SRV6_ENCAP !! ls_nexthop_id sid with
  | None => mret XDP_PASS
  | Some enc =>
      let n := se_num_segs enc in
      if (n =? 0) || (MAX_SEGS <? n) || (se_mode enc =? SRV6_ENCAP_MODE_INSERT) then mret XDP_PASS else
      match SRV6_ENCAP_SRC with
      | None => mret XDP_PASS
      | Some src =>
          let new_sl := sl - 1 in
          next_seg ← xdp_rd (SRH_SEGLIST_OFF + 16 * new_sl) 16;
          _ ← xdp_wr IP6_HOP_OFF [hop - 1];
          _ ← xdp_wr SRH_SL_OFF [new_sl];
          _ ← xdp_wr IP6_DST_OFF next_seg;
          len ← frame_len;
          let inner_len := wrap 16 (len - ETH_HLEN) in
          let srh_len := if n =? 1 then 0 else 8 + 16 * (n - 1) in
          let grow := IP6_HDR_LEN + srh_len in
          ok ← adjust_head (- grow);
          if negb (ok : bool) then mret XDP_PASS else
          _ ← b6_push enc src inner_len srh_len grow;
          _ ← stat_inc STAT_SRV6_B6;
          mret XDP_PASS
      end
  end.

(** ** The dispatcher *)

Definition is_one_of (z : Z) (zs : list Z) : bool := existsb (Z.eqb z) zs.

Definition srv6_behavior (sid : LocalSid) : Prog Z :=
  let b := ls_behavior sid in
  if is_one_of b [SRV6_BH_END; SRV6_BH_END_X; SRV6_BH_UA; SRV6_BH_END_T] then srv6_end sid
  else if b =? SRV6_BH_UN then srv6_un sid
  else if b =? SRV6_BH_UALIB then srv6_ua sid
  else if is_one_of b [SRV6_BH_END_REP; SRV6_BH_END_X_REP] then srv6_replace sid
  else if b =? SRV6_BH_END_REPLICATE then replicate_meta
  else if is_one_of b [SRV6_BH_END_DX4; SRV6_BH_END_DX6] then srv6_dx sid
  else if is_one_of b [SRV6_BH_END_DX2; SRV6_BH_END_DX2V] then srv6_dx2 sid
  else if b =? SRV6_BH_END_B6 then srv6_b6_encaps sid
  else if is_one_of b [SRV6_BH_END_DT2U; SRV6_BH_END_DT2M] then srv6_dt2u sid
  else if b =? SRV6_BH_END_M then srv6_endm sid
  else if is_one_of b [SRV6_BH_END_DT4; SRV6_BH_END_DT6; SRV6_BH_END_DT46] then srv6_dt sid
  else mret XDP_PASS.

Definition try_srv6_xdp : Prog Z :=
  dst ← xdp_rd IP6_DST_OFF 16;
  match lpm_get SRV6_LOCALSID dst with
  | None => mret XDP_PASS
  | Some sid => srv6_behavior sid
  end.
End replace.
