(* ===== verification/XdpMain.v ===== *)
(** * The XDP program

    [cradle_xdp], its dispatcher [try_xdp] and the UDP dispatchers of
    [crates/cradle-ebpf/src/main.rs]. *)

From S2P Require Import Prelude.
From S2P Require Import Contract.
From S2P Require Import Common.
From S2P Require Import Bpf.
From S2P Require Import Maps.
From S2P Require Import L2.
From S2P Require Import Encap.
From S2P Require Import Xdp.
From S2P Require Import Bfd.
From S2P Require Import XdpTunnel.
From S2P Require Import XdpEvpn.
From S2P Require Import XdpSrv6.
From S2P Require Import XdpReplace.

Section xdp_main.
Context `{Kernel} `{FibMaps} `{TunnelMaps} `{L3Maps} `{L2Maps} `{BfdMaps}.

(** The cradle port of a device: the bond of a LAG member. *)
Definition xdp_iif (raw : Z) : Z := default raw (PORT_MASTER !! raw).

Definition try_bfd6 : Prog (option Z) :=
  next ← xdp_ne 1 IP6_NEXTHDR_OFF;
  if negb (next =? IPPROTO_UDP) then mret None else
  dport ← xdp_be 2 (IP6_L4_OFF + 2);
  if dport =? BFD_ECHO_PORT then Some <$> reflect_v6
  else if dport =? BFD_CTRL_PORT then _ ← observe_ctrl_v6; mret (Some XDP_PASS)
  else mret None.

Definition try_udp4_xdp (iif : Z) : Prog Z :=
  ver_ihl ← xdp_ne 1 IP_VER_IHL_OFF;
  if negb (ver_ihl .& 0x0f =? 5) then mret XDP_PASS else
  proto ← xdp_ne 1 IP_PROTO_OFF;
  if negb (proto =? IPPROTO_UDP) then mret XDP_PASS else
  dport ← xdp_be 2 (L4_OFF + 2);
  if dport =? GTP_PORT then try_gtp_xdp iif
  else if dport =? VXLAN_PORT then try_vxlan_xdp
  else if dport =? BFD_ECHO_PORT then reflect_v4
  else if dport =? BFD_CTRL_PORT then _ ← observe_ctrl_v4; mret XDP_PASS
  else mret XDP_PASS.

Definition try_ip6_xdp (iif : Z) : Prog Z :=
  bfd ← try_bfd6;
  match bfd with
  | Some act => mret act
  | None =>
      next ← xdp_ne 1 IP6_NEXTHDR_OFF;
      if next =? IPPROTO_UDP then
        dport ← xdp_be 2 (VXLAN6_L4_OFF + 2);
        if dport =? VXLAN_PORT then try_vxlan6_xdp
        else if dport =? GTP_PORT then try_gtp6_xdp iif
        else try_srv6_xdp
      else try_srv6_xdp
  end.

(** The slot or attachment circuit a frame arrived on: its target and
    whether the copy is a BUM fan-out copy. *)
Definition slot_target (iif : Z) : Prog (option (ReplTarget * bool)) :=
  match REPL_SID !! iif with
  | Some t => mret (Some (t, true))
  | None =>
      et ← xdp_be 2 ETH_TYPE_OFF;
      hit ← (if et =? ETH_P_8021Q then
               tci ← xdp_be 2 ETH_HLEN;
               mret (XCONNECT_VLAN !! mkDx2vKey iif (tci .& 0x0fff))
             else mret None);
      mret ((λ t, (t, false)) <$> (match hit with Some t => Some t | None => XCONNECT !! iif end))
  end.

Definition kind_flags (kind : Z) : Z :=
  if kind =? REPL_KIND_VXLAN then FDB_F_VXLAN
  else if kind =? REPL_KIND_MPLS then FDB_F_MPLS else 0.

Definition l2_port (iif : Z) : option Z :=
  match PORTS !! iif with
  | Some p => if has (pc_flags p) PORT_F_L2 then Some (pc_vlan p) else None
  | None => None
  end.

Definition try_xdp (raw : Z) : Prog Z :=
  let iif := xdp_iif raw in
  hit ← slot_target iif;
  match hit with
  | Some (t, bum) => l2_overlay_encap (rt_addr t) 0 (kind_flags (rt_kind t)) (rt_vni t) (rt_esi_label t) bum
  | None =>
      match l2_port iif with
      | Some bd => l2_evpn_xdp iif bd
      | None =>
          ethertype ← xdp_be 2 ETH_TYPE_OFF;
          if ethertype =? ETH_P_MPLS_UC then try_mpls_xdp
          else if ethertype =? ETH_P_IPV6 then try_ip6_xdp iif
          else if ethertype =? ETH_P_IP then try_udp4_xdp iif
          else mret XDP_PASS
      end
  end.

Definition cradle_xdp (raw : Z) : Prog Z :=
  r ← catch (try_xdp raw); mret (default XDP_PASS r).
End xdp_main.
