(* ===== verification/TunnelProps.v ===== *)
(** * Tunnels: the properties

    What one node's encapsulation puts on the wire, the peer's decapsulation
    gives back: GTP-U, VXLAN, MAC-in-SRv6.  The two ends are configured
    independently: each end has its own maps. *)

From S2P Require Import Prelude.
From S2P Require Import Contract.
From S2P Require Import Bpf.
From S2P Require Import Frames.
From S2P Require Import KernelRef.
From S2P Require Import Maps.
From S2P Require Import L2.
From S2P Require Import Encap.
From S2P Require Import Xdp.
From S2P Require Import FrameRun.
From S2P Require Import Bfd.
From S2P Require Import XdpTunnel.
From S2P Require Import XdpEvpn.
From S2P Require Import XdpSrv6.
From S2P Require Import XdpReplace.
From S2P Require Import XdpMain.

(** ** GTP-U over IPv4 *)

(** The frame on the wire. *)
Definition gtp_wire (dmac smac src dst teid inner : bytes) : bytes :=
  let n := Z.of_nat (length inner) in
  dmac ++ smac ++ to_be 2 ETH_P_IP ++ ip4_udp_header (n + 36) src dst
  ++ to_be 2 GTP_PORT ++ to_be 2 GTP_PORT ++ to_be 2 (n + 16) ++ [0; 0]
  ++ [0x30] ++ [0xFF] ++ to_be 2 n ++ teid ++ inner.

Lemma gtp_encap_run `{KernelLaws} `{FibMaps} `{TunnelMaps} `{L3Maps}
    nh_id nh enc dmac smac eth inner w :
  adjacency nh dmac smac → GTP_ENCAP !! nh_id = Some enc →
  length (ge_src enc) = 4%nat → length (ge_dst enc) = 4%nat → length (ge_teid enc) = 4%nat →
  pkt w = eth ++ inner → length eth = 14%nat → Z.of_nat (length inner) + 36 < 65536 →
  gtp_encap nh_id nh w = (w, Err tt) ∨
  ∃ w', gtp_encap nh_id nh w = (w', Ok (redirect_ret (nh_oif nh))) ∧
    pkt w' = gtp_wire dmac smac (ge_src enc) (ge_dst enc) (ge_teid enc) inner ∧
    sent w' = sent w ++ [Redirect (nh_oif nh)].
Proof.
  intros Hadj Henc Hs Hd Ht Hp He Hlen. unfold gtp_encap. rewrite Henc.
  rewrite (bind_ok (frame_len_run w)). cbv zeta.
  assert (Hin : wrap 16 (inner_length (Z.of_nat (length (pkt w)))) = Z.of_nat (length inner)).
  { rewrite Hp, length_app, He. unfold inner_length, wrap, ETH_HLEN. rewrite Z.mod_small; lia. }
  rewrite Hin.
  destruct (adjust_room_mac_run GTP_ENCAP_HDR_LEN 0 w eth inner) as [E|(room & Hr & E)]; [done..| |].
  { left. by rewrite (bind_err E). }
  right. rewrite (bind_ok E). unfold GTP_ENCAP_HDR_LEN in Hr.
  unfold wrap. rewrite !Z.mod_small by len.
  do 18 put. rewrite skipn_all2 by len. count.
  erewrite (l2_xmit_run _ _ _ _ eth); [|exact Hadj|cbn [pkt set_pkt set_stats]; rewrite <- !app_assoc; reflexivity|exact He].
  eexists. split; [done|]. split; [|done]. unfold gtp_wire, ip4_udp_header.
  cbn [pkt set_pkt set_sent]. rewrite <- !app_assoc. done.
Qed.

(** The inner frame a decapsulation exposes, with its metadata. *)
Definition exposed `{KernelLaws} `{TunnelMaps} (w w' : World) (act : Z) (frame : bytes) (magic vrf es : Z) : Prop :=
  pkt w' = frame ∧ sent w' = sent w ∧
  act = (if xdp_adjust_meta frame (-16) then XDP_PASS else XDP_DROP) ∧
  (act = XDP_PASS → xmeta w' = Some (mkCradleXdpMeta (magic .^ meta_cookie) vrf es)).

Lemma attach_meta_exposed `{KernelLaws} `{TunnelMaps} magic vrf es w0 w :
  sent w = sent w0 →
  ∃ w' act, attach_meta magic vrf es w = (w', Ok act) ∧ exposed w0 w' act (pkt w) magic vrf es.
Proof.
  intros Hs. destruct (attach_meta_run magic vrf es w) as (w' & E & Hp & Hs' & Hm).
  exists w', (if xdp_adjust_meta (pkt w) (-16) then XDP_PASS else XDP_DROP).
  split; [done|]. split; [done|]. split; [congruence|]. split; [done|].
  intros Ha. rewrite Hm. by destruct (xdp_adjust_meta _ _).
Qed.

Definition ip_version (inner : bytes) : option Z :=
  match inner with
  | x :: _ => if x ≫ 4 =? 4 then Some ETH_P_IP else if x ≫ 4 =? 6 then Some ETH_P_IPV6 else None
  | [] => None
  end.

Lemma gtp_decap_run `{KernelLaws} `{FibMaps} `{TunnelMaps} `{L2Maps} `{BfdMaps} iif pdr et dmac smac src dst teid inner w :
  pkt w = gtp_wire dmac smac src dst teid inner →
  length dmac = 6%nat → length smac = 6%nat → length src = 4%nat → length dst = 4%nat →
  length teid = 4%nat →
  GTP_PDR !! mkGtpPdrKey (ingress_vrf iif) dst teid = Some pdr → ip_version inner = Some et →
  ∃ w' act, try_udp4_xdp iif w = (w', Ok act) ∧
    exposed w w' act (dmac ++ smac ++ to_be 2 et ++ inner) XDP_META_MAGIC_GTP (pdr_vrf_id pdr) 0.
Proof.
  intros Hp Hdm Hsm Hs Hd Ht Hpdr Hv. unfold gtp_wire, ip4_udp_header in Hp.
  rewrite <- !app_assoc in Hp. cbn [app] in Hp.
  unfold try_udp4_xdp.
  xread Hp. tests. xread Hp. tests. xread Hp.
  rewrite of_to_be by done. tests. unfold try_gtp_xdp.
  xread Hp. tests. xread Hp. tests. xread Hp.
  rewrite of_to_be by done. tests. unfold gtp_header_len.
  rewrite bind_assoc. xread Hp. tests. rewrite bind_assoc. xread Hp.
  change (0x30 .& 0x07) with 0. tests. rewrite bind_ret. cbv beta iota zeta.
  xread Hp. xread Hp. rewrite Hpdr. unfold gtp_decap, ip_ethertype.
  rewrite bind_assoc.
  destruct inner as [|x inner]; [done|].
  xread Hp. rewrite bind_ret. cbn [ip_version] in Hv. rewrite Hv.
  rewrite (bind_ok (slide_eth_run (GTP_ENCAP_HDR_LEN - 8 + 8) et w (dmac ++ smac) (to_be 2 ETH_P_IP)
    (ip4_udp_header (Z.of_nat (length (x :: inner)) + 36) src dst ++ to_be 2 GTP_PORT ++ to_be 2 GTP_PORT
     ++ to_be 2 (Z.of_nat (length (x :: inner)) + 16) ++ [0; 0]
     ++ [0x30] ++ [0xFF] ++ to_be 2 (Z.of_nat (length (x :: inner))) ++ teid) (x :: inner)
    ltac:(rewrite Hp; unfold ip4_udp_header; by rewrite <- !app_assoc)
    ltac:(len) ltac:(len) ltac:(unfold ip4_udp_header; len) ltac:(len))).
  count.
  match goal with |- context [attach_meta _ _ _ ?W] =>
    destruct (attach_meta_exposed XDP_META_MAGIC_GTP (pdr_vrf_id pdr) 0 w W) as (w' & act & E & He) end; [done|].
  exists w', act. split; [done|]. by rewrite <- app_assoc in He.
Qed.

(** ** MAC-in-SRv6 *)

Definition srv6_l2_wire (dmac smac src sid inner : bytes) : bytes :=
  dmac ++ smac ++ to_be 2 ETH_P_IPV6 ++ to_be 4 IP6_VER_TC_FL
  ++ to_be 2 (Z.of_nat (length inner)) ++ [IPPROTO_ETHERNET] ++ [64] ++ src ++ sid ++ inner.

Lemma l2_srv6_encap_run `{KernelLaws} `{FibMaps} `{TunnelMaps} `{L3Maps}
    nh_id sid stat nh src dmac smac w :
  srv6_adjacency nh_id sid = Some (nh, dmac, smac) → SRV6_ENCAP_SRC = Some src →
  length dmac = 6%nat → length smac = 6%nat → length src = 16%nat → length sid = 16%nat →
  Z.of_nat (length (pkt w)) < 65536 →
  l2_srv6_encap sid nh_id stat w = (w, Err tt) ∨
  ∃ w', l2_srv6_encap sid nh_id stat w = (w', Ok (xdp_redirect_ret (nh_oif nh))) ∧
    pkt w' = srv6_l2_wire dmac smac src sid (pkt w) ∧ sent w' = sent w ++ [Redirect (nh_oif nh)].
Proof.
  intros Hadj Hsrc Hdm Hsm Hs Hd Hlen. unfold l2_srv6_encap. rewrite Hadj, Hsrc.
  rewrite (bind_ok (frame_len_run w)). cbv zeta.
  unfold wrap. rewrite Z.mod_small by lia.
  destruct (must_adjust_head_grow (ETH_HLEN + IP6_HDR_LEN) w) as [E|(room & Hr & E)]; [done| |].
  { left. by rewrite (bind_err E). }
  right. rewrite (bind_ok E). unfold ETH_HLEN, IP6_HDR_LEN in Hr.
  assert (Hp1 : pkt (set_pkt (room ++ pkt w) w) = [] ++ room ++ pkt w) by done.
  unfold write_macs. rewrite bind_assoc. do 9 xput. rewrite skipn_all2 by len. count.
  eexists. split; [done|]. split; [|done]. unfold srv6_l2_wire.
  cbn [pkt set_pkt set_sent set_stats]. cbn [app]. rewrite <- !app_assoc. done.
Qed.

(** ** VXLAN *)

Definition vxlan_part (sport vni : Z) (inner : bytes) : bytes :=
  to_be 2 sport ++ to_be 2 VXLAN_PORT ++ to_be 2 (Z.of_nat (length inner) + 16) ++ [0; 0]
  ++ to_be 4 0x08000000 ++ to_be 4 (wrap 32 (vni ≪ 8)) ++ inner.

Definition vxlan_wire (dmac smac src dst : bytes) (sport vni : Z) (inner : bytes) : bytes :=
  dmac ++ smac ++ to_be 2 ETH_P_IP ++ ip4_udp_header (Z.of_nat (length inner) + 36) src dst
  ++ vxlan_part sport vni inner.

Definition vxlan6_wire (dmac smac src dst : bytes) (sport vni : Z) (inner : bytes) : bytes :=
  dmac ++ smac ++ to_be 2 ETH_P_IPV6 ++ to_be 4 IP6_VER_TC_FL
  ++ to_be 2 (Z.of_nat (length inner) + 16) ++ [IPPROTO_UDP] ++ [64] ++ src ++ dst
  ++ vxlan_part sport vni inner.

Lemma xdp_ne_some n off w : 0 ≤ off → 0 ≤ n → off + n ≤ Z.of_nat (length (pkt w)) →
  ∃ v, xdp_ne n off w = (w, Ok v).
Proof.
  intros. eexists. apply xdp_ne_run. unfold rd. by rewrite bool_decide_true by lia.
Qed.

Lemma vxlan_sport_run w : (14 ≤ length (pkt w))%nat → ∃ sport, vxlan_sport w = (w, Ok sport).
Proof.
  intros Hl. unfold vxlan_sport.
  destruct (xdp_ne_some 1 0 w) as [a E]; [lia..|]. rewrite (bind_ok E).
  destruct (xdp_ne_some 1 6 w) as [b E2]; [lia..|]. rewrite (bind_ok E2).
  destruct (xdp_ne_some 1 5 w) as [c E3]; [lia..|]. rewrite (bind_ok E3).
  destruct (xdp_ne_some 1 11 w) as [d E4]; [lia..|]. rewrite (bind_ok E4). by eexists.
Qed.

Lemma l2_vxlan_encap_run `{KernelLaws} `{FibMaps} `{TunnelMaps} `{L3Maps}
    nh_id vtep vni stat nh src dmac smac w :
  let addr := [0; 0; 0; 0; 0; 0; 0; 0; 0; 0; 0xff; 0xff] ++ vtep in
  overlay_adjacency nh_id addr = Some (nh, dmac, smac) → VXLAN_SRC = Some src → src ≠ [0; 0; 0; 0] →
  length dmac = 6%nat → length smac = 6%nat → length src = 4%nat → length vtep = 4%nat →
  (14 ≤ length (pkt w))%nat → Z.of_nat (length (pkt w)) + 36 < 65536 →
  l2_vxlan_encap addr nh_id vni stat w = (w, Err tt) ∨
  ∃ w' sport, l2_vxlan_encap addr nh_id vni stat w = (w', Ok (xdp_redirect_ret (nh_oif nh))) ∧
    pkt w' = vxlan_wire dmac smac src vtep sport vni (pkt w) ∧ sent w' = sent w ++ [Redirect (nh_oif nh)].
Proof.
  intros addr Hadj Hsrc Hs0 Hdm Hsm Hs Hd H14 Hlen. unfold l2_vxlan_encap.
  change (is_v4_mapped addr) with true. cbn [negb]. rewrite Hadj, Hsrc, bool_decide_false by done.
  change (drop 12 addr) with vtep.
  destruct (vxlan_sport_run w H14) as [sport Esp]. rewrite (bind_ok Esp).
  rewrite (bind_ok (frame_len_run w)). cbv zeta.
  assert (wrap 16 (Z.of_nat (length (pkt w))) = Z.of_nat (length (pkt w))) as ->
    by (apply Z.mod_small; lia).
  change (VXLAN_ENCAP_HDR_LEN - ETH_HLEN) with 36.
  destruct (must_adjust_head_grow VXLAN_ENCAP_HDR_LEN w) as [E|(room & Hr & E)]; [done| |].
  { left. by rewrite (bind_err E). }
  right. rewrite (bind_ok E). unfold VXLAN_ENCAP_HDR_LEN in Hr.
  assert (Hp1 : pkt (set_pkt (room ++ pkt w) w) = [] ++ room ++ pkt w) by done.
  unfold write_macs. rewrite bind_assoc. do 13 xput. unfold write_vxlan. rewrite !bind_assoc.
  do 5 (xput; rewrite ?bind_assoc). xput. rewrite skipn_all2 by len. count.
  eexists _, sport. split; [done|]. split; [|done]. unfold vxlan_wire, vxlan_part, ip4_udp_header.
  cbn [pkt set_pkt set_sent set_stats]. unfold wrap. rewrite !(Z.mod_small _ (2 ^ 16)) by lia.
  rewrite <- !app_assoc. done.
Qed.

Lemma l2_vxlan6_encap_run `{KernelLaws} `{FibMaps} `{TunnelMaps} `{L3Maps}
    nh_id vtep vni stat nh src dmac smac w :
  is_v4_mapped vtep = false → overlay_adjacency nh_id vtep = Some (nh, dmac, smac) →
  VXLAN_SRC6 = Some src → src ≠ replicate 16 0 →
  length dmac = 6%nat → length smac = 6%nat → length src = 16%nat → length vtep = 16%nat →
  (14 ≤ length (pkt w))%nat → Z.of_nat (length (pkt w)) + 16 < 65536 →
  l2_vxlan_encap vtep nh_id vni stat w = (w, Err tt) ∨
  ∃ w' sport, l2_vxlan_encap vtep nh_id vni stat w = (w', Ok (xdp_redirect_ret (nh_oif nh))) ∧
    pkt w' = vxlan6_wire dmac smac src vtep sport vni (pkt w) ∧ sent w' = sent w ++ [Redirect (nh_oif nh)].
Proof.
  intros H4 Hadj Hsrc Hs0 Hdm Hsm Hs Hd H14 Hlen. unfold l2_vxlan_encap. rewrite H4. cbn [negb].
  unfold l2_vxlan6_encap. rewrite Hadj, Hsrc, bool_decide_false by done.
  destruct (vxlan_sport_run w H14) as [sport Esp]. rewrite (bind_ok Esp).
  rewrite (bind_ok (frame_len_run w)). cbv zeta.
  assert (wrap 16 (Z.of_nat (length (pkt w))) = Z.of_nat (length (pkt w))) as ->
    by (apply Z.mod_small; lia).
  destruct (must_adjust_head_grow VXLAN6_ENCAP_HDR_LEN w) as [E|(room & Hr & E)]; [done| |].
  { left. by rewrite (bind_err E). }
  right. rewrite (bind_ok E). unfold VXLAN6_ENCAP_HDR_LEN in Hr.
  assert (Hp1 : pkt (set_pkt (room ++ pkt w) w) = [] ++ room ++ pkt w) by done.
  unfold write_macs. rewrite bind_assoc. do 9 xput. unfold write_vxlan. rewrite !bind_assoc.
  do 5 (xput; rewrite ?bind_assoc). xput. rewrite skipn_all2 by len. count.
  eexists _, sport. split; [done|]. split; [|done]. unfold vxlan6_wire, vxlan_part.
  cbn [pkt set_pkt set_sent set_stats]. unfold wrap. rewrite !(Z.mod_small _ (2 ^ 16)) by lia.
  rewrite <- !app_assoc. done.
Qed.

(** What an L2 or a whole-port E-Line VNI binds a frame to. *)
Definition vni_binding (info : VniInfo) (es : Z) : Z * Z * Z :=
  if has (vi_flags info) VNI_F_ELINE then (XDP_META_MAGIC_DX2, vi_vrf_id info, 0)
  else if has (vi_flags info) VNI_F_L3 then (XDP_META_MAGIC, vi_vrf_id info, 0)
  else (XDP_META_MAGIC_L2, vi_vlan info, es).

Lemma vxlan_decap_run `{KernelLaws} `{TunnelMaps} `{L2Maps} vx hdr es_of es_bits sport vni info outer inner w :
  pkt w = outer ++ vxlan_part sport vni inner → 0 ≤ vni < 2 ^ 24 → (14 ≤ length inner)%nat →
  vx = Z.of_nat (length outer) + 8 → hdr = Z.of_nat (length outer) + 16 →
  VNI_INFO !! vni = Some info → has (vi_flags info) VNI_F_ELINE_VLAN = false →
  (has (vi_flags info) VNI_F_ELINE = true → vi_vrf_id info ≠ 0) →
  es_of (vi_vlan info) w = (w, Ok es_bits) →
  ∃ w' act, vxlan_decap vx hdr es_of w = (w', Ok act) ∧
    exposed w w' act inner (vni_binding info es_bits).1.1 (vni_binding info es_bits).1.2 (vni_binding info es_bits).2.
Proof.
  intros Hp Hvni Hi Hvx Hhdr Hinfo Hvlan Hel Hes. unfold vxlan_part in Hp.
  cbn [app] in Hp. unfold vxlan_decap.
  assert (Ho : Z.of_nat (length outer) = vx - 8) by lia. subst hdr.
  change (to_be 4 134217728) with [8; 0; 0; 0] in Hp. cbn [app] in Hp.
  xread Hp. change (has 8 8) with true. cbn [negb]. xread Hp.
  rewrite of_to_be by (apply Z.mod_pos_bound; lia).
  assert (wrap 32 (vni ≪ 8) ≫ 8 = vni) as ->.
  { unfold wrap. rewrite shl_mul, shr_div by lia. rewrite Z.mod_small by lia. apply Z.div_mul. lia. }
  rewrite Hinfo.
  assert (vni_target info (Z.of_nat (length outer) + 16) w = (w, Ok (Some ((vni_binding info es_bits).1.1,
    (vni_binding info es_bits).1.2, if has (vi_flags info) VNI_F_ELINE then STAT_VXLAN_DX2 else STAT_VXLAN_DECAP)))) as Et.
  { unfold vni_target, vni_binding. destruct (has (vi_flags info) VNI_F_ELINE) eqn:Ee.
    - rewrite Hvlan. unfold eline_ac. rewrite !bind_run. cbn.
      by rewrite (proj2 (Z.eqb_neq _ 0)) by (by apply Hel).
    - by destruct (has (vi_flags info) VNI_F_L3). }
  rewrite (bind_ok Et). cbv iota beta.
  assert ((if (vni_binding info es_bits).1.1 =? XDP_META_MAGIC_L2 then es_of (vni_binding info es_bits).1.2
           else mret 0 : Prog Z) w = (w, Ok (vni_binding info es_bits).2)) as Eb.
  { unfold vni_binding in *. destruct (has _ VNI_F_ELINE); [done|]. by destruct (has _ VNI_F_L3). }
  rewrite (bind_ok Eb).
  rewrite (bind_ok (must_adjust_head_trim (Z.of_nat (length outer) + 16) w
    (outer ++ to_be 2 sport ++ to_be 2 VXLAN_PORT ++ to_be 2 (Z.of_nat (length inner) + 16)
     ++ [0; 0] ++ [8; 0; 0; 0] ++ to_be 4 (wrap 32 (vni ≪ 8))) inner
    ltac:(rewrite Hp; by rewrite <- !app_assoc) ltac:(len) Hi)).
  count.
  match goal with |- context [attach_meta ?m ?v ?e ?W] =>
    destruct (attach_meta_exposed m v e w W) as (w' & act & E & He) end; [done|].
  by exists w', act.
Qed.

Lemma try_vxlan_run `{KernelLaws} `{FibMaps} `{TunnelMaps} `{L2Maps} `{BfdMaps} iif dmac smac src dst sport vni info inner w :
  pkt w = vxlan_wire dmac smac src dst sport vni inner →
  length dmac = 6%nat → length smac = 6%nat → length src = 4%nat → length dst = 4%nat →
  VXLAN_SRC = Some dst → dst ≠ [0; 0; 0; 0] → 0 ≤ vni < 2 ^ 24 → (14 ≤ length inner)%nat →
  VNI_INFO !! vni = Some info → has (vi_flags info) VNI_F_ELINE_VLAN = false →
  (has (vi_flags info) VNI_F_ELINE = true → vi_vrf_id info ≠ 0) →
  let b := vni_binding info (vtep4_es_bits src (vi_vlan info)) in
  ∃ w' act, try_udp4_xdp iif w = (w', Ok act) ∧ exposed w w' act inner b.1.1 b.1.2 b.2.
Proof.
  intros Hp0 Hdm Hsm Hs Hd Hsrc Hd0 Hvni Hi Hinfo Hvlan Hel b.
  pose proof Hp0 as Hp. unfold vxlan_wire, ip4_udp_header, vxlan_part in Hp.
  rewrite <- !app_assoc in Hp. cbn [app] in Hp.
  unfold try_udp4_xdp. xread Hp. tests. xread Hp. tests. xread Hp.
  rewrite of_to_be by done. tests. unfold try_vxlan_xdp.
  rewrite Hsrc, bool_decide_false by done. xread Hp. rewrite bool_decide_true by done. cbn [negb].
  apply (vxlan_decap_run _ _ _ _ sport vni info (dmac ++ smac ++ to_be 2 ETH_P_IP
    ++ ip4_udp_header (Z.of_nat (length inner) + 36) src dst)); try done.
  - rewrite Hp0. unfold vxlan_wire. by rewrite <- !app_assoc.
  - unfold ip4_udp_header. len.
  - unfold ip4_udp_header. len.
  - xread Hp. done.
Qed.

Lemma try_vxlan6_run `{KernelLaws} `{FibMaps} `{TunnelMaps} `{L3Maps} `{L2Maps} `{BfdMaps} iif dmac smac src dst sport vni info inner w :
  pkt w = vxlan6_wire dmac smac src dst sport vni inner →
  length dmac = 6%nat → length smac = 6%nat → length src = 16%nat → length dst = 16%nat →
  VXLAN_SRC6 = Some dst → dst ≠ replicate 16 0 → 0 ≤ vni < 2 ^ 24 → (14 ≤ length inner)%nat →
  VNI_INFO !! vni = Some info → has (vi_flags info) VNI_F_ELINE_VLAN = false →
  (has (vi_flags info) VNI_F_ELINE = true → vi_vrf_id info ≠ 0) →
  let b := vni_binding info (vtep6_vxlan_bits src (vi_vlan info)) in
  ∃ w' act, try_ip6_xdp iif w = (w', Ok act) ∧ exposed w w' act inner b.1.1 b.1.2 b.2.
Proof.
  intros Hp0 Hdm Hsm Hs Hd Hsrc Hd0 Hvni Hi Hinfo Hvlan Hel b.
  pose proof Hp0 as Hp. unfold vxlan6_wire, vxlan_part in Hp. cbn [app] in Hp.
  unfold try_ip6_xdp, try_bfd6. rewrite bind_assoc. xread Hp. tests. rewrite bind_assoc. xread Hp.
  rewrite of_to_be by done. tests. rewrite bind_ret. xread Hp. tests. xread Hp.
  rewrite of_to_be by done. tests. unfold try_vxlan6_xdp.
  rewrite Hsrc, bool_decide_false by done. xread Hp. rewrite bool_decide_true by done. cbn [negb].
  apply (vxlan_decap_run _ _ _ _ sport vni info (dmac ++ smac ++ to_be 2 ETH_P_IPV6 ++ to_be 4 IP6_VER_TC_FL
  ++ to_be 2 (Z.of_nat (length inner) + 16) ++ [IPPROTO_UDP] ++ [64] ++ src ++ dst)); try done.
  - rewrite Hp0. unfold vxlan6_wire. by rewrite <- !app_assoc.
  - len.
  - len.
  - xread Hp. done.
Qed.

(** ** The properties *)

(** C18: a GTP-U tunnel gives back the packet it carried.  The sender either
    finds no room and leaves the frame alone, or redirects to the nexthop's
    port a frame whose outer IPv4 header has a valid checksum; whatever
    node holds the PDR for that endpoint and TEID exposes exactly the inner
    packet, IPv4 or IPv6, behind a fresh Ethernet header, tagged as
    GTP-decapsulated and bound to the PDR's VRF. *)
Theorem gtp_tunnel_roundtrip `{KernelLaws}
    (F1 : FibMaps) (T1 : TunnelMaps) (L1 : L3Maps)
    (F2 : FibMaps) (T2 : TunnelMaps) (L2 : L2Maps) (B2 : BfdMaps)
    nh_id nh enc dmac smac eth inner et w :
  @adjacency F1 L1 nh dmac smac → @GTP_ENCAP T1 !! nh_id = Some enc →
  length (ge_src enc) = 4%nat → length (ge_dst enc) = 4%nat → length (ge_teid enc) = 4%nat →
  Forall is_byte (ge_src enc) → Forall is_byte (ge_dst enc) →
  pkt w = eth ++ inner → length eth = 14%nat → Z.of_nat (length inner) + 36 < 65536 →
  ip_version inner = Some et →
  let run := @gtp_encap _ F1 T1 L1 nh_id nh w in
  run = (w, Err tt) ∨
  run.2 = Ok (redirect_ret (nh_oif nh)) ∧ sent run.1 = sent w ++ [Redirect (nh_oif nh)] ∧
  (∃ hdr, rd (pkt run.1) 14 20 = Some hdr ∧ csum_valid hdr) ∧
  ∀ iif pdr w2, pkt w2 = pkt run.1 →
    @GTP_PDR T2 !! mkGtpPdrKey (@ingress_vrf F2 iif) (ge_dst enc) (ge_teid enc) = Some pdr →
    ∃ w3 act, @try_udp4_xdp _ F2 T2 L2 B2 iif w2 = (w3, Ok act) ∧
      @exposed _ _ T2 w2 w3 act (dmac ++ smac ++ to_be 2 et ++ inner) XDP_META_MAGIC_GTP (pdr_vrf_id pdr) 0.
Proof.
  intros Hadj Henc Hs Hd Ht Hbs Hbd Hp He Hlen Hv run. unfold run. pose proof Hadj as [_ Hdm Hsm].
  destruct (@gtp_encap_run _ _ F1 T1 L1 nh_id nh enc dmac smac eth inner w) as [E|(w' & E & Hp' & Hs')]; [done..|by left|right].
  rewrite E. cbn [fst snd]. split; [done|]. split; [done|]. split.
  - exists (ip4_udp_header (Z.of_nat (length inner) + 36) (ge_src enc) (ge_dst enc)).
    pose proof (ip4_udp_header_length (Z.of_nat (length inner) + 36) _ _ Hs Hd).
    split; [rewrite Hp'; unfold gtp_wire; rd_solve|].
    apply ip4_udp_header_valid; try done. unfold in_range. lia.
  - intros iif pdr w2 Hp2 Hpdr. rewrite Hp' in Hp2. by eapply gtp_decap_run.
Qed.

(** C19: a VXLAN tunnel gives back the Ethernet frame it carried, whole.  The
    frame that leaves has a valid outer IPv4 checksum (IPv4 underlay), and the
    VTEP it is sent to, whatever else it is configured with, exposes exactly
    the sender's frame: into the VNI's bridge domain, with the split-horizon
    bits of the sender's address; into the L3VNI's VRF; or out of the
    E-Line's attachment circuit. *)
Theorem vxlan_tunnel_roundtrip `{KernelLaws}
    (F1 : FibMaps) (T1 : TunnelMaps) (L1 : L3Maps)
    (F2 : FibMaps) (T2 : TunnelMaps) (L2 : L3Maps) (M2 : L2Maps) (B2 : BfdMaps)
    (v6 : bool) addr src vtep nh_id vni stat nh dmac smac info w :
  (if v6 then addr = vtep ∧ is_v4_mapped vtep = false ∧ length vtep = 16%nat ∧ length src = 16%nat ∧
     @VXLAN_SRC6 T1 = Some src ∧ @VXLAN_SRC6 T2 = Some vtep ∧ src ≠ replicate 16 0 ∧ vtep ≠ replicate 16 0
   else addr = [0; 0; 0; 0; 0; 0; 0; 0; 0; 0; 0xff; 0xff] ++ vtep ∧ length vtep = 4%nat ∧ length src = 4%nat ∧
     @VXLAN_SRC T1 = Some src ∧ @VXLAN_SRC T2 = Some vtep ∧ src ≠ [0; 0; 0; 0] ∧ vtep ≠ [0; 0; 0; 0]) →
  Forall is_byte src → Forall is_byte vtep →
  @overlay_adjacency _ F1 L1 nh_id addr = Some (nh, dmac, smac) →
  length dmac = 6%nat → length smac = 6%nat →
  (14 ≤ length (pkt w))%nat → Z.of_nat (length (pkt w)) + 36 < 65536 → 0 ≤ vni < 2 ^ 24 →
  @VNI_INFO T2 !! vni = Some info → has (vi_flags info) VNI_F_ELINE_VLAN = false →
  (has (vi_flags info) VNI_F_ELINE = true → vi_vrf_id info ≠ 0) →
  let run := @l2_vxlan_encap _ F1 T1 L1 addr nh_id vni stat w in
  let es := if v6 then @vtep6_vxlan_bits M2 src (vi_vlan info) else @vtep4_es_bits M2 src (vi_vlan info) in
  run = (w, Err tt) ∨
  run.2 = Ok (xdp_redirect_ret (nh_oif nh)) ∧ sent run.1 = sent w ++ [Redirect (nh_oif nh)] ∧
  (v6 = false → ∃ hdr, rd (pkt run.1) 14 20 = Some hdr ∧ csum_valid hdr) ∧
  ∀ iif w2, pkt w2 = pkt run.1 →
    ∃ w3 act, (if v6 then @try_ip6_xdp _ F2 T2 L2 M2 B2 iif else @try_udp4_xdp _ F2 T2 M2 B2 iif) w2 = (w3, Ok act) ∧
      let b := vni_binding info es in @exposed _ _ T2 w2 w3 act (pkt w) b.1.1 b.1.2 b.2.
Proof.
  intros Hv Hbs Hbd Hadj Hdm Hsm H14 Hlen Hvni Hinfo Hvlan Hel run es. unfold run, es. destruct v6.
  - destruct Hv as (-> & H4 & Hd & Hs & Hs1 & Hs2 & Hs0 & Hd0).
    destruct (@l2_vxlan6_encap_run _ _ F1 T1 L1 nh_id vtep vni stat nh src dmac smac w)
      as [E|(w' & sport & E & Hp' & Hs')]; [done..|lia|by left|right].
    rewrite E. cbn [fst snd]. split; [done|]. split; [done|]. split; [done|].
    intros iif w2 Hp2. rewrite Hp' in Hp2. by eapply (@try_vxlan6_run _ _ F2 T2 L2 M2 B2).
  - destruct Hv as (-> & Hd & Hs & Hs1 & Hs2 & Hs0 & Hd0).
    destruct (@l2_vxlan_encap_run _ _ F1 T1 L1 nh_id vtep vni stat nh src dmac smac w)
      as [E|(w' & sport & E & Hp' & Hs')]; [done..|by left|right].
    rewrite E. cbn [fst snd]. split; [done|]. split; [done|]. split.
    + intros _. exists (ip4_udp_header (Z.of_nat (length (pkt w)) + 36) src vtep).
      pose proof (ip4_udp_header_length (Z.of_nat (length (pkt w)) + 36) _ _ Hs Hd).
      split; [rewrite Hp'; unfold vxlan_wire; rd_solve|].
      apply ip4_udp_header_valid; try done. unfold in_range. lia.
    + intros iif w2 Hp2. rewrite Hp' in Hp2. by eapply (@try_vxlan_run _ _ F2 T2 M2 B2).
Qed.

Lemma srv6_dt2u_run `{KernelLaws} `{FibMaps} `{TunnelMaps} `{L3Maps} `{L2Maps} `{BfdMaps} iif dmac smac src sid inner ls w :
  pkt w = srv6_l2_wire dmac smac src sid inner →
  length dmac = 6%nat → length smac = 6%nat → length src = 16%nat → length sid = 16%nat →
  (14 ≤ length inner)%nat → lpm_get SRV6_LOCALSID sid = Some ls →
  ls_behavior ls = SRV6_BH_END_DT2U ∨ ls_behavior ls = SRV6_BH_END_DT2M → ls_arg_bits ls = 0 →
  ∃ w' act, try_ip6_xdp iif w = (w', Ok act) ∧
    exposed w w' act inner XDP_META_MAGIC_L2 (ls_vrf_id ls) (vtep6_es_bits src).
Proof.
  intros Hp Hdm Hsm Hs Hd Hi Hls Hb Harg. unfold srv6_l2_wire in Hp. cbn [app] in Hp.
  unfold try_ip6_xdp, try_bfd6. rewrite bind_assoc. xread Hp. tests. rewrite bind_ret. xread Hp. tests.
  unfold try_srv6_xdp. xread Hp. rewrite Hls.
  assert (srv6_behavior ls = srv6_dt2u ls) as -> by (unfold srv6_behavior; by destruct Hb as [-> | ->]).
  unfold srv6_dt2u. xread Hp. tests. xread Hp. rewrite Harg, Z.eqb_refl, bind_ret. cbv beta iota zeta.
  rewrite Z.lor_0_r.
  rewrite (bind_ok (must_adjust_head_trim (ETH_HLEN + IP6_HDR_LEN) w
    (dmac ++ smac ++ to_be 2 ETH_P_IPV6 ++ to_be 4 IP6_VER_TC_FL
     ++ to_be 2 (Z.of_nat (length inner)) ++ [IPPROTO_ETHERNET] ++ [64] ++ src ++ sid) inner
    ltac:(rewrite Hp; by rewrite <- !app_assoc) ltac:(len) Hi)).
  count.
  match goal with |- context [attach_meta ?m ?v ?e ?W] =>
    destruct (attach_meta_exposed m v e w W) as (w' & act & E & He) end; [done|].
  by exists w', act.
Qed.

(** C20: MAC-in-SRv6 gives back the Ethernet frame it carried.  The frame
    reaches the node that owns the SID; its End.DT2U (or End.DT2M without an
    argument) exposes exactly the sender's frame, tagged with the SID's
    bridge domain and the split-horizon bits of the sender. *)
Theorem srv6_l2_roundtrip `{KernelLaws}
    (F1 : FibMaps) (T1 : TunnelMaps) (L1 : L3Maps)
    (F2 : FibMaps) (T2 : TunnelMaps) (L2 : L3Maps) (M2 : L2Maps) (B2 : BfdMaps)
    src sid nh_id stat nh dmac smac ls w :
  @srv6_adjacency _ F1 L1 nh_id sid = Some (nh, dmac, smac) → @SRV6_ENCAP_SRC T1 = Some src →
  length dmac = 6%nat → length smac = 6%nat → length src = 16%nat → length sid = 16%nat →
  (14 ≤ length (pkt w))%nat → Z.of_nat (length (pkt w)) < 65536 →
  lpm_get (@SRV6_LOCALSID T2) sid = Some ls →
  ls_behavior ls = SRV6_BH_END_DT2U ∨ ls_behavior ls = SRV6_BH_END_DT2M → ls_arg_bits ls = 0 →
  let run := @l2_srv6_encap _ F1 T1 L1 sid nh_id stat w in
  run = (w, Err tt) ∨
  run.2 = Ok (xdp_redirect_ret (nh_oif nh)) ∧ sent run.1 = sent w ++ [Redirect (nh_oif nh)] ∧
  ∀ iif w2, pkt w2 = pkt run.1 →
    ∃ w3 act, @try_ip6_xdp _ F2 T2 L2 M2 B2 iif w2 = (w3, Ok act) ∧
      @exposed _ _ T2 w2 w3 act (pkt w) XDP_META_MAGIC_L2 (ls_vrf_id ls) (@vtep6_es_bits M2 src).
Proof.
  intros Hadj Hsrc Hdm Hsm Hs Hd H14 Hlen Hls Hb Harg run. unfold run.
  destruct (@l2_srv6_encap_run _ _ F1 T1 L1 nh_id sid stat nh src dmac smac w)
    as [E|(w' & E & Hp' & Hs')]; [done..|by left|right].
  rewrite E. cbn [fst snd]. split; [done|]. split; [done|].
  intros iif w2 Hp2. rewrite Hp' in Hp2. by eapply (@srv6_dt2u_run _ _ F2 T2 L2 M2 B2).
Qed.

(** ** Two nodes *)

(** The sender leaves by port 2 to 10.0.0.254; it owns 10.0.0.1 and the
    encapsulation source fd00::1. *)
Definition ex_ip6 (a b : Z) : bytes := [0xfd; 0; 0; 0; 0; 0; 0; 0; 0; 0; 0; 0; 0; 0; a; b].

Definition ex_F1 : FibMaps :=
  mkFibMaps {[2 := mkPortConfig [2; 0; 0; 0; 0; 1] 0 PORT_F_L3 0]} ∅ ∅ ∅ ∅.
Definition ex_nh : NextHop := mkNextHop (of_be [10; 0; 0; 254]) (replicate 16 0) 2 0 [] 0 0.
Definition ex_L1 : L3Maps :=
  mkL3Maps (Dir24.new_tables 1) None {[5 := ex_nh]} ∅ ∅ ∅
    {[mkNeigh4Key 2 (of_be [10; 0; 0; 254]) := mkNeighEntry [2; 0; 0; 0; 0; 9] 1]} ∅ ∅.
Definition ex_enc : GtpEncap := mkGtpEncap [10; 0; 0; 1] [10; 0; 1; 1] [0; 0; 0; 7] 0.
Definition ex_T1 : TunnelMaps :=
  mkTunnelMaps ∅ ∅ (Some (ex_ip6 0 1)) {[5 := ex_enc]} ∅ ∅ ∅ ∅ ∅ (Some [10; 0; 0; 1]) None ∅ None.

(** The receiver: VRF 3 behind the GTP endpoint, VNI 100 in bridge domain 30,
    End.DT2U in bridge domain 30. *)
Definition ex_F2 : FibMaps := mkFibMaps ∅ ∅ ∅ ∅ ∅.
Definition ex_L2 : L3Maps := mkL3Maps (Dir24.new_tables 1) None ∅ ∅ ∅ ∅ ∅ ∅ ∅.
Definition ex_sid : LocalSid := mkLocalSid SRV6_BH_END_DT2U 0 30 0 32 16 0 0.
Definition ex_T2 : TunnelMaps :=
  mkTunnelMaps {[(128, ex_ip6 2 0x20) := ex_sid]} ∅ None ∅
    {[mkGtpPdrKey 0 [10; 0; 1; 1] [0; 0; 0; 7] := mkGtpPdr 3]} ∅ ∅ ∅
    {[100 := mkVniInfo 30 VNI_F_L2 0 []]} (Some [10; 0; 1; 1]) None ∅ (Some 77).
Definition ex_M2 : L2Maps := mkL2Maps ∅ ∅ ∅ ∅ ∅ ∅ ∅ ∅ ∅ ∅ ∅ ∅ ∅ ∅ ∅ ∅ ∅ ∅ ∅ ∅.
Definition ex_B2 : BfdMaps := mkBfdMaps ∅ ∅.

Definition ex_eth : bytes := [2; 0; 0; 0; 0; 8; 2; 0; 0; 0; 0; 7; 8; 0].
Definition ex_inner : bytes := 0x45 :: replicate 27 1.

Lemma gtp_tunnel_roundtrip_witness :
  let w := world_of (ex_eth ++ ex_inner) in
  let run := @gtp_encap _ ex_F1 ex_T1 ex_L1 5 ex_nh w in
  run.2 = Ok 7 ∧
  (run = (w, Err tt) ∨
   run.2 = Ok (redirect_ret 2) ∧ sent run.1 = sent w ++ [Redirect 2] ∧
   (∃ hdr, rd (pkt run.1) 14 20 = Some hdr ∧ csum_valid hdr) ∧
   ∀ iif pdr w2, pkt w2 = pkt run.1 →
     @GTP_PDR ex_T2 !! mkGtpPdrKey (@ingress_vrf ex_F2 iif) [10; 0; 1; 1] [0; 0; 0; 7] = Some pdr →
     ∃ w3 act, @try_udp4_xdp _ ex_F2 ex_T2 ex_M2 ex_B2 iif w2 = (w3, Ok act) ∧
       @exposed _ _ ex_T2 w2 w3 act ([2; 0; 0; 0; 0; 9] ++ [2; 0; 0; 0; 0; 1] ++ to_be 2 ETH_P_IP ++ ex_inner)
         XDP_META_MAGIC_GTP (pdr_vrf_id pdr) 0).
Proof.
  cbn zeta. split; [vm_compute; reflexivity|].
  apply (gtp_tunnel_roundtrip ex_F1 ex_T1 ex_L1 ex_F2 ex_T2 ex_M2 ex_B2 5 ex_nh ex_enc
    [2; 0; 0; 0; 0; 9] [2; 0; 0; 0; 0; 1] ex_eth ex_inner ETH_P_IP).
  - split; reflexivity.
  - reflexivity.
  - reflexivity.
  - reflexivity.
  - reflexivity.
  - unfold is_byte. repeat constructor; lia.
  - unfold is_byte. repeat constructor; lia.
  - reflexivity.
  - reflexivity.
  - reflexivity.
  - reflexivity.
Defined.

Lemma vxlan_tunnel_roundtrip_witness :
  let w := world_of (ex_eth ++ ex_inner) in
  let run := @l2_vxlan_encap _ ex_F1 ex_T1 ex_L1 ([0; 0; 0; 0; 0; 0; 0; 0; 0; 0; 0xff; 0xff] ++ [10; 0; 1; 1]) 5 100 0 w in
  run.2 = Ok 4 ∧
  (run = (w, Err tt) ∨
   run.2 = Ok (xdp_redirect_ret 2) ∧ sent run.1 = sent w ++ [Redirect 2] ∧
   (false = false → ∃ hdr, rd (pkt run.1) 14 20 = Some hdr ∧ csum_valid hdr) ∧
   ∀ iif w2, pkt w2 = pkt run.1 →
     ∃ w3 act, @try_udp4_xdp _ ex_F2 ex_T2 ex_M2 ex_B2 iif w2 = (w3, Ok act) ∧
       let b := vni_binding (mkVniInfo 30 VNI_F_L2 0 []) (@vtep4_es_bits ex_M2 [10; 0; 0; 1] 30) in
       @exposed _ _ ex_T2 w2 w3 act (pkt w) b.1.1 b.1.2 b.2).
Proof.
  cbn zeta. split; [vm_compute; reflexivity|].
  apply (vxlan_tunnel_roundtrip ex_F1 ex_T1 ex_L1 ex_F2 ex_T2 ex_L2 ex_M2 ex_B2 false
    ([0; 0; 0; 0; 0; 0; 0; 0; 0; 0; 0xff; 0xff] ++ [10; 0; 1; 1]) [10; 0; 0; 1] [10; 0; 1; 1] 5 100 0 ex_nh
    [2; 0; 0; 0; 0; 9] [2; 0; 0; 0; 0; 1] (mkVniInfo 30 VNI_F_L2 0 [])).
  - split_and!; done.
  - unfold is_byte. repeat constructor; lia.
  - unfold is_byte. repeat constructor; lia.
  - reflexivity.
  - reflexivity.
  - reflexivity.
  - cbn. lia.
  - cbn. lia.
  - lia.
  - reflexivity.
  - reflexivity.
  - intros E. vm_compute in E. discriminate.
Defined.

Lemma srv6_l2_roundtrip_witness :
  let w := world_of (ex_eth ++ ex_inner) in
  let run := @l2_srv6_encap _ ex_F1 ex_T1 ex_L1 (ex_ip6 2 0x20) 5 0 w in
  run.2 = Ok 4 ∧
  (run = (w, Err tt) ∨
   run.2 = Ok (xdp_redirect_ret 2) ∧ sent run.1 = sent w ++ [Redirect 2] ∧
   ∀ iif w2, pkt w2 = pkt run.1 →
     ∃ w3 act, @try_ip6_xdp _ ex_F2 ex_T2 ex_L2 ex_M2 ex_B2 iif w2 = (w3, Ok act) ∧
       @exposed _ _ ex_T2 w2 w3 act (pkt w) XDP_META_MAGIC_L2 30 (@vtep6_es_bits ex_M2 (ex_ip6 0 1))).
Proof.
  cbn zeta. split; [vm_compute; reflexivity|].
  apply (srv6_l2_roundtrip ex_F1 ex_T1 ex_L1 ex_F2 ex_T2 ex_L2 ex_M2 ex_B2
    (ex_ip6 0 1) (ex_ip6 2 0x20) 5 0 ex_nh [2; 0; 0; 0; 0; 9] [2; 0; 0; 0; 0; 1] ex_sid).
  - reflexivity.
  - reflexivity.
  - reflexivity.
  - reflexivity.
  - reflexivity.
  - reflexivity.
  - cbn. lia.
  - reflexivity.
  - vm_compute. reflexivity.
  - by left.
  - reflexivity.
Defined.
