(* ===== verification/MplsProps.v ===== *)
(** * MPLS: the properties

    A label stack that is pushed, the first labels of a nexthop's array, is
    popped again, label by label, by the XDP
    stage; under the uniform model the label TTL comes back into the IP
    header with a valid checksum.  An EVPN frame carried over MPLS arrives
    whole. *)

From S2P Require Import Prelude.
From S2P Require Import Contract.
From S2P Require Import Common.
From S2P Require Import Bpf.
From S2P Require Import Frames.
From S2P Require Import KernelRef.
From S2P Require Import Maps.
From S2P Require Import Encap.
From S2P Require Import Xdp.
From S2P Require Import FrameRun.
From S2P Require Import XdpEvpn.
From S2P Require Import TunnelProps.

(** ** Label stacks *)

Definition lse_bytes (label s ttl : Z) : bytes := to_be 4 (mpls_lse label 0 s ttl).

(** A stack, outermost label first; [s] is the bottom-of-stack bit of the
    last entry. *)
Fixpoint label_stack (labels : list Z) (s ttl : Z) : bytes :=
  match labels with
  | [] => []
  | [l] => lse_bytes l s ttl
  | l :: labels => lse_bytes l 0 ttl ++ label_stack labels s ttl
  end.

Lemma label_stack_length labels s ttl : length (label_stack labels s ttl) = (4 * length labels)%nat.
Proof.
  induction labels as [|l labels IH]; [done|]. destruct labels as [|l2 labels]; [done|].
  change (label_stack (l :: l2 :: labels) s ttl) with (lse_bytes l 0 ttl ++ label_stack (l2 :: labels) s ttl).
  rewrite length_app, IH. unfold lse_bytes. rewrite to_be_length. cbn. lia.
Qed.

Lemma lse_bytes_unpack label s ttl : u8 ttl → 0 ≤ s < 2 →
  mpls_lse_unpack (of_be (lse_bytes label s ttl)) = (label mod 2 ^ 20, 0, s, ttl).
Proof.
  intros Ht Hs. unfold lse_bytes. rewrite of_to_be by (by apply mpls_lse_range).
  rewrite mpls_lse_unpack_pack by done. by rewrite (Z.mod_small s) by lia.
Qed.

(** A label as the 20 bits on the wire. *)
Definition is_label (l : Z) : Prop := in_range 20 l.

(** ** The TTL of the packet below the stack *)

(** The IP packet with its TTL (hop limit) set to [ttl] and, for IPv4, the
    header checksum updated. *)
Definition with_ttl (et ttl : Z) (p : bytes) : bytes :=
  if et =? ETH_P_IP then
    match drop 8 p with
    | t :: pr :: c0 :: c1 :: rest =>
        if t =? ttl then p else
        take 8 p ++ [ttl; pr] ++ to_be 2 (csum16_update (of_be [c0; c1]) (256 * t + pr) (256 * ttl + pr)) ++ rest
    | _ => p
    end
  else take 7 p ++ [ttl] ++ drop 8 p.

(** An IPv4 packet without link header, IPv6 likewise. *)
Definition is_ip_packet (et : Z) (p : bytes) : Prop :=
  ip_version p = Some et ∧ Forall is_byte p ∧ (20 ≤ length p)%nat.

Section mpls.
Context `{KernelLaws} `{FibMaps} `{TunnelMaps} `{L3Maps} `{L2Maps}.

Lemma mpls_uniform_run et ttl macs p w : is_ip_packet et p → length macs = 12%nat → u8 ttl →
  pkt w = macs ++ to_be 2 et ++ p →
  mpls_uniform_to_ip et ttl w = (set_pkt (macs ++ to_be 2 et ++ with_ttl et ttl p) w, Ok tt).
Proof.
  intros (Hv & Hb & Hl) Hm Ht Hp. unfold mpls_uniform_to_ip, with_ttl.
  assert (et = ETH_P_IP ∨ et = ETH_P_IPV6) as [-> | ->].
  { unfold ip_version in Hv. destruct p as [|x p]; [done|].
    destruct (x ≫ 4 =? 4); [|destruct (x ≫ 4 =? 6); [|done]]; injection Hv as <-; tauto. }
  - rewrite Z.eqb_refl. set (a := take 8 p).
    assert (length a = 8%nat) as Ha by (unfold a; rewrite length_take_le; lia).
    destruct (drop 8 p) as [|t [|pr [|c0 [|c1 rest]]]] eqn:Ed;
      try (apply (f_equal length) in Ed; rewrite length_drop in Ed; cbn in Ed; lia).
    assert (Hpa : p = a ++ t :: pr :: c0 :: c1 :: rest) by (unfold a; rewrite <- Ed; by rewrite take_drop).
    rewrite Hpa in Hb. apply Forall_app in Hb as [_ Hb]. rewrite !Forall_cons in Hb.
    destruct Hb as (Hbt & Hbpr & Hb0 & Hb1 & _). unfold is_byte, in_range in *.
    erewrite bind_ok by (apply (xdp_be_mid (macs ++ to_be 2 ETH_P_IP ++ a) [t; pr] (c0 :: c1 :: rest));
      [rewrite Hp, Hpa, <- !app_assoc; done|len|done]).
    assert (of_be [t; pr] = 256 * t + pr) as Hold by (unfold of_be, of_le; cbn; lia). rewrite Hold.
    assert (((256 * t + pr) .& 0x00ff) .| (ttl ≪ 8) = 256 * ttl + pr) as ->.
    { change 0x00ff with (2 ^ 8 - 1). rewrite land_ones', shl_mul, Z.lor_comm, lor_add by (try divlia; lia).
      divlia. }
    replace (256 * ttl + pr =? 256 * t + pr) with (t =? ttl) by lia.
    destruct (Z.eqb_spec t ttl) as [->|Hne].
    { by rewrite <- Hp, set_pkt_id. }
    erewrite bind_ok by (apply (xdp_be_mid (macs ++ to_be 2 ETH_P_IP ++ a ++ [t; pr]) [c0; c1] rest);
      [rewrite Hp, Hpa, <- !app_assoc; done|len|done]).
    erewrite bind_ok by (apply (xdp_wr_mid (macs ++ to_be 2 ETH_P_IP ++ a) [t; pr] (c0 :: c1 :: rest));
      [rewrite Hp, Hpa, <- !app_assoc; done|len|done]).
    rewrite (xdp_wr_mid (macs ++ to_be 2 ETH_P_IP ++ a ++ to_be 2 (256 * ttl + pr)) [c0; c1] rest);
      [|cbn [pkt set_pkt]; rewrite <- !app_assoc; done|len|done].
    rewrite set_pkt_pkt. do 2 f_equal. rewrite <- !app_assoc. do 3 f_equal.
    change (to_be 2 (256 * ttl + pr)) with [((256 * ttl + pr) / 256) mod 256; (256 * ttl + pr) mod 256].
    cbn [app]. repeat f_equal; divlia.
  - change (ETH_P_IPV6 =? ETH_P_IP) with false. rewrite Z.eqb_refl.
    assert (length (take 7 p) = 7%nat) by (rewrite length_take_le; lia).
    assert (length (take 1 (drop 7 p)) = 1%nat) as Hone by (rewrite length_take_le; rewrite ?length_drop; lia).
    rewrite (xdp_wr_mid (macs ++ to_be 2 ETH_P_IPV6 ++ take 7 p) (take 1 (drop 7 p)) (drop 8 p)).
    + by rewrite <- !app_assoc.
    + rewrite Hp, <- !app_assoc. do 2 f_equal.
      rewrite <- (take_drop 7 p) at 1. f_equal. rewrite <- (take_drop 1 (drop 7 p)) at 1. f_equal.
      by rewrite drop_drop.
    + len.
    + by rewrite Hone.
Qed.

(** ** Writing and reading a stack *)

(** A primitive that writes at the end of what is already written. *)
Definition writer (wr1 : Z → bytes → Prog unit) : Prop := ∀ w d room rest b,
  pkt w = d ++ room ++ rest → (length b ≤ length room)%nat → b ≠ [] →
  wr1 (Z.of_nat (length d)) b w = (set_pkt ((d ++ b) ++ drop (length b) room ++ rest) w, Ok tt).

Lemma store_writer : writer store.
Proof. intros w d room rest b ???. by apply store_next. Qed.
Lemma xdp_wr_writer : writer xdp_wr.
Proof. intros w d room rest b ???. by apply xdp_wr_next. Qed.

Lemma label_stack_cons l labels s ttl : label_stack (l :: labels) s ttl =
  lse_bytes l (if bool_decide (labels = []) then s else 0) ttl ++ label_stack labels s ttl.
Proof. destruct labels; [by rewrite app_nil_r|done]. Qed.

Lemma labels_write wr1 fuel labels i n s_last ttl w d room rest : writer wr1 →
  pkt w = d ++ room ++ rest → Z.of_nat (length d) = MPLS_LSE_OFF + 4 * i → 0 ≤ i ≤ n →
  n ≤ Z.of_nat (length labels) → (4 * Z.to_nat (n - i) ≤ length room)%nat → n - i ≤ Z.of_nat fuel →
  for_upto fuel i n (λ i, wr1 (MPLS_LSE_OFF + 4 * i)
      (to_be 4 (mpls_lse (label_at labels i) 0 (if i =? n - 1 then s_last else 0) ttl))) w =
    (set_pkt ((d ++ label_stack (take (Z.to_nat (n - i)) (drop (Z.to_nat i) labels)) s_last ttl)
              ++ drop (4 * Z.to_nat (n - i)) room ++ rest) w, Ok tt).
Proof.
  intros Hwr. revert i w d room. induction fuel as [|fuel IH]; intros i w d room Hp Hd Hi Hn Hr Hf.
  - replace (n - i) with 0 by lia. cbn [for_upto]. change (Z.to_nat 0) with 0%nat. cbn [take label_stack].
    by rewrite app_nil_r, Nat.mul_0_r, drop_0, <- Hp, set_pkt_id.
  - cbn [for_upto]. destruct (Z.leb_spec n i).
    { replace (n - i) with 0 by lia. change (Z.to_nat 0) with 0%nat. cbn [take label_stack].
      by rewrite app_nil_r, Nat.mul_0_r, drop_0, <- Hp, set_pkt_id. }
    rewrite <- Hd. set (b := to_be 4 _).
    assert (length b = 4%nat) as Hb by apply to_be_length.
    rewrite (bind_ok (Hwr w d room rest b Hp ltac:(lia) ltac:(by intros E; rewrite E in Hb))), Hb.
    rewrite (IH (i + 1) _ (d ++ b) (drop 4 room)); [|done|rewrite length_app, Hb; lia|lia|lia|rewrite length_drop; lia|lia].
    rewrite set_pkt_pkt. do 2 f_equal.
    destruct (lookup_lt_is_Some_2 labels (Z.to_nat i)) as [l Hl]; [lia|].
    replace (Z.to_nat (n - i)) with (S (Z.to_nat (n - (i + 1)))) by lia.
    rewrite (drop_S labels l (Z.to_nat i)) by done. cbn [take]. rewrite label_stack_cons.
    replace (Z.to_nat (i + 1)) with (S (Z.to_nat i)) by lia.
    assert (label_at labels i = l) as El by (unfold label_at; by rewrite Hl).
    unfold b. rewrite El, drop_drop. rewrite <- !app_assoc. f_equal. f_equal.
    + unfold lse_bytes. do 3 f_equal. set (tl := take _ _).
      assert (length tl = Z.to_nat (n - (i + 1))) as Htl by (unfold tl; rewrite length_take, length_drop; lia).
      destruct (Z.eqb_spec i (n - 1)).
      * rewrite bool_decide_true; [done|]. apply length_zero_iff_nil. lia.
      * rewrite bool_decide_false; [done|]. intros E. rewrite E in Htl. cbn in Htl. lia.
    + f_equal. f_equal. f_equal. lia.
Qed.

(** The labels a nexthop imposes, outermost first: the array has room for
    [MAX_LABELS], and the rest of it is padding. *)
Definition imposed (nh : NextHop) : list Z := take (Z.to_nat (nh_num_labels nh)) (nh_labels nh).

Lemma imposed_length nh : 0 ≤ nh_num_labels nh ≤ Z.of_nat (length (nh_labels nh)) →
  Z.of_nat (length (imposed nh)) = nh_num_labels nh.
Proof. intros Hn. unfold imposed. rewrite length_take. lia. Qed.

Lemma mpls_push_run nh ttl dmac smac eth inner w :
  adjacency nh dmac smac → pkt w = eth ++ inner → length eth = 14%nat →
  1 ≤ nh_num_labels nh ≤ MAX_LABELS → nh_num_labels nh ≤ Z.of_nat (length (nh_labels nh)) →
  let labels := take (Z.to_nat (nh_num_labels nh)) (nh_labels nh) in
  let t := if has (nh_flags nh) NH_F_MPLS_PIPE then MPLS_PIPE_TTL else ttl in
  mpls_push nh ttl w = (w, Err tt) ∧ adjust_room (4 * nh_num_labels nh) BPF_ADJ_ROOM_MAC 0 w = (w, Err tt) ∨
  ∃ w', mpls_push nh ttl w = (w', Ok (redirect_ret (nh_oif nh))) ∧
    pkt w' = dmac ++ smac ++ to_be 2 ETH_P_MPLS_UC ++ label_stack labels 1 t ++ inner ∧
    sent w' = sent w ++ [Redirect (nh_oif nh)].
Proof.
  intros Hadj Hp He Hn Hll labels t. unfold mpls_push. set (n := nh_num_labels nh) in *.
  rewrite (proj2 (Z.eqb_neq n 0)), (proj2 (Z.ltb_ge _ _)) by lia. cbn [orb]. fold t.
  destruct (adjust_room_mac_run (4 * n) 0 w eth inner) as [E|(room & Hr & E)]; [lia|done..| |].
  { left. split; [by rewrite (bind_err E)|done]. }
  right. rewrite (bind_ok E). cbv zeta.
  rewrite (bind_ok (labels_write store (Z.to_nat MAX_LABELS) (nh_labels nh) 0 n 1 t (set_pkt (eth ++ room ++ inner) w) eth room inner
    store_writer eq_refl ltac:(rewrite He; done) ltac:(lia) Hll ltac:(lia) ltac:(lia))).
  rewrite drop_0, Z.sub_0_r. fold labels. rewrite set_pkt_pkt.
  rewrite (skipn_all2 room) by lia. cbn [app].
  erewrite bind_ok by (eapply (store_run ETH_TYPE_OFF);
    [cbn [pkt set_pkt]; rewrite <- (take_drop 12 eth) at 1; rewrite <- !app_assoc;
     apply (wr_app (take 12 eth) (drop 12 eth)); [by rewrite length_take_le by lia|by rewrite length_drop, He]
    |discriminate]).
  rewrite set_pkt_pkt. count. unfold mpls_l2_xmit.
  rewrite (l2_xmit_run _ _ dmac smac (take 12 eth ++ to_be 2 ETH_P_MPLS_UC) (label_stack labels 1 t ++ inner)).
  - eexists. split; [done|]. split; done.
  - done.
  - cbn [pkt set_pkt set_stats]. by rewrite <- !app_assoc.
  - rewrite length_app, length_take_le by lia. done.
Qed.

(** ** Popping *)

(** This node pops the label and looks at what is below. *)
Definition pops_here (l : Z) : Prop := ∃ ent nh,
  MPLS_FIB !! l = Some ent ∧ NEXTHOPS !! me_nexthop_id ent = Some nh ∧
  (me_op ent = MPLS_OP_SWAP ∨ me_op ent = MPLS_OP_POP) ∧ nh_num_labels nh = 0 ∧ nh_oif nh = 0.

(** This node decapsulates at the label: entry, for the bottom of the stack. *)
Definition decaps_here (l : Z) (ent : MplsEntry) : Prop := ∃ nh,
  MPLS_FIB !! l = Some ent ∧ NEXTHOPS !! me_nexthop_id ent = Some nh ∧
  (me_op ent = MPLS_OP_POP_L3 ∨
   (me_op ent = MPLS_OP_SWAP ∨ me_op ent = MPLS_OP_POP) ∧ nh_num_labels nh = 0 ∧ nh_oif nh = 0).

Lemma pop_head_run et w macs lse rest :
  pkt w = macs ++ to_be 2 ETH_P_MPLS_UC ++ lse ++ rest → length macs = 12%nat → length lse = 4%nat →
  ∃ w', pop_head et w = (w', Ok tt) ∧ pkt w' = macs ++ to_be 2 et ++ rest ∧
    sent w' = sent w ∧ xmeta w' = xmeta w.
Proof.
  intros Hp Hm Hl. unfold pop_head.
  rewrite (bind_ok (slide_eth_run 4 et w macs (to_be 2 ETH_P_MPLS_UC) lse rest Hp Hm
    (to_be_length _ _) ltac:(lia) ltac:(lia))).
  match goal with |- context [stat_inc ?i ?W] => destruct (stat_inc_run i W) as [st E] end.
  eexists. by rewrite E.
Qed.

(** What [mpls_step] reads first. *)
Lemma mpls_step_reads (k : Z → Z → Z → Z → Prog (option Z)) macs l s t rest w : length macs = 12%nat → u8 t → 0 ≤ s < 2 → is_label l →
  pkt w = macs ++ to_be 2 ETH_P_MPLS_UC ++ lse_bytes l s t ++ rest →
  (ethertype ← xdp_be 2 ETH_TYPE_OFF;
   if negb (ethertype =? ETH_P_MPLS_UC) then mret (Some XDP_PASS) else
   lse ← xdp_be 4 MPLS_LSE_OFF;
   let '(label, tc, s, ttl) := mpls_lse_unpack lse in k label tc s ttl) w = k l 0 s t w.
Proof.
  intros Hm Ht Hs Hl Hp. xread Hp. rewrite of_to_be by done. tests.
  assert (length (lse_bytes l s t) = 4%nat) as Hll by apply to_be_length. xread Hp.
  rewrite lse_bytes_unpack by done. unfold is_label, in_range in Hl. by rewrite Z.mod_small by lia.
Qed.

Lemma mpls_step_pop macs l t rest w : pops_here l → length macs = 12%nat → is_label l → 1 < t < 256 →
  pkt w = macs ++ to_be 2 ETH_P_MPLS_UC ++ lse_bytes l 0 t ++ rest →
  ∃ w', mpls_step w = (w', Ok None) ∧ pkt w' = macs ++ to_be 2 ETH_P_MPLS_UC ++ rest ∧
    sent w' = sent w ∧ xmeta w' = xmeta w.
Proof.
  intros (ent & nh & Hent & Hnh & Hop & Hn & Hoif) Hm Hl Ht Hp. unfold mpls_step.
  rewrite (mpls_step_reads (λ label _ s ttl, _) macs l 0 t rest w);
    [|done|unfold in_range; lia|lia|done|done].
  rewrite (proj2 (Z.leb_gt t 1)), Hent by lia.
  destruct (pop_head_run ETH_P_MPLS_UC w macs (lse_bytes l 0 t) rest) as (w' & E & ? & ? & ?);
    [done..|apply to_be_length|].
  exists w'. split; [|done]. rewrite Hnh, Hn, Hoif.
  destruct Hop as [-> | ->]; tests; by rewrite (bind_ok E).
Qed.

(** The packet a node exposes by MPLS: its VRF 0 leaves no metadata. *)
Definition mpls_exposed (w w' : World) (act : Z) (frame : bytes) (vrf : Z) : Prop :=
  if vrf =? 0 then pkt w' = frame ∧ sent w' = sent w ∧ act = XDP_PASS ∧ xmeta w' = xmeta w
  else exposed w w' act frame XDP_META_MAGIC vrf 0.

Lemma pop_decap_local_run vrf t uniform macs lse et inner w : length macs = 12%nat → length lse = 4%nat →
  u8 t → is_ip_packet et inner → pkt w = macs ++ to_be 2 ETH_P_MPLS_UC ++ lse ++ inner →
  ∃ w' act, pop_decap_local vrf t uniform w = (w', Ok act) ∧
    mpls_exposed w w' act (macs ++ to_be 2 et ++ (if uniform then with_ttl et t inner else inner)) vrf.
Proof.
  intros Hm Hl Ht Hip Hp. unfold pop_decap_local. pose proof Hip as (Hv & _ & Hlen).
  destruct inner as [|x inner0] eqn:Ein; [done|]. rewrite <- Ein in *.
  assert (catch popped_ethertype w = (w, Ok (Some et))) as E.
  { unfold catch, popped_ethertype, ip_ethertype. rewrite bind_assoc.
    rewrite Ein in Hp. xread Hp. rewrite bind_ret. rewrite Ein in Hv. cbn [ip_version] in Hv. by rewrite Hv. }
  rewrite (bind_ok E). clear E.
  destruct (pop_head_run et w macs lse inner) as (w1 & E1 & Hp1 & Hs1 & Hx1); [done..|].
  rewrite (bind_ok E1). set (inner' := if uniform then with_ttl et t inner else inner).
  assert (∃ w2, (if uniform then mpls_uniform_to_ip et t else mret tt) w1 = (w2, Ok tt) ∧
    pkt w2 = macs ++ to_be 2 et ++ inner' ∧ sent w2 = sent w ∧ xmeta w2 = xmeta w) as (w2 & E2 & Hp2 & Hs2 & Hx2).
  { unfold inner'. destruct uniform; [|by exists w1].
    rewrite (mpls_uniform_run et t macs inner w1) by done. eexists. split; [done|]. done. }
  rewrite (bind_ok E2). unfold mpls_exposed. destruct (vrf =? 0); cbn [negb].
  - by exists w2, XDP_PASS.
  - destruct (attach_meta_exposed XDP_META_MAGIC vrf 0 w w2) as (w' & act & E & Hex); [done|].
    exists w', act. split; [done|]. by rewrite Hp2 in Hex.
Qed.

Lemma label_stack_snoc labels l s t :
  label_stack (labels ++ [l]) s t = label_stack labels 0 t ++ lse_bytes l s t.
Proof.
  induction labels as [|l1 labels IH]; [done|]. cbn [app]. rewrite !label_stack_cons, IH, <- app_assoc.
  f_equal. rewrite bool_decide_false by (by destruct labels). by case_bool_decide.
Qed.

(** The labels above the last are popped one by one. *)
Lemma mpls_steps_pops fuel labels macs t rest w :
  Forall pops_here labels → Forall is_label labels → length macs = 12%nat → 1 < t < 256 →
  pkt w = macs ++ to_be 2 ETH_P_MPLS_UC ++ label_stack labels 0 t ++ rest →
  ∃ w', mpls_steps (length labels + fuel) w = mpls_steps fuel w' ∧
    pkt w' = macs ++ to_be 2 ETH_P_MPLS_UC ++ rest ∧ sent w' = sent w ∧ xmeta w' = xmeta w.
Proof.
  intros Hpop Hlab Hm Ht. revert w. induction labels as [|l labels IH]; intros w Hp; [by exists w|].
  apply Forall_cons in Hpop as [Hp1 Hpop], Hlab as [Hl1 Hlab].
  rewrite label_stack_cons, <- app_assoc in Hp.
  assert ((if bool_decide (labels = []) then 0 else 0) = 0) as E0 by (by case_bool_decide). rewrite E0 in Hp.
  destruct (mpls_step_pop macs l t _ w Hp1 Hm Hl1 Ht Hp) as (w1 & E1 & Hpk & Hs & Hx).
  destruct (IH Hpop Hlab w1 Hpk) as (w' & E & ? & ? & ?).
  exists w'. cbn [length Nat.add mpls_steps]. rewrite (bind_ok E1). split; [done|]. split; [done|].
  split; congruence.
Qed.

Lemma try_mpls_run labels l ent macs t et inner w :
  Forall pops_here labels → Forall is_label labels → is_label l → decaps_here l ent →
  Z.of_nat (length labels) ≤ MAX_LABELS → length macs = 12%nat → 1 < t < 256 → is_ip_packet et inner →
  pkt w = macs ++ to_be 2 ETH_P_MPLS_UC ++ label_stack (labels ++ [l]) 1 t ++ inner →
  ∃ w' act, try_mpls_xdp w = (w', Ok act) ∧
    mpls_exposed w w' act (macs ++ to_be 2 et ++
      (if has (me_flags ent) MPLS_E_TTL_UNIFORM then with_ttl et t inner else inner)) (me_vrf_id ent).
Proof.
  intros Hpop Hlab Hl Hdec Hf Hm Ht Hip Hp. rewrite label_stack_snoc, <- app_assoc in Hp.
  set (fuel := (Z.to_nat MAX_LABELS - length labels)%nat).
  destruct (mpls_steps_pops (S fuel) labels macs t _ w Hpop Hlab Hm Ht Hp) as (w1 & E1 & Hp1 & Hs1 & Hx1).
  unfold try_mpls_xdp. replace (S (Z.to_nat MAX_LABELS)) with (length labels + S fuel)%nat by lia.
  rewrite E1. cbn [mpls_steps]. destruct Hdec as (nh & Hent & Hnh & Hop).
  destruct (pop_decap_local_run (me_vrf_id ent) t (has (me_flags ent) MPLS_E_TTL_UNIFORM) macs
    (lse_bytes l 1 t) et inner w1) as (w' & act & E & Hex);
    [done|apply to_be_length|unfold in_range; lia|done|done|].
  exists w', act. split.
  - assert (mpls_step w1 = (w', Ok (Some act))) as Es; [|by rewrite (bind_ok Es)].
    unfold mpls_step. rewrite (mpls_step_reads (λ label _ s ttl, _) macs l 1 t inner w1);
      [|done|unfold in_range; lia|lia|done|done].
    rewrite (proj2 (Z.leb_gt t 1)), Hent by lia. rewrite Hnh. cbv zeta.
    destruct Hop as [-> | ([-> | ->] & -> & ->)]; tests; unfold fmap, M_fmap; by rewrite E.
  - revert Hex. unfold mpls_exposed, exposed. by rewrite Hs1, Hx1.
Qed.
End mpls.

(** ** The TTL that comes back *)

Definition ip_ttl (et : Z) (p : bytes) : Z := byte_at p (if et =? ETH_P_IP then 8 else 7).

Lemma with_ttl_same et p : is_ip_packet et p → with_ttl et (ip_ttl et p) p = p.
Proof.
  intros (_ & _ & Hl). unfold with_ttl, ip_ttl, byte_at. destruct (et =? ETH_P_IP).
  - destruct (drop 8 p) as [|t [|pr [|c0 [|c1 rest]]]] eqn:Ed; try done.
    assert (p !! 8%nat = Some t) as ->; [|by cbn; rewrite Z.eqb_refl].
    rewrite <- (Nat.add_0_r 8), <- lookup_drop. by rewrite Ed.
  - destruct (lookup_lt_is_Some_2 p 7) as [x Hx]; [lia|]. rewrite Hx. cbn [from_option].
    by rewrite <- (take_drop_middle p 7 x Hx) at 3.
Qed.

(** A header of [hl] bytes stays valid. *)
Lemma with_ttl_valid ttl p hl : is_ip_packet ETH_P_IP p → u8 ttl → (20 ≤ hl)%nat →
  csum_valid (take hl p) → csum_valid (take hl (with_ttl ETH_P_IP ttl p)).
Proof.
  intros (_ & Hb & Hl) Ht Hhl. unfold with_ttl. rewrite Z.eqb_refl. set (a := take 8 p).
  assert (length a = 8%nat) as Ha by (unfold a; rewrite length_take_le; lia).
  destruct (drop 8 p) as [|t [|pr [|c0 [|c1 rest]]]] eqn:Ed; try done.
  destruct (t =? ttl); [done|].
  assert (Hpa : p = a ++ [t; pr] ++ [c0; c1] ++ rest) by (unfold a; cbn [app]; rewrite <- Ed; by rewrite take_drop).
  rewrite Hpa in Hb. rewrite !Forall_app in Hb. destruct Hb as (_ & Hb1 & Hb2 & _).
  rewrite !Forall_cons in Hb1. destruct Hb1 as (? & ? & _).
  assert (Htake : ∀ x y, length x = 2%nat → length y = 2%nat →
    take hl (a ++ x ++ y ++ rest) = a ++ x ++ y ++ take (hl - 12) rest).
  { intros x y Hx Hy. rewrite !take_app, Ha, Hx, Hy. rewrite !take_ge by lia. do 3 f_equal. f_equal. lia. }
  rewrite Hpa. rewrite !Htake by (done || apply to_be_length).
  by apply ttl_word_valid.
Qed.

(** ** Ethernet over MPLS *)

Lemma for_upto_ext fuel i n f g w : (∀ i w, f i w = g i w) → for_upto fuel i n f w = for_upto fuel i n g w.
Proof.
  intros Hfg. revert i w. induction fuel as [|fuel IH]; intros i w; [done|]. cbn [for_upto].
  destruct (n <=? i); [done|]. rewrite !bind_run, Hfg. by destruct (g i w) as [w' [[]|e]].
Qed.

(** The labels below the transport stack: the service's, and the Ethernet
    Segment's or leaf's when there is one. *)
Definition service_labels (label esi : Z) : list Z :=
  if esi .& MPLS_LABEL_MASK =? 0 then [label] else [label; esi .& MPLS_LABEL_MASK].

Definition l2_mpls_wire (dmac smac : bytes) (transport : list Z) (label esi : Z) (inner : bytes) : bytes :=
  (dmac ++ smac) ++ to_be 2 ETH_P_MPLS_UC ++ label_stack transport 0 MPLS_PIPE_TTL
  ++ label_stack (service_labels label esi) 1 MPLS_PIPE_TTL ++ inner.

(** What the second label says about the source: [None]: unknown, drop. *)
Definition esi_source_bits `{L2Maps} (esi : Z) : option Z :=
  if esi .& MPLS_LABEL_MASK =? 0 then Some 0 else
  match ESI_LABEL !! (esi .& MPLS_LABEL_MASK) with
  | Some id => Some (1 ≪ (id .& 63))
  | None => if bool_decide (is_Some (LEAF_LABEL !! (esi .& MPLS_LABEL_MASK))) then Some ES_BITS_ETREE_LEAF else None
  end.

(** The bytes put in front of the frame: Ethernet, the transport labels, the
    service label and the segment's or leaf's. *)
Definition l2_mpls_overhead (nh : NextHop) (esi : Z) : Z :=
  ETH_HLEN + 4 * (nh_num_labels nh + 1) + (if esi .& MPLS_LABEL_MASK =? 0 then 0 else 4).

Lemma l2_mpls_encap_run `{KernelLaws} `{FibMaps} `{L3Maps} addr nh_id label esi stat nh dmac smac w :
  overlay_adjacency nh_id addr = Some (nh, dmac, smac) → length dmac = 6%nat → length smac = 6%nat →
  0 ≤ nh_num_labels nh ≤ MAX_LABELS → nh_num_labels nh ≤ Z.of_nat (length (nh_labels nh)) →
  l2_mpls_encap addr nh_id label esi stat w = (w, Err tt) ∧ must_adjust_head (- l2_mpls_overhead nh esi) w = (w, Err tt) ∨
  ∃ w', l2_mpls_encap addr nh_id label esi stat w = (w', Ok (xdp_redirect_ret (nh_oif nh))) ∧
    pkt w' = l2_mpls_wire dmac smac (take (Z.to_nat (nh_num_labels nh)) (nh_labels nh)) label esi (pkt w) ∧
    sent w' = sent w ++ [Redirect (nh_oif nh)].
Proof.
  intros Hadj Hdm Hsm Hn Hll. unfold l2_mpls_encap. rewrite Hadj. cbv zeta.
  set (n := nh_num_labels nh) in *. rewrite (proj2 (Z.ltb_ge MAX_LABELS n)) by lia.
  unfold l2_mpls_wire, service_labels.
  set (es := esi .& MPLS_LABEL_MASK). set (k := if negb (es =? 0) then 4 else 0).
  assert (k = if es =? 0 then 0 else 4) as Hk by (unfold k; by destruct (es =? 0)).
  assert (0 ≤ k ≤ 4) as Hk4 by (rewrite Hk; destruct (es =? 0); lia).
  destruct (must_adjust_head_grow (ETH_HLEN + 4 * (n + 1) + k) w) as [E|(room & Hr & E)];
    [unfold ETH_HLEN; lia| |].
  { left. split; [by rewrite (bind_err E)|]. unfold l2_mpls_overhead. fold es n. by rewrite <- Hk. }
  right. rewrite (bind_ok E). unfold ETH_HLEN in Hr.
  assert (Hp1 : pkt (set_pkt (room ++ pkt w) w) = [] ++ room ++ pkt w) by done.
  unfold write_macs. rewrite bind_assoc. do 3 xput.
  match goal with |- context [set_pkt (?d ++ ?r ++ pkt w) w] =>
    pose proof (labels_write xdp_wr (Z.to_nat MAX_LABELS) (nh_labels nh) 0 n 0 MPLS_PIPE_TTL
      (set_pkt (d ++ r ++ pkt w) w) d r (pkt w) xdp_wr_writer eq_refl
      ltac:(unfold MPLS_LSE_OFF; len) ltac:(lia) Hll ltac:(len) ltac:(lia)) as El end.
  erewrite bind_ok; [|erewrite for_upto_ext; [exact El|intros i w'; cbv beta zeta; by destruct (i =? n - 1)]].
  clear El. rewrite set_pkt_pkt, drop_0, Z.sub_0_r.
  set (tr := take (Z.to_nat n) (nh_labels nh)).
  assert (length (label_stack tr 0 MPLS_PIPE_TTL) = Z.to_nat (4 * n)) as Hst.
  { rewrite label_stack_length. unfold tr. rewrite length_take. lia. }
  cbv zeta. rewrite Hk in Hr. destruct (es =? 0); cbn [negb]; cbv iota.
  - xput. rewrite bind_ret. rewrite skipn_all2 by len. count.
    eexists. split; [done|]. split; [|done]. cbn [pkt set_pkt set_stats set_sent label_stack app].
    unfold lse_bytes. rewrite <- !app_assoc. done.
  - xput. rewrite bind_assoc. xput. rewrite skipn_all2 by len. count. count.
    eexists. split; [done|]. split; [|done]. cbn [pkt set_pkt set_stats set_sent label_stack app].
    unfold lse_bytes. rewrite <- !app_assoc. done.
Qed.

Lemma pop_decap_l2_run `{KernelLaws} `{TunnelMaps} `{L2Maps} macs label esi bd bits inner w : length macs = 12%nat →
  (14 ≤ length inner)%nat → esi_source_bits esi = Some bits →
  pkt w = macs ++ to_be 2 ETH_P_MPLS_UC ++ label_stack (service_labels label esi) 1 MPLS_PIPE_TTL ++ inner →
  ∃ w' act, pop_decap_l2 (if esi .& MPLS_LABEL_MASK =? 0 then 1 else 0) bd w = (w', Ok act) ∧
    exposed w w' act inner XDP_META_MAGIC_L2 bd bits.
Proof.
  intros Hm Hi Hb Hp. unfold pop_decap_l2, esi_source_bits, service_labels in *.
  set (es := esi .& MPLS_LABEL_MASK) in *.
  assert (0 ≤ es < 2 ^ 20) as Hes.
  { unfold es. change MPLS_LABEL_MASK with (2 ^ 20 - 1). rewrite land_ones' by lia. apply Z.mod_pos_bound. lia. }
  set (lses := label_stack _ _ _) in *.
  assert (∃ st b, (if (if es =? 0 then 1 else 0) =? 1 then mret (Some (ETH_HLEN + 4, 0)) else
         lse ← xdp_be 4 (MPLS_LSE_OFF + 4);
         let '(esi_label, _, s2, _) := mpls_lse_unpack lse in
         if negb (s2 =? 1) then mret None else
         match ESI_LABEL !! esi_label with
         | Some id => _ ← stat_inc STAT_MPLS_L2_ESI_POP; mret (Some (ETH_HLEN + 8, 1 ≪ (id .& 63)))
         | None =>
             if bool_decide (is_Some (LEAF_LABEL !! esi_label))
             then _ ← stat_inc STAT_MPLS_L2_LEAF_POP; mret (Some (ETH_HLEN + 8, ES_BITS_ETREE_LEAF))
             else mret None
         end) w = (set_stats st w, Ok (Some (ETH_HLEN + b, bits))) ∧ b = Z.of_nat (length lses)) as (st & b & E & Hlen).
  { unfold lses. destruct (es =? 0).
    - injection Hb as <-. exists (stats w), 4. split; [by destruct w|]. by cbn [label_stack length lse_bytes to_be].
    - tests. cbv iota. assert (length (lse_bytes label 0 MPLS_PIPE_TTL) = 4%nat) as Hl1 by apply to_be_length.
      assert (length (lse_bytes es 1 MPLS_PIPE_TTL) = 4%nat) as Hl2 by apply to_be_length.
      unfold lses in Hp. cbn [label_stack] in Hp. rewrite <- app_assoc in Hp. xread Hp.
      rewrite lse_bytes_unpack by (unfold in_range, MPLS_PIPE_TTL; lia). rewrite Z.mod_small by lia. tests.
      rewrite label_stack_length. destruct (ESI_LABEL !! es) as [id|].
      + injection Hb as <-. count. by eexists st, 8.
      + destruct (bool_decide _); [|done]. injection Hb as <-. count. by eexists st, 8. }
  rewrite (bind_ok E). cbv iota beta.
  assert (Z.of_nat (length (macs ++ to_be 2 ETH_P_MPLS_UC ++ lses)) = ETH_HLEN + b) as Hl
    by (rewrite Hlen; len).
  rewrite (bind_ok (must_adjust_head_trim (ETH_HLEN + b) (set_stats st w) (macs ++ to_be 2 ETH_P_MPLS_UC ++ lses) inner
    ltac:(cbn [pkt set_stats]; rewrite Hp; by rewrite <- !app_assoc) Hl Hi)).
  count.
  match goal with |- context [attach_meta ?m ?v ?e ?W] =>
    destruct (attach_meta_exposed m v e w W) as (w' & act & E' & Hex) end; [done|].
  by exists w', act.
Qed.

(** ** The properties *)

(** C24: a label stack is undone by the nodes that own its labels.  The push
    is refused by the kernel's helper and leaves the frame alone, or sends the packet under the
    labels the nexthop imposes, one to three of the three its array holds,
    TTL from the packet (uniform) or 255 (pipe).  A node
    that owns every label pops them all within the loop's bound and exposes
    the packet: byte for byte under the pipe model, with the label TTL in the
    IP header under the uniform one - which is the same packet if nothing
    was forwarded in between - and always with a valid header checksum if it
    had one. *)
Theorem mpls_stack_roundtrip `{KernelLaws} (F1 : FibMaps) (L1 : L3Maps)
    (F2 : FibMaps) (T2 : TunnelMaps) (L2 : L3Maps) (M2 : L2Maps)
    nh ttl dmac smac eth inner et labels l ent w :
  let t := if has (nh_flags nh) NH_F_MPLS_PIPE then MPLS_PIPE_TTL else ttl in
  @adjacency F1 L1 nh dmac smac → pkt w = eth ++ inner → length eth = 14%nat →
  length (nh_labels nh) = Z.to_nat MAX_LABELS → 0 ≤ nh_num_labels nh ≤ MAX_LABELS → imposed nh = labels ++ [l] →
  Forall is_label labels → is_label l → 1 < ttl < 256 → is_ip_packet et inner →
  Forall (@pops_here L2) labels → @decaps_here L2 l ent →
  let run := @mpls_push _ F1 L1 nh ttl w in
  run = (w, Err tt) ∧ adjust_room (4 * nh_num_labels nh) BPF_ADJ_ROOM_MAC 0 w = (w, Err tt) ∨
  run.2 = Ok (redirect_ret (nh_oif nh)) ∧ sent run.1 = sent w ++ [Redirect (nh_oif nh)] ∧
  ∀ w2, pkt w2 = pkt run.1 →
    ∃ w3 act inner', @try_mpls_xdp _ F2 T2 L2 M2 w2 = (w3, Ok act) ∧
      @mpls_exposed _ _ T2 w2 w3 act (dmac ++ smac ++ to_be 2 et ++ inner') (me_vrf_id ent) ∧
      inner' = (if has (me_flags ent) MPLS_E_TTL_UNIFORM then with_ttl et t inner else inner) ∧
      (ip_ttl et inner = t → inner' = inner) ∧
      (∀ hl, (20 ≤ hl)%nat → et = ETH_P_IP → csum_valid (take hl inner) → csum_valid (take hl inner')).
Proof.
  intros t Hadj Hp He Harr Hn Himp Hlab Hl Httl Hip Hpop Hdec run. unfold run. pose proof Hadj as [_ Hdm Hsm].
  pose proof (imposed_length nh ltac:(lia)) as Hlen. rewrite Himp, length_app in Hlen. cbn [length] in Hlen.
  destruct (@mpls_push_run _ _ F1 L1 nh ttl dmac smac eth inner w) as [E|(w' & E & Hp' & Hs')];
    [done..|lia|lia|by left|right].
  rewrite E. cbn [fst snd]. split; [done|]. split; [done|].
  intros w2 Hp2. rewrite Hp' in Hp2. fold (imposed nh) in Hp2. rewrite Himp in Hp2. fold t in Hp2.
  assert (1 < t < 256) as Ht by (unfold t, MPLS_PIPE_TTL; destruct (has _ _); lia).
  destruct (@try_mpls_run _ _ F2 T2 L2 M2 labels l ent (dmac ++ smac) t et inner w2) as (w3 & act & E3 & Hex);
    [done..|lia|by rewrite length_app, Hdm, Hsm|done|done|by rewrite <- app_assoc|].
  exists w3, act, (if has (me_flags ent) MPLS_E_TTL_UNIFORM then with_ttl et t inner else inner).
  split; [done|]. split; [by rewrite <- app_assoc in Hex|]. split; [done|]. split.
  - intros Htt. destruct (has (me_flags ent) _); [|done]. rewrite <- Htt. by apply with_ttl_same.
  - intros hl Hhl -> Hv. destruct (has (me_flags ent) _); [|done]. apply with_ttl_valid; try done. unfold in_range. lia.
Qed.

(** C25: Ethernet over MPLS (EVPN, E-Line) arrives whole.  Under whatever
    transport labels, none to three, all popped at the egress node, the service label leads
    to the bridge domain: the node exposes exactly the sender's frame, with
    the split-horizon bits the Ethernet Segment or leaf label below stands
    for.  The sender fails only when the kernel refuses it the headroom. *)
Theorem mpls_l2_roundtrip `{KernelLaws} (F1 : FibMaps) (L1 : L3Maps)
    (F2 : FibMaps) (T2 : TunnelMaps) (L2 : L3Maps) (M2 : L2Maps)
    addr nh_id label esi stat nh dmac smac ent bits w :
  @overlay_adjacency _ F1 L1 nh_id addr = Some (nh, dmac, smac) → length dmac = 6%nat → length smac = 6%nat →
  length (nh_labels nh) = Z.to_nat MAX_LABELS → 0 ≤ nh_num_labels nh ≤ MAX_LABELS →
  Forall is_label (imposed nh) → is_label label → (14 ≤ length (pkt w))%nat →
  Forall (@pops_here L2) (imposed nh) → @MPLS_FIB L2 !! label = Some ent → me_op ent = MPLS_OP_POP_L2 →
  @esi_source_bits M2 esi = Some bits →
  let run := @l2_mpls_encap _ F1 L1 addr nh_id label esi stat w in
  run = (w, Err tt) ∧ must_adjust_head (- l2_mpls_overhead nh esi) w = (w, Err tt) ∨
  run.2 = Ok (xdp_redirect_ret (nh_oif nh)) ∧ sent run.1 = sent w ++ [Redirect (nh_oif nh)] ∧
  ∀ w2, pkt w2 = pkt run.1 →
    ∃ w3 act, @try_mpls_xdp _ F2 T2 L2 M2 w2 = (w3, Ok act) ∧
      @exposed _ _ T2 w2 w3 act (pkt w) XDP_META_MAGIC_L2 (me_vrf_id ent) bits.
Proof.
  intros Hadj Hdm Hsm Harr Hn Hlab Hl Hi Hpop Hent Hop Hbits run. unfold run.
  pose proof (imposed_length nh ltac:(lia)) as Hlen.
  destruct (@l2_mpls_encap_run _ _ F1 L1 addr nh_id label esi stat nh dmac smac w) as [E|(w' & E & Hp' & Hs')];
    [done..|lia|by left|right].
  rewrite E. cbn [fst snd]. split; [done|]. split; [done|].
  intros w2 Hp2. rewrite Hp' in Hp2. fold (imposed nh) in Hp2. unfold l2_mpls_wire in Hp2.
  set (fuel := (Z.to_nat MAX_LABELS - length (imposed nh))%nat).
  destruct (@mpls_steps_pops _ _ F2 T2 L2 M2 (S fuel) (imposed nh) (dmac ++ smac) MPLS_PIPE_TTL _ w2
    Hpop Hlab ltac:(by rewrite length_app, Hdm, Hsm) ltac:(unfold MPLS_PIPE_TTL; lia) Hp2) as (w1 & E1 & Hp1 & Hs1 & Hx1).
  unfold try_mpls_xdp. replace (S (Z.to_nat MAX_LABELS)) with (length (imposed nh) + S fuel)%nat by lia.
  rewrite E1. cbn [mpls_steps].
  destruct (@pop_decap_l2_run _ _ T2 M2 (dmac ++ smac) label esi (me_vrf_id ent) bits (pkt w) w1)
    as (w3 & act & E3 & Hex); [by rewrite length_app, Hdm, Hsm|done..|].
  exists w3, act. split.
  - assert (mpls_step w1 = (w3, Ok (Some act))) as Es; [|by rewrite (bind_ok Es)].
    unfold mpls_step.
    set (s := if esi .& MPLS_LABEL_MASK =? 0 then 1 else 0) in *.
    assert (0 ≤ s < 2) as Hs by (unfold s; destruct (_ =? 0); lia).
    set (below := if esi .& MPLS_LABEL_MASK =? 0 then [] else lse_bytes (esi .& MPLS_LABEL_MASK) 1 MPLS_PIPE_TTL).
    rewrite (mpls_step_reads (λ label _ s ttl, _) (dmac ++ smac) label s MPLS_PIPE_TTL (below ++ pkt w) w1);
      [|by rewrite length_app, Hdm, Hsm|unfold in_range, MPLS_PIPE_TTL; lia|done|done|].
    + rewrite Hent, Hop. rewrite Z.eqb_refl. change (MPLS_PIPE_TTL <=? 1) with false. unfold fmap, M_fmap. by rewrite E3.
    + rewrite Hp1. unfold service_labels, s, below. destruct (esi .& MPLS_LABEL_MASK =? 0); [done|].
      cbn [label_stack]. rewrite <- !app_assoc. done.
  - revert Hex. unfold exposed. by rewrite Hs1.
Qed.

(** ** Examples *)

Definition ex_nh_mpls : NextHop :=
  mkNextHop (of_be [10; 0; 0; 254]) (replicate 16 0) 2 NH_F_MPLS [16001; 16002; 0] 2 0.
Definition ex_Lm1 : L3Maps :=
  mkL3Maps (Dir24.new_tables 1) None {[5 := ex_nh_mpls]} ∅ ∅ ∅
    {[mkNeigh4Key 2 (of_be [10; 0; 0; 254]) := mkNeighEntry [2; 0; 0; 0; 0; 9] 1]} ∅ ∅.
(** The egress owns both labels; 16002 decapsulates into VRF 3, 500 leads to
    bridge domain 30. *)
Definition ex_Lm2 : L3Maps :=
  mkL3Maps (Dir24.new_tables 1) None {[1 := mkNextHop 0 (replicate 16 0) 0 0 [] 0 0]} ∅ ∅ ∅ ∅ ∅
    {[16001 := mkMplsEntry 1 0 MPLS_OP_POP 0;
      16002 := mkMplsEntry 1 3 MPLS_OP_POP MPLS_E_TTL_UNIFORM;
      500 := mkMplsEntry 1 30 MPLS_OP_POP_L2 0]}.
Definition ex_ip : bytes :=
  [0x45; 0; 0; 28; 0; 0; 0; 0; 64; 17] ++ to_be 2 (ipv4_hdr_csum 28 [10; 0; 0; 2] [10; 0; 9; 1])
  ++ [10; 0; 0; 2; 10; 0; 9; 1] ++ replicate 8 1.

Lemma ex_pops : @pops_here ex_Lm2 16001.
Proof.
  exists (mkMplsEntry 1 0 MPLS_OP_POP 0), (mkNextHop 0 (replicate 16 0) 0 0 [] 0 0).
  split_and!; try reflexivity. by right.
Qed.

Lemma ex_decaps : @decaps_here ex_Lm2 16002 (mkMplsEntry 1 3 MPLS_OP_POP MPLS_E_TTL_UNIFORM).
Proof.
  exists (mkNextHop 0 (replicate 16 0) 0 0 [] 0 0).
  split_and!; try reflexivity. right. split_and!; try reflexivity. by right.
Qed.

Lemma ex_ip_packet : is_ip_packet ETH_P_IP ex_ip.
Proof.
  split; [reflexivity|]. split; [|cbn; lia].
  apply (bool_decide_unpack _). vm_compute. exact I.
Qed.

Lemma mpls_stack_roundtrip_witness :
  let w := world_of (ex_eth ++ ex_ip) in
  let run := @mpls_push _ ex_F1 ex_Lm1 ex_nh_mpls 64 w in
  run.2 = Ok 7 ∧
  (run = (w, Err tt) ∧ adjust_room 8 BPF_ADJ_ROOM_MAC 0 w = (w, Err tt) ∨
   run.2 = Ok (redirect_ret 2) ∧ sent run.1 = sent w ++ [Redirect 2] ∧
   ∀ w2, pkt w2 = pkt run.1 →
     ∃ w3 act inner', @try_mpls_xdp _ ex_F2 ex_T2 ex_Lm2 ex_M2 w2 = (w3, Ok act) ∧
       @mpls_exposed _ _ ex_T2 w2 w3 act
         ([2; 0; 0; 0; 0; 9] ++ [2; 0; 0; 0; 0; 1] ++ to_be 2 ETH_P_IP ++ inner') 3 ∧
       inner' = with_ttl ETH_P_IP 64 ex_ip ∧ (ip_ttl ETH_P_IP ex_ip = 64 → inner' = ex_ip) ∧
       (∀ hl, (20 ≤ hl)%nat → ETH_P_IP = ETH_P_IP → csum_valid (take hl ex_ip) → csum_valid (take hl inner'))).
Proof.
  cbn zeta. split; [vm_compute; reflexivity|].
  apply (mpls_stack_roundtrip ex_F1 ex_Lm1 ex_F2 ex_T2 ex_Lm2 ex_M2 ex_nh_mpls 64
    [2; 0; 0; 0; 0; 9] [2; 0; 0; 0; 0; 1] ex_eth ex_ip ETH_P_IP [16001] 16002
    (mkMplsEntry 1 3 MPLS_OP_POP MPLS_E_TTL_UNIFORM)).
  - split; reflexivity.
  - reflexivity.
  - reflexivity.
  - reflexivity.
  - unfold MAX_LABELS. cbn. lia.
  - reflexivity.
  - repeat constructor; lia.
  - split; lia.
  - lia.
  - exact ex_ip_packet.
  - repeat constructor. exact ex_pops.
  - exact ex_decaps.
Defined.

Lemma mpls_l2_roundtrip_witness :
  let w := world_of (ex_eth ++ ex_inner) in
  let addr := [0; 0; 0; 0; 0; 0; 0; 0; 0; 0; 0xff; 0xff; 10; 0; 1; 1] in
  let nh := mkNextHop (of_be [10; 0; 0; 254]) (replicate 16 0) 2 NH_F_MPLS [16001; 0; 0] 1 0 in
  let L1 := mkL3Maps (Dir24.new_tables 1) None {[5 := nh]} ∅ ∅ ∅
    {[mkNeigh4Key 2 (of_be [10; 0; 0; 254]) := mkNeighEntry [2; 0; 0; 0; 0; 9] 1]} ∅ ∅ in
  let run := @l2_mpls_encap _ ex_F1 L1 addr 5 500 0 0 w in
  run.2 = Ok 4 ∧
  (run = (w, Err tt) ∧ must_adjust_head (-22) w = (w, Err tt) ∨
   run.2 = Ok (xdp_redirect_ret 2) ∧ sent run.1 = sent w ++ [Redirect 2] ∧
   ∀ w2, pkt w2 = pkt run.1 →
     ∃ w3 act, @try_mpls_xdp _ ex_F2 ex_T2 ex_Lm2 ex_M2 w2 = (w3, Ok act) ∧
       @exposed _ _ ex_T2 w2 w3 act (pkt w) XDP_META_MAGIC_L2 30 0).
Proof.
  cbn zeta. set (nh := mkNextHop _ _ _ _ [16001; 0; 0] _ _). set (L1 := mkL3Maps _ _ {[5 := nh]} _ _ _ _ _ _).
  split; [vm_compute; reflexivity|].
  apply (mpls_l2_roundtrip ex_F1 L1 ex_F2 ex_T2 ex_Lm2 ex_M2
    [0; 0; 0; 0; 0; 0; 0; 0; 0; 0; 0xff; 0xff; 10; 0; 1; 1] 5 500 0 0 nh
    [2; 0; 0; 0; 0; 9] [2; 0; 0; 0; 0; 1] (mkMplsEntry 1 30 MPLS_OP_POP_L2 0)).
  - reflexivity.
  - reflexivity.
  - reflexivity.
  - reflexivity.
  - cbn. unfold MAX_LABELS. lia.
  - repeat constructor; lia.
  - split; lia.
  - cbn. lia.
  - repeat constructor. exact ex_pops.
  - reflexivity.
  - reflexivity.
  - reflexivity.
Defined.
