(* ===== verification/Srv6Props.v ===== *)
(** * SRv6: the properties

    An H.Encaps policy walks its segments: every End node exposes the next
    SID, a PSP node removes the routing header, and the decapsulating node
    gives back the packet.  The SRH pop, micro-SID carriers and REPLACE-C-SID
    containers. *)

From S2P Require Import Prelude.
From S2P Require Import Contract.
From S2P Require Import Common.
From S2P Require Import Bpf.
From S2P Require Import Frames.
From S2P Require Import KernelRef.
From S2P Require Import Maps.
From S2P Require Import L2.
From S2P Require Import Encap.
From S2P Require Import Xdp.
From S2P Require Import FrameRun.
From S2P Require Import Bfd.
From S2P Require Import XdpTunnel.
From S2P Require Import XdpSrv6.
From S2P Require Import XdpReplace.
From S2P Require Import XdpMain.
From S2P Require Import TunnelProps.

(** ** Segment lists *)

(** Segments [j], [j+1], .., [j+k-1] of a policy in wire order: last first. *)
Fixpoint seglist (segs : list bytes) (j : Z) (k : nat) : bytes :=
  match k with
  | O => []
  | S k => seglist segs (j + 1) k ++ seg_at segs j
  end.

Lemma seglist_length segs j k : (∀ i, j ≤ i < j + Z.of_nat k → length (seg_at segs i) = 16%nat) →
  length (seglist segs j k) = (16 * k)%nat.
Proof.
  revert j. induction k as [|k IH]; intros j H; [done|]. cbn [seglist].
  rewrite length_app, IH by (intros; apply H; lia). rewrite H by lia. lia.
Qed.

(** Entry [i] of the list holds segment [j + k - 1 - i]. *)
Lemma seglist_split segs j k i : (i < k)%nat →
  seglist segs j k = seglist segs (j + Z.of_nat (k - i)) i ++ seg_at segs (j + Z.of_nat (k - 1 - i))
    ++ seglist segs j (k - 1 - i).
Proof.
  revert j. induction k as [|k IH]; intros j Hi; [lia|]. cbn [seglist].
  destruct (decide (i = k)) as [->|].
  - replace (S k - 1 - k)%nat with 0%nat by lia. replace (S k - k)%nat with 1%nat by lia.
    cbn [seglist]. rewrite app_nil_r. do 3 f_equal; lia.
  - rewrite (IH (j + 1)) by lia. rewrite <- !app_assoc.
    replace (S k - 1 - i)%nat with (S (k - 1 - i)) by lia. cbn [seglist].
    f_equal; [f_equal; lia|]. f_equal. f_equal. lia.
Qed.

Section walk.
Context `{KernelLaws} `{FibMaps} `{TunnelMaps} `{L3Maps} `{L2Maps} `{BfdMaps}.

(** The loop that writes the list, last entry first. *)
Lemma seglist_store fuel segs j n base w pre room rest :
  pkt w = pre ++ room ++ rest → base = Z.of_nat (length pre) → j ≤ n →
  Z.of_nat (length room) = 16 * (n - j) → n - j ≤ Z.of_nat fuel →
  (∀ i, j ≤ i < n → length (seg_at segs i) = 16%nat) →
  for_upto fuel j n (λ j, store (base + 16 * (n - 1 - j)) (seg_at segs j)) w =
    (set_pkt (pre ++ seglist segs j (Z.to_nat (n - j)) ++ rest) w, Ok tt).
Proof.
  revert j w room rest. induction fuel as [|fuel IH]; intros j w room rest Hp Hb Hj Hr Hf Hs.
  - replace (n - j) with 0 in * by lia. destruct room; [|cbn in Hr; lia]. cbn [app] in Hp. change (Z.to_nat 0) with 0%nat. cbn [seglist app].
    rewrite <- Hp. by rewrite set_pkt_id.
  - cbn [for_upto]. destruct (Z.leb_spec n j).
    + replace (n - j) with 0 in * by lia. destruct room; [|cbn in Hr; lia]. cbn [app] in Hp. change (Z.to_nat 0) with 0%nat. cbn [seglist app].
      rewrite <- Hp. by rewrite set_pkt_id.
    + set (m := Z.to_nat (16 * (n - 1 - j))).
      assert (length (take m room) = m) as Hm by (rewrite length_take_le; lia).
      assert (length (drop m room) = 16%nat) as Hd by (rewrite length_drop; lia).
      rewrite (bind_ok (store_run (base + 16 * (n - 1 - j)) (seg_at segs j)
        ((pre ++ take m room) ++ seg_at segs j ++ rest) w
        ltac:(rewrite Hp; rewrite <- (take_drop m room) at 1; rewrite <- (app_assoc (take m room)), (app_assoc pre);
          apply wr_app; [rewrite length_app, Hm; lia|rewrite Hs by lia; by rewrite Hd])
        ltac:(let E := fresh in intros E; pose proof (Hs j ltac:(lia)) as Hsj; rewrite E in Hsj; done))).
      rewrite (IH (j + 1) _ (take m room) (seg_at segs j ++ rest)).
      * rewrite set_pkt_pkt. replace (Z.to_nat (n - j)) with (S (Z.to_nat (n - (j + 1)))) by lia.
        cbn [seglist]. by rewrite <- app_assoc.
      * cbn. by rewrite <- app_assoc.
      * done.
      * lia.
      * lia.
      * lia.
      * intros. apply Hs. lia.
Qed.

(** ** The frame of an H.Encaps policy *)

(** A policy of [n] segments over a payload of protocol [proto]. *)
Definition srh (segs : list bytes) (n proto sl : Z) : bytes :=
  if n =? 1 then []
  else [proto] ++ [2 * (n - 1)] ++ [4] ++ [sl] ++ [n - 2] ++ [0] ++ [0; 0]
       ++ seglist segs 1 (Z.to_nat (n - 1)).

Definition srh_length (n : Z) : Z := if n =? 1 then 0 else 8 + 16 * (n - 1).

(** On the way to segment [k]. *)
Definition hencap_wire (eth : bytes) (segs : list bytes) (n proto : Z) (src inner : bytes) (k hop : Z) : bytes :=
  eth ++ to_be 4 IP6_VER_TC_FL ++ to_be 2 (Z.of_nat (length inner) + srh_length n)
  ++ [if n =? 1 then proto else IPPROTO_ROUTING] ++ [hop] ++ src ++ seg_at segs k
  ++ srh segs n proto (n - 1 - k) ++ inner.

Definition inner_proto_of (et : Z) : Z := if et =? ETH_P_IPV6 then IPPROTO_IPV6 else IPPROTO_IPIP.

(** Every segment of the policy is an address. *)
Definition wf_segs (segs : list bytes) (n : Z) : Prop :=
  1 ≤ n ≤ MAX_SEGS ∧ ∀ i, 0 ≤ i < n → length (seg_at segs i) = 16%nat.

Lemma srh_len segs n proto sl : wf_segs segs n → Z.of_nat (length (srh segs n proto sl)) = srh_length n.
Proof.
  intros [Hn Hs]. unfold srh, srh_length. destruct (Z.eqb_spec n 1); [done|].
  rewrite !length_app, seglist_length by (intros; apply Hs; lia). cbn [length]. lia.
Qed.

Lemma apply_hencap_run enc et src eth inner w :
  wf_segs (se_segs enc) (se_num_segs enc) → SRV6_ENCAP_SRC = Some src → length src = 16%nat →
  pkt w = eth ++ inner → length eth = 14%nat → Z.of_nat (length inner) + 128 < 65536 →
  apply_hencap enc et w = (w, Err tt) ∨
  apply_hencap enc et w =
    (set_pkt (hencap_wire eth (se_segs enc) (se_num_segs enc) (inner_proto_of et) src inner 0 64) w, Ok None).
Proof.
  intros Hwf Hsrc Hs Hp He Hlen. pose proof Hwf as [Hn Hsegs]. unfold apply_hencap.
  set (n := se_num_segs enc) in *. set (segs := se_segs enc) in *.
  rewrite (proj2 (Z.eqb_neq n 0)), (proj2 (Z.ltb_ge _ _)) by lia. cbn [orb]. rewrite Hsrc.
  fold (inner_proto_of et). fold (srh_length n). set (proto := inner_proto_of et).
  rewrite (bind_ok (frame_len_run w)). cbv zeta.
  assert (0 ≤ srh_length n ≤ 128) as Hsl by (unfold srh_length, MAX_SEGS in *; destruct (n =? 1); lia).
  assert (wrap 16 (inner_length (Z.of_nat (length (pkt w))) + srh_length n)
          = Z.of_nat (length inner) + srh_length n) as ->.
  { rewrite Hp, length_app, He. unfold inner_length, wrap, ETH_HLEN. rewrite Z.mod_small; lia. }
  destruct (adjust_room_mac_run (IP6_HDR_LEN + srh_length n) 0 w eth inner) as [E|(room & Hr & E)];
    [unfold IP6_HDR_LEN; lia|done..| |].
  { left. by rewrite (bind_err E). }
  right. rewrite (bind_ok E). unfold IP6_HDR_LEN in Hr.
  pose proof (Hsegs 0 ltac:(lia)) as H0s.
  do 6 put. unfold hencap_wire, srh. unfold srh_length in Hr. destruct (Z.eqb_spec n 1) as [En|En].
  - rewrite (proj2 (Z.ltb_ge 1 n)) by lia. rewrite bind_ret. rewrite skipn_all2 by len.
    rewrite <- !app_assoc. done.
  - rewrite (proj2 (Z.ltb_lt 1 n)) by lia. rewrite bind_assoc. 
    do 6 (put; rewrite ?bind_assoc). put.
    match goal with |- (_ ≫= _) (set_pkt (?d ++ ?r ++ inner) w) = _ =>
      rewrite (bind_ok (seglist_store (Z.to_nat (MAX_SEGS - 1)) segs 1 n SRH_SEGLIST_OFF (set_pkt (d ++ r ++ inner) w) d r inner
        eq_refl ltac:(len) ltac:(lia) ltac:(len) ltac:(lia) ltac:(intros; apply Hsegs; lia))) end.
    rewrite set_pkt_pkt. replace (n - 1 - 0) with (n - 1) by lia. rewrite <- !app_assoc. done.
Qed.

(** ** Removing the routing header *)

(** Moving the header [h] forward over [s]. *)
Lemma wr_slide h s inner : wr (h ++ s ++ inner) (Z.of_nat (length s)) h =
  Some (take (length s) (h ++ s) ++ h ++ inner).
Proof.
  rewrite app_assoc. rewrite <- (take_drop (length s) (h ++ s)) at 1. rewrite <- app_assoc.
  apply wr_app; [rewrite length_take_le; [done|rewrite length_app; lia]|].
  rewrite length_drop, length_app. lia.
Qed.

(** An IPv6 packet with a routing header: [mid] is the hop limit and the two
    addresses, [body] the routing header after its first two bytes. *)
Definition srh_packet (eth vtf mid body payload : bytes) (plen nh ext : Z) : bytes :=
  eth ++ vtf ++ to_be 2 plen ++ [IPPROTO_ROUTING] ++ mid ++ [nh] ++ [ext] ++ body ++ payload.

Lemma pop_srh_run eth vtf mid body payload plen nh ext w :
  pkt w = srh_packet eth vtf mid body payload plen nh ext →
  length eth = 14%nat → length vtf = 4%nat → length mid = 33%nat →
  Z.of_nat (length body) = 8 * (ext + 1) - 2 → 0 ≤ ext ≤ 12 → 8 * (ext + 1) ≤ plen < 65536 →
  pop_srh w = (set_pkt (eth ++ vtf ++ to_be 2 (plen - 8 * (ext + 1)) ++ [nh] ++ mid ++ payload) w, Ok tt).
Proof.
  intros Hp He Hv Hm Hb Hext Hpl. unfold srh_packet in Hp. cbn [app] in Hp. unfold pop_srh.
  xread Hp. xread Hp. rewrite (proj2 (Z.ltb_ge 12 ext)) by lia. xread Hp.
  rewrite of_to_be by lia. rewrite (proj2 (Z.ltb_ge plen _)) by lia.
  erewrite bind_ok by (eapply (xdp_wr_mid (eth ++ vtf ++ to_be 2 plen) [IPPROTO_ROUTING]);
    [rewrite Hp, <- !app_assoc; reflexivity|len|done]).
  erewrite bind_ok by (eapply (xdp_wr_mid (eth ++ vtf) (to_be 2 plen));
    [cbn [pkt set_pkt]; rewrite <- !app_assoc; reflexivity|len|done]).
  rewrite set_pkt_pkt. set (L := to_be 2 (plen - 8 * (ext + 1))).
  set (h := eth ++ vtf ++ L ++ [nh] ++ mid). set (s := [nh] ++ [ext] ++ body).
  assert (length h = 54%nat) as Hh by (unfold h, L; len).
  assert (Z.of_nat (length s) = 8 * (ext + 1)) as Hs by (unfold s; len).
  match goal with |- context [set_pkt ?p w] => assert (p = h ++ s ++ payload) as -> end.
  { unfold h, s. rewrite <- !app_assoc. done. }
  erewrite bind_ok by (apply (xdp_rd_run 0 54 h); cbn [pkt set_pkt]; by rewrite rd_here by lia).
  erewrite bind_ok by (apply xdp_wr_run; cbn [pkt set_pkt]; rewrite <- Hs; apply wr_slide).
  rewrite set_pkt_pkt, (must_adjust_head_trim _ _ (take (length s) (h ++ s)) (h ++ payload)).
  - rewrite set_pkt_pkt. unfold h. by rewrite <- !app_assoc.
  - done.
  - rewrite length_take_le; [done|]. rewrite length_app. lia.
  - rewrite length_app. lia.
Qed.

(** ** One End node *)

(** On the way to the last segment, without the routing header (PSP). *)
Definition psp_wire (eth : bytes) (segs : list bytes) (n proto : Z) (src inner : bytes) (hop : Z) : bytes :=
  eth ++ to_be 4 IP6_VER_TC_FL ++ to_be 2 (Z.of_nat (length inner)) ++ [proto] ++ [hop] ++ src
  ++ seg_at segs (n - 1) ++ inner.

Lemma srv6_end_run eth segs n proto src inner k hop sid w :
  pkt w = hencap_wire eth segs n proto src inner k hop → length eth = 14%nat → length src = 16%nat →
  wf_segs segs n → 0 ≤ k < n - 1 → Z.of_nat (length inner) + 128 < 65536 →
  ls_behavior sid = SRV6_BH_END → ls_vrf_id sid = 0 →
  ∃ w', srv6_end sid w = (w', Ok XDP_PASS) ∧ sent w' = sent w ∧ xmeta w' = xmeta w ∧
    pkt w' = (if (k =? n - 2) && has (ls_flavors sid) SRV6_FLAVOR_PSP
              then psp_wire eth segs n proto src inner hop
              else hencap_wire eth segs n proto src inner (k + 1) hop).
Proof.
  intros Hp He Hs Hwf Hk Hlen Hb Hvrf. pose proof Hwf as [Hn Hsegs]. unfold MAX_SEGS in Hn.
  pose proof (Hsegs k ltac:(lia)) as Hsk. pose proof (Hsegs (k + 1) ltac:(lia)) as Hsk1.
  set (m := Z.to_nat (n - 1)). set (i := Z.to_nat (n - 2 - k)).
  assert (Hsplit : seglist segs 1 m = seglist segs (1 + Z.of_nat (m - i)) i ++ seg_at segs (k + 1)
      ++ seglist segs 1 (m - 1 - i)).
  { rewrite (seglist_split segs 1 m i) by lia. do 3 f_equal. lia. }
  assert (length (seglist segs (1 + Z.of_nat (m - i)) i) = (16 * i)%nat) as Hl1
    by (apply seglist_length; intros; apply Hsegs; lia).
  assert (Hen : (n =? 1) = false) by lia.
  unfold hencap_wire, srh in Hp. rewrite Hen in Hp. fold m in Hp. rewrite Hsplit in Hp.
  rewrite <- !app_assoc in Hp. cbn [app] in Hp.
  unfold srv6_end. rewrite Hb. change (is_adjacency SRV6_BH_END) with false. cbn [negb].
  xread Hp. tests. xread Hp. rewrite (proj2 (Z.eqb_neq (n - 1 - k) 0)) by lia.
  rewrite (proj2 (Z.ltb_ge MAX_SEGS _)) by (unfold MAX_SEGS; lia).
  unfold advance_segment. rewrite bind_assoc. xread Hp. rewrite bind_assoc.
  set (vtf := to_be 4 IP6_VER_TC_FL) in *.
  set (pl := to_be 2 (Z.of_nat (length inner) + srh_length n)) in *.
  erewrite bind_ok by (eapply (xdp_wr_mid (eth ++ vtf ++ pl ++ [IPPROTO_ROUTING; hop] ++ src
      ++ seg_at segs k ++ [proto; 2 * (n - 1); 4]) [n - 1 - k]);
    [rewrite Hp, <- !app_assoc; reflexivity|unfold vtf, pl; len|done]).
  erewrite bind_ok by (eapply (xdp_wr_mid (eth ++ vtf ++ pl ++ [IPPROTO_ROUTING; hop] ++ src) (seg_at segs k));
    [cbn [pkt set_pkt]; rewrite <- !app_assoc; reflexivity|unfold vtf, pl; len|by rewrite Hsk, Hsk1]).
  rewrite set_pkt_pkt. count.
  match goal with |- context [set_stats st (set_pkt ?p w)] => set (W := set_stats st (set_pkt p w));
    assert (Hw : pkt W = hencap_wire eth segs n proto src inner (k + 1) hop) end.
  { unfold W, hencap_wire, srh. cbn [pkt set_pkt set_stats]. rewrite Hen. fold m. rewrite Hsplit.
    rewrite <- !app_assoc. cbn [app]. replace (n - 1 - (k + 1)) with (n - 1 - k - 1) by lia. done. }
  assert (Hend : ∀ W', endt_meta sid false W' = (W', Ok XDP_PASS)).
  { intros. unfold endt_meta. rewrite Hvrf. done. }
  replace (n - 1 - k - 1 =? 0) with (k =? n - 2) by lia.
  destruct ((k =? n - 2) && has (ls_flavors sid) SRV6_FLAVOR_PSP) eqn:Epsp.
  - apply andb_true_iff in Epsp as [Ek _]. assert (k = n - 2) as -> by lia.
    unfold psp_pop. rewrite bind_assoc.
    rewrite (bind_ok (pop_srh_run eth vtf ([hop] ++ src ++ seg_at segs (n - 1))
      ([4; 0; n - 2; 0; 0; 0] ++ seglist segs 1 m) inner
      (Z.of_nat (length inner) + srh_length n) proto (2 * (n - 1)) W
      ltac:(rewrite Hw; unfold hencap_wire, srh_packet, srh; rewrite Hen;
            replace (n - 2 + 1) with (n - 1) by lia; replace (n - 1 - (n - 1)) with 0 by lia;
            fold m; rewrite <- !app_assoc; reflexivity)
      He ltac:(done) ltac:(replace (n - 2 + 1) with (n - 1) in Hsk1 by lia; len)
      ltac:(rewrite length_app, seglist_length by (intros; apply Hsegs; lia); cbn [length]; lia)
      ltac:(lia) ltac:(unfold srh_length; rewrite Hen; lia))).
    count. tests. rewrite Hend. eexists. split; [done|]. split; [done|]. split; [done|].
    unfold psp_wire. cbn [pkt set_pkt set_stats].
    replace (Z.of_nat (length inner) + srh_length n - 8 * (2 * (n - 1) + 1)) with (Z.of_nat (length inner))
      by (unfold srh_length; rewrite Hen; lia).
    rewrite <- !app_assoc. done.
  - rewrite bind_ret. tests. rewrite Hend. by exists W.
Qed.

(** ** The decapsulating node *)

Lemma exposed_from w0 w w' act frame magic vrf es : sent w = sent w0 →
  exposed w w' act frame magic vrf es → exposed w0 w' act frame magic vrf es.
Proof. intros E (Hp & Hs & Ha & Hm). split; [done|]. split; [by rewrite Hs|done]. Qed.

Lemma srv6_dt_finish sid et w eth hdr inner :
  pkt w = eth ++ hdr ++ inner → length eth = 14%nat →
  40 ≤ Z.of_nat (length hdr) ≤ 144 →
  ∃ w' act, (_ ← decap_head (Z.of_nat (length hdr)) et; _ ← stat_inc STAT_SRV6_DECAP;
             srv6_decap_meta (ls_vrf_id sid)) w = (w', Ok act) ∧
    exposed w w' act (take 12 eth ++ to_be 2 et ++ inner) XDP_META_MAGIC_SRV6 (ls_vrf_id sid) 0.
Proof.
  intros Hp He Hh. unfold decap_head.
  rewrite (proj2 (Z.leb_le IP6_HDR_LEN _)), (proj2 (Z.leb_le _ (IP6_HDR_LEN + 104))) by (unfold IP6_HDR_LEN; lia).
  cbn [negb andb].
  rewrite (bind_ok (slide_eth_run _ et w (take 12 eth) (drop 12 eth) hdr inner
    ltac:(by rewrite (app_assoc (take 12 eth)), take_drop) ltac:(rewrite length_take_le; lia)
    ltac:(rewrite length_drop; lia) eq_refl ltac:(lia))).
  count. unfold srv6_decap_meta.
  match goal with |- context [attach_meta ?m ?v ?e ?W] =>
    destruct (attach_meta_exposed m v e w W) as (w' & act & E & Hex) end; [done|].
  by exists w', act.
Qed.

Lemma srv6_dt_run eth segs n proto src inner hop sid et w :
  pkt w = hencap_wire eth segs n proto src inner (n - 1) hop ∨ pkt w = psp_wire eth segs n proto src inner hop →
  length eth = 14%nat → length src = 16%nat → wf_segs segs n → proto = IPPROTO_IPIP ∨ proto = IPPROTO_IPV6 →
  dt_ethertype proto (ls_behavior sid) = Some et →
  ∃ w' act, srv6_dt sid w = (w', Ok act) ∧
    exposed w w' act (take 12 eth ++ to_be 2 et ++ inner) XDP_META_MAGIC_SRV6 (ls_vrf_id sid) 0.
Proof.
  intros Hp He Hs Hwf Hpr Het. pose proof Hwf as [Hn Hsegs]. unfold MAX_SEGS in Hn.
  pose proof (Hsegs (n - 1) ltac:(lia)) as Hsk. unfold srv6_dt, reach_inner. rewrite bind_assoc.
  assert (Hnr : (proto =? IPPROTO_ROUTING) = false) by (by destruct Hpr as [-> | ->]).
  destruct (decide (n ≠ 1 ∧ pkt w = hencap_wire eth segs n proto src inner (n - 1) hop)) as [[Hn1 Hp1]|Hnot].
  - assert (Hen : (n =? 1) = false) by lia. pose proof Hp1 as Hp2.
    unfold hencap_wire, srh in Hp1. rewrite Hen in Hp1. rewrite <- !app_assoc in Hp1. cbn [app] in Hp1.
    xread Hp1. tests. rewrite bind_assoc. xread Hp1. rewrite bind_assoc. xread Hp1.
    rewrite bind_assoc. xread Hp1. replace (n - 1 - (n - 1)) with 0 by lia. cbn [Z.eqb negb].
    rewrite (proj2 (Z.ltb_ge 12 _)) by lia. cbn [orb]. rewrite bind_ret. cbv iota beta. rewrite Het.
    set (hdr := to_be 4 IP6_VER_TC_FL ++ to_be 2 (Z.of_nat (length inner) + srh_length n)
      ++ [IPPROTO_ROUTING] ++ [hop] ++ src ++ seg_at segs (n - 1) ++ srh segs n proto (n - 1 - (n - 1))).
    assert (Z.of_nat (length hdr) = IP6_HDR_LEN + 8 * (2 * (n - 1) + 1)) as Hl.
    { pose proof (srh_len segs n proto (n - 1 - (n - 1)) Hwf) as Hsr. unfold srh_length in Hsr. rewrite Hen in Hsr.
      unfold hdr. len. }
    rewrite <- Hl. apply srv6_dt_finish; [|done|unfold IP6_HDR_LEN in *; lia].
    rewrite Hp2. unfold hencap_wire, hdr. rewrite Hen. by rewrite <- !app_assoc.
  - assert (Hp1 : pkt w = psp_wire eth segs n proto src inner hop).
    { destruct Hp as [Hp|Hp]; [|done]. destruct (decide (n = 1)) as [->|]; [|by destruct Hnot].
      rewrite Hp. unfold hencap_wire, psp_wire, srh_length. cbn. by rewrite Z.add_0_r. }
    pose proof Hp1 as Hp2. unfold psp_wire in Hp1. cbn [app] in Hp1. xread Hp1. rewrite Hnr, bind_ret.
    cbv iota beta. rewrite Het.
    set (hdr := to_be 4 IP6_VER_TC_FL ++ to_be 2 (Z.of_nat (length inner)) ++ [proto] ++ [hop] ++ src
      ++ seg_at segs (n - 1)).
    assert (Z.of_nat (length hdr) = IP6_HDR_LEN) as Hl by (unfold hdr; len).
    rewrite <- Hl. apply srv6_dt_finish; [|done|unfold IP6_HDR_LEN in *; lia].
    rewrite Hp2. unfold psp_wire, hdr. by rewrite <- !app_assoc.
Qed.

(** The dispatch at a node that owns the destination. *)
Lemma try_srv6_reach iif eth segs n proto src inner k hop sid w :
  pkt w = hencap_wire eth segs n proto src inner k hop ∨
    (k = n - 1 ∧ pkt w = psp_wire eth segs n proto src inner hop) →
  length eth = 14%nat → length src = 16%nat → wf_segs segs n → 0 ≤ k < n →
  proto = IPPROTO_IPIP ∨ proto = IPPROTO_IPV6 → lpm_get SRV6_LOCALSID (seg_at segs k) = Some sid →
  try_ip6_xdp iif w = srv6_behavior sid w.
Proof.
  intros Hp He Hs [Hn Hsegs] Hk Hpr Hsid. pose proof (Hsegs k Hk) as Hsk.
  assert (∃ x nh tail, (nh =? IPPROTO_UDP) = false ∧ length x = 6%nat ∧
    pkt w = eth ++ x ++ [nh] ++ [hop] ++ src ++ seg_at segs k ++ tail) as (x & nh & tail & Hnh & Hx & Hp').
  { destruct Hp as [Hp|[-> Hp]]; rewrite Hp.
    - exists (to_be 4 IP6_VER_TC_FL ++ to_be 2 (Z.of_nat (length inner) + srh_length n)).
      eexists _, _. unfold hencap_wire. rewrite <- app_assoc. split; [|split; [done|reflexivity]].
      destruct (n =? 1); by destruct Hpr as [-> | ->].
    - exists (to_be 4 IP6_VER_TC_FL ++ to_be 2 (Z.of_nat (length inner))).
      eexists _, _. unfold psp_wire. rewrite <- app_assoc. split; [|split; [done|reflexivity]].
      by destruct Hpr as [-> | ->]. }
  cbn [app] in Hp'. unfold try_ip6_xdp, try_bfd6. rewrite bind_assoc. xread Hp'. rewrite Hnh. cbn [negb].
  rewrite bind_ret. xread Hp'. rewrite Hnh. unfold try_srv6_xdp. xread Hp'. by rewrite Hsid.
Qed.

(** ** The imposition *)

(** The outer destination is not itself routed into another SRv6 tunnel. *)
Definition plain_underlay (seg0 : bytes) : Prop :=
  ∀ fib nh2, lpm_get FIB6 seg0 = Some fib → NEXTHOPS !! nexthop_id fib = Some nh2 →
    has (nh_flags nh2) NH_F_SRV6 = false ∧ nh_backup_id nh2 = 0.

Lemma second_layer_none enc w : plain_underlay (seg_at (se_segs enc) 0) →
  srv6_second_layer enc w = (w, Ok None).
Proof.
  intros Hpl. unfold srv6_second_layer, fib6_lookup. rewrite Z.eqb_refl. cbn [negb].
  rewrite bind_ret. destruct (lpm_get FIB6 _) as [fib|] eqn:E; [|done].
  destruct (has (flags fib) _); [done|]. unfold resolve_nh.
  destruct (NEXTHOPS !! nexthop_id fib) as [nh2|] eqn:E2; [|by rewrite bind_ret].
  destruct (Hpl _ _ E E2) as [Hs ->]. cbn [Z.eqb negb andb]. rewrite bind_ret. cbv iota beta.
  by rewrite Hs.
Qed.

Lemma srv6_encap_run nh_id nh enc et src dmac smac eth inner w :
  adjacency nh dmac smac → SRV6_ENCAP !! nh_id = Some enc → se_mode enc ≠ SRV6_ENCAP_MODE_INSERT →
  wf_segs (se_segs enc) (se_num_segs enc) → plain_underlay (seg_at (se_segs enc) 0) →
  SRV6_ENCAP_SRC = Some src → length src = 16%nat →
  pkt w = eth ++ inner → length eth = 14%nat → Z.of_nat (length inner) + 128 < 65536 →
  srv6_encap nh_id nh et w = (w, Err tt) ∨
  ∃ w', srv6_encap nh_id nh et w = (w', Ok (redirect_ret (nh_oif nh))) ∧
    pkt w' = hencap_wire (dmac ++ smac ++ to_be 2 ETH_P_IPV6) (se_segs enc) (se_num_segs enc)
      (inner_proto_of et) src inner 0 64 ∧ sent w' = sent w ++ [Redirect (nh_oif nh)].
Proof.
  intros Hadj Henc Hmode Hwf Hpl Hsrc Hs Hp He Hlen. pose proof Hwf as [Hn _].
  unfold srv6_encap. rewrite Henc.
  rewrite (proj2 (Z.eqb_neq (se_num_segs enc) 0)), (proj2 (Z.ltb_ge _ (se_num_segs enc))) by lia.
  rewrite (proj2 (Z.eqb_neq (se_mode enc) _)) by done. cbn [orb].
  destruct (apply_hencap_run enc et src eth inner w) as [E|E]; [done..| |].
  { left. by rewrite (bind_err E). }
  right. rewrite (bind_ok E). count. rewrite (bind_ok (second_layer_none _ _ Hpl)).
  erewrite (l2_xmit_run _ _ _ _ eth); [|exact Hadj|cbn [pkt set_pkt set_stats]; unfold hencap_wire; reflexivity|exact He].
  eexists. split; [done|]. split; [|done]. cbn [pkt set_pkt set_sent]. unfold hencap_wire.
  rewrite <- !app_assoc. done.
Qed.
End walk.

(** ** The properties *)

(** C21: an SRv6 policy is walked segment by segment and gives back the
    packet.  The head end either finds no room and leaves the frame alone,
    or sends the packet to the first segment.  Whatever End node owns
    segment [k] sends it on to segment [k+1] and changes nothing else but
    Segments Left; with the PSP flavor the node before the last removes the
    routing header.  The node that owns the last segment, an End.DT*
    accepting the inner family, exposes exactly the inner packet with or
    without the routing header, tagged with the SID's VRF. *)
Theorem srv6_policy_walk `{KernelLaws} (F1 : FibMaps) (T1 : TunnelMaps) (L1 : L3Maps)
    nh_id nh enc et src dmac smac eth inner w :
  let segs := se_segs enc in let n := se_num_segs enc in let proto := inner_proto_of et in
  @adjacency F1 L1 nh dmac smac → @SRV6_ENCAP T1 !! nh_id = Some enc → se_mode enc ≠ SRV6_ENCAP_MODE_INSERT →
  wf_segs segs n → @plain_underlay _ F1 L1 (seg_at segs 0) →
  @SRV6_ENCAP_SRC T1 = Some src → length src = 16%nat →
  pkt w = eth ++ inner → length eth = 14%nat → Z.of_nat (length inner) + 128 < 65536 →
  let run := @srv6_encap _ F1 T1 L1 nh_id nh et w in
  run = (w, Err tt) ∨
  run.2 = Ok (redirect_ret (nh_oif nh)) ∧ sent run.1 = sent w ++ [Redirect (nh_oif nh)] ∧
  pkt run.1 = hencap_wire (dmac ++ smac ++ to_be 2 ETH_P_IPV6) segs n proto src inner 0 64 ∧
  ∀ (F2 : FibMaps) (T2 : TunnelMaps) (L2 : L3Maps) (M2 : L2Maps) (B2 : BfdMaps) iif sid k hop eth2 w2,
    let at_node := @try_ip6_xdp _ F2 T2 L2 M2 B2 iif w2 in
    length eth2 = 14%nat → lpm_get (@SRV6_LOCALSID T2) (seg_at segs k) = Some sid →
    (0 ≤ k < n - 1 → ls_behavior sid = SRV6_BH_END → ls_vrf_id sid = 0 →
     pkt w2 = hencap_wire eth2 segs n proto src inner k hop →
     at_node.2 = Ok XDP_PASS ∧ sent at_node.1 = sent w2 ∧ xmeta at_node.1 = xmeta w2 ∧
     pkt at_node.1 = (if (k =? n - 2) && has (ls_flavors sid) SRV6_FLAVOR_PSP
                      then psp_wire eth2 segs n proto src inner hop
                      else hencap_wire eth2 segs n proto src inner (k + 1) hop)) ∧
    (k = n - 1 → ∀ et2, ls_behavior sid ∈ [SRV6_BH_END_DT4; SRV6_BH_END_DT6; SRV6_BH_END_DT46] →
     dt_ethertype proto (ls_behavior sid) = Some et2 →
     pkt w2 = hencap_wire eth2 segs n proto src inner k hop ∨ pkt w2 = psp_wire eth2 segs n proto src inner hop →
     ∃ act, at_node.2 = Ok act ∧
       @exposed _ _ T2 w2 at_node.1 act (take 12 eth2 ++ to_be 2 et2 ++ inner) XDP_META_MAGIC_SRV6 (ls_vrf_id sid) 0).
Proof.
  intros segs n proto Hadj Henc Hmode Hwf Hpl Hsrc Hs Hp He Hlen run. unfold run.
  destruct (@srv6_encap_run _ _ F1 T1 L1 nh_id nh enc et src dmac smac eth inner w)
    as [E|(w' & E & Hp' & Hs')]; [done..|by left|right].
  rewrite E. cbn [fst snd]. split; [done|]. split; [done|]. split; [done|].
  intros F2 T2 L2 M2 B2 iif sid k hop eth2 w2 He2 Hsid.
  assert (Hpr : proto = IPPROTO_IPIP ∨ proto = IPPROTO_IPV6).
  { unfold proto, inner_proto_of. destruct (et =? ETH_P_IPV6); tauto. }
  split.
  - intros Hk Hb Hvrf Hp2.
    rewrite (try_srv6_reach iif eth2 segs n proto src inner k hop sid w2); [|by left|done..|lia|done|done].
    unfold srv6_behavior. rewrite Hb. cbv zeta. tests.
    destruct (srv6_end_run eth2 segs n proto src inner k hop sid w2) as (w3 & E3 & ? & ? & ?); [done..|].
    change (is_one_of SRV6_BH_END [SRV6_BH_END; SRV6_BH_END_X; SRV6_BH_UA; SRV6_BH_END_T]) with true.
    cbv iota. by rewrite E3.
  - intros -> et2 Hb Het Hp2. pose proof Hwf as [Hn _].
    rewrite (try_srv6_reach iif eth2 segs n proto src inner (n - 1) hop sid w2);
      [|destruct Hp2; tauto|done..|lia|done|done].
    destruct (srv6_dt_run eth2 segs n proto src inner hop sid et2 w2) as (w3 & act & E3 & Hex); [done..|].
    assert (srv6_behavior sid = srv6_dt sid) as ->.
    { unfold srv6_behavior. cbv zeta. set_unfold. by destruct Hb as [-> | [-> | [-> | []]]]. }
    exists act. by rewrite E3.
Qed.

(** C22: removing the routing header removes exactly it.  The SRH's next
    header moves into the IPv6 header, the payload length shrinks by the
    SRH's length (so it is again the length of what follows), the Ethernet
    header, the rest of the IPv6 header and the payload are untouched; an
    oversized SRH, or one longer than the payload length says, is refused
    and changes nothing. *)
Theorem pop_srh_exact `{KernelLaws} eth vtf mid body payload plen nh ext w :
  pkt w = srh_packet eth vtf mid body payload plen nh ext →
  length eth = 14%nat → length vtf = 4%nat → length mid = 33%nat →
  Z.of_nat (length body) = 8 * (ext + 1) - 2 → 0 ≤ ext → u16 plen →
  pop_srh w =
    if (12 <? ext) || (plen <? 8 * (ext + 1)) then (w, Err tt)
    else (set_pkt (eth ++ vtf ++ to_be 2 (plen - 8 * (ext + 1)) ++ [nh] ++ mid ++ payload) w, Ok tt).
Proof.
  intros Hp He Hv Hm Hb Hext Hpl. destruct (12 <? ext) eqn:E1.
  { unfold srh_packet in Hp. cbn [app] in Hp. unfold pop_srh. xread Hp. xread Hp. by rewrite E1. }
  destruct (plen <? 8 * (ext + 1)) eqn:E2; cbn [orb].
  - unfold srh_packet in Hp. cbn [app] in Hp. unfold pop_srh. xread Hp. xread Hp. rewrite E1. xread Hp.
    rewrite of_to_be by done. by rewrite E2.
  - apply (pop_srh_run _ _ _ body); try done; unfold in_range in *; lia.
Qed.

(** ** Micro-SIDs *)

(** A carrier: the locator block, the micro-SIDs left, zeros. *)
Definition carrier (block : bytes) (us : list bytes) : bytes :=
  block ++ concat us ++ replicate (16 - length block - 2 * length us) 0.

Definition wf_usids (block : bytes) (us : list bytes) : Prop :=
  (length block + 2 * length us ≤ 16)%nat ∧ Forall (λ u, length u = 2%nat ∧ u ≠ [0; 0]) us.

Definition usid_geometry (sid : LocalSid) (block : bytes) : Prop :=
  ls_block_bits sid ∈ [16; 32; 48] ∧ ls_node_bits sid = 16 ∧
  ls_block_bits sid = 8 * Z.of_nat (length block).

Lemma concat2_length (us : list bytes) : Forall (λ u, length u = 2%nat ∧ u ≠ [0; 0]) us →
  length (concat us) = (2 * length us)%nat.
Proof. induction 1 as [|u us [Hu _] _ IH]; [done|]. cbn. rewrite length_app, IH, Hu. lia. Qed.

Lemma carrier_length block us : wf_usids block us → length (carrier block us) = 16%nat.
Proof.
  intros [Hl Hus]. unfold carrier. rewrite !length_app, length_replicate, concat2_length by done. lia.
Qed.

Lemma usid_shift_carrier sid block u us : usid_geometry sid block → wf_usids block (u :: us) →
  usid_shift (ls_block_bits sid) (ls_node_bits sid) (carrier block (u :: us)) = Some (carrier block us).
Proof.
  intros (Hb & Hn & Hl) [Hlen Hus]. apply Forall_cons in Hus as [[Hu _] Hus]. unfold usid_shift.
  assert ((ls_block_bits sid =? 16) || (ls_block_bits sid =? 32) || (ls_block_bits sid =? 48) = true) as ->.
  { set_unfold. destruct Hb as [-> | [-> | [-> | []]]]; done. }
  rewrite Hn, Z.eqb_refl. cbn [andb]. f_equal.
  assert (Z.to_nat (ls_block_bits sid / 8) = length block) as ->.
  { rewrite Hl, Z.mul_comm, Z.div_mul by lia. lia. }
  unfold carrier. rewrite take_app_length. f_equal. cbn [concat length] in *.
  rewrite <- !app_assoc, drop_app_add, drop_app_length' by done.
  replace (16 - length block - 2 * length us)%nat with (16 - length block - 2 * S (length us) + 2)%nat by lia.
  by rewrite replicate_add, <- app_assoc.
Qed.

Lemma end_of_carrier_spec sid block u us : usid_geometry sid block → wf_usids block (u :: us) →
  end_of_carrier sid (carrier block (u :: us)) = bool_decide (us = []).
Proof.
  intros (Hb & Hn & Hl) [Hlen Hus]. apply Forall_cons in Hus as [[Hu _] Hus]. unfold end_of_carrier.
  rewrite Hn, Hl, (Z.mul_comm 8), Z.div_mul by lia. change (16 / 8) with 2.
  assert (length block ≤ 6)%nat as Hb6.
  { set_unfold. destruct Hb as [E|[E|[E|[]]]]; rewrite E in Hl; lia. }
  rewrite (proj2 (Z.leb_le _ 16)) by lia. cbn [andb].
  replace (Z.to_nat (Z.of_nat (length block) + 2)) with (length block + 2)%nat by lia.
  replace (Z.to_nat (Z.of_nat (length block) + 2 + 1)) with (length block + 3)%nat by lia.
  unfold carrier, byte_at. cbn [concat]. destruct u as [|a [|b [|]]]; try done. cbn [length] in *.
  rewrite (lookup_app_r block _ (length block + 2)), (lookup_app_r block _ (length block + 3)) by lia.
  replace (length block + 2 - length block)%nat with 2%nat by lia.
  replace (length block + 3 - length block)%nat with 3%nat by lia. cbn [app lookup list_lookup].
  destruct us as [|[|x [|y [|]]] us]; try (apply Forall_cons in Hus as [[? ?] ?]; done).
  - cbn [concat app length]. destruct (16 - length block - 2 * 1)%nat as [|[|k]] eqn:E; [lia..|].
    done.
  - apply Forall_cons in Hus as [[_ Hne] _]. cbn [concat app lookup list_lookup default].
    rewrite bool_decide_false by done. cbn.
    destruct (Z.eqb_spec x 0) as [->|], (Z.eqb_spec y 0) as [->|]; done.
Qed.

(** An IPv6 frame around its destination address. *)
Definition da_frame (pre da post : bytes) : bytes := pre ++ da ++ post.

(** C23: a micro-SID carrier is consumed one micro-SID per node.  While
    another micro-SID follows, the [uN] node shifts it up behind the locator
    block, zero-fills the end of the carrier and touches nothing else; the
    frame goes on to the FIB, unless this same node also owns the micro-SID
    that became active as an adjacency, which then runs.  At the last
    micro-SID the node behaves as a plain End. *)
Theorem usid_carrier_walk `{KernelLaws} `{FibMaps} `{TunnelMaps} `{L3Maps} sid block u us pre post w :
  usid_geometry sid block → wf_usids block (u :: us) → length pre = 38%nat →
  pkt w = da_frame pre (carrier block (u :: us)) post →
  match us with
  | [] => srv6_un sid w = srv6_end sid w
  | _ :: _ =>
      ∃ w', pkt w' = da_frame pre (carrier block us) post ∧ sent w' = sent w ∧ xmeta w' = xmeta w ∧
        srv6_un sid w =
        match lpm_get SRV6_LOCALSID (carrier block us) with
        | Some next => if ls_behavior next =? SRV6_BH_UALIB then srv6_ua next w' else (w', Ok XDP_PASS)
        | None => (w', Ok XDP_PASS)
        end
  end.
Proof.
  intros Hg Hwf Hpre Hp. unfold da_frame in *. pose proof (carrier_length _ _ Hwf) as Hlc.
  unfold srv6_un. xread Hp. rewrite (end_of_carrier_spec _ _ _ _ Hg Hwf).
  destruct us as [|v us]; [done|]. rewrite bool_decide_false by done.
  unfold srv6_usid_shift. rewrite bind_assoc. xread Hp.
  rewrite (usid_shift_carrier _ _ _ _ Hg Hwf).
  assert (Hwf' : wf_usids block (v :: us)).
  { destruct Hwf as [Hl Hf]. apply Forall_cons in Hf as [_ Hf]. split; [cbn in *; lia|done]. }
  pose proof (carrier_length _ _ Hwf') as Hlc'.
  rewrite bind_assoc. erewrite bind_ok by (apply (xdp_wr_mid pre (carrier block (u :: v :: us)) post);
    [done|len|by rewrite Hlc, Hlc']).
  rewrite bind_assoc. count. rewrite bind_ret.
  match goal with |- context [xdp_rd _ _ ≫= _] => idtac end.
  match goal with |- context [(_ ≫= _) ?W] => exists W end.
  split; [done|]. split; [done|]. split; [done|].
  erewrite bind_ok by (apply (xdp_rd_mid pre (carrier block (v :: us)) post); [done|len|by rewrite Hlc']).
  destruct (lpm_get _ _) as [next|]; [|done]. by destruct (_ =? _).
Qed.

(** ** A policy of three segments *)

Definition ex_policy : Srv6Encap :=
  mkSrv6Encap 3 0 [ex_ip6 1 1; ex_ip6 1 2; ex_ip6 1 3; replicate 16 0; replicate 16 0; replicate 16 0].
Definition ex_Tp : TunnelMaps :=
  mkTunnelMaps ∅ {[5 := ex_policy]} (Some (ex_ip6 0 1)) ∅ ∅ ∅ ∅ ∅ ∅ None None ∅ None.

Lemma ex_policy_wf : wf_segs (se_segs ex_policy) (se_num_segs ex_policy).
Proof.
  split; [cbn; unfold MAX_SEGS; lia|]. intros i Hi. cbn in Hi.
  assert (i = 0 ∨ i = 1 ∨ i = 2) as [-> | [-> | ->]] by lia; reflexivity.
Qed.

Lemma srv6_policy_walk_witness :
  let w := world_of (ex_eth ++ ex_inner) in
  let run := @srv6_encap _ ex_F1 ex_Tp ex_L1 5 ex_nh ETH_P_IP w in
  run.2 = Ok 7 ∧
  (run = (w, Err tt) ∨
   run.2 = Ok (redirect_ret 2) ∧ sent run.1 = sent w ++ [Redirect 2] ∧
   pkt run.1 = hencap_wire ([2; 0; 0; 0; 0; 9] ++ [2; 0; 0; 0; 0; 1] ++ to_be 2 ETH_P_IPV6)
     (se_segs ex_policy) 3 IPPROTO_IPIP (ex_ip6 0 1) ex_inner 0 64 ∧
   ∀ (F2 : FibMaps) (T2 : TunnelMaps) (L2 : L3Maps) (M2 : L2Maps) (B2 : BfdMaps) iif sid k hop eth2 w2,
     let at_node := @try_ip6_xdp _ F2 T2 L2 M2 B2 iif w2 in
     length eth2 = 14%nat → lpm_get (@SRV6_LOCALSID T2) (seg_at (se_segs ex_policy) k) = Some sid →
     (0 ≤ k < 2 → ls_behavior sid = SRV6_BH_END → ls_vrf_id sid = 0 →
      pkt w2 = hencap_wire eth2 (se_segs ex_policy) 3 IPPROTO_IPIP (ex_ip6 0 1) ex_inner k hop →
      at_node.2 = Ok XDP_PASS ∧ sent at_node.1 = sent w2 ∧ xmeta at_node.1 = xmeta w2 ∧
      pkt at_node.1 = (if (k =? 1) && has (ls_flavors sid) SRV6_FLAVOR_PSP
                       then psp_wire eth2 (se_segs ex_policy) 3 IPPROTO_IPIP (ex_ip6 0 1) ex_inner hop
                       else hencap_wire eth2 (se_segs ex_policy) 3 IPPROTO_IPIP (ex_ip6 0 1) ex_inner (k + 1) hop)) ∧
     (k = 2 → ∀ et2, ls_behavior sid ∈ [SRV6_BH_END_DT4; SRV6_BH_END_DT6; SRV6_BH_END_DT46] →
      dt_ethertype IPPROTO_IPIP (ls_behavior sid) = Some et2 →
      pkt w2 = hencap_wire eth2 (se_segs ex_policy) 3 IPPROTO_IPIP (ex_ip6 0 1) ex_inner k hop ∨
      pkt w2 = psp_wire eth2 (se_segs ex_policy) 3 IPPROTO_IPIP (ex_ip6 0 1) ex_inner hop →
      ∃ act, at_node.2 = Ok act ∧
        @exposed _ _ T2 w2 at_node.1 act (take 12 eth2 ++ to_be 2 et2 ++ ex_inner)
          XDP_META_MAGIC_SRV6 (ls_vrf_id sid) 0)).
Proof.
  cbn zeta. split; [vm_compute; reflexivity|].
  apply (srv6_policy_walk ex_F1 ex_Tp ex_L1 5 ex_nh ex_policy ETH_P_IP (ex_ip6 0 1)
    [2; 0; 0; 0; 0; 9] [2; 0; 0; 0; 0; 1] ex_eth ex_inner).
  - split; reflexivity.
  - reflexivity.
  - discriminate.
  - exact ex_policy_wf.
  - intros fib nh2 E. vm_compute in E. discriminate.
  - reflexivity.
  - reflexivity.
  - reflexivity.
  - reflexivity.
  - reflexivity.
Defined.

Lemma pop_srh_exact_witness :
  let w := world_of (srh_packet ex_eth [0x60; 0; 0; 0] (replicate 33 7) (replicate 22 9) ex_inner 52 41 2) in
  pop_srh w =
    (set_pkt (ex_eth ++ [0x60; 0; 0; 0] ++ to_be 2 28 ++ [41] ++ replicate 33 7 ++ ex_inner) w, Ok tt).
Proof.
  cbn zeta.
  apply (pop_srh_exact ex_eth [0x60; 0; 0; 0] (replicate 33 7) (replicate 22 9) ex_inner 52 41 2).
  - reflexivity.
  - reflexivity.
  - reflexivity.
  - reflexivity.
  - reflexivity.
  - lia.
  - unfold in_range. lia.
Defined.

(** fcbb:bb00:0001:0002:: at the node that owns micro-SID 1. *)
Definition ex_un : LocalSid := mkLocalSid SRV6_BH_UN 0 0 0 32 16 0 0.

Lemma usid_carrier_walk_witness :
  let w := world_of (da_frame (replicate 38 5) (carrier [0xfc; 0xbb; 0xbb; 0] [[0; 1]; [0; 2]]) ex_inner) in
  ∃ w', pkt w' = da_frame (replicate 38 5) (carrier [0xfc; 0xbb; 0xbb; 0] [[0; 2]]) ex_inner ∧
    sent w' = sent w ∧ xmeta w' = xmeta w ∧
    @srv6_un _ ex_F2 ex_T2 ex_L2 ex_un w = (w', Ok XDP_PASS).
Proof.
  cbn zeta.
  destruct (@usid_carrier_walk _ _ ex_F2 ex_T2 ex_L2 ex_un [0xfc; 0xbb; 0xbb; 0] [0; 1] [[0; 2]]
    (replicate 38 5) ex_inner
    (world_of (da_frame (replicate 38 5) (carrier [0xfc; 0xbb; 0xbb; 0] [[0; 1]; [0; 2]]) ex_inner)))
    as (w' & Hp & Hs & Hm & E).
  - split_and!; [|done..]. right. left.
  - split; [cbn; lia|]. repeat constructor; done.
  - reflexivity.
  - reflexivity.
  - exists w'. split; [exact Hp|]. split; [exact Hs|]. split; [exact Hm|].
    rewrite E. vm_compute (lpm_get _ _). reflexivity.
Defined.
