(* ===== verification/L3Props.v ===== *)
(** * IPv4 forwarding: the properties

    The last leg of both forwarding paths; which packets the XDP-only path
    takes, and that it sends them where, and as, the TC path does. *)

From S2P Require Import Prelude.
From S2P Require Import Contract.
From S2P Require Import Common.
From S2P Require Import Dir24.
From S2P Require Import Bpf.
From S2P Require Import Frames.
From S2P Require Import KernelRef.
From S2P Require Import Maps.
From S2P Require Import L2.
From S2P Require Import Policy.
From S2P Require Import PolicyProps.
From S2P Require Import Nat.
From S2P Require Import NatProps.
From S2P Require Import Encap.
From S2P Require Import L3.
From S2P Require Import Xdp.
From S2P Require Import FrameRun.
From S2P Require Import TunnelProps.
From S2P Require Import MplsProps.

(** ** One hop *)

(** [p'] is the IPv4 packet [p] after a hop: TTL one less, checksum moved
    accordingly (in memory order, one less in the TTL byte is one more in the
    checksum), nothing else. *)
Definition one_hop (p p' : bytes) : Prop := ∃ a t pr c c' rest,
  p = a ++ [t; pr] ++ c ++ rest ∧ p' = a ++ [t - 1; pr] ++ c' ++ rest ∧
  length a = 8%nat ∧ length c = 2%nat ∧ length c' = 2%nat ∧ Forall is_byte c' ∧
  (of_le c' - (of_le c + 1)) mod 65535 = 0.

Lemma one_hop_valid p p' hl : one_hop p p' → (20 ≤ hl)%nat →
  csum_valid (take hl p) → csum_valid (take hl p').
Proof.
  intros (a & t & pr & c & c' & rest & -> & -> & Ha & Hc & Hc' & _ & Hu) Hhl. unfold csum_valid.
  assert (Htake : ∀ x y, length x = 2%nat → length y = 2%nat →
    take hl (a ++ x ++ y ++ rest) = a ++ x ++ y ++ take (hl - 12) rest).
  { intros x y Hx Hy. rewrite !take_app, Ha, Hx, Hy. rewrite !take_ge by lia. do 3 f_equal. f_equal. lia. }
  rewrite !Htake by done. set (r := take _ rest).
  assert (Nat.Even (length a)) as He by (exists 4%nat; lia).
  rewrite !(sum16_app a), !(sum16_app [_; pr]), !(sum16_app c), !(sum16_app c')
    by (done || (exists 1%nat; done)).
  rewrite (sum16_len2 c), (sum16_len2 c') by done. cbn [sum16].
  set (A := sum16 a). set (B := sum16 r). set (x := of_le c) in *. set (y := of_le c') in *.
  clearbody A B x y. clear -Hu. divlia.
Qed.

Lemma one_hop_with_ttl p : is_ip_packet ETH_P_IP p → 1 ≤ ip_ttl ETH_P_IP p →
  one_hop p (with_ttl ETH_P_IP (ip_ttl ETH_P_IP p - 1) p).
Proof.
  intros (_ & Hb & Hl) Ht. unfold with_ttl. rewrite Z.eqb_refl. set (a := take 8 p).
  assert (length a = 8%nat) as Ha by (unfold a; rewrite length_take_le; lia).
  destruct (drop 8 p) as [|t [|pr [|c0 [|c1 rest]]]] eqn:Ed;
    try (apply (f_equal length) in Ed; rewrite length_drop in Ed; cbn in Ed; lia).
  assert (Hpa : p = a ++ [t; pr] ++ [c0; c1] ++ rest) by (unfold a; cbn [app]; rewrite <- Ed; by rewrite take_drop).
  assert (ip_ttl ETH_P_IP p = t) as Et.
  { unfold ip_ttl, byte_at. rewrite Z.eqb_refl. rewrite Hpa, lookup_app_r by lia. by rewrite Ha. }
  rewrite Et in *. rewrite (proj2 (Z.eqb_neq t (t - 1))) by lia.
  pose proof Hb as Hb'. rewrite Hpa in Hb'. rewrite !Forall_app, !Forall_cons in Hb'.
  destruct Hb' as (_ & (Hbt & Hbp & _) & (Hb0 & Hb1 & _) & _).
  set (u := csum16_update _ _ _).
  destruct (csum16_update_spec (of_be [c0; c1]) (256 * t + pr) (256 * (t - 1) + pr)) as [Hr Hu].
  { unfold in_range, is_byte, of_be, of_le in *. cbn. lia. }
  { unfold in_range, is_byte in *. lia. }
  { unfold in_range, is_byte in *. lia. }
  fold u in Hr, Hu.
  exists a, t, pr, [c0; c1], (to_be 2 u), rest. split; [done|]. split; [done|]. split; [done|].
  split; [done|]. split; [apply to_be_length|]. split; [apply to_be_bytes|].
  rewrite <- sum16_len2 by apply to_be_length. pose proof (sum16_be u Hr) as Hs.
  set (S' := sum16 _) in *. clearbody u S'. unfold of_be, of_le in *. cbn in *. clear -Hu Hs. divlia.
Qed.

Section forward.
Context `{KernelLaws} `{FibMaps} `{TunnelMaps} `{L3Maps} `{L2Maps} `{PolicyMaps} `{L4Maps}.

(** ** The last leg in the TC stage *)

(** The next hop's address: the gateway, or the destination itself. *)
Definition next_hop_v4 (nh : NextHop) (dst : bytes) : bytes :=
  if negb (nh_gateway_v4 nh =? 0) then to_be 4 (nh_gateway_v4 nh) else dst.

Lemma l3_xmit_v4_run nh dst from_ep eth p w :
  pkt w = eth ++ p → length eth = 14%nat → is_ip_packet ETH_P_IP p →
  if ip_ttl ETH_P_IP p <=? 1 then l3_xmit_v4 nh dst from_ep w = (w, Ok TC_ACT_PIPE)
  else ∃ w' p', l3_xmit_v4 nh dst from_ep w = (w', Ok (redirect_ret (nh_oif nh))) ∧
    pkt w' = eth ++ p' ∧ one_hop p p' ∧
    sent w' = sent w ++ [RedirectNeigh (nh_oif nh) AF_INET (next_hop_v4 nh dst)].
Proof.
  intros Hp He (_ & Hb & Hl). set (a := take 8 p).
  assert (length a = 8%nat) as Ha by (unfold a; rewrite length_take_le; lia).
  destruct (drop 8 p) as [|t [|pr [|c0 [|c1 rest]]]] eqn:Ed;
    try (apply (f_equal length) in Ed; rewrite length_drop in Ed; cbn in Ed; lia).
  assert (Hpa : p = a ++ [t; pr] ++ [c0; c1] ++ rest) by (unfold a; cbn [app]; rewrite <- Ed; by rewrite take_drop).
  assert (ip_ttl ETH_P_IP p = t) as Et.
  { unfold ip_ttl, byte_at. rewrite Z.eqb_refl. rewrite Hpa, lookup_app_r by lia. by rewrite Ha. }
  rewrite Et. pose proof Hb as Hb'. rewrite Hpa in Hb'. rewrite !Forall_app, !Forall_cons in Hb'.
  destruct Hb' as (_ & (Hbt & Hbp & _) & (Hb0 & Hb1 & _) & _).
  unfold l3_xmit_v4. rewrite Hpa in Hp.
  assert (R1 : rd (pkt w) IP_TTL_OFF 1 = Some [t]).
  { rewrite Hp. apply (rd_mid (eth ++ a) [t] (pr :: [c0; c1] ++ rest)); [by rewrite <- app_assoc|len|done]. }
  assert (R2 : rd (pkt w) IP_TTL_OFF 2 = Some [t; pr]).
  { rewrite Hp. apply (rd_mid (eth ++ a) [t; pr] ([c0; c1] ++ rest)); [by rewrite <- app_assoc|len|done]. }
  rewrite (bind_ok (load_ne_run _ _ _ _ R1 ltac:(lia))), of_le1.
  destruct (t <=? 1) eqn:E1; [done|].
  rewrite (bind_ok (load_ne_run _ _ _ _ R2 ltac:(lia))).
  assert (of_le [t; pr] = t + 256 * pr) as -> by (unfold of_le; cbn; lia).
  assert (to_le 2 (t + 256 * pr - 1) = [t - 1; pr]) as ->.
  { unfold is_byte in *. cbn [to_le]. f_equal; [divlia|f_equal; divlia]. }
  rewrite (bind_ok (store_run IP_TTL_OFF [t - 1; pr] (eth ++ a ++ [t - 1; pr] ++ [c0; c1] ++ rest) w
    ltac:(rewrite Hp, (app_assoc eth a), (app_assoc eth a); apply wr_app; [len|done]) ltac:(done))).
  cbv zeta. set (w1 := set_pkt _ w). set (old := t + 256 * pr).
  assert (R3 : rd (pkt w1) IP_CSUM_OFF 2 = Some [c0; c1]).
  { apply (rd_mid (eth ++ a ++ [t - 1; pr]) [c0; c1] rest); [unfold w1; cbn [pkt set_pkt]; by rewrite <- !app_assoc|len|done]. }
  destruct (l3_csum_some (pkt w1) IP_CSUM_OFF old (old - 1) 2 [c0; c1] R3 ltac:(by rewrite !Forall_cons, Forall_nil)) as [pc Hpc].
  assert (Ec : l3_csum IP_CSUM_OFF old (old - 1) 2 w1 = (set_pkt pc w1, Ok tt)).
  { unfold l3_csum, put_pkt. rewrite !bind_run. cbn [get]. by rewrite Hpc. }
  rewrite (bind_ok Ec). apply l3_csum_spec in Hpc as (cc & c' & Hr & Hw & Hlc & Hbc & Hu).
  rewrite R3 in Hr. injection Hr as <-.
  assert (pc = eth ++ a ++ [t - 1; pr] ++ c' ++ rest) as ->.
  { assert (pkt w1 = (eth ++ a ++ [t - 1; pr]) ++ [c0; c1] ++ rest) as Hw1
      by (unfold w1; cbn [pkt set_pkt]; by rewrite <- !app_assoc).
    rewrite Hw1, (wr_app (eth ++ a ++ [t - 1; pr]) [c0; c1] rest c') in Hw; [|len|done].
    injection Hw as <-. by rewrite <- !app_assoc. }
  fold (next_hop_v4 nh dst). count.
  destruct (if negb (from_ep =? 0) then (FLOW_DIR_EGRESS, 0) else (FLOW_DIR_INGRESS, nh_oif nh)) as [dir ep].
  match goal with |- context [(emit_flow_v4 ?v ?d ?e ?i ≫= _) ?W] =>
    destruct (total_emit_flow v d e i W) as (w4 & [] & Eem);
    pose proof (keeps_run pkt _ _ _ _ ltac:(by apply keeps_emit_flow) Eem) as Hp4;
    pose proof (keeps_run sent _ _ _ _ ltac:(by apply keeps_emit_flow) Eem) as Hs4 end.
  rewrite (bind_ok Eem). eexists _, (a ++ [t - 1; pr] ++ c' ++ rest).
  split; [done|]. split; [done|]. split; [|cbn; by rewrite Hs4].
  exists a, t, pr, [c0; c1], c', rest. split; [done|]. split; [done|]. do 4 (split; [done|]).
  unfold csum_upd, halves, old in Hu. change (2 =? 4) with false in Hu. cbv iota in Hu.
  unfold is_byte in *. change 0xffff with (2 ^ 16 - 1) in Hu. rewrite !land_ones', !(Z.mod_small _ (2 ^ 16)) in Hu by lia.
  replace (of_le c' - (of_le [c0; c1] + 1)) with (of_le c' - (of_le [c0; c1] + (t + 256 * pr) - (t + 256 * pr - 1))) by lia.
  done.
Qed.

(** ** The whole path in the TC stage *)

(** A route and a nexthop that need no tunnel. *)
Definition plain_route (fib : FibEntry) : Prop :=
  has (flags fib) (FIB_F_BLACKHOLE .| FIB_F_LOCAL .| FIB_F_ECMP) = false.
Definition plain_nexthop (nh : NextHop) : Prop :=
  has (nh_flags nh) (NH_F_MPLS .| NH_F_SRV6 .| NH_F_GTP .| NH_F_GTP6 .| NH_F_VXLAN) = false ∧
  (nh_backup_id nh = 0 ∨ LINK_DOWN !! nh_oif nh = None).

Lemma has_lor f a b : has f (a .| b) = has f a || has f b.
Proof.
  unfold has. rewrite Z.land_lor_distr_r.
  destruct (Z.eqb_spec (f .& a) 0) as [E|E], (Z.eqb_spec (f .& b) 0) as [E2|E2];
    try (rewrite E, E2; done); cbn [negb orb]; apply negb_true_iff, Z.eqb_neq;
    intros E3; apply Z.lor_eq_0_iff in E3; tauto.
Qed.

Lemma fib4_lookup_keeps {X} (g : World → X) vrf dst : (∀ x w, g (set_stats x w) = g w) → keeps g (fib4_lookup vrf dst).
Proof.
  intros Hg. unfold fib4_lookup, stat_all. destruct (negb (vrf =? 0)).
  - destruct (lpm_get _ _); [|done]. apply keeps_bind; [by apply keeps_stat_inc|done].
  - destruct (negb (dpc _)); [done|]. destruct (dir24_lookup TBLS (of_be dst)) as [fib hits].
    apply keeps_bind; [|done]. induction hits as [|h hits IH]; [done|]. cbn [mfold].
    apply keeps_bind; [by apply keeps_stat_inc|by intros []].
Qed.

Lemma l3_forward_v4_plain vrf eth p fib nh w w1 :
  xmeta w = None → pkt w = eth ++ p → length eth = 14%nat → is_ip_packet ETH_P_IP p →
  let dst := take 4 (drop 16 p) in
  fib4_lookup vrf dst w = (w1, Ok (Some fib)) → plain_route fib →
  NEXTHOPS !! nexthop_id fib = Some nh → plain_nexthop nh →
  l3_forward_v4 vrf 0 w = l3_xmit_v4 nh dst 0 w1.
Proof.
  intros Hx Hp He (_ & _ & Hl) dst Hfib Hr Hnh [Hpn Hb]. unfold l3_forward_v4.
  assert (Hm : ∀ l, tc_meta l w = (w, Ok None)) by (intros; unfold tc_meta; rewrite bind_run; cbn; by rewrite Hx).
  assert (tc_meta_dx w = (w, Ok 0)) as E by (unfold tc_meta_dx; by rewrite (bind_ok (Hm _))).
  rewrite (bind_ok E). cbn [Z.eqb negb]. unfold egress_policy_v4. rewrite Z.eqb_refl, bind_ret. cbv iota.
  assert (rd (pkt w) IP_DST_OFF 4 = Some dst) as Rd.
  { rewrite Hp. apply (rd_mid (eth ++ take 16 p) dst (drop 20 p)).
    - rewrite <- app_assoc. f_equal. rewrite <- (take_drop 16 p) at 1. f_equal. unfold dst.
      rewrite <- (take_drop 4 (drop 16 p)) at 1. f_equal. by rewrite drop_drop.
    - len.
    - unfold dst. rewrite length_take_le; [done|]. rewrite length_drop. lia. }
  rewrite (bind_ok (load_run _ _ _ _ Rd ltac:(lia))).
  assert (routing_vrf vrf w = (w, Ok vrf)) as Ev.
  { unfold routing_vrf, tc_meta_vrf. rewrite bind_assoc, (bind_ok (Hm _)). done. }
  rewrite (bind_ok Ev), (bind_ok Hfib). unfold plain_route in Hr. rewrite !has_lor in Hr.
  apply orb_false_iff in Hr as [[Hbl Hlo]%orb_false_iff Hec]. rewrite Hbl, Hlo, Hec, bind_ret. cbv iota beta.
  assert (resolve_nh (nexthop_id fib) w1 = (w1, Ok (Some (nexthop_id fib, nh)))) as Er.
  { unfold resolve_nh. rewrite Hnh. destruct Hb as [-> | ->]; [done|]. by destruct (negb _). }
  rewrite (bind_ok Er). cbn [must of_option]. rewrite bind_ret. cbv iota beta.
  unfold plain_nexthop in Hpn. rewrite !has_lor in Hpn.
  apply orb_false_iff in Hpn as [[[[Hmp Hs]%orb_false_iff Hg]%orb_false_iff Hg6]%orb_false_iff Hvx].
  unfold l3_egress_v4. by rewrite Hs, Hg, Hg6, Hvx, Hmp.
Qed.

(** ** The [xdp-only] path *)

Lemma xdp_l3_run eth p fib nh dmac smac w :
  pkt w = eth ++ p → length eth = 14%nat → is_ip_packet ETH_P_IP p →
  (dir24_lookup TBLS (of_be (take 4 (drop 16 p)))).1 = Some fib → plain_route fib →
  NEXTHOPS !! nexthop_id fib = Some nh →
  has (nh_flags nh) (NH_F_MPLS .| NH_F_SRV6 .| NH_F_GTP .| NH_F_GTP6 .| NH_F_VXLAN) = false → adjacency nh dmac smac →
  if ip_ttl ETH_P_IP p <=? 1 then xdp_l3_forward_v4 w = (w, Ok XDP_PASS)
  else ∃ w', xdp_l3_forward_v4 w = (w', Ok (xdp_redirect_ret (nh_oif nh))) ∧
    pkt w' = dmac ++ smac ++ drop 12 eth ++ with_ttl ETH_P_IP (ip_ttl ETH_P_IP p - 1) p ∧
    sent w' = sent w ++ [Redirect (nh_oif nh)].
Proof.
  intros Hp He (_ & Hb & Hl) Hfib Hr Hnh Hpn [Hadj Hdm Hsm]. unfold xdp_l3_forward_v4.
  set (a := take 8 p).
  assert (length a = 8%nat) as Ha by (unfold a; rewrite length_take_le; lia).
  destruct (drop 8 p) as [|t [|pr [|c0 [|c1 rest]]]] eqn:Ed;
    try (apply (f_equal length) in Ed; rewrite length_drop in Ed; cbn in Ed; lia).
  assert (Hpa : p = a ++ [t; pr] ++ [c0; c1] ++ rest) by (unfold a; cbn [app]; rewrite <- Ed; by rewrite take_drop).
  assert (ip_ttl ETH_P_IP p = t) as Et.
  { unfold ip_ttl, byte_at. rewrite Z.eqb_refl. rewrite Hpa, lookup_app_r by lia. by rewrite Ha. }
  set (dst := take 4 (drop 16 p)) in *.
  assert (rd (pkt w) IP_DST_OFF 4 = Some dst) as Rd.
  { rewrite Hp. apply (rd_mid (eth ++ take 16 p) dst (drop 20 p)).
    - rewrite <- app_assoc. f_equal. rewrite <- (take_drop 16 p) at 1. f_equal. unfold dst.
      rewrite <- (take_drop 4 (drop 16 p)) at 1. f_equal. by rewrite drop_drop.
    - len.
    - unfold dst. rewrite length_take_le; [done|]. rewrite length_drop. lia. }
  rewrite (bind_ok (xdp_rd_run _ _ _ _ Rd)), Hfib. unfold plain_route in Hr. rewrite Hr, Hnh, Hpn.
  change (xdp_resolve_l2 nh) with (tc_resolve_l2 nh). rewrite Hadj.
  pose proof Hb as Hb'. rewrite Hpa in Hb'. rewrite !Forall_app, !Forall_cons in Hb'.
  destruct Hb' as (_ & (Hbt & Hbp & _) & (Hb0 & Hb1 & _) & _).
  assert (of_be [t; pr] = 256 * t + pr) as Hold by (unfold of_be, of_le; cbn; lia).
  erewrite bind_ok by (apply (xdp_be_mid (eth ++ a) [t; pr] ([c0; c1] ++ rest));
    [rewrite Hp, Hpa, <- !app_assoc; done|len|done]).
  rewrite Hold, Et, shr_div by lia. unfold is_byte in *.
  replace ((256 * t + pr) / 2 ^ 8) with t by divlia. destruct (t <=? 1) eqn:E1; [done|].
  unfold xdp_ttl_decrement. rewrite bind_assoc.
  erewrite bind_ok by (apply (xdp_be_mid (eth ++ a ++ [t; pr]) [c0; c1] rest);
    [rewrite Hp, Hpa, <- !app_assoc; done|len|done]).
  change (1 ≪ 8) with 256. rewrite bind_assoc.
  erewrite bind_ok by (apply (xdp_wr_mid (eth ++ a) [t; pr] ([c0; c1] ++ rest));
    [rewrite Hp, Hpa, <- !app_assoc; done|len|done]).
  erewrite bind_ok by (apply (xdp_wr_mid (eth ++ a ++ to_be 2 (256 * t + pr - 256)) [c0; c1] rest);
    [cbn [pkt set_pkt]; rewrite <- !app_assoc; done|len|done]).
  rewrite set_pkt_pkt. unfold write_macs. rewrite bind_assoc.
  erewrite bind_ok by (apply (xdp_wr_mid [] (take 6 eth) (drop 6 eth ++ a ++ to_be 2 (256 * t + pr - 256)
      ++ to_be 2 (csum16_update (of_be [c0; c1]) (256 * t + pr) (256 * t + pr - 256)) ++ rest));
    [cbn [pkt set_pkt]; rewrite <- !app_assoc; rewrite <- (take_drop 6 eth) at 1; by rewrite <- app_assoc
    |done|rewrite Hdm, length_take_le; lia]).
  erewrite bind_ok by (apply (xdp_wr_mid dmac (take 6 (drop 6 eth)) (drop 12 eth ++ a ++ to_be 2 (256 * t + pr - 256)
      ++ to_be 2 (csum16_update (of_be [c0; c1]) (256 * t + pr) (256 * t + pr - 256)) ++ rest));
    [cbn [pkt set_pkt app]; f_equal; rewrite <- (take_drop 6 (drop 6 eth)) at 1; by rewrite <- app_assoc, drop_drop
    |by rewrite Hdm|rewrite Hsm, length_take_le; rewrite ?length_drop; lia]).
  rewrite !set_pkt_pkt. count. unfold xdp_redirect. rewrite bind_run. eexists. split; [done|].
  split; [|done]. cbn [pkt set_sent set_stats set_pkt]. do 3 f_equal.
  unfold with_ttl. rewrite Z.eqb_refl, Ed, (proj2 (Z.eqb_neq t (t - 1))) by lia.
  fold a. f_equal. replace (256 * t + pr - 256) with (256 * (t - 1) + pr) by lia.
  change (to_be 2 (256 * (t - 1) + pr)) with [((256 * (t - 1) + pr) / 256) mod 256; (256 * (t - 1) + pr) mod 256].
  f_equal. f_equal; [divlia|f_equal; divlia].
Qed.

(** The route of the DIR-24-8 engine, with its hit counters. *)
Lemma fib4_lookup_dir24 dst w : dpc DPC_FIB4_DIR24 = true →
  ∃ w1, fib4_lookup 0 dst w = (w1, Ok (dir24_lookup TBLS (of_be dst)).1) ∧ pkt w1 = pkt w ∧ sent w1 = sent w.
Proof.
  intros Hd. pose proof (fib4_lookup_keeps pkt 0 dst ltac:(done) w) as Hp.
  pose proof (fib4_lookup_keeps sent 0 dst ltac:(done) w) as Hs. revert Hp Hs.
  unfold fib4_lookup. cbn [Z.eqb negb]. rewrite Hd. cbn [negb].
  destruct (dir24_lookup TBLS (of_be dst)) as [fib hits]. cbn [fst]. unfold stat_all.
  assert (∀ w, ∃ w', mfold (λ _ i, stat_inc i) hits tt w = (w', Ok tt)) as Ht.
  { clear. induction hits as [|h hits IH]; intros w; [by exists w|]. cbn [mfold]. count. apply IH. }
  destruct (Ht w) as [w1 E]. rewrite (bind_ok E). intros. by exists w1.
Qed.
End forward.

(** ** The properties *)

(** The two results of a hop: the same packet up to the representation of
    the checksum. *)
Definition same_hop (p p1 p2 : bytes) : Prop :=
  one_hop p p1 ∧ one_hop p p2 ∧
  ∀ hl, (20 ≤ hl)%nat → csum_valid (take hl p) → csum_valid (take hl p1) ∧ csum_valid (take hl p2).

Lemma same_hop_of p p1 p2 : one_hop p p1 → one_hop p p2 → same_hop p p1 p2.
Proof. intros H1 H2. split; [done|]. split; [done|]. intros hl Hhl Hv. split; by eapply one_hop_valid. Qed.
Lemma same_hop_refl p p1 : one_hop p p1 → same_hop p p1 p1.
Proof. intros H1. by apply same_hop_of. Qed.

(** C26: plain IPv4 forwarding does one hop.  A packet whose TTL is spent is
    left to the stack untouched; any other is redirected, once, to the
    nexthop's port toward the gateway (or the destination itself), its TTL
    one less, every other byte but the checksum's unchanged, and a header
    that had a valid checksum (options included) still has one. *)
Theorem ipv4_forward_hop `{KernelLaws} `{FibMaps} `{TunnelMaps} `{L3Maps} `{PolicyMaps}
    vrf eth p fib nh w w1 :
  xmeta w = None → pkt w = eth ++ p → length eth = 14%nat → is_ip_packet ETH_P_IP p →
  let dst := take 4 (drop 16 p) in
  fib4_lookup vrf dst w = (w1, Ok (Some fib)) → plain_route fib →
  NEXTHOPS !! nexthop_id fib = Some nh → plain_nexthop nh →
  let run := l3_forward_v4 vrf 0 w in
  if ip_ttl ETH_P_IP p <=? 1 then
    run.2 = Ok TC_ACT_PIPE ∧ pkt run.1 = pkt w ∧ sent run.1 = sent w
  else
    run.2 = Ok (redirect_ret (nh_oif nh)) ∧
    sent run.1 = sent w ++ [RedirectNeigh (nh_oif nh) AF_INET (next_hop_v4 nh dst)] ∧
    ∃ p', pkt run.1 = eth ++ p' ∧ one_hop p p' ∧
      ∀ hl, (20 ≤ hl)%nat → csum_valid (take hl p) → csum_valid (take hl p').
Proof.
  intros Hx Hp He Hip dst Hfib Hr Hnh Hpn run. unfold run.
  rewrite (l3_forward_v4_plain vrf eth p fib nh w w1) by done.
  pose proof (keeps_run pkt _ _ _ _ (fib4_lookup_keeps pkt vrf dst ltac:(done)) Hfib) as Hp1.
  pose proof (keeps_run sent _ _ _ _ (fib4_lookup_keeps sent vrf dst ltac:(done)) Hfib) as Hs1.
  pose proof (l3_xmit_v4_run nh dst 0 eth p w1 ltac:(congruence) He Hip) as Hxm. fold dst.
  destruct (_ <=? 1); [by rewrite Hxm|].
  destruct Hxm as (w' & p' & -> & Hp' & Hhop & Hs'). cbn [fst snd]. split; [done|].
  split; [congruence|]. exists p'. split; [done|]. split; [done|]. intros. by eapply one_hop_valid.
Qed.

(** ** The two stages *)

Section stages.
Context `{FibMaps} `{L3Maps}.

(** What the fast path forwards: the nexthop of the packet's route with the
    MACs of its neighbour and of its port.  [None]: the stack's. *)
Definition fast_hop (p : bytes) : option (NextHop * (bytes * bytes)) :=
  fib ← (dir24_lookup TBLS (of_be (take 4 (drop 16 p)))).1;
  if has (flags fib) (FIB_F_BLACKHOLE .| FIB_F_LOCAL .| FIB_F_ECMP) then None else
  nh ← NEXTHOPS !! nexthop_id fib;
  if has (nh_flags nh) (NH_F_MPLS .| NH_F_SRV6 .| NH_F_GTP .| NH_F_GTP6 .| NH_F_VXLAN) then None else
  macs ← tc_resolve_l2 nh;
  if ip_ttl ETH_P_IP p <=? 1 then None else Some (nh, macs).

(** The kernel's own tables: [arp] its neighbours, [own] the addresses of its
    interfaces.  The maps follow them. *)
Record mirrors (arp : Z → bytes → bytes) (own : Z → bytes) : Prop := mkMirrors {
  mi_neigh : ∀ oif ip ne, length ip = 4%nat → Forall is_byte ip →
    NEIGH4 !! mkNeigh4Key oif (of_be ip) = Some ne → ne_mac ne = arp oif ip;
  mi_none : ∀ oif, NEIGH4 !! mkNeigh4Key oif 0 = None;
  mi_port : ∀ oif pc, PORTS !! oif = Some pc → pc_mac pc = own oif }.

(** What leaves the port: [bpf_redirect] sends the frame as it is,
    [bpf_redirect_neigh] under the link header of the next hop. *)
Definition on_wire (arp : Z → bytes → bytes) (own : Z → bytes) (e : Effect) (frame : bytes) : bytes :=
  match e with
  | RedirectNeigh oif _ via => arp oif via ++ own oif ++ drop 12 frame
  | _ => frame
  end.

Lemma resolved_wire arp own nh dst dmac smac : mirrors arp own → u32 (nh_gateway_v4 nh) →
  has (nh_flags nh) NH_F_V6 = false → tc_resolve_l2 nh = Some (dmac, smac) →
  dmac = arp (nh_oif nh) (next_hop_v4 nh dst) ∧ smac = own (nh_oif nh).
Proof.
  intros [Hn Hz Ho] Hg Hv6. unfold tc_resolve_l2, next_hop_v4. rewrite Hv6.
  intros (d & (ne & E & ->)%fmap_Some & (s & (pc & Es & ->)%fmap_Some & [= <- <-])%bind_Some)%bind_Some.
  split; [|by apply Ho]. destruct (Z.eqb_spec (nh_gateway_v4 nh) 0) as [Ez|Ez]; [rewrite Ez, Hz in E; done|].
  apply Hn; [apply to_be_length|apply to_be_bytes|]. cbn [Z.eqb negb]. by rewrite of_to_be by done.
Qed.
End stages.

(** The fast path, case by case. *)
Lemma fast_run `{KernelLaws} `{FibMaps} `{L3Maps} eth p w :
  pkt w = eth ++ p → length eth = 14%nat → is_ip_packet ETH_P_IP p →
  (∀ nh dmac smac, tc_resolve_l2 nh = Some (dmac, smac) → length dmac = 6%nat ∧ length smac = 6%nat) →
  match fast_hop p with
  | None => xdp_l3_forward_v4 w = (w, Ok XDP_PASS)
  | Some (nh, (dmac, smac)) => ∃ w', xdp_l3_forward_v4 w = (w', Ok (xdp_redirect_ret (nh_oif nh))) ∧
      pkt w' = dmac ++ smac ++ drop 12 eth ++ with_ttl ETH_P_IP (ip_ttl ETH_P_IP p - 1) p ∧
      sent w' = sent w ++ [Redirect (nh_oif nh)]
  end.
Proof.
  intros Hp He Hip Hmacs. unfold fast_hop. set (dst := take 4 (drop 16 p)).
  assert (Hrd : rd (pkt w) IP_DST_OFF 4 = Some dst).
  { rewrite Hp. destruct Hip as (_ & _ & Hl). apply (rd_mid (eth ++ take 16 p) dst (drop 20 p)).
    - rewrite <- app_assoc. f_equal. rewrite <- (take_drop 16 p) at 1. f_equal. unfold dst.
      rewrite <- (take_drop 4 (drop 16 p)) at 1. f_equal. by rewrite drop_drop.
    - rewrite length_app, He, length_take_le by lia. done.
    - unfold dst. rewrite length_take_le; [done|]. rewrite length_drop. lia. }
  pose proof (λ f : bytes → Prog Z, bind_ok (f := f) (xdp_rd_run _ _ _ _ Hrd)) as Hread.
  destruct (dir24_lookup TBLS (of_be dst)).1 as [fib|] eqn:Efib; [|unfold xdp_l3_forward_v4; by rewrite Hread, Efib].
  cbn [mbind option_bind].
  destruct (has (flags fib) (FIB_F_BLACKHOLE .| FIB_F_LOCAL .| FIB_F_ECMP)) eqn:Eroute;
    [unfold xdp_l3_forward_v4; by rewrite Hread, Efib, Eroute|].
  destruct (NEXTHOPS !! nexthop_id fib) as [nh|] eqn:Enh; [|unfold xdp_l3_forward_v4; by rewrite Hread, Efib, Eroute, Enh].
  cbn [mbind option_bind].
  destruct (has (nh_flags nh) (NH_F_MPLS .| NH_F_SRV6 .| NH_F_GTP .| NH_F_GTP6 .| NH_F_VXLAN)) eqn:Eflags;
    [unfold xdp_l3_forward_v4; by rewrite Hread, Efib, Eroute, Enh, Eflags|].
  destruct (tc_resolve_l2 nh) as [[dmac smac]|] eqn:Eadj.
  2:{ unfold xdp_l3_forward_v4. rewrite Hread, Efib, Eroute, Enh, Eflags.
      change (xdp_resolve_l2 nh) with (tc_resolve_l2 nh). by rewrite Eadj. }
  cbn [mbind option_bind]. destruct (Hmacs _ _ _ Eadj) as [Hdm Hsm].
  pose proof (xdp_l3_run eth p fib nh dmac smac w Hp He Hip Efib Eroute Enh Eflags ltac:(by split)) as Hxdp.
  by destruct (ip_ttl ETH_P_IP p <=? 1).
Qed.

(** C27: the [xdp-only] fast path refines the full pipeline, for a port of
    the default VRF that is no endpoint and with the DIR-24-8 engine.  The
    frames that are not its own ([fast_hop]: no plain route or nexthop, a
    neighbour or port that is not known, a spent TTL) it passes to the stack
    untouched.  Any other it redirects to the port of the route's nexthop,
    under the MACs of that neighbour and that port, one hop further, with a
    checksum that is valid if the original's was.  The TC stage redirects
    the same packet there - unless the port is down and the nexthop has a
    backup, which the fast path does not look for - toward the gateway or the
    destination; and where the maps follow the kernel's tables, the two
    frames leave the port under the same link header. *)
Theorem xdp_tc_forward_agree `{KernelLaws} `{FibMaps} `{TunnelMaps} `{L3Maps} `{PolicyMaps}
    macs p w :
  dpc DPC_FIB4_DIR24 = true →
  (∀ nh dmac smac, tc_resolve_l2 nh = Some (dmac, smac) → length dmac = 6%nat ∧ length smac = 6%nat) →
  xmeta w = None → pkt w = macs ++ to_be 2 ETH_P_IP ++ p → length macs = 12%nat → is_ip_packet ETH_P_IP p →
  let xdp := cradle_xdp_l3 w in
  let tc := l3_forward_v4 0 0 w in
  match fast_hop p with
  | None => xdp = (w, Ok XDP_PASS)
  | Some (nh, (dmac, smac)) =>
      let oif := nh_oif nh in
      let via := next_hop_v4 nh (take 4 (drop 16 p)) in
      ∃ p1, xdp.2 = Ok (xdp_redirect_ret oif) ∧ sent xdp.1 = sent w ++ [Redirect oif] ∧
        pkt xdp.1 = dmac ++ smac ++ to_be 2 ETH_P_IP ++ p1 ∧ same_hop p p1 p1 ∧
        (nh_backup_id nh = 0 ∨ LINK_DOWN !! oif = None →
         ∃ p2, tc.2 = Ok (redirect_ret oif) ∧ sent tc.1 = sent w ++ [RedirectNeigh oif AF_INET via] ∧
           pkt tc.1 = macs ++ to_be 2 ETH_P_IP ++ p2 ∧ same_hop p p1 p2 ∧
           ∀ arp own, mirrors arp own → u32 (nh_gateway_v4 nh) → has (nh_flags nh) NH_F_V6 = false →
             on_wire arp own (Redirect oif) (pkt xdp.1) = dmac ++ smac ++ to_be 2 ETH_P_IP ++ p1 ∧
             on_wire arp own (RedirectNeigh oif AF_INET via) (pkt tc.1) = dmac ++ smac ++ to_be 2 ETH_P_IP ++ p2)
  end.
Proof.
  intros Hd Hmacs Hx Hp Hm Hip xdp tc. unfold xdp, tc, cradle_xdp_l3.
  set (eth := macs ++ to_be 2 ETH_P_IP).
  assert (length eth = 14%nat) as He by (unfold eth; rewrite length_app, to_be_length, Hm; done).
  assert (pkt w = eth ++ p) as Hp' by (unfold eth; by rewrite <- app_assoc).
  assert (catch (et ← xdp_be 2 ETH_TYPE_OFF;
    if negb (et =? ETH_P_IP) then mret XDP_PASS else xdp_l3_forward_v4) w = catch xdp_l3_forward_v4 w) as Ecatch.
  { unfold catch. xread Hp. rewrite of_to_be by done. by rewrite Z.eqb_refl. }
  rewrite !bind_run, Ecatch. clear Ecatch. unfold catch.
  pose proof (fast_run eth p w Hp' He Hip Hmacs) as Hxdp. unfold fast_hop in *. set (dst := take 4 (drop 16 p)) in *.
  destruct (dir24_lookup TBLS (of_be dst)).1 as [fib|] eqn:Efib; [|by rewrite Hxdp].
  cbn [mbind option_bind] in *. destruct (has (flags fib) _) eqn:Eroute; [by rewrite Hxdp|].
  destruct (NEXTHOPS !! nexthop_id fib) as [nh|] eqn:Enh; [|by rewrite Hxdp].
  cbn [mbind option_bind] in *. destruct (has (nh_flags nh) (NH_F_MPLS .| _ .| _ .| _ .| _)) eqn:Eflags; [by rewrite Hxdp|].
  destruct (tc_resolve_l2 nh) as [[dmac smac]|] eqn:Eadj; [|by rewrite Hxdp].
  cbn [mbind option_bind] in *. destruct (ip_ttl ETH_P_IP p <=? 1) eqn:Ettl; [by rewrite Hxdp|].
  destruct Hxdp as (wx & -> & Hpx & Hsx). cbn [fst snd]. cbv zeta.
  set (p1 := with_ttl ETH_P_IP (ip_ttl ETH_P_IP p - 1) p) in *.
  assert (one_hop p p1) as Hhx by (apply one_hop_with_ttl; [done|lia]).
  assert (pkt wx = dmac ++ smac ++ to_be 2 ETH_P_IP ++ p1) as Hpk.
  { rewrite Hpx. unfold eth. by rewrite drop_app_length' by done. }
  exists p1. split; [done|]. split; [done|]. split; [exact Hpk|]. split; [by apply same_hop_refl|].
  intros Hup. destruct (fib4_lookup_dir24 dst w Hd) as (w1 & Efl & Hp1 & Hs1). rewrite Efib in Efl.
  rewrite (l3_forward_v4_plain 0 eth p fib nh w w1) by (done || by split).
  pose proof (l3_xmit_v4_run nh dst 0 eth p w1 ltac:(congruence) He Hip) as Htc. fold dst. rewrite Ettl in Htc.
  destruct Htc as (wt & p2 & -> & Hpt & Hhop & Hst). exists p2. cbn [fst snd]. split; [done|]. split; [congruence|].
  assert (pkt wt = macs ++ to_be 2 ETH_P_IP ++ p2) as Hpw by (rewrite Hpt; unfold eth; by rewrite <- app_assoc).
  split; [exact Hpw|]. split; [by apply same_hop_of|]. intros arp own Hmi Hg Hv6. split; [exact Hpk|].
  destruct (resolved_wire arp own nh dst dmac smac Hmi Hg Hv6 Eadj) as [-> ->].
  cbn [on_wire]. rewrite Hpw. by rewrite drop_app_length' by done.
Qed.

(** ** A router *)

(** VRF 3 holds 10.0.0.0/8; the packet's next hop is 10.0.0.254 on port 2. *)
Definition ex_F3 : FibMaps :=
  mkFibMaps {[2 := mkPortConfig [2; 0; 0; 0; 0; 1] 0 PORT_F_L3 0]} ∅ ∅
    {[(40, [3; 0; 0; 0; 10; 0; 0; 0]) := mkFibEntry 5 0]} ∅.
Definition ex_P3 : PolicyMaps := mkPolicyMaps ∅ ∅ ∅ ∅ ∅ ∅.

Lemma ipv4_forward_hop_witness :
  let w := world_of (ex_eth ++ ex_ip) in
  let run := @l3_forward_v4 _ ex_F3 ex_T1 ex_L1 ex_P3 3 0 w in
  run.2 = Ok 7 ∧
  if ip_ttl ETH_P_IP ex_ip <=? 1 then
    run.2 = Ok TC_ACT_PIPE ∧ pkt run.1 = pkt w ∧ sent run.1 = sent w
  else
    run.2 = Ok (redirect_ret (nh_oif ex_nh)) ∧
    sent run.1 = sent w ++ [RedirectNeigh (nh_oif ex_nh) AF_INET (next_hop_v4 ex_nh (take 4 (drop 16 ex_ip)))] ∧
    ∃ p', pkt run.1 = ex_eth ++ p' ∧ one_hop ex_ip p' ∧
      ∀ hl, (20 ≤ hl)%nat → csum_valid (take hl ex_ip) → csum_valid (take hl p').
Proof.
  cbn zeta. split; [vm_compute; reflexivity|].
  apply (@ipv4_forward_hop _ _ ex_F3 ex_T1 ex_L1 ex_P3 3 ex_eth ex_ip (mkFibEntry 5 0) ex_nh _
    (@fib4_lookup _ ex_F3 ex_L1 3 (take 4 (drop 16 ex_ip)) (world_of (ex_eth ++ ex_ip))).1).
  - reflexivity.
  - reflexivity.
  - reflexivity.
  - exact ex_ip_packet.
  - vm_compute. reflexivity.
  - reflexivity.
  - reflexivity.
  - split; [reflexivity|by left].
Defined.

(** A DIR-24-8 router whose default route leads to the same next hop. *)
Definition ex_L3 : L3Maps :=
  mkL3Maps (mkTables (mkArray (2 ^ 24) ∅) (mkArray 0 ∅) (mkArray 1 {[0 := fibw_entry 5 0]}))
    (Some DPC_FIB4_DIR24) {[5 := ex_nh]} ∅ ∅ ∅
    {[mkNeigh4Key 2 (of_be [10; 0; 0; 254]) := mkNeighEntry [2; 0; 0; 0; 0; 9] 1]} ∅ ∅.

Lemma ex_L3_macs nh dmac smac : @tc_resolve_l2 ex_F1 ex_L3 nh = Some (dmac, smac) →
  length dmac = 6%nat ∧ length smac = 6%nat.
Proof.
  unfold tc_resolve_l2. cbn. intros E. destruct (has _ _); cbn in E; [by rewrite lookup_empty in E|].
  apply bind_Some in E as (d & Ed & E). apply bind_Some in E as (s & Es & [= <- <-]).
  apply fmap_Some in Ed as (ne & [_ <-]%lookup_singleton_Some & ->).
  apply fmap_Some in Es as (pc & [_ <-]%lookup_singleton_Some & ->). done.
Qed.

(** The neighbour and the port as the kernel knows them. *)
Lemma ex_mirrors : @mirrors ex_F1 ex_L3 (λ _ _, [2; 0; 0; 0; 0; 9]) (λ _, [2; 0; 0; 0; 0; 1]).
Proof.
  split.
  - intros oif ip ne _ _ E. cbn [NEIGH4 ex_L3] in E. by apply lookup_singleton_Some in E as [_ <-].
  - intros oif. cbn [NEIGH4 ex_L3]. apply lookup_singleton_None. intros [= _ E].
  - intros oif pc E. cbn [PORTS ex_F1] in E. by apply lookup_singleton_Some in E as [_ <-].
Qed.

Lemma xdp_tc_forward_agree_witness :
  let macs := [2; 0; 0; 0; 0; 8; 2; 0; 0; 0; 0; 7] in
  let w := world_of (macs ++ to_be 2 ETH_P_IP ++ ex_ip) in
  let xdp := @cradle_xdp_l3 _ ex_F1 ex_L3 w in
  let tc := @l3_forward_v4 _ ex_F1 ex_T1 ex_L3 ex_P3 0 0 w in
  @fast_hop ex_F1 ex_L3 ex_ip = Some (ex_nh, ([2; 0; 0; 0; 0; 9], [2; 0; 0; 0; 0; 1])) ∧
  match @fast_hop ex_F1 ex_L3 ex_ip with
  | None => xdp = (w, Ok XDP_PASS)
  | Some (nh, (dmac, smac)) =>
      let oif := nh_oif nh in
      let via := next_hop_v4 nh (take 4 (drop 16 ex_ip)) in
      ∃ p1, xdp.2 = Ok (xdp_redirect_ret oif) ∧ sent xdp.1 = sent w ++ [Redirect oif] ∧
        pkt xdp.1 = dmac ++ smac ++ to_be 2 ETH_P_IP ++ p1 ∧ same_hop ex_ip p1 p1 ∧
        (nh_backup_id nh = 0 ∨ @LINK_DOWN ex_L3 !! oif = None →
         ∃ p2, tc.2 = Ok (redirect_ret oif) ∧ sent tc.1 = sent w ++ [RedirectNeigh oif AF_INET via] ∧
           pkt tc.1 = macs ++ to_be 2 ETH_P_IP ++ p2 ∧ same_hop ex_ip p1 p2 ∧
           ∀ arp own, @mirrors ex_F1 ex_L3 arp own → u32 (nh_gateway_v4 nh) → has (nh_flags nh) NH_F_V6 = false →
             on_wire arp own (Redirect oif) (pkt xdp.1) = dmac ++ smac ++ to_be 2 ETH_P_IP ++ p1 ∧
             on_wire arp own (RedirectNeigh oif AF_INET via) (pkt tc.1) = dmac ++ smac ++ to_be 2 ETH_P_IP ++ p2)
  end ∧ (nh_backup_id ex_nh = 0 ∧ u32 (nh_gateway_v4 ex_nh) ∧ has (nh_flags ex_nh) NH_F_V6 = false) ∧
  @mirrors ex_F1 ex_L3 (λ _ _, [2; 0; 0; 0; 0; 9]) (λ _, [2; 0; 0; 0; 0; 1]).
Proof.
  cbn zeta. split; [vm_compute; reflexivity|]. split.
  - apply (@xdp_tc_forward_agree _ _ ex_F1 ex_T1 ex_L3 ex_P3).
    + reflexivity.
    + exact ex_L3_macs.
    + reflexivity.
    + reflexivity.
    + reflexivity.
    + exact ex_ip_packet.
  - split; [|exact ex_mirrors]. split; [reflexivity|]. split; [vm_compute; split; (discriminate || reflexivity)|reflexivity].
Defined.
