(* ===== verification/DpPolicy.v ===== *)
(** * Replacing an endpoint's policy

    [endpoint_policy_set] of [crates/cradle/src/dataplane.rs] installs a new
    rule table under the inactive generation, flips the endpoint to it with
    one word, and sweeps the old one.  No packet that reads the maps at one
    instant sees anything but the old table or the new one.  What a failed
    update has installed stays for the next successful one. *)

From S2P Require Import Prelude.
From S2P Require Import Contract.
From S2P Require Import Common.
From S2P Require Import Bpf.
From S2P Require Import KernelRef.
From S2P Require Import Maps.
From S2P Require Import Policy.
From S2P Require Import L3.
From S2P Require Import MapRefs.
From S2P Require Import Dataplane.
From S2P Require Import DpRun.

(** ** What a packet can see *)

Definition gen_bits (fl : Z) : Z := if has fl EP_F_GEN then POLICY_KEY_GEN else 0.

(** The generation [fl] selects holds [k]. *)
Definition active_key (fl : Z) (k : PolicyKey) : Prop := pol_dir k .& POLICY_KEY_GEN = gen_bits fl.

(** The two states treat endpoint [x]'s packets alike. *)
Record same_endpoint (x : Z) (d d' : Dp) : Prop := mkSame {
  se_fib : dp_fib d' = dp_fib d;
  se_identity : @IDENTITY (dp_pol d') = @IDENTITY (dp_pol d);
  se_cidr : @CIDR_ID (dp_pol d') = @CIDR_ID (dp_pol d);
  se_identity6 : @IDENTITY6 (dp_pol d') = @IDENTITY6 (dp_pol d);
  se_cidr6 : @CIDR_ID6 (dp_pol d') = @CIDR_ID6 (dp_pol d);
  se_flags : @EP_POLICY (dp_pol d') !! x = @EP_POLICY (dp_pol d) !! x;
  se_rules : ∀ fl k, @EP_POLICY (dp_pol d) !! x = Some fl → pol_ep k = x → active_key fl k →
    @POLICY (dp_pol d') !! k = @POLICY (dp_pol d) !! k;
}.

#[global] Instance same_endpoint_equiv x : Equivalence (same_endpoint x).
Proof.
  split.
  - by split.
  - intros d d' []. split; try done. intros fl k Hf Hk Ha. symmetry. apply (se_rules0 fl); congruence.
  - intros d1 d2 d3 [] []. split; try congruence. intros fl k Hf Hk Ha.
    transitivity (@POLICY (dp_pol d2) !! k); [apply (se_rules1 fl)|apply (se_rules0 fl)]; congruence.
Qed.

(** The three enforcement points of [x] on the frame of [w]. *)
Definition treatment `{Kernel} (d : Dp) (x port_vrf : Z) (w : World) :=
  (@ingress_policy _ (dp_fib d) (dp_pol d) x w, @egress_policy_v4 _ (dp_pol d) port_vrf x w,
   @egress_policy_v6 _ (dp_pol d) port_vrf x w).

(** ** Programs that agree at every world *)

Lemma bind_ext {A B} (m m' : Prog A) (f g : A → Prog B) w :
  (∀ w, m w = m' w) → (∀ a w, f a w = g a w) → (m ≫= f) w = (m' ≫= g) w.
Proof. intros Hm Hf. rewrite !bind_run, Hm. destruct (m' w) as [w' [a|]]; [apply Hf|done]. Qed.

Lemma unwrap_or_ext {A} (d : A) m m' w : (∀ w, m w = m' w) → unwrap_or d m w = unwrap_or d m' w.
Proof. intros Hm. unfold unwrap_or, fmap, M_fmap, catch. by rewrite Hm. Qed.

Lemma if_ext {A} (b : bool) (m m' n n' : Prog A) w :
  (b = true → m w = m' w) → (b = false → n w = n' w) →
  (if b then m else n) w = (if b then m' else n') w.
Proof. destruct b; auto. Qed.

Section readers.
Context `{Kernel}.

Lemma active_dir fl dir : dir = POLICY_DIR_INGRESS ∨ dir = POLICY_DIR_EGRESS →
  dir_gen fl dir .& POLICY_KEY_GEN = gen_bits fl.
Proof. unfold dir_gen, gen_bits. destruct (has fl EP_F_GEN); by intros [-> | ->]. Qed.

Lemma walk_same (P Q : PolicyMaps) key pats allowed :
  (∀ pat, @POLICY P !! key pat = @POLICY Q !! key pat) →
  @policy_walk P key pats allowed = @policy_walk Q key pats allowed.
Proof.
  intros Hk. revert allowed. induction pats as [|p pats IH]; intros allowed; [done|].
  cbn. rewrite Hk. destruct (_ !! _) as [v|]; [|apply IH]. destruct (v =? POLICY_DENY); [done|apply IH].
Qed.

Lemma walk_endpoint x d d' fl dir identity dport proto :
  same_endpoint x d d' → @EP_POLICY (dp_pol d) !! x = Some fl →
  dir = POLICY_DIR_INGRESS ∨ dir = POLICY_DIR_EGRESS →
  @policy_walk (dp_pol d) (policy_key x identity dport proto (dir_gen fl dir)) POLICY_PATS false =
  @policy_walk (dp_pol d') (policy_key x identity dport proto (dir_gen fl dir)) POLICY_PATS false.
Proof.
  intros [] Hf Hd. apply walk_same. intros pat. symmetry. apply (se_rules0 fl); [done|done|].
  by apply active_dir.
Qed.

Lemma denied_same x d d' fl dir vrf w :
  same_endpoint x d d' → @EP_POLICY (dp_pol d) !! x = Some fl →
  dir = POLICY_DIR_INGRESS ∨ dir = POLICY_DIR_EGRESS →
  @policy_denied _ (dp_pol d) x (dir_gen fl dir) vrf w = @policy_denied _ (dp_pol d') x (dir_gen fl dir) vrf w ∧
  @policy_denied_v6 _ (dp_pol d) x (dir_gen fl dir) vrf w = @policy_denied_v6 _ (dp_pol d') x (dir_gen fl dir) vrf w.
Proof.
  intros Hs Hf Hd. pose proof Hs as [_ Hi Hc Hi6 Hc6 _ _]. unfold policy_denied, policy_denied_v6.
  split; repeat first [apply bind_ext; [done|intros] | destruct (_ : Z * Z)].
  - apply if_ext; [done|intros _]. unfold identity4. rewrite Hi, Hc.
    apply bind_ext; [done|intros _ ?]. unfold mret, M_ret. do 2 f_equal. by apply walk_endpoint.
  - apply if_ext; [done|intros _]. unfold identity6. rewrite Hi6, Hc6.
    apply bind_ext; [done|intros _ ?]. unfold mret, M_ret. do 2 f_equal. by apply walk_endpoint.
Qed.

Lemma treatment_same x d d' port_vrf w : same_endpoint x d d' → treatment d' x port_vrf w = treatment d x port_vrf w.
Proof.
  intros Hs. pose proof Hs as [Hfib _ _ _ _ Hfl _]. unfold treatment. rewrite Hfib.
  unfold ingress_policy, egress_policy_v4, egress_policy_v6. rewrite Hfl.
  destruct (@EP_POLICY (dp_pol d) !! x) as [fl|] eqn:Hf; [|done].
  assert (∀ dir vrf w, dir = POLICY_DIR_INGRESS ∨ dir = POLICY_DIR_EGRESS →
    unwrap_or true (@policy_denied _ (dp_pol d') x (dir_gen fl dir) vrf) w =
    unwrap_or true (@policy_denied _ (dp_pol d) x (dir_gen fl dir) vrf) w ∧
    unwrap_or true (@policy_denied_v6 _ (dp_pol d') x (dir_gen fl dir) vrf) w =
    unwrap_or true (@policy_denied_v6 _ (dp_pol d) x (dir_gen fl dir) vrf) w) as Hden.
  { intros dir vrf w0 Hd. split; apply unwrap_or_ext; intros w1; symmetry;
      by apply (denied_same x d d' fl dir vrf w1 Hs Hf Hd). }
  f_equal; [f_equal|].
  - apply bind_ext; [done|intros ety w1]. apply if_ext; intros _.
    + apply bind_ext; [intros w2; apply if_ext; [intros _; apply Hden; by left|done]|done].
    + apply if_ext; [intros _|done].
      apply bind_ext; [intros w2; apply if_ext; [intros _; apply Hden; by left|done]|done].
  - apply if_ext; [done|intros _].
    apply bind_ext; [intros w2; apply if_ext; [intros _; apply Hden; by right|done]|done].
  - apply if_ext; [done|intros _].
    apply bind_ext; [intros w2; apply if_ext; [intros _; apply Hden; by right|done]|done].
Qed.
End readers.

(** ** Writes no packet notices *)

(** Rule [k] is not in the table [eps] selects for its endpoint. *)
Definition inert (eps : gmap Z Z) (k : PolicyKey) : Prop := ∀ fl, eps !! pol_ep k = Some fl → ¬ active_key fl k.

(** As long as [EP_POLICY] is [eps], no endpoint's treatment changes. *)
Definition unnoticed (eps : gmap Z Z) (d d' : Dp) : Prop :=
  @EP_POLICY (dp_pol d) = eps → @EP_POLICY (dp_pol d') = eps ∧ ∀ x, same_endpoint x d d'.

#[global] Instance unnoticed_preorder eps : PreOrder (unnoticed eps).
Proof.
  split; [by intros d|]. intros d1 d2 d3 H12 H23 E.
  destruct (H12 E) as [E2 S12], (H23 E2) as [E3 S23]. split; [done|]. intros x. by transitivity d2.
Qed.

Lemma inert_write eps d (m : gmap PolicyKey Z) k :
  inert eps k → (∀ k', k' ≠ k → m !! k' = @POLICY (dp_pol d) !! k') → unnoticed eps d (over m_POLICY m d).
Proof.
  intros Hi Hm E. split; [done|]. intros x. split; try done. intros fl k' Hf <- Ha. cbn.
  apply Hm. intros ->. rewrite E in Hf. by apply (Hi fl).
Qed.

Lemma put_unnoticed eps k v d : inert eps k →
  unnoticed eps d (over m_POLICY (<[k := v]> (view m_POLICY d)) d).
Proof. intros Hi. apply (inert_write eps d _ k Hi). intros. by rewrite lookup_insert_ne by congruence. Qed.

Lemma drop_unnoticed eps k d : inert eps k →
  unnoticed eps d (over m_POLICY (delete k (view m_POLICY d)) d).
Proof. intros Hi. apply (inert_write eps d _ k Hi). intros. by rewrite lookup_delete_ne by congruence. Qed.

(** ** Tables *)

(** The table a list of rules describes: a later rule with the same key
    replaces an earlier one. *)
Definition rule_table (ep dir : Z) (rules : list Rule) : gmap PolicyKey Z :=
  put_all (λ _ r, rule_key ep dir r) (λ _ r, rule_verdict r) 0 rules ∅.

Lemma rule_table_keys ep dir rules k v : rule_table ep dir rules !! k = Some v → pol_ep k = ep ∧ pol_dir k = dir.
Proof.
  intros Hk. destruct (decide (pol_ep k = ep ∧ pol_dir k = dir)) as [|Hn]; [done|exfalso].
  unfold rule_table in Hk. rewrite put_all_None in Hk; [by rewrite lookup_empty in Hk|].
  intros _ r _ <-. by apply Hn.
Qed.

Section writes.
Context `{MapSysLaws}.

Lemma install_evolves eps ep dir rules : (∀ r, inert eps (rule_key ep dir r)) →
  evolves (unnoticed eps) (install_rules ep dir rules).
Proof. intros Hi. apply evolves_for; [apply _|]. intros. apply evolves_put; [apply _|]. intros. by apply put_unnoticed. Qed.

Lemma install_run ep dir rules s s' : install_rules ep dir rules s = (s', Ok tt) →
  now s' = over m_POLICY (rule_table ep dir rules ∪ view m_POLICY (now s)) (now s).
Proof.
  intros E. unfold install_rules in E.
  apply (for_each_put m_POLICY _ (λ _ r, rule_key ep dir r) (λ _ r, rule_verdict r)) in E; [|done].
  by rewrite E, put_all_union.
Qed.

Lemma sweep_run ep keep s : ∃ s', sweep ep keep s = (s', Ok tt) ∧
  now s' = over m_POLICY (view m_POLICY (now s')) (now s) ∧
  ∀ k, view m_POLICY (now s') !! k = if stale_rule ep keep k then None else view m_POLICY (now s) !! k.
Proof.
  unfold sweep. rewrite bind_dp. set (stale := filter _ _).
  destruct (for_each_drop m_POLICY (λ _ k, hash_drop m_POLICY k) (λ _ k, k) 0 stale s) as (s' & -> & Hn); [done|].
  exists s'. split; [done|]. rewrite Hn. split; [done|]. intros k.
  change (view m_POLICY (over m_POLICY ?m ?d)) with m.
  assert (imap (λ (_ : nat) (x : PolicyKey), x) stale = stale) as ->.
  { clear. generalize stale. intros l. apply list_eq. intros i. rewrite list_lookup_imap. by destruct (l !! i). }
  rewrite foldl_delete. unfold stale. destruct (view m_POLICY (now s) !! k) as [v|] eqn:Ek.
  - destruct (stale_rule ep keep k) eqn:Es.
    + apply bool_decide_true_2 || rewrite bool_decide_true; [done|].
      apply list_elem_of_filter. split; [done|]. apply list_elem_of_fmap. exists (k, v). split; [done|].
      by apply elem_of_map_to_list.
    + rewrite bool_decide_false; [done|]. rewrite list_elem_of_filter. intros [? _]. congruence.
  - by destruct (bool_decide _), (stale_rule ep keep k).
Qed.

Lemma sweep_evolves eps ep keep : (∀ k, stale_rule ep keep k = true → inert eps k) →
  evolves (unnoticed eps) (sweep ep keep).
Proof.
  intros Hs. apply evolves_dp. intros d. apply evolves_for; [apply _|]. intros _ k [Hk _]%list_elem_of_filter.
  apply evolves_drop; [apply _|]. intros. apply drop_unnoticed. by apply Hs.
Qed.
End writes.

(** ** The flip *)

Definition gen_bit_of (new_gen : Z) : Z := if negb (new_gen =? 0) then POLICY_KEY_GEN else 0.
Definition policy_flags (enforce enforce_egress audit : bool) (new_gen : Z) : Z :=
  (if enforce then EP_F_INGRESS else 0) .| (if enforce_egress then EP_F_EGRESS else 0)
  .| (if audit then EP_F_AUDIT else 0) .| new_gen.

Lemma next_gen_cases cur : next_gen cur = 0 ∨ next_gen cur = EP_F_GEN.
Proof. unfold next_gen. destruct cur as [v|]; [destruct (has v EP_F_GEN)|]; auto. Qed.

Lemma next_gen_fresh fl : gen_bits fl ≠ gen_bit_of (next_gen (Some fl)).
Proof. unfold gen_bits, gen_bit_of, next_gen. by destruct (has fl EP_F_GEN). Qed.

Lemma policy_flags_spec enforce enforce_egress audit cur :
  let fl := policy_flags enforce enforce_egress audit (next_gen cur) in
  has fl EP_F_INGRESS = enforce ∧ has fl EP_F_EGRESS = enforce_egress ∧ has fl EP_F_AUDIT = audit ∧
  gen_bits fl = gen_bit_of (next_gen cur) ∧
  (∀ dir, dir .| gen_bit_of (next_gen cur) = dir_gen fl dir).
Proof.
  cbv zeta. unfold dir_gen, gen_bits.
  destruct (next_gen_cases cur) as [-> | ->], enforce, enforce_egress, audit; split_and!; done.
Qed.

Lemma flip_other d m x : m !! x = @EP_POLICY (dp_pol d) !! x → same_endpoint x d (over m_EP_POLICY m d).
Proof. intros Hm. by split. Qed.

(** Every rule of [ep] is in the generation its flags select. *)
Definition clean (ep : Z) (d : Dp) : Prop := ∀ k, pol_ep k = ep → is_Some (@POLICY (dp_pol d) !! k) →
  ∃ fl, @EP_POLICY (dp_pol d) !! ep = Some fl ∧ active_key fl k.

(** Up to [mid] the endpoint is treated as in [d0], from [d1] on as in [d2]. *)
Definition flips (ep : Z) (d0 : Dp) (ds : list Dp) (d2 : Dp) : Prop := ∃ before after,
  ds = before ++ after ∧ (∀ d x, d ∈ before → same_endpoint x d0 d) ∧
  (∀ d x, d ∈ after → (x ≠ ep → same_endpoint x d0 d) ∧ same_endpoint x d2 d).

Section flip.
Context `{MapSysLaws}.

(** A run of unnoticed steps, the one write of [EP_POLICY], and more
    unnoticed steps. *)
Lemma flip_run (ep : Z) (pre post : Ctl unit) (flip : Ctl unit) (f : gmap Z Z → gmap Z Z) d0 eps :
  @EP_POLICY (dp_pol d0) = eps → (∀ x, x ≠ ep → f eps !! x = eps !! x) →
  evolves (unnoticed eps) pre → evolves (unnoticed (f eps)) post →
  (∀ s, @EP_POLICY (dp_pol (now s)) = eps → flip s = (s, Err Sys) ∨ flip s = (s, Ok tt) ∧ f eps = eps ∨
    flip s = (committed (over m_EP_POLICY (f (view m_EP_POLICY (now s))) (now s)) s, Ok tt)) →
  (∀ s, (post s).2 = Ok tt) →
  let run := (_ ← pre; _ ← flip; post) (mkRun d0 []) in
  flips ep d0 (seen run.1) (now run.1) ∧
  (run.2 ≠ Ok tt → flips ep d0 (seen run.1) d0 ∧ ∀ x, same_endpoint x d0 (now run.1)).
Proof.
  intros He Hf Hpre Hpost Hflip Hok run. unfold run. rewrite bind_run_ctl. specialize (Hpre (mkRun d0 [])).
  destruct (pre _) as [s1 r1]. cbn [fst now seen app] in Hpre. destruct Hpre as (H1 & ds1 & E1 & F1).
  destruct (H1 He) as [He1 S1].
  assert (∀ d x, d ∈ ds1 → same_endpoint x d0 d) as Hb.
  { intros d x Hd. rewrite Forall_forall in F1. apply (F1 d); done. }
  assert (∀ d2, flips ep d0 (seen s1) d2) as Hpart.
  { intros d2. exists ds1, []. rewrite app_nil_r. split; [exact E1|]. split; [done|set_solver]. }
  destruct r1 as [[]|e]; cbn [fst snd].
  2:{ split; [apply Hpart|]. intros _. by split; [apply Hpart|]. }
  rewrite bind_run_ctl. destruct (Hflip s1 He1) as [-> | [[-> Ef] | ->]]; cbn [fst snd].
  - split; [apply Hpart|]. intros _. by split; [apply Hpart|].
  - rewrite Ef in Hpost. specialize (Hpost s1). pose proof (Hok s1) as Hr. destruct (post s1) as [s2 r2].
    cbn [fst snd] in *. subst r2. split; [|done]. destruct Hpost as (H2 & ds2 & E2 & F2).
    exists (ds1 ++ ds2), []. rewrite app_nil_r, E2, E1. split; [done|]. split; [|set_solver].
    intros d x [Hd|Hd]%elem_of_app; [auto|]. transitivity (now s1); [done|].
    rewrite Forall_forall in F2. apply (F2 d); done.
  - set (d1 := over m_EP_POLICY _ _). pose proof (Hok (committed d1 s1)) as Hr. specialize (Hpost (committed d1 s1)).
    destruct (post _) as [s2 r2]. cbn [fst snd] in *. subst r2. split; [|done].
    destruct Hpost as (H2 & ds2 & E2 & F2). cbn [now committed seen] in *.
    assert (@EP_POLICY (dp_pol d1) = f eps) as He2 by (cbn; by rewrite He1).
    destruct (H2 He2) as [_ S2]. exists ds1, ([d1] ++ ds2). rewrite E2, E1, <- app_assoc.
    split; [done|]. split; [done|].
    assert (∀ d, d ∈ [d1] ++ ds2 → ∀ x, same_endpoint x d1 d) as Ha.
    { intros d [->%list_elem_of_singleton|Hd]%elem_of_app x; [done|].
      rewrite Forall_forall in F2. apply (F2 d); done. }
    intros d x Hd. split.
    + intros Hx. transitivity (now s1); [done|]. transitivity d1; [|by apply Ha].
      apply flip_other. cbn. rewrite He1. by apply Hf.
    + transitivity d1; [symmetry; apply S2|by apply Ha].
Qed.
End flip.

Section update.
Context `{MapSysLaws}.

Definition install_both (ep gen_bit : Z) (enforce enforce_egress : bool) (rules egress_rules : list Rule) : Ctl unit :=
  _ ← (if enforce then install_rules ep (POLICY_DIR_INGRESS .| gen_bit) rules else mret tt);
  (if enforce_egress then install_rules ep (POLICY_DIR_EGRESS .| gen_bit) egress_rules else mret tt).

(** The table an accepted update installs. *)
Definition new_table (ep fl : Z) (enforce enforce_egress : bool) (rules egress_rules : list Rule) : gmap PolicyKey Z :=
  (if enforce_egress then rule_table ep (dir_gen fl POLICY_DIR_EGRESS) egress_rules else ∅)
  ∪ (if enforce then rule_table ep (dir_gen fl POLICY_DIR_INGRESS) rules else ∅).

Lemma endpoint_policy_set_eq ep enforce enforce_egress audit rules egress_rules s :
  endpoint_policy_set ep enforce enforce_egress audit rules egress_rules s =
  if negb enforce && negb enforce_egress then (_ ← mret tt; _ ← hash_drop m_EP_POLICY ep; sweep ep None) s
  else
    let new_gen := next_gen (@EP_POLICY (dp_pol (now s)) !! ep) in
    (_ ← install_both ep (gen_bit_of new_gen) enforce enforce_egress rules egress_rules;
     _ ← hash_put m_EP_POLICY ep (policy_flags enforce enforce_egress audit new_gen);
     sweep ep (Some (gen_bit_of new_gen))) s.
Proof.
  unfold endpoint_policy_set. destruct (negb enforce && negb enforce_egress); [done|].
  rewrite bind_dp. cbv zeta. unfold install_both. rewrite !bind_run_ctl.
  by destruct ((if enforce then install_rules ep _ rules else mret tt) s) as [s1 [[]|]].
Qed.

Lemma install_both_evolves eps ep cur enforce enforce_egress rules egress_rules : eps !! ep = cur →
  evolves (unnoticed eps) (install_both ep (gen_bit_of (next_gen cur)) enforce enforce_egress rules egress_rules).
Proof.
  intros He. assert (∀ dir r, dir = POLICY_DIR_INGRESS ∨ dir = POLICY_DIR_EGRESS →
    inert eps (rule_key ep (dir .| gen_bit_of (next_gen cur)) r)) as Hi.
  { intros dir r Hd fl Hf Ha. cbn in Hf. rewrite He in Hf. rewrite Hf in Ha. apply (next_gen_fresh fl).
    unfold active_key in Ha. rewrite <- Ha. cbn [rule_key pol_dir].
    destruct (next_gen_cases (Some fl)) as [-> | ->]; by destruct Hd as [-> | ->]. }
  unfold install_both. apply evolves_bind; [apply _| |intros _].
  - destruct enforce; [|apply evolves_ret, _]. apply install_evolves. intros. apply Hi. by left.
  - destruct enforce_egress; [|apply evolves_ret, _]. apply install_evolves. intros. apply Hi. by right.
Qed.

Lemma install_both_run ep fl cur enforce enforce_egress audit rules egress_rules s s' :
  fl = policy_flags enforce enforce_egress audit (next_gen cur) →
  install_both ep (gen_bit_of (next_gen cur)) enforce enforce_egress rules egress_rules s = (s', Ok tt) →
  now s' = over m_POLICY (new_table ep fl enforce enforce_egress rules egress_rules ∪ view m_POLICY (now s)) (now s).
Proof.
  intros -> (s1 & [] & E1 & E2)%bind_inv_ctl. unfold new_table.
  destruct (policy_flags_spec enforce enforce_egress audit cur) as (_ & _ & _ & _ & Hdir).
  rewrite <- !Hdir. assert (now s1 = over m_POLICY ((if enforce then rule_table ep
    (POLICY_DIR_INGRESS .| gen_bit_of (next_gen cur)) rules else ∅) ∪ view m_POLICY (now s)) (now s)) as Hn.
  { destruct enforce; [by apply install_run|]. injection E1 as <-. by rewrite (left_id_L ∅ (∪)), over_view. }
  destruct enforce_egress.
  - apply install_run in E2 as ->. rewrite Hn, view_over, over_over. by rewrite (assoc_L (∪)).
  - injection E2 as <-. rewrite Hn. by rewrite (left_id_L ∅ (∪)).
Qed.

(** The two paths, as one flip. *)
Lemma policy_set_flips ep enforce enforce_egress audit rules egress_rules d0 :
  let run := endpoint_policy_set ep enforce enforce_egress audit rules egress_rules (mkRun d0 []) in
  flips ep d0 (seen run.1) (now run.1) ∧
  (run.2 ≠ Ok tt → flips ep d0 (seen run.1) d0 ∧ ∀ x, same_endpoint x d0 (now run.1)).
Proof.
  cbv zeta. rewrite endpoint_policy_set_eq. set (eps := @EP_POLICY (dp_pol d0)).
  assert (∀ keep s, (sweep ep keep s).2 = Ok tt) as Hsw.
  { intros keep s. by destruct (sweep_run ep keep s) as (s' & -> & _). }
  destruct (negb enforce && negb enforce_egress).
  - apply (flip_run ep _ _ _ (delete ep) d0 eps); [done| |apply evolves_ret, _| | |apply Hsw].
    + intros x Hx. by apply lookup_delete_ne.
    + apply sweep_evolves. intros k Hk fl Hf. unfold stale_rule in Hk.
      apply andb_true_iff in Hk as [He%Z.eqb_eq _]. by rewrite He, lookup_delete_eq in Hf.
    + intros s Hs. rewrite hash_drop_run. case_bool_decide as E; [by do 2 right|]. right. left. split; [done|].
      rewrite <- Hs. apply delete_id. by apply eq_None_not_Some.
  - cbn [now]. fold eps. set (ng := next_gen _). apply (flip_run ep _ _ _ <[ep := policy_flags enforce enforce_egress audit ng]> d0 eps).
    + done.
    + intros x Hx. by apply lookup_insert_ne.
    + by apply install_both_evolves.
    + apply sweep_evolves. intros k Hk fl Hf Ha. unfold stale_rule in Hk.
      apply andb_true_iff in Hk as [He%Z.eqb_eq Hg]. rewrite He, lookup_insert_eq in Hf. injection Hf as <-.
      destruct (policy_flags_spec enforce enforce_egress audit (eps !! ep)) as (_ & _ & _ & Hgen & _).
      unfold active_key in Ha. fold ng in Hgen. rewrite Ha, Hgen, Z.eqb_refl in Hg. done.
    + intros s _. destruct (hash_put_cases m_EP_POLICY ep (policy_flags enforce enforce_egress audit ng) s); auto.
    + apply Hsw.
Qed.
End update.

(** ** The property *)

(** What an earlier update that failed half-way left for [ep]: rules of the
    generation the next update installs into. *)
Definition left_behind (ep : Z) (d : Dp) : gmap PolicyKey Z :=
  filter (λ kv, pol_ep kv.1 = ep ∧
    pol_dir kv.1 .& POLICY_KEY_GEN = gen_bit_of (next_gen (@EP_POLICY (dp_pol d) !! ep))) (@POLICY (dp_pol d)).

(** A clean endpoint has none. *)
Lemma left_behind_clean ep d : clean ep d → left_behind ep d = ∅.
Proof.
  intros Hcl. apply map_eq. intros k. rewrite lookup_empty. apply eq_None_not_Some.
  intros [v [Hk [He Hg]]%map_lookup_filter_Some]. cbn in He, Hg.
  destruct (Hcl k He) as (fl & Hf & Ha); [by eexists|]. rewrite Hf in Hg. apply (next_gen_fresh fl).
  rewrite <- Hg. symmetry. exact Ha.
Qed.

(** What an accepted update leaves: the endpoint is out of enforcement, or its
    word says what was asked and its rules are the new ones, on top of those
    in [left]. *)
Definition installed_over (left : gmap PolicyKey Z) (ep : Z) (enforce enforce_egress audit : bool)
    (rules egress_rules : list Rule) (d : Dp) : Prop :=
  clean ep d ∧
  match @EP_POLICY (dp_pol d) !! ep with
  | None => enforce = false ∧ enforce_egress = false
  | Some fl =>
      has fl EP_F_INGRESS = enforce ∧ has fl EP_F_EGRESS = enforce_egress ∧ has fl EP_F_AUDIT = audit ∧
      ∀ k, pol_ep k = ep →
        @POLICY (dp_pol d) !! k = (new_table ep fl enforce enforce_egress rules egress_rules ∪ left) !! k
  end.

(** Nothing else: its rules are exactly the new ones. *)
Definition installed (ep : Z) (enforce enforce_egress audit : bool) (rules egress_rules : list Rule) (d : Dp) : Prop :=
  clean ep d ∧
  match @EP_POLICY (dp_pol d) !! ep with
  | None => enforce = false ∧ enforce_egress = false
  | Some fl =>
      has fl EP_F_INGRESS = enforce ∧ has fl EP_F_EGRESS = enforce_egress ∧ has fl EP_F_AUDIT = audit ∧
      ∀ k, pol_ep k = ep →
        @POLICY (dp_pol d) !! k = new_table ep fl enforce enforce_egress rules egress_rules !! k
  end.

Lemma installed_over_nothing ep enforce enforce_egress audit rules egress_rules d :
  installed_over ∅ ep enforce enforce_egress audit rules egress_rules d ↔
  installed ep enforce enforce_egress audit rules egress_rules d.
Proof.
  unfold installed_over, installed. destruct (@EP_POLICY (dp_pol d) !! ep); [|done].
  by setoid_rewrite (right_id_L ∅ (∪)).
Qed.

Lemma new_table_keys ep fl enforce enforce_egress rules egress_rules k v :
  new_table ep fl enforce enforce_egress rules egress_rules !! k = Some v → pol_ep k = ep ∧ active_key fl k.
Proof.
  unfold new_table. intros Hk.
  assert (∃ dir rs, (dir = POLICY_DIR_INGRESS ∨ dir = POLICY_DIR_EGRESS) ∧
    rule_table ep (dir_gen fl dir) rs !! k = Some v) as (dir & rs & Hd & Ht).
  { apply lookup_union_Some_raw in Hk as [Hk|[_ Hk]].
    - destruct enforce_egress; [eauto|by rewrite lookup_empty in Hk].
    - destruct enforce; [eauto|by rewrite lookup_empty in Hk]. }
  apply rule_table_keys in Ht as [He Hdir]. split; [done|]. unfold active_key. rewrite Hdir. by apply active_dir.
Qed.

Lemma policy_set_installed_over `{MapSysLaws} ep enforce enforce_egress audit rules egress_rules s s' :
  endpoint_policy_set ep enforce enforce_egress audit rules egress_rules s = (s', Ok tt) →
  installed_over (left_behind ep (now s)) ep enforce enforce_egress audit rules egress_rules (now s').
Proof.
  rewrite endpoint_policy_set_eq. intros E.
  destruct (negb enforce && negb enforce_egress) eqn:Eoff.
  - apply andb_true_iff in Eoff as [->%negb_true_iff ->%negb_true_iff].
    apply bind_inv_ctl in E as (s1 & [] & [= <-] & E). apply bind_inv_ctl in E as (s2 & [] & E2 & E3).
    pose proof (hash_drop_now m_EP_POLICY ep s) as Hn. rewrite E2 in Hn. cbn [fst now] in Hn.
    destruct (sweep_run ep None s2) as (s3 & E4 & Hs3 & Hp). rewrite E4 in E3. injection E3 as <-.
    assert (@EP_POLICY (dp_pol (now s3)) !! ep = None) as Hnone.
    { rewrite Hs3, Hn. cbn. apply lookup_delete_eq. }
    split; [|by rewrite Hnone]. intros k Hk [v Hv]. exfalso. specialize (Hp k). cbn in Hp. rewrite Hv in Hp.
    unfold stale_rule in Hp. by rewrite Hk, Z.eqb_refl in Hp.
  - cbv zeta in E. set (cur := @EP_POLICY (dp_pol (now s)) !! ep) in E.
    destruct (policy_flags_spec enforce enforce_egress audit cur) as (Hi & He & Ha & Hg & _).
    set (fl := policy_flags enforce enforce_egress audit (next_gen cur)) in *.
    apply bind_inv_ctl in E as (s1 & [] & E1 & E). apply bind_inv_ctl in E as (s2 & [] & E2 & E3).
    apply (install_both_run ep fl cur _ _ audit) in E1; [|done].
    destruct (hash_put_cases m_EP_POLICY ep fl s1) as [E4|E4]; rewrite E4 in E2; [done|]. injection E2 as E2.
    destruct (sweep_run ep (Some (gen_bit_of (next_gen cur))) s2) as (s3 & E5 & Hs3 & Hp).
    rewrite E5 in E3. injection E3 as <-. rewrite <- E2 in Hs3, Hp. clear E2.
    assert (@EP_POLICY (dp_pol (now s3)) !! ep = Some fl) as Hfl.
    { rewrite Hs3. cbn. apply lookup_insert_eq. }
    set (tbl := new_table ep fl enforce enforce_egress rules egress_rules) in *.
    set (left := left_behind ep (now s)).
    assert (∀ k v, left !! k = Some v → active_key fl k) as Hleft.
    { intros k v [_ [_ Hk]]%map_lookup_filter_Some. unfold active_key. rewrite Hg. exact Hk. }
    assert (∀ k, pol_ep k = ep → @POLICY (dp_pol (now s3)) !! k = (tbl ∪ left) !! k) as Hrules.
    { intros k Hk. specialize (Hp k). cbn in Hp. rewrite E1 in Hp. cbn in Hp. rewrite Hp.
      unfold stale_rule. rewrite Hk, Z.eqb_refl, <- Hg. cbn [andb].
      destruct (Z.eqb_spec (pol_dir k .& POLICY_KEY_GEN) (gen_bits fl)) as [Eg|Eg]; cbn [negb].
      - rewrite !lookup_union. f_equal. unfold left, left_behind. rewrite map_lookup_filter.
        destruct (@POLICY (dp_pol (now s)) !! k) as [v|]; [|done]. cbn. rewrite option_guard_True; [done|].
        split; [done|]. rewrite Eg, Hg. done.
      - symmetry. apply eq_None_not_Some. intros [v [Hv|[_ Hv]]%lookup_union_Some_raw]; apply Eg.
        + apply (new_table_keys _ _ _ _ _ _ _ _ Hv).
        + by apply (Hleft k v). }
    split; [|rewrite Hfl; done]. intros k Hk [v Hv]. exists fl. split; [done|].
    rewrite (Hrules k Hk) in Hv. apply lookup_union_Some_raw in Hv as [Hv|[_ Hv]].
    + apply (new_table_keys _ _ _ _ _ _ _ _ Hv).
    + by apply (Hleft k v).
Qed.

(** From a clean endpoint. *)
Lemma policy_set_installed `{MapSysLaws} ep enforce enforce_egress audit rules egress_rules s s' :
  endpoint_policy_set ep enforce enforce_egress audit rules egress_rules s = (s', Ok tt) →
  clean ep (now s) → installed ep enforce enforce_egress audit rules egress_rules (now s').
Proof.
  intros E%policy_set_installed_over Hcl. apply installed_over_nothing. by rewrite left_behind_clean in E.
Qed.

(** C29: replacing a policy is atomic for packets and for the operator.  Every
    state the update goes through treats every packet, at every endpoint, as
    the table before or as the table after; the endpoints it is not about
    are never affected; and an update that fails changes no treatment.  One
    that succeeds leaves the endpoint clean, its word as asked and in force
    the rules asked for on top of those that updates which failed since
    the last successful one left in the inactive generation: none if the
    endpoint was clean, as every successful update leaves it. *)
Theorem policy_update_hitless `{MapSysLaws} `{Kernel} ep enforce enforce_egress audit rules egress_rules d0 :
  let run := endpoint_policy_set ep enforce enforce_egress audit rules egress_rules (mkRun d0 []) in
  (∀ d x port_vrf w, d ∈ seen run.1 →
     treatment d x port_vrf w = treatment d0 x port_vrf w ∨
     x = ep ∧ run.2 = Ok tt ∧ treatment d x port_vrf w = treatment (now run.1) x port_vrf w) ∧
  (run.2 ≠ Ok tt → ∀ x port_vrf w, treatment (now run.1) x port_vrf w = treatment d0 x port_vrf w) ∧
  (run.2 = Ok tt →
     installed_over (left_behind ep d0) ep enforce enforce_egress audit rules egress_rules (now run.1) ∧
     (clean ep d0 → installed ep enforce enforce_egress audit rules egress_rules (now run.1))).
Proof.
  intros run. destruct (policy_set_flips ep enforce enforce_egress audit rules egress_rules d0) as [Hf Hfail].
  fold run in Hf, Hfail. split; [|split].
  - intros d x port_vrf w Hd. destruct (run.2) as [[]|e] eqn:Er.
    + destruct Hf as (ds1 & ds2 & Es & Hb & Ha). rewrite Es in Hd. apply elem_of_app in Hd as [Hd|Hd].
      * left. by apply treatment_same, Hb.
      * destruct (Ha d x Hd) as [Hx Hs]. destruct (decide (x = ep)) as [->|Hne].
        -- right. split; [done|]. split; [done|]. by apply treatment_same.
        -- left. by apply treatment_same, Hx.
    + left. destruct (Hfail ltac:(done)) as [(ds1 & ds2 & Es & Hb & Ha) _]. rewrite Es in Hd. apply treatment_same.
      apply elem_of_app in Hd as [Hd|Hd]; [by apply Hb|by apply Ha].
  - intros Hno x port_vrf w. apply treatment_same. by apply Hfail.
  - intros Hok. split.
    + apply (policy_set_installed_over _ _ _ _ _ _ (mkRun d0 [])). by apply ok_pair.
    + intros Hcl. apply (policy_set_installed _ _ _ _ _ _ (mkRun d0 [])); [|done]. by apply ok_pair.
Qed.

(** ** A concrete endpoint *)

Definition empty_dp : Dp := mkDp
  (mkFibMaps ∅ ∅ ∅ ∅ ∅) (mkTunnelMaps ∅ ∅ None ∅ ∅ ∅ ∅ ∅ ∅ None None ∅ None)
  (mkL3Maps (Dir24.new_tables 1) None ∅ ∅ ∅ ∅ ∅ ∅ ∅)
  (mkL2Maps ∅ ∅ ∅ ∅ ∅ ∅ ∅ ∅ ∅ ∅ ∅ ∅ ∅ ∅ ∅ ∅ ∅ ∅ ∅ ∅) (mkPolicyMaps ∅ ∅ ∅ ∅ ∅ ∅)
  (mkL4Maps ∅ ∅ None ∅ ∅ ∅ ∅) (Bfd.mkBfdMaps ∅ ∅) ∅ ∅ ∅ ∅ None ∅ ∅.

(** Identity 100 may reach TCP port 80 of endpoint 7. *)
Definition ex_web : Rule := mkRule 100 6 80 false.
Definition ex_dns : Rule := mkRule 100 17 53 false.

Definition ex_before : Dp :=
  now (@endpoint_policy_set ref_sys 7 true false false [ex_web] [] (mkRun empty_dp [])).1.

Lemma ex_before_clean : clean 7 ex_before.
Proof.
  assert ((@endpoint_policy_set ref_sys 7 true false false [ex_web] [] (mkRun empty_dp [])).2 = Ok tt) as Hok
    by (vm_compute; reflexivity).
  pose proof (@policy_set_installed ref_sys ref_sys_laws 7 true false false [ex_web] [] (mkRun empty_dp []) _ (ok_pair _ _ Hok)) as Hi.
  unfold ex_before. set (s := _.1) in *. clearbody s. clear Hok. apply Hi.
  intros k _ [v Hv]. cbn in Hv. by rewrite lookup_empty in Hv.
Qed.

Lemma policy_update_hitless_witness :
  let run := @endpoint_policy_set ref_sys 7 true true false [ex_web; ex_dns] [ex_dns] (mkRun ex_before []) in
  run.2 = Ok tt ∧ length (seen run.1) = 5%nat ∧ clean 7 ex_before ∧
  (∀ d x port_vrf w, d ∈ seen run.1 →
     treatment d x port_vrf w = treatment ex_before x port_vrf w ∨
     x = 7 ∧ run.2 = Ok tt ∧ treatment d x port_vrf w = treatment (now run.1) x port_vrf w) ∧
  (run.2 ≠ Ok tt → ∀ x port_vrf w, treatment (now run.1) x port_vrf w = treatment ex_before x port_vrf w) ∧
  (run.2 = Ok tt →
     installed_over (left_behind 7 ex_before) 7 true true false [ex_web; ex_dns] [ex_dns] (now run.1) ∧
     (clean 7 ex_before → installed 7 true true false [ex_web; ex_dns] [ex_dns] (now run.1))).
Proof.
  cbn zeta. split; [vm_compute; reflexivity|]. split; [vm_compute; reflexivity|].
  split; [exact ex_before_clean|].
  exact (@policy_update_hitless ref_sys ref_sys_laws _ 7 true true false [ex_web; ex_dns] [ex_dns] ex_before).
Defined.

(** ** Two limits of the guarantee *)

(** A failed update leaves rules in the inactive generation, and the next
    successful one activates them: with room for one rule only, installing
    web and DNS fails on the second, and the following update that asks for
    no rules at all puts the web rule in force. *)
Example failed_update_leaks :
  let sys := limited_sys 1 in
  let first := @endpoint_policy_set sys 7 true false false [ex_web; ex_dns] [] (mkRun empty_dp []) in
  let second := @endpoint_policy_set sys 7 true false false [] [] first.1 in
  first.2 = Err Sys ∧ second.2 = Ok tt ∧
  @EP_POLICY (dp_pol (now second.1)) !! 7 = Some EP_F_INGRESS ∧
  @policy_walk (dp_pol (now second.1)) (policy_key 7 100 (port_to_map 80) 6 (dir_gen EP_F_INGRESS POLICY_DIR_INGRESS))
    POLICY_PATS false = false.
Proof. vm_compute. split_and!; reflexivity. Qed.

(** A packet that has read the endpoint's word before the flip and its rules
    after the sweep is denied, although both tables admit it. *)
Example reader_across_flip :
  let run := @endpoint_policy_set ref_sys 7 true false false [ex_web; ex_dns] [] (mkRun ex_before []) in
  let denied (word rules : Dp) :=
    let fl := default 0 (@EP_POLICY (dp_pol word) !! 7) in
    @policy_walk (dp_pol rules) (policy_key 7 100 (port_to_map 80) 6 (dir_gen fl POLICY_DIR_INGRESS))
      POLICY_PATS false in
  denied ex_before ex_before = false ∧ denied (now run.1) (now run.1) = false ∧
  denied ex_before (now run.1) = true.
Proof. vm_compute. split_and!; reflexivity. Qed.
