(* ===== verification/FibEngines.v ===== *)
(** * The two IPv4 route lookup engines

    [fib4_lookup] of [crates/cradle-ebpf/src/main.rs] reads either the [FIB4]
    LPM trie or the DIR-24-8 arrays, by a [DP_CONFIG] bit, and [route4_add],
    [route4_del], [route4_add_bulk] of [crates/cradle/src/dataplane.rs]
    program whichever is in use.  Both implement the same longest-prefix
    match. *)

From S2P Require Import Prelude.
From S2P Require Import Contract.
From S2P Require Import Common.
From S2P Require Import Dir24.
From S2P Require Import Dir24Lpm.
From S2P Require Import Dir24Inv.
From S2P Require Import Dir24Tables.
From S2P Require Import Dir24Correct.
From S2P Require Import Dir24Refine.
From S2P Require Import Dir24Props.
From S2P Require Import Bpf.
From S2P Require Import Frames.
From S2P Require Import KernelRef.
From S2P Require Import Maps.
From S2P Require Import L2.
From S2P Require Import Policy.
From S2P Require Import Nat.
From S2P Require Import Encap.
From S2P Require Import L3.
From S2P Require Import MapRefs.
From S2P Require Import Dataplane.
From S2P Require Import DpRun.
From S2P Require Import L3Props.
From S2P Require Import DpPolicy.

(** ** Prefixes as bytes *)

Lemma of_be_cons x b : of_be (x :: b) = x * 256 ^ Z.of_nat (length b) + of_be b.
Proof.
  unfold of_be. cbn [rev]. rewrite of_le_app, length_rev. unfold of_le at 2. cbn [foldr]. lia.
Qed.


(** The kernel's bitwise prefix comparison is equality of the quotients. *)
Lemma bits_agree_div n a b : length a = length b → Forall is_byte a → Forall is_byte b →
  0 ≤ n ≤ 8 * Z.of_nat (length a) →
  let k := 8 * Z.of_nat (length a) - n in
  bits_agree n a b = true ↔ of_be a / 2 ^ k = of_be b / 2 ^ k.
Proof.
  cbv zeta. revert n b. induction a as [|x a IH]; intros n [|y b] Hl Ha Hb Hn; cbn in Hl; try lia.
  { cbn in Hn. assert (n = 0) as -> by lia. done. }
  rewrite Forall_cons in Ha, Hb. destruct Ha as [Hx Ha], Hb as [Hy Hb]. injection Hl as Hl.
  pose proof (of_be_range a Ha) as Ra. pose proof (of_be_range b Hb) as Rb. rewrite <- Hl in Rb.
  rewrite !of_be_cons, <- Hl. cbn [bits_agree length] in *. rewrite Nat2Z.inj_succ in *.
  set (L := Z.of_nat (length a)) in *. assert (0 ≤ L) as HL by lia.
  replace (256 ^ L) with (2 ^ (8 * L)) in * by (change 256 with (2 ^ 8); by rewrite <- Z.pow_mul_r).
  set (A := of_be a) in *. set (B := of_be b) in *. unfold is_byte in *.
  destruct (Z.leb_spec n 0) as [H0|H0].
  { assert (n = 0) as -> by lia. split; [intros _|done].
    replace (2 ^ (8 * Z.succ L - 0)) with (2 ^ (8 * L) * 256) by (change 256 with (2 ^ 8); rewrite <- Z.pow_add_r by lia; f_equal; lia).
    set (P := 2 ^ (8 * L)) in *. clearbody P. rewrite !Z.div_small by nia. done. }
  destruct (Z.ltb_spec n 8) as [H8|H8].
  - rewrite Z.eqb_eq, !shr_div by lia.
    replace (2 ^ (8 * Z.succ L - n)) with (2 ^ (8 * L) * 2 ^ (8 - n)) by (rewrite <- Z.pow_add_r by lia; f_equal; lia).
    rewrite <- !Z.div_div by lia. rewrite !Z.div_add_l by lia. rewrite (Z.div_small A), (Z.div_small B) by lia.
    by rewrite !Z.add_0_r.
  - rewrite andb_true_iff, Z.eqb_eq. rewrite (IH (n - 8) b Hl Ha Hb) by (fold L; lia).
    replace (8 * Z.succ L - n) with (8 * L - (n - 8)) by lia. set (k := 8 * L - (n - 8)).
    assert (2 ^ (8 * L) = 2 ^ (n - 8) * 2 ^ k) as Hk by (rewrite <- Z.pow_add_r by lia; f_equal; lia).
    fold L. fold A. fold B. fold k. rewrite Hk in *. rewrite !Z.mul_assoc.
    assert (0 < 2 ^ k) as Hk0 by (apply Z.pow_pos_nonneg; lia). rewrite !Z.div_add_l by lia.
    assert (0 ≤ A / 2 ^ k < 2 ^ (n - 8)) by (split; [apply Z.div_pos; lia|apply Z.div_lt_upper_bound; lia]).
    assert (0 ≤ B / 2 ^ k < 2 ^ (n - 8)) by (split; [apply Z.div_pos; lia|apply Z.div_lt_upper_bound; lia]).
    split; [intros [-> ->]; done|]. intros E. set (Q := 2 ^ (n - 8)) in *. clearbody Q.
    assert (x = y) as -> by nia. split; [done|lia].
Qed.

(** ** A trie holds a route table *)

Lemma bits_network n d d' : length d = 4%nat → length d' = 4%nat → Forall is_byte d → Forall is_byte d' →
  0 ≤ n ≤ 32 → bits_agree n d' d = true ↔ network (of_be d') n = network (of_be d) n.
Proof.
  intros Hl Hl' Hb Hb' Hn. rewrite bits_agree_div by (congruence || done || (rewrite Hl'; lia)).
  rewrite Hl'. change (8 * Z.of_nat 4) with 32. unfold network. pose proof (Z.pow_pos_nonneg 2 (32 - n)). nia.
Qed.

(** The elements of [t] are the routes of [tbl]; host bits of a key do not
    matter. *)
Record holds (t : gmap (Z * bytes) FibEntry) (tbl : RouteTable) : Prop := mkHolds {
  holds_sound n d v : t !! (n, d) = Some v →
    length d = 4%nat ∧ Forall is_byte d ∧ 0 ≤ n ≤ 32 ∧ tbl !! (network (of_be d) n, n) = Some v;
  holds_complete net n v : tbl !! (net, n) = Some v →
    ∃ d, t !! (n, d) = Some v ∧ network (of_be d) n = net;
}.

Lemma holds_empty : holds ∅ ∅.
Proof. split; intros *; by rewrite lookup_empty. Qed.

Lemma holds_insert t t' tbl n d v cap `{MapSysLaws} :
  holds t tbl → length d = 4%nat → Forall is_byte d → 0 ≤ n → trie_update cap n d v t = Some t' →
  holds t' (spec_insert tbl (of_be d, n, v)).
Proof.
  intros [Hs Hc] Hl Hb Hn (Hle & Ht')%trie_update_some. rewrite Hl in Hle. cbn [spec_insert].
  split.
  - intros n' d' v' E. rewrite Ht' in E. case_bool_decide as E1.
    { destruct E1 as [-> ->]. injection E as <-. split; [done|]. split; [done|]. split; [lia|]. apply lookup_insert_eq. }
    case_bool_decide as E2; [done|]. destruct (Hs _ _ _ E) as (Hl' & Hb' & Hn' & Hv'). do 3 (split; [done|]).
    rewrite lookup_insert_ne; [done|]. intros [= En <-]. apply E2. split; [done|].
    by apply (bits_network n d d').
  - intros net n' v' E. destruct (decide ((net, n') = (network (of_be d) n, n))) as [[= -> ->]|Hne].
    + rewrite lookup_insert_eq in E. injection E as <-. exists d. split; [|done].
      rewrite Ht', bool_decide_true by done. done.
    + rewrite lookup_insert_ne in E by done. destruct (Hc _ _ _ E) as (d' & E' & Hnet).
      destruct (Hs _ _ _ E') as (Hl' & Hb' & Hn' & _). exists d'. split; [|done]. rewrite Ht'.
      rewrite !bool_decide_false; [done| |].
      * intros [-> Ha]. apply (bits_network n d d') in Ha; [|done..]. apply Hne. congruence.
      * intros [-> ->]. by apply Hne; congruence.
Qed.

Lemma holds_delete t t' tbl n d `{MapSysLaws} :
  holds t tbl → length d = 4%nat → Forall is_byte d → trie_delete n d t = Some t' →
  holds t' (spec_delete tbl (of_be d) n).
Proof.
  intros [Hs Hc] Hl Hb Ht'. pose proof (trie_delete_some n d t t' Ht') as Hd. unfold spec_delete. split.
  - intros n' d' v' E. rewrite Hd in E. case_bool_decide as E1; [done|].
    destruct (Hs _ _ _ E) as (Hl' & Hb' & Hn' & Hv'). do 3 (split; [done|]).
    rewrite lookup_delete_ne; [done|]. intros [= En <-]. apply E1. split; [done|]. by apply (bits_network n d d').
  - intros net n' v' E. destruct (decide ((net, n') = (network (of_be d) n, n))) as [[= -> ->]|Hne].
    + by rewrite lookup_delete_eq in E.
    + rewrite lookup_delete_ne in E by done. destruct (Hc _ _ _ E) as (d' & E' & Hnet).
      destruct (Hs _ _ _ E') as (Hl' & Hb' & Hn' & _). exists d'. split; [|done].
      rewrite Hd, bool_decide_false; [done|]. intros [-> Ha].
      apply (bits_network n d d') in Ha; [|done..]. apply Hne. congruence.
Qed.

(** Deleting a route that is not there fails, and there is nothing to do. *)
Lemma holds_delete_absent t tbl n d `{MapSysLaws} :
  holds t tbl → length d = 4%nat → Forall is_byte d → trie_delete n d t = None →
  spec_delete tbl (of_be d) n = tbl.
Proof.
  intros [Hs Hc] Hl Hb Ht. apply delete_id. apply eq_None_not_Some. intros [v E].
  destruct (Hc _ _ _ E) as (d' & E' & Hnet). destruct (Hs _ _ _ E') as (Hl' & Hb' & Hn' & _).
  apply trie_delete_none in Ht as [Ht|Ht]; [rewrite Hl in Ht; lia|].
  rewrite (Ht d') in E'; [done|]. by apply (bits_network n d d').
Qed.

(** The trie's lookup is the table's longest match. *)
Lemma holds_lookup t tbl x `{KernelLaws} : holds t tbl → u32 x →
  longest_match tbl x (lpm_get t (to_be 4 x)).
Proof.
  intros [Hs Hc] Hx. pose proof (lpm_get_spec t (to_be 4 x)) as Hl.
  assert (∀ n d v, t !! (n, d) = Some v → bits_agree n d (to_be 4 x) = true ↔ covers (network (of_be d) n) n x) as Hag.
  { intros n d v E. destruct (Hs _ _ _ E) as (Hl' & Hb' & Hn' & _).
    rewrite (bits_network n (to_be 4 x) d); [|apply to_be_length|done|apply to_be_bytes|done|done].
    rewrite of_to_be by done. unfold covers, network. pose proof (Z.pow_pos_nonneg 2 (32 - n)).
    rewrite Z.div_mul by lia. split; [nia|]. by intros ->. }
  destruct (lpm_get _ _) as [v|]; cbn.
  - destruct Hl as (n & d & E & Ha & Hmax). destruct (Hs _ _ _ E) as (_ & _ & _ & Hv).
    exists (network (of_be d) n), n. split; [done|]. split; [by eapply Hag|].
    intros net' n' v' E' Hcov. destruct (Hc _ _ _ E') as (d' & Ed' & <-). apply (Hmax n' d' v' Ed'). by eapply Hag.
  - intros net' n' v' E' Hcov. destruct (Hc _ _ _ E') as (d' & Ed' & <-).
    specialize (Hl n' d' v' Ed'). apply (Hag _ _ _ Ed') in Hcov. congruence.
Qed.

(** ** Programming either engine *)

Definition as_route4 (r : Z * Z * FibEntry) : Route4 :=
  let '(addr, len, en) := r in mkRoute4 0 (to_be 4 addr) len (nexthop_id en) (flags en).

Section program.
Context `{MapSys}.

(** A route operation on the global table. *)
Definition route_op (o : Op) : Ctl unit :=
  match o with
  | OpAdd addr len en => route4_add 0 (to_be 4 addr) len (nexthop_id en) (flags en)
  | OpDel addr len => route4_del 0 (to_be 4 addr) len
  | OpBulk rs => route4_add_bulk (as_route4 <$> rs)
  end.

Definition is_ok {E A} (r : res E A) : bool := match r with Ok _ => true | Err _ => false end.

(** A history: an operation that fails does not stop the next. *)
Fixpoint run_routes (os : list Op) (s : Run) : list bool * Run :=
  match os with
  | [] => ([], s)
  | o :: os =>
      let '(s, r) := route_op o s in
      let '(bs, s) := run_routes os s in
      (is_ok r :: bs, s)
  end.

(** Every operation but the deletions went through. *)
Definition adds_ok (os : list Op) (bs : list bool) : Prop :=
  Forall2 (λ o b, b = true ∨ ∃ addr len, o = OpDel addr len) os bs.

Lemma global_routes rs :
  filter (λ r, r4_vrf r = 0) (as_route4 <$> rs) = as_route4 <$> rs ∧
  filter (λ r, r4_vrf r ≠ 0) (as_route4 <$> rs) = [].
Proof.
  induction rs as [|[[a l] en] rs [IH1 IH2]]; [done|]. rewrite fmap_cons, !filter_cons, IH1, IH2.
  cbn [as_route4 r4_vrf]. by rewrite decide_True, decide_False by (done || by intros []).
Qed.

Lemma as_route4_back rs : Forall (λ r, u32 r.1.1 ∧ u8 r.1.2) rs →
  (λ r, (of_be (r4_addr r), r4_len r, mkFibEntry (r4_nexthop r) (r4_flags r))) <$> (as_route4 <$> rs) = rs.
Proof.
  induction 1 as [|[[a l] [nh fl]] rs [Ha _] _ IH]; [done|]. rewrite !fmap_cons, IH.
  cbn [as_route4 r4_addr r4_len r4_nexthop r4_flags nexthop_id flags].
  by rewrite of_to_be by done.
Qed.

(** The [of_be] of an address is the host-order integer the engine takes. *)
Lemma route_op_engine o e s : dp_dir24 (now s) = Some e → wf_op o → (∀ rs, o = OpBulk rs → rs ≠ []) →
  route_op o s = with_engine e (run_op o) s.
Proof.
  intros He Hwf Hne. destruct o as [a l [nh fl]|a l|rs]; cbn [route_op run_op] in *.
  - unfold route4_add. cbn [Z.eqb negb nexthop_id flags]. rewrite bind_dp, He. by rewrite of_to_be by apply Hwf.
  - unfold route4_del. cbn [Z.eqb negb]. rewrite bind_dp, He. by rewrite of_to_be by apply Hwf.
  - unfold route4_add_bulk. destruct (global_routes rs) as [-> ->]. cbn [for_each].
    rewrite (bind_ok_ctl (mret tt) _ s s tt) by done. rewrite bind_dp, He.
    cbv zeta. rewrite as_route4_back by done. rewrite bool_decide_false; [done|]. by apply Hne.
Qed.

Lemma set_tbls_id d : set_tbls (@TBLS (dp_l3 d)) d = d.
Proof. by destruct d as [[] [] [] [] [] [] [] ? ? ? ? ? ? ?]. Qed.

Lemma apply_plan_run plan i s t' : dir24_apply plan (@TBLS (dp_l3 (now s))) = Some t' →
  ∃ s', for_each (λ _ w, d ← dp; t ← of_option Sys (apply_write (@TBLS (dp_l3 d)) w); commit (set_tbls t d)) i plan s
        = (s', Ok tt) ∧ now s' = set_tbls t' (now s).
Proof.
  revert i s. induction plan as [|w plan IH]; intros i s; cbn [dir24_apply for_each].
  - intros [= <-]. exists s. by rewrite set_tbls_id.
  - intros (t1 & Ew & Ep)%bind_Some. rewrite bind_run_ctl, bind_dp, Ew.
    destruct (IH (i + 1) (committed (set_tbls t1 (now s)) s)) as (s' & E & Hn); [done|].
    exists s'. split; [exact E|exact Hn].
Qed.

Lemma with_engine_run e o s b e' t' : dp_dir24 (now s) = Some e →
  transact o (e, @TBLS (dp_l3 (now s))) = Some (b, (e', t')) →
  ∃ s' r, with_engine e (run_op o) s = (s', r) ∧ is_ok r = b ∧
    now s' = set_tbls t' (set_dir24 (Some e') (now s)).
Proof.
  intros He. unfold transact, with_engine. destruct (run_op o e) as [e1 [plan|er]].
  - intros (t1 & Ep & [= <- <- <-])%bind_Some.
    destruct (apply_plan_run plan 0 (mkRun (set_dir24 (Some e1) (now s)) (seen s)) t1) as (s' & E & Hn); [done|].
    exists s', (Ok tt). split; [exact E|]. by split.
  - intros [= <- <- <-]. eexists _, (Err _). split; [done|]. split; [done|]. cbn.
    change (@TBLS (dp_l3 (now s))) with (@TBLS (dp_l3 (set_dir24 (Some e1) (now s)))). by rewrite set_tbls_id.
Qed.


End program.

(** One operation on the trie. *)
Section lpm.
Context `{MapSysLaws}.

(** [d'] differs from [d] in the trie only. *)
Definition trie_only (d d' : Dp) : Prop := ∃ t, d' = over m_FIB4 t d.

Lemma trie_only_trans d1 d2 d3 : trie_only d1 d2 → trie_only d2 d3 → trie_only d1 d3.
Proof. intros [t1 ->] [t2 ->]. by exists t2. Qed.

Lemma trie_only_refl d : trie_only d d.
Proof. exists (view m_FIB4 d). by rewrite over_view. Qed.

Lemma put_route_lpm addr n en s s' tbl : u32 addr → 0 ≤ n → holds (view m_FIB4 (now s)) tbl →
  trie_put m_FIB4 n (to_be 4 addr) en s = (s', Ok tt) →
  holds (view m_FIB4 (now s')) (spec_insert tbl (addr, n, en)) ∧ trie_only (now s) (now s').
Proof.
  intros Ha Hn Hh. unfold trie_put, map_put. rewrite bind_dp. unfold of_option.
  destruct (trie_update _ _ _ _ _) as [t'|] eqn:E; [|done]. intros [= <-]. split; [|by exists t'].
  rewrite <- (of_to_be 4 addr) by done. apply (holds_insert (view m_FIB4 (now s)) t' _ _ _ _ 4096);
    [done|apply to_be_length|apply to_be_bytes|done|exact E].
Qed.

Lemma put_routes_lpm rs i s s' tbl : Forall (λ r, u32 r.1.1 ∧ u8 r.1.2) rs → holds (view m_FIB4 (now s)) tbl →
  for_each (λ _ r, trie_put m_FIB4 (r4_len r) (r4_addr r) (mkFibEntry (r4_nexthop r) (r4_flags r))) i
    (as_route4 <$> rs) s = (s', Ok tt) →
  holds (view m_FIB4 (now s')) (foldl spec_insert tbl rs) ∧ trie_only (now s) (now s').
Proof.
  intros Hwf. revert i s tbl. induction Hwf as [|[[a n] [nh fl]] rs [Ha Hn] _ IH]; intros i s tbl Hh.
  { intros [= <-]. split; [done|]. apply trie_only_refl. }
  rewrite fmap_cons. cbn [for_each foldl]. intros (s1 & [] & E1 & E2)%bind_inv_ctl.
  apply (put_route_lpm a n (mkFibEntry nh fl) s s1 tbl) in E1 as [H1 T1]; [|done|apply Hn|done].
  destruct (IH _ _ _ H1 E2) as [H2 T2]. split; [done|]. by eapply trie_only_trans.
Qed.

Lemma route_op_lpm o s tbl : dp_dir24 (now s) = None → wf_op o → holds (view m_FIB4 (now s)) tbl →
  let '(s', r) := route_op o s in
  is_ok r = true ∨ (∃ addr len, o = OpDel addr len) →
  holds (view m_FIB4 (now s')) (spec_op tbl o) ∧ trie_only (now s) (now s').
Proof.
  intros Hd Hwf Hh. destruct (route_op o s) as [s' r] eqn:E. intros Hok.
  destruct o as [a l [nh fl]|a l|rs]; cbn [route_op spec_op] in *.
  - destruct Hok as [Hok|(? & ? & [=])]. destruct r as [[]|]; [|done].
    unfold route4_add in E. cbn [Z.eqb negb] in E. rewrite bind_dp, Hd in E. destruct Hwf as [Ha Hl].
    cbn [nexthop_id flags] in E. apply (put_route_lpm a l (mkFibEntry nh fl) s); [done|apply Hl|done|exact E].
  - unfold route4_del in E. cbn [Z.eqb negb] in E. rewrite bind_dp, Hd in E. destruct Hwf as [Ha Hl].
    unfold trie_del, map_put in E. rewrite bind_dp in E. unfold of_option in E. rewrite <- (of_to_be 4 a) by done.
    destruct (trie_delete _ _ _) as [t'|] eqn:Et.
    + injection E as <- <-. split; [|by exists t'].
      by apply (holds_delete (view m_FIB4 (now s)) t' tbl l (to_be 4 a)); [..|apply to_be_length|apply to_be_bytes|].
    + injection E as <- <-. split; [|apply trie_only_refl].
      by rewrite (holds_delete_absent (view m_FIB4 (now s)) tbl l (to_be 4 a)) by (done || apply to_be_bytes).
  - destruct Hok as [Hok|(? & ? & [=])]. destruct r as [[]|]; [|done].
    unfold route4_add_bulk in E. destruct (global_routes rs) as [E1 E2]. rewrite E1, E2 in E. cbn [for_each] in E.
    rewrite (bind_ok_ctl (mret tt) _ s s tt) in E by done. rewrite bind_dp, Hd in E.
    by apply (put_routes_lpm rs 0 s s').
Qed.
End lpm.

(** ** The two engines side by side *)

(** The data plane [d] routes by the trie, which holds [tbl]. *)
Record lpm_state (d : Dp) (tbl : RouteTable) : Prop := mkLpmState {
  ls_engine : dp_dir24 d = None;
  ls_mode : @dpc (dp_l3 d) DPC_FIB4_DIR24 = false;
  ls_holds : holds (view m_FIB4 d) tbl;
}.

(** The data plane [d] routes by the arrays, coherent with an engine that
    holds [tbl]. *)
Record dir_state (d : Dp) (tbl : RouteTable) : Prop := mkDirState {
  ds_mode : @dpc (dp_l3 d) DPC_FIB4_DIR24 = true;
  ds_engine : ∃ e, dp_dir24 d = Some e ∧ coherent DIR24_TBL8_GROUPS e (@TBLS (dp_l3 d)) ∧ shadow e = tbl;
}.

Definition proper_op (o : Op) : Prop := wf_op o ∧ ∀ rs, o = OpBulk rs → rs ≠ [].

Lemma trie_only_rest d d' : trie_only d d' → dp_dir24 d' = dp_dir24 d ∧ dp_l3 d' = dp_l3 d.
Proof. by intros [t ->]. Qed.

Lemma lpm_step `{MapSysLaws} o s tbl : lpm_state (now s) tbl → wf_op o →
  let '(s', r) := route_op o s in
  is_ok r = true ∨ (∃ addr len, o = OpDel addr len) → lpm_state (now s') (spec_op tbl o).
Proof.
  intros [He Hm Hh] Hwf. pose proof (route_op_lpm o s tbl He Hwf Hh) as Hr.
  destruct (route_op o s) as [s' r]. intros Hok. destruct (Hr Hok) as [Hh' [E1 E2]%trie_only_rest].
  split; [by rewrite E1|by rewrite E2|done].
Qed.

(** Deleting a route longer than an address is refused, and there is none. *)
Lemma delete_too_long n e addr len : engine_core n e → 32 < len → spec_delete (shadow e) addr len = shadow e.
Proof.
  intros Hc Hl. apply delete_id, eq_None_not_Some. intros [v Hv]. apply (core_keys _ _ Hc) in Hv as [? _].
  cbn in *. lia.
Qed.

Lemma tbls_groups : 0 ≤ DIR24_TBL8_GROUPS ≤ 2 ^ 24.
Proof. done. Qed.

Lemma dir_step `{MapSysLaws} o s tbl : dir_state (now s) tbl → proper_op o →
  let '(s', r) := route_op o s in
  is_ok r = true ∨ (∃ addr len, o = OpDel addr len) → dir_state (now s') (spec_op tbl o).
Proof.
  intros [Hm (e & He & Hco & <-)] [Hwf Hne].
  rewrite (route_op_engine o e s He Hwf Hne).
  destruct (transact_step _ e _ o tbls_groups Hco Hwf) as [(e' & t' & Ht & Hsh & Hco' & _)|[Ht Hr]];
    destruct (with_engine_run e o s _ _ _ He Ht) as (s' & r & -> & Hb & Hn); intros Hok.
  - split; [by rewrite Hn|]. exists e'. by rewrite Hn.
  - split; [by rewrite Hn|]. exists e. rewrite Hn. split; [done|]. split; [done|].
    destruct Hok as [Hok|(addr & len & ->)]; [congruence|]. cbn in Hr. cbn [spec_op].
    symmetry. apply (delete_too_long DIR24_TBL8_GROUPS); [by destruct Hco|done].
Qed.

Lemma run_routes_ind `{MapSysLaws} (P : Dp → RouteTable → Prop) os s tbl :
  (∀ o s tbl, P (now s) tbl → proper_op o → let '(s', r) := route_op o s in
     is_ok r = true ∨ (∃ addr len, o = OpDel addr len) → P (now s') (spec_op tbl o)) →
  P (now s) tbl → Forall proper_op os → adds_ok os (run_routes os s).1 →
  P (now (run_routes os s).2) (foldl spec_op tbl os).
Proof.
  intros Hstep Hs Hwf. revert s tbl Hs. induction Hwf as [|o os Ho _ IH]; intros s tbl Hs Hok; [done|].
  cbn [run_routes foldl] in *. pose proof (Hstep o s tbl Hs Ho) as Hn. destruct (route_op o s) as [s1 r].
  specialize (IH s1). destruct (run_routes os s1) as [bs s2].
  apply Forall2_cons in Hok as [Hok1 Hok]. apply IH; [by apply Hn|done].
Qed.

Lemma longest_match_unique tbl x o o' : longest_match tbl x o → longest_match tbl x o' →
  (∀ net len v, tbl !! (net, len) = Some v → net = network net len) → o = o'.
Proof.
  intros Ho Ho' Hnet. destruct o as [v|], o' as [v'|]; cbn in *; [| | |done].
  - destruct Ho as (net & len & E & Hc & Hm), Ho' as (net' & len' & E' & Hc' & Hm').
    assert (len = len') as <- by (apply Z.le_antisymm; [by eapply Hm'|by eapply Hm]).
    assert (net = net') as <-; [|congruence]. rewrite (Hnet _ _ _ E), (Hnet _ _ _ E'). unfold network, covers in *. congruence.
  - destruct Ho as (net & len & E & Hc & _). by destruct (Ho' _ _ _ E).
  - destruct Ho' as (net & len & E & Hc & _). by destruct (Ho _ _ _ E).
Qed.

Lemma core_networks n e net len v : engine_core n e → shadow e !! (net, len) = Some v → net = network net len.
Proof.
  intros Hc Hk. apply (core_keys _ _ Hc) in Hk as (Hl & Hu & Hm). cbn in *. by rewrite network_mask.
Qed.

(** The answers of the two states. *)
Lemma engines_answer `{KernelLaws} dl dd tbl dst w : lpm_state dl tbl → dir_state dd tbl →
  length dst = 4%nat → Forall is_byte dst →
  ∃ o, (@fib4_lookup _ (dp_fib dl) (dp_l3 dl) 0 dst w).2 = Ok o ∧ longest_match tbl (of_be dst) o ∧
       (@fib4_lookup _ (dp_fib dd) (dp_l3 dd) 0 dst w).2 = Ok (dp_view o).
Proof.
  intros [_ Hm Hh] [Hm' (e & _ & Hco & Hsh)] Hl Hb.
  assert (u32 (of_be dst)) as Hu by (pose proof (of_be_range dst Hb); by rewrite Hl in *).
  pose proof (holds_lookup (view m_FIB4 dl) tbl (of_be dst) Hh Hu) as Hlm.
  replace (to_be 4 (of_be dst)) with dst in Hlm by (rewrite <- Hl; symmetry; by apply to_of_be).
  eexists. split; [|split; [exact Hlm|]].
  - unfold fib4_lookup. cbn [Z.eqb negb]. by rewrite Hm.
  - destruct (@fib4_lookup_dir24 _ (dp_fib dd) (dp_l3 dd) dst w Hm') as (w1 & -> & _). cbn [snd]. f_equal.
    rewrite (lookup_coherent _ _ _ _ (proj2 tbls_groups) Hco Hu). f_equal.
    assert (engine_core DIR24_TBL8_GROUPS e) as Hc by by destruct Hco.
    symmetry. eapply (longest_match_unique tbl); [exact Hlm| |].
    + rewrite <- Hsh. by apply (lookup_lpm_longest DIR24_TBL8_GROUPS).
    + rewrite <- Hsh. intros net len v. by apply (core_networks DIR24_TBL8_GROUPS).
Qed.

(** C28: the two IPv4 engines route alike.  From an empty global table, the
    same sequence of route additions, deletions and bulk loads programmed
    into the LPM trie and, after [set_fib4_mode_dir24], into the DIR-24-8
    arrays, with no addition refused by either, leaves two data planes whose
    [fib4_lookup] gives the same route for every destination: the longest
    match of the routes programmed (its fields cut to the widths of the
    packed word by the arrays). *)
Theorem fib4_engines_agree `{MapSysLaws} `{KernelLaws} os s :
  dp_dir24 (now s) = None → view m_FIB4 (now s) = ∅ → @dpc (dp_l3 (now s)) DPC_FIB4_DIR24 = false →
  @TBLS (dp_l3 (now s)) = new_tables DIR24_TBL8_GROUPS → Forall proper_op os →
  let lpm := run_routes os s in
  let dir := run_routes os (set_fib4_mode_dir24 s).1 in
  adds_ok os lpm.1 → adds_ok os dir.1 →
  let dl := now lpm.2 in let dd := now dir.2 in
  ∀ dst w, length dst = 4%nat → Forall is_byte dst →
    ∃ o, (@fib4_lookup _ (dp_fib dl) (dp_l3 dl) 0 dst w).2 = Ok o ∧
         longest_match (foldl spec_op ∅ os) (of_be dst) o ∧
         (@fib4_lookup _ (dp_fib dd) (dp_l3 dd) 0 dst w).2 = Ok (dp_view o).
Proof.
  intros Hd Hv Hm Ht Hwf lpm dir Hl Hr dl dd dst w Hlen Hb. apply engines_answer; [| |done|done].
  - apply (run_routes_ind lpm_state); [|split; [done|done|rewrite Hv; apply holds_empty]|done|done].
    intros o s0 tbl Hs [Ho _]. by apply lpm_step.
  - apply (run_routes_ind dir_state); [intros; by apply dir_step| |done|done].
    split; [done|]. exists (new_engine DIR24_TBL8_GROUPS). split; [done|].
    split; [|done]. change (coherent DIR24_TBL8_GROUPS (new_engine DIR24_TBL8_GROUPS) (@TBLS (dp_l3 (now s)))).
    rewrite Ht. by apply coherent_new.
Qed.

(** A /20, a /25 and a host route in one block, a replacement, a withdrawal, a
    withdrawal of nothing, and a batch. *)
Definition ex_routes : list Op :=
  [OpAdd 0x0a000000 20 (mkFibEntry 1 0); OpAdd 0x0a000180 25 (mkFibEntry 2 FIB_F_ECMP);
   OpAdd 0x0a000181 32 (mkFibEntry 3 0); OpAdd 0x0a000181 32 (mkFibEntry 4 0);
   OpDel 0x0a000180 25; OpDel 0x0b000000 8;
   OpBulk [(0xc0a80000, 22, mkFibEntry 5 0); (0xc0a80101, 32, mkFibEntry 6 0)]].

Definition ex_fib_start : Run := mkRun (set_tbls (new_tables DIR24_TBL8_GROUPS) empty_dp) [].

Lemma ex_routes_proper : Forall proper_op ex_routes.
Proof. repeat constructor; cbn; unfold in_range; (lia || by intros ? [= <-] || done). Qed.

Lemma adds_ok_but_deletions os bs :
  forallb (λ p, p.2 || match p.1 with OpDel _ _ => true | _ => false end) (zip os bs) = true →
  length os = length bs → adds_ok os bs.
Proof.
  revert bs. induction os as [|o os IH]; intros [|b bs]; cbn; try done; [constructor|].
  intros [Hb Hf]%andb_true_iff [= Hl]. constructor; [|by apply IH].
  apply orb_true_iff in Hb as [->|Hb]; [by left|]. right. destruct o; try done. eauto.
Qed.

Lemma fib4_engines_agree_witness :
  let lpm := @run_routes ref_sys ex_routes ex_fib_start in
  let dir := @run_routes ref_sys ex_routes (set_fib4_mode_dir24 ex_fib_start).1 in
  lpm.1 = [true; true; true; true; true; false; true] ∧ dir.1 = [true; true; true; true; true; true; true] ∧
  let dl := now lpm.2 in let dd := now dir.2 in
  ∀ dst w, length dst = 4%nat → Forall is_byte dst →
    ∃ o, (@fib4_lookup ref_kernel (dp_fib dl) (dp_l3 dl) 0 dst w).2 = Ok o ∧
         longest_match (foldl spec_op ∅ ex_routes) (of_be dst) o ∧
         (@fib4_lookup ref_kernel (dp_fib dd) (dp_l3 dd) 0 dst w).2 = Ok (dp_view o).
Proof.
  cbn zeta.
  assert ((@run_routes ref_sys ex_routes ex_fib_start).1 = [true; true; true; true; true; false; true]) as El
    by (vm_compute; reflexivity).
  assert ((@run_routes ref_sys ex_routes (set_fib4_mode_dir24 ex_fib_start).1).1
    = [true; true; true; true; true; true; true]) as Er by (vm_compute; reflexivity).
  split; [exact El|]. split; [exact Er|].
  apply (@fib4_engines_agree ref_sys ref_sys_laws ref_kernel _ ex_routes ex_fib_start).
  - reflexivity.
  - reflexivity.
  - reflexivity.
  - reflexivity.
  - exact ex_routes_proper.
  - apply adds_ok_but_deletions; [rewrite El; reflexivity|rewrite El; reflexivity].
  - apply adds_ok_but_deletions; [rewrite Er; reflexivity|rewrite Er; reflexivity].
Defined.
