(* ===== verification/Cni.v ===== *)
(** * The CNI state store ([crates/cradle/src/cni.rs])

    The node-local address allocator and the endpoint records, both kept in
    files of the daemon's state directory.  A file holds the value last
    written to it: [write_json] replaces it atomically, and a write that
    fails changes nothing.  The parsing of a pool's text is
    [util::parse_ipv4_prefix]'s; the operations take its result. *)

From S2P Require Import Prelude.
From S2P Require Import Bpf.
From S2P Require Import MapRefs.

(** ** Ordered maps *)

(** The entries of a [BTreeMap] with integer keys, in key order. *)
Definition key_le {V} (a b : Z * V) : Prop := a.1 ≤ b.1.
#[global] Instance key_le_dec {V} (a b : Z * V) : Decision (key_le a b).
Proof. unfold key_le. apply _. Defined.

Definition btree {V} (m : gmap Z V) : list (Z * V) := merge_sort key_le (map_to_list m).

Lemma elem_of_btree {V} (m : gmap Z V) k v : (k, v) ∈ btree m ↔ m !! k = Some v.
Proof. unfold btree. by rewrite merge_sort_Permutation, elem_of_map_to_list. Qed.

(** ** Names *)

Definition owner_key (container_id ifname : string) : string := container_id +:+ "/" +:+ ifname.

Definition string_bytes (s : string) : bytes := (λ a, Z.of_N (Ascii.N_of_ascii a)) <$> String.list_ascii_of_string s.

(** FNV-1a, 64 bits: the file name of an endpoint record. *)
Definition fnv1a64 (s : string) : Z :=
  foldl (λ hash b, wrap 64 ((hash .^ b) * 0x100000001b3)) 0xcbf29ce484222325 (string_bytes s).

(** ** The records *)

(** Addresses are integers here ([u32::from(ip)], [u128::from(ip)]). *)
Record Endpoint := mkEndpoint {
  ep_container_id : string; ep_ifname : string; ep_netns : string;
  ep_host_if : string; ep_host_ifindex : Z;
  ep_ip : Z; ep_ip6 : option Z; ep_vrf_id : Z;
  ep_pod_name : string; ep_pod_namespace : string; ep_chained : bool }.

Record IpamFile := mkIpamFile { allocations : gmap Z string; allocations6 : gmap Z string }.

(** The state directory.  [st_faults] says which of the coming writes fail. *)
Record Store := mkStore {
  st_ipam : IpamFile; st_endpoints : gmap Z Endpoint; st_faults : list bool }.

Definition empty_store : Store := mkStore (mkIpamFile ∅ ∅) ∅ [].

Inductive CniErr : Type := PoolTooSmall | PoolExhausted | IoFailed.

Abbreviation Cni := (M Store CniErr).

(** [write_json], then the directory operation [f]. *)
Definition write_store (f : Store → Store) : Cni unit := λ s,
  match st_faults s with
  | true :: fs => (mkStore (st_ipam s) (st_endpoints s) fs, Err IoFailed)
  | _ :: fs => (f (mkStore (st_ipam s) (st_endpoints s) fs), Ok tt)
  | [] => (f s, Ok tt)
  end.

Definition set_ipam (i : IpamFile) (s : Store) : Store := mkStore i (st_endpoints s) (st_faults s).
Definition set_endpoints (m : gmap Z Endpoint) (s : Store) : Store := mkStore (st_ipam s) m (st_faults s).

(** ** Address allocation *)

(** [for candidate in first..last]: the first vacant address.  After more
    steps than there are allocations one was vacant. *)
Fixpoint first_vacant (fuel : nat) (m : gmap Z string) (candidate last : Z) : option Z :=
  match fuel with
  | O => None
  | S fuel =>
      if last <=? candidate then None
      else if bool_decide (m !! candidate = None) then Some candidate
      else first_vacant fuel m (candidate + 1) last
  end.

Definition vacancy (m : gmap Z string) (first last : Z) : option Z :=
  first_vacant (S (size m)) m first last.

(** The address [owner] holds: the lowest. *)
Definition held_by (owner : string) (m : gmap Z string) : option Z :=
  first_some (λ '(ip, o), if bool_decide (o = owner) then Some ip else None) (btree m).

(** [base] and [!mask]: the network address and the host bits. *)
Definition host_mask (w plen : Z) : Z := 2 ^ (w - plen) - 1.
Definition pool_base (w net plen : Z) : Z := net - net .& host_mask w plen.

Definition alloc_ip (pool : Z * Z) (owner : string) : Cni (Z * Z) :=
  let '(net, plen) := pool in
  if 30 <? plen then bail PoolTooSmall else
  let base := pool_base 32 net plen in
  ipam ← gets st_ipam;
  match held_by owner (allocations ipam) with
  | Some ip => mret (ip, plen)
  | None =>
      match vacancy (allocations ipam) (base + 2) (base .| host_mask 32 plen) with
      | Some ip =>
          _ ← write_store (set_ipam (mkIpamFile (<[ip := owner]> (allocations ipam)) (allocations6 ipam)));
          mret (ip, plen)
      | None => bail PoolExhausted
      end
  end.

Definition alloc_ip6 (pool : Z * Z) (owner : string) : Cni (Z * Z) :=
  let '(net, plen) := pool in
  if 126 <? plen then bail PoolTooSmall else
  let base := pool_base 128 net plen in
  ipam ← gets st_ipam;
  match held_by owner (allocations6 ipam) with
  | Some ip => mret (ip, plen)
  | None =>
      match vacancy (allocations6 ipam) (base + 2) (base .| host_mask 128 plen) with
      | Some ip =>
          _ ← write_store (set_ipam (mkIpamFile (allocations ipam) (<[ip := owner]> (allocations6 ipam))));
          mret (ip, plen)
      | None => bail PoolExhausted
      end
  end.

(** The allocations a release keeps. *)
Definition keeps_alloc (owner : string) (ip : option Z) (kv : Z * string) : Prop :=
  ¬ (Some kv.1 = ip ∨ owner ≠ ""%string ∧ kv.2 = owner).
#[global] Instance keeps_alloc_dec owner ip kv : Decision (keeps_alloc owner ip kv).
Proof. unfold keeps_alloc. apply _. Defined.

Definition release_ip (owner : string) (ip ip6 : option Z) : Cni unit :=
  ipam ← gets st_ipam;
  let a := filter (keeps_alloc owner ip) (allocations ipam) in
  let a6 := filter (keeps_alloc owner ip6) (allocations6 ipam) in
  if (size a =? size (allocations ipam))%nat && (size a6 =? size (allocations6 ipam))%nat then mret tt
  else write_store (set_ipam (mkIpamFile a a6)).

(** ** Endpoint records *)

Definition endpoint_path (container_id ifname : string) : Z := fnv1a64 (owner_key container_id ifname).

Definition put_endpoint (ep : Endpoint) : Cni unit :=
  s ← get;
  write_store (set_endpoints (<[endpoint_path (ep_container_id ep) (ep_ifname ep) := ep]> (st_endpoints s))).

Definition get_endpoint (container_id ifname : string) : Cni (option Endpoint) :=
  gets (λ s, st_endpoints s !! endpoint_path container_id ifname).

(** A file that is already gone is no error. *)
Definition remove_endpoint (container_id ifname : string) : Cni unit :=
  s ← get;
  let path := endpoint_path container_id ifname in
  if bool_decide (st_endpoints s !! path = None) then mret tt
  else write_store (set_endpoints (delete path (st_endpoints s))).

(** Sorted by container, then interface. *)
Definition str_le (a b : string) : bool := String.leb a b.
Definition endpoint_le (a b : Endpoint) : Prop :=
  if bool_decide (ep_container_id a = ep_container_id b) then str_le (ep_ifname a) (ep_ifname b) = true
  else str_le (ep_container_id a) (ep_container_id b) = true.
#[global] Instance endpoint_le_dec a b : Decision (endpoint_le a b).
Proof. unfold endpoint_le. case_bool_decide; apply _. Defined.

Definition list_endpoints : Cni (list Endpoint) :=
  gets (λ s, merge_sort endpoint_le (map_to_list (st_endpoints s)).*2).
