(* ===== verification/CniProps.v ===== *)
(** * Address allocation: the properties

    No owner holds two addresses of a family, a grant displaces nobody and
    lasts until it is released; a request is refused only when every host
    address of the pool is taken. *)

From S2P Require Import Prelude.
From S2P Require Import Bpf.
From S2P Require Import MapRefs.
From S2P Require Import Cni.

(** ** The scan *)

Lemma first_vacant_some fuel m c last x : first_vacant fuel m c last = Some x →
  c ≤ x < last ∧ m !! x = None ∧ ∀ y, c ≤ y < x → is_Some (m !! y).
Proof.
  revert c. induction fuel as [|fuel IH]; intros c; [done|]. cbn.
  destruct (Z.leb_spec last c); [done|]. case_bool_decide as Hc.
  - intros [= <-]. split; [lia|]. split; [done|]. lia.
  - intros (Hx & Hn & Hy)%IH. split; [lia|]. split; [done|]. intros y Hr.
    destruct (decide (y = c)) as [->|]; [by apply not_eq_None_Some|]. apply Hy. lia.
Qed.

Lemma first_vacant_none fuel m c last : first_vacant fuel m c last = None →
  ∀ y, c ≤ y < Z.min last (c + Z.of_nat fuel) → is_Some (m !! y).
Proof.
  revert c. induction fuel as [|fuel IH]; intros c; [lia|]. cbn [first_vacant].
  destruct (Z.leb_spec last c); [intros _ y Hy; lia|]. case_bool_decide as Hc; [done|].
  intros E y Hr. destruct (decide (y = c)) as [->|]; [by apply not_eq_None_Some|].
  apply (IH _ E). lia.
Qed.

(** A run of present keys is no longer than the map. *)
Lemma run_of_keys {V} (m : gmap Z V) c n : (∀ y, c ≤ y < c + Z.of_nat n → is_Some (m !! y)) → (n ≤ size m)%nat.
Proof.
  intros Hy. rewrite <- size_dom. transitivity (size (list_to_set (seqZ c (Z.of_nat n)) : gset Z)).
  - rewrite size_list_to_set by apply NoDup_seqZ. rewrite length_seqZ. lia.
  - apply subseteq_size. intros y [Hr1 Hr2]%elem_of_list_to_set%elem_of_seqZ. apply elem_of_dom, Hy. lia.
Qed.

Lemma vacancy_some m first last x : vacancy m first last = Some x →
  first ≤ x < last ∧ m !! x = None ∧ ∀ y, first ≤ y < x → is_Some (m !! y).
Proof. apply first_vacant_some. Qed.

Lemma vacancy_none m first last : vacancy m first last = None ↔ ∀ y, first ≤ y < last → is_Some (m !! y).
Proof.
  split; intros Hv.
  - pose proof (first_vacant_none _ _ _ _ Hv) as Hn.
    destruct (decide (last ≤ first + Z.of_nat (S (size m)))) as [Hl|Hl].
    + intros y Hy. apply Hn. lia.
    + exfalso. assert (S (size m) ≤ size m)%nat; [|lia]. apply (run_of_keys m first). intros y Hy. apply Hn. lia.
  - destruct (vacancy m first last) as [x|] eqn:E; [|done]. apply vacancy_some in E as (Hx & Hn & _).
    destruct (Hv x Hx) as [v Hs]. congruence.
Qed.

Lemma held_by_some owner m ip : held_by owner m = Some ip → m !! ip = Some owner.
Proof.
  unfold held_by. intros ([ip' o] & Hin & Hf)%first_some_Some. case_bool_decide as Ho; [|done].
  injection Hf as ->. subst. by apply elem_of_btree.
Qed.

Lemma held_by_none owner m : held_by owner m = None ↔ ∀ ip, m !! ip ≠ Some owner.
Proof.
  unfold held_by. rewrite first_some_None. split.
  - intros Hn ip Hip. specialize (Hn (ip, owner) ltac:(by apply elem_of_btree)). cbn in Hn.
    by rewrite bool_decide_true in Hn.
  - intros Hn [ip o] Hin%elem_of_btree. cbn. case_bool_decide as Ho; [|done]. subst. by destruct (Hn ip).
Qed.

(** ** Pools *)

(** A host address of the pool [net]/[plen], in a [w]-bit family: not the
    network's, not the gateway's, not the last one. *)
Definition usable (w net plen ip : Z) : Prop :=
  ip / 2 ^ (w - plen) = net / 2 ^ (w - plen) ∧ 2 ≤ ip mod 2 ^ (w - plen) < 2 ^ (w - plen) - 1.

Lemma pool_range w net plen ip : 0 ≤ net → 0 ≤ plen < w →
  pool_base w net plen + 2 ≤ ip < pool_base w net plen .| host_mask w plen ↔ usable w net plen ip.
Proof.
  intros Hn Hp. unfold pool_base, host_mask, usable. set (k := w - plen). assert (0 < k) as Hk by lia.
  replace (2 ^ k - 1) with (Z.ones k) by (rewrite Z.ones_equiv; lia). rewrite Z.land_ones by lia.
  assert (0 < 2 ^ k) as Hk0 by (apply Z.pow_pos_nonneg; lia).
  replace (net - net mod 2 ^ k) with (net / 2 ^ k * 2 ^ k) by (rewrite (Z.div_mod net (2 ^ k)) at 2; lia).
  assert (0 ≤ Z.ones k < 2 ^ k) as Ho by (rewrite Z.ones_equiv; lia). rewrite lor_add by lia.
  rewrite Z.ones_equiv in *. unfold Z.pred in *.
  pose proof (Z.div_mod ip (2 ^ k) ltac:(lia)). pose proof (Z.mod_pos_bound ip (2 ^ k) Hk0).
  set (P := 2 ^ k) in *. clearbody P. split; [|nia]. intros Hr. assert (ip / P = net / P) as E by nia. nia.
Qed.

(** ** One request *)

(** What an allocation from the addresses [ok] may do to the table [m]: give
    the owner what it has, else the lowest free address, else refuse because
    none is free.  [wr]: whether the state file can be written. *)
Definition allocation (ok : Z → Prop) (owner : string) (wr : bool) (m m' : gmap Z string) (r : res CniErr Z) : Prop :=
  match r with
  | Ok ip => m' !! ip = Some owner ∧
      (m' = m ∨ m' = <[ip := owner]> m ∧ wr = true ∧ ok ip ∧ m !! ip = None ∧ (∀ a, m !! a ≠ Some owner) ∧
                ∀ a, ok a → a < ip → is_Some (m !! a))
  | Err PoolExhausted => m' = m ∧ (∀ a, m !! a ≠ Some owner) ∧ ∀ a, ok a → is_Some (m !! a)
  | Err IoFailed => m' = m ∧ wr = false
  | Err PoolTooSmall => False
  end.

Definition writable (s : Store) : bool := match st_faults s with true :: _ => false | _ => true end.

Lemma write_store_run f s :
  ∃ fs, write_store f s = if writable s then (f (mkStore (st_ipam s) (st_endpoints s) fs), Ok tt)
                          else (mkStore (st_ipam s) (st_endpoints s) fs, Err IoFailed).
Proof.
  unfold write_store, writable. destruct s as [i e [|[] fs]]; [by exists []|by exists fs|by exists fs].
Qed.

Definition address {A} (r : res CniErr (A * Z)) : res CniErr A :=
  match r with Ok x => Ok x.1 | Err e => Err e end.

(** The two families' allocators, on the table [m] of their own. *)
Definition alloc_body (w net plen : Z) (owner : string) (m : gmap Z string) (f : gmap Z string → Store → Store)
    : Cni (Z * Z) :=
  match held_by owner m with
  | Some ip => mret (ip, plen)
  | None =>
      match vacancy m (pool_base w net plen + 2) (pool_base w net plen .| host_mask w plen) with
      | Some ip => _ ← write_store (f (<[ip := owner]> m)); mret (ip, plen)
      | None => bail PoolExhausted
      end
  end.

Lemma alloc_core w net plen owner m f s : 0 ≤ net → 0 ≤ plen < w →
  let '(s', r) := alloc_body w net plen owner m f s in
  ∃ m' fs, allocation (usable w net plen) owner (writable s) m m' (address r) ∧
    (∀ x, r = Ok x → x.2 = plen) ∧
    (m' = m ∧ s' = mkStore (st_ipam s) (st_endpoints s) fs ∨
     s' = f m' (mkStore (st_ipam s) (st_endpoints s) fs)).
Proof.
  intros Hn Hp. unfold alloc_body. destruct (held_by owner m) as [ip|] eqn:Eh.
  { cbn. apply held_by_some in Eh. exists m, (st_faults s). split_and!; [done|by left|by intros x [= <-]|].
    left. by destruct s. }
  rewrite held_by_none in Eh. destruct (vacancy _ _ _) as [ip|] eqn:Ev.
  - apply vacancy_some in Ev as (Hr & Hnone & Hlow). rewrite pool_range in Hr by lia.
    unfold mbind, M_bind. destruct (write_store_run (f (<[ip := owner]> m)) s) as [fs ->].
    destruct (writable s); cbn.
    + exists (<[ip := owner]> m), fs. split_and!; [apply lookup_insert_eq| |by intros x [= <-]|by right].
      right. split_and!; try done. intros a Ha Hlt. apply pool_range in Ha; [|lia..]. apply Hlow. lia.
    + exists m, fs. split_and!; [done|done|by intros|by left].
  - exists m, (st_faults s). cbn. split_and!; [done|done| |by intros|left; by destruct s].
    intros a Ha. apply (proj1 (vacancy_none _ _ _) Ev). by apply pool_range; [lia..|].
Qed.

Lemma alloc_ip_run net plen owner s : 0 ≤ net → 0 ≤ plen ≤ 30 →
  let '(s', r) := alloc_ip (net, plen) owner s in
  allocation (usable 32 net plen) owner (writable s) (allocations (st_ipam s)) (allocations (st_ipam s')) (address r) ∧
  allocations6 (st_ipam s') = allocations6 (st_ipam s) ∧ st_endpoints s' = st_endpoints s ∧
  (∀ x, r = Ok x → x.2 = plen).
Proof.
  intros Hn Hp. set (f := (λ m, set_ipam (mkIpamFile m (allocations6 (st_ipam s))))).
  replace (alloc_ip (net, plen) owner s) with (alloc_body 32 net plen owner (allocations (st_ipam s)) f s)
    by (unfold alloc_ip; by rewrite (proj2 (Z.ltb_ge _ _)) by lia).
  pose proof (alloc_core 32 net plen owner (allocations (st_ipam s)) f s Hn ltac:(lia)) as Hc.
  destruct (alloc_body _ _ _ _ _ _ _) as [s' r].
  by destruct Hc as (m' & fs & Ha & Hx & [[-> ->]| ->]).
Qed.

Lemma alloc_ip6_run net plen owner s : 0 ≤ net → 0 ≤ plen ≤ 126 →
  let '(s', r) := alloc_ip6 (net, plen) owner s in
  allocation (usable 128 net plen) owner (writable s) (allocations6 (st_ipam s)) (allocations6 (st_ipam s')) (address r) ∧
  allocations (st_ipam s') = allocations (st_ipam s) ∧ st_endpoints s' = st_endpoints s ∧
  (∀ x, r = Ok x → x.2 = plen).
Proof.
  intros Hn Hp. set (f := (λ m, set_ipam (mkIpamFile (allocations (st_ipam s)) m))).
  replace (alloc_ip6 (net, plen) owner s) with (alloc_body 128 net plen owner (allocations6 (st_ipam s)) f s)
    by (unfold alloc_ip6; by rewrite (proj2 (Z.ltb_ge _ _)) by lia).
  pose proof (alloc_core 128 net plen owner (allocations6 (st_ipam s)) f s Hn ltac:(lia)) as Hc.
  destruct (alloc_body _ _ _ _ _ _ _) as [s' r].
  by destruct Hc as (m' & fs & Ha & Hx & [[-> ->]| ->]).
Qed.

(** ** Histories *)

(** The requests of the CNI plugin, in any order. *)
Inductive CniOp : Type :=
| OpAlloc (pool : Z * Z) (owner : string)
| OpAlloc6 (pool : Z * Z) (owner : string)
| OpRelease (owner : string) (ip ip6 : option Z)
| OpPut (ep : Endpoint)
| OpRemove (container_id ifname : string).

Definition cni_op (o : CniOp) (s : Store) : Store :=
  match o with
  | OpAlloc pool owner => (alloc_ip pool owner s).1
  | OpAlloc6 pool owner => (alloc_ip6 pool owner s).1
  | OpRelease owner ip ip6 => (release_ip owner ip ip6 s).1
  | OpPut ep => (put_endpoint ep s).1
  | OpRemove c i => (remove_endpoint c i s).1
  end.
Definition run_cni (os : list CniOp) (s : Store) : Store := foldl (flip cni_op) s os.

(** Pools as [parse_ipv4_prefix] and [parse_ipv6_prefix] return them. *)
Definition wf_cni (o : CniOp) : Prop :=
  match o with
  | OpAlloc (net, plen) _ => u32 net ∧ 0 ≤ plen ≤ 32
  | OpAlloc6 (net, plen) _ => u128 net ∧ 0 ≤ plen ≤ 128
  | _ => True
  end.

(** No owner holds two addresses. *)
Definition exclusive (m : gmap Z string) : Prop := ∀ a b o, m !! a = Some o → m !! b = Some o → a = b.

Lemma allocation_exclusive ok owner wr m m' r : allocation ok owner wr m m' r → exclusive m → exclusive m'.
Proof.
  unfold allocation. destruct r as [ip|[]]; [|tauto|by intros (-> & _)|by intros (-> & _)].
  intros (_ & [->|(-> & _ & _ & Hn & Hno & _)]) He; [done|]. intros a b o.
  rewrite !lookup_insert_Some. intros [[<- <-]|[? Ha]] [[<- ?]|[? Hb]]; subst; try done; try (by destruct (Hno _ Ha)).
  - by destruct (Hno _ Hb).
  - by eapply He.
Qed.

Lemma exclusive_filter (P : Z * string → Prop) `{∀ x, Decision (P x)} m : exclusive m → exclusive (filter P m).
Proof. intros He a b o [Ha _]%map_lookup_filter_Some [Hb _]%map_lookup_filter_Some. by eapply He. Qed.

Definition exclusive_store (s : Store) : Prop :=
  exclusive (allocations (st_ipam s)) ∧ exclusive (allocations6 (st_ipam s)).

Lemma write_store_exclusive f s : exclusive_store s → (∀ s, exclusive_store s → exclusive_store (f s)) →
  exclusive_store (write_store f s).1.
Proof. intros Hs Hf. destruct (write_store_run f s) as [fs ->]. destruct (writable s); [by apply Hf|done]. Qed.

Lemma cni_op_exclusive o s : wf_cni o → exclusive_store s → exclusive_store (cni_op o s).
Proof.
  intros Hwf [H4 H6]. destruct o as [[net plen] owner|[net plen] owner|owner ip ip6|ep|c i]; cbn [cni_op wf_cni] in *.
  - unfold in_range in Hwf. destruct (Z.le_gt_cases plen 30) as [Hp|Hp].
    + pose proof (alloc_ip_run net plen owner s ltac:(lia) ltac:(lia)) as Hr.
      destruct (alloc_ip _ _ _) as [s' r]. destruct Hr as (Ha & E6 & _). split; cbn; [|by rewrite E6].
      by eapply allocation_exclusive.
    + unfold alloc_ip. by rewrite (proj2 (Z.ltb_lt _ _)) by lia.
  - unfold in_range in Hwf. destruct (Z.le_gt_cases plen 126) as [Hp|Hp].
    + pose proof (alloc_ip6_run net plen owner s ltac:(lia) ltac:(lia)) as Hr.
      destruct (alloc_ip6 _ _ _) as [s' r]. destruct Hr as (Ha & E4 & _). split; cbn; [by rewrite E4|].
      by eapply allocation_exclusive.
    + unfold alloc_ip6. by rewrite (proj2 (Z.ltb_lt _ _)) by lia.
  - unfold release_ip, mbind, M_bind, gets. case_match; [done|].
    apply write_store_exclusive; [done|]. intros s' _. split; by apply exclusive_filter.
  - by apply write_store_exclusive.
  - unfold remove_endpoint, mbind, M_bind, get. case_match; [done|]. by apply write_store_exclusive.
Qed.

Lemma run_cni_exclusive os s : Forall wf_cni os → exclusive_store s → exclusive_store (run_cni os s).
Proof.
  intros Hwf. revert s. induction Hwf as [|o os Ho _ IH]; intros s Hs; [done|]. cbn. apply IH. by apply cni_op_exclusive.
Qed.

Lemma allocation_keeps ok owner wr m m' r a o : allocation ok owner wr m m' r → m !! a = Some o → m' !! a = Some o.
Proof.
  unfold allocation. destruct r as [ip|[]]; [|tauto|by intros (-> & _)|by intros (-> & _)].
  intros (_ & [->|(-> & _ & _ & Hn & _)]) Ha; [done|]. rewrite lookup_insert_ne; [done|]. congruence.
Qed.

(** ** The properties *)

(** A request of [owner] is granted [ip] of the pool: it held [ip] before and
    nothing changes, or it held nothing, and [ip] is a host address of the
    pool nobody held. *)
Definition granted (w net plen : Z) (owner : string) (m m' : gmap Z string) (ip : Z) : Prop :=
  m' !! ip = Some owner ∧
  (m' = m ∨ m !! ip = None ∧ usable w net plen ip ∧ (∀ a, m !! a ≠ Some owner) ∧ m' = <[ip := owner]> m).

Lemma allocation_granted w net plen owner wr m m' ip :
  allocation (usable w net plen) owner wr m m' (Ok ip) → granted w net plen owner m m' ip.
Proof. intros (Hip & [->|(-> & _ & Hu & Hn & Hno & _)]); (split; [done|]); [by left|right; by split_and!]. Qed.

(** The request takes [a] from [who]: a release that names either. *)
Definition takes (o : CniOp) (v6 : bool) (a : Z) (who : string) : Prop :=
  match o with
  | OpRelease owner ip ip6 => Some a = (if v6 then ip6 else ip) ∨ owner ≠ ""%string ∧ who = owner
  | _ => False
  end.

Definition table (v6 : bool) (s : Store) : gmap Z string :=
  if v6 then allocations6 (st_ipam s) else allocations (st_ipam s).

Lemma write_endpoints_table m s v6 : table v6 (write_store (set_endpoints m) s).1 = table v6 s.
Proof. destruct (write_store_run (set_endpoints m) s) as [fs ->]. by destruct (writable s), v6. Qed.

Lemma release_keeps owner ip ip6 s v6 a who : table v6 s !! a = Some who → ¬ takes (OpRelease owner ip ip6) v6 a who →
  table v6 (release_ip owner ip ip6 s).1 !! a = Some who.
Proof.
  intros Ha Hn. unfold release_ip, mbind, M_bind, gets. case_match; [done|].
  match goal with |- context [write_store ?f s] => destruct (write_store_run f s) as [fs ->] end.
  destruct (writable s); [|by destruct v6]. destruct v6; cbn in *; by apply map_lookup_filter_Some.
Qed.

Lemma cni_op_keeps o s v6 a who : wf_cni o → table v6 s !! a = Some who → ¬ takes o v6 a who →
  table v6 (cni_op o s) !! a = Some who.
Proof.
  intros Hwf Ha Hn. destruct o as [[net plen] owner|[net plen] owner|owner ip ip6|ep|c i]; cbn [cni_op wf_cni] in *.
  - unfold in_range in Hwf. destruct (Z.le_gt_cases plen 30) as [Hp|Hp].
    + pose proof (alloc_ip_run net plen owner s ltac:(lia) ltac:(lia)) as Hr.
      destruct (alloc_ip _ _ _) as [s' r]. destruct Hr as (Hal & E6 & _). destruct v6; cbn in *; [by rewrite E6|].
      by eapply allocation_keeps.
    + unfold alloc_ip. by rewrite (proj2 (Z.ltb_lt _ _)) by lia.
  - unfold in_range in Hwf. destruct (Z.le_gt_cases plen 126) as [Hp|Hp].
    + pose proof (alloc_ip6_run net plen owner s ltac:(lia) ltac:(lia)) as Hr.
      destruct (alloc_ip6 _ _ _) as [s' r]. destruct Hr as (Hal & E4 & _). destruct v6; cbn in *; [|by rewrite E4].
      by eapply allocation_keeps.
    + unfold alloc_ip6. by rewrite (proj2 (Z.ltb_lt _ _)) by lia.
  - by apply release_keeps.
  - unfold put_endpoint, mbind, M_bind, get. by rewrite write_endpoints_table.
  - unfold remove_endpoint, mbind, M_bind, get. case_match; [done|]. by rewrite write_endpoints_table.
Qed.

(** C30: the allocator's guarantees, however allocations, releases and
    endpoint updates are interleaved and whichever state-file writes fail.
    No owner has two addresses of a family.  An address granted, of either
    family, is the owner's already and nothing changes, or it is a host
    address of the pool nobody held and the owner held none: no holder is
    displaced.  And an address stays its holder's until a release names the
    one or the other. *)
Theorem ipam_exclusive os faults : Forall wf_cni os →
  let s := run_cni os (mkStore (mkIpamFile ∅ ∅) ∅ faults) in
  exclusive_store s ∧
  (∀ net plen owner s' ip, u32 net → 0 ≤ plen → alloc_ip (net, plen) owner s = (s', Ok (ip, plen)) →
     granted 32 net plen owner (table false s) (table false s') ip ∧ table true s' = table true s) ∧
  (∀ net plen owner s' ip, u128 net → 0 ≤ plen → alloc_ip6 (net, plen) owner s = (s', Ok (ip, plen)) →
     granted 128 net plen owner (table true s) (table true s') ip ∧ table false s' = table false s) ∧
  (∀ o v6 a who, wf_cni o → table v6 s !! a = Some who → ¬ takes o v6 a who → table v6 (cni_op o s) !! a = Some who).
Proof.
  intros Hwf s. split; [|split; [|split]].
  - apply run_cni_exclusive; [done|]. by split; intros a b o; cbn; rewrite lookup_empty.
  - intros net plen owner s' ip Hn Hp E. unfold in_range in Hn. destruct (Z.le_gt_cases plen 30) as [Hle|Hgt].
    + pose proof (alloc_ip_run net plen owner s ltac:(lia) ltac:(lia)) as Hr. rewrite E in Hr.
      destruct Hr as (Ha & E6 & _). split; [by eapply allocation_granted|done].
    + unfold alloc_ip in E. by rewrite (proj2 (Z.ltb_lt _ _)) in E by lia.
  - intros net plen owner s' ip Hn Hp E. unfold in_range in Hn. destruct (Z.le_gt_cases plen 126) as [Hle|Hgt].
    + pose proof (alloc_ip6_run net plen owner s ltac:(lia) ltac:(lia)) as Hr. rewrite E in Hr.
      destruct Hr as (Ha & E4 & _). split; [by eapply allocation_granted|done].
    + unfold alloc_ip6 in E. by rewrite (proj2 (Z.ltb_lt _ _)) in E by lia.
  - intros o v6 a who. apply cni_op_keeps.
Qed.

Lemma ipam_exclusive_witness :
  let os := [OpAlloc (0x0af40000, 29) "a/eth0"; OpAlloc (0x0af40000, 29) "b/eth0"; OpRelease "a/eth0" None None;
             OpAlloc (0x0af40000, 29) "c/eth0"; OpAlloc6 (0xfd00, 124) "b/eth0"] in
  let s := run_cni os (mkStore (mkIpamFile ∅ ∅) ∅ [false; true]) in
  let run := alloc_ip6 (0xfd00, 124) "c/eth0" s in
  allocations (st_ipam s) = {[ 0x0af40002 := "c/eth0"%string ]} ∧ exclusive_store s ∧
  run.2 = Ok (0xfd03, 124) ∧ granted 128 0xfd00 124 "c/eth0" (table true s) (table true run.1) 0xfd03.
Proof.
  cbn zeta. set (os := _ :: _). split; [vm_compute; reflexivity|].
  set (s := run_cni os _). set (run := alloc_ip6 _ _ s). assert (run.2 = Ok (0xfd03, 124)) as Hr by (vm_compute; reflexivity).
  destruct (ipam_exclusive os [false; true]) as (He & _ & H6 & _); [repeat constructor; cbn; unfold in_range; lia|].
  split; [exact He|]. split; [exact Hr|]. apply (H6 0xfd00 124 "c/eth0"%string run.1 0xfd03).
  - unfold in_range. lia.
  - lia.
  - rewrite (surjective_pairing (alloc_ip6 _ _ _)). fold s run. by rewrite Hr.
Defined.

Lemma release_frees owner s s' : owner ≠ ""%string → release_ip owner None None s = (s', Ok tt) →
  ∀ a, allocations (st_ipam s') !! a =
    match allocations (st_ipam s) !! a with Some o => if bool_decide (o = owner) then None else Some o | None => None end.
Proof.
  intros Ho. unfold release_ip, mbind, M_bind, gets.
  set (m := allocations (st_ipam s)). set (a4 := filter _ m). set (a6 := filter _ (allocations6 _)).
  assert (∀ a, a4 !! a = match m !! a with Some o => if bool_decide (o = owner) then None else Some o | None => None end) as Hf.
  { intros a. unfold a4. rewrite map_lookup_filter. destruct (m !! a) as [o|]; [|done]. cbn.
    unfold keeps_alloc. cbn [fst snd]. case_bool_decide as E.
    - rewrite option_guard_False; [done|]. intros Hk. apply Hk. by right.
    - rewrite option_guard_True; [done|]. intros [?|[_ ?]]; [done|congruence]. }
  case_match eqn:Esz.
  - intros [= <-]. fold m. intros a. rewrite <- Hf. f_equal. symmetry.
    apply andb_true_iff in Esz as [Esz%Nat.eqb_eq _].
    rewrite (map_subseteq_size_eq a4 m); [done|apply map_filter_subseteq|lia].
  - destruct (write_store_run (set_ipam (mkIpamFile a4 a6)) s) as [fs ->]. destruct (writable s); [|done].
    intros [= <-]. cbn. exact Hf.
Qed.

(** C31: an address is granted whenever there is one.  A request with a
    writable state file fails only if every host address of its pool is
    taken by others, or the pool is smaller than a /30 (/126); what it
    grants is the owner's address, or else the lowest free host address, never the
    network's, the gateway's or the broadcast address; and once an owner
    releases its address the next request for that pool succeeds. *)
Theorem ip_allocation_progress net plen owner s : u32 net → 0 ≤ plen ≤ 30 → writable s = true →
  let m := allocations (st_ipam s) in
  let run := alloc_ip (net, plen) owner s in
  (run.2 = Err PoolExhausted ∧ run.1 = s ∧ (∀ a, usable 32 net plen a → ∃ o, m !! a = Some o ∧ o ≠ owner) ∨
   ∃ ip, run.2 = Ok (ip, plen) ∧ allocations (st_ipam run.1) = <[ip := owner]> m ∧
     (m !! ip = Some owner ∨ m !! ip = None ∧ usable 32 net plen ip ∧ ∀ a, usable 32 net plen a → a < ip → is_Some (m !! a))) ∧
  (∀ other s1 ip1, other ≠ ""%string → m !! ip1 = Some other → usable 32 net plen ip1 →
     release_ip other None None s = (s1, Ok tt) → writable s1 = true → ∃ ip, (alloc_ip (net, plen) owner s1).2 = Ok (ip, plen)).
Proof.
  intros Hn Hp Hw m run. unfold run. clear run. unfold in_range in Hn.
  assert (∀ s, writable s = true → let '(s', r) := alloc_ip (net, plen) owner s in
    r = Err PoolExhausted ∧ allocations (st_ipam s') = allocations (st_ipam s) ∧
      (∀ a, usable 32 net plen a → ∃ o, allocations (st_ipam s) !! a = Some o ∧ o ≠ owner) ∨
    ∃ ip, r = Ok (ip, plen) ∧ allocations (st_ipam s') = <[ip := owner]> (allocations (st_ipam s)) ∧
      (allocations (st_ipam s) !! ip = Some owner ∨ allocations (st_ipam s) !! ip = None ∧ usable 32 net plen ip ∧
        ∀ a, usable 32 net plen a → a < ip → is_Some (allocations (st_ipam s) !! a))) as Hall.
  { clear s Hw m. intros s Hw. pose proof (alloc_ip_run net plen owner s ltac:(lia) ltac:(lia)) as Hr.
    destruct (alloc_ip _ _ _) as [s' [[ip pl]|e]]; destruct Hr as (Ha & _ & _ & Hx); cbn in Ha.
    - right. exists ip. pose proof (Hx _ eq_refl) as Hpl. cbn in Hpl. subst pl. split; [done|].
      destruct Ha as (Hip & [E|(-> & _ & Hu & Hnone & _ & Hlow)]); [|split; [done|right; by split_and!]].
      rewrite E in *. split; [|by left]. symmetry. by apply insert_id.
    - left. destruct e; [done| |by destruct Ha; congruence]. destruct Ha as (E & Hno & Hfull). split; [done|].
      split; [done|]. intros a Hu. destruct (Hfull a Hu) as [o Hao]. exists o. split; [done|]. intros ->. by apply (Hno a). }
  pose proof (Hall s Hw) as H1. destruct (alloc_ip _ _ _) as [s' r] eqn:E. split.
  - destruct H1 as [(-> & _ & H1)|H1]; [left|by right]. split; [done|]. split; [|done].
    unfold alloc_ip in E. rewrite (proj2 (Z.ltb_ge _ _)) in E by lia. unfold mbind at 1, M_bind, gets in E.
    destruct (held_by _ _) as [ip|]; [by injection E|].
    destruct (vacancy _ _ _) as [ip|]; [|by injection E as <-]. unfold mbind, M_bind in E.
    destruct (write_store_run (set_ipam (mkIpamFile (<[ip := owner]> (allocations (st_ipam s))) (allocations6 (st_ipam s)))) s)
      as [fs Ef]. rewrite Ef, Hw in E. by injection E.
  - intros other s1 ip1 Hother Hip1 Hu Hrel Hw1. pose proof (Hall s1 Hw1) as H2.
    destruct (alloc_ip _ _ s1) as [s2 r2]. destruct H2 as [(_ & _ & H2)|(ip & -> & _)]; [|by exists ip].
    exfalso. destruct (H2 ip1 Hu) as (o & Ho & _). rewrite (release_frees other s s1 Hother Hrel) in Ho.
    fold m in Ho. by rewrite Hip1, bool_decide_true in Ho.
Qed.

(** A /30 has one host address; [b] waits for [a]. *)
Lemma ip_allocation_progress_witness :
  let s := run_cni [OpAlloc (0x0af40000, 30) "a/eth0"] empty_store in
  alloc_ip (0x0af40000, 30) "b/eth0" s = (s, Err PoolExhausted) ∧
  ∃ ip, (alloc_ip (0x0af40000, 30) "b/eth0" (release_ip "a/eth0" None None s).1).2 = Ok (ip, 30).
Proof.
  cbn zeta. set (s := run_cni _ _). split; [vm_compute; reflexivity|].
  assert (u32 0x0af40000) as Hn by (unfold in_range; lia).
  assert (0 ≤ 30 ≤ 30) as Hp by lia.
  assert (writable s = true) as Hw by (vm_compute; reflexivity).
  set (s1 := (release_ip "a/eth0" None None s).1).
  apply (proj2 (ip_allocation_progress 0x0af40000 30 "b/eth0" s Hn Hp Hw) "a/eth0"%string s1 0x0af40002).
  - done.
  - vm_compute. reflexivity.
  - vm_compute. split; [reflexivity|]. split; [discriminate|reflexivity].
  - vm_compute. reflexivity.
  - vm_compute. reflexivity.
Defined.
