(* ===== verification/Text.v ===== *)
(** * Text

    The string functions the sources use to read interface data, addresses
    and command output: Rust's [split_whitespace], [split], [trim],
    [from_str_radix] on ASCII text, and the MAC parser of [util.rs]. *)

From S2P Require Import Prelude.
From S2P Require Import Bpf.

(** The characters [split_whitespace] splits at. *)
Definition is_ws (a : Ascii.ascii) : bool :=
  let n := Ascii.nat_of_ascii a in ((9 <=? n) && (n <=? 13) || (n =? 32))%nat.

Fixpoint words_aux (s : string) (acc : string) : list string :=
  let flush := if bool_decide (acc = ""%string) then [] else [acc] in
  match s with
  | EmptyString => flush
  | String a s => if is_ws a then flush ++ words_aux s "" else words_aux s (acc +:+ String a EmptyString)
  end.
Definition split_whitespace (s : string) : list string := words_aux s "".


(** [s.split(sep)]: the pieces, empty ones included. *)
Fixpoint split_aux (sep : Ascii.ascii) (s acc : string) : list string :=
  match s with
  | EmptyString => [acc]
  | String a s =>
      if Ascii.eqb a sep then acc :: split_aux sep s ""
      else split_aux sep s (acc +:+ String a EmptyString)
  end.
Definition split_char (sep : Ascii.ascii) (s : string) : list string := split_aux sep s "".

(** [s.split_once(sep)]: what precedes and follows the first [sep]. *)
Fixpoint split_once (sep : Ascii.ascii) (s : string) : option (string * string) :=
  match s with
  | EmptyString => None
  | String a s =>
      if Ascii.eqb a sep then Some (""%string, s)
      else match split_once sep s with Some (l, r) => Some (String a l, r) | None => None end
  end.

(** [s.strip_prefix(p)] *)
Fixpoint strip_prefix (p s : string) : option string :=
  match p, s with
  | EmptyString, _ => Some s
  | String a p, String b s => if Ascii.eqb a b then strip_prefix p s else None
  | String _ _, EmptyString => None
  end.

(** [s.contains(p)] *)
Fixpoint contains (p s : string) : bool :=
  String.prefix p s || match s with EmptyString => false | String _ s => contains p s end.

(** [s.trim()] *)
Fixpoint trim_start (s : string) : string :=
  match s with String a t => if is_ws a then trim_start t else s | EmptyString => s end.
Definition all_ws (s : string) : bool := forallb is_ws (String.list_ascii_of_string s).
Fixpoint trim_end (s : string) : string :=
  if all_ws s then ""%string else match s with String a t => String a (trim_end t) | EmptyString => s end.
Definition trim (s : string) : string := trim_end (trim_start s).

(** [!s.is_empty()] *)
Definition is_set (s : string) : bool := negb (bool_decide (s = ""%string)).

(** [to_lowercase], on ASCII text. *)
Definition to_lower (a : Ascii.ascii) : Ascii.ascii :=
  let n := Ascii.nat_of_ascii a in if ((65 <=? n) && (n <=? 90))%nat then Ascii.ascii_of_nat (n + 32) else a.
Fixpoint to_lowercase (s : string) : string :=
  match s with EmptyString => EmptyString | String a s => String (to_lower a) (to_lowercase s) end.

(** *** Both ends *)

Definition starts_with (p s : string) : bool := bool_decide (is_Some (strip_prefix p s)).
Fixpoint strip_suffix (p s : string) : option string :=
  if bool_decide (s = p) then Some ""%string
  else match s with String a s => String a <$> strip_suffix p s | EmptyString => None end.
Definition ends_with (p s : string) : bool := bool_decide (is_Some (strip_suffix p s)).
(** [trim_start_matches]: every copy of the prefix at the front goes. *)
Fixpoint trim_start_matches (fuel : nat) (p s : string) : string :=
  match fuel with
  | O => s
  | S fuel => match strip_prefix p s with Some s => trim_start_matches fuel p s | None => s end
  end.
Fixpoint trim_end_matches (fuel : nat) (p s : string) : string :=
  match fuel with
  | O => s
  | S fuel => match strip_suffix p s with Some s => trim_end_matches fuel p s | None => s end
  end.
(** [rsplit_once]: at the last separator. *)
Fixpoint rsplit_once (sep : Ascii.ascii) (s : string) : option (string * string) :=
  match s with
  | EmptyString => None
  | String a s =>
      match rsplit_once sep s with
      | Some (l, r) => Some (String a l, r)
      | None => if bool_decide (a = sep) then Some (""%string, s) else None
      end
  end.

(** ** Numbers *)

Definition digit (radix : Z) (a : Ascii.ascii) : option Z :=
  let n := Z.of_nat (Ascii.nat_of_ascii a) in
  let d := if (48 <=? n) && (n <=? 57) then n - 48
           else if (97 <=? n) && (n <=? 122) then n - 87
           else if (65 <=? n) && (n <=? 90) then n - 55 else radix in
  if d <? radix then Some d else None.

Fixpoint digits (radix bound : Z) (acc : Z) (s : string) : option Z :=
  match s with
  | EmptyString => Some acc
  | String a s =>
      d ← digit radix a;
      let acc := acc * radix + d in
      if bound <=? acc then None else digits radix bound acc s
  end.

(** [uN::from_str_radix]: a leading [+] is allowed, the digits are not
    empty, and the value fits [w] bits. *)
Definition from_str_radix (w radix : Z) (s : string) : option Z :=
  let body := default s (strip_prefix "+" s) in
  if bool_decide (body = ""%string) then None else digits radix (2 ^ w) 0 body.

(** [aa:bb:cc:dd:ee:ff] *)
Definition parse_mac (s : string) : option bytes :=
  let parts := split_char (Ascii.ascii_of_nat 58) s in
  if (length parts =? 6)%nat then mapM (from_str_radix 8 16) parts else None.

Example parse_mac_ok : parse_mac "2a:DB:90:a5:b4:1" = Some [42; 219; 144; 165; 180; 1].
Proof. reflexivity. Qed.
Example parse_mac_seven : parse_mac "2a:db:90:a5:b4:71:00" = None.
Proof. reflexivity. Qed.
Example from_str_radix_max : from_str_radix 32 10 "4294967295" = Some (2 ^ 32 - 1).
Proof. reflexivity. Qed.
Example from_str_radix_overflow : from_str_radix 32 10 "4294967296" = None.
Proof. reflexivity. Qed.

(** ** JSON values

    The fields of an object in the order they were written. *)
Inductive Json : Type := JNum (n : Z) | JBool (b : bool) | JStr (s : string) | JArr (l : list Json) | JObj (m : list (string * Json)).

Definition jget (key : string) (j : Json) : option Json :=
  match j with
  | JObj m => first_some (λ kv, if bool_decide (kv.1 = key) then Some kv.2 else None) m
  | _ => None
  end.
(** [value[key] = x], the key being new *)
Definition jset (key : string) (x j : Json) : Json := match j with JObj m => JObj (m ++ [(key, x)]) | _ => j end.
Definition jpath (keys : list string) (j : Json) : option Json := foldl (λ o key, j ← o; jget key j) (Some j) keys.
