(* ===== verification/L7.v ===== *)
(** * The L7 proxy's decisions ([crates/cradle/src/l7.rs])

    The route table the control plane fills, the verdict on a request, the
    choice of a backend, and what [handle] does with a connection: judge the
    bytes of the first read, then splice.  Regular expressions are the
    [regex] crate's: the class [Regex].  Requests are ASCII. *)

From S2P Require Import Prelude.
From S2P Require Import Text.
From S2P Require Import Bpf.
From S2P Require Import MapRefs.

Abbreviation SocketAddr := (IpAddr * Z)%type.

Class Regex := { re : Type; re_new : string → option re; re_is_match : re → string → bool }.

Record L7Route := mkL7Route { lr_prefix : string; lr_backend : SocketAddr }.
Record L7PolicyRule := mkL7PolicyRule { lp_method : string; lp_path : string }.

(** ** Requests *)

Definition CRLF : string := String (Ascii.ascii_of_nat 13) (String (Ascii.ascii_of_nat 10) EmptyString).

(** The text before the first [CRLF]: [text.split("\r\n").next()]. *)
Fixpoint first_line (s : string) : string :=
  match s with
  | EmptyString => ""
  | String a t => if String.prefix CRLF s then "" else String a (first_line t)
  end.

Definition parse_request (head : string) : string * string :=
  match split_whitespace (first_line head) with
  | [] => ("", "/")
  | [m] => (m, "/")
  | m :: p :: _ => (m, p)
  end%string.

Section table.
Context `{Regex}.

Record CompiledRule := mkCompiledRule { cr_method : string; cr_path : option re; cr_exact : string }.

Definition compile (r : L7PolicyRule) : CompiledRule :=
  mkCompiledRule (lp_method r)
    (if bool_decide (lp_path r = ""%string) then None else re_new ("^(?:" +:+ lp_path r +:+ ")$"))
    (lp_path r).

Definition rule_matches (r : CompiledRule) (method path : string) : bool :=
  let method_ok := bool_decide (cr_method r = ""%string) || bool_decide (cr_method r = method) in
  let path_ok :=
    if bool_decide (cr_exact r = ""%string) then true
    else match cr_path r with
         | Some e => re_is_match e path
         | None => bool_decide (path = cr_exact r)
         end in
  method_ok && path_ok.

Record RouteTable := mkRouteTable {
  rt_policies : gmap SocketAddr (list CompiledRule);
  rt_services : gmap SocketAddr (list L7Route) }.

Definition set_policy (dst : SocketAddr) (rules : list L7PolicyRule) (t : RouteTable) : RouteTable :=
  mkRouteTable (<[dst := compile <$> rules]> (rt_policies t)) (rt_services t).
Definition del_policy (dst : SocketAddr) (t : RouteTable) : RouteTable :=
  mkRouteTable (delete dst (rt_policies t)) (rt_services t).
Definition add_routes (vip : SocketAddr) (routes : list L7Route) (t : RouteTable) : RouteTable :=
  mkRouteTable (rt_policies t) (<[vip := routes]> (rt_services t)).

Definition policy_verdict (t : RouteTable) (dst : SocketAddr) (method path : string) : option bool :=
  rules ← rt_policies t !! dst;
  Some (existsb (λ r, rule_matches r method path) rules).

(** [max_by_key]: the last of the longest. *)
Definition longest (rs : list L7Route) : option L7Route :=
  foldl (λ best r, match best with
                   | Some b => if (String.length (lr_prefix b) <=? String.length (lr_prefix r))%nat then Some r else best
                   | None => Some r
                   end) None rs.

Definition choose (t : RouteTable) (dst : SocketAddr) (path : string) : option SocketAddr :=
  routes ← rt_services t !! dst;
  best ← match longest (filter (λ r, String.prefix (lr_prefix r) path = true) routes) with
         | Some r => Some r
         | None => head routes
         end;
  Some (lr_backend best).

(** What becomes of a connection to [orig] whose client sends [reads], one
    element per [read]: refused with a 403, closed, or spliced, every byte of
    it, to an upstream. *)
Inductive Outcome : Type :=
| Forbidden
| Closed
| Spliced (upstream : SocketAddr) (sent : string).

Definition handle (t : RouteTable) (orig : SocketAddr) (reads : list string) : Outcome :=
  let head := default ""%string (head reads) in
  let '(method, path) := parse_request head in
  let stream := foldr String.append ""%string reads in
  match policy_verdict t orig method path with
  | Some true => Spliced orig stream
  | Some false => Forbidden
  | None => match choose t orig path with Some b => Spliced b stream | None => Closed end
  end.
End table.

(** ** A request judged by its first bytes

    The client splits its request line between two segments: the path the
    policy sees is a prefix of the one the upstream gets.  The table admits
    only [/allowed]. *)

(** Expressions with no metacharacter: equality. *)
Definition literal_regex : Regex := {|
  re := string; re_new s := Some s; re_is_match e p := bool_decide (e = "^(?:" +:+ p +:+ ")$") |}.

Example l7_split_request_admitted :
  let dst : SocketAddr := (V4 [10; 0; 0; 2], 8080) in
  let t := @set_policy literal_regex dst [mkL7PolicyRule "GET" "/allowed"] (@mkRouteTable literal_regex ∅ ∅) in
  let one := "GET /allowed/secret HTTP/1.1"%string in
  @handle literal_regex t dst [one] = Forbidden ∧
  @handle literal_regex t dst ["GET /allowed"; "/secret HTTP/1.1"]%string = Spliced dst one.
Proof. vm_compute. split; reflexivity. Qed.
