(* ===== verification/Control.v ===== *)
(** * The control plane's state ([crates/cradle/src/control.rs])

    [Control]: the bookkeeping behind the requests of the control API, and
    the requests on Ethernet Segments, E-Tree roles and replication slots.
    A request runs under the locks the source takes, so requests are atomic
    towards each other; the packets see every map write ([MapRefs.Run]).

    The network namespace is the host's: the class [HostOps] holds what the
    source asks of it ([util.rs] and [kernel.rs] read sysfs and run [ip]). *)

From S2P Require Import Prelude.
From S2P Require Import Contract.
From S2P Require Import Common.
From S2P Require Import Bpf.
From S2P Require Import Maps.
From S2P Require Import MapRefs.
From S2P Require Import Dataplane.
From S2P Require Import Cni.
From S2P Require Import L7.

(** ** The host *)

(** One entry of [getifaddrs]: the interface, an address and its netmask. *)
Inductive IfAddr : Type :=
| If4 (name : string) (addr mask : bytes)
| If6 (name : string) (addr mask : bytes).

Inductive HostRoute : Type :=
| DevRoute (ip : IpAddr) (dev : string)
| LocalRoute (ip : IpAddr).

(** Calls that change the namespace return its new state and whether they
    succeeded. *)
Class HostOps := {
  Host : Type;
  ifindex_of : Host → string → option Z;
  mac_of : Host → string → option bytes;
  lag_members : Host → string → list string;
  getifaddrs : Host → option (list IfAddr);
  attach_programs : string → Host → Host * bool;
  detach_programs : string → Host → Host;
  add_veth_pair : string → string → Host → Host * bool;
  del_link : string → Host → Host * bool;
  replace_route : HostRoute → Host → Host * bool;
  del_route : HostRoute → Host → Host;
}.

(** ** The tables *)

Inductive EsMember : Type :=
| EsSrv6 (sid : bytes)
| EsVxlan (vtep : IpAddr)
| EsMpls (pe : IpAddr) (label : Z).

(** A role: designated forwarder, single-active. *)
Record EsState := mkEsState {
  es_id : Z;
  es_ports : list string;
  es_roles : gmap Z (bool * bool);
  es_peers : gset IpAddr;
  es_programmed : list (Z * Z);
  es_programmed_ports : list Z;
  es_programmed_peers : list IpAddr;
  es_nhg : gmap Z (bool * list EsMember);
  es_programmed_nhg : list Z;
  es_esi_label : Z;
  es_programmed_esi_label : Z }.

Record EsTable := mkEsTable {
  et_segments : gmap string EsState;
  et_ids : Z;
  et_vtep_bits : gmap IpAddr Z }.

Record EtreeTable := mkEtreeTable { et_leaves : gset string; et_programmed : gmap string Z }.

Abbreviation ReplLeaf := (string * Z * Z)%type.
Abbreviation GroupKey := (bytes * Z)%type.
Abbreviation ReplSlotKey := (Z * bytes * string)%type.

Record ReplSlot := mkReplSlot { rsl_a : string; rsl_a_idx : Z; rsl_b_idx : Z; rsl_group : option GroupKey }.

Record SlotGroup := mkSlotGroup {
  sg_plain : option Z; sg_es : gmap string Z; sg_leaf : option Z; sg_root_only : bool }.

Definition empty_group : SlotGroup := mkSlotGroup None ∅ None false.
Definition group_is_empty (g : SlotGroup) : bool :=
  bool_decide (sg_plain g = None) && bool_decide (sg_es g = ∅) && bool_decide (sg_leaf g = None)
  && negb (sg_root_only g).

Inductive SlotRole : Type := RolePlain | RoleEs (esi : string) | RoleLeaf.

(** The artifacts a routed port derived: [(vrf, prefix, length)] each. *)
Record DerivedPort := mkDerivedPort {
  dv_v4 : list (Z * bytes * Z); dv_v6 : list (Z * bytes * Z); dv_nh4 : option Z; dv_nh6 : option Z }.
Definition no_derived : DerivedPort := mkDerivedPort [] [] None None.

Record PortAttachment := mkPortAttachment {
  pa_name : string; pa_derived : DerivedPort; pa_l3 : bool; pa_vrf_id : Z; pa_lag_members : list Z }.

Inductive CtlErr : Type :=
| DpFailed (e : DpErr)
| CniFailed (e : CniErr)
| HostFailed
| NoSuchPort (name : string)
| TooManySegments
| NoVni (bd : Z)
| BadMember
| BadLabel (label : Z)
| BadArgument
| ExclusiveLabels
| SentinelPresent (bd : Z)
| NoEndpoint
| UnknownBehavior (code : Z).

Section control.
Context `{HostOps} `{Regex} `{MapSys}.

Record Control := mkControl {
  c_host : Host;
  c_run : Run;
  c_attached : gmap Z PortAttachment;
  c_routes : RouteTable;
  c_repl_slots : gmap ReplSlotKey ReplSlot;
  c_slot_groups : gmap GroupKey SlotGroup;
  c_repl_next : Z;
  c_repl_seg_veths : gmap bytes ReplLeaf;
  c_es : EsTable;
  c_etree : EtreeTable;
  c_etree_leaf_label : Z;
  c_etree_leaf_arg : Z;
  c_etree_remotes : gset (Z * bytes);
  c_cni : Store;
  c_identities : gmap Z Z;
  c_policy_revisions : gmap Z Z;
  c_l7_policies : gmap Z (list (Z * Z));
  c_hints : list (bytes * Z); }.

Definition set_c_host (x : Host) (c : Control) : Control :=
  mkControl x (c_run c) (c_attached c) (c_routes c) (c_repl_slots c) (c_slot_groups c)
    (c_repl_next c) (c_repl_seg_veths c) (c_es c) (c_etree c) (c_etree_leaf_label c)
    (c_etree_leaf_arg c) (c_etree_remotes c) (c_cni c) (c_identities c) (c_policy_revisions
    c) (c_l7_policies c) (c_hints c).
Definition set_c_run (x : Run) (c : Control) : Control :=
  mkControl (c_host c) x (c_attached c) (c_routes c) (c_repl_slots c) (c_slot_groups c)
    (c_repl_next c) (c_repl_seg_veths c) (c_es c) (c_etree c) (c_etree_leaf_label c)
    (c_etree_leaf_arg c) (c_etree_remotes c) (c_cni c) (c_identities c) (c_policy_revisions
    c) (c_l7_policies c) (c_hints c).
Definition set_c_attached (x : gmap Z PortAttachment) (c : Control) : Control :=
  mkControl (c_host c) (c_run c) x (c_routes c) (c_repl_slots c) (c_slot_groups c)
    (c_repl_next c) (c_repl_seg_veths c) (c_es c) (c_etree c) (c_etree_leaf_label c)
    (c_etree_leaf_arg c) (c_etree_remotes c) (c_cni c) (c_identities c) (c_policy_revisions
    c) (c_l7_policies c) (c_hints c).
Definition set_c_routes (x : RouteTable) (c : Control) : Control :=
  mkControl (c_host c) (c_run c) (c_attached c) x (c_repl_slots c) (c_slot_groups c)
    (c_repl_next c) (c_repl_seg_veths c) (c_es c) (c_etree c) (c_etree_leaf_label c)
    (c_etree_leaf_arg c) (c_etree_remotes c) (c_cni c) (c_identities c) (c_policy_revisions
    c) (c_l7_policies c) (c_hints c).
Definition set_c_repl_slots (x : gmap ReplSlotKey ReplSlot) (c : Control) : Control :=
  mkControl (c_host c) (c_run c) (c_attached c) (c_routes c) x (c_slot_groups c)
    (c_repl_next c) (c_repl_seg_veths c) (c_es c) (c_etree c) (c_etree_leaf_label c)
    (c_etree_leaf_arg c) (c_etree_remotes c) (c_cni c) (c_identities c) (c_policy_revisions
    c) (c_l7_policies c) (c_hints c).
Definition set_c_slot_groups (x : gmap GroupKey SlotGroup) (c : Control) : Control :=
  mkControl (c_host c) (c_run c) (c_attached c) (c_routes c) (c_repl_slots c) x (c_repl_next
    c) (c_repl_seg_veths c) (c_es c) (c_etree c) (c_etree_leaf_label c) (c_etree_leaf_arg c)
    (c_etree_remotes c) (c_cni c) (c_identities c) (c_policy_revisions c) (c_l7_policies c)
    (c_hints c).
Definition set_c_repl_next (x : Z) (c : Control) : Control :=
  mkControl (c_host c) (c_run c) (c_attached c) (c_routes c) (c_repl_slots c) (c_slot_groups
    c) x (c_repl_seg_veths c) (c_es c) (c_etree c) (c_etree_leaf_label c) (c_etree_leaf_arg
    c) (c_etree_remotes c) (c_cni c) (c_identities c) (c_policy_revisions c) (c_l7_policies
    c) (c_hints c).
Definition set_c_repl_seg_veths (x : gmap bytes ReplLeaf) (c : Control) : Control :=
  mkControl (c_host c) (c_run c) (c_attached c) (c_routes c) (c_repl_slots c) (c_slot_groups
    c) (c_repl_next c) x (c_es c) (c_etree c) (c_etree_leaf_label c) (c_etree_leaf_arg c)
    (c_etree_remotes c) (c_cni c) (c_identities c) (c_policy_revisions c) (c_l7_policies c)
    (c_hints c).
Definition set_c_es (x : EsTable) (c : Control) : Control :=
  mkControl (c_host c) (c_run c) (c_attached c) (c_routes c) (c_repl_slots c) (c_slot_groups
    c) (c_repl_next c) (c_repl_seg_veths c) x (c_etree c) (c_etree_leaf_label c)
    (c_etree_leaf_arg c) (c_etree_remotes c) (c_cni c) (c_identities c) (c_policy_revisions
    c) (c_l7_policies c) (c_hints c).
Definition set_c_etree (x : EtreeTable) (c : Control) : Control :=
  mkControl (c_host c) (c_run c) (c_attached c) (c_routes c) (c_repl_slots c) (c_slot_groups
    c) (c_repl_next c) (c_repl_seg_veths c) (c_es c) x (c_etree_leaf_label c)
    (c_etree_leaf_arg c) (c_etree_remotes c) (c_cni c) (c_identities c) (c_policy_revisions
    c) (c_l7_policies c) (c_hints c).
Definition set_c_etree_leaf_label (x : Z) (c : Control) : Control :=
  mkControl (c_host c) (c_run c) (c_attached c) (c_routes c) (c_repl_slots c) (c_slot_groups
    c) (c_repl_next c) (c_repl_seg_veths c) (c_es c) (c_etree c) x (c_etree_leaf_arg c)
    (c_etree_remotes c) (c_cni c) (c_identities c) (c_policy_revisions c) (c_l7_policies c)
    (c_hints c).
Definition set_c_etree_leaf_arg (x : Z) (c : Control) : Control :=
  mkControl (c_host c) (c_run c) (c_attached c) (c_routes c) (c_repl_slots c) (c_slot_groups
    c) (c_repl_next c) (c_repl_seg_veths c) (c_es c) (c_etree c) (c_etree_leaf_label c) x
    (c_etree_remotes c) (c_cni c) (c_identities c) (c_policy_revisions c) (c_l7_policies c)
    (c_hints c).
Definition set_c_etree_remotes (x : gset (Z * bytes)) (c : Control) : Control :=
  mkControl (c_host c) (c_run c) (c_attached c) (c_routes c) (c_repl_slots c) (c_slot_groups
    c) (c_repl_next c) (c_repl_seg_veths c) (c_es c) (c_etree c) (c_etree_leaf_label c)
    (c_etree_leaf_arg c) x (c_cni c) (c_identities c) (c_policy_revisions c) (c_l7_policies
    c) (c_hints c).
Definition set_c_cni (x : Store) (c : Control) : Control :=
  mkControl (c_host c) (c_run c) (c_attached c) (c_routes c) (c_repl_slots c) (c_slot_groups
    c) (c_repl_next c) (c_repl_seg_veths c) (c_es c) (c_etree c) (c_etree_leaf_label c)
    (c_etree_leaf_arg c) (c_etree_remotes c) x (c_identities c) (c_policy_revisions c)
    (c_l7_policies c) (c_hints c).
Definition set_c_identities (x : gmap Z Z) (c : Control) : Control :=
  mkControl (c_host c) (c_run c) (c_attached c) (c_routes c) (c_repl_slots c) (c_slot_groups
    c) (c_repl_next c) (c_repl_seg_veths c) (c_es c) (c_etree c) (c_etree_leaf_label c)
    (c_etree_leaf_arg c) (c_etree_remotes c) (c_cni c) x (c_policy_revisions c)
    (c_l7_policies c) (c_hints c).
Definition set_c_policy_revisions (x : gmap Z Z) (c : Control) : Control :=
  mkControl (c_host c) (c_run c) (c_attached c) (c_routes c) (c_repl_slots c) (c_slot_groups
    c) (c_repl_next c) (c_repl_seg_veths c) (c_es c) (c_etree c) (c_etree_leaf_label c)
    (c_etree_leaf_arg c) (c_etree_remotes c) (c_cni c) (c_identities c) x (c_l7_policies c)
    (c_hints c).
Definition set_c_l7_policies (x : gmap Z (list (Z * Z))) (c : Control) : Control :=
  mkControl (c_host c) (c_run c) (c_attached c) (c_routes c) (c_repl_slots c) (c_slot_groups
    c) (c_repl_next c) (c_repl_seg_veths c) (c_es c) (c_etree c) (c_etree_leaf_label c)
    (c_etree_leaf_arg c) (c_etree_remotes c) (c_cni c) (c_identities c) (c_policy_revisions
    c) x (c_hints c).
Definition set_c_hints (x : list (bytes * Z)) (c : Control) : Control :=
  mkControl (c_host c) (c_run c) (c_attached c) (c_routes c) (c_repl_slots c) (c_slot_groups
    c) (c_repl_next c) (c_repl_seg_veths c) (c_es c) (c_etree c) (c_etree_leaf_label c)
    (c_etree_leaf_arg c) (c_etree_remotes c) (c_cni c) (c_identities c) (c_policy_revisions
    c) (c_l7_policies c) x.

Abbreviation Ctrl := (M Control CtlErr).

(** A computation on part of the state. *)
Definition on_dp {A} (m : Ctl A) : Ctrl A := λ c,
  let '(s, r) := m (c_run c) in
  (set_c_run s c, match r with Ok a => Ok a | Err e => Err (DpFailed e) end).
Definition on_cni {A} (m : M Store CniErr A) : Ctrl A := λ c,
  let '(s, r) := m (c_cni c) in
  (set_c_cni s c, match r with Ok a => Ok a | Err e => Err (CniFailed e) end).
Definition on_host (f : Host → Host * bool) : Ctrl unit := λ c,
  let '(h, ok) := f (c_host c) in (set_c_host h c, if ok then Ok tt else Err HostFailed).

(** [util::ifindex_of(name)?] *)
Definition resolve (name : string) : Ctrl Z :=
  c ← get; of_option (NoSuchPort name) (ifindex_of (c_host c) name).

Fixpoint resolve_all (names : list string) : Ctrl (list Z) :=
  match names with
  | [] => mret []
  | n :: ns => ix ← resolve n; ixs ← resolve_all ns; mret (ix :: ixs)
  end.

(** [for x in l { f(x)?; }] *)
Definition each {A} (f : A → Ctrl unit) (l : list A) : Ctrl unit := mfold (λ _ x, f x) l tt.

(** [if result.is_err() { f }] *)
Definition on_error {A} (f : Control → Control) (m : Ctrl A) : Ctrl A := λ c,
  match m c with (c, Err e) => (f c, Err e) | r => r end.

(** Entries of a [BTreeMap<String, _>], in key order. *)
Definition str_key_le {V} (a b : string * V) : Prop := String.leb a.1 b.1 = true.
#[local] Instance str_key_le_dec {V} (a b : string * V) : Decision (str_key_le a b).
Proof. unfold str_key_le. apply _. Defined.
Definition stree {V} (m : gmap string V) : list (string * V) := merge_sort str_key_le (map_to_list m).

(** Elements of a [BTreeSet<IpAddr>]: v4 before v6, then by octets. *)
Definition ip_rank (a : IpAddr) : Z := match a with V4 b => of_be b | V6 b => 2 ^ 32 + of_be b end.
Definition ip_le (a b : IpAddr) : Prop := ip_rank a ≤ ip_rank b.
#[local] Instance ip_le_dec a b : Decision (ip_le a b).
Proof. unfold ip_le. apply _. Defined.
Definition ip_elements (s : gset IpAddr) : list IpAddr := merge_sort ip_le (elements s).

(** ** Ethernet Segments *)

Definition set_segments (f : gmap string EsState → gmap string EsState) : Ctrl unit :=
  modify (λ c, let t := c_es c in set_c_es (mkEsTable (f (et_segments t)) (et_ids t) (et_vtep_bits t)) c).
Definition upd_segment (esi : string) (f : EsState → EsState) : Ctrl unit := set_segments (alter f esi).

Definition new_segment (id : Z) : EsState := mkEsState id [] ∅ ∅ [] [] [] ∅ [] 0 0.

(** The segment named [esi], created with the first free id if unknown. *)
Definition es_entry (esi : string) : Ctrl EsState :=
  c ← get;
  let t := c_es c in
  match et_segments t !! esi with
  | Some st => mret st
  | None =>
      match first_some (λ i, if Z.testbit (et_ids t) i then None else Some i) (seqZ 0 (MAX_ES_ID + 1)) with
      | None => bail TooManySegments
      | Some id =>
          let st := new_segment id in
          _ ← modify (set_c_es (mkEsTable (<[esi := st]> (et_segments t)) (et_ids t .| 1 ≪ id) (et_vtep_bits t)));
          mret st
      end
  end.

(** One [ES_DF] row per port and domain this PE is not the forwarder of. *)
Definition es_rows (ifindexes : list Z) (roles : gmap Z (bool * bool)) : list (Z * Z * Z) :=
  ifindex ← ifindexes;
  omap (λ '(bd, (df, single_active)),
    if (df : bool) then None
    else Some (ifindex, bd, if (single_active : bool) then ES_DF_F_NON_DF .| ES_DF_F_BLOCK else ES_DF_F_NON_DF))
    (btree roles).

Definition es_target (d : Dp) (bd : Z) (m : EsMember) : res CtlErr ReplTarget :=
  match m with
  | EsSrv6 sid => Ok (mkReplTarget REPL_KIND_SRV6 0 sid 0)
  | EsVxlan vtep =>
      match vni_of d bd with
      | Some vni => Ok (mkReplTarget REPL_KIND_VXLAN vni (ip_to_v6_bytes vtep) 0)
      | None => Err (NoVni bd)
      end
  | EsMpls pe label => Ok (mkReplTarget REPL_KIND_MPLS label (ip_to_v6_bytes pe) 0)
  end.

(** [iter().map(f).collect::<Result<Vec<_>>>()] *)
Fixpoint collect {A B} (f : A → res CtlErr B) (l : list A) : res CtlErr (list B) :=
  match l with
  | [] => Ok []
  | x :: l =>
      match f x with
      | Err e => Err e
      | Ok y => match collect f l with Ok ys => Ok (y :: ys) | Err e => Err e end
      end
  end.
Definition of_res {A} (r : res CtlErr A) : Ctrl A := match r with Ok a => mret a | Err e => bail e end.

Definition es_groups (d : Dp) (nhg : gmap Z (bool * list EsMember)) : res CtlErr (list (Z * bool * list ReplTarget)) :=
  collect (λ '(bd, (single_active, members)),
    match collect (es_target d bd) members with
    | Ok targets => Ok (bd, single_active, targets)
    | Err e => Err e
    end) (btree nhg).

Definition set_es_programmed x st := mkEsState (es_id st) (es_ports st) (es_roles st) (es_peers st) x
  (es_programmed_ports st) (es_programmed_peers st) (es_nhg st) (es_programmed_nhg st) (es_esi_label st)
  (es_programmed_esi_label st).
Definition set_es_programmed_ports x st := mkEsState (es_id st) (es_ports st) (es_roles st) (es_peers st)
  (es_programmed st) x (es_programmed_peers st) (es_nhg st) (es_programmed_nhg st) (es_esi_label st)
  (es_programmed_esi_label st).
Definition set_es_programmed_peers x st := mkEsState (es_id st) (es_ports st) (es_roles st) (es_peers st)
  (es_programmed st) (es_programmed_ports st) x (es_nhg st) (es_programmed_nhg st) (es_esi_label st)
  (es_programmed_esi_label st).
Definition set_es_programmed_nhg x st := mkEsState (es_id st) (es_ports st) (es_roles st) (es_peers st)
  (es_programmed st) (es_programmed_ports st) (es_programmed_peers st) (es_nhg st) x (es_esi_label st)
  (es_programmed_esi_label st).
Definition set_es_programmed_esi_label x st := mkEsState (es_id st) (es_ports st) (es_roles st) (es_peers st)
  (es_programmed st) (es_programmed_ports st) (es_programmed_peers st) (es_nhg st) (es_programmed_nhg st)
  (es_esi_label st) x.
Definition set_es_ports x st := mkEsState (es_id st) x (es_roles st) (es_peers st)
  (es_programmed st) (es_programmed_ports st) (es_programmed_peers st) (es_nhg st) (es_programmed_nhg st)
  (es_esi_label st) (es_programmed_esi_label st).
Definition set_es_roles x st := mkEsState (es_id st) (es_ports st) x (es_peers st)
  (es_programmed st) (es_programmed_ports st) (es_programmed_peers st) (es_nhg st) (es_programmed_nhg st)
  (es_esi_label st) (es_programmed_esi_label st).
Definition set_peers x st := mkEsState (es_id st) (es_ports st) (es_roles st) x
  (es_programmed st) (es_programmed_ports st) (es_programmed_peers st) (es_nhg st) (es_programmed_nhg st)
  (es_esi_label st) (es_programmed_esi_label st).
Definition set_nhg x st := mkEsState (es_id st) (es_ports st) (es_roles st) (es_peers st)
  (es_programmed st) (es_programmed_ports st) (es_programmed_peers st) x (es_programmed_nhg st)
  (es_esi_label st) (es_programmed_esi_label st).
Definition set_esi_label x st := mkEsState (es_id st) (es_ports st) (es_roles st) (es_peers st)
  (es_programmed st) (es_programmed_ports st) (es_programmed_peers st) (es_nhg st) (es_programmed_nhg st)
  x (es_programmed_esi_label st).

Definition upd_vtep_bits (f : gmap IpAddr Z → gmap IpAddr Z) : Ctrl unit :=
  modify (λ c, let t := c_es c in set_c_es (mkEsTable (et_segments t) (et_ids t) (f (et_vtep_bits t))) c).

(** A peer loses, and gets, a segment's bit. *)
Definition clear_peer (bit : Z) (peer : IpAddr) : Ctrl unit :=
  c ← get;
  let bits := Z.ldiff (default 0 (et_vtep_bits (c_es c) !! peer)) bit in
  _ ← upd_vtep_bits (if bits =? 0 then delete peer else <[peer := bits]>);
  on_dp (vtep_es_set peer bits).
Definition mark_peer (bit : Z) (peer : IpAddr) : Ctrl unit :=
  c ← get;
  let bits := default 0 (et_vtep_bits (c_es c) !! peer) .| bit in
  _ ← upd_vtep_bits <[peer := bits]>;
  on_dp (vtep_es_set peer bits).

(** [drain(..)] empties the list whether or not its loop runs to the end. *)
Definition es_render_nhg (esi : string) (st : EsState) : Ctrl unit :=
  c ← get;
  groups ← of_res (es_groups (now (c_run c)) (es_nhg st));
  _ ← upd_segment esi (set_es_programmed_nhg []);
  _ ← on_dp (for_each (λ _ bd, if bool_decide (is_Some (es_nhg st !! bd)) then mret tt
                               else es_nhg_set (es_id st) bd [] false) 0 (es_programmed_nhg st));
  _ ← on_dp (for_each (λ _ '(bd, single_active, targets), es_nhg_set (es_id st) bd targets single_active) 0 groups);
  upd_segment esi (set_es_programmed_nhg ((λ g, g.1.1) <$> groups)).

Definition es_render_clear (esi : string) (st : EsState) : Ctrl unit :=
  _ ← upd_segment esi (set_es_programmed []);
  _ ← on_dp (for_each (λ _ '(ifindex, bd), es_df_del ifindex bd) 0 (es_programmed st));
  _ ← upd_segment esi (set_es_programmed_ports []);
  _ ← on_dp (for_each (λ _ ifindex, port_es_del ifindex) 0 (es_programmed_ports st));
  _ ← upd_segment esi (set_es_programmed_peers []);
  each (clear_peer (1 ≪ es_id st)) (es_programmed_peers st).

Definition es_render_set (esi : string) (st : EsState) (ifindexes : list Z) (rows : list (Z * Z * Z)) : Ctrl unit :=
  _ ← on_dp (for_each (λ _ '(ifindex, bd, fl), es_df_set ifindex bd fl) 0 rows);
  _ ← on_dp (for_each (λ _ ifindex, port_es_set ifindex (es_id st)) 0 ifindexes);
  _ ← each (mark_peer (1 ≪ es_id st)) (ip_elements (es_peers st));
  _ ← upd_segment esi (set_es_programmed rows.*1);
  _ ← upd_segment esi (set_es_programmed_ports ifindexes);
  upd_segment esi (set_es_programmed_peers (ip_elements (es_peers st))).

Definition es_render_label (esi : string) (st : EsState) : Ctrl unit :=
  if es_programmed_esi_label st =? es_esi_label st then mret tt else
  _ ← on_dp (if es_programmed_esi_label st =? 0 then mret tt else esi_label_del (es_programmed_esi_label st));
  _ ← on_dp (if es_esi_label st =? 0 then mret tt else esi_label_set (es_esi_label st) (es_id st));
  upd_segment esi (set_es_programmed_esi_label (es_esi_label st)).

Definition es_render (esi : string) : Ctrl unit :=
  c ← get;
  match et_segments (c_es c) !! esi with
  | None => mret tt
  | Some st =>
      ifindexes ← resolve_all (es_ports st);
      let rows := es_rows ifindexes (es_roles st) in
      _ ← es_render_nhg esi st;
      _ ← es_render_clear esi st;
      _ ← es_render_set esi st ifindexes rows;
      es_render_label esi st
  end.

Definition set_ethernet_segment (esi : string) (ports : list string) (esi_label : Z) : Ctrl unit :=
  _ ← es_entry esi;
  _ ← upd_segment esi (λ st, set_esi_label esi_label (set_es_ports ports st));
  es_render esi.

Definition clear_segment (st : EsState) : EsState :=
  set_esi_label 0 (set_nhg ∅ (set_peers ∅ (set_es_roles ∅ (set_es_ports [] st)))).

Definition del_ethernet_segment (esi : string) : Ctrl unit :=
  c ← get;
  match et_segments (c_es c) !! esi with
  | None => mret tt
  | Some st =>
      _ ← upd_segment esi clear_segment;
      _ ← es_render esi;
      _ ← set_segments (delete esi);
      modify (λ c, let t := c_es c in
        set_c_es (mkEsTable (et_segments t) (Z.ldiff (et_ids t) (1 ≪ es_id st)) (et_vtep_bits t)) c)
  end.

Definition set_es_role (esi : string) (bd : Z) (df single_active : bool) : Ctrl unit :=
  _ ← es_entry esi;
  _ ← upd_segment esi (λ st, set_es_roles (<[bd := (df, single_active)]> (es_roles st)) st);
  es_render esi.

Definition set_es_peers (esi : string) (peers : gset IpAddr) : Ctrl unit :=
  _ ← es_entry esi;
  _ ← upd_segment esi (set_peers peers);
  es_render esi.

(** A member of the request: [(remote_sid, remote_vtep, remote_pe, remote_label)],
    the addresses absent or parsed. *)
Record EsNhgMember := mkEsNhgMember {
  nm_sid : option bytes; nm_vtep : option IpAddr; nm_pe : option IpAddr; nm_label : Z }.

Definition parse_member (m : EsNhgMember) : res CtlErr EsMember :=
  match nm_sid m, nm_vtep m, nm_pe m with
  | Some sid, None, None => Ok (EsSrv6 sid)
  | None, Some vtep, None => Ok (EsVxlan vtep)
  | None, None, Some pe =>
      if (nm_label m =? 0) || (2 ^ 20 <=? nm_label m) then Err (BadLabel (nm_label m))
      else Ok (EsMpls pe (nm_label m))
  | _, _, _ => Err BadMember
  end.

Definition set_es_nhg (esi : string) (bd : Z) (members : list EsNhgMember) (single_active : bool) : Ctrl unit :=
  parsed ← of_res (collect parse_member members);
  _ ← es_entry esi;
  _ ← upd_segment esi (λ st,
        set_nhg (if bool_decide (parsed = []) then delete bd (es_nhg st)
                 else <[bd := (single_active, parsed)]> (es_nhg st)) st);
  es_render esi.

Definition add_fdb_remote_es (mac : bytes) (bd : Z) (esi : string) (leaf : bool) : Ctrl unit :=
  st ← es_entry esi;
  displaced_local ← on_dp (fdb_es_add mac bd (es_id st) leaf);
  if (displaced_local : bool) then modify (λ c, set_c_hints (c_hints c ++ [(mac, bd)]) c) else mret tt.

(** ** E-Tree roles *)

Definition upd_etree_programmed (f : gmap string Z → gmap string Z) : Ctrl unit :=
  modify (λ c, set_c_etree (mkEtreeTable (et_leaves (c_etree c)) (f (et_programmed (c_etree c)))) c).

Definition etree_render (port : string) : Ctrl unit :=
  c ← get;
  let want := if bool_decide (port ∈ et_leaves (c_etree c)) then ifindex_of (c_host c) port else None in
  let have := et_programmed (c_etree c) !! port in
  if bool_decide (want = have) then mret tt else
  _ ← (match have with
       | Some old => _ ← on_dp (port_etree_del old); upd_etree_programmed (delete port)
       | None => mret tt
       end);
  match want with
  | Some ifindex => _ ← on_dp (port_etree_set ifindex); upd_etree_programmed <[port := ifindex]>
  | None => mret tt
  end.

Definition set_etree_role (port : string) (leaf : bool) : Ctrl unit :=
  _ ← modify (λ c, let t := c_etree c in
        set_c_etree (mkEtreeTable (if leaf then {[port]} ∪ et_leaves t else et_leaves t ∖ {[port]}) (et_programmed t)) c);
  etree_render port.

(** An unreserved 20-bit label. *)
Definition unreserved_label (label : Z) : bool := (16 <=? label) && (label <? 2 ^ 20).

Definition set_etree_leaf_label (label : Z) : Ctrl unit :=
  if negb ((label =? 0) || unreserved_label label) then bail (BadLabel label) else
  c ← get;
  let cur := c_etree_leaf_label c in
  if cur =? label then mret tt else
  _ ← on_dp (if cur =? 0 then mret tt else leaf_label_del cur);
  _ ← on_dp (if label =? 0 then mret tt else leaf_label_set label);
  modify (set_c_etree_leaf_label label).

Definition set_etree_leaf_arg (arg : Z) : Ctrl unit :=
  if 2 ^ 16 <=? arg then bail BadArgument else
  c ← get;
  let cur := c_etree_leaf_arg c in
  if cur =? arg then mret tt else
  _ ← on_dp (if cur =? 0 then mret tt else leaf_arg_del cur);
  _ ← on_dp (if arg =? 0 then mret tt else leaf_arg_set arg);
  modify (set_c_etree_leaf_arg arg).

(** ** Replication slot groups *)

Definition check_extra_labels (esi_label etree_leaf_label : Z) : Ctrl unit :=
  if negb (esi_label =? 0) && negb (etree_leaf_label =? 0) then bail ExclusiveLabels
  else if negb (etree_leaf_label =? 0) && negb (unreserved_label etree_leaf_label)
  then bail (BadLabel etree_leaf_label) else mret tt.

Definition slot_role (esi : option string) (esi_label etree_leaf_label : Z) : SlotRole * Z :=
  if negb (etree_leaf_label =? 0) then (RoleLeaf, etree_leaf_label .| REPL_EXTRA_ETREE_LEAF)
  else match esi with Some esi => (RoleEs esi, esi_label) | None => (RolePlain, esi_label) end.

Definition srv6_slot_role (remote_sid : bytes) (etree_leaf_sid : option bytes) : SlotRole * bytes :=
  match etree_leaf_sid with Some leaf => (RoleLeaf, leaf) | None => (RolePlain, remote_sid) end.

Definition v6_key (a : IpAddr) : bytes := ip_to_v6_bytes a.

(** The [SLOT_ES] rows of a group: [(flood ifindex, only, skip, etree)]. *)
Definition slot_group_rows (g : SlotGroup) : Ctrl (list (Z * Z * Z * Z)) :=
  let root := if bool_decide (is_Some (sg_leaf g)) || sg_root_only g then SLOT_ETREE_ROOT else 0 in
  '(rows, skip) ← mfold (λ '(rows, skip) '(esi, oif),
      st ← es_entry esi;
      mret (rows ++ [(oif, es_id st + 1, 0, root)], skip .| 1 ≪ (es_id st .& 63))) (stree (sg_es g)) ([], 0);
  let rows := rows ++ match sg_plain g with Some plain => [(plain, 0, skip, root)] | None => [] end in
  mret (rows ++ match sg_leaf g with Some leaf => [(leaf, 0, 0, SLOT_ETREE_LEAF)] | None => [] end).

Definition upd_groups (f : gmap GroupKey SlotGroup → gmap GroupKey SlotGroup) : Ctrl unit :=
  modify (λ c, set_c_slot_groups (f (c_slot_groups c)) c).

Definition put_rows (rows : list (Z * Z * Z * Z)) : Ctrl unit :=
  on_dp (for_each (λ _ '(oif, only, skip, etree), slot_es_set oif only skip etree) 0 rows).

Definition join_group (g : SlotGroup) (role : SlotRole) (a_idx : Z) : SlotGroup :=
  match role with
  | RolePlain => mkSlotGroup (Some a_idx) (sg_es g) (sg_leaf g) (sg_root_only g)
  | RoleEs esi => mkSlotGroup (sg_plain g) (<[esi := a_idx]> (sg_es g)) (sg_leaf g) (sg_root_only g)
  | RoleLeaf => mkSlotGroup (sg_plain g) (sg_es g) (Some a_idx) (sg_root_only g)
  end.

Definition leave_group (g : SlotGroup) (a_idx : Z) : SlotGroup :=
  mkSlotGroup (if bool_decide (sg_plain g = Some a_idx) then None else sg_plain g)
    (filter (λ kv, kv.2 ≠ a_idx) (sg_es g))
    (if bool_decide (sg_leaf g = Some a_idx) then None else sg_leaf g) (sg_root_only g).

Definition slot_es_bind (key : GroupKey) (a_idx : Z) (role : SlotRole) : Ctrl unit :=
  c ← get;
  let g := join_group (default empty_group (c_slot_groups c !! key)) role a_idx in
  _ ← upd_groups <[key := g]>;
  rows ← slot_group_rows g;
  put_rows rows.

Definition slot_es_unbind (key : GroupKey) (a_idx : Z) : Ctrl unit :=
  c ← get;
  match c_slot_groups c !! key with
  | None => mret tt
  | Some g =>
      let g := leave_group g a_idx in
      _ ← upd_groups <[key := g]>;
      rows ← slot_group_rows g;
      _ ← (if group_is_empty g then upd_groups (delete key) else mret tt);
      _ ← on_dp (slot_es_set a_idx 0 0 0);
      put_rows rows
  end.

(** On a failure the mark is as before. *)
Definition set_etree_root_only (key : GroupKey) (root_only : bool) : Ctrl unit :=
  c ← get;
  let g := default empty_group (c_slot_groups c !! key) in
  _ ← upd_groups <[key := g]>;
  if Bool.eqb (sg_root_only g) root_only then
    if group_is_empty g then upd_groups (delete key) else mret tt
  else
    let g' := mkSlotGroup (sg_plain g) (sg_es g) (sg_leaf g) root_only in
    _ ← upd_groups <[key := g']>;
    rows ← on_error (λ c, set_c_slot_groups (<[key := g]> (c_slot_groups c)) c) (slot_group_rows g');
    _ ← (if group_is_empty g' then upd_groups (delete key) else mret tt);
    put_rows rows.

(** ** Leaf-only remote PEs *)

Definition set_member (remotes : gset (Z * bytes)) (k : Z * bytes) (on : bool) : gset (Z * bytes) :=
  if on then {[k]} ∪ remotes else remotes ∖ {[k]}.

Definition program_etree_remote (bd : Z) (remote : IpAddr) (leaf_only : bool) : Ctrl unit :=
  c ← get;
  let slot := match c_repl_slots c !! (bd, v6_key remote, ""%string) with
              | Some s => if bool_decide (rsl_group s = None) then Some (rsl_a_idx s) else None
              | None => None
              end in
  _ ← on_dp (if leaf_only then vtep_etree_set remote bd else vtep_etree_del remote bd);
  match slot with
  | Some a_idx => on_dp (slot_es_set a_idx 0 0 (if leaf_only then SLOT_ETREE_ROOT else 0))
  | None => mret tt
  end.

Definition set_etree_remote (bd : Z) (remote : IpAddr) (leaf_only : bool) : Ctrl unit :=
  c ← get;
  let k := (bd, v6_key remote) in
  if Bool.eqb (bool_decide (k ∈ c_etree_remotes c)) leaf_only then mret tt else
  _ ← modify (λ c, set_c_etree_remotes (set_member (c_etree_remotes c) k leaf_only) c);
  on_error (λ c, set_c_etree_remotes (set_member (c_etree_remotes c) k (negb leaf_only)) c)
    (program_etree_remote bd remote leaf_only).

Definition set_slot_etree_root_only (flood_port : string) : Ctrl unit :=
  flood ← resolve flood_port;
  on_dp (slot_es_set flood 0 0 SLOT_ETREE_ROOT).
End control.

(** A request. *)
Abbreviation Ctrl := (M Control CtlErr).
