(* ===== verification/Ports.v ===== *)
(** * Ports ([crates/cradle/src/kernel.rs] and [control.rs])

    Attaching and detaching ports, the routes a routed port derives from its
    kernel addresses, the members of a LAG port, and the two monitors that
    follow the kernel: link events and address changes.  [HashMap]s are
    iterated in an order of the implementation's: the operations that iterate
    the attached ports take it as an argument. *)

From S2P Require Import Prelude.
From S2P Require Import Text.
From S2P Require Import Contract.
From S2P Require Import Common.
From S2P Require Import Bpf.
From S2P Require Import Maps.
From S2P Require Import MapRefs.
From S2P Require Import Dataplane.
From S2P Require Import Cni.
From S2P Require Import L7.
From S2P Require Import Control.

(** ** The routes of an interface address ([kernel.rs]) *)

Definition CONNECTED_NH_BASE_V4 : Z := 1000000.
Definition CONNECTED_NH_BASE_V6 : Z := 2000000.

Definition ones_of (b : Z) : Z := Z.of_nat (length (filter (λ i, Z.testbit b i = true) (seqZ 0 8))).
Definition count_ones (m : bytes) : Z := foldr Z.add 0 (ones_of <$> m).

(** [MAX << (w - plen)], and 0 for an empty prefix. *)
Definition net_mask (w plen : Z) : Z := if plen =? 0 then 0 else wrap w ((2 ^ w - 1) ≪ (w - plen)).

(** The network address of [ip]: [mask_v6], and its v4 twin inlined in
    [derive_port]. *)
Definition mask_addr (ip : bytes) (plen : Z) : bytes :=
  let n := length ip in to_be n (of_be ip .& net_mask (8 * Z.of_nat n) plen).

Definition is_loopback6 (ip : bytes) : bool := bool_decide (ip = replicate 15 0 ++ [1]).
(** The first segment is in [fe80::/10]. *)
Definition is_link_local6 (ip : bytes) : bool := of_be (take 2 ip) .& 0xffc0 =? 0xfe80.

Section ports.
Context `{HostOps} `{Regex} `{MapSys}.

Definition derive_v4 (ifindex vrf : Z) (dv : DerivedPort) (ip mask : bytes) : Ctl DerivedPort :=
  let plen := count_ones mask in
  _ ← route4_add vrf ip 32 0 FIB_F_LOCAL;
  let dv := mkDerivedPort (dv_v4 dv ++ [(vrf, ip, 32)]) (dv_v6 dv) (dv_nh4 dv) (dv_nh6 dv) in
  if plen <? 32 then
    let net := mask_addr ip plen in
    let nh := wrap 32 (CONNECTED_NH_BASE_V4 + ifindex) in
    _ ← nexthop_set nh None ifindex [] 0 false;
    _ ← route4_add vrf net plen nh 0;
    mret (mkDerivedPort (dv_v4 dv ++ [(vrf, net, plen)]) (dv_v6 dv) (Some nh) (dv_nh6 dv))
  else mret dv.

Definition derive_v6 (ifindex vrf : Z) (dv : DerivedPort) (ip mask : bytes) : Ctl DerivedPort :=
  if is_loopback6 ip || is_link_local6 ip then mret dv else
  let plen := count_ones mask in
  _ ← route6_add vrf ip 128 0 FIB_F_LOCAL;
  let dv := mkDerivedPort (dv_v4 dv) (dv_v6 dv ++ [(vrf, ip, 128)]) (dv_nh4 dv) (dv_nh6 dv) in
  if plen <? 128 then
    let net := mask_addr ip plen in
    let nh := wrap 32 (CONNECTED_NH_BASE_V6 + ifindex) in
    _ ← nexthop_set_v6 nh None ifindex [] 0 false;
    _ ← route6_add vrf net plen nh 0;
    mret (mkDerivedPort (dv_v4 dv) (dv_v6 dv ++ [(vrf, net, plen)]) (dv_nh4 dv) (Some nh))
  else mret dv.

Definition derive_addr (name : string) (ifindex vrf : Z) (dv : DerivedPort) (ifa : IfAddr) : Ctl DerivedPort :=
  match ifa with
  | If4 n ip mask => if bool_decide (n = name) then derive_v4 ifindex vrf dv ip mask else mret dv
  | If6 n ip mask => if bool_decide (n = name) then derive_v6 ifindex vrf dv ip mask else mret dv
  end.

Definition derive_port (name : string) (ifindex vrf : Z) : Ctrl DerivedPort :=
  c ← get;
  ifas ← of_option HostFailed (getifaddrs (c_host c));
  on_dp (mfold (derive_addr name ifindex vrf) ifas no_derived).

(** ** Attached ports *)

Definition upd_attached (f : gmap Z PortAttachment → gmap Z PortAttachment) : Ctrl unit :=
  modify (λ c, set_c_attached (f (c_attached c)) c).

Definition set_pa_derived x a := mkPortAttachment (pa_name a) x (pa_l3 a) (pa_vrf_id a) (pa_lag_members a).
Definition set_pa_role l3 vrf a := mkPortAttachment (pa_name a) (pa_derived a) l3 vrf (pa_lag_members a).
Definition set_pa_lag x a := mkPortAttachment (pa_name a) (pa_derived a) (pa_l3 a) (pa_vrf_id a) x.

(** A failed attach leaves the port unattached. *)
Definition attach (name : string) (ifindex : Z) (l3 : bool) : Ctrl unit :=
  c ← get;
  if bool_decide (is_Some (c_attached c !! ifindex)) then mret tt else
  _ ← on_host (attach_programs name);
  upd_attached <[ifindex := mkPortAttachment name no_derived l3 0 []]>.

(** The attachment is dropped, and with it the programs' links. *)
Definition detach (ifindex : Z) : Ctrl unit :=
  c ← get;
  match c_attached c !! ifindex with
  | Some att =>
      _ ← upd_attached (delete ifindex);
      modify (λ c, set_c_host (detach_programs (pa_name att) (c_host c)) c)
  | None => mret tt
  end.

Definition drop_routes4 (l : list (Z * bytes * Z)) : Ctl unit :=
  for_each (λ _ '(vrf, net, plen), ignore (route4_del vrf net plen)) 0 l.
Definition drop_routes6 (l : list (Z * bytes * Z)) : Ctl unit :=
  for_each (λ _ '(vrf, net, plen), ignore (route6_del vrf net plen)) 0 l.
Definition drop_nexthop (o : option Z) : Ctl unit :=
  match o with Some nh => ignore (nexthop_del nh) | None => mret tt end.

(** What was derived before and is not derived any more. *)
Definition leftover (old new : DerivedPort) : DerivedPort := mkDerivedPort
  (filter (λ r, r ∉ dv_v4 new) (dv_v4 old))
  (filter (λ r, r ∉ dv_v6 new) (dv_v6 old))
  (match dv_nh4 new with None => dv_nh4 old | Some _ => None end)
  (match dv_nh6 new with None => dv_nh6 old | Some _ => None end).

Definition drop_derived (dv : DerivedPort) : Ctl unit :=
  _ ← drop_routes4 (dv_v4 dv);
  _ ← drop_routes6 (dv_v6 dv);
  _ ← drop_nexthop (dv_nh4 dv);
  drop_nexthop (dv_nh6 dv).

Definition reconcile_derived (ifindex : Z) (new : DerivedPort) : Ctrl unit :=
  c ← get;
  match c_attached c !! ifindex with
  | Some att =>
      _ ← on_dp (drop_derived (leftover (pa_derived att) new));
      upd_attached (alter (set_pa_derived new) ifindex)
  | None => mret tt
  end.

(** How many members joined and left. *)
Definition reconcile_lag_members (ifindex : Z) : Ctrl (nat * nat) :=
  c ← get;
  match c_attached c !! ifindex with
  | None => mret (O, O)
  | Some att =>
      let members := omap (ifindex_of (c_host c)) (lag_members (c_host c) (pa_name att)) in
      let left := filter (λ m, m ∉ members) (pa_lag_members att) in
      let joined := filter (λ m, m ∉ pa_lag_members att) members in
      _ ← on_dp (for_each (λ _ m, port_master_del m) 0 left);
      _ ← on_dp (for_each (λ _ m, port_master_set m ifindex) 0 joined);
      _ ← upd_attached (alter (set_pa_lag members) ifindex);
      mret (length joined, length left)
  end.

(** An absent or empty [mac] is read from the device. *)
Definition port_mac (name : string) (mac : option string) : Ctrl bytes :=
  c ← get;
  match mac with
  | Some m => if bool_decide (m = ""%string) then of_option (NoSuchPort name) (mac_of (c_host c) name)
              else of_option BadArgument (parse_mac m)
  | None => of_option (NoSuchPort name) (mac_of (c_host c) name)
  end.

Definition set_port (name : string) (mac : option string) (l3 : bool) (vlan vrf_id : Z) : Ctrl unit :=
  ifindex ← resolve name;
  mac ← port_mac name mac;
  _ ← attach name ifindex l3;
  _ ← etree_render name;
  _ ← on_dp (port_set ifindex mac (if l3 then PORT_F_L3 else PORT_F_L2) vlan vrf_id);
  new ← (if l3 then derive_port name ifindex vrf_id else mret no_derived);
  _ ← reconcile_derived ifindex new;
  _ ← upd_attached (alter (set_pa_role l3 vrf_id) ifindex);
  _ ← reconcile_lag_members ifindex;
  mret tt.

(** The entry of an attached port by the name it was attached under. *)
Definition attached_as (order : list (Z * PortAttachment)) (name : string) : option Z :=
  first_some (λ '(ix, a), if bool_decide (pa_name a = name) then Some ix else None) order.

(** By current ifindex; when the device is gone, by name. *)
Definition port_key (order : list (Z * PortAttachment)) (name : string) (c : Control) : option Z :=
  match ifindex_of (c_host c) name with
  | Some ix => if bool_decide (is_Some (c_attached c !! ix)) then Some ix else attached_as order name
  | None => attached_as order name
  end.

(** [m], then [f] whether [m] failed or not: a value dropped at the end of
    its scope. *)
Definition finally {A} (f : Control → Control) (m : Ctrl A) : Ctrl A := λ c,
  let '(c, r) := m c in (f c, r).

Definition del_port (order : list (Z * PortAttachment)) (name : string) : Ctrl unit :=
  c ← get;
  match port_key order name c with
  | None => mret tt
  | Some ifindex =>
      match c_attached c !! ifindex with
      | None => mret tt
      | Some att =>
          _ ← upd_attached (delete ifindex);
          finally (λ c, set_c_host (detach_programs (pa_name att) (c_host c)) c)
            (_ ← on_dp (port_del ifindex);
             _ ← on_dp (for_each (λ _ m, port_master_del m) 0 (pa_lag_members att));
             _ ← on_dp (drop_derived (pa_derived att));
             _ ← on_dp (fdb_flush (Some ifindex) None);
             mret tt)
      end
  end.

Definition flush_fdb (order : list (Z * PortAttachment)) (port : option string) (vlan : option Z) : Ctrl nat :=
  c ← get;
  ifindex ← (match port with
             | None => mret None
             | Some name =>
                 match ifindex_of (c_host c) name with
                 | Some ix => mret (Some ix)
                 | None => ix ← of_option (NoSuchPort name) (attached_as order name); mret (Some ix)
                 end
             end);
  on_dp (fdb_flush ifindex vlan).

Definition set_l2_domain (vlan : Z) (members : list string) : Ctrl unit :=
  idxs ← resolve_all members;
  on_dp (l2_domain_set vlan idxs).
End ports.

(** ** Link events *)

Record LinkEvent := mkLinkEvent { le_ifindex : Z; le_down : bool; le_up : bool; le_master : option string }.

(** The word after the first [master]. *)
Fixpoint after_master (ws : list string) : option string :=
  match ws with
  | [] => None
  | w :: ws => if bool_decide (w = "master"%string) then head ws else after_master ws
  end.

(** [IDX: ..]: the index a monitor's line starts with. *)
Definition line_ifindex (rest : string) : option Z :=
  '(idx, _) ← split_once (Ascii.ascii_of_nat 58) rest;
  from_str_radix 32 10 (trim idx).

Definition parse_link_event (line : string) : option LinkEvent :=
  let deleted := String.prefix "Deleted " line in
  let rest := default line (strip_prefix "Deleted " line) in
  ifindex ← line_ifindex rest;
  Some (mkLinkEvent ifindex
    (deleted || contains "state DOWN" rest || contains "state LOWERLAYERDOWN" rest)
    (contains "state UP" rest) (after_master (split_whitespace rest))).

Section monitors.
Context `{HostOps} `{Regex} `{MapSys}.

(** The attached ports an event is about. *)
Definition concerns (ev : LinkEvent) (p : Z * PortAttachment) : bool :=
  (p.1 =? le_ifindex ev) || bool_decide (le_master ev = Some (pa_name p.2))
  || bool_decide (le_ifindex ev ∈ pa_lag_members p.2).

(** [if let Err(e) = .. { warn!(..) }] *)
Definition logged {A} (m : Ctrl A) : Ctrl unit := _ ← catch m; mret tt.

Definition on_link_event (order : list (Z * PortAttachment)) (ev : LinkEvent) : Ctrl unit :=
  _ ← (if le_down ev || le_up ev then logged (on_dp (link_state_set (le_ifindex ev) (le_down ev))) else mret tt);
  each (λ p, logged (reconcile_lag_members p)) (filter (λ p, concerns ev p = true) order).*1.

Definition on_link_line order (line : string) : Ctrl unit :=
  match parse_link_event line with Some ev => on_link_event order ev | None => mret tt end.

Definition on_addr_line (line : string) : Ctrl unit :=
  match line_ifindex (default line (strip_prefix "Deleted " line)) with
  | None => mret tt
  | Some ifindex =>
      c ← get;
      match c_attached c !! ifindex with
      | Some att =>
          if pa_l3 att then
            logged (new ← derive_port (pa_name att) ifindex (pa_vrf_id att); reconcile_derived ifindex new)
          else mret tt
      | None => mret tt
      end
  end.
End monitors.

(** The unit tests of [link_event_tests]. *)
Example enslave_names_the_master :
  parse_link_event "4: m0@m0p: <NO-CARRIER,BROADCAST,MULTICAST,SLAVE,UP,M-DOWN> mtu 1500 qdisc noqueue master bond0 state LOWERLAYERDOWN group default"
  = Some (mkLinkEvent 4 true false (Some "bond0"%string)).
Proof. vm_compute. reflexivity. Qed.
Example nomaster_has_no_master :
  parse_link_event "4: m0@m0p: <BROADCAST,MULTICAST,UP,LOWER_UP> mtu 1500 qdisc noqueue state UP group default"
  = Some (mkLinkEvent 4 false true None).
Proof. vm_compute. reflexivity. Qed.
Example deleted_is_down :
  parse_link_event "Deleted 4: m0@NONE: <BROADCAST,MULTICAST> mtu 1500 qdisc noop state DOWN group default"
  = Some (mkLinkEvent 4 true false None).
Proof. vm_compute. reflexivity. Qed.
Example garbage_is_skipped : parse_link_event "" = None ∧ parse_link_event "x: y" = None.
Proof. vm_compute. split; reflexivity. Qed.
