(* ===== verification/Overlay.v ===== *)
(** * Overlay requests ([crates/cradle/src/control.rs])

    Remote MACs, VPWS cross-connects, BUM replication slots with the veth
    pairs that carry them, and replication segments; and the requests that
    are a name lookup and one operation of [Dataplane]. *)

From stdpp Require Import pretty.
From S2P Require Import Prelude.
From S2P Require Import Contract.
From S2P Require Import Common.
From S2P Require Import Bpf.
From S2P Require Import Maps.
From S2P Require Import MapRefs.
From S2P Require Import Dataplane.
From S2P Require Import Cni.
From S2P Require Import L7.
From S2P Require Import Control.
From S2P Require Import Ports.

Inductive XconnectRemote : Type :=
| XrSrv6 (sid : bytes)
| XrVxlan (vtep : IpAddr) (vni : Z)
| XrMpls (pe : IpAddr) (label : Z).

Inductive XconnectLocal : Type :=
| XlNone
| XlSrv6 (sid : bytes)
| XlVxlan (vni : Z)
| XlMpls (label : Z).

Definition ETREE_SLOT_KEY : string := "etree-leaf".

Definition xconnect_target (remote : XconnectRemote) : ReplTarget :=
  match remote with
  | XrSrv6 sid => mkReplTarget REPL_KIND_SRV6 0 sid 0
  | XrVxlan vtep vni => mkReplTarget REPL_KIND_VXLAN vni (ip_to_v6_bytes vtep) 0
  | XrMpls pe label => mkReplTarget REPL_KIND_MPLS label (ip_to_v6_bytes pe) 0
  end.

Definition plain_sid (behavior vrf : Z) : LocalSid := mkLocalSid behavior 0 vrf 0 0 0 0 0.

(** [code as u8] keeps the low byte. *)
Definition known_behaviors : list Z :=
  [SRV6_BH_END; SRV6_BH_END_X; SRV6_BH_END_DT4; SRV6_BH_END_DT6; SRV6_BH_END_DT46; SRV6_BH_END_B6;
   SRV6_BH_UN; SRV6_BH_UA; SRV6_BH_UALIB; SRV6_BH_END_DT2U; SRV6_BH_END_DT2M; SRV6_BH_END_M;
   SRV6_BH_END_REP; SRV6_BH_END_X_REP; SRV6_BH_END_T; SRV6_BH_END_DX4; SRV6_BH_END_DX6;
   SRV6_BH_END_REPLICATE].

Section overlay.
Context `{HostOps} `{Regex} `{MapSys}.

Definition srv6_behavior (code : Z) : Ctrl Z :=
  let b := wrap 8 code in
  if bool_decide (b ∈ known_behaviors) then mret b else bail (UnknownBehavior b).

Definition srv6_dt2m_arg_bits (behavior arg_bits : Z) : Ctrl Z :=
  if negb (behavior =? SRV6_BH_END_DT2M) then mret 0
  else if (arg_bits =? 0) || (arg_bits =? 8) || (arg_bits =? 16) then mret arg_bits
  else bail BadArgument.

(** ** Remote MACs *)

(** A remote install over a learned MAC publishes a hint. *)
Definition hint_moved (mac : bytes) (bd : Z) (displaced_local : bool) : Ctrl unit :=
  if displaced_local then modify (λ c, set_c_hints (c_hints c ++ [(mac, bd)]) c) else mret tt.

Definition add_fdb_remote (mac : bytes) (bd : Z) (remote_sid : bytes) (nexthop_id : Z) (leaf : bool) : Ctrl unit :=
  on_dp (fdb_remote_add mac bd remote_sid nexthop_id leaf) ≫= hint_moved mac bd.
Definition add_fdb_remote_vxlan (mac : bytes) (bd : Z) (vtep : IpAddr) (nexthop_id : Z) (leaf : bool) : Ctrl unit :=
  on_dp (fdb_remote_add_vxlan mac bd vtep nexthop_id leaf) ≫= hint_moved mac bd.
Definition add_fdb_remote_mpls (mac : bytes) (bd : Z) (pe : IpAddr) (label nexthop_id : Z) (leaf : bool) : Ctrl unit :=
  on_dp (fdb_remote_add_mpls mac bd pe label nexthop_id leaf) ≫= hint_moved mac bd.
Definition del_fdb_remote (mac : bytes) (bd : Z) : Ctrl unit := on_dp (fdb_remote_del mac bd).

Definition add_fdb_local (mac : bytes) (bd : Z) (port : string) : Ctrl unit :=
  ifindex ← resolve port; on_dp (fdb_local_add mac bd ifindex).

(** ** Cross-connects *)

Definition xconnect_local_add (ifindex : Z) (local : XconnectLocal) (vid table : Z) : Ctl unit :=
  if vid =? 0 then
    match local with
    | XlSrv6 sid => localsid_add sid 128 (plain_sid SRV6_BH_END_DX2 ifindex)
    | XlVxlan vni => vni_set_eline vni ifindex
    | XlMpls label => ilm_add label 0 MPLS_OP_POP_XC ifindex 0
    | XlNone => mret tt
    end
  else
    match local with
    | XlSrv6 sid =>
        _ ← localsid_add sid 128 (plain_sid SRV6_BH_END_DX2V table); dx2v_add table vid ifindex
    | XlVxlan vni => _ ← vni_set_eline_vlan vni table; dx2v_add table vid ifindex
    | XlMpls label => _ ← ilm_add label 0 MPLS_OP_POP_XC_VLAN table 0; dx2v_add table vid ifindex
    | XlNone => mret tt
    end.

Definition add_xconnect_idx (ifindex : Z) (remote : XconnectRemote) (local : XconnectLocal) (vid table : Z) : Ctrl unit :=
  let target := xconnect_target remote in
  on_dp (_ ← (if vid =? 0 then xconnect_add ifindex target else xconnect_vlan_add ifindex vid target);
         xconnect_local_add ifindex local vid table).
Definition add_xconnect (port : string) (remote : XconnectRemote) (local : XconnectLocal) (vid table : Z) : Ctrl unit :=
  ifindex ← resolve port; add_xconnect_idx ifindex remote local vid table.

Definition xconnect_local_del (local : XconnectLocal) : Ctl unit :=
  match local with
  | XlSrv6 sid => localsid_del sid 128
  | XlVxlan vni => vni_del vni
  | XlMpls label => ilm_del label
  | XlNone => mret tt
  end.

Definition is_xl_none (local : XconnectLocal) : bool := match local with XlNone => true | _ => false end.

Definition del_xconnect_idx (ifindex : Z) (local : XconnectLocal) (vid table : Z) : Ctrl unit :=
  on_dp (_ ← (if vid =? 0 then xconnect_del ifindex
              else _ ← xconnect_vlan_del ifindex vid;
                   if is_xl_none local then mret tt else dx2v_del table vid);
         xconnect_local_del local).
Definition del_xconnect (port : string) (local : XconnectLocal) (vid table : Z) : Ctrl unit :=
  ifindex ← resolve port; del_xconnect_idx ifindex local vid table.
Definition add_dx2v (table vid : Z) (port : string) : Ctrl unit :=
  oif ← resolve port; on_dp (dx2v_add table vid oif).

(** ** Replication slots *)

(** Iteration orders of [L2_MEMBERS]. *)
Abbreviation Order := (list (L2MemberKey * Z)).

Definition add_repl_slot (order : Order) (flood_port encap_port : string) (remote_sid : bytes)
    (etree_leaf_sid : option bytes) : Ctrl unit :=
  flood ← resolve flood_port;
  encap ← resolve encap_port;
  let '(role, sid) := srv6_slot_role remote_sid etree_leaf_sid in
  _ ← on_dp (repl_slot_add order flood encap sid);
  slot_es_bind (remote_sid, 0) flood role.

Definition add_repl_slot_vxlan (order : Order) (flood_port encap_port : string) (vtep : IpAddr) (vni : Z) : Ctrl unit :=
  flood ← resolve flood_port;
  encap ← resolve encap_port;
  on_dp (repl_slot_add_vxlan order flood encap vtep vni).

Definition add_repl_slot_mpls (order : Order) (flood_port encap_port : string) (pe : IpAddr) (label : Z)
    (esi : option string) (esi_label etree_leaf_label : Z) : Ctrl unit :=
  flood ← resolve flood_port;
  encap ← resolve encap_port;
  let '(role, extra) := slot_role esi esi_label etree_leaf_label in
  _ ← on_dp (repl_slot_add_mpls order flood encap pe label extra);
  slot_es_bind (v6_key pe, label) flood role.

(** A fresh veth pair [<prefix>Na]/[<prefix>Nb], programs on the B end. *)
Definition fresh_veth (prefix : string) : Ctrl ReplLeaf :=
  c ← get;
  let n := c_repl_next c in
  _ ← modify (set_c_repl_next (wrap 32 (n + 1)));
  let a := prefix +:+ pretty (Z.to_N n) +:+ "a" in
  let b := prefix +:+ pretty (Z.to_N n) +:+ "b" in
  _ ← on_host (add_veth_pair a b);
  a_idx ← resolve a;
  b_idx ← resolve b;
  _ ← attach b b_idx true;
  mret (a, a_idx, b_idx).

Definition upd_repl_slots (f : gmap ReplSlotKey ReplSlot → gmap ReplSlotKey ReplSlot) : Ctrl unit :=
  modify (λ c, set_c_repl_slots (f (c_repl_slots c)) c).

(** What a slot's copies are kept from, before it floods. *)
Definition restrict_slot (bd : Z) (key : bytes) (esi : string) (group : option (GroupKey * SlotRole)) (a_idx : Z) : Ctrl unit :=
  match group with
  | Some (g, role) => slot_es_bind g a_idx role
  | None =>
      c ← get;
      if bool_decide (esi = ""%string) && bool_decide ((bd, key) ∈ c_etree_remotes c)
      then on_dp (slot_es_set a_idx 0 0 SLOT_ETREE_ROOT) else mret tt
  end.

Definition add_repl_slot_auto_keyed (bd : Z) (key : bytes) (esi : string) (group : option (GroupKey * SlotRole))
    (program : Z → Z → Ctl unit) : Ctrl unit :=
  c ← get;
  if bool_decide (is_Some (c_repl_slots c !! (bd, key, esi))) then mret tt
  else if bd_has_bum_sentinel (now (c_run c)) bd then bail (SentinelPresent bd) else
  '(a, a_idx, b_idx) ← fresh_veth "crs";
  _ ← on_dp (program a_idx b_idx);
  _ ← restrict_slot bd key esi group a_idx;
  _ ← on_dp (l2_member_add bd a_idx);
  upd_repl_slots <[(bd, key, esi) := mkReplSlot a a_idx b_idx (fst <$> group)]>.

Definition role_key (role : SlotRole) : string :=
  match role with RolePlain => "" | RoleEs esi => esi | RoleLeaf => ETREE_SLOT_KEY end.

Definition add_repl_slot_auto (order : Order) (bd : Z) (remote_sid : bytes) (etree_leaf_sid : option bytes) : Ctrl unit :=
  let '(role, sid) := srv6_slot_role remote_sid etree_leaf_sid in
  let slot_key := match role with RoleLeaf => ETREE_SLOT_KEY | _ => ""%string end in
  add_repl_slot_auto_keyed bd remote_sid slot_key (Some ((remote_sid, 0), role))
    (λ a_idx b_idx, repl_slot_add order a_idx b_idx sid).

Definition add_repl_slot_auto_vxlan (order : Order) (bd : Z) (vtep : IpAddr) : Ctrl unit :=
  c ← get;
  vni ← of_option (NoVni bd) (vni_of (now (c_run c)) bd);
  add_repl_slot_auto_keyed bd (v6_key vtep) "" None
    (λ a_idx b_idx, repl_slot_add_vxlan order a_idx b_idx vtep vni).

Definition add_repl_slot_auto_mpls (order : Order) (bd : Z) (pe : IpAddr) (label : Z) (esi : option string)
    (esi_label etree_leaf_label : Z) : Ctrl unit :=
  let '(role, extra) := slot_role esi esi_label etree_leaf_label in
  add_repl_slot_auto_keyed bd (v6_key pe) (role_key role) (Some ((v6_key pe, label), role))
    (λ a_idx b_idx, repl_slot_add_mpls order a_idx b_idx pe label extra).

(** The removed entry is gone whatever fails after. *)
Definition del_repl_slot_auto (bd : Z) (remote_sid : bytes) (esi : string) : Ctrl unit :=
  c ← get;
  match c_repl_slots c !! (bd, remote_sid, esi) with
  | None => mret tt
  | Some (mkReplSlot a a_idx b_idx group) =>
      _ ← upd_repl_slots (delete (bd, remote_sid, esi));
      _ ← on_dp (l2_member_remove bd a_idx);
      _ ← (match group with Some g => slot_es_unbind g a_idx | None => mret tt end);
      _ ← (match group with Some _ => mret tt | None => on_dp (slot_es_set a_idx 0 0 0) end);
      _ ← on_dp (ignore (repl_sid_del a_idx));
      _ ← on_dp (ignore (repl_sid_del b_idx));
      _ ← detach b_idx;
      on_host (del_link a)
  end.

(** ** Replication segments *)

Definition upd_seg_veths (f : gmap bytes ReplLeaf → gmap bytes ReplLeaf) : Ctrl unit :=
  modify (λ c, set_c_repl_seg_veths (f (c_repl_seg_veths c)) c).

Definition ensure_repl_leaf_veth (sid : bytes) : Ctrl Z :=
  c ← get;
  match c_repl_seg_veths c !! sid with
  | Some (_, a_idx, _) => mret a_idx
  | None =>
      leaf ← fresh_veth "crl";
      _ ← upd_seg_veths <[sid := leaf]>;
      mret leaf.1.2
  end.

Definition remove_repl_leaf_veth (sid : bytes) : Ctrl unit :=
  c ← get;
  match c_repl_seg_veths c !! sid with
  | None => mret tt
  | Some (a, _, b_idx) =>
      _ ← upd_seg_veths (delete sid);
      _ ← detach b_idx;
      on_host (del_link a)
  end.

(** A branch: [(downstream SID, nexthop, local)]. *)
Definition seg_branch (leaf_a_idx : option Z) (b : bytes * Z * bool) : ReplBranch :=
  let '(bsid, nh, local) := b in
  if (local : bool) then mkReplBranch bsid 0 (default 0 leaf_a_idx) REPL_BRANCH_LOCAL
  else mkReplBranch bsid nh 0 0.

Definition set_repl_seg (sid : bytes) (hop_limit_threshold : Z) (branches : list (bytes * Z * bool)) : Ctrl unit :=
  let has_local := existsb (λ b, b.2) branches in
  leaf_a_idx ← (if has_local then ix ← ensure_repl_leaf_veth sid; mret (Some ix)
                else _ ← remove_repl_leaf_veth sid; mret None);
  on_dp (repl_seg_set sid hop_limit_threshold has_local (seg_branch leaf_a_idx <$> branches)).

Definition del_repl_seg (sid : bytes) : Ctrl unit :=
  _ ← on_dp (repl_seg_del sid); remove_repl_leaf_veth sid.

(** ** Requests that are one operation *)

Definition add_mirror_route ctx prefix prefix_len behavior vrf_id : Ctrl unit :=
  on_dp (mirror_route_add ctx prefix prefix_len behavior vrf_id).
Definition del_mirror_route ctx prefix prefix_len : Ctrl unit := on_dp (mirror_route_del ctx prefix prefix_len).

Definition set_nexthop_idx id gateway oif labels backup_id pipe : Ctrl unit :=
  on_dp (nexthop_set id gateway oif labels backup_id pipe).
Definition set_nexthop id gateway (oif : string) labels backup_id pipe : Ctrl unit :=
  oif ← resolve oif; set_nexthop_idx id gateway oif labels backup_id pipe.
Definition set_nexthop_idx_v6 id gateway oif labels backup_id pipe : Ctrl unit :=
  on_dp (nexthop_set_v6 id gateway oif labels backup_id pipe).
Definition set_nexthop_group group_id members : Ctrl unit := on_dp (nexthop_group_set group_id members).
Definition set_nexthop_srv6 id gateway oif segs mode : Ctrl unit := on_dp (nexthop_set_srv6 id gateway oif segs mode).
Definition set_nexthop_gtp id gateway oif src dst teid : Ctrl unit := on_dp (nexthop_set_gtp id gateway oif src dst teid).
Definition set_nexthop_gtp6 id gateway oif src dst teid : Ctrl unit := on_dp (nexthop_set_gtp6 id gateway oif src dst teid).
Definition set_nexthop_vxlan id gateway oif vtep l3vni rmac : Ctrl unit :=
  on_dp (nexthop_set_vxlan id gateway oif vtep l3vni rmac).

Definition add_route4 vrf addr prefix_len nexthop_id flags : Ctrl unit :=
  on_dp (route4_add vrf addr prefix_len nexthop_id flags).
Definition del_route4 vrf addr prefix_len : Ctrl unit := on_dp (route4_del vrf addr prefix_len).
Definition add_routes4 routes : Ctrl unit := on_dp (route4_add_bulk routes).
Definition add_route6 vrf addr prefix_len nexthop_id flags : Ctrl unit :=
  on_dp (route6_add vrf addr prefix_len nexthop_id flags).
Definition del_route6 vrf addr prefix_len : Ctrl unit := on_dp (route6_del vrf addr prefix_len).

Definition ctl_gtp_pdr_add dst teid vrf match_vrf : Ctrl unit := on_dp (gtp_pdr_add dst teid vrf match_vrf).
Definition ctl_gtp_pdr_del dst teid match_vrf : Ctrl unit := on_dp (gtp_pdr_del dst teid match_vrf).

Definition set_srv6_encap_source addr : Ctrl unit := on_dp (srv6_encap_source_set addr).
Definition set_vni vni vlan : Ctrl unit := on_dp (vni_set vni vlan).
Definition set_vni_l3 vni vrf_id rmac : Ctrl unit := on_dp (vni_set_l3 vni vrf_id rmac).
Definition del_vni vni : Ctrl unit := on_dp (vni_del vni).
Definition set_vtep_source addr : Ctrl unit := on_dp (vxlan_source_set addr).

Definition add_localsid (sid : bytes) (prefix_len : Z) (ls : LocalSid) : Ctrl unit :=
  arg_bits ← srv6_dt2m_arg_bits (ls_behavior ls) (ls_arg_bits ls);
  on_dp (localsid_add sid prefix_len
    (mkLocalSid (ls_behavior ls) (ls_flavors ls) (ls_vrf_id ls) (ls_nexthop_id ls) (ls_block_bits ls)
       (ls_node_bits ls) (ls_fun_bits ls) arg_bits)).
Definition del_localsid sid prefix_len : Ctrl unit := on_dp (localsid_del sid prefix_len).

Definition set_neighbor4_idx oif ip mac : Ctrl unit := on_dp (neigh4_set oif ip mac).
Definition set_neighbor4 (oif : string) ip mac : Ctrl unit := oif ← resolve oif; set_neighbor4_idx oif ip mac.
Definition set_neighbor6_idx oif ip mac : Ctrl unit := on_dp (neigh6_set oif ip mac).
Definition set_neighbor6 (oif : string) ip mac : Ctrl unit := oif ← resolve oif; set_neighbor6_idx oif ip mac.

Definition add_ilm in_label nexthop_id op vrf_id flags : Ctrl unit := on_dp (ilm_add in_label nexthop_id op vrf_id flags).
Definition del_ilm in_label : Ctrl unit := on_dp (ilm_del in_label).

Definition add_service svc_id vip port proto backends affinity : Ctrl unit :=
  on_dp (service_add svc_id vip port proto backends affinity).
Definition add_service6 svc_id vip port proto backends affinity : Ctrl unit :=
  on_dp (service6_add svc_id vip port proto backends affinity).
Definition del_service (vip : IpAddr) port proto : Ctrl unit :=
  on_dp (match vip with V4 v4 => service_del v4 port proto | V6 v6 => service6_del v6 port proto end).

(** Steer, then let the VIP route locally; the route is best effort. *)
Definition add_l7_service (vip : bytes) (port : Z) (routes : list L7Route) : Ctrl unit :=
  _ ← on_dp (l7_service_add vip port);
  _ ← logged (on_host (replace_route (LocalRoute (V4 vip))));
  modify (λ c, set_c_routes (add_routes (V4 vip, port) routes (c_routes c)) c).

Definition set_masq_node node : Ctrl unit := on_dp (masq_node_set node).
Definition add_non_masq net prefix_len : Ctrl unit := on_dp (non_masq_add net prefix_len).
Definition del_non_masq net prefix_len : Ctrl unit := on_dp (non_masq_del net prefix_len).
Definition set_identity6 vrf ip identity del : Ctrl unit := on_dp (identity6_set vrf ip identity del).
Definition set_cidr_identity vrf net prefix_len identity del : Ctrl unit :=
  on_dp (cidr_identity_set vrf net prefix_len identity del).
Definition set_cidr6_identity vrf net prefix_len identity del : Ctrl unit :=
  on_dp (cidr6_identity_set vrf net prefix_len identity del).
End overlay.
