(* ===== verification/Pods.v ===== *)
(** * Pod endpoints and their policies ([crates/cradle/src/control.rs])

    The requests of the CNI plugin and of the policy agent: programming and
    tearing down a pod's endpoint, binding identities, replacing an
    endpoint's L3/L4 and L7 policy, reconciling after a restart, and
    [policy_trace], the operator's prediction of a verdict. *)

From S2P Require Import Prelude.
From S2P Require Import Contract.
From S2P Require Import Common.
From S2P Require Import Bpf.
From S2P Require Import Maps.
From S2P Require Import MapRefs.
From S2P Require Import Dataplane.
From S2P Require Import Cni.
From S2P Require Import L7.
From S2P Require Import Control.
From S2P Require Import Ports.

(** The octets of the integers the store keeps. *)
Definition ip4 (a : Z) : bytes := to_be 4 a.
Definition ip6 (a : Z) : bytes := to_be 16 a.

Record EpInfo := mkEpInfo { ei_namespace : string; ei_pod_name : string; ei_identity : Z }.

Section pods.
Context `{HostOps} `{Regex} `{MapSys}.

Definition cni_alloc_ip (pool : Z * Z) (owner : string) : Ctrl (Z * Z) := on_cni (alloc_ip pool owner).
Definition cni_alloc_ip6 (pool6 : Z * Z) (owner : string) : Ctrl (Z * Z) := on_cni (alloc_ip6 pool6 owner).
Definition cni_release_ip (owner : string) (ip ip6 : option Z) : Ctrl unit := on_cni (release_ip owner ip ip6).

(** ** Endpoints *)

(** The pod's host routes, over the veth's connected nexthops. *)
Definition endpoint_routes (ifindex vrf ip : Z) (ip6' : option Z) : Ctl unit :=
  let nh := wrap 32 (CONNECTED_NH_BASE_V4 + ifindex) in
  _ ← nexthop_set nh None ifindex [] 0 false;
  _ ← route4_add vrf (ip4 ip) 32 nh 0;
  match ip6' with
  | Some a =>
      let nh6 := wrap 32 (CONNECTED_NH_BASE_V6 + ifindex) in
      _ ← nexthop_set_v6 nh6 None ifindex [] 0 false;
      route6_add vrf (ip6 a) 128 nh6 0
  | None => mret tt
  end.

(** A chained plugin owns the veth's hooks: the port stays unattached. *)
Definition endpoint_port (host_if : string) (ifindex vrf : Z) : Ctrl unit :=
  _ ← set_port host_if None true 0 vrf;
  c ← get;
  mac ← of_option (NoSuchPort host_if) (mac_of (c_host c) host_if);
  on_dp (port_set ifindex mac (PORT_F_L3 .| PORT_F_ENDPOINT) 0 vrf).

Definition cni_create_endpoint (container_id ifname netns host_if : string) (ip : Z) (ip6' : option Z)
    (vrf : Z) (pod_name pod_namespace : string) (chained : bool) : Ctrl unit :=
  ifindex ← resolve host_if;
  _ ← (if chained then mret tt else endpoint_port host_if ifindex vrf);
  _ ← on_dp (endpoint_routes ifindex vrf ip ip6');
  _ ← on_host (replace_route (DevRoute (V4 (ip4 ip)) host_if));
  _ ← (match ip6' with Some a => on_host (replace_route (DevRoute (V6 (ip6 a)) host_if)) | None => mret tt end);
  on_cni (put_endpoint (mkEndpoint container_id ifname netns host_if ifindex ip ip6' vrf pod_name pod_namespace chained)).

Definition drop_route (r : HostRoute) : Ctrl unit := modify (λ c, set_c_host (del_route r (c_host c)) c).

Definition cni_delete_endpoint (container_id ifname : string) : Ctrl unit :=
  o ← on_cni (get_endpoint container_id ifname);
  match o with
  | None => mret tt
  | Some ep =>
      _ ← on_dp (ignore (route4_del (ep_vrf_id ep) (ip4 (ep_ip ep)) 32));
      _ ← (match ep_ip6 ep with Some a => on_dp (ignore (route6_del (ep_vrf_id ep) (ip6 a) 128)) | None => mret tt end);
      _ ← drop_route (DevRoute (V4 (ip4 (ep_ip ep))) (ep_host_if ep));
      _ ← (match ep_ip6 ep with Some a => drop_route (DevRoute (V6 (ip6 a)) (ep_host_if ep)) | None => mret tt end);
      _ ← detach (ep_host_ifindex ep);
      _ ← on_cni (release_ip (owner_key container_id ifname) (Some (ep_ip ep)) (ep_ip6 ep));
      on_cni (remove_endpoint container_id ifname)
  end.

(** What the flow exporter knows of an address. *)
Definition cni_ip_index (c : Control) : gmap Z EpInfo :=
  let ids := c_identities c in
  let eps := match list_endpoints (c_cni c) with (_, Ok eps) => eps | (_, Err _) => [] end in
  let idx := foldl (λ idx ep,
      <[ep_ip ep := mkEpInfo (ep_pod_namespace ep) (ep_pod_name ep) (default 0 (ids !! ep_ip ep))]> idx) ∅ eps in
  idx ∪ ((λ id, mkEpInfo "" "" id) <$> ids).

(** One record of the startup reconcile. *)
Definition reconcile_endpoint (ep : Endpoint) : Ctrl unit :=
  c ← get;
  match ifindex_of (c_host c) (ep_host_if ep) with
  | Some _ =>
      logged (cni_create_endpoint (ep_container_id ep) (ep_ifname ep) (ep_netns ep) (ep_host_if ep)
        (ep_ip ep) (ep_ip6 ep) (ep_vrf_id ep) (ep_pod_name ep) (ep_pod_namespace ep) (ep_chained ep))
  | None =>
      _ ← logged (on_cni (release_ip (owner_key (ep_container_id ep) (ep_ifname ep)) (Some (ep_ip ep)) (ep_ip6 ep)));
      logged (on_cni (remove_endpoint (ep_container_id ep) (ep_ifname ep)))
  end.

Definition cni_reconcile : Ctrl unit :=
  o ← catch (on_cni list_endpoints);
  match o with Some eps => each reconcile_endpoint eps | None => mret tt end.

(** ** Identities *)

(** The mirror tracks the global scope. *)
Definition set_identity (vrf ip identity : Z) : Ctrl unit :=
  _ ← on_dp (identity_set vrf (ip4 ip) identity);
  if vrf =? 0 then modify (λ c, set_c_identities (<[ip := identity]> (c_identities c)) c) else mret tt.
Definition del_identity (vrf ip : Z) : Ctrl unit :=
  _ ← on_dp (identity_del vrf (ip4 ip));
  if vrf =? 0 then modify (λ c, set_c_identities (delete ip (c_identities c)) c) else mret tt.

(** ** Policies *)

Definition find_ep (p : Endpoint → bool) (eps : list Endpoint) : option Endpoint :=
  first_some (λ e, if p e then Some e else None) eps.

Definition resolve_endpoint (host_if pod_namespace pod_name : string) : Ctrl Z :=
  if negb (bool_decide (host_if = ""%string)) then resolve host_if else
  eps ← on_cni list_endpoints;
  of_option NoEndpoint (ep_host_ifindex <$>
    find_ep (λ ep, bool_decide (ep_pod_name ep = pod_name) && bool_decide (ep_pod_namespace ep = pod_namespace)) eps).

Definition upd_routes (f : RouteTable → RouteTable) : Ctrl unit :=
  modify (λ c, set_c_routes (f (c_routes c)) c).
Definition upd_l7_policies (f : gmap Z (list (Z * Z)) → gmap Z (list (Z * Z))) : Ctrl unit :=
  modify (λ c, set_c_l7_policies (f (c_l7_policies c)) c).

Definition steer (ip : Z) (p : Z * list L7PolicyRule) : Ctrl unit :=
  _ ← on_dp (l7_service_add (ip4 ip) p.1);
  upd_routes (set_policy (V4 (ip4 ip), p.1) p.2).
Definition unsteer (p : Z * Z) : Ctrl unit :=
  _ ← on_dp (ignore (l7_service_del (ip4 p.1) p.2));
  upd_routes (del_policy (V4 (ip4 p.1), p.2)).

(** Replaces the endpoint's steered ports; without a recorded IPv4 nothing
    is steered. *)
Definition set_endpoint_l7 (ep : Z) (l7 : list (Z * list L7PolicyRule)) : Ctrl unit :=
  eps ← on_cni list_endpoints;
  let ip := ep_ip <$> find_ep (λ e, ep_host_ifindex e =? ep) eps in
  c ← get;
  let old := default [] (c_l7_policies c !! ep) in
  _ ← upd_l7_policies (delete ep);
  new_set ← (match ip with
             | Some ip => _ ← each (steer ip) l7; mret ((λ p, (ip, p.1)) <$> l7)
             | None => mret []
             end);
  _ ← each unsteer (filter (λ p, p ∉ new_set) old);
  if bool_decide (new_set = []) then mret tt else upd_l7_policies <[ep := new_set]>.

Definition set_endpoint_policy (ep : Z) (enforce enforce_egress audit : bool) (rules egress_rules : list Rule)
    (l7 : list (Z * list L7PolicyRule)) : Ctrl Z :=
  _ ← set_endpoint_l7 ep l7;
  _ ← on_dp (endpoint_policy_set ep enforce enforce_egress audit rules egress_rules);
  c ← get;
  let rev := wrap 64 (default 0 (c_policy_revisions c !! ep) + 1) in
  _ ← modify (λ c, set_c_policy_revisions (<[ep := rev]> (c_policy_revisions c)) c);
  mret rev.

(** ** The policy trace *)

Inductive Verdict : Type := TDefaultAllow | TL7 | TAudit | TDeny | TAllow.

Context `{Kernel}.

(** The identity of a peer, exact before CIDR, [world] when unbound. *)
Definition trace_identity (d : Dp) (vrf : Z) (src : IpAddr) : Z :=
  let found := match src with
               | V4 s => match identity_get d vrf s with Some id => Some id | None => cidr_identity_get d vrf s end
               | V6 s => match identity6_get d vrf s with Some id => Some id | None => cidr6_identity_get d vrf s end
               end in
  default IDENTITY_WORLD found.

Definition trace_key (ep identity proto dport gen_bit pat : Z) : PolicyKey :=
  mkPolicyKey ep (if has pat 1 then 0 else identity) (if has pat 4 then 0 else dport)
    (if has pat 2 then 0 else proto) (POLICY_DIR_INGRESS .| gen_bit).

(** [(allowed, denied)] after the probes, the first deny ending them. *)
Fixpoint trace_probes (d : Dp) (key : Z → PolicyKey) (pats : list Z) (allowed : bool) : bool * bool :=
  match pats with
  | [] => (allowed, false)
  | pat :: pats =>
      match policy_get d (key pat) with
      | Some v => if v =? POLICY_DENY then (allowed, true) else trace_probes d key pats true
      | None => trace_probes d key pats allowed
      end
  end.

Definition trace_rules (d : Dp) (ep flags identity proto port : Z) : Verdict :=
  let gen_bit := if has flags EP_F_GEN then POLICY_KEY_GEN else 0 in
  let key := trace_key ep identity proto (port_to_map port) gen_bit in
  let '(allowed, denied) := trace_probes d key [0; 4; 6; 1; 5; 7] false in
  if denied || negb allowed then if has flags EP_F_AUDIT then TAudit else TDeny else TAllow.

(** The endpoint of an address. *)
Definition ep_addressed (dst : IpAddr) (e : Endpoint) : bool :=
  bool_decide (V4 (ip4 (ep_ip e)) = dst) || bool_decide ((λ a, V6 (ip6 a)) <$> ep_ip6 e = Some dst).

(** A port of some endpoint's L7 policy. *)
Definition l7_steered (l7 : gmap Z (list (Z * Z))) (dst : IpAddr) (port : Z) : bool :=
  match dst with
  | V4 a => negb (port =? 0) && existsb (λ kv : Z * list (Z * Z), bool_decide ((of_be a, port) ∈ kv.2)) (map_to_list l7)
  | V6 _ => false
  end.

Definition policy_trace (src dst : IpAddr) (vrf proto port : Z) : Ctrl Verdict :=
  eps ← on_cni list_endpoints;
  c ← get;
  let d := now (c_run c) in
  match ep_host_ifindex <$> find_ep (ep_addressed dst) eps with
  | None => mret TDefaultAllow
  | Some ep =>
      match ep_policy_get d ep with
      | None => mret TDefaultAllow
      | Some flags =>
          if negb (has flags EP_F_INGRESS) then mret TDefaultAllow
          else if l7_steered (c_l7_policies c) dst port then mret TL7
          else mret (trace_rules d ep flags (trace_identity d vrf src) proto port)
      end
  end.
End pods.
