(* ===== verification/CtlRun.v ===== *)
(** * Reasoning about requests

    Inversion of a successful request, and its effect on the part of the
    state a computation runs on. *)

From S2P Require Import Prelude.
From S2P Require Import Contract.
From S2P Require Import Bpf.
From S2P Require Import MapRefs.
From S2P Require Import Dataplane.
From S2P Require Import DpRun.
From S2P Require Import Cni.
From S2P Require Import L7.
From S2P Require Import Control.

Lemma bind_inv_M {S E A B} (m : M S E A) (f : A → M S E B) s s' b :
  (m ≫= f) s = (s', Ok b) → ∃ s1 a, m s = (s1, Ok a) ∧ f a s1 = (s', Ok b).
Proof. unfold mbind, M_bind. destruct (m s) as [s1 [a|]]; [eauto|done]. Qed.

Lemma bind_ok_M {S E A B} (m : M S E A) (f : A → M S E B) s s' a : m s = (s', Ok a) → (m ≫= f) s = f a s'.
Proof. intros Hm. unfold mbind, M_bind. by rewrite Hm. Qed.

Lemma bind_get_M {S E B} (f : S → M S E B) s : (get ≫= f) s = f s s.
Proof. done. Qed.
Lemma bind_modify_M {S E B} (g : S → S) (f : unit → M S E B) s : (modify g ≫= f) s = f tt (g s).
Proof. done. Qed.
Lemma bind_mret_M {S E A B} (a : A) (f : A → M S E B) s : (mret a ≫= f) s = f a s.
Proof. done. Qed.

(** Step through a successful sequence: [step_ok H as (s & a & Hm & H)]. *)
Ltac step_ok H := apply bind_inv_M in H.

Section control.
Context `{HostOps} `{Regex} `{MapSys}.

Lemma on_dp_inv {A} (m : Ctl A) (c c' : Control) a : on_dp m c = (c', Ok a) →
  ∃ s, m (c_run c) = (s, Ok a) ∧ c' = set_c_run s c.
Proof. unfold on_dp. destruct (m (c_run c)) as [s [x|]]; [|done]. intros [= <- <-]. eauto. Qed.

Lemma on_dp_ok {A} (m : Ctl A) (c : Control) s a : m (c_run c) = (s, Ok a) → on_dp m c = (set_c_run s c, Ok a).
Proof. intros Hm. unfold on_dp. by rewrite Hm. Qed.

Lemma of_res_inv {A} (r : res CtlErr A) (c c' : Control) a : of_res r c = (c', Ok a) → r = Ok a ∧ c' = c.
Proof. destruct r; [by intros [= <- <-]|done]. Qed.

Lemma of_option_inv {S E A} (e : E) (o : option A) (s s' : S) a :
  of_option e o s = (s', Ok a) → o = Some a ∧ s' = s.
Proof. destruct o; [by intros [= <- <-]|done]. Qed.

Lemma resolve_inv name (c c' : Control) ix : resolve name c = (c', Ok ix) →
  ifindex_of (c_host c) name = Some ix ∧ c' = c.
Proof. unfold resolve. rewrite bind_get_M. apply of_option_inv. Qed.

Lemma resolve_all_inv names (c c' : Control) ixs : resolve_all names c = (c', Ok ixs) →
  Forall2 (λ n ix, ifindex_of (c_host c) n = Some ix) names ixs ∧ c' = c.
Proof.
  revert c' ixs. induction names as [|n names IH]; intros c' ixs; cbn [resolve_all].
  - intros [= <- <-]. done.
  - intros (c1 & ix & [Hn ->]%resolve_inv & (c2 & ixs' & [Hr ->]%IH & [= <- <-])%bind_inv_M)%bind_inv_M.
    split; [by constructor|done].
Qed.

(** [each] from the first element on. *)
Lemma each_nil {A} (f : A → M Control CtlErr unit) : each f [] = mret tt.
Proof. done. Qed.
Lemma each_cons_inv {A} (f : A → M Control CtlErr unit) x l (c c' : Control) :
  each f (x :: l) c = (c', Ok tt) → ∃ c1, f x c = (c1, Ok tt) ∧ each f l c1 = (c', Ok tt).
Proof. unfold each. cbn [mfold]. intros (c1 & [] & ? & ?)%bind_inv_M. eauto. Qed.

(** ** Segment ids *)

Record ids_ok (t : EsTable) : Prop := mkIdsOk {
  io_ids : ∀ esi st, et_segments t !! esi = Some st → 0 ≤ es_id st ≤ MAX_ES_ID ∧ Z.testbit (et_ids t) (es_id st) = true;
  io_inj : ∀ esi esi' st st', et_segments t !! esi = Some st → et_segments t !! esi' = Some st' →
    es_id st = es_id st' → esi = esi' }.

Definition extends (t t' : EsTable) : Prop :=
  (∀ esi st, et_segments t !! esi = Some st → et_segments t' !! esi = Some st) ∧ et_vtep_bits t' = et_vtep_bits t.
#[global] Instance extends_preorder : PreOrder extends.
Proof. split; [by split|]. intros t1 t2 t3 [A1 B1] [A2 B2]. split; [auto|congruence]. Qed.

(** An entry is there, or created with an id that was free. *)
Lemma es_entry_cases esi (c c1 : Control) st : es_entry esi c = (c1, Ok st) →
  (et_segments (c_es c) !! esi = Some st ∧ c1 = c) ∨
  ∃ i, 0 ≤ i ≤ MAX_ES_ID ∧ Z.testbit (et_ids (c_es c)) i = false ∧ et_segments (c_es c) !! esi = None ∧
    st = new_segment i ∧
    c1 = set_c_es (mkEsTable (<[esi := st]> (et_segments (c_es c))) (et_ids (c_es c) .| 1 ≪ i) (et_vtep_bits (c_es c))) c.
Proof.
  unfold es_entry. rewrite bind_get_M. destruct (et_segments (c_es c) !! esi) as [st0|]; [intros [= <- <-]; by left|].
  destruct (first_some _ _) as [i|] eqn:Hf; [|done]. intros [= <- <-]. right. exists i.
  apply first_some_Some in Hf as (i' & Hin%elem_of_seqZ & Ht).
  destruct (Z.testbit (et_ids (c_es c)) i') eqn:Hbit; [done|]. injection Ht as ->. split_and!; (done || lia).
Qed.

Lemma ids_ok_new t esi i st bits : ids_ok t → 0 ≤ i ≤ MAX_ES_ID → Z.testbit (et_ids t) i = false → es_id st = i →
  ids_ok (mkEsTable (<[esi := st]> (et_segments t)) (et_ids t .| 1 ≪ i) bits).
Proof.
  intros [Hids Hinj] Hi Hbit Hst. split; cbn.
  - intros e st'. destruct (decide (e = esi)) as [->|Hne].
    + rewrite lookup_insert_eq. intros [= <-]. rewrite Hst. split; [done|].
      rewrite Z.lor_spec, Z.shiftl_1_l, Z.pow2_bits_true by lia. apply orb_true_r.
    + rewrite lookup_insert_ne by done. intros He. destruct (Hids e st' He) as [? Hb']. split; [done|].
      by rewrite Z.lor_spec, Hb'.
  - intros e e' st1 st1'. destruct (decide (e = esi)) as [->|Hne], (decide (e' = esi)) as [->|Hne'];
      rewrite ?lookup_insert_eq, ?lookup_insert_ne by done; [done|intros [= <-] He|intros He [= <-]|apply Hinj];
      destruct (Hids _ _ He) as [_ Hb']; intros Hii; rewrite ?Hst in Hii; congruence.
Qed.

(** Changes that keep the ids. *)
Lemma ids_ok_same t t' : ids_ok t → (∀ e, es_id <$> et_segments t' !! e = es_id <$> et_segments t !! e) →
  et_ids t' = et_ids t → ids_ok t'.
Proof.
  intros [Hids Hinj] Hs Hi.
  assert (∀ e st', et_segments t' !! e = Some st' → ∃ st, et_segments t !! e = Some st ∧ es_id st = es_id st') as Hback.
  { intros e st' He. specialize (Hs e). rewrite He in Hs. cbn in Hs. apply eq_sym, fmap_Some in Hs as (st & ? & ->). eauto. }
  split.
  - intros e st' (st & He & <-)%Hback. rewrite Hi. eauto.
  - intros e e' st1 st1' (st & He & <-)%Hback (st' & He' & <-)%Hback. eauto.
Qed.
Lemma ids_ok_delete t esi st : ids_ok t → et_segments t !! esi = Some st →
  ids_ok (mkEsTable (delete esi (et_segments t)) (Z.ldiff (et_ids t) (1 ≪ es_id st)) (et_vtep_bits t)).
Proof.
  intros [Hids Hinj] Hst. destruct (Hids _ _ Hst) as [Hr _]. split; cbn.
  - intros e st' [Hne He]%lookup_delete_Some. destruct (Hids e st' He) as [? Hb]. split; [done|].
    rewrite Z.ldiff_spec, Z.shiftl_1_l, Z.pow2_bits_eqb, Hb by lia. cbn.
    rewrite negb_true_iff, Z.eqb_neq. intros Hii. apply Hne. by apply (Hinj esi e st st').
  - intros e e' st1 st1' [? He]%lookup_delete_Some [? He']%lookup_delete_Some. by apply Hinj.
Qed.

Lemma es_entry_ids esi (c c1 : Control) st : es_entry esi c = (c1, Ok st) → ids_ok (c_es c) →
  ids_ok (c_es c1) ∧ extends (c_es c) (c_es c1) ∧ et_segments (c_es c1) !! esi = Some st ∧ c1 = set_c_es (c_es c1) c.
Proof.
  intros [[Hs ->]|(i & Hi & Hbit & Hn & -> & ->)]%es_entry_cases Hok.
  - split_and!; [done..|by destruct c].
  - split_and!; [by apply ids_ok_new| |apply lookup_insert_eq|done]. split; cbn; [|done].
    intros e st He. rewrite lookup_insert_ne; [done|]. intros ->. congruence.
Qed.
End control.
