(* ===== verification/EsProps.v ===== *)
(** * Ethernet Segments: the rendered tables

    [es_render] of [crates/cradle/src/control.rs] reconciles the rows of one
    segment with its state.  The rows in the maps are, after any history of
    successful requests, those of the segments declared by it: the packet
    predicates of [L2] then decide what the segments say. *)

From S2P Require Import Prelude.
From S2P Require Import Contract.
From S2P Require Import Common.
From S2P Require Import Bpf.
From S2P Require Import Maps.
From S2P Require Import L2.
From S2P Require Import MapRefs.
From S2P Require Import Dataplane.
From S2P Require Import DpRun.
From S2P Require Import Cni.
From S2P Require Import L7.
From S2P Require Import Control.
From S2P Require Import CtlRun.

(** ** What the maps show of the segments *)

Record Shown := mkShown {
  sh_id : Z; sh_rows : list (Z * Z * Z); sh_ports : list Z; sh_peers : list IpAddr; sh_label : Z }.

Abbreviation Board := (gmap string Shown).

Definition df_shown (d : Dp) (b : Board) : Prop := ∀ ix bd fl,
  view m_ES_DF d !! mkEsDfKey ix bd = Some fl ↔ ∃ esi s, b !! esi = Some s ∧ (ix, bd, fl) ∈ sh_rows s.
Definition ports_shown (d : Dp) (b : Board) : Prop := ∀ ix id,
  view m_PORT_ES d !! ix = Some id ↔ ∃ esi s, b !! esi = Some s ∧ ix ∈ sh_ports s ∧ id = sh_id s.
Definition labels_shown (d : Dp) (b : Board) : Prop := ∀ l id,
  view m_ESI_LABEL d !! l = Some id ↔ ∃ esi s, b !! esi = Some s ∧ sh_label s = l ∧ l ≠ 0 ∧ id = sh_id s.

(** The segments whose peer [p] is, by id. *)
Definition peer_of (b : Board) (p : IpAddr) (i : Z) : Prop :=
  ∃ esi s, b !! esi = Some s ∧ p ∈ sh_peers s ∧ i = sh_id s.

Lemma imap_nth {A B} (f : A → B) l : imap (λ _ x, f x) l = f <$> l.
Proof. induction l as [|x l IH]; [done|]. cbn. f_equal. apply IH. Qed.

Section es.
Context `{HostOps} `{Regex} `{MapSysLaws}.

(** Peers with different addresses have different keys. *)
Context (canon : IpAddr → Prop).

(** The peer table and the map agree on a predicate. *)
Record peers_show (d : Dp) (bits : gmap IpAddr Z) (f : IpAddr → Z → Prop) : Prop := mkPeersShow {
  ps_bits : ∀ p i, canon p → 0 ≤ i → Z.testbit (default 0 (bits !! p)) i = true ↔ f p i;
  ps_keys : ∀ p, canon p → view m_VTEP_ES d !! ip_to_v6_bytes p = bits !! p;
  ps_only : ∀ k, is_Some (view m_VTEP_ES d !! k) → ∃ p, canon p ∧ k = ip_to_v6_bytes p }.

(** ** Single steps *)

Lemma df_put_loop rows s s' :
  for_each (λ _ '(ifindex, bd, fl), es_df_set ifindex bd fl) 0 rows s = (s', Ok tt) →
  now s' = over m_ES_DF (put_all (λ _ r, mkEsDfKey r.1.1 r.1.2) (λ _ r, r.2) 0 rows (view m_ES_DF (now s))) (now s).
Proof. apply for_each_put; [apply _|]. by intros i [[ix bd] fl]. Qed.

Lemma df_drop_loop keys s : ∃ s',
  for_each (λ _ '(ifindex, bd), es_df_del ifindex bd) 0 keys s = (s', Ok tt) ∧
  now s' = over m_ES_DF (foldl (λ m k, delete k m) (view m_ES_DF (now s)) ((λ k, mkEsDfKey k.1 k.2) <$> keys)) (now s).
Proof.
  edestruct (for_each_drop m_ES_DF (λ _ '(ifindex, bd), es_df_del ifindex bd) (λ _ k, mkEsDfKey k.1 k.2) 0 keys s)
    as (s' & E & Hs); [by intros i [ix bd]|]. exists s'. split; [done|]. rewrite Hs. by rewrite imap_nth.
Qed.
Lemma port_put_loop ixs id s s' :
  for_each (λ _ ifindex, port_es_set ifindex id) 0 ixs s = (s', Ok tt) →
  now s' = over m_PORT_ES (put_all (λ _ ix, ix) (λ _ _, id) 0 ixs (view m_PORT_ES (now s))) (now s).
Proof. by apply for_each_put; [apply _|]. Qed.
Lemma port_drop_loop ixs s : ∃ s',
  for_each (λ _ ifindex, port_es_del ifindex) 0 ixs s = (s', Ok tt) ∧
  now s' = over m_PORT_ES (foldl (λ m k, delete k m) (view m_PORT_ES (now s)) ixs) (now s).
Proof.
  edestruct (for_each_drop m_PORT_ES (λ _ ifindex, port_es_del ifindex) (λ _ ix, ix) 0 ixs s) as (s' & E & Hs); [done|].
  exists s'. split; [done|]. rewrite Hs. by rewrite imap_nth, list_fmap_id.
Qed.

(** ** One segment among the others *)

Definition others (b : Board) (esi : string) (Q : Shown → Prop) : Prop :=
  ∃ esi' s', esi' ≠ esi ∧ b !! esi' = Some s' ∧ Q s'.

Lemma board_split b esi s Q : b !! esi = Some s →
  (∃ esi' s', b !! esi' = Some s' ∧ Q s') ↔ Q s ∨ others b esi Q.
Proof.
  intros Hb. split.
  - intros (e & s' & He & HQ). destruct (decide (e = esi)) as [->|]; [left; congruence|right; by exists e, s'].
  - intros [HQ|(e & s' & _ & He & HQ)]; eauto.
Qed.
Lemma board_update b esi s Q :
  (∃ esi' s', <[esi := s]> b !! esi' = Some s' ∧ Q s') ↔ Q s ∨ others b esi Q.
Proof.
  rewrite (board_split (<[esi := s]> b) esi s Q) by apply lookup_insert_eq. unfold others.
  split; (intros [?|(e & s' & Hne & He & HQ)]; [by left|right; exists e, s']).
  - by rewrite lookup_insert_ne in He.
  - by rewrite lookup_insert_ne.
Qed.

(** The rows, ports and label of [s] are no other segment's. *)
Definition apart (b : Board) (esi : string) (s : Shown) : Prop :=
  (∀ ix, ix ∈ sh_ports s → ¬ others b esi (λ s', ix ∈ sh_ports s')) ∧
  (∀ r, r ∈ sh_rows s → r.1.1 ∈ sh_ports s) ∧
  (sh_label s ≠ 0 → ¬ others b esi (λ s', sh_label s' = sh_label s)) ∧
  ¬ others b esi (λ s', sh_id s' = sh_id s) ∧
  ¬ others b esi (λ s', ∃ r, r ∈ sh_rows s' ∧ r.1.1 ∉ sh_ports s').

Lemma apart_rows b esi s ix bd fl : apart b esi s → (ix, bd, fl) ∈ sh_rows s →
  ¬ others b esi (λ s', ∃ fl', (ix, bd, fl') ∈ sh_rows s').
Proof.
  intros (Hp & Hr & _ & _ & Ho) Hin (e & s' & Hne & He & fl' & Hf). apply Ho. exists e, s'. split_and!; [done..|].
  exists (ix, bd, fl'). split; [done|]. intros Hx. apply (Hp ix); [by apply (Hr (ix, bd, fl))|]. by exists e, s'.
Qed.

Lemma df_clear d b esi s s0 : df_shown d b → b !! esi = Some s → apart b esi s → sh_rows s0 = [] →
  df_shown (over m_ES_DF (foldl (λ m k, delete k m) (view m_ES_DF d) ((λ k, mkEsDfKey k.1 k.2) <$> (sh_rows s).*1)) d)
    (<[esi := s0]> b).
Proof.
  intros Hd Hb Ha Hz ix bd fl. rewrite view_over, foldl_delete, board_update, Hz.
  specialize (Hd ix bd fl). rewrite (board_split b esi s _ Hb) in Hd.
  assert (mkEsDfKey ix bd ∈ (λ k, mkEsDfKey k.1 k.2) <$> (sh_rows s).*1 ↔ ∃ fl', (ix, bd, fl') ∈ sh_rows s) as Hk.
  { rewrite list_elem_of_fmap. split.
    - intros ([ix' bd'] & [= <- <-] & ([k fl'] & Hk & Hin)%list_elem_of_fmap). cbn in Hk. subst k. eauto.
    - intros (fl' & Hin). exists (ix, bd). split; [done|]. apply list_elem_of_fmap. by exists (ix, bd, fl'). }
  case_bool_decide as E; rewrite Hk in E.
  - destruct E as [fl' Hin]. pose proof (apart_rows _ _ _ _ _ _ Ha Hin) as Hno.
    split; [done|]. intros [?|(e & s' & ? & ? & ?)]; [set_solver|]. destruct Hno. exists e, s'. eauto.
  - rewrite Hd. split; [intros [?|?]; [|by right]|intros [?|?]; [set_solver|by right]]. destruct E. eauto.
Qed.

Lemma df_set d b esi s s1 : df_shown d b → b !! esi = Some s → sh_rows s = [] → apart b esi s1 →
  (∀ k fl fl', (k, fl) ∈ sh_rows s1 → (k, fl') ∈ sh_rows s1 → fl = fl') →
  df_shown (over m_ES_DF (put_all (λ _ r, mkEsDfKey r.1.1 r.1.2) (λ _ r, r.2) 0 (sh_rows s1) (view m_ES_DF d)) d)
    (<[esi := s1]> b).
Proof.
  intros Hd Hb Hz Ha Hf ix bd fl. rewrite view_over, board_update.
  rewrite (put_all_lookup (λ r : Z * Z * Z, mkEsDfKey r.1.1 r.1.2) (λ r, r.2)).
  2:{ intros [[? ?] ?] [[? ?] ?] ? ? [= -> ->]. cbn. by eapply Hf. }
  specialize (Hd ix bd fl). rewrite (board_split b esi s _ Hb), Hz in Hd. rewrite Hd. split.
  - intros [([[? ?] ?] & Hin & [= -> ->] & Hv)|[_ [?|?]]]; cbn in *; subst; [by left|set_solver|by right].
  - intros [Hin|Ho]; [left; by exists (ix, bd, fl)|right]. split; [|by right].
    intros [[ix' bd'] fl'] Hin [= -> ->]. apply (apart_rows _ _ _ _ _ _ Ha Hin).
    destruct Ho as (e & s' & ? & ? & ?). exists e, s'. eauto.
Qed.

Lemma ports_clear d b esi s s0 : ports_shown d b → b !! esi = Some s → apart b esi s → sh_ports s0 = [] →
  ports_shown (over m_PORT_ES (foldl (λ m k, delete k m) (view m_PORT_ES d) (sh_ports s)) d) (<[esi := s0]> b).
Proof.
  intros Hd Hb (Hp & _) Hz ix id. rewrite view_over, foldl_delete, board_update, Hz.
  specialize (Hd ix id). rewrite (board_split b esi s _ Hb) in Hd. case_bool_decide as E.
  - split; [done|]. intros [[? _]|(e & s' & ? & ? & ? & ?)]; [set_solver|]. destruct (Hp ix E). exists e, s'. eauto.
  - rewrite Hd. split; [intros [[? _]|?]; [done|by right]|intros [[? _]|?]; [set_solver|by right]].
Qed.

Lemma ports_set d b esi s s1 : ports_shown d b → b !! esi = Some s → sh_ports s = [] → apart b esi s1 →
  ports_shown (over m_PORT_ES (put_all (λ _ ix, ix) (λ _ _, sh_id s1) 0 (sh_ports s1) (view m_PORT_ES d)) d)
    (<[esi := s1]> b).
Proof.
  intros Hd Hb Hz (Hp & _) ix id. rewrite view_over, board_update.
  rewrite (put_all_lookup (λ ix : Z, ix) (λ _, sh_id s1)) by done.
  specialize (Hd ix id). rewrite (board_split b esi s _ Hb), Hz in Hd. rewrite Hd. split.
  - intros [(? & ? & -> & <-)|[_ [[? _]|?]]]; [by left|set_solver|by right].
  - intros [[Hin ->]|Ho]; [left; by exists ix|right]. split; [|by right]. intros ix' Hin ->.
    apply (Hp ix Hin). destruct Ho as (e & s' & ? & ? & ? & ?). by exists e, s'.
Qed.

(** ** Labels *)

Lemma label_set d b esi s l : labels_shown d b → b !! esi = Some s → l ≠ sh_label s →
  (sh_label s ≠ 0 → ¬ others b esi (λ s', sh_label s' = sh_label s)) →
  (l ≠ 0 → ¬ others b esi (λ s', sh_label s' = l)) →
  let v := view m_ESI_LABEL d in
  let v := if sh_label s =? 0 then v else delete (sh_label s) v in
  let v := if l =? 0 then v else <[l := sh_id s]> v in
  labels_shown (over m_ESI_LABEL v d) (<[esi := mkShown (sh_id s) (sh_rows s) (sh_ports s) (sh_peers s) l]> b).
Proof.
  intros Hd Hb Hne Hold Hnew v0 v1 v l0 id. rewrite view_over, board_update. cbn [sh_label sh_id].
  specialize (Hd l0 id). rewrite (board_split b esi s _ Hb) in Hd. fold v0 in Hd.
  assert (v1 !! l0 = Some id ↔ others b esi (λ s', sh_label s' = l0 ∧ l0 ≠ 0 ∧ id = sh_id s')) as Hv1.
  { unfold v1. destruct (Z.eqb_spec (sh_label s) 0) as [Ez|Ez].
    - rewrite Hd. split; [intros [(<- & ? & _)|?]; done|by right].
    - destruct (decide (l0 = sh_label s)) as [->|Hn].
      + rewrite lookup_delete_eq. split; [done|]. intros (e & s' & ? & ? & ? & _). destruct (Hold Ez). by exists e, s'.
      + rewrite lookup_delete_ne by done. rewrite Hd. split; [intros [(? & _)|?]; [by subst|done]|by right]. }
  unfold v. destruct (Z.eqb_spec l 0) as [Ez|Ez].
  - rewrite Hv1. split; [by right|]. intros [(<- & ? & _)|?]; done.
  - destruct (decide (l0 = l)) as [->|Hn].
    + rewrite lookup_insert_eq. split; [intros [= <-]; by left|].
      intros [(_ & _ & ->)|(e & s' & ? & ? & ? & _)]; [done|]. destruct (Hnew Ez). by exists e, s'.
    + rewrite lookup_insert_ne by done. rewrite Hv1. split; [by right|]. intros [(<- & _)|?]; done.
Qed.

(** ** Peers *)

Context (canon_inj : ∀ p q, canon p → canon q → ip_to_v6_bytes p = ip_to_v6_bytes q → p = q).

Definition write_bits {K} `{Countable K} (p : K) (nb : Z) : gmap K Z → gmap K Z :=
  if nb =? 0 then delete p else <[p := nb]>.

Lemma write_bits_eq {K} `{Countable K} (p : K) nb (m : gmap K Z) :
  write_bits p nb m !! p = if nb =? 0 then None else Some nb.
Proof. unfold write_bits. destruct (nb =? 0); [apply lookup_delete_eq|apply lookup_insert_eq]. Qed.
Lemma write_bits_ne {K} `{Countable K} (p q : K) nb (m : gmap K Z) : p ≠ q → write_bits p nb m !! q = m !! q.
Proof. intros Hn. unfold write_bits. destruct (nb =? 0); [by apply lookup_delete_ne|by apply lookup_insert_ne]. Qed.

Lemma peers_write d bits f f' p nb : peers_show d bits f → canon p →
  (∀ i, 0 ≤ i → Z.testbit nb i = true ↔ f' p i) → (∀ q i, q ≠ p → f' q i ↔ f q i) →
  peers_show (over m_VTEP_ES (write_bits (ip_to_v6_bytes p) nb (view m_VTEP_ES d)) d) (write_bits p nb bits) f'.
Proof.
  intros [Hb Hk Ho] Hp Hnb Hoth. split.
  - intros q i Hq Hi. destruct (decide (q = p)) as [->|Hne].
    + rewrite write_bits_eq, <- Hnb by done. destruct (Z.eqb_spec nb 0) as [->|]; cbn; [by rewrite Z.bits_0|done].
    + rewrite write_bits_ne, Hb, Hoth by done. done.
  - intros q Hq. rewrite view_over. destruct (decide (q = p)) as [->|Hne]; [by rewrite !write_bits_eq|].
    rewrite !write_bits_ne; [by apply Hk|done|]. intros E. by destruct Hne; apply canon_inj.
  - intros k. rewrite view_over. destruct (decide (k = ip_to_v6_bytes p)) as [->|Hne]; [by exists p|].
    rewrite write_bits_ne by done. apply Ho.
Qed.

(** What a step on the peers leaves alone. *)
Record calm (c c' : @Control _ _) : Prop := mkCalm {
  calm_host : c_host c' = c_host c;
  calm_segments : et_segments (c_es c') = et_segments (c_es c);
  calm_ids : et_ids (c_es c') = et_ids (c_es c);
  calm_df : view m_ES_DF (now (c_run c')) = view m_ES_DF (now (c_run c));
  calm_ports : view m_PORT_ES (now (c_run c')) = view m_PORT_ES (now (c_run c));
  calm_labels : view m_ESI_LABEL (now (c_run c')) = view m_ESI_LABEL (now (c_run c)) }.
#[global] Instance calm_preorder : PreOrder calm.
Proof. split; [by split|]. intros c1 c2 c3 [] []. split; congruence. Qed.

Lemma vtep_es_set_run p nb s s' : vtep_es_set p nb s = (s', Ok tt) →
  now s' = over m_VTEP_ES (write_bits (ip_to_v6_bytes p) nb (view m_VTEP_ES (now s))) (now s).
Proof.
  unfold vtep_es_set, write_bits. destruct (nb =? 0).
  - intros E. pose proof (hash_drop_now m_VTEP_ES (ip_to_v6_bytes p) s) as Hn. by rewrite E in Hn.
  - intros E. destruct (hash_put_cases m_VTEP_ES (ip_to_v6_bytes p) nb s) as [E'|E']; rewrite E' in E; [done|].
    by injection E as <-.
Qed.

Lemma peer_step f f' p nb (c c' : Control) :
  (_ ← upd_vtep_bits (write_bits p nb); on_dp (vtep_es_set p nb)) c = (c', Ok tt) →
  peers_show (now (c_run c)) (et_vtep_bits (c_es c)) f → canon p →
  (∀ i, 0 ≤ i → Z.testbit nb i = true ↔ f' p i) → (∀ q i, q ≠ p → f' q i ↔ f q i) →
  peers_show (now (c_run c')) (et_vtep_bits (c_es c')) f' ∧ calm c c'.
Proof.
  unfold upd_vtep_bits. rewrite bind_modify_M. intros (s & Hs%vtep_es_set_run & ->)%on_dp_inv Hf Hp Hnb Ho.
  cbn in Hs |- *. rewrite Hs. split; [by eapply peers_write|]. split; cbn; by rewrite ?Hs.
Qed.

Lemma clear_peer_run f i p (c c' : Control) : 0 ≤ i → clear_peer (1 ≪ i) p c = (c', Ok tt) →
  peers_show (now (c_run c)) (et_vtep_bits (c_es c)) f → canon p →
  peers_show (now (c_run c')) (et_vtep_bits (c_es c')) (λ q j, f q j ∧ ¬ (q = p ∧ j = i)) ∧ calm c c'.
Proof.
  intros Hi. unfold clear_peer. rewrite bind_get_M. intros E Hf Hp. eapply (peer_step f); [exact E|done..| |naive_solver].
  intros j Hj. rewrite Z.ldiff_spec, Z.shiftl_1_l, Z.pow2_bits_eqb by lia.
  rewrite andb_true_iff, (ps_bits _ _ _ Hf) by done. rewrite negb_true_iff, Z.eqb_neq. naive_solver.
Qed.
Lemma mark_peer_run f i p (c c' : Control) : 0 ≤ i → mark_peer (1 ≪ i) p c = (c', Ok tt) →
  peers_show (now (c_run c)) (et_vtep_bits (c_es c)) f → canon p →
  peers_show (now (c_run c')) (et_vtep_bits (c_es c')) (λ q j, f q j ∨ q = p ∧ j = i) ∧ calm c c'.
Proof.
  intros Hi. unfold mark_peer. rewrite bind_get_M. cbn zeta.
  set (nb := default 0 (et_vtep_bits (c_es c) !! p) .| 1 ≪ i). intros E Hf Hp.
  assert (∀ j, 0 ≤ j → Z.testbit nb j = true ↔ f p j ∨ p = p ∧ j = i) as Hnb.
  { intros j Hj. unfold nb. rewrite Z.lor_spec, Z.shiftl_1_l, Z.pow2_bits_eqb by lia.
    rewrite orb_true_iff, (ps_bits _ _ _ Hf) by done. rewrite Z.eqb_eq. naive_solver. }
  assert (nb ≠ 0) as Hn0.
  { intros Hz. pose proof (proj2 (Hnb i Hi) (or_intror (conj eq_refl eq_refl))) as Ht. by rewrite Hz, Z.bits_0 in Ht. }
  apply (peer_step f _ p nb); [|done..|naive_solver]. unfold upd_vtep_bits in *. rewrite bind_modify_M in *.
  unfold write_bits. by rewrite (proj2 (Z.eqb_neq nb 0) Hn0).
Qed.

Lemma peers_show_ext d bits f g : (∀ p i, f p i ↔ g p i) → peers_show d bits f → peers_show d bits g.
Proof. intros He [Hb Hk Ho]. split; [|done..]. intros p i Hp Hi. by rewrite Hb, He. Qed.

Lemma clear_peers_run f i ps (c c' : Control) : 0 ≤ i → each (clear_peer (1 ≪ i)) ps c = (c', Ok tt) →
  peers_show (now (c_run c)) (et_vtep_bits (c_es c)) f → Forall canon ps →
  peers_show (now (c_run c')) (et_vtep_bits (c_es c')) (λ q j, f q j ∧ ¬ (q ∈ ps ∧ j = i)) ∧ calm c c'.
Proof.
  intros Hi. revert f c. induction ps as [|p ps IH]; intros f c.
  - intros [= <-] Hf _. split; [|done]. eapply peers_show_ext; [|done]. set_solver.
  - intros (c1 & E1 & E2)%each_cons_inv Hf [Hp Hps]%Forall_cons.
    destruct (clear_peer_run f i p c c1 Hi E1 Hf Hp) as [Hg1 Hc1].
    destruct (IH _ _ E2 Hg1 Hps) as [Hg2 Hc2]. split; [|by transitivity c1].
    eapply peers_show_ext; [|done]. set_solver.
Qed.
Lemma mark_peers_run f i ps (c c' : Control) : 0 ≤ i → each (mark_peer (1 ≪ i)) ps c = (c', Ok tt) →
  peers_show (now (c_run c)) (et_vtep_bits (c_es c)) f → Forall canon ps →
  peers_show (now (c_run c')) (et_vtep_bits (c_es c')) (λ q j, f q j ∨ q ∈ ps ∧ j = i) ∧ calm c c'.
Proof.
  intros Hi. revert f c. induction ps as [|p ps IH]; intros f c.
  - intros [= <-] Hf _. split; [|done]. eapply peers_show_ext; [|done]. set_solver.
  - intros (c1 & E1 & E2)%each_cons_inv Hf [Hp Hps]%Forall_cons.
    destruct (mark_peer_run f i p c c1 Hi E1 Hf Hp) as [Hg1 Hc1].
    destruct (IH _ _ E2 Hg1 Hps) as [Hg2 Hc2]. split; [|by transitivity c1].
    eapply peers_show_ext; [|done]. set_solver.
Qed.

(** ** The four tables *)

Record tables (d : Dp) (bits : gmap IpAddr Z) (b : Board) : Prop := mkTables {
  tb_df : df_shown d b; tb_ports : ports_shown d b; tb_labels : labels_shown d b;
  tb_peers : peers_show d bits (peer_of b) }.

(** A write elsewhere. *)
Record quiet (d d' : Dp) : Prop := mkQuiet {
  q_df : view m_ES_DF d' = view m_ES_DF d; q_ports : view m_PORT_ES d' = view m_PORT_ES d;
  q_labels : view m_ESI_LABEL d' = view m_ESI_LABEL d; q_peers : view m_VTEP_ES d' = view m_VTEP_ES d }.
#[global] Instance quiet_preorder : PreOrder quiet.
Proof. split; [by split|]. intros d1 d2 d3 [] []. split; congruence. Qed.

Lemma tables_quiet d d' bits b : quiet d d' → tables d bits b → tables d' bits b.
Proof.
  intros [Q1 Q2 Q3 Q4] [T1 T2 T3 [P1 P2 P3]]. split; [..|split]; unfold df_shown, ports_shown, labels_shown in *;
    rewrite ?Q1, ?Q2, ?Q3, ?Q4; done.
Qed.

Lemma peer_of_update b esi s s1 q j : b !! esi = Some s →
  peer_of (<[esi := s1]> b) q j ↔ (q ∈ sh_peers s1 ∧ j = sh_id s1) ∨ others b esi (λ s', q ∈ sh_peers s' ∧ j = sh_id s').
Proof. intros _. apply board_update. Qed.

(** The rows [es_render] wants for a segment. *)
Definition wanted (st : EsState) (ixs : list Z) : Shown :=
  mkShown (es_id st) (es_rows ixs (es_roles st)) ixs (ip_elements (es_peers st)) (es_esi_label st).

Definition synced (st : EsState) (s : Shown) : Prop :=
  es_id st = sh_id s ∧ es_programmed st = (sh_rows s).*1 ∧ es_programmed_ports st = sh_ports s ∧
  es_programmed_peers st = sh_peers s ∧ es_programmed_esi_label st = sh_label s.

(** The declared part of a segment. *)
Definition declared (st : EsState) := (es_id st, es_ports st, es_roles st, es_peers st, es_esi_label st).

Lemma upd_segment_run esi f (c c' : Control) : upd_segment esi f c = (c', Ok tt) →
  c' = set_c_es (mkEsTable (alter f esi (et_segments (c_es c))) (et_ids (c_es c)) (et_vtep_bits (c_es c))) c.
Proof. by intros [= <-]. Qed.

(** ** The stages of a render *)

(** [c] came from [c0]: segment [esi] is [st] now, the maps show [b]. *)
Record render_at (c0 c : @Control _ _) (esi : string) (st : EsState) (b : Board) : Prop := mkRenderAt {
  ra_host : c_host c = c_host c0;
  ra_ids : et_ids (c_es c) = et_ids (c_es c0);
  ra_segments : et_segments (c_es c) = <[esi := st]> (et_segments (c_es c0));
  ra_tables : tables (now (c_run c)) (et_vtep_bits (c_es c)) b }.

Lemma at_upd c0 c c' esi st b f : upd_segment esi f c = (c', Ok tt) →
  render_at c0 c esi st b → render_at c0 c' esi (f st) b.
Proof.
  intros ->%upd_segment_run [Hh Hi Hs Ht]. split; cbn; [done..| |done]. rewrite Hs.
  apply map_eq. intros e. destruct (decide (e = esi)) as [->|Hn].
  - by rewrite lookup_alter_eq, !lookup_insert_eq.
  - by rewrite lookup_alter_ne, !lookup_insert_ne.
Qed.

Lemma at_dp {A} c0 c c' esi st b b' (m : Ctl A) a : on_dp m c = (c', Ok a) →
  (∀ s, m (c_run c) = (s, Ok a) → tables (now (c_run c)) (et_vtep_bits (c_es c)) b →
     tables (now s) (et_vtep_bits (c_es c)) b') →
  render_at c0 c esi st b → render_at c0 c' esi st b'.
Proof. intros (s & Hm & ->)%on_dp_inv Hs [Hh Hi He Ht]. split; cbn; [done..|]. by apply Hs. Qed.

Lemma at_quiet {A} c0 c c' esi st b (m : Ctl A) a : on_dp m c = (c', Ok a) → evolves quiet m →
  render_at c0 c esi st b → render_at c0 c' esi st b.
Proof.
  intros Hm Hq. eapply at_dp; [done|]. intros s Hs. destruct (Hq (c_run c)) as [Hn _]. rewrite Hs in Hn.
  by apply tables_quiet.
Qed.

Lemma quiet_nhg id bd ms sa : evolves quiet (es_nhg_set id bd ms sa).
Proof.
  unfold es_nhg_set. cbn zeta. apply evolves_dp. intros d. apply (evolves_bind quiet); [|intros _].
  { apply (evolves_for quiet). intros j x _. by apply (evolves_put quiet). }
  apply (evolves_bind quiet); [|intros _].
  { case_match; [by apply (evolves_drop quiet)|by apply (evolves_put quiet)]. }
  apply (evolves_for quiet). intros j x _. by apply (evolves_drop quiet).
Qed.

Lemma nhg_stage c0 c c' esi st0 st b : es_render_nhg esi st0 c = (c', Ok tt) → render_at c0 c esi st b →
  ∃ g, render_at c0 c' esi (set_es_programmed_nhg g st) b.
Proof.
  unfold es_render_nhg. rewrite bind_get_M.
  intros (c1 & groups & [_ ->]%of_res_inv & E)%bind_inv_M Hat.
  apply bind_inv_M in E as (c2 & [] & E2 & E). apply bind_inv_M in E as (c3 & [] & E3 & E).
  apply bind_inv_M in E as (c4 & [] & E4 & E5). eexists.
  apply (at_upd _ _ _ _ _ _ _ E2) in Hat. apply (at_quiet _ _ _ _ _ _ _ _ E3) in Hat.
  2:{ apply (evolves_for quiet). intros j x _. case_bool_decide; [by apply (evolves_ret quiet)|apply quiet_nhg]. }
  apply (at_quiet _ _ _ _ _ _ _ _ E4) in Hat.
  2:{ apply (evolves_for quiet). intros j [[? ?] ?] _. apply quiet_nhg. }
  apply (at_upd _ _ _ _ _ _ _ E5) in Hat. exact Hat.
Qed.

Definition blank (s : Shown) : Shown := mkShown (sh_id s) [] [] [] (sh_label s).

Lemma tables_df_clear d bits b esi s : tables d bits b → b !! esi = Some s → apart b esi s →
  tables (over m_ES_DF (foldl (λ m k, delete k m) (view m_ES_DF d) ((λ k, mkEsDfKey k.1 k.2) <$> (sh_rows s).*1)) d)
    bits (<[esi := mkShown (sh_id s) [] (sh_ports s) (sh_peers s) (sh_label s)]> b).
Proof.
  intros [T1 T2 T3 T4] Hb Ha. split.
  - by eapply df_clear.
  - intros ix id. rewrite board_update. specialize (T2 ix id). by rewrite (board_split b esi s _ Hb) in T2.
  - intros ix id. rewrite board_update. specialize (T3 ix id). by rewrite (board_split b esi s _ Hb) in T3.
  - destruct T4 as [P1 P2 P3]. split; [|done..]. intros p i Hp Hi. rewrite P1 by done. unfold peer_of.
    by rewrite board_update, (board_split b esi s _ Hb).
Qed.

Lemma tables_ports_clear d bits b esi s : tables d bits b → b !! esi = Some s → apart b esi s →
  tables (over m_PORT_ES (foldl (λ m k, delete k m) (view m_PORT_ES d) (sh_ports s)) d)
    bits (<[esi := mkShown (sh_id s) (sh_rows s) [] (sh_peers s) (sh_label s)]> b).
Proof.
  intros [T1 T2 T3 T4] Hb Ha. split.
  - intros ix bd fl. rewrite board_update. specialize (T1 ix bd fl). by rewrite (board_split b esi s _ Hb) in T1.
  - by eapply ports_clear.
  - intros ix id. rewrite board_update. specialize (T3 ix id). by rewrite (board_split b esi s _ Hb) in T3.
  - destruct T4 as [P1 P2 P3]. split; [|done..]. intros p i Hp Hi. rewrite P1 by done. unfold peer_of.
    by rewrite board_update, (board_split b esi s _ Hb).
Qed.

Definition with_peers (ps : list IpAddr) (s : Shown) : Shown :=
  mkShown (sh_id s) (sh_rows s) (sh_ports s) ps (sh_label s).

Lemma at_peers c0 c c' esi st b s ps : calm c c' → b !! esi = Some s →
  peers_show (now (c_run c')) (et_vtep_bits (c_es c')) (peer_of (<[esi := with_peers ps s]> b)) →
  render_at c0 c esi st b → render_at c0 c' esi st (<[esi := with_peers ps s]> b).
Proof.
  intros [Ch Cs Ci C1 C2 C3] Hb Hp [Hh Hi Hs [T1 T2 T3 T4]]. split; [congruence..|]. split; [..|done].
  - intros ix bd fl. rewrite C1, board_update. specialize (T1 ix bd fl). by rewrite (board_split b esi s _ Hb) in T1.
  - intros ix id. rewrite C2, board_update. specialize (T2 ix id). by rewrite (board_split b esi s _ Hb) in T2.
  - intros ix id. rewrite C3, board_update. specialize (T3 ix id). by rewrite (board_split b esi s _ Hb) in T3.
Qed.

Lemma clear_peers_stage c0 c c' esi st b s : each (clear_peer (1 ≪ sh_id s)) (sh_peers s) c = (c', Ok tt) →
  b !! esi = Some s → 0 ≤ sh_id s → ¬ others b esi (λ s', sh_id s' = sh_id s) → Forall canon (sh_peers s) →
  render_at c0 c esi st b → render_at c0 c' esi st (<[esi := with_peers [] s]> b).
Proof.
  intros E Hb Hi Hid Hc Hat.
  destruct (clear_peers_run _ _ _ _ _ Hi E (tb_peers _ _ _ (ra_tables _ _ _ _ _ Hat)) Hc) as [Hp Hcalm].
  apply (at_peers c0 c c' esi st b s); try done. eapply peers_show_ext; [|done]. intros q j. unfold peer_of at 1.
  rewrite (board_split b esi s _ Hb). rewrite (peer_of_update b esi s) by done. cbn [with_peers sh_peers].
  split; [intros [[[? ?]|?] Hn]; [by destruct Hn|by right]|]. intros [[? _]|Ho]; [set_solver|]. split; [by right|].
  intros [_ ->]. apply Hid. destruct Ho as (e & s' & ? & ? & ? & ?). by exists e, s'.
Qed.

Lemma mark_peers_stage c0 c c' esi st b s ps : each (mark_peer (1 ≪ sh_id s)) ps c = (c', Ok tt) →
  b !! esi = Some s → sh_peers s = [] → 0 ≤ sh_id s → Forall canon ps →
  render_at c0 c esi st b → render_at c0 c' esi st (<[esi := with_peers ps s]> b).
Proof.
  intros E Hb Hs Hi Hc Hat.
  destruct (mark_peers_run _ _ _ _ _ Hi E (tb_peers _ _ _ (ra_tables _ _ _ _ _ Hat)) Hc) as [Hp Hcalm].
  apply (at_peers c0 c c' esi st b s); try done. eapply peers_show_ext; [|done]. intros q j. unfold peer_of at 1.
  rewrite (board_split b esi s _ Hb), Hs. rewrite (peer_of_update b esi s) by done. cbn [with_peers sh_peers sh_id].
  set_solver.
Qed.

Lemma apart_upd b esi s s0 : apart b esi s → apart (<[esi := s0]> b) esi s.
Proof.
  assert (∀ Q, others (<[esi := s0]> b) esi Q ↔ others b esi Q) as He.
  { intros Q. unfold others. split; intros (e & s' & Hn & Hb & ?); exists e, s'; (split; [done|split; [|done]]).
    - by rewrite lookup_insert_ne in Hb.
    - by rewrite lookup_insert_ne. }
  unfold apart. intros (A1 & A2 & A3 & A4 & A5). split_and!; [|done| | |].
  - intros ix. rewrite He. apply A1.
  - rewrite He. apply A3.
  - by rewrite He.
  - by rewrite He.
Qed.
Lemma apart_less b esi s s' : apart b esi s → sh_id s' = sh_id s → sh_label s' = sh_label s →
  (∀ ix, ix ∈ sh_ports s' → ix ∈ sh_ports s) → (∀ r, r ∈ sh_rows s' → r.1.1 ∈ sh_ports s') → apart b esi s'.
Proof. intros (A1 & A2 & A3 & A4 & A5) E1 E2 Hp Hr. unfold apart. rewrite E1, E2. split_and!; auto. Qed.

Lemma clear_stage c0 c c' esi st0 st b s : es_render_clear esi st0 c = (c', Ok tt) → synced st0 s →
  b !! esi = Some s → 0 ≤ sh_id s → apart b esi s → Forall canon (sh_peers s) →
  render_at c0 c esi st b →
  render_at c0 c' esi (set_es_programmed_peers [] (set_es_programmed_ports [] (set_es_programmed [] st)))
    (<[esi := blank s]> b).
Proof.
  unfold es_render_clear. intros E (S1 & S2 & S3 & S4 & S5) Hb Hi Ha Hc Hat. rewrite S1, S2, S3, S4 in E.
  apply bind_inv_M in E as (c1 & [] & E1 & E). apply bind_inv_M in E as (c2 & [] & E2 & E).
  apply bind_inv_M in E as (c3 & [] & E3 & E). apply bind_inv_M in E as (c4 & [] & E4 & E).
  apply bind_inv_M in E as (c5 & [] & E5 & E6).
  apply (at_upd _ _ _ _ _ _ _ E1) in Hat.
  apply (at_dp _ _ _ _ _ _ (<[esi := mkShown (sh_id s) [] (sh_ports s) (sh_peers s) (sh_label s)]> b) _ _ E2) in Hat.
  2:{ intros r Hr Ht. destruct (df_drop_loop (sh_rows s).*1 (c_run c1)) as (r' & Hr' & Hn).
      rewrite Hr in Hr'. injection Hr' as ->. rewrite Hn. by apply tables_df_clear. }
  apply (at_upd _ _ _ _ _ _ _ E3) in Hat.
  apply (at_dp _ _ _ _ _ _ (<[esi := mkShown (sh_id s) [] [] (sh_peers s) (sh_label s)]> b) _ _ E4) in Hat.
  2:{ intros r Hr Ht. destruct (port_drop_loop (sh_ports s) (c_run c3)) as (r' & Hr' & Hn).
      rewrite Hr in Hr'. injection Hr' as ->. rewrite Hn.
      eapply (tables_ports_clear _ _ _ esi) in Ht; [|apply lookup_insert_eq|].
      - by rewrite insert_insert_eq in Ht.
      - apply apart_upd. eapply apart_less; [exact Ha|done|done|done|]. cbn. set_solver. }
  apply (at_upd _ _ _ _ _ _ _ E5) in Hat.
  set (s2 := mkShown (sh_id s) [] [] (sh_peers s) (sh_label s)) in *.
  apply (clear_peers_stage _ _ _ _ _ _ s2 E6) in Hat; [|apply lookup_insert_eq|done| |done].
  - by rewrite insert_insert_eq in Hat.
  - destruct Ha as (_ & _ & _ & A4 & _). intros (e & s' & Hne & He & Hid). rewrite lookup_insert_ne in He by done.
    apply A4. by exists e, s'.
Qed.

Lemma tables_df_set d bits b esi s s1 : tables d bits b → b !! esi = Some s → sh_rows s = [] → apart b esi s1 →
  (∀ k fl fl', (k, fl) ∈ sh_rows s1 → (k, fl') ∈ sh_rows s1 → fl = fl') →
  tables (over m_ES_DF (put_all (λ _ r, mkEsDfKey r.1.1 r.1.2) (λ _ r, r.2) 0 (sh_rows s1) (view m_ES_DF d)) d)
    bits (<[esi := mkShown (sh_id s) (sh_rows s1) (sh_ports s) (sh_peers s) (sh_label s)]> b).
Proof.
  intros [T1 T2 T3 T4] Hb Hz Ha Hf. split.
  - intros ix bd fl. rewrite board_update. pose proof (df_set _ _ _ _ _ T1 Hb Hz Ha Hf ix bd fl) as Hd.
    by rewrite board_update in Hd.
  - intros ix id. rewrite board_update. specialize (T2 ix id). by rewrite (board_split b esi s _ Hb) in T2.
  - intros ix id. rewrite board_update. specialize (T3 ix id). by rewrite (board_split b esi s _ Hb) in T3.
  - destruct T4 as [P1 P2 P3]. split; [|done..]. intros p i Hp Hi. rewrite P1 by done. unfold peer_of.
    by rewrite board_update, (board_split b esi s _ Hb).
Qed.
Lemma tables_ports_set d bits b esi s s1 : tables d bits b → b !! esi = Some s → sh_ports s = [] → apart b esi s1 →
  sh_id s1 = sh_id s →
  tables (over m_PORT_ES (put_all (λ _ ix, ix) (λ _ _, sh_id s1) 0 (sh_ports s1) (view m_PORT_ES d)) d)
    bits (<[esi := mkShown (sh_id s) (sh_rows s) (sh_ports s1) (sh_peers s) (sh_label s)]> b).
Proof.
  intros [T1 T2 T3 T4] Hb Hz Ha Hid. split.
  - intros ix bd fl. rewrite board_update. specialize (T1 ix bd fl). by rewrite (board_split b esi s _ Hb) in T1.
  - intros ix id. rewrite board_update. pose proof (ports_set _ _ _ _ _ T2 Hb Hz Ha ix id) as Hd.
    rewrite board_update in Hd. by rewrite Hd, Hid.
  - intros ix id. rewrite board_update. specialize (T3 ix id). by rewrite (board_split b esi s _ Hb) in T3.
  - destruct T4 as [P1 P2 P3]. split; [|done..]. intros p i Hp Hi. rewrite P1 by done. unfold peer_of.
    by rewrite board_update, (board_split b esi s _ Hb).
Qed.

(** The rows of a segment: at most one per port and domain. *)
Lemma es_rows_spec ixs roles ix bd fl : (ix, bd, fl) ∈ es_rows ixs roles ↔
  ix ∈ ixs ∧ ∃ sa : bool, roles !! bd = Some (false, sa) ∧
    fl = if sa then ES_DF_F_NON_DF .| ES_DF_F_BLOCK else ES_DF_F_NON_DF.
Proof.
  unfold es_rows. rewrite list_elem_of_bind. split.
  - intros (ix' & ([bd' [df sa]] & Hin%elem_of_btree & Hv)%list_elem_of_omap & Hix).
    destruct df; [done|]. injection Hv as <- <- <-. eauto.
  - intros (Hix & sa & Hr & ->). exists ix. split; [|done]. apply list_elem_of_omap.
    exists (bd, (false, sa)). split; [by apply elem_of_btree|done].
Qed.

Lemma set_stage c0 c c' esi st0 st ixs b s : let s1 := wanted st0 ixs in
  es_render_set esi st0 ixs (sh_rows s1) c = (c', Ok tt) →
  b !! esi = Some s → 0 ≤ sh_id s → sh_id s = es_id st0 → apart b esi s1 → Forall canon (sh_peers s1) →
  render_at c0 c esi st (<[esi := blank s]> b) →
  render_at c0 c' esi (set_es_programmed_peers (sh_peers s1) (set_es_programmed_ports ixs
      (set_es_programmed (sh_rows s1).*1 st)))
    (<[esi := mkShown (sh_id s) (sh_rows s1) ixs (sh_peers s1) (sh_label s)]> b).
Proof.
  intros s1. unfold es_render_set. intros E Hb Hi Hid Ha Hc Hat.
  apply bind_inv_M in E as (c1 & [] & E1 & E). apply bind_inv_M in E as (c2 & [] & E2 & E).
  apply bind_inv_M in E as (c3 & [] & E3 & E). apply bind_inv_M in E as (c4 & [] & E4 & E).
  apply bind_inv_M in E as (c5 & [] & E5 & E6).
  eapply (at_dp _ _ _ _ _ _ _ _ _ E1) in Hat.
  2:{ intros r Hr%df_put_loop Ht. rewrite Hr. eapply tables_df_set; [done|apply lookup_insert_eq|done|by apply apart_upd|].
      intros [ix bd] fl fl' (_ & sa & Hr1 & ->)%es_rows_spec (_ & sa' & Hr2 & ->)%es_rows_spec.
      rewrite Hr1 in Hr2. by injection Hr2 as ->. }
  rewrite insert_insert_eq in Hat.
  eapply (at_dp _ _ _ _ _ _ _ _ _ E2) in Hat.
  2:{ intros r Hr%port_put_loop Ht. rewrite Hr.
      eapply (tables_ports_set _ _ _ _ _ s1); [done|apply lookup_insert_eq|done|by apply apart_upd|done]. }
  rewrite insert_insert_eq in Hat. cbn [sh_id sh_rows sh_ports sh_peers sh_label blank] in Hat.
  rewrite <- Hid in E3. set (s2 := mkShown (sh_id s) (sh_rows s1) (sh_ports s1) [] (sh_label s)) in *.
  apply (mark_peers_stage _ _ _ _ _ _ s2 _ E3) in Hat; [|apply lookup_insert_eq|done..].
  rewrite insert_insert_eq in Hat.
  apply (at_upd _ _ _ _ _ _ _ E4), (at_upd _ _ _ _ _ _ _ E5), (at_upd _ _ _ _ _ _ _ E6) in Hat. exact Hat.
Qed.

Lemma label_writes old new id s s1 s2 :
  (if old =? 0 then mret tt else esi_label_del old) s = (s1, Ok tt) →
  (if new =? 0 then mret tt else esi_label_set new id) s1 = (s2, Ok tt) →
  let v := view m_ESI_LABEL (now s) in
  let v := if old =? 0 then v else delete old v in
  now s2 = over m_ESI_LABEL (if new =? 0 then v else <[new := id]> v) (now s).
Proof.
  intros E1 E2 v0 v1. assert (now s1 = over m_ESI_LABEL v1 (now s)) as H1'.
  { unfold v1. destruct (old =? 0); [by injection E1 as <-; unfold v0; rewrite over_view|].
    pose proof (hash_drop_now m_ESI_LABEL old s) as Hn. unfold esi_label_del in E1. by rewrite E1 in Hn. }
  destruct (new =? 0); [injection E2 as <-; done|]. unfold esi_label_set in E2.
  destruct (hash_put_cases m_ESI_LABEL new id s1) as [E|E]; rewrite E in E2; [done|]. apply (f_equal fst) in E2.
  cbn [fst] in E2. subst s2. change (now (committed ?d ?s)) with d. by rewrite H1', view_over, over_over.
Qed.

Lemma label_stage c0 c c' esi st0 st b s : es_render_label esi st0 c = (c', Ok tt) →
  b !! esi = Some s → es_programmed_esi_label st0 = sh_label s → es_id st0 = sh_id s →
  es_programmed_esi_label st = sh_label s →
  (sh_label s ≠ 0 → ¬ others b esi (λ s', sh_label s' = sh_label s)) →
  (es_esi_label st0 ≠ 0 → ¬ others b esi (λ s', sh_label s' = es_esi_label st0)) →
  render_at c0 c esi st b →
  render_at c0 c' esi (set_es_programmed_esi_label (es_esi_label st0) st)
    (<[esi := mkShown (sh_id s) (sh_rows s) (sh_ports s) (sh_peers s) (es_esi_label st0)]> b).
Proof.
  unfold es_render_label. intros E Hb Hl Hid Hst Hold Hnew Hat. rewrite Hl, Hid in E.
  destruct (Z.eqb_spec (sh_label s) (es_esi_label st0)) as [Eq|Hne].
  - injection E as <-. rewrite <- Eq, <- Hst. destruct s, st. cbn. cbn in Hst. subst. by rewrite insert_id.
  - apply bind_inv_M in E as (c1 & [] & (s1 & Hs1 & ->)%on_dp_inv & E).
    apply bind_inv_M in E as (c2 & [] & (s2 & Hs2 & ->)%on_dp_inv & E).
    pose proof (label_writes _ _ _ _ _ _ Hs1 Hs2) as Hn.
    apply (at_upd c0 (set_c_run s2 (set_c_run s1 c)) _ _ _ _ _ E).
    destruct Hat as [Hh Hi Hs [T1 T2 T3 T4]]. split; [done..|]. cbn in Hn |- *. rewrite Hn. split.
    + intros ix bd fl. rewrite board_update. specialize (T1 ix bd fl). by rewrite (board_split b esi s _ Hb) in T1.
    + intros ix id. rewrite board_update. specialize (T2 ix id). by rewrite (board_split b esi s _ Hb) in T2.
    + apply label_set; [done..|by intros ?; apply Hne|done|done].
    + destruct T4 as [P1 P2 P3]. split; [|done..]. intros p i Hp Hi'. rewrite P1 by done. unfold peer_of.
      by rewrite board_update, (board_split b esi s _ Hb).
Qed.

(** ** A whole render *)

Lemma es_render_run esi (c c' : Control) st b s ixs :
  es_render esi c = (c', Ok tt) → et_segments (c_es c) !! esi = Some st → synced st s →
  tables (now (c_run c)) (et_vtep_bits (c_es c)) b → b !! esi = Some s → 0 ≤ sh_id s →
  Forall2 (λ n ix, ifindex_of (c_host c) n = Some ix) (es_ports st) ixs →
  let s1 := wanted st ixs in
  apart b esi s → apart b esi s1 → Forall canon (sh_peers s) → Forall canon (sh_peers s1) →
  ∃ st', render_at c c' esi st' (<[esi := s1]> b) ∧ synced st' s1 ∧ declared st' = declared st.
Proof.
  intros E Hst Hsy Ht Hb Hi Hixs s1 Ha Ha1 Hc Hc1. unfold es_render in E. rewrite bind_get_M, Hst in E.
  apply bind_inv_M in E as (c1 & ixs' & [Hr ->]%resolve_all_inv & E).
  assert (ixs' = ixs) as ->.
  { clear -Hr Hixs. revert ixs' Hr. induction Hixs as [|n ix ns ixs Hn _ IH]; intros ixs' Hr; inversion Hr; subst; [done|].
    f_equal; [congruence|by apply IH]. }
  cbn zeta in E. apply bind_inv_M in E as (c2 & [] & E2 & E). apply bind_inv_M in E as (c3 & [] & E3 & E).
  apply bind_inv_M in E as (c4 & [] & E4 & E5).
  assert (render_at c c esi st b) as Hat by (split; [done|done|by rewrite insert_id|done]).
  destruct (nhg_stage _ _ _ _ _ _ _ E2 Hat) as [g Hat2].
  pose proof (clear_stage _ _ _ _ _ _ _ s E3 Hsy Hb Hi Ha Hc Hat2) as Hat3.
  destruct Hsy as (S1 & S2 & S3 & S4 & S5).
  pose proof (set_stage _ _ _ _ st _ ixs _ s E4 Hb Hi (eq_sym S1) Ha1 Hc1 Hat3) as Hat4. cbn zeta in Hat4. fold s1 in Hat4.
  eapply label_stage in Hat4; [|exact E5|apply lookup_insert_eq|done|done|done| |].
  - rewrite insert_insert_eq in Hat4. cbn [sh_id sh_rows sh_ports sh_peers] in Hat4.
    replace (mkShown (sh_id s) (sh_rows s1) ixs (sh_peers s1) (es_esi_label st)) with s1 in Hat4
      by (unfold s1, wanted; by rewrite S1).
    eexists. split; [exact Hat4|]. destruct st. cbn in *. by subst.
  - apply (apart_upd _ _ _ (mkShown (sh_id s) (sh_rows s1) ixs (sh_peers s1) (sh_label s))) in Ha as (_ & _ & A3 & _). exact A3.
  - apply (apart_upd _ _ _ (mkShown (sh_id s) (sh_rows s1) ixs (sh_peers s1) (sh_label s))) in Ha1 as (_ & _ & A3 & _). exact A3.
Qed.
End es.
