(* ===== verification/HostRef.v ===== *)
(** * A reference host

    One concrete network namespace for the operations of [Control.HostOps],
    and an empty control plane over it.  The theorems hold for every host;
    the witnesses run the requests on this one. *)

From S2P Require Import Prelude.
From S2P Require Import Bpf.
From S2P Require Import MapRefs.
From S2P Require Import Cni.
From S2P Require Import L7.
From S2P Require Import Control.
From S2P Require Import DpPolicy.

(** Links by name with their ifindex, addresses, bonds, routes, and the
    names with programs attached. *)
Record RefHost := mkRefHost {
  rh_links : gmap string Z; rh_next : Z; rh_addrs : list IfAddr; rh_bonds : gmap string (list string);
  rh_routes : list HostRoute; rh_programs : gset string }.

#[global] Instance HostRoute_eq_dec : EqDecision HostRoute.
Proof. solve_decision. Defined.

Definition set_links (f : gmap string Z → gmap string Z) (n : Z) (h : RefHost) : RefHost :=
  mkRefHost (f (rh_links h)) (rh_next h + n) (rh_addrs h) (rh_bonds h) (rh_routes h) (rh_programs h).
Definition set_host_routes (f : list HostRoute → list HostRoute) (h : RefHost) : RefHost :=
  mkRefHost (rh_links h) (rh_next h) (rh_addrs h) (rh_bonds h) (f (rh_routes h)) (rh_programs h).
Definition set_programs (f : gset string → gset string) (h : RefHost) : RefHost :=
  mkRefHost (rh_links h) (rh_next h) (rh_addrs h) (rh_bonds h) (rh_routes h) (f (rh_programs h)).

Definition ref_host : HostOps := {|
  Host := RefHost;
  ifindex_of h n := rh_links h !! n;
  mac_of h n := (λ ix, [2; 0; 0; 0; ix / 256; ix mod 256]) <$> rh_links h !! n;
  lag_members h n := default [] (rh_bonds h !! n);
  getifaddrs h := Some (rh_addrs h);
  attach_programs n h :=
    if bool_decide (is_Some (rh_links h !! n)) then (set_programs (union {[n]}) h, true) else (h, false);
  detach_programs n h := set_programs (λ s, s ∖ {[n]}) h;
  add_veth_pair a b h := (set_links (λ m, <[b := rh_next h + 1]> (<[a := rh_next h]> m)) 2 h, true);
  del_link n h := (set_links (delete n) 0 h, bool_decide (is_Some (rh_links h !! n)));
  replace_route r h := (set_host_routes (λ l, r :: filter (λ x, x ≠ r) l) h, true);
  del_route r h := set_host_routes (filter (λ x, x ≠ r)) h;
|}.

Definition host_with (links : gmap string Z) (addrs : list IfAddr) : RefHost := mkRefHost links 100 addrs ∅ [] ∅.

(** A control plane that has just started over maps [d] and CNI state [s]. *)
Definition fresh_control (h : RefHost) (d : Dp) (s : Store) : @Control ref_host literal_regex :=
  @mkControl ref_host literal_regex h (mkRun d []) ∅ (@mkRouteTable literal_regex ∅ ∅) ∅ ∅ 0 ∅
    (mkEsTable ∅ 0 ∅) (mkEtreeTable ∅ ∅) 0 0 ∅ s ∅ ∅ ∅ [].
