(* ===== verification/EsSpec.v ===== *)
(** * Ethernet Segments: requests against declarations

    The abstract specification of the Ethernet Segment requests of
    [crates/cradle/src/control.rs]: a map of declared segments, and what each
    request makes of it.  The detailed requests refine it: after any history
    of successful ones the packet predicates of [L2] decide what the declared
    segments say. *)

From S2P Require Import Prelude.
From S2P Require Import Contract.
From S2P Require Import Common.
From S2P Require Import Bpf.
From S2P Require Import Maps.
From S2P Require Import L2.
From S2P Require Import MapRefs.
From S2P Require Import Dataplane.
From S2P Require Import DpRun.
From S2P Require Import Cni.
From S2P Require Import L7.
From S2P Require Import Control.
From S2P Require Import CtlRun.
From S2P Require Import EsProps.
From S2P Require Import DpPolicy.
From S2P Require Import HostRef.

(** A declared segment: access ports, the role (forwarder, single-active) of
    each domain, the peer PEs, the ESI label (0 = none). *)
Record Seg := mkSeg { seg_ports : list string; seg_roles : gmap Z (bool * bool); seg_peers : gset IpAddr; seg_label : Z }.
Definition no_seg : Seg := mkSeg [] ∅ ∅ 0.
Abbreviation Segs := (gmap string Seg).

Inductive EsReq : Type :=
| ReqSegment (esi : string) (ports : list string) (label : Z)
| ReqRole (esi : string) (bd : Z) (df single_active : bool)
| ReqPeers (esi : string) (peers : gset IpAddr)
| ReqNhg (esi : string) (bd : Z) (members : list EsNhgMember) (single_active : bool)
| ReqDel (esi : string).

(** A request on an undeclared segment declares it. *)
Definition declare (esi : string) (f : Seg → Seg) (A : Segs) : Segs := <[esi := f (default no_seg (A !! esi))]> A.

Definition spec_es (r : EsReq) (A : Segs) : Segs :=
  match r with
  | ReqSegment esi ports label => declare esi (λ s, mkSeg ports (seg_roles s) (seg_peers s) label) A
  | ReqRole esi bd df sa =>
      declare esi (λ s, mkSeg (seg_ports s) (<[bd := (df, sa)]> (seg_roles s)) (seg_peers s) (seg_label s)) A
  | ReqPeers esi peers => declare esi (λ s, mkSeg (seg_ports s) (seg_roles s) peers (seg_label s)) A
  | ReqNhg esi _ _ _ => declare esi id A
  | ReqDel esi => delete esi A
  end.

Section spec.
Context `{HostOps} `{Regex} `{MapSysLaws}.
Context (canon : IpAddr → Prop)
  (canon_inj : ∀ p q, canon p → canon q → ip_to_v6_bytes p = ip_to_v6_bytes q → p = q).

Definition run_es (r : EsReq) : Ctrl unit :=
  match r with
  | ReqSegment esi ports label => set_ethernet_segment esi ports label
  | ReqRole esi bd df sa => set_es_role esi bd df sa
  | ReqPeers esi peers => set_es_peers esi peers
  | ReqNhg esi bd members sa => set_es_nhg esi bd members sa
  | ReqDel esi => del_ethernet_segment esi
  end.

(** The operator's side: ports exist, and belong to one segment; peers are
    canonical addresses; labels tell segments apart. *)
Definition well_declared (h : Host) (A : Segs) : Prop :=
  (∀ esi sg, A !! esi = Some sg →
     Forall (λ n, is_Some (ifindex_of h n)) (seg_ports sg) ∧ Forall canon (elements (seg_peers sg))) ∧
  (∀ esi esi' sg sg', A !! esi = Some sg → A !! esi' = Some sg' → esi ≠ esi' →
     (∀ n n', n ∈ seg_ports sg → n' ∈ seg_ports sg' → ifindex_of h n ≠ ifindex_of h n') ∧
     (seg_label sg ≠ 0 → seg_label sg ≠ seg_label sg')).

(** The ifindexes of a segment's ports. *)
Definition port_indexes (h : Host) (names : list string) (ixs : list Z) : Prop :=
  Forall2 (λ n ix, ifindex_of h n = Some ix) names ixs.

Record seg_ok (h : Host) (st : EsState) (s : Shown) (sg : Seg) : Prop := mkSegOk {
  so_synced : synced st s;
  so_wanted : ∃ ixs, port_indexes h (seg_ports sg) ixs ∧ s = wanted st ixs;
  so_ports : es_ports st = seg_ports sg;
  so_roles : es_roles st = seg_roles sg;
  so_peers : es_peers st = seg_peers sg;
  so_label : es_esi_label st = seg_label sg }.

Definition agree (h : Host) (o : option EsState) (s : option Shown) (a : option Seg) : Prop :=
  match o, s, a with
  | Some st, Some s, Some sg => seg_ok h st s sg
  | None, None, None => True
  | _, _, _ => False
  end.

Record es_ok (c : @Control _ _) (b : Board) (A : Segs) : Prop := mkEsOk {
  eo_tables : tables canon (now (c_run c)) (et_vtep_bits (c_es c)) b;
  eo_agree : ∀ esi, agree (c_host c) (et_segments (c_es c) !! esi) (b !! esi) (A !! esi);
  eo_ids : ids_ok (c_es c) }.

Lemma port_indexes_in h names ixs ix : port_indexes h names ixs → ix ∈ ixs → ∃ n, n ∈ names ∧ ifindex_of h n = Some ix.
Proof.
  intros Hf (i & Hi)%list_elem_of_lookup. destruct (Forall2_lookup_r _ _ _ _ _ Hf Hi) as (n & Hn & He).
  exists n. split; [by eapply list_elem_of_lookup_2|done].
Qed.
Lemma port_indexes_total h names : Forall (λ n, is_Some (ifindex_of h n)) names → ∃ ixs, port_indexes h names ixs.
Proof.
  induction 1 as [|n names [ix Hn] _ [ixs IH]]; [by exists []; constructor|]. exists (ix :: ixs). by constructor.
Qed.

Lemma agree_board h o s a sh : agree h o s a → s = Some sh → ∃ st sg, o = Some st ∧ a = Some sg ∧ seg_ok h st sh sg.
Proof. intros Ha ->. destruct o, a; try done. eauto. Qed.

Lemma elem_ip_elements p s : p ∈ ip_elements s ↔ p ∈ s.
Proof. unfold ip_elements. by rewrite merge_sort_Permutation, elem_of_elements. Qed.

(** A segment declared as [sg] is apart from the others. *)
Lemma apart_declared c b A esi st s sg ixs : es_ok c b A → well_declared (c_host c) (<[esi := sg]> A) →
  port_indexes (c_host c) (seg_ports sg) ixs → es_roles st = seg_roles sg → es_esi_label st = seg_label sg →
  et_segments (c_es c) !! esi = Some s → es_id st = es_id s →
  apart b esi (wanted st ixs).
Proof.
  intros [_ Hag [_ Hinj]] [_ Hwd] Hix Hro Hla Hs Hid.
  assert (∀ Q, others b esi Q → ∃ esi' st' sg' ixs', esi' ≠ esi ∧ A !! esi' = Some sg' ∧
    et_segments (c_es c) !! esi' = Some st' ∧ es_esi_label st' = seg_label sg' ∧
    port_indexes (c_host c) (seg_ports sg') ixs' ∧ Q (wanted st' ixs')) as Ho.
  { intros Q (e & s' & Hne & He & HQ). destruct (agree_board _ _ _ _ _ (Hag e) He) as (st' & sg' & ? & ? & Hok).
    destruct (so_wanted _ _ _ _ Hok) as (ixs' & Hix' & ->). exists e, st', sg', ixs'. split_and!; try done. apply Hok. }
  assert (∀ esi' sg', esi' ≠ esi → A !! esi' = Some sg' →
     (∀ n n', n ∈ seg_ports sg → n' ∈ seg_ports sg' → ifindex_of (c_host c) n ≠ ifindex_of (c_host c) n') ∧
     (seg_label sg ≠ 0 → seg_label sg ≠ seg_label sg')) as Hw.
  { intros e sg' Hne He. apply (Hwd esi e); [apply lookup_insert_eq|by rewrite lookup_insert_ne|done]. }
  split_and!; cbn [wanted sh_ports sh_rows sh_label sh_id].
  - intros ix Hin (e & st' & sg' & ixs' & Hne & He & _ & _ & Hix' & Hin')%Ho. cbn in Hin'.
    destruct (port_indexes_in _ _ _ _ Hix Hin) as (n & Hn & E1).
    destruct (port_indexes_in _ _ _ _ Hix' Hin') as (n' & Hn' & E2).
    destruct (Hw e sg' Hne He) as [Hp _]. apply (Hp n n' Hn Hn'). congruence.
  - intros [[ix bd] fl] (Hin & _)%es_rows_spec. done.
  - intros Hz (e & st' & sg' & ixs' & Hne & He & _ & Hl & _ & E)%Ho. cbn in E.
    destruct (Hw e sg' Hne He) as [_ Hl']. rewrite Hla in *. apply Hl'; congruence.
  - intros (e & st' & sg' & ixs' & Hne & _ & He & _ & _ & E)%Ho. cbn in E. apply Hne.
    apply (Hinj e esi st' s); [done..|congruence].
  - intros (e & st' & sg' & ixs' & _ & _ & _ & _ & _ & [[ix bd] fl] & (Hin & _)%es_rows_spec & Hn)%Ho. done.
Qed.

(** ** Entries *)

Lemma tables_add d bits b esi id : b !! esi = None → tables canon d bits b →
  tables canon d bits (<[esi := mkShown id [] [] [] 0]> b).
Proof.
  intros Hb [T1 T2 T3 [P1 P2 P3]].
  assert (∀ Q, (∃ e s, b !! e = Some s ∧ Q s) ↔ others b esi Q) as Ho.
  { intros Q. split; [intros (e & s & He & HQ)|intros (e & s & _ & He & HQ)]; exists e, s; [|done].
    split; [congruence|done]. }
  split; [..|split; [|done..]].
  - intros ix bd fl. rewrite board_update, (T1 ix bd fl), Ho. cbn. set_solver.
  - intros ix i. rewrite board_update, (T2 ix i), Ho. cbn. set_solver.
  - intros l i. rewrite board_update, (T3 l i), Ho. cbn. naive_solver.
  - intros p i Hp Hi. rewrite P1 by done. unfold peer_of. rewrite board_update, Ho. cbn. set_solver.
Qed.

Lemma es_entry_run esi (c c1 : Control) st b A : es_entry esi c = (c1, Ok st) → es_ok c b A →
  ∃ b', es_ok c1 b' (declare esi id A) ∧ et_segments (c_es c1) !! esi = Some st ∧ c_host c1 = c_host c.
Proof.
  intros E Hok. pose proof (eo_agree _ _ _ Hok esi) as Hag.
  apply es_entry_cases in E as [[Hs ->]|(i & Hi & Hbit & Hs & -> & ->)]; rewrite Hs in Hag.
  - exists b. split_and!; [|done..].
    destruct (b !! esi), (A !! esi) as [sg|] eqn:Ha; try done. unfold declare. rewrite Ha. cbn. by rewrite insert_id.
  - destruct (b !! esi) eqn:Hb; [done|]. destruct (A !! esi) eqn:Ha; [done|].
    exists (<[esi := mkShown i [] [] [] 0]> b). split; [|split; [apply lookup_insert_eq|done]].
    destruct Hok as [Ht Hall Hids]. split; cbn.
    + by apply tables_add.
    + intros e. unfold declare. rewrite Ha. destruct (decide (e = esi)) as [->|Hne].
      * rewrite !lookup_insert_eq. cbn. split; [done| |done..]. exists []. split; [constructor|done].
      * rewrite !lookup_insert_ne by done. apply Hall.
    + by apply ids_ok_new.
Qed.

(** ** Redeclaring a segment *)

Definition matches (st : EsState) (sg : Seg) : Prop :=
  es_ports st = seg_ports sg ∧ es_roles st = seg_roles sg ∧ es_peers st = seg_peers sg ∧ es_esi_label st = seg_label sg.

(** [f] changes what is declared and nothing of what is programmed. *)
Definition declares (f : EsState → EsState) (g : Seg → Seg) : Prop :=
  (∀ st s, synced st s → synced (f st) s) ∧ (∀ st sg, matches st sg → matches (f st) (g sg)).

Lemma redeclare esi f g (c c' : Control) b A sg :
  (_ ← upd_segment esi f; es_render esi) c = (c', Ok tt) → declares f g →
  es_ok c b A → A !! esi = Some sg → well_declared (c_host c) A → well_declared (c_host c) (<[esi := g sg]> A) →
  ∃ b', es_ok c' b' (<[esi := g sg]> A) ∧ c_host c' = c_host c ∧
    es_id <$> et_segments (c_es c') !! esi = es_id <$> et_segments (c_es c) !! esi.
Proof.
  intros E [Hf Hg] Hok HA Hw Hw'. apply bind_inv_M in E as (c1 & [] & ->%upd_segment_run & E).
  pose proof (eo_agree _ _ _ Hok esi) as Hag. rewrite HA in Hag.
  destruct (et_segments (c_es c) !! esi) as [st|] eqn:Hs, (b !! esi) as [s|] eqn:Hb; try done. cbn in Hag.
  destruct Hag as [Hsy (ixs & Hix & ->) Hp Hr Hpe Hl].
  destruct (Hg st sg) as (Gp & Gr & Gpe & Gl); [done|].
  assert (es_id (f st) = es_id st) as Hid by (destruct (Hf _ _ Hsy) as [-> _]; done).
  destruct (proj1 Hw' esi (g sg) ltac:(apply lookup_insert_eq)) as [Hres Hcan].
  destruct (port_indexes_total _ _ Hres) as [ixs' Hix'].
  assert (well_declared (c_host c) (<[esi := sg]> A)) as Hw0 by by rewrite insert_id.
  assert (Forall canon (ip_elements (es_peers st))) as Hc0.
  { rewrite Forall_forall. intros p Hin%elem_ip_elements. rewrite Hpe in Hin.
    destruct (proj1 Hw esi sg HA) as [_ Hcan0]. rewrite Forall_forall in Hcan0. apply Hcan0. by apply elem_of_elements. }
  assert (Forall canon (ip_elements (es_peers (f st)))) as Hc1.
  { rewrite Forall_forall. intros p Hin%elem_ip_elements. rewrite Gpe in Hin. rewrite Forall_forall in Hcan.
    apply Hcan. by apply elem_of_elements. }
  destruct (io_ids _ (eo_ids _ _ _ Hok) esi st Hs) as [Hidr Hidb].
  eapply (es_render_run canon canon_inj _ _ _ (f st) b (wanted st ixs) ixs') in E.
  - destruct E as (st' & [Rh Ri Rs Rt] & Hsy' & Hde). cbn in Rh, Ri, Rs.
    assert (es_id st' = es_id st ∧ matches st' (g sg)) as (Hid' & Mp & Mr & Mpe & Ml).
    { injection Hde as D1 D2 D3 D4 D5. unfold matches. split; [congruence|]. split_and!; congruence. }
    exists (<[esi := wanted (f st) ixs']> b). split; [|split; [done|by rewrite Rs, lookup_insert_eq; cbn; rewrite Hid']].
    destruct Hok as [Ht Hall Hids]. split.
    + done.
    + intros e. rewrite Rs, Rh. destruct (decide (e = esi)) as [->|Hne].
      * rewrite !lookup_insert_eq. cbn. split; [done| |done..]. exists ixs'. split; [done|].
        unfold wanted. injection Hde as D1 D2 D3 D4 D5. by rewrite D1, D3, D4, D5.
      * rewrite !lookup_insert_ne by done. rewrite lookup_alter_ne by done. apply Hall.
    + apply (ids_ok_same _ _ Hids); [|done]. intros e. rewrite Rs. destruct (decide (e = esi)) as [->|Hne].
      * rewrite lookup_insert_eq, Hs. cbn. by rewrite Hid'.
      * by rewrite lookup_insert_ne, lookup_alter_ne.
  - cbn. by rewrite lookup_alter_eq, Hs.
  - by apply Hf.
  - cbn. apply Hok.
  - done.
  - cbn. lia.
  - cbn. by rewrite Gp.
  - eapply (apart_declared c b A esi st st sg); done.
  - eapply (apart_declared c b A esi (f st) st (g sg)); done.
  - done.
  - done.
Qed.

(** ** One request *)

Lemma well_declared_blank h A esi : well_declared h A → well_declared h (<[esi := no_seg]> A).
Proof.
  intros [W1 W2]. split.
  - intros e sg. destruct (decide (e = esi)) as [->|Hne].
    + rewrite lookup_insert_eq. intros [= <-]. cbn. rewrite elements_empty. by split.
    + rewrite lookup_insert_ne by done. apply W1.
  - intros e e' sg sg'. destruct (decide (e = esi)) as [->|Hne], (decide (e' = esi)) as [->|Hne'];
      rewrite ?lookup_insert_eq, ?lookup_insert_ne by done; [done| | |apply W2].
    + intros [= <-] _ _. split; [set_solver|done].
    + intros _ [= <-] _. split; [set_solver|done].
Qed.
Lemma well_declared_entry h A esi : well_declared h A → well_declared h (declare esi id A).
Proof.
  intros Hw. unfold declare. destruct (A !! esi) as [sg|] eqn:Ha; cbn; [by rewrite insert_id|by apply well_declared_blank].
Qed.

Lemma tables_remove d bits b esi s : b !! esi = Some s → blank s = s → sh_label s = 0 → tables canon d bits b →
  tables canon d bits (delete esi b).
Proof.
  intros Hb Hbl Hl [T1 T2 T3 [P1 P2 P3]]. unfold blank in Hbl. destruct s as [i rows ports peers l]. cbn in *.
  injection Hbl as <- <- <-. subst l.
  assert (∀ Q, (∃ e s, delete esi b !! e = Some s ∧ Q s) ↔ others b esi Q) as Ho.
  { intros Q. unfold others. split; intros (e & s & He); exists e, s.
    - destruct He as [He ?]. apply lookup_delete_Some in He as [? ?]. naive_solver.
    - destruct He as (? & ? & ?). rewrite lookup_delete_ne by done. done. }
  split; [..|split; [|done..]].
  - intros ix bd fl. rewrite Ho, (T1 ix bd fl), (board_split b esi _ _ Hb). cbn. set_solver.
  - intros ix j. rewrite Ho, (T2 ix j), (board_split b esi _ _ Hb). cbn. set_solver.
  - intros l j. rewrite Ho, (T3 l j), (board_split b esi _ _ Hb). cbn. naive_solver.
  - intros p j Hp Hj. rewrite P1 by done. unfold peer_of. rewrite Ho, (board_split b esi _ _ Hb). cbn. set_solver.
Qed.

Lemma declare_step esi f g (c c' : Control) b A :
  (_ ← es_entry esi; _ ← upd_segment esi f; es_render esi) c = (c', Ok tt) → declares f g →
  es_ok c b A → well_declared (c_host c) A → well_declared (c_host c) (declare esi g A) →
  ∃ b', es_ok c' b' (declare esi g A) ∧ c_host c' = c_host c.
Proof.
  intros (c1 & st & E1 & E)%bind_inv_M Hd Hok Hw Hw'.
  destruct (es_entry_run _ _ _ _ _ _ E1 Hok) as (b1 & Hok1 & Hs1 & Hh1).
  set (sg := default no_seg (A !! esi)).
  assert (<[esi := g sg]> (declare esi id A) = declare esi g A) as HA
    by (unfold declare; by rewrite insert_insert_eq).
  edestruct (redeclare esi f g c1 c' b1 (declare esi id A) sg E Hd Hok1) as (b' & Hok' & Hh' & _).
  - unfold declare. apply lookup_insert_eq.
  - rewrite Hh1. by apply well_declared_entry.
  - by rewrite Hh1, HA.
  - exists b'. rewrite HA in Hok'. split; [done|congruence].
Qed.

Lemma del_step esi (c c' : Control) b A : del_ethernet_segment esi c = (c', Ok tt) →
  es_ok c b A → well_declared (c_host c) A → ∃ b', es_ok c' b' (delete esi A) ∧ c_host c' = c_host c.
Proof.
  unfold del_ethernet_segment. rewrite bind_get_M. intros E Hok Hw. pose proof (eo_agree _ _ _ Hok esi) as Hag.
  destruct (et_segments (c_es c) !! esi) as [st|] eqn:Hs.
  2:{ injection E as <-. destruct (b !! esi), (A !! esi) eqn:Ha; try done. exists b. by rewrite delete_id. }
  destruct (b !! esi) as [s|], (A !! esi) as [sg|] eqn:Ha; try done.
  apply bind_inv_M in E as (c1 & [] & E1 & E). apply bind_inv_M in E as (c2 & [] & E2 & E).
  assert ((_ ← upd_segment esi clear_segment; es_render esi) c = (c2, Ok tt)) as E12 by by rewrite (bind_ok_M _ _ _ _ _ E1).
  edestruct (redeclare esi clear_segment (λ _, no_seg) c c2 b A sg E12) as (b2 & Hok2 & Hh2 & Hi2); [|done..| |].
  { split; [|by intros]. intros st' s' (? & ? & ? & ? & ?). by destruct st'. }
  { by apply well_declared_blank. }
  apply bind_inv_M in E as (c3 & [] & E3 & E). injection E3 as <-. injection E as <-. exists (delete esi b2). split; [|done].
  destruct Hok2 as [Ht Hall Hids]. pose proof (Hall esi) as Hag2. rewrite lookup_insert_eq in Hag2.
  destruct (et_segments (c_es c2) !! esi) as [st2|] eqn:Hs2, (b2 !! esi) as [s2|] eqn:Hb2; try done. cbn in Hag2.
  assert (es_id st2 = es_id st) as Hid by (rewrite Hs in Hi2; by injection Hi2).
  destruct (io_ids _ (eo_ids _ _ _ Hok) esi st Hs) as [Hidr _].
  split; cbn.
  - eapply tables_remove; [done| | |done]; destruct Hag2 as [_ (ixs & Hix & ->) Hp Hr Hpe Hl]; [|done].
    inversion Hix; subst. unfold wanted, blank. cbn. by rewrite Hpe.
  - intros e. destruct (decide (e = esi)) as [->|Hne]; [by rewrite !lookup_delete_eq|].
    rewrite !lookup_delete_ne by done. specialize (Hall e). by rewrite lookup_insert_ne in Hall.
  - rewrite <- Hid. by apply (ids_ok_delete (c_es c2) esi st2).
Qed.

Lemma run_es_step r (c c' : Control) b A : run_es r c = (c', Ok tt) → es_ok c b A →
  well_declared (c_host c) A → well_declared (c_host c) (spec_es r A) →
  ∃ b', es_ok c' b' (spec_es r A) ∧ c_host c' = c_host c.
Proof.
  intros E Hok Hw Hw'. destruct r as [esi ports label|esi bd df sa|esi peers|esi bd ms sa|esi]; cbn [run_es spec_es] in *.
  - eapply declare_step; [exact E| |done..]. split; [by intros st s; destruct st|]. intros st sg (? & ? & ? & ?). by destruct st.
  - eapply declare_step; [exact E| |done..]. split; [by intros st s; destruct st|].
    intros st sg (? & Hr & ? & ?). unfold matches. cbn. by rewrite Hr.
  - eapply declare_step; [exact E| |done..]. split; [by intros st s; destruct st|]. intros st sg (? & ? & ? & ?). by destruct st.
  - apply bind_inv_M in E as (c1 & parsed & [_ ->]%of_res_inv & E).
    eapply declare_step; [exact E| |done..]. split; [by intros st s; destruct st|]. intros st sg (? & ? & ? & ?). by destruct st.
  - by eapply del_step.
Qed.

(** ** What the packets see *)

Definition non_df (sg : Seg) (bd : Z) : bool :=
  match seg_roles sg !! bd with Some (false, _) => true | _ => false end.
Definition blocked (sg : Seg) (bd : Z) : bool :=
  match seg_roles sg !! bd with Some (false, true) => true | _ => false end.

(** [ix] is an access port of [sg]. *)
Definition on_segment (h : Host) (sg : Seg) (ix : Z) : Prop := ∃ n, n ∈ seg_ports sg ∧ ifindex_of h n = Some ix.

(** The predicates of the data plane on port [ix] of segment [sg], for every
    domain, source PE and domain's VXLAN marks. *)
Definition serves (d : Dp) (sg : Seg) (ix : Z) : Prop :=
  (∀ bd, @es_non_df (dp_l2 d) ix bd = non_df sg bd ∧ @es_blocked (dp_l2 d) ix bd = blocked sg bd) ∧
  (∀ p, canon p → @es_peer_port (dp_l2 d) ix (@vtep6_es_bits (dp_l2 d) (ip_to_v6_bytes p)) = bool_decide (p ∈ seg_peers sg)) ∧
  (∀ p bd, canon p →
     @es_peer_port (dp_l2 d) ix (@vtep6_vxlan_bits (dp_l2 d) (ip_to_v6_bytes p) bd) = bool_decide (p ∈ seg_peers sg)) ∧
  (seg_label sg ≠ 0 → ∃ id, @ESI_LABEL (dp_l2 d) !! seg_label sg = Some id ∧ @es_peer_port (dp_l2 d) ix (1 ≪ (id .& 63)) = true).

(** A port of no segment is unrestricted. *)
Definition unrestricted (d : Dp) (ix : Z) : Prop :=
  (∀ bd, @es_non_df (dp_l2 d) ix bd = false ∧ @es_blocked (dp_l2 d) ix bd = false) ∧
  ∀ bits, @es_peer_port (dp_l2 d) ix bits = false.

Definition implements (h : Host) (d : Dp) (A : Segs) : Prop :=
  (∀ esi sg ix, A !! esi = Some sg → on_segment h sg ix → serves d sg ix) ∧
  (∀ ix, (∀ esi sg, A !! esi = Some sg → ¬ on_segment h sg ix) → unrestricted d ix) ∧
  (∀ l id, @ESI_LABEL (dp_l2 d) !! l = Some id → ∃ esi sg, A !! esi = Some sg ∧ seg_label sg = l).

Lemma port_indexes_elem h names ixs n ix : port_indexes h names ixs → n ∈ names → ifindex_of h n = Some ix → ix ∈ ixs.
Proof.
  intros Hf (i & Hi)%list_elem_of_lookup Hn. destruct (Forall2_lookup_l _ _ _ _ _ Hf Hi) as (ix' & Hix & He).
  assert (ix' = ix) as -> by congruence. by eapply list_elem_of_lookup_2.
Qed.

Lemma shown_port_unique c b A esi esi' s s' ix : es_ok c b A → well_declared (c_host c) A →
  b !! esi = Some s → b !! esi' = Some s' → ix ∈ sh_ports s → ix ∈ sh_ports s' → esi = esi'.
Proof.
  intros [_ Hag _] [_ Hw] Hs Hs' Hin Hin'.
  destruct (agree_board _ _ _ _ _ (Hag esi) Hs) as (st & sg & _ & Ha & [_ (ixs & Hix & ->) _ _ _ _]).
  destruct (agree_board _ _ _ _ _ (Hag esi') Hs') as (st' & sg' & _ & Ha' & [_ (ixs' & Hix' & ->) _ _ _ _]).
  destruct (decide (esi = esi')) as [|Hne]; [done|]. destruct (Hw esi esi' sg sg' Ha Ha' Hne) as [Hp _]. cbn in Hin, Hin'.
  destruct (port_indexes_in _ _ _ _ Hix Hin) as (n & Hn & E1).
  destruct (port_indexes_in _ _ _ _ Hix' Hin') as (n' & Hn' & E2). destruct (Hp n n' Hn Hn'). congruence.
Qed.

Lemma df_lookup c b A ix bd : es_ok c b A →
  @es_df_flags (dp_l2 (now (c_run c))) ix bd = default 0 (view m_ES_DF (now (c_run c)) !! mkEsDfKey ix bd).
Proof. done. Qed.

Lemma ok_df c b A esi sg ix : es_ok c b A → well_declared (c_host c) A → A !! esi = Some sg →
  on_segment (c_host c) sg ix → ∀ bd,
  @es_non_df (dp_l2 (now (c_run c))) ix bd = non_df sg bd ∧ @es_blocked (dp_l2 (now (c_run c))) ix bd = blocked sg bd.
Proof.
  intros Hok Hw Ha (n & Hn & Hix) bd. pose proof (eo_agree _ _ _ Hok esi) as Hag. rewrite Ha in Hag.
  destruct (et_segments _ !! esi) as [st|], (b !! esi) as [s|] eqn:Hs; try done. cbn in Hag.
  destruct Hag as [_ (ixs & Hixs & ->) _ Hr _ _]. pose proof (port_indexes_elem _ _ _ _ _ Hixs Hn Hix) as Hin.
  pose proof (tb_df _ _ _ _ (eo_tables _ _ _ Hok) ix bd) as Hd.
  unfold es_non_df, es_blocked, non_df, blocked. rewrite (df_lookup c b A) by done.
  destruct (view m_ES_DF (now (c_run c)) !! mkEsDfKey ix bd) as [fl|].
  - destruct (proj1 (Hd fl) eq_refl) as (esi' & s' & Hs' & Hrow).
    assert (esi' = esi) as ->.
    { eapply (shown_port_unique c b A _ _ s' _ ix); [done|done|exact Hs'|exact Hs| |exact Hin].
      destruct (agree_board _ _ _ _ _ (eo_agree _ _ _ Hok esi') Hs') as (st' & sg' & _ & _ & [_ (ixs' & _ & ->) _ _ _ _]).
      by apply es_rows_spec in Hrow as [? _]. }
    rewrite Hs in Hs'. injection Hs' as <-. apply es_rows_spec in Hrow as (_ & sa & Hro & ->). rewrite <- Hr, Hro.
    by destruct sa.
  - rewrite <- Hr. destruct (es_roles st !! bd) as [[[] sa]|] eqn:Hro; try done. exfalso.
    set (fl := if sa then ES_DF_F_NON_DF .| ES_DF_F_BLOCK else ES_DF_F_NON_DF).
    discriminate (proj2 (Hd fl)). exists esi, (wanted st ixs). split; [done|]. apply es_rows_spec. eauto.
Qed.

Lemma ok_port c b A esi s ix : es_ok c b A → b !! esi = Some s → ix ∈ sh_ports s →
  @PORT_ES (dp_l2 (now (c_run c))) !! ix = Some (sh_id s) ∧ 0 ≤ sh_id s ≤ MAX_ES_ID.
Proof.
  intros Hok Hs Hin. split.
  - apply (tb_ports _ _ _ _ (eo_tables _ _ _ Hok)). eauto.
  - destruct (agree_board _ _ _ _ _ (eo_agree _ _ _ Hok esi) Hs) as (st & sg & Hst & _ & [(<- & _) _ _ _ _ _]).
    by apply (io_ids _ (eo_ids _ _ _ Hok) esi st).
Qed.

Lemma es_bit id : 0 ≤ id ≤ MAX_ES_ID → id .& 63 = id.
Proof.
  unfold MAX_ES_ID. intros Hid. change 63 with (2 ^ 6 - 1). rewrite land_ones' by lia. apply Z.mod_small. lia.
Qed.

Lemma peer_port_bit c b A esi s ix bits : es_ok c b A → b !! esi = Some s → ix ∈ sh_ports s →
  @es_peer_port (dp_l2 (now (c_run c))) ix bits = Z.testbit bits (sh_id s).
Proof.
  intros Hok Hs Hin. destruct (ok_port _ _ _ _ _ _ Hok Hs Hin) as [Hp Hid]. unfold es_peer_port. rewrite Hp, es_bit by done.
  rewrite Z.shiftl_1_l. apply has_pow2. lia.
Qed.

Lemma ok_peers c b A esi st s sg p : es_ok c b A → b !! esi = Some s → A !! esi = Some sg →
  et_segments (c_es c) !! esi = Some st → canon p →
  Z.testbit (default 0 (@VTEP_ES (dp_l2 (now (c_run c))) !! ip_to_v6_bytes p)) (sh_id s) = bool_decide (p ∈ seg_peers sg).
Proof.
  intros Hok Hs Ha Hst Hp. pose proof (eo_agree _ _ _ Hok esi) as Hag. rewrite Hs, Ha, Hst in Hag. cbn in Hag.
  destruct Hag as [(Hid & _) (ixs & _ & ->) _ _ Hpe _]. cbn [wanted sh_id] in *.
  destruct (io_ids _ (eo_ids _ _ _ Hok) esi st Hst) as [Hr _].
  destruct (tb_peers _ _ _ _ (eo_tables _ _ _ Hok)) as [P1 P2 _]. specialize (P2 p Hp).
  change (@VTEP_ES (dp_l2 (now (c_run c)))) with (view m_VTEP_ES (now (c_run c))). rewrite P2.
  apply Bool.eq_iff_eq_true. rewrite P1, bool_decide_eq_true by (done || lia). split.
  - intros (esi' & s' & Hs' & Hin & Heq).
    destruct (agree_board _ _ _ _ _ (eo_agree _ _ _ Hok esi') Hs') as (st' & sg' & Hst' & _ & [(Hid' & _) (ixs' & _ & ->) _ _ _ _]).
    cbn in Hin, Heq. assert (esi' = esi) as -> by (apply (io_inj _ (eo_ids _ _ _ Hok) esi' esi st' st); done).
    rewrite Hst in Hst'. injection Hst' as <-. rewrite <- Hpe. by apply elem_ip_elements.
  - intros Hin. exists esi, (wanted st ixs). split_and!; [done| |done]. cbn. apply elem_ip_elements. by rewrite Hpe.
Qed.

Lemma ok_implements c b A : es_ok c b A → well_declared (c_host c) A → implements (c_host c) (now (c_run c)) A.
Proof.
  intros Hok Hw. split; [|split].
  - intros esi sg ix Ha Hon. pose proof (ok_df _ _ _ _ _ _ Hok Hw Ha Hon) as Hdf.
    destruct Hon as (n & Hn & Hix). pose proof (eo_agree _ _ _ Hok esi) as Hag. rewrite Ha in Hag.
    destruct (et_segments _ !! esi) as [st|] eqn:Hst, (b !! esi) as [s|] eqn:Hs; try done. cbn in Hag.
    destruct Hag as [_ (ixs & Hixs & Hsw) _ _ _ Hla]. pose proof (port_indexes_elem _ _ _ _ _ Hixs Hn Hix) as Hin.
    assert (ix ∈ sh_ports s) as Hin' by by subst s. destruct (ok_port _ _ _ _ _ _ Hok Hs Hin') as [_ Hid].
    split_and!; [exact Hdf|..].
    + intros p Hp. rewrite (peer_port_bit c b A esi s) by done. by eapply ok_peers.
    + intros p bd Hp. rewrite (peer_port_bit c b A esi s) by done. rewrite <- (ok_peers c b A esi st s sg p) by done.
      unfold vtep6_vxlan_bits, vtep_bd_bits. cbn [vb_addr]. destruct (VTEP_ETREE !! _); [|done].
      rewrite Z.lor_spec. unfold ES_BITS_ETREE_LEAF. rewrite Z.pow2_bits_false by (unfold MAX_ES_ID in Hid; lia).
      apply orb_false_r.
    + intros Hl. exists (sh_id s). split.
      * apply (tb_labels _ _ _ _ (eo_tables _ _ _ Hok)). exists esi, s. split_and!; [done| |done..]. by subst s.
      * rewrite (peer_port_bit c b A esi s), es_bit by done. rewrite Z.shiftl_1_l. apply Z.pow2_bits_true. lia.
  - intros ix Hno.
    assert (∀ esi s, b !! esi = Some s → ix ∉ sh_ports s) as Hout.
    { intros esi s Hs Hin. destruct (agree_board _ _ _ _ _ (eo_agree _ _ _ Hok esi) Hs) as (st & sg & _ & Ha & [_ (ixs & Hix & ->) _ _ _ _]).
      destruct (port_indexes_in _ _ _ _ Hix Hin) as (n & Hn & E). by destruct (Hno esi sg Ha); exists n. }
    split.
    + intros bd. unfold es_non_df, es_blocked. rewrite (df_lookup c b A) by done.
      destruct (view m_ES_DF (now (c_run c)) !! mkEsDfKey ix bd) as [fl|] eqn:E; [|done].
      apply (tb_df _ _ _ _ (eo_tables _ _ _ Hok)) in E as (esi & s & Hs & Hrow). destruct (Hout esi s Hs).
      destruct (agree_board _ _ _ _ _ (eo_agree _ _ _ Hok esi) Hs) as (st & sg & _ & _ & [_ (ixs & Hix & ->) _ _ _ _]).
      by apply es_rows_spec in Hrow as [? _].
    + intros bits. unfold es_peer_port. destruct (PORT_ES !! ix) as [id|] eqn:E; [|done].
      apply (tb_ports _ _ _ _ (eo_tables _ _ _ Hok)) in E as (esi & s & Hs & Hin & _). by destruct (Hout esi s Hs).
  - intros l id E. apply (tb_labels _ _ _ _ (eo_tables _ _ _ Hok)) in E as (esi & s & Hs & Hl & _).
    destruct (agree_board _ _ _ _ _ (eo_agree _ _ _ Hok esi) Hs) as (st & sg & _ & Ha & [_ (ixs & Hix & ->) _ _ _ Hla]).
    exists esi, sg. split; [done|]. by rewrite <- Hla.
Qed.

(** ** Histories *)

(** What the requests declare, one after the other. *)
Definition spec_all (rs : list EsReq) (A : Segs) : Segs := foldl (λ A r, spec_es r A) A rs.

Lemma run_all_step rs (c c' : Control) b A : each run_es rs c = (c', Ok tt) → es_ok c b A →
  (∀ n, well_declared (c_host c) (spec_all (take n rs) A)) →
  ∃ b', es_ok c' b' (spec_all rs A) ∧ c_host c' = c_host c.
Proof.
  revert c b A. induction rs as [|r rs IH]; intros c b A E Hok Hw.
  - injection E as <-. by exists b.
  - apply each_cons_inv in E as (c1 & E1 & E2).
    assert (well_declared (c_host c) A) as W0 by apply (Hw O).
    assert (well_declared (c_host c) (spec_es r A)) as W1 by apply (Hw 1%nat).
    destruct (run_es_step r c c1 b A E1 Hok W0 W1) as (b1 & Hok1 & Hh1).
    destruct (IH c1 b1 (spec_es r A) E2 Hok1) as (b' & Hok' & Hh'); [|exists b'; split; [done|congruence]].
    intros n. rewrite Hh1. exact (Hw (S n)).
Qed.

(** No segment and no row. *)
Definition no_segments (c : @Control _ _) : Prop :=
  et_segments (c_es c) = ∅ ∧ et_vtep_bits (c_es c) = ∅ ∧
  @ES_DF (dp_l2 (now (c_run c))) = ∅ ∧ @PORT_ES (dp_l2 (now (c_run c))) = ∅ ∧
  @VTEP_ES (dp_l2 (now (c_run c))) = ∅ ∧ @ESI_LABEL (dp_l2 (now (c_run c))) = ∅.

Lemma no_segments_ok c : no_segments c → es_ok c ∅ ∅.
Proof.
  intros (E1 & E2 & E3 & E4 & E5 & E6). split.
  - split; [..|split].
    + intros ix bd fl. change (view m_ES_DF (now (c_run c))) with (@ES_DF (dp_l2 (now (c_run c)))). rewrite E3, lookup_empty.
      split; [done|]. intros (e & s & He & _). by rewrite lookup_empty in He.
    + intros ix i. change (view m_PORT_ES (now (c_run c))) with (@PORT_ES (dp_l2 (now (c_run c)))). rewrite E4, lookup_empty.
      split; [done|]. intros (e & s & He & _). by rewrite lookup_empty in He.
    + intros l i. change (view m_ESI_LABEL (now (c_run c))) with (@ESI_LABEL (dp_l2 (now (c_run c)))). rewrite E6, lookup_empty.
      split; [done|]. intros (e & s & He & _). by rewrite lookup_empty in He.
    + intros p i _ _. rewrite E2, lookup_empty. cbn. rewrite Z.bits_0. split; [done|].
      intros (e & s & He & _). by rewrite lookup_empty in He.
    + intros p _. change (view m_VTEP_ES (now (c_run c))) with (@VTEP_ES (dp_l2 (now (c_run c)))). by rewrite E2, E5, !lookup_empty.
    + intros k. change (view m_VTEP_ES (now (c_run c))) with (@VTEP_ES (dp_l2 (now (c_run c)))). rewrite E5, lookup_empty. by intros [].
  - intros esi. by rewrite E1, !lookup_empty.
  - split; intros esi; intros; by rewrite E1, lookup_empty in *.
Qed.

Lemma requests_implement rs (c c' : Control) :
  no_segments c → each run_es rs c = (c', Ok tt) →
  (∀ n, well_declared (c_host c) (spec_all (take n rs) ∅)) →
  implements (c_host c) (now (c_run c')) (spec_all rs ∅).
Proof.
  intros H0' E Hw. destruct (run_all_step rs c c' ∅ ∅ E (no_segments_ok c H0') Hw) as (b & Hok & Hh).
  rewrite <- Hh. apply (ok_implements c' b); [done|]. rewrite Hh. specialize (Hw (length rs)). by rewrite firstn_all in Hw.
Qed.
End spec.

(** A peer address in its own family: no v4-mapped IPv6 address. *)
Definition proper_addr (p : IpAddr) : Prop :=
  match p with
  | V4 a => length a = 4%nat
  | V6 a => length a = 16%nat ∧ ¬ v4_mapped [] `prefix_of` a
  end.
#[global] Instance proper_addr_dec p : Decision (proper_addr p).
Proof. destruct p; apply _. Defined.

Lemma proper_addr_inj p q : proper_addr p → proper_addr q → ip_to_v6_bytes p = ip_to_v6_bytes q → p = q.
Proof.
  destruct p as [a|a], q as [b|b]; cbn [proper_addr ip_to_v6_bytes]; intros Ha Hb E.
  - f_equal. by apply (app_inv_head (v4_mapped [])).
  - destruct Hb as [_ []]. exists a. by rewrite <- E.
  - destruct Ha as [_ []]. exists b. by rewrite E.
  - congruence.
Qed.

(** C33: the Ethernet Segment requests implement the declared segments. Run
    any list of requests, all successful, from a control plane without
    segments, and let every prefix declare ports that exist and are in one
    segment only, canonical peers and distinct labels. Then in every domain
    an access port floods exactly as its segment's role says (a
    non-forwarder's port takes no BUM, a single-active non-forwarder's port
    is blocked), a frame from a peer PE is kept off exactly the ports of the
    segments shared with that PE, over VXLAN and SRv6, a segment's ESI label
    stands for its own ports, and the ports of no segment are unrestricted. *)
Theorem es_requests_refine `{HostOps} `{Regex} `{MapSysLaws} rs (c c' : Control) :
  no_segments c → each run_es rs c = (c', Ok tt) →
  (∀ n, well_declared proper_addr (c_host c) (spec_all (take n rs) ∅)) →
  implements proper_addr (c_host c) (now (c_run c')) (spec_all rs ∅).
Proof. apply requests_implement, proper_addr_inj. Qed.

(** ** Two segments

    Port [eth1] is in segment "a", whose domain 10 this PE does not forward
    and which is single-active; [eth2] is in "b", which is then deleted. *)

(** A check of [well_declared] by evaluation. *)
Definition check_declared `{HostOps} (h : Host) (A : Segs) : bool :=
  forallb (λ sg : Seg, forallb (λ n, bool_decide (is_Some (ifindex_of h n))) (seg_ports sg)
      && forallb (λ p, bool_decide (proper_addr p)) (elements (seg_peers sg))) (map_to_list A).*2 &&
  forallb (λ e : string * Seg, forallb (λ e' : string * Seg, bool_decide (e.1 = e'.1) ||
      (forallb (λ n, forallb (λ n', negb (bool_decide (ifindex_of h n = ifindex_of h n'))) (seg_ports e'.2)) (seg_ports e.2)
       && ((seg_label e.2 =? 0) || negb (seg_label e.2 =? seg_label e'.2)))) (map_to_list A)) (map_to_list A).

Lemma check_declared_spec `{HostOps} h A : check_declared h A = true → well_declared proper_addr h A.
Proof.
  unfold check_declared. rewrite andb_true_iff, !forallb_forall. intros [C1 C2]. split.
  - intros esi sg Ha. specialize (C1 sg). rewrite andb_true_iff, !forallb_forall in C1. destruct C1 as [Cp Cq].
    { apply list_elem_of_In, list_elem_of_fmap. exists (esi, sg). split; [done|]. by apply elem_of_map_to_list. }
    split; apply Forall_forall; intros x Hx%list_elem_of_In.
    + by apply Cp, bool_decide_eq_true in Hx.
    + by apply Cq, bool_decide_eq_true in Hx.
  - intros e e' sg sg' Ha Ha' Hne. specialize (C2 (e, sg)). rewrite forallb_forall in C2.
    specialize (C2 ltac:(by apply list_elem_of_In, elem_of_map_to_list) (e', sg') ltac:(by apply list_elem_of_In, elem_of_map_to_list)).
    cbn [fst snd] in C2. rewrite bool_decide_false in C2 by done. cbn [orb] in C2.
    rewrite andb_true_iff, forallb_forall in C2. destruct C2 as [Cp Cl]. split.
    + intros n n' Hn%list_elem_of_In Hn'%list_elem_of_In. specialize (Cp n Hn). rewrite forallb_forall in Cp.
      specialize (Cp n' Hn'). rewrite negb_true_iff in Cp. by apply bool_decide_eq_false in Cp.
    + intros Hz. rewrite orb_true_iff, negb_true_iff, Z.eqb_eq, Z.eqb_neq in Cl. naive_solver.
Qed.

Definition ex_peer : IpAddr := V4 [192; 0; 2; 2].
Definition ex_es_reqs : list EsReq :=
  [ReqSegment "a" ["eth1"%string] 3900; ReqRole "a" 10 false true; ReqPeers "a" {[ex_peer]};
   ReqNhg "a" 10 [mkEsNhgMember None None (Some ex_peer) 100] false;
   ReqSegment "b" ["eth2"%string] 0; ReqRole "b" 10 false false; ReqDel "b"].
Definition ex_es_control : @Control ref_host literal_regex :=
  fresh_control (host_with (<["eth1"%string := 1]> {["eth2"%string := 2]}) []) empty_dp empty_store.

Lemma es_requests_refine_witness :
  let run := @each ref_host literal_regex _ (@run_es ref_host literal_regex ref_sys) ex_es_reqs ex_es_control in
  run.2 = Ok tt ∧
  @es_blocked (dp_l2 (now (c_run run.1))) 1 10 = true ∧
  @implements ref_host proper_addr (c_host ex_es_control) (now (c_run run.1)) (spec_all ex_es_reqs ∅).
Proof.
  cbn zeta. split; [vm_compute; reflexivity|]. split; [vm_compute; reflexivity|].
  apply (@es_requests_refine ref_host literal_regex ref_sys ref_sys_laws ex_es_reqs ex_es_control).
  - vm_compute. split_and!; reflexivity.
  - apply ok_pair. vm_compute. reflexivity.
  - intros n. apply check_declared_spec. do 8 (destruct n as [|n]; [vm_compute; reflexivity|]). vm_compute. reflexivity.
Defined.

(** ** What a failed render leaves behind

    With room for one [ES_DF] row, a segment of two ports that stops being
    the forwarder fails on the second row, after the list of rows it owns
    was emptied: deleting the segment succeeds and the first port still
    drops BUM, of a segment that is no more. *)
Example failed_render_leaks :
  let run (rs : list EsReq) := @each ref_host literal_regex _ (@run_es ref_host literal_regex (limited_sys 1)) rs in
  let two := run [ReqRole "a" 10 false false; ReqSegment "a" ["eth1"; "eth2"]%string 0] ex_es_control in
  let gone := run [ReqDel "a"] two.1 in
  two.2 = Err (DpFailed Sys) ∧ gone.2 = Ok tt ∧ et_segments (c_es gone.1) = ∅ ∧
  @es_non_df (dp_l2 (now (c_run gone.1))) 1 10 = true.
Proof. vm_compute. split_and!; reflexivity. Qed.

(** A deleted segment's id is free at once: a MAC still behind it is sent
    to the segment that gets the id. *)
Example freed_id_is_reused :
  let run := @each ref_host literal_regex _ (@run_es ref_host literal_regex ref_sys) in
  let mac := [2; 0; 0; 0; 0; 9] in
  let c1 := (@add_fdb_remote_es ref_host literal_regex ref_sys mac 10 "a" false ex_es_control).1 in
  let c2 := (run [ReqDel "a"; ReqNhg "b" 10 [mkEsNhgMember None None (Some ex_peer) 100] false] c1).1 in
  let d := now (c_run c2) in
  match dp_fdb d !! mkFdbKey mac 10 with
  | Some e => @ES_NHG_MEMBER (dp_l2 d) !! mkEsNhgMemberKey (fe_oif e) 10 0
              = Some (mkReplTarget REPL_KIND_MPLS 100 (ip_to_v6_bytes ex_peer) 0)
  | None => False
  end.
Proof. vm_compute. reflexivity. Qed.
