(* ===== verification/SlotProps.v ===== *)
(** * Replication slot groups: each copy once

    The slots toward one PE ([SlotGroup] of [crates/cradle/src/control.rs])
    share the flood list of a domain.  [slot_group_rows] writes down which of
    them serves which ingress; the data plane's [slot_affinity] reads it. *)

From S2P Require Import Prelude.
From S2P Require Import Contract.
From S2P Require Import Common.
From S2P Require Import Bpf.
From S2P Require Import Maps.
From S2P Require Import L2.
From S2P Require Import MapRefs.
From S2P Require Import Dataplane.
From S2P Require Import DpRun.
From S2P Require Import Cni.
From S2P Require Import L7.
From S2P Require Import Control.
From S2P Require Import CtlRun.
From S2P Require Import EsProps.
From S2P Require Import DpPolicy.
From S2P Require Import HostRef.
From S2P Require Import EsSpec.

(** ** The rows, without the effects *)

Abbreviation Row := (Z * Z * Z * Z)%type.

Definition id_of (t : EsTable) (esi : string) : Z := from_option es_id 0 (et_segments t !! esi).
Definition root_mark (g : SlotGroup) : Z :=
  if bool_decide (is_Some (sg_leaf g)) || sg_root_only g then SLOT_ETREE_ROOT else 0.
Definition skip_mask (t : EsTable) (l : list (string * Z)) : Z :=
  foldl (λ skip e, skip .| 1 ≪ (id_of t e.1 .& 63)) 0 l.

Definition rows_of (t : EsTable) (g : SlotGroup) : list Row :=
  ((λ e : string * Z, (e.2, id_of t e.1 + 1, 0, root_mark g)) <$> stree (sg_es g))
  ++ match sg_plain g with Some p => [(p, 0, skip_mask t (stree (sg_es g)), root_mark g)] | None => [] end
  ++ match sg_leaf g with Some l => [(l, 0, 0, SLOT_ETREE_LEAF)] | None => [] end.

(** The flood-side ifindexes of a group. *)
Definition group_slots (g : SlotGroup) : list Z :=
  (stree (sg_es g)).*2 ++ option_list (sg_plain g) ++ option_list (sg_leaf g).

Lemma elem_of_stree {V} (m : gmap string V) k v : (k, v) ∈ stree m ↔ m !! k = Some v.
Proof. unfold stree. by rewrite merge_sort_Permutation, elem_of_map_to_list. Qed.

Lemma rows_slots t g : (λ r : Row, r.1.1.1) <$> rows_of t g = group_slots g.
Proof.
  unfold rows_of, group_slots. rewrite !fmap_app, <- list_fmap_compose. f_equal.
  by destruct (sg_plain g), (sg_leaf g).
Qed.

(** The ids the rows mention are there to stay. *)
Definition known (t : EsTable) (g : SlotGroup) : Prop := ∀ esi oif, sg_es g !! esi = Some oif → is_Some (et_segments t !! esi).

Lemma id_of_extends t t' esi : extends t t' → is_Some (et_segments t !! esi) → id_of t' esi = id_of t esi.
Proof. intros [He _] [st Hst]. unfold id_of. by rewrite Hst, (He _ _ Hst). Qed.

Lemma skip_mask_ext t t' l : (∀ e, e ∈ l → id_of t' e.1 = id_of t e.1) → skip_mask t' l = skip_mask t l.
Proof.
  unfold skip_mask. generalize 0. induction l as [|e l IH]; intros z He; [done|]. cbn.
  rewrite He by set_solver. apply IH. set_solver.
Qed.

Lemma rows_of_extends t t' g : extends t t' → known t g → rows_of t' g = rows_of t g.
Proof.
  intros He Hk. assert (∀ e, e ∈ stree (sg_es g) → id_of t' e.1 = id_of t e.1) as Hid.
  { intros [esi oif] Hin%elem_of_stree. cbn. apply id_of_extends; eauto. }
  unfold rows_of. f_equal; [|by rewrite (skip_mask_ext t t')]. apply list_fmap_ext. intros i e Hi.
  f_equal. f_equal. f_equal. rewrite Hid by (by eapply list_elem_of_lookup_2). done.
Qed.

Lemma elem_of_option_list {A} (o : option A) x : x ∈ option_list o ↔ o = Some x.
Proof. destruct o; cbn; [rewrite list_elem_of_singleton; naive_solver|set_solver]. Qed.

Section slots.
Context `{HostOps} `{Regex} `{MapSysLaws}.

Lemma slot_rows_loop root l rows skip (c c' : Control) r :
  mfold (λ '(rows, skip) '(esi, oif), st ← (es_entry esi : Ctrl EsState);
      mret (rows ++ [(oif, es_id st + 1, 0, root)], skip .| 1 ≪ (es_id st .& 63))) l (rows : list Row, skip) c = (c', Ok r) →
  ids_ok (c_es c) →
  ids_ok (c_es c') ∧ extends (c_es c) (c_es c') ∧ c' = set_c_es (c_es c') c ∧
  (∀ e, e ∈ l → is_Some (et_segments (c_es c') !! e.1)) ∧
  r = (rows ++ ((λ e : string * Z, (e.2, id_of (c_es c') e.1 + 1, 0, root)) <$> l),
       foldl (λ skip e, skip .| 1 ≪ (id_of (c_es c') e.1 .& 63)) skip l).
Proof.
  revert rows skip c. induction l as [|[esi oif] l IH]; intros rows skip c; cbn [mfold].
  - intros [= <- <-] Hok. split_and!; [done..|by destruct c|set_solver|]. cbn. by rewrite app_nil_r.
  - intros (c1 & st & E1 & E)%bind_inv_M Hok. apply bind_inv_M in E1 as (c2 & st' & E1 & [= <- <-]).
    destruct (es_entry_ids _ _ _ _ E1 Hok) as (Hok1 & Hx1 & Hs1 & Hc1).
    destruct (IH _ _ _ E Hok1) as (Hok' & Hx' & Hc' & Hin & ->).
    assert (et_segments (c_es c') !! esi = Some st') as Hs' by by apply Hx'.
    split_and!; [done|by transitivity (c_es c2)|by rewrite Hc', Hc1| |].
    + intros e [->|He]%elem_of_cons; [by eexists|by apply Hin].
    + assert (id_of (c_es c') esi = es_id st') as Hid by (unfold id_of; by rewrite Hs').
      cbn [fmap list_fmap foldl fst snd]. by rewrite Hid, <- app_assoc.
Qed.

Lemma slot_group_rows_run g (c c' : Control) rows : slot_group_rows g c = (c', Ok rows) → ids_ok (c_es c) →
  ids_ok (c_es c') ∧ extends (c_es c) (c_es c') ∧ c' = set_c_es (c_es c') c ∧ known (c_es c') g ∧
  rows = rows_of (c_es c') g.
Proof.
  unfold slot_group_rows. cbn zeta. intros (c1 & [rows1 skip1] & E & E')%bind_inv_M Hok.
  apply slot_rows_loop in E as (Hok' & Hx & Hc & Hin & [= -> ->]); [|done]. injection E' as <- <-.
  split_and!; [done..| |].
  - intros esi oif He. apply (Hin (esi, oif)). by apply elem_of_stree.
  - unfold rows_of, root_mark, skip_mask. cbn [app]. by rewrite <- app_assoc.
Qed.

(** ** Rows in the map *)

Definition row_value (r : Row) : option SlotEs :=
  let '(_, only, skip, etree) := r in
  if (only =? 0) && (skip =? 0) && (etree =? 0) then None else Some (mkSlotEs only etree skip).
Definition row_oif (r : Row) : Z := r.1.1.1.

Lemma slot_es_set_run oif only skip etree s s' : slot_es_set oif only skip etree s = (s', Ok tt) →
  ∃ m, now s' = over m_SLOT_ES m (now s) ∧ m !! oif = row_value (oif, only, skip, etree) ∧
    ∀ k, k ≠ oif → m !! k = view m_SLOT_ES (now s) !! k.
Proof.
  unfold slot_es_set. cbn [row_value]. destruct (_ && _).
  - intros E. exists (delete oif (view m_SLOT_ES (now s))). split_and!.
    + pose proof (hash_drop_now m_SLOT_ES oif s) as Hn. by rewrite E in Hn.
    + apply lookup_delete_eq.
    + intros k Hk. by apply lookup_delete_ne.
  - intros E. exists (<[oif := mkSlotEs only etree skip]> (view m_SLOT_ES (now s))).
    destruct (hash_put_cases m_SLOT_ES oif (mkSlotEs only etree skip) s) as [E'|E']; rewrite E' in E; [done|].
    injection E as <-. split_and!; [done|apply lookup_insert_eq|]. intros k Hk. by apply lookup_insert_ne.
Qed.

Lemma put_rows_run (rows : list Row) (c c' : Control) : put_rows rows c = (c', Ok tt) → NoDup (row_oif <$> rows) →
  ∃ s, c' = set_c_run s c ∧
    (∀ r, r ∈ rows → view m_SLOT_ES (now s) !! row_oif r = row_value r) ∧
    (∀ k, k ∉ row_oif <$> rows → view m_SLOT_ES (now s) !! k = view m_SLOT_ES (now (c_run c)) !! k).
Proof.
  unfold put_rows. intros (s & E & ->)%on_dp_inv Hnd. exists s. split; [done|].
  revert E. generalize (c_run c). generalize 0. induction rows as [|r rows IH]; intros i s0 E.
  - injection E as <-. split; [set_solver|done].
  - cbn [for_each] in E. apply bind_inv_ctl in E as (s1 & [] & E1 & E). destruct r as [[[oif only] skip] etree].
    cbn [fmap list_fmap row_oif] in Hnd. apply NoDup_cons in Hnd as [Hni Hnd].
    destruct (slot_es_set_run _ _ _ _ _ _ E1) as (m & Hm & Hv & Ho).
    destruct (IH Hnd _ _ E) as [IH1 IH2].
    assert (view m_SLOT_ES (now s1) = m) as Hm1 by by rewrite Hm, view_over.
    split.
    + intros r [->|Hr]%elem_of_cons; [|by apply IH1]. cbn [row_oif fst]. rewrite IH2 by done. by rewrite Hm1.
    + cbn. intros k Hk. rewrite IH2 by set_solver. rewrite Hm1. apply Ho. set_solver.
Qed.

(** ** Groups with their own slots *)

Definition in_group (g : SlotGroup) (k : Z) : Prop :=
  (∃ e, sg_es g !! e = Some k) ∨ sg_plain g = Some k ∨ sg_leaf g = Some k.

Record distinct (g : SlotGroup) : Prop := mkDistinct {
  di_es : ∀ e e' k, sg_es g !! e = Some k → sg_es g !! e' = Some k → e = e';
  di_plain : ∀ e k, sg_plain g = Some k → sg_es g !! e ≠ Some k;
  di_leaf : ∀ e k, sg_leaf g = Some k → sg_es g !! e ≠ Some k ∧ sg_plain g ≠ Some k }.

Lemma elem_of_group_slots g k : k ∈ group_slots g ↔ in_group g k.
Proof.
  unfold group_slots, in_group. rewrite !elem_of_app, !elem_of_option_list, list_elem_of_fmap.
  assert ((∃ y : string * Z, k = y.2 ∧ y ∈ stree (sg_es g)) ↔ ∃ e, sg_es g !! e = Some k) as ->; [|done].
  split; [intros ([e k'] & -> & Hin%elem_of_stree); by exists e|intros (e & He%elem_of_stree); by exists (e, k)].
Qed.

Lemma distinct_NoDup g : distinct g → NoDup (group_slots g).
Proof.
  intros [D1 D2 D3]. unfold group_slots. apply NoDup_app. split_and!.
  - apply NoDup_fmap_2_strong.
    + intros [e k] [e' k'] Hin%elem_of_stree Hin'%elem_of_stree E. cbn in E. subst k'. f_equal. by eapply D1.
    + unfold stree. rewrite merge_sort_Permutation. apply NoDup_map_to_list.
  - intros k ([e k'] & -> & Hin%elem_of_stree)%list_elem_of_fmap. cbn.
    rewrite elem_of_app, !elem_of_option_list. intros [?|Hl]; [by eapply D2|by destruct (D3 e k' Hl)].
  - apply NoDup_app. split_and!.
    + destruct (sg_plain g); repeat constructor. set_solver.
    + intros k. rewrite !elem_of_option_list. intros ? Hl. by destruct (D3 ""%string k Hl).
    + destruct (sg_leaf g); repeat constructor. set_solver.
Qed.

Lemma row_oif_slots t g : row_oif <$> rows_of t g = group_slots g.
Proof. apply rows_slots. Qed.

Record groups_ok (c : @Control _ _) : Prop := mkGroupsOk {
  go_ids : ids_ok (c_es c);
  go_group : ∀ key g, c_slot_groups c !! key = Some g → known (c_es c) g ∧ distinct g ∧
    ∀ r, r ∈ rows_of (c_es c) g → view m_SLOT_ES (now (c_run c)) !! row_oif r = row_value r;
  go_apart : ∀ key key' g g' k, c_slot_groups c !! key = Some g → c_slot_groups c !! key' = Some g' →
    in_group g k → in_group g' k → key = key' }.

Lemma known_extends t t' g : extends t t' → known t g → known t' g.
Proof. intros [He _] Hk esi oif Hs. destruct (Hk esi oif Hs) as [st Hst]. exists st. by apply He. Qed.

Lemma groups_ok_update (c c' : Control) key g' : groups_ok c →
  (∀ k gk, c_slot_groups c' !! k = Some gk → k = key ∧ gk = g' ∨ k ≠ key ∧ c_slot_groups c !! k = Some gk) →
  ids_ok (c_es c') → extends (c_es c) (c_es c') → known (c_es c') g' → distinct g' →
  (∀ k gk x, k ≠ key → c_slot_groups c !! k = Some gk → in_group gk x →
     ¬ in_group g' x ∧ view m_SLOT_ES (now (c_run c')) !! x = view m_SLOT_ES (now (c_run c)) !! x) →
  (∀ r, r ∈ rows_of (c_es c') g' → view m_SLOT_ES (now (c_run c')) !! row_oif r = row_value r) →
  groups_ok c'.
Proof.
  intros [G1 G2 G3] Hg Hids Hx Hk Hd Hout Hrows. split; [done|..].
  - intros k gk Hgk. destruct (Hg _ _ Hgk) as [[-> ->]|[Hne Hgk']]; [done|].
    destruct (G2 _ _ Hgk') as (K & D & R). split_and!; [by eapply known_extends|done|].
    intros r Hr. rewrite (rows_of_extends _ _ _ Hx K) in Hr.
    assert (in_group gk (row_oif r)) as Hin.
    { apply elem_of_group_slots. rewrite <- (row_oif_slots (c_es c)). by apply list_elem_of_fmap_2. }
    destruct (Hout _ _ _ Hne Hgk' Hin) as [_ ->]. by apply R.
  - intros k k' gk gk' x Hgk Hgk' Hin Hin'.
    destruct (Hg _ _ Hgk) as [[-> ->]|[Hne Hgk1]], (Hg _ _ Hgk') as [[-> ->]|[Hne' Hgk1']]; [done| | |by eapply G3].
    + by destruct (Hout _ _ _ Hne' Hgk1' Hin').
    + by destruct (Hout _ _ _ Hne Hgk1 Hin).
Qed.

(** The tail of every request on a group: the rows of [g'], put. *)
Lemma install_rows c0 c c' key g' (rows : list Row) : groups_ok c0 →
  put_rows rows c = (c', Ok tt) → rows = rows_of (c_es c) g' →
  (∀ k gk, c_slot_groups c !! k = Some gk → k = key ∧ gk = g' ∨ k ≠ key ∧ c_slot_groups c0 !! k = Some gk) →
  ids_ok (c_es c) → extends (c_es c0) (c_es c) → known (c_es c) g' → distinct g' →
  (∀ k gk x, k ≠ key → c_slot_groups c0 !! k = Some gk → in_group gk x →
     ¬ in_group g' x ∧ view m_SLOT_ES (now (c_run c)) !! x = view m_SLOT_ES (now (c_run c0)) !! x) →
  groups_ok c'.
Proof.
  intros Hok E -> Hg Hids Hx Hk Hd Hout. apply put_rows_run in E as (s & -> & Hin & Hnot).
  2:{ rewrite row_oif_slots. by apply distinct_NoDup. }
  apply (groups_ok_update c0 _ key g'); cbn; try done. intros k gk x Hne Hgk Hx'.
  destruct (Hout _ _ _ Hne Hgk Hx') as [Hni Hv]. split; [done|]. rewrite Hnot; [done|].
  by rewrite row_oif_slots, elem_of_group_slots.
Qed.

Lemma join_in g role a k : in_group (join_group g role a) k → k = a ∨ in_group g k.
Proof.
  unfold in_group. destruct role as [|esi|]; cbn.
  - intros [?|[[= ->]|?]]; eauto.
  - intros [(e & He)|?]; [|by eauto]. apply lookup_insert_Some in He as [[_ ->]|[_ He]]; eauto.
  - intros [?|[?|[= ->]]]; eauto.
Qed.
Lemma join_distinct g role a : distinct g → ¬ in_group g a → distinct (join_group g role a).
Proof.
  unfold in_group. intros [D1 D2 D3] Hn. destruct role as [|esi|]; split; cbn.
  - done.
  - intros e k [= <-] He. naive_solver.
  - intros e k Hl. split; [by apply D3|intros [= <-]; naive_solver].
  - intros e e' k. rewrite !lookup_insert_Some. intros [[<- <-]|[? He]] [[<- ?]|[? He']]; try done; subst; naive_solver.
  - intros e k Hp. rewrite lookup_insert_Some. intros [[_ <-]|[_ He]]; [naive_solver|by eapply D2].
  - intros e k Hl. rewrite lookup_insert_Some. split; [|by apply (D3 e)]. intros [[_ <-]|[_ He]]; [naive_solver|].
    by apply (proj1 (D3 e k Hl)).
  - done.
  - done.
  - intros e k [= <-]. split; intros ?; naive_solver.
Qed.
Lemma leave_in g a k : in_group (leave_group g a) k → in_group g k ∧ k ≠ a.
Proof.
  unfold in_group, leave_group. cbn. intros [(e & He)|[Hp|Hl]].
  - apply map_lookup_filter_Some in He as [He ?]. eauto.
  - case_bool_decide; [done|]. split; [by eauto|]. congruence.
  - case_bool_decide; [done|]. split; [by eauto|]. congruence.
Qed.
Lemma leave_distinct g a : distinct g → distinct (leave_group g a).
Proof.
  intros [D1 D2 D3]. split; cbn.
  - intros e e' k [He _]%map_lookup_filter_Some [He' _]%map_lookup_filter_Some. eauto.
  - intros e k. case_bool_decide; [done|]. intros Hp [He _]%map_lookup_filter_Some. by eapply D2.
  - intros e k. case_bool_decide; [done|]. intros Hl. destruct (D3 e k Hl) as [E1 E2]. split.
    + by intros [He _]%map_lookup_filter_Some.
    + by case_bool_decide.
Qed.
Lemma empty_distinct : distinct empty_group.
Proof. split; intros; by rewrite ?lookup_empty in *. Qed.

(** ** Requests *)

Inductive SlotReq : Type :=
| SlotBind (key : GroupKey) (a_idx : Z) (role : SlotRole)
| SlotUnbind (key : GroupKey) (a_idx : Z)
| SlotRootOnly (key : GroupKey) (root_only : bool).

Definition run_slot (r : SlotReq) : Ctrl unit :=
  match r with
  | SlotBind key a_idx role => slot_es_bind key a_idx role
  | SlotUnbind key a_idx => slot_es_unbind key a_idx
  | SlotRootOnly key root_only => set_etree_root_only key root_only
  end.

(** A slot joins with an ifindex no group has, and leaves its own group. *)
Definition proper_slot (c : @Control _ _) (r : SlotReq) : Prop :=
  match r with
  | SlotBind _ a _ => ∀ key g, c_slot_groups c !! key = Some g → ¬ in_group g a
  | SlotUnbind key a => ∀ key' g, key' ≠ key → c_slot_groups c !! key' = Some g → ¬ in_group g a
  | SlotRootOnly _ _ => True
  end.

Lemma default_group (c : @Control _ _) key : groups_ok c →
  distinct (default empty_group (c_slot_groups c !! key)) ∧
  ∀ k gk x, k ≠ key → c_slot_groups c !! k = Some gk → in_group gk x → ¬ in_group (default empty_group (c_slot_groups c !! key)) x.
Proof.
  intros [_ G2 G3]. destruct (c_slot_groups c !! key) as [g|] eqn:Hg; cbn.
  - split; [by apply (G2 key g)|]. intros k gk x Hne Hgk Hin Hin'. apply Hne. by eapply G3.
  - split; [apply empty_distinct|]. intros k gk x _ _ _ [[e He]|[?|?]]; [|done..]. cbn in He. by rewrite lookup_empty in He.
Qed.

Lemma insert_cases (m : gmap GroupKey SlotGroup) key g k gk : <[key := g]> m !! k = Some gk →
  k = key ∧ gk = g ∨ k ≠ key ∧ m !! k = Some gk.
Proof. rewrite lookup_insert_Some. naive_solver. Qed.
Lemma delete_insert_cases (m : gmap GroupKey SlotGroup) key g k gk : delete key (<[key := g]> m) !! k = Some gk →
  k = key ∧ gk = g ∨ k ≠ key ∧ m !! k = Some gk.
Proof. rewrite lookup_delete_Some, lookup_insert_Some. naive_solver. Qed.

Lemma bind_step key a role (c c' : Control) : slot_es_bind key a role c = (c', Ok tt) → groups_ok c →
  proper_slot c (SlotBind key a role) → groups_ok c'.
Proof.
  unfold slot_es_bind. rewrite bind_get_M. intros E Hok Hp. destruct (default_group c key Hok) as [Hd Hap].
  set (g0 := default empty_group _) in *. set (g := join_group g0 role a) in *.
  apply bind_inv_M in E as (c1 & [] & [= <-] & E). apply bind_inv_M in E as (c2 & rows & E2 & E).
  apply slot_group_rows_run in E2 as (Hids & Hx & Hc2 & Hk & ->); [|apply Hok]. cbn in Hx.
  assert (¬ in_group g0 a) as Hna.
  { unfold g0. destruct (c_slot_groups c !! key) as [g1|] eqn:Hg1; [by eapply Hp|]. intros [[e He]|[?|?]]; [|done..].
    cbn in He. by rewrite lookup_empty in He. }
  apply (install_rows c c2 c' key g _ Hok E eq_refl); try done.
  - intros k gk. rewrite Hc2. cbn. apply insert_cases.
  - by apply join_distinct.
  - intros k gk x Hne Hgk Hin. split; [|by rewrite Hc2].
    intros [->|Hin']%join_in; [by eapply Hp|by eapply Hap].
Qed.

Lemma root_only_step key ro (c c' : Control) : set_etree_root_only key ro c = (c', Ok tt) → groups_ok c → groups_ok c'.
Proof.
  unfold set_etree_root_only. rewrite bind_get_M. intros E Hok. destruct (default_group c key Hok) as [Hd Hap].
  set (g0 := default empty_group _) in *. apply bind_inv_M in E as (c1 & [] & [= <-] & E).
  destruct (Bool.eqb (sg_root_only g0) ro).
  - (* nothing to program *)
    assert (∀ m, (∀ k gk, m !! k = Some gk → c_slot_groups c !! k = Some gk) → groups_ok (set_c_slot_groups m c)) as Hsub.
    { intros m Hm. destruct Hok as [G1 G2 G3]. split; cbn; [done|eauto|]. intros k k' gk gk' x Hk Hk'. eapply G3; eauto. }
    assert (c' = set_c_slot_groups (<[key := g0]> (c_slot_groups c)) c ∨
            c' = set_c_slot_groups (delete key (<[key := g0]> (c_slot_groups c))) c) as Hc'.
    { destruct (group_is_empty g0); injection E as <-; [right|left]; by destruct c. }
    destruct (c_slot_groups c !! key) as [g1|] eqn:Hg1.
    + cbn in g0. subst g0. rewrite (insert_id _ _ _ Hg1) in Hc'.
      destruct Hc' as [->| ->]; apply Hsub; [done|]. intros k gk. by intros [_ ?]%lookup_delete_Some.
    + destruct Hc' as [->| ->].
      2:{ apply Hsub. intros k gk [? Hk]%lookup_delete_Some. by rewrite lookup_insert_ne in Hk. }
      assert (g0 = empty_group) as Hemp by done. clearbody g0. subst g0.
      apply (groups_ok_update c _ key empty_group Hok); cbn; try done; [intros k gk; apply insert_cases|apply Hok| |].
      * intros k gk x Hne Hgk Hin. split; [by eapply Hap|done].
      * intros r Hr. cbn in Hr. set_solver.
  - set (g' := mkSlotGroup (sg_plain g0) (sg_es g0) (sg_leaf g0) ro) in *.
    apply bind_inv_M in E as (c2 & [] & [= <-] & E). apply bind_inv_M in E as (c3 & rows & E3 & E).
    assert (slot_group_rows g' (set_c_slot_groups (<[key := g']> (<[key := g0]> (c_slot_groups c))) c) = (c3, Ok rows)) as E3'.
    { unfold on_error in E3. destruct (slot_group_rows g' _) as [c4 [r4|]] eqn:E4 in E3; [|done].
      injection E3 as -> ->. rewrite <- E4. by destruct c. }
    apply slot_group_rows_run in E3' as (Hids & Hx & Hc3 & Hk & ->); [|apply Hok]. cbn in Hx.
    apply bind_inv_M in E as (c4 & [] & E4 & E).
    assert (c_es c4 = c_es c3 ∧ c_run c4 = c_run c ∧
            ∀ k gk, c_slot_groups c4 !! k = Some gk → k = key ∧ gk = g' ∨ k ≠ key ∧ c_slot_groups c !! k = Some gk) as (He4 & Hr4 & Hg4).
    { rewrite Hc3 in E4. destruct (group_is_empty g'); injection E4 as <-; cbn; split_and!; try done; intros k gk;
        rewrite insert_insert_eq; [apply delete_insert_cases|apply insert_cases]. }
    assert (distinct g') as Hd' by (destruct Hd as [D1 D2 D3]; split; [exact D1|exact D2|exact D3]).
    apply (install_rows c c4 c' key g' _ Hok E); rewrite ?He4, ?Hr4; try done.
    intros k gk x Hne Hgk Hin. split; [|done]. intros Hin'. by eapply Hap.
Qed.

Lemma unbind_step key a (c c' : Control) : slot_es_unbind key a c = (c', Ok tt) → groups_ok c →
  proper_slot c (SlotUnbind key a) → groups_ok c'.
Proof.
  unfold slot_es_unbind. rewrite bind_get_M. intros E Hok Hp.
  destruct (c_slot_groups c !! key) as [g0|] eqn:Hg0; [|by injection E as <-].
  set (g := leave_group g0 a) in *. destruct (go_group _ Hok _ _ Hg0) as (_ & Hd & _).
  apply bind_inv_M in E as (c1 & [] & [= <-] & E). apply bind_inv_M in E as (c2 & rows & E2 & E).
  apply slot_group_rows_run in E2 as (Hids & Hx & Hc2 & Hk & ->); [|apply Hok]. cbn in Hx.
  apply bind_inv_M in E as (c3 & [] & E3 & E). apply bind_inv_M in E as (c4 & [] & (s & Hs & ->)%on_dp_inv & E).
  apply slot_es_set_run in Hs as (m & Hm & _ & Ho).
  assert (c_es c3 = c_es c2 ∧ c_run c3 = c_run c ∧
          ∀ k gk, c_slot_groups c3 !! k = Some gk → k = key ∧ gk = g ∨ k ≠ key ∧ c_slot_groups c !! k = Some gk) as (He3 & Hr3 & Hg3).
  { rewrite Hc2 in E3. destruct (group_is_empty g); injection E3 as <-; cbn; split_and!; try done; intros k gk;
      [apply delete_insert_cases|apply insert_cases]. }
  apply (install_rows c _ c' key g _ Hok E); change (c_es (set_c_run s c3)) with (c_es c3); rewrite ?He3; try done;
    [by apply leave_distinct|]. change (c_run (set_c_run s c3)) with s.
  intros k gk x Hne Hgk Hin. split.
  - intros [Hin' _]%leave_in. apply Hne. by eapply (go_apart _ Hok).
  - rewrite Hm, view_over, Ho, Hr3; [done|]. intros ->. by apply (Hp k gk).
Qed.

Lemma run_slot_step r (c c' : Control) : run_slot r c = (c', Ok tt) → groups_ok c → proper_slot c r → groups_ok c'.
Proof.
  destruct r; cbn [run_slot]; intros E Hok Hp; [by eapply bind_step|by eapply unbind_step|by eapply root_only_step].
Qed.

(** ** Who serves *)

(** The slot of the segment an ingress frame came in on ([in_es] is its id
    + 1, 0 for a port of no segment). *)
Definition es_slot (t : EsTable) (g : SlotGroup) (in_es : Z) : option Z :=
  first_some (λ e : string * Z, if id_of t e.1 + 1 =? in_es then Some e.2 else None) (stree (sg_es g)).

(** The one slot that carries a copy of the frame toward the group's PE: a
    leaf's frame goes by the leaf slot or, toward a PE that has no use for
    it, not at all; any other by its segment's slot, else the plain one. *)
Definition serving (t : EsTable) (g : SlotGroup) (in_es : Z) (from_leaf : bool) : option Z :=
  if from_leaf && bool_decide (is_Some (sg_leaf g)) then sg_leaf g
  else if from_leaf && sg_root_only g then None
  else match es_slot t g in_es with Some k => Some k | None => sg_plain g end.

Lemma id_of_range t g esi oif : ids_ok t → known t g → sg_es g !! esi = Some oif → 0 ≤ id_of t esi ≤ MAX_ES_ID.
Proof.
  intros [Hi _] Hk Hs. destruct (Hk esi oif Hs) as [st Hst]. unfold id_of. rewrite Hst. cbn. by destruct (Hi _ _ Hst).
Qed.
Lemma id_of_inj t g e e' k k' : ids_ok t → known t g → sg_es g !! e = Some k → sg_es g !! e' = Some k' →
  id_of t e = id_of t e' → e = e'.
Proof.
  intros [_ Hj] Hk Hs Hs'. destruct (Hk _ _ Hs) as [st Hst], (Hk _ _ Hs') as [st' Hst']. unfold id_of.
  rewrite Hst, Hst'. cbn. by apply Hj.
Qed.

Lemma es_slot_spec t g in_es k : ids_ok t → known t g →
  es_slot t g in_es = Some k ↔ ∃ e, sg_es g !! e = Some k ∧ id_of t e + 1 = in_es.
Proof.
  intros Ht Hk. unfold es_slot. split.
  - intros ([e oif] & Hin%elem_of_stree & Hv)%first_some_Some. cbn in Hv.
    destruct (Z.eqb_spec (id_of t e + 1) in_es); [|done]. injection Hv as ->. eauto.
  - intros (e & He & Hid). destruct (first_some _ _) as [k'|] eqn:Hf.
    + apply first_some_Some in Hf as ([e' oif] & Hin%elem_of_stree & Hv). cbn in Hv.
      destruct (Z.eqb_spec (id_of t e' + 1) in_es) as [Hid'|]; [|done]. injection Hv as ->.
      assert (e = e') as -> by (eapply (id_of_inj t g); (done || lia)). congruence.
    + rewrite first_some_None in Hf. specialize (Hf (e, k) ltac:(by apply elem_of_stree)). cbn in Hf.
      by rewrite (proj2 (Z.eqb_eq _ _) Hid) in Hf.
Qed.

(** A bit of the plain slot's mask: its segment has a slot. *)
Lemma skip_mask_bit t l i : 0 ≤ i → (∀ e, e ∈ l → 0 ≤ id_of t e.1 ≤ MAX_ES_ID) →
  Z.testbit (skip_mask t l) i = true ↔ ∃ e, e ∈ l ∧ id_of t e.1 = i.
Proof.
  intros Hi Hr. unfold skip_mask. assert (∀ z, Z.testbit (foldl (λ skip e, skip .| 1 ≪ (id_of t e.1 .& 63)) z l) i = true ↔
    Z.testbit z i = true ∨ ∃ e, e ∈ l ∧ id_of t e.1 = i) as Hg; [|rewrite Hg, Z.bits_0; naive_solver].
  induction l as [|e l IH]; intros z; cbn [foldl]; [set_solver|]. rewrite IH by set_solver.
  rewrite es_bit by (apply Hr; set_solver). rewrite Z.lor_spec, Z.shiftl_1_l, Z.pow2_bits_eqb by (apply Hr; set_solver).
  rewrite orb_true_iff, Z.eqb_eq. set_solver.
Qed.

(** The affinity a row gives. *)
Definition row_serves (r : Row) (in_es : Z) (from_leaf : bool) : bool :=
  let '(_, only, skip, etree) := r in
  if has etree SLOT_ETREE_LEAF then from_leaf
  else if from_leaf && has etree SLOT_ETREE_ROOT then false
  else if negb (only =? 0) then only =? in_es
  else (in_es =? 0) || negb (has skip (1 ≪ ((in_es - 1) .& 63))).

Lemma row_affinity d r in_es from_leaf : view m_SLOT_ES d !! row_oif r = row_value r →
  @slot_affinity (dp_l2 d) (row_oif r) in_es from_leaf = row_serves r in_es from_leaf.
Proof.
  destruct r as [[[oif only] skip] etree]. cbn [row_oif fst row_value]. intros Hv. unfold slot_affinity, row_serves.
  change (@SLOT_ES (dp_l2 d) !! oif) with (view m_SLOT_ES d !! oif). rewrite Hv.
  destruct ((only =? 0) && (skip =? 0) && (etree =? 0)) eqn:Ez; [|done].
  rewrite !andb_true_iff, !Z.eqb_eq in Ez. destruct Ez as [[-> ->] ->]. cbn. rewrite andb_false_r.
  unfold has. by rewrite Z.land_0_l, orb_true_r.
Qed.

Lemma root_mark_bits g : has (root_mark g) SLOT_ETREE_LEAF = false ∧
  has (root_mark g) SLOT_ETREE_ROOT = bool_decide (is_Some (sg_leaf g)) || sg_root_only g.
Proof. unfold root_mark. by destruct (bool_decide _ || _). Qed.

Definition root_serving (t : EsTable) (g : SlotGroup) (in_es : Z) : option Z :=
  match es_slot t g in_es with Some k => Some k | None => sg_plain g end.

(** Any slot but the leaf one: what it serves for roots decides. *)
Lemma serving_not_leaf t g in_es from_leaf k (b : bool) : sg_leaf g ≠ Some k →
  b = bool_decide (root_serving t g in_es = Some k) →
  (if from_leaf && has (root_mark g) SLOT_ETREE_ROOT then false else b)
  = bool_decide (serving t g in_es from_leaf = Some k).
Proof.
  intros Hk ->. unfold serving. fold (root_serving t g in_es). destruct (root_mark_bits g) as [_ ->].
  destruct from_leaf; cbn [andb]; [|done]. destruct (sg_leaf g) as [l|].
  - rewrite bool_decide_true by done. cbn [orb]. symmetry. by apply bool_decide_eq_false.
  - rewrite bool_decide_false by (by intros []). cbn [orb]. by destruct (sg_root_only g).
Qed.

Lemma es_row_serving t g e oif in_es : ids_ok t → known t g → distinct g → sg_es g !! e = Some oif →
  (id_of t e + 1 =? in_es) = bool_decide (root_serving t g in_es = Some oif).
Proof.
  intros Ht Hk Hd He. pose proof (es_slot_spec t g in_es) as Hspec.
  apply Bool.eq_iff_eq_true. rewrite Z.eqb_eq, bool_decide_eq_true. unfold root_serving. split.
  - intros Heq. by rewrite (proj2 (Hspec oif Ht Hk)) by eauto.
  - destruct (es_slot t g in_es) as [k|] eqn:Hs.
    + intros [= ->]. destruct (proj1 (Hspec oif Ht Hk) eq_refl) as (e' & He' & Hid'). rewrite <- Hid'.
      f_equal. f_equal. by eapply (di_es g Hd).
    + intros Hp. by destruct (di_plain _ Hd e oif Hp).
Qed.

Lemma plain_row_serving t g p in_es : ids_ok t → known t g → distinct g → 0 ≤ in_es ≤ 63 → sg_plain g = Some p →
  (in_es =? 0) || negb (has (skip_mask t (stree (sg_es g))) (1 ≪ ((in_es - 1) .& 63)))
  = bool_decide (root_serving t g in_es = Some p).
Proof.
  intros Ht Hk Hd Hes Hp. pose proof (es_slot_spec t g in_es) as Hspec. unfold root_serving. rewrite Hp.
  assert (∀ e, e ∈ stree (sg_es g) → 0 ≤ id_of t e.1 ≤ MAX_ES_ID) as Hrange.
  { intros [e oif] He%elem_of_stree. by eapply id_of_range. }
  destruct (Z.eqb_spec in_es 0) as [->|Hne]; cbn [orb].
  - symmetry. apply bool_decide_eq_true. destruct (es_slot t g 0) as [k|] eqn:Hs; [|done].
    destruct (proj1 (Hspec k Ht Hk) eq_refl) as (e & He & Hid). pose proof (id_of_range t g e k Ht Hk He). lia.
  - rewrite es_bit by (unfold MAX_ES_ID; lia). rewrite Z.shiftl_1_l, has_pow2 by lia.
    pose proof (skip_mask_bit t (stree (sg_es g)) (in_es - 1) ltac:(lia) Hrange) as Hb.
    destruct (Z.testbit _ _); cbn [negb]; symmetry.
    + apply bool_decide_eq_false. destruct (proj1 Hb eq_refl) as ([e k] & He%elem_of_stree & Hid). cbn in Hid.
      rewrite (proj2 (Hspec k Ht Hk)) by (exists e; split; [done|lia]). intros [= ->]. by destruct (di_plain _ Hd e p Hp).
    + apply bool_decide_eq_true. destruct (es_slot t g in_es) as [k|] eqn:Hs; [|done].
      destruct (proj1 (Hspec k Ht Hk) eq_refl) as (e & He & Hid). discriminate (proj2 Hb). exists (e, k).
      split; [by apply elem_of_stree|cbn; lia].
Qed.

Lemma leaf_row_serving t g l in_es from_leaf : ids_ok t → known t g → distinct g → sg_leaf g = Some l →
  from_leaf = bool_decide (serving t g in_es from_leaf = Some l).
Proof.
  intros Ht Hk Hd Hl. unfold serving. rewrite Hl, (bool_decide_true (is_Some _)) by done.
  destruct from_leaf; cbn [andb]; symmetry; [by apply bool_decide_eq_true|]. apply bool_decide_eq_false.
  destruct (es_slot t g in_es) as [k|] eqn:Hs.
  - intros [= ->]. apply es_slot_spec in Hs as (e & He & _); [|done..]. by destruct (di_leaf _ Hd e l Hl).
  - by destruct (di_leaf _ Hd ""%string l Hl).
Qed.

Lemma row_serving t g r in_es from_leaf : ids_ok t → known t g → distinct g → 0 ≤ in_es ≤ 63 → r ∈ rows_of t g →
  row_serves r in_es from_leaf = bool_decide (serving t g in_es from_leaf = Some (row_oif r)).
Proof.
  intros Ht Hk Hd Hes Hr. destruct (root_mark_bits g) as [M1 _]. unfold rows_of in Hr. rewrite !elem_of_app in Hr.
  destruct Hr as [([e oif] & -> & He%elem_of_stree)%list_elem_of_fmap|[Hr|Hr]].
  - cbn [row_serves row_oif fst snd]. rewrite M1. pose proof (id_of_range t g e oif Ht Hk He) as Hid.
    rewrite (proj2 (Z.eqb_neq (id_of t e + 1) 0)) by lia. cbn [negb].
    apply serving_not_leaf; [|by apply es_row_serving]. intros Hl. by destruct (di_leaf _ Hd e oif Hl).
  - destruct (sg_plain g) as [p|] eqn:Hp; [|set_solver]. apply list_elem_of_singleton in Hr as ->.
    cbn [row_serves row_oif fst snd]. rewrite M1, Z.eqb_refl. cbn [negb].
    apply serving_not_leaf; [|by apply plain_row_serving]. intros Hl. by destruct (di_leaf _ Hd ""%string p Hl).
  - destruct (sg_leaf g) as [l|] eqn:Hl; [|set_solver]. apply list_elem_of_singleton in Hr as ->.
    cbn [row_serves row_oif fst snd]. change (has SLOT_ETREE_LEAF SLOT_ETREE_LEAF) with true. by apply leaf_row_serving.
Qed.

(** Every step of a list of requests is proper where it runs. *)
Fixpoint proper_run (rs : list SlotReq) (c : @Control _ _) : Prop :=
  match rs with [] => True | r :: rs => proper_slot c r ∧ proper_run rs (run_slot r c).1 end.

Lemma run_slots_ok rs (c c' : Control) : each run_slot rs c = (c', Ok tt) → groups_ok c → proper_run rs c → groups_ok c'.
Proof.
  revert c. induction rs as [|r rs IH]; intros c E Hok Hp; [by injection E as <-|].
  apply each_cons_inv in E as (c1 & E1 & E2). destruct Hp as [Hp Hps]. rewrite E1 in Hps.
  apply (IH c1); [done| |done]. by eapply run_slot_step.
Qed.

(** C34: a copy toward a PE is sent once. Run any list of successful
    requests on replication slot groups, each slot with an ifindex of its
    own, from a control plane without groups. Then for every group and every
    flooded frame, from a port of any segment or none, from a leaf or a root
    port, the data plane lets exactly the slot [serving] names carry the
    copy: the PE's leaf slot alone for a leaf's frame where there is one, no
    slot for a leaf's frame in a group for roots only, else the slot of the
    frame's own segment, else the plain one. *)
Theorem slot_groups_serve_once rs (c c' : Control) : c_slot_groups c = ∅ → ids_ok (c_es c) →
  proper_run rs c → each run_slot rs c = (c', Ok tt) →
  ∀ key g k in_es from_leaf, c_slot_groups c' !! key = Some g → in_group g k → 0 ≤ in_es ≤ 63 →
  @slot_affinity (dp_l2 (now (c_run c'))) k in_es from_leaf = bool_decide (serving (c_es c') g in_es from_leaf = Some k).
Proof.
  intros Hnone Hids Hp E key g k in_es from_leaf Hg Hk Hes.
  assert (groups_ok c) as Hok by (split; [done|intros ? ?; by rewrite Hnone, lookup_empty..]).
  destruct (run_slots_ok _ _ _ E Hok Hp) as [Hids' Hgr _]. destruct (Hgr _ _ Hg) as (Kn & D & R).
  rewrite <- elem_of_group_slots, <- (row_oif_slots (c_es c')) in Hk. apply list_elem_of_fmap in Hk as (r & -> & Hr).
  rewrite (row_affinity _ _ _ _ (R r Hr)). by apply row_serving.
Qed.
End slots.

(** ** One PE with three slots *)

(** A check of [proper_run] by evaluation. *)
Definition check_slot `{HostOps} `{Regex} `{MapSys} (c : @Control _ _) (r : SlotReq) : bool :=
  match r with
  | SlotBind _ a _ => forallb (λ kg : GroupKey * SlotGroup, negb (bool_decide (a ∈ group_slots kg.2))) (map_to_list (c_slot_groups c))
  | SlotUnbind key a => forallb (λ kg : GroupKey * SlotGroup, bool_decide (kg.1 = key) || negb (bool_decide (a ∈ group_slots kg.2)))
                          (map_to_list (c_slot_groups c))
  | SlotRootOnly _ _ => true
  end.
Fixpoint check_run `{HostOps} `{Regex} `{MapSys} (rs : list SlotReq) (c : @Control _ _) : bool :=
  match rs with [] => true | r :: rs => check_slot c r && check_run rs (run_slot r c).1 end.

Lemma check_run_spec `{HostOps} `{Regex} `{MapSysLaws} rs (c : @Control _ _) : check_run rs c = true → proper_run rs c.
Proof.
  revert c. induction rs as [|r rs IH]; intros c; cbn; [done|]. rewrite andb_true_iff. intros [Hr Hs]. split; [|by apply IH].
  destruct r as [key a role|key a|]; cbn in *; [..|done]; rewrite forallb_forall in Hr.
  - intros k g Hg Hin. specialize (Hr (k, g) ltac:(by apply list_elem_of_In, elem_of_map_to_list)).
    rewrite negb_true_iff in Hr. apply bool_decide_eq_false in Hr. by apply Hr, elem_of_group_slots.
  - intros k g Hne Hg Hin. specialize (Hr (k, g) ltac:(by apply list_elem_of_In, elem_of_map_to_list)). cbn in Hr.
    rewrite bool_decide_false in Hr by done. cbn in Hr. rewrite negb_true_iff in Hr. apply bool_decide_eq_false in Hr.
    by apply Hr, elem_of_group_slots.
Qed.

Definition ex_pe : GroupKey := (ip_to_v6_bytes ex_peer, 100).
Definition ex_slot_reqs : list SlotReq :=
  [SlotBind ex_pe 21 RolePlain; SlotBind ex_pe 22 (RoleEs "a"); SlotBind ex_pe 23 RoleLeaf;
   SlotBind ex_pe 24 (RoleEs "b"); SlotUnbind ex_pe 24; SlotRootOnly (zero16, 7) true].

(** A frame of segment "a" (id 0) goes by slot 22 only, a leaf's by 23. *)
Lemma slot_groups_serve_once_witness :
  let run := @each ref_host literal_regex _ (@run_slot ref_host literal_regex ref_sys) ex_slot_reqs ex_es_control in
  let d := dp_l2 (now (c_run run.1)) in
  run.2 = Ok tt ∧
  (λ k, @slot_affinity d k 1 false) <$> [21; 22; 23] = [false; true; false] ∧
  (λ k, @slot_affinity d k 1 true) <$> [21; 22; 23] = [false; false; true] ∧
  ∀ key g k in_es from_leaf, c_slot_groups run.1 !! key = Some g → in_group g k → 0 ≤ in_es ≤ 63 →
    @slot_affinity d k in_es from_leaf = bool_decide (serving (c_es run.1) g in_es from_leaf = Some k).
Proof.
  cbn zeta. split; [vm_compute; reflexivity|]. split; [vm_compute; reflexivity|]. split; [vm_compute; reflexivity|].
  apply (@slot_groups_serve_once ref_host literal_regex ref_sys ref_sys_laws ex_slot_reqs ex_es_control).
  - reflexivity.
  - split; cbn; intros esi; intros; by rewrite lookup_empty in *.
  - apply (@check_run_spec ref_host literal_regex ref_sys ref_sys_laws). vm_compute. reflexivity.
  - apply ok_pair. vm_compute. reflexivity.
Defined.
