(* ===== verification/TraceProps.v ===== *)
(** * The policy trace: its property

    [policy_trace] answers, from user space, what the enforcement point of
    an endpoint does with a flow.  The two are separate implementations: the
    trace in [crates/cradle/src/control.rs] reads the maps through the
    control plane, the TC program takes them apart per packet. *)

From S2P Require Import Prelude.
From S2P Require Import Contract.
From S2P Require Import Common.
From S2P Require Import Bpf.
From S2P Require Import Frames.
From S2P Require Import KernelRef.
From S2P Require Import Maps.
From S2P Require Import Policy.
From S2P Require Import PolicyProps.
From S2P Require Import MapRefs.
From S2P Require Import Dataplane.
From S2P Require Import Cni.
From S2P Require Import L7.
From S2P Require Import Control.
From S2P Require Import Ports.
From S2P Require Import Pods.
From S2P Require Import DpPolicy.
From S2P Require Import HostRef.

(** The frame carries the flow the trace is asked about: [ty] is its
    ethertype, [port] the destination port (0 for other protocols). *)
Definition carries (p ty : bytes) (src dst : IpAddr) (proto port : Z) : Prop :=
  match src, dst with
  | V4 s, V4 t => of_be ty = ETH_P_IP ∧ length s = 4%nat ∧ Forall is_byte s ∧
      ∃ sport, flow4 p = Some (mkCtKey (of_le s) (of_le t) sport (port_to_map port) proto)
  | V6 s, V6 t => of_be ty = ETH_P_IPV6 ∧
      ∃ sport, flow6 p = Some (mkCtKey6 s t sport (port_to_map port) proto)
  | _, _ => False
  end.

(** No flow it would be a reply of is recorded. *)
Definition opens_flow (w : World) : Prop :=
  (∀ k, flow4 (pkt w) = Some k → PCT w !! reverse4 k = None) ∧
  (∀ k, flow6 (pkt w) = Some k → PCT6 w !! reverse6 k = None).

#[global] Instance Verdict_eq_dec : EqDecision Verdict.
Proof. solve_decision. Defined.

Section trace.
Context `{HostOps} `{Regex} `{KernelLaws}.

Lemma ex_some {A} (x : A) (P : A → Prop) : (∃ y, Some x = Some y ∧ P y) ↔ P x.
Proof. split; [by intros (y & [= <-] & ?)|by exists x]. Qed.

(** The probes, against the program's walk. *)
Lemma trace_probes_walk d key pats allowed :
  let '(a, denied) := trace_probes d key pats allowed in
  denied || negb a = @policy_walk (dp_pol d) key pats allowed.
Proof.
  revert allowed. induction pats as [|p pats IH]; intros allowed; [done|]. cbn [trace_probes policy_walk].
  change (policy_get d (key p)) with (@POLICY (dp_pol d) !! key p).
  destruct (@POLICY (dp_pol d) !! key p) as [v|]; [|apply IH].
  destruct (v =? POLICY_DENY); [done|apply IH].
Qed.

Lemma trace_identity4 d vrf s : length s = 4%nat → Forall is_byte s →
  trace_identity d vrf (V4 s) = @identity4 _ (dp_pol d) vrf (of_le s).
Proof.
  intros Hl Hb. unfold trace_identity, identity4, identity_get, cidr_identity_get, ipv4_to_map.
  replace (to_le 4 (of_le s)) with s by (rewrite <- Hl; symmetry; by apply to_of_le).
  change (view m_IDENTITY d) with (@IDENTITY (dp_pol d)). change (view m_CIDR_ID d) with (@CIDR_ID (dp_pol d)).
  by destruct (_ !! _).
Qed.
Lemma trace_identity6 d vrf s : trace_identity d vrf (V6 s) = @identity6 _ (dp_pol d) vrf s.
Proof.
  unfold trace_identity, identity6, identity6_get, cidr6_identity_get.
  change (view m_IDENTITY6 d) with (@IDENTITY6 (dp_pol d)). change (view m_CIDR_ID6 d) with (@CIDR_ID6 (dp_pol d)).
  by destruct (_ !! _).
Qed.

Lemma trace_rules_spec d ep fl identity proto port :
  let allows := @policy_allows (dp_pol d) ep identity (port_to_map port) proto (dir_gen fl POLICY_DIR_INGRESS) in
  let v := trace_rules d ep fl identity proto port in
  (v = TAllow ↔ allows) ∧ (v = TDeny ↔ ¬ allows ∧ has fl EP_F_AUDIT = false).
Proof.
  intros allows v. unfold v, trace_rules.
  pose proof (trace_probes_walk d (trace_key ep identity proto (port_to_map port) (if has fl EP_F_GEN then POLICY_KEY_GEN else 0))
    [0; 4; 6; 1; 5; 7] false) as Hw.
  destruct (trace_probes _ _ _ _) as [a dn]. rewrite Hw.
  pose proof (@policy_walk_denied (dp_pol d) ep identity (port_to_map port) proto (dir_gen fl POLICY_DIR_INGRESS)) as Hd.
  change (policy_walk _ _ false) with
    (@policy_walk (dp_pol d) (policy_key ep identity (port_to_map port) proto (dir_gen fl POLICY_DIR_INGRESS)) POLICY_PATS false).
  fold allows in Hd. destruct (policy_walk _ _ _), (has fl EP_F_AUDIT); naive_solver.
Qed.

(** The frame's denial, in the terms of the trace. *)
Lemma denied_frame d ep fl vrf w ty src dst proto port :
  carries (pkt w) ty src dst proto port → opens_flow w →
  let denied :=
    of_be ty = ETH_P_IP ∧ @denies4 _ (dp_pol d) w ep (dir_gen fl POLICY_DIR_INGRESS) vrf ∨
    of_be ty = ETH_P_IPV6 ∧ @denies6 _ (dp_pol d) w ep (dir_gen fl POLICY_DIR_INGRESS) vrf in
  denied ↔ ¬ @policy_allows (dp_pol d) ep (trace_identity d vrf src) (port_to_map port) proto (dir_gen fl POLICY_DIR_INGRESS).
Proof.
  intros Hc [H4 H6]. assert (has (dir_gen fl POLICY_DIR_INGRESS) POLICY_DIR_EGRESS = false) as Hdir.
  { unfold dir_gen. by destruct (has fl EP_F_GEN). }
  destruct src as [s|s], dst as [t|t]; cbn [carries] in Hc; try done; cbn zeta.
  - destruct Hc as (Hty & Hl & Hb & sport & Hf). rewrite trace_identity4 by done. specialize (H4 _ Hf).
    unfold denies4, admits4. rewrite Hf, Hty, Hdir. split.
    + intros [[_ Hd]|[? _]]; [|done]. intros Ha. apply (Hd _ eq_refl). by right.
    + intros Ha. left. split; [done|]. intros k [= <-] [[v Hp]|Hp]; [congruence|done].
  - destruct Hc as (Hty & sport & Hf). rewrite trace_identity6. specialize (H6 _ Hf).
    unfold denies6, admits6. rewrite Hf, Hty, Hdir. split.
    + intros [[? _]|[_ Hd]]; [done|]. intros Ha. apply (Hd _ eq_refl). by right.
    + intros Ha. right. split; [done|]. intros k [= <-] [[v Hp]|Hp]; [congruence|done].
Qed.

(** The trace, once the endpoint is found. *)
Definition trace_at (c : Control) (ep : Z) (src dst : IpAddr) (vrf proto port : Z) : Verdict :=
  let d := now (c_run c) in
  match @EP_POLICY (dp_pol d) !! ep with
  | None => TDefaultAllow
  | Some fl =>
      if negb (has fl EP_F_INGRESS) then TDefaultAllow
      else if l7_steered (c_l7_policies c) dst port then TL7
      else trace_rules d ep fl (trace_identity d vrf src) proto port
  end.

Lemma policy_trace_run (c : Control) e src dst vrf proto port :
  find_ep (ep_addressed dst) (merge_sort endpoint_le (map_to_list (st_endpoints (c_cni c))).*2) = Some e →
  policy_trace src dst vrf proto port c = (c, Ok (trace_at c (ep_host_ifindex e) src dst vrf proto port)).
Proof.
  intros He. unfold policy_trace, on_cni, list_endpoints, gets, trace_at. destruct c. cbn in He.
  cbn -[find_ep merge_sort map_to_list]. unfold mbind, M_bind. cbn -[find_ep merge_sort map_to_list trace_rules].
  rewrite He. cbn -[trace_rules]. change (ep_policy_get ?d ?e) with (@EP_POLICY (dp_pol d) !! e).
  destruct (_ !! _) as [fl|]; [|done]. destruct (negb _); [done|]. by destruct (l7_steered _ _ _).
Qed.

(** C32: the policy trace predicts the data plane. For a pod endpoint
    [e] of the destination address, traced in the VRF its port is bound to,
    the trace changes nothing and returns a verdict; unless that is the
    hand-off to the L7 proxy, the enforcement point at the pod's port drops
    a frame that opens the traced flow exactly if the verdict is [TDeny],
    and passes it untouched otherwise: by default, allowed, or audited. *)
Theorem policy_trace_faithful (c : Control) e src dst vrf proto port w ty :
  let d := now (c_run c) in
  let ep := ep_host_ifindex e in
  rd (pkt w) ETH_TYPE_OFF 2 = Some ty → carries (pkt w) ty src dst proto port → opens_flow w →
  find_ep (ep_addressed dst) (merge_sort endpoint_le (map_to_list (st_endpoints (c_cni c))).*2) = Some e →
  vrf = @port_vrf (dp_fib d) ep →
  ∃ v, policy_trace src dst vrf proto port c = (c, Ok v) ∧
    (v ≠ TL7 → ∃ w' act, @ingress_policy _ (dp_fib d) (dp_pol d) ep w = (w', Ok act) ∧
       pkt w' = pkt w ∧ sent w' = sent w ∧
       act = (if decide (v = TDeny) then TC_ACT_SHOT else TC_ACT_PIPE)).
Proof.
  intros d ep Hty Hc Ho He ->. eexists. split; [by apply policy_trace_run|].
  set (v := trace_at _ _ _ _ _ _ _). fold ep in v. intros Hv.
  destruct (@ingress_policy_run _ _ (dp_fib d) (dp_pol d) ep w ty Hty) as (w' & act & Hr & Hp & Hs & Ha & Hi).
  exists w', act. split_and!; [done..|].
  assert (act = TC_ACT_SHOT ↔ v = TDeny) as Hshot; [|destruct (decide (v = TDeny)); tauto].
  rewrite Hi. unfold v, trace_at in *. fold d in Hv |- *.
  destruct (EP_POLICY !! ep) as [fl|]; [|split; [by intros (? & ? & _)|done]]. rewrite ex_some.
  destruct (has fl EP_F_INGRESS); cbn [negb] in *; [|split; [by intros [? _]|done]].
  destruct (l7_steered _ _ _); [done|].
  destruct (trace_rules_spec d ep fl (trace_identity d (@port_vrf (dp_fib d) ep) src) proto port) as [_ ->].
  rewrite (denied_frame d ep fl (@port_vrf (dp_fib d) ep) w ty src dst proto port Hc Ho). clear. tauto.
Qed.
End trace.

(** ** A traced pod

    Pod 10.0.0.3 behind port 7 admits identity 5, which 10.0.0.2 has, on
    every port but 80. *)
Definition ex_pod : Endpoint := mkEndpoint "c1" "eth0" "ns1" "veth7" 7 (of_be [10; 0; 0; 3]) None 0 "web" "default" false.
Definition ex_rules : list Rule := [mkRule 5 0 0 false; mkRule 5 6 80 true].
Definition ex_traced : Dp :=
  now (@endpoint_policy_set ref_sys 7 true false false ex_rules []
         (@identity_set ref_sys 0 [10; 0; 0; 2] 5 (mkRun empty_dp [])).1).1.
Definition ex_control : @Control ref_host literal_regex :=
  fresh_control (host_with {["veth7"%string := 7]} []) ex_traced
    (mkStore (mkIpamFile ∅ ∅) {[endpoint_path "c1" "eth0" := ex_pod]} []).

(** The trace of 10.0.0.2 to port 80 says [TDeny], and the port drops the
    frame; port 443 is allowed. *)
Lemma policy_trace_faithful_witness :
  let src := V4 [10; 0; 0; 2] in
  let dst := V4 [10; 0; 0; 3] in
  let w := world_of tcp_fwd in
  (@policy_trace ref_host literal_regex ref_kernel src dst 0 6 80 ex_control).2 = Ok TDeny ∧
  (@policy_trace ref_host literal_regex ref_kernel src dst 0 6 443 ex_control).2 = Ok TAllow ∧
  ∃ v, @policy_trace ref_host literal_regex ref_kernel src dst 0 6 80 ex_control = (ex_control, Ok v) ∧
    (v ≠ TL7 → ∃ w' act, @ingress_policy _ (dp_fib ex_traced) (dp_pol ex_traced) 7 w = (w', Ok act) ∧
       pkt w' = pkt w ∧ sent w' = sent w ∧
       act = (if decide (v = TDeny) then TC_ACT_SHOT else TC_ACT_PIPE)).
Proof.
  cbn zeta. split; [vm_compute; reflexivity|]. split; [vm_compute; reflexivity|].
  apply (@policy_trace_faithful ref_host literal_regex _ _ ex_control ex_pod (V4 [10; 0; 0; 2])
    (V4 [10; 0; 0; 3]) 0 6 80 (world_of tcp_fwd) [8; 0]).
  - vm_compute. reflexivity.
  - split; [reflexivity|]. split; [reflexivity|]. split; [repeat constructor; unfold is_byte; lia|].
    exists (of_le [18; 52]). vm_compute. reflexivity.
  - split; intros k _; apply lookup_empty.
  - vm_compute. reflexivity.
  - vm_compute. reflexivity.
Defined.
