(* ===== verification/Echo.v ===== *)
(** * The BFD Echo originator ([crates/cradle/src/bfd_echo.rs])

    The transmit half of BFD Echo: the session table the control plane fills,
    the frames, and the 10 ms tick that sends due Echoes and reports the
    sessions whose peer never answered.  The reflector and the detector are
    [Bfd]'s.  Times are nanoseconds of the monotonic clock; the sockets, the
    neighbour tables and the wall clock are the arguments [EchoEnv]. *)

From S2P Require Import Prelude.
From S2P Require Import Contract.
From S2P Require Import Bpf.
From S2P Require Import Bfd.
From S2P Require Import Maps.
From S2P Require Import MapRefs.
From S2P Require Import Dataplane.
From S2P Require Import L7.
From S2P Require Import Control.

(** ** Checksums *)

(** The big-endian words of [data]; an odd last byte is the high one. *)
Fixpoint be_words (data : bytes) : Z :=
  match data with
  | x :: y :: data => of_be [x; y] + be_words data
  | [x] => x ≪ 8
  | [] => 0
  end.

(** [while sum >> 16 != 0]: a 32-bit sum folds in at most two rounds. *)
Fixpoint fold_carries (fuel : nat) (sum : Z) : Z :=
  match fuel with
  | O => sum
  | S fuel => if sum ≫ 16 =? 0 then sum else fold_carries fuel ((sum .& 0xffff) + (sum ≫ 16))
  end.

Definition checksum (data : bytes) (initial : Z) : Z :=
  0xffff - wrap 16 (fold_carries 3 (initial + be_words data)).

(** Over the pseudo-header: [udp_checksum] and [udp_checksum_v6] add the same
    words in another order. *)
Definition udp_checksum (src dst udp : bytes) : Z :=
  let ck := checksum udp (be_words src + be_words dst + IPPROTO_UDP + Z.of_nat (length udp)) in
  if ck =? 0 then 0xffff else ck.
Definition udp_checksum_v6 (src dst udp : bytes) : Z :=
  let ck := checksum udp (be_words src + be_words dst + Z.of_nat (length udp) + IPPROTO_UDP) in
  if ck =? 0 then 0xffff else ck.

(** ** Frames *)

Definition ECHO_TTL : Z := 255.
Definition IP_HLEN : Z := 20.
Definition IP6_HLEN : Z := 40.
Definition UDP_HLEN : Z := 8.
Definition PAYLOAD_LEN : Z := 4 + 4 + 4 + 8.

Definition echo_payload (discr seq ts : Z) : bytes :=
  to_be 4 ECHO_MAGIC ++ to_be 4 discr ++ to_be 4 seq ++ to_be 8 ts.

Definition echo_udp (ck payload : bytes) : bytes :=
  to_be 2 BFD_ECHO_PORT ++ to_be 2 BFD_ECHO_PORT ++ to_be 2 (UDP_HLEN + PAYLOAD_LEN) ++ ck ++ payload.

(** Version and length, DSCP CS6, total length, no identification, TTL 255,
    UDP, the checksum, source and destination. *)
Definition echo_ip (ck local : bytes) : bytes :=
  [0x45] ++ [0xc0] ++ to_be 2 (IP_HLEN + UDP_HLEN + PAYLOAD_LEN) ++ [0; 0] ++ [0; 0]
  ++ [ECHO_TTL] ++ [IPPROTO_UDP] ++ ck ++ local ++ local.

Definition build_echo (if_mac dst_mac local : bytes) (discr seq ts : Z) : bytes :=
  let pl := echo_payload discr seq ts in
  dst_mac ++ if_mac ++ to_be 2 ETH_P_IP
  ++ echo_ip (to_be 2 (checksum (echo_ip [0; 0] local) 0)) local
  ++ echo_udp (to_be 2 (udp_checksum local local (echo_udp [0; 0] pl))) pl.

Definition echo_ip6 (local : bytes) : bytes :=
  [0x60; 0; 0; 0] ++ to_be 2 (UDP_HLEN + PAYLOAD_LEN) ++ [IPPROTO_UDP] ++ [ECHO_TTL] ++ local ++ local.

Definition build_echo_v6 (if_mac dst_mac local : bytes) (discr seq ts : Z) : bytes :=
  let pl := echo_payload discr seq ts in
  dst_mac ++ if_mac ++ to_be 2 ETH_P_IPV6 ++ echo_ip6 local
  ++ echo_udp (to_be 2 (udp_checksum_v6 local local (echo_udp [0; 0] pl))) pl.

Definition echo_frame (if_mac dst_mac : bytes) (local : IpAddr) (discr seq ts : Z) : bytes :=
  match local with
  | V4 l => build_echo if_mac dst_mac l discr seq ts
  | V6 l => build_echo_v6 if_mac dst_mac l discr seq ts
  end.

(** ** Sessions *)

Inductive EchoCmd : Type :=
| EchoAdd (discr : Z) (oif : string) (local peer : IpAddr) (tx detect : Z)
| EchoDel (discr : Z).

Record EchoSession := mkEchoSession {
  se_oif : string; se_local : IpAddr; se_peer : IpAddr; se_peer_mac : option bytes;
  se_tx : Z; se_detect : Z; se_next_tx : Z; se_added : Z; se_seq : Z }.

(** The engine: the sessions, the interfaces whose socket is open with our
    MAC on them, and the frames handed to the sockets. *)
Record BfdEchoEngine := mkEngine {
  en_sessions : gmap Z EchoSession; en_io : gmap string bytes; en_sent : list (string * bytes) }.

Definition set_sessions f e := mkEngine (f (en_sessions e)) (en_io e) (en_sent e).

Definition handle_echo (now : Z) (cmd : EchoCmd) (e : BfdEchoEngine) : BfdEchoEngine :=
  match cmd with
  | EchoAdd discr oif local peer tx detect =>
      set_sessions <[discr := mkEchoSession oif local peer None tx detect now now 0]> e
  | EchoDel discr => set_sessions (delete discr) e
  end.

(** What one tick finds outside: the clock, the neighbour caches, whether a
    socket can be opened on an interface (our MAC there), and for each
    session the wall clock, in microseconds, when its frame is built and
    when its next transmission is drawn. *)
Record EchoEnv := mkEchoEnv {
  ev_now : Z; ev_mac : string → IpAddr → option bytes; ev_open : string → option bytes;
  ev_ts : Z → Z; ev_wall : Z → Z }.

(** 75-100% of [base]. *)
Definition jitter (micros base : Z) : Z := base * (75 + micros mod 26) / 100.

(** The socket on [oif], opened on first use. *)
Definition io_for (ev : EchoEnv) (oif : string) (e : BfdEchoEngine) : BfdEchoEngine * option bytes :=
  match en_io e !! oif with
  | Some mac => (e, Some mac)
  | None =>
      match ev_open ev oif with
      | Some mac => (mkEngine (en_sessions e) (<[oif := mac]> (en_io e)) (en_sent e), Some mac)
      | None => (e, None)
      end
  end.

Definition transmit (ev : EchoEnv) (discr : Z) (s : EchoSession) (mac : bytes) (e : BfdEchoEngine) : BfdEchoEngine :=
  let '(e, io) := io_for ev (se_oif s) e in
  match io with
  | Some if_mac =>
      mkEngine (en_sessions e) (en_io e)
        (en_sent e ++ [(se_oif s, echo_frame if_mac mac (se_local s) discr (se_seq s) (ev_ts ev discr))])
  | None => e
  end.

(** A due session: resolve the peer once, send if that and the socket are
    there, and schedule the next Echo either way. *)
Definition send_due (ev : EchoEnv) (discr : Z) (s : EchoSession) (e : BfdEchoEngine) : BfdEchoEngine :=
  let mac := match se_peer_mac s with Some m => Some m | None => ev_mac ev (se_oif s) (se_peer s) end in
  let e := match mac with Some m => transmit ev discr s m e | None => e end in
  set_sessions <[discr := mkEchoSession (se_oif s) (se_local s) (se_peer s) mac (se_tx s) (se_detect s)
                   (ev_now ev + jitter (ev_wall ev discr) (se_tx s)) (se_added s) (wrap 32 (se_seq s + 1))]> e.

(** One session of the tick; the second component collects the sessions
    past their bootstrap window. *)
Definition tick_session (ev : EchoEnv) (st : BfdEchoEngine * list Z) (discr : Z) : BfdEchoEngine * list Z :=
  let '(e, down) := st in
  match en_sessions e !! discr with
  | None => (e, down)
  | Some s =>
      let e := if se_next_tx s <=? ev_now ev then send_due ev discr s e else e in
      (e, if se_detect s <? ev_now ev - se_added s then down ++ [discr] else down)
  end.

(** [order] is the order the session table is iterated in. *)
Definition tick_sessions (ev : EchoEnv) (order : list Z) (e : BfdEchoEngine) : BfdEchoEngine * list Z :=
  foldl (tick_session ev) (e, []) order.

Section echo.
Context `{HostOps} `{Regex} `{MapSys}.

Definition echo_tick (ev : EchoEnv) (order : list Z) (e : BfdEchoEngine) : M Run DpErr BfdEchoEngine :=
  let '(e, down) := tick_sessions ev order e in
  _ ← for_each (λ _ discr, bfd_echo_mark_down discr) 0 down;
  mret e.

(** The control plane's side; the command goes to the engine's channel. *)
Definition ctl_bfd_echo_arm (discr : Z) (oif : string) (local peer : IpAddr) (tx detect : Z) : Ctrl EchoCmd :=
  _ ← on_dp (bfd_echo_arm discr local (Z.min detect (2 ^ 64 - 1)));
  mret (EchoAdd discr oif local peer tx detect).
Definition ctl_bfd_echo_disarm (discr : Z) : Ctrl EchoCmd :=
  _ ← on_dp (bfd_echo_disarm discr); mret (EchoDel discr).
Definition ctl_bfd_detect_arm (discr detect_ns : Z) : Ctrl unit := on_dp (bfd_detect_arm discr detect_ns).
Definition ctl_bfd_detect_disarm (discr : Z) : Ctrl unit := on_dp (bfd_detect_disarm discr).
Definition ctl_bfd_poll_down (c : Control) : list (Z * Z) := bfd_poll_down (now (c_run c)).
End echo.
