(* ===== verification/EchoFrame.v ===== *)
(** * BFD Echo on the wire

    The originator's frames carry valid checksums; the reflector turns any
    valid frame round with one hop less; and a returning Echo re-arms its
    session's detector. *)

From S2P Require Import Prelude.
From S2P Require Import Contract.
From S2P Require Import Common.
From S2P Require Import Bpf.
From S2P Require Import Frames.
From S2P Require Import Maps.
From S2P Require Import Encap.
From S2P Require Import Xdp.
From S2P Require Import FrameRun.
From S2P Require Import Bfd.
From S2P Require Import MapRefs.
From S2P Require Import XdpMain.
From S2P Require Import Echo.

(** ** Checksums *)

Lemma fold_carries_spec s : 0 ≤ s < 65536 * 65535 →
  0 ≤ fold_carries 3 s ≤ 65535 ∧ fold_carries 3 s mod 65535 = s mod 65535.
Proof.
  intros Hs. destruct (fold_twice s Hs) as (Hr & _ & Hm). cbv zeta in Hr, Hm.
  assert (∀ x, 0 ≤ x → (x ≫ 16 =? 0) = true → x ≤ 65535) as Hz.
  { intros x Hx E%Z.eqb_eq. rewrite shr_div in E by lia. divlia. }
  cbn [fold_carries]. destruct (s ≫ 16 =? 0) eqn:E0; [specialize (Hz s); split; [lia|done]|].
  set (s1 := (s .& 0xffff) + (s ≫ 16)) in *.
  assert (0 ≤ s1 ∧ s1 mod 65535 = s mod 65535) as [H1 Hm1].
  { unfold s1. change 0xffff with (2 ^ 16 - 1). rewrite land_ones', shr_div by lia. divlia. }
  destruct (s1 ≫ 16 =? 0) eqn:E1; [specialize (Hz s1); split; [lia|done]|].
  set (s2 := (s1 .& 0xffff) + (s1 ≫ 16)) in *.
  assert (s2 ≫ 16 = 0) as ->; [|change (0 =? 0) with true; cbv iota; split; [lia|done]].
  rewrite shr_div by lia. apply Z.div_small. lia.
Qed.

Lemma be_words_app a b : Nat.Even (length a) → be_words (a ++ b) = be_words a + be_words b.
Proof.
  intros [n Hn]. revert a Hn. induction n as [|n IH]; intros a Hn.
  - by destruct a.
  - destruct a as [|x [|y a]]; cbn in Hn; try lia. cbn [app be_words]. rewrite IH by lia. lia.
Qed.

(** The same words in the two byte orders. *)
Lemma be_words_sum16 b : Nat.Even (length b) → be_words b mod 65535 = (256 * sum16 b) mod 65535.
Proof.
  intros [n Hn]. revert b Hn. induction n as [|n IH]; intros b Hn; [by destruct b|].
  destruct b as [|x [|y b]]; cbn in Hn; try lia. cbn [be_words sum16].
  specialize (IH b ltac:(lia)). unfold of_be, of_le. cbn [rev app foldr]. clear -IH.
  set (p := be_words b) in *. set (q := sum16 b) in *. clearbody p q. divlia.
Qed.

Lemma be_words_range b : Forall is_byte b → 0 ≤ be_words b ≤ 65536 * Z.of_nat (length b).
Proof.
  revert b. fix IH 1. intros [|x [|y b]] Hb; [cbn; lia| |].
  - apply Forall_cons in Hb as [Hx _]. unfold is_byte in Hx. cbn [be_words length]. rewrite shl_mul by lia. lia.
  - apply Forall_cons in Hb as [Hx [Hy Hb]%Forall_cons]. specialize (IH b Hb). unfold is_byte in *.
    cbn [be_words length]. unfold of_be, of_le. cbn [rev app foldr]. lia.
Qed.

Lemma checksum_spec data initial : Forall is_byte data → (length data ≤ 1000)%nat → 0 ≤ initial < 2 ^ 24 →
  u16 (checksum data initial) ∧ (checksum data initial + initial + be_words data) mod 65535 = 0.
Proof.
  intros Hb Hl Hi. pose proof (be_words_range data Hb) as Hw. unfold checksum, in_range, wrap.
  destruct (fold_carries_spec (initial + be_words data)) as [Hr Hm]; [lia|].
  set (r := fold_carries 3 _) in *. clearbody r. rewrite (Z.mod_small r) by lia. split; [lia|]. divlia.
Qed.

(** Storing the checksum makes the words add up to zero. *)
Lemma stored_checksum pre post initial c k : Nat.Even (length pre) → Nat.Even (length post) → u16 c →
  (c + initial + be_words (pre ++ [0; 0] ++ post)) mod 65535 = 0 → initial mod 65535 = (256 * k) mod 65535 →
  (k + sum16 (pre ++ to_be 2 c ++ post)) mod 65535 = 0.
Proof.
  intros Hpre Hpost Hc Hz Hk. rewrite !be_words_app in Hz by (done || by exists 1%nat).
  rewrite !sum16_app by (done || (rewrite to_be_length; by exists 1%nat)).
  pose proof (be_words_sum16 pre Hpre) as E1. pose proof (be_words_sum16 post Hpost) as E2.
  pose proof (of_be_le2 (to_be 2 c) (to_be_length 2 c)) as E3.
  rewrite of_to_be in E3 by (unfold in_range in Hc; change (256 ^ Z.of_nat 2) with 65536; lia).
  rewrite <- sum16_len2 in E3 by apply to_be_length. change (be_words [0; 0]) with 0 in Hz.
  set (a := sum16 pre) in *. set (b := sum16 post) in *. set (d := sum16 (to_be 2 c)) in *.
  set (a' := be_words pre) in *. set (b' := be_words post) in *. clearbody a b d a' b'. clear -Hz Hk E1 E2 E3.
  assert ((256 * (k + (a + (d + b)))) mod 65535 = 0) as H256.
  { replace (256 * (k + (a + (d + b)))) with (256 * k + 256 * a + 256 * d + 256 * b) by ring.
    clear -Hz Hk E1 E2 E3. divlia. }
  apply Z.mod_divide in H256; [|lia]. apply Z.mod_divide; [lia|].
  apply (Z.gauss _ 256); [done|]. by vm_compute.
Qed.

(** ** The originator's checksums *)

(** RFC 768, RFC 8200: the words of pseudo-header and datagram add up to
    zero, and the checksum is not the mark for none. *)
Definition udp_valid (src dst udp : bytes) : Prop :=
  (sum16 src + sum16 dst + sum16 [0; IPPROTO_UDP] + sum16 (to_be 2 (Z.of_nat (length udp))) + sum16 udp) mod 65535 = 0
  ∧ rd udp 6 2 ≠ Some [0; 0].

#[global] Instance udp_valid_dec src dst udp : Decision (udp_valid src dst udp).
Proof. unfold udp_valid. apply _. Defined.

Lemma echo_payload_length discr seq ts : length (echo_payload discr seq ts) = 20%nat.
Proof. unfold echo_payload. by rewrite !length_app, !to_be_length. Qed.

Lemma echo_payload_bytes discr seq ts : Forall is_byte (echo_payload discr seq ts).
Proof. unfold echo_payload. rewrite !Forall_app. split_and!; apply to_be_bytes. Qed.

Lemma echo_udp_length ck pl : length (echo_udp ck pl) = (6 + length ck + length pl)%nat.
Proof. unfold echo_udp. rewrite !length_app, !to_be_length. lia. Qed.

Lemma echo_udp_bytes ck pl : Forall is_byte ck → Forall is_byte pl → Forall is_byte (echo_udp ck pl).
Proof. intros. unfold echo_udp. rewrite !Forall_app. split_and!; [apply to_be_bytes..|done|done]. Qed.

Lemma zeros_bytes : Forall is_byte [0; 0].
Proof. unfold is_byte. repeat constructor; lia. Qed.

Lemma even_length {A} (l : list A) n : length l = (n + n)%nat → Nat.Even (length l).
Proof. intros ->. exists n. lia. Qed.

Lemma nonzero_checksum ck initial : u16 ck → (ck + initial) mod 65535 = 0 →
  let c := if ck =? 0 then 0xffff else ck in u16 c ∧ c ≠ 0 ∧ (c + initial) mod 65535 = 0.
Proof.
  unfold in_range. intros Hc Hz. destruct (Z.eqb_spec ck 0) as [->|]; [|split_and!; [lia..|done]].
  split_and!; [lia..|]. divlia.
Qed.

Lemma stored_udp src dst discr seq ts c n : length src = (n + n)%nat → length dst = (n + n)%nat →
  u16 c → c ≠ 0 → (c + (be_words src + be_words dst + IPPROTO_UDP + 28)
                     + be_words (echo_udp [0; 0] (echo_payload discr seq ts))) mod 65535 = 0 →
  udp_valid src dst (echo_udp (to_be 2 c) (echo_payload discr seq ts)).
Proof.
  intros Hs Hd Hc H0 Hz. unfold udp_valid. rewrite echo_udp_length, to_be_length, echo_payload_length. split.
  - unfold echo_udp in *. rewrite !(app_assoc (to_be 2 BFD_ECHO_PORT)) in *. rewrite !(app_assoc _ (to_be 2 (UDP_HLEN + _))) in *.
    eapply stored_checksum; [| |done|exact Hz|].
    + apply (even_length _ 3). by rewrite !length_app, !to_be_length.
    + apply (even_length _ 10), echo_payload_length.
    + pose proof (be_words_sum16 src (even_length _ _ Hs)). pose proof (be_words_sum16 dst (even_length _ _ Hd)).
      change (sum16 [0; IPPROTO_UDP]) with (256 * 17). change (sum16 (to_be 2 (Z.of_nat (6 + 2 + 20)))) with (256 * 28).
      unfold IPPROTO_UDP. divlia.
  - unfold echo_udp. rewrite !(app_assoc (to_be 2 BFD_ECHO_PORT)), !(app_assoc _ (to_be 2 (UDP_HLEN + _))).
    rewrite rd_app by (rewrite ?length_app, !to_be_length; done). intros E%(inj Some).
    apply (f_equal of_be) in E. rewrite of_to_be in E; [by apply H0|].
    unfold in_range in Hc. change (256 ^ Z.of_nat 2) with 65536. lia.
Qed.

Lemma udp_initial src dst : Forall is_byte src → Forall is_byte dst → (length src ≤ 16)%nat → (length dst ≤ 16)%nat →
  0 ≤ be_words src + be_words dst + IPPROTO_UDP + 28 < 2 ^ 24.
Proof.
  intros Hs Hd Hls Hld. pose proof (be_words_range src Hs). pose proof (be_words_range dst Hd).
  unfold IPPROTO_UDP. lia.
Qed.

Lemma udp_checksums_agree src dst udp : udp_checksum_v6 src dst udp = udp_checksum src dst udp.
Proof. unfold udp_checksum_v6, udp_checksum. by rewrite <- !Z.add_assoc, (Z.add_comm IPPROTO_UDP). Qed.

Lemma udp_checksum_valid src dst discr seq ts n : length src = (n + n)%nat → length dst = (n + n)%nat → (n ≤ 8)%nat →
  Forall is_byte src → Forall is_byte dst →
  udp_valid src dst (echo_udp (to_be 2 (udp_checksum src dst (echo_udp [0; 0] (echo_payload discr seq ts))))
                       (echo_payload discr seq ts)).
Proof.
  intros Hs Hd Hn Hsb Hdb. pose proof (udp_initial src dst Hsb Hdb ltac:(lia) ltac:(lia)) as Hi.
  set (udp := echo_udp [0; 0] (echo_payload discr seq ts)).
  assert (length udp = 28%nat) as Hlu by (unfold udp; by rewrite echo_udp_length, echo_payload_length).
  destruct (checksum_spec udp (be_words src + be_words dst + IPPROTO_UDP + 28)) as [Hc Hz]; [|lia|done|].
  { apply echo_udp_bytes; [apply zeros_bytes|apply echo_payload_bytes]. }
  rewrite <- Z.add_assoc in Hz. destruct (nonzero_checksum _ _ Hc Hz) as (Hc' & H0 & Hz').
  unfold udp_checksum. rewrite Hlu. change (Z.of_nat 28) with 28.
  apply (stored_udp src dst discr seq ts _ n); [done..|]. by rewrite <- Z.add_assoc.
Qed.

Definition echo_ip4 (if_mac dst_mac local : bytes) (discr seq ts : Z) : Ip4 :=
  mkIp4 dst_mac if_mac (to_be 2 ETH_P_IP) [0x45] [0xc0] (to_be 2 (IP_HLEN + UDP_HLEN + PAYLOAD_LEN)) [0; 0] [0; 0]
    [ECHO_TTL] [IPPROTO_UDP] (to_be 2 (checksum (echo_ip [0; 0] local) 0)) local local
    (echo_udp (to_be 2 (udp_checksum local local (echo_udp [0; 0] (echo_payload discr seq ts)))) (echo_payload discr seq ts)).

Lemma build_echo_fields if_mac dst_mac local discr seq ts :
  build_echo if_mac dst_mac local discr seq ts = ip4_bytes (echo_ip4 if_mac dst_mac local discr seq ts).
Proof.
  unfold build_echo, ip4_bytes, ip4_fields, echo_ip4, echo_ip. cbn [concat i4_dmac i4_smac i4_type i4_vihl i4_tos i4_len
    i4_id i4_frag i4_ttl i4_proto i4_csum i4_src i4_dst i4_rest]. by rewrite app_nil_r, <- !app_assoc.
Qed.

Lemma echo_ip4_wf if_mac dst_mac local discr seq ts : length if_mac = 6%nat → length dst_mac = 6%nat → length local = 4%nat →
  Forall is_byte if_mac → Forall is_byte dst_mac → Forall is_byte local →
  let f := echo_ip4 if_mac dst_mac local discr seq ts in wf_ip4 f ∧ csum_valid (ip4_header f).
Proof.
  intros Hi Hd Hl Hib Hdb Hlb f. split.
  - split; try done; try apply to_be_length. unfold ip4_bytes. cbn [concat ip4_fields f echo_ip4 i4_dmac i4_smac i4_type i4_vihl i4_tos i4_len
      i4_id i4_frag i4_ttl i4_proto i4_csum i4_src i4_dst i4_rest]. rewrite !Forall_app.
    split_and!; try done; try apply to_be_bytes; try apply zeros_bytes;
      try (apply echo_udp_bytes; [apply to_be_bytes|apply echo_payload_bytes]);
      unfold is_byte, ECHO_TTL, IPPROTO_UDP; repeat constructor; lia.
  - unfold csum_valid.
    change (ip4_header f) with ([0x45; 0xc0; 0; 48; 0; 0; 0; 0; 255; 17] ++ to_be 2 (checksum (echo_ip [0; 0] local) 0) ++ local ++ local ++ []).
    rewrite app_nil_r. destruct (checksum_spec (echo_ip [0; 0] local) 0) as [Hc Hz]; [|cbn; rewrite length_app, Hl; cbn; lia|lia|].
    { unfold echo_ip. rewrite !Forall_app. split_and!; try done; try apply to_be_bytes; try apply zeros_bytes;
        unfold is_byte, ECHO_TTL, IPPROTO_UDP; repeat constructor; lia. }
    rewrite <- (Z.add_0_l (sum16 _)). eapply (stored_checksum _ (local ++ local) 0); [by exists 5%nat| |done|exact Hz|done].
    apply (even_length _ 4). rewrite length_app. lia.
Qed.

(** ** The reflector *)

Lemma ttl_csum_step hc t p rest : u16 hc → 1 ≤ t < 256 →
  (256 * t + p + hc + rest) mod 65535 = 0 →
  let sum := hc + 0x0100 in
  let sum := (sum .& 0xffff) + (sum ≫ 16) in
  0 ≤ sum ≤ 65535 ∧ (256 * (t - 1) + p + sum + rest) mod 65535 = 0.
Proof.
  unfold in_range. intros Hh Ht Hz. cbv zeta. change 0xffff with (2 ^ 16 - 1).
  rewrite land_ones', shr_div by lia. divlia.
Qed.

Lemma bytes_of_word s : 0 ≤ s ≤ 65535 → [wrap 8 (s ≫ 8); s .& 0xff] = to_be 2 s.
Proof.
  intros Hs. change 0xff with (2 ^ 8 - 1). rewrite land_ones', shr_div by lia. done.
Qed.

Definition ip4_turned (c : bytes) (t : Z) (f : Ip4) : Ip4 :=
  ip4_set_macs (i4_smac f) (i4_dmac f) (ip4_set_csum c (ip4_set_ttl [t - 1] f)).

Lemma decrement_ttl_run f t w : wf_ip4 f → pkt w = ip4_bytes f → i4_ttl f = [t] → 1 ≤ t → csum_valid (ip4_header f) →
  ∃ c, decrement_ttl w = (set_pkt (ip4_bytes (ip4_set_csum c (ip4_set_ttl [t - 1] f))) w, Ok tt) ∧
    length c = 2%nat ∧ Forall is_byte c ∧ csum_valid (ip4_header (ip4_set_csum c (ip4_set_ttl [t - 1] f))).
Proof.
  intros Hwf Hp Ht H1 Hv. pose proof Hwf as [].
  assert (is_byte t ∧ Forall is_byte (i4_csum f)) as [Htb Hcb].
  { unfold ip4_bytes, ip4_fields in w4_bytes. cbn [concat] in w4_bytes. rewrite !Forall_app, Ht, Forall_singleton in w4_bytes.
    tauto. }
  pose proof (of_le_range _ (Forall_rev Hcb)) as Hcr. rewrite length_rev, w4_csum in Hcr.
  unfold decrement_ttl. rewrite (bind_ok (xdp_be_field 10 (ip4_fields f) (i4_csum f) IP_CHECK_OFF 2 w Hp eq_refl ltac:(unfold IP_CHECK_OFF, IP_OFF; flen) ltac:(flen))).
  erewrite bind_ok by (eapply (xdp_ne_field 8 (ip4_fields f)); [exact Hp|done|flen|flen]).
  rewrite Ht, of_le1. destruct (Z.eqb_spec t 0); [lia|].
  erewrite bind_ok by (eapply (xdp_wr_field 8 (ip4_fields f)); [exact Hp|done|flen|by rewrite w4_ttl]).
  pose proof (ip4_header_sum f Hwf) as Es. unfold csum_valid in Hv. rewrite Es in Hv.
  set (ck := of_be (i4_csum f)) in *. assert (u16 ck) as Hck by (unfold in_range, ck, of_be; exact Hcr).
  destruct (i4_proto f) as [|p [|]] eqn:Epr; [done| |done].
  set (R := of_le (i4_vihl f ++ i4_tos f) + of_le (i4_len f) + of_le (i4_id f) + of_le (i4_frag f)
            + sum16 (i4_src f) + sum16 (i4_dst f)) in *.
  pose proof (of_be_le2 _ w4_csum) as Ebl. fold ck in Ebl.
  destruct (ttl_csum_step ck t p (256 * R) Hck) as [Hs Hz]; [unfold is_byte in Htb; lia| |].
  { rewrite Ht in Hv. unfold of_le in Hv at 5. cbn [app foldr] in Hv. clear -Hv Ebl. unfold R. divlia. }
  set (sum := (ck + 256) .& 65535 + (ck + 256) ≫ 16) in *. rewrite bytes_of_word by done.
  pose proof (of_be_le2 (to_be 2 sum) (to_be_length 2 sum)) as Esl.
  rewrite of_to_be in Esl by (change (256 ^ Z.of_nat 2) with 65536; lia).
  exists (to_be 2 sum). split_and!; [|apply to_be_length|apply to_be_bytes|].
  - erewrite (xdp_wr_field 10 (<[8%nat := [t - 1]]> (ip4_fields f))); [by rewrite set_pkt_pkt|done|done| |].
    + unfold IP_CHECK_OFF, IP_OFF. flen. rewrite Epr. cbn [length]. lia.
    + by rewrite w4_csum.
  - unfold csum_valid. rewrite ip4_header_sum.
    + cbn [ip4_set_csum ip4_set_ttl i4_vihl i4_tos i4_len i4_id i4_frag i4_ttl i4_proto i4_csum i4_src i4_dst].
      rewrite Epr. unfold of_le at 5. cbn [app foldr]. clear -Hz Esl. unfold R in Hz. divlia.
    + apply wf_set_csum; [apply wf_set_ttl; [done..|]|apply to_be_length|apply to_be_bytes].
      rewrite Forall_singleton. unfold is_byte in *. lia.
Qed.

Lemma swap_macs_run d s rest w : pkt w = d ++ s ++ rest → length d = 6%nat → length s = 6%nat →
  swap_macs w = (set_pkt (s ++ d ++ rest) w, Ok tt).
Proof.
  intros Hp Hd Hs. unfold swap_macs.
  erewrite bind_ok by (apply (xdp_rd_mid [] d (s ++ rest)); [done|done|by rewrite Hd]).
  erewrite bind_ok by (apply (xdp_rd_mid d s rest); [done|by rewrite Hd|by rewrite Hs]).
  erewrite bind_ok by (apply (xdp_wr_mid [] d (s ++ rest)); [done|done|congruence]).
  erewrite (xdp_wr_mid s s rest); [by rewrite set_pkt_pkt|done|by rewrite Hs|congruence].
Qed.

Section reflector.
Context `{Kernel} `{BfdMaps}.

Lemma reflect_v4_run f t w : wf_ip4 f → pkt w = ip4_bytes f → i4_ttl f = [t] → 1 ≤ t → csum_valid (ip4_header f) →
  OUR_LOCAL_IPS !! of_be (i4_src f) = None →
  ∃ c, reflect_v4 w = (set_pkt (ip4_bytes (ip4_turned c t f)) w, Ok XDP_TX) ∧
    wf_ip4 (ip4_turned c t f) ∧ csum_valid (ip4_header (ip4_turned c t f)).
Proof.
  intros Hwf Hp Ht H1 Hv Hn. destruct (decrement_ttl_run f t w Hwf Hp Ht H1 Hv) as (c & Ed & Hcl & Hcb & Hv').
  exists c. split; [|split; [|exact Hv']].
  - pose proof Hwf as []. unfold reflect_v4.
    erewrite bind_ok by (eapply (xdp_be_field 11 (ip4_fields f)); [exact Hp|done|flen|by rewrite w4_src]).
    rewrite bool_decide_false by (rewrite Hn; by intros []).
    rewrite (bind_ok Ed). erewrite bind_ok; [|eapply (swap_macs_run (i4_dmac f) (i4_smac f)); [reflexivity|done..]].
    by rewrite set_pkt_pkt.
  - assert (is_byte t) as Htb.
    { destruct Hwf as []. unfold ip4_bytes, ip4_fields in w4_bytes. cbn [concat] in w4_bytes.
      rewrite !Forall_app, Ht, Forall_singleton in w4_bytes. tauto. }
    assert (wf_ip4 (ip4_set_csum c (ip4_set_ttl [t - 1] f))) as [].
    { apply wf_set_csum; [apply wf_set_ttl; [done..|]|done|done]. rewrite Forall_singleton. unfold is_byte in *. lia. }
    split; try done. unfold ip4_bytes, ip4_fields in *. cbn [concat ip4_turned ip4_set_macs i4_dmac i4_smac i4_type i4_vihl i4_tos i4_len
      i4_id i4_frag i4_ttl i4_proto i4_csum i4_src i4_dst i4_rest] in *. rewrite !Forall_app in *. tauto.
Qed.

(** The IPv6 frame the reflector turns: [flow] is version, class and label. *)
Definition ip6_bytes (dmac smac flow len : bytes) (nxt hop : Z) (src dst rest : bytes) : bytes :=
  dmac ++ smac ++ to_be 2 ETH_P_IPV6 ++ flow ++ len ++ [nxt] ++ [hop] ++ src ++ dst ++ rest.

Record wf_ip6 (dmac smac flow len src dst : bytes) : Prop := {
  w6_dmac : length dmac = 6%nat; w6_smac : length smac = 6%nat; w6_flow : length flow = 4%nat;
  w6_len : length len = 2%nat; w6_src : length src = 16%nat; w6_dst : length dst = 16%nat }.

Lemma reflect_v6_run dmac smac flow len nxt hop src dst rest w : wf_ip6 dmac smac flow len src dst →
  pkt w = ip6_bytes dmac smac flow len nxt hop src dst rest → 1 ≤ hop → OUR_LOCAL_IPS_V6 !! src = None →
  reflect_v6 w = (set_pkt (ip6_bytes smac dmac flow len nxt (hop - 1) dst src rest) w, Ok XDP_TX).
Proof.
  intros [] Hp H1 Hn. unfold reflect_v6.
  set (fs := [dmac; smac; to_be 2 ETH_P_IPV6; flow; len; [nxt]; [hop]; src; dst; rest]).
  assert (pkt w = concat fs) as Hf by (rewrite Hp; unfold ip6_bytes, fs; cbn [concat]; by rewrite app_nil_r).
  assert (fields_len (take 6 fs) = 21%nat ∧ fields_len (take 7 fs) = 22%nat ∧ fields_len (take 8 fs) = 38%nat) as (L6 & L7 & L8).
  { cbn [take fs]. rewrite !fields_len_cons, to_be_length. cbn [fields_len sum_list_with length]. lia. }
  erewrite bind_ok by (eapply (xdp_rd_field 7 fs); [exact Hf|done|by rewrite L7|by rewrite w6_src0]).
  rewrite bool_decide_false by (rewrite Hn; by intros []).
  unfold decrement_hop_limit, swap_ip6. rewrite bind_run.
  erewrite bind_ok by (eapply (xdp_ne_field 6 fs); [exact Hf|done|by rewrite L6|done]).
  rewrite of_le1. destruct (Z.eqb_spec hop 0); [lia|].
  rewrite (xdp_wr_field 6 fs [hop] [hop - 1] IP6_HOPLIMIT_OFF w Hf) by (done || by rewrite L6).
  set (fs1 := <[6%nat := [hop - 1]]> fs). set (w1 := set_pkt (concat fs1) w).
  assert (fields_len (take 7 fs1) = 22%nat ∧ fields_len (take 8 fs1) = 38%nat) as (L7' & L8').
  { cbn [take fs1 fs insert list_insert]. rewrite !fields_len_cons, to_be_length. cbn [fields_len sum_list_with length]. lia. }
  rewrite bind_run. erewrite bind_ok by (eapply (xdp_rd_field 7 fs1); [done|done|by rewrite L7'|by rewrite w6_src0]).
  erewrite bind_ok by (eapply (xdp_rd_field 8 fs1); [done|done|by rewrite L8'|by rewrite w6_dst0]).
  erewrite bind_ok by (eapply (xdp_wr_field 7 fs1); [done|done|by rewrite L7'|congruence]).
  erewrite (xdp_wr_field 8 (<[7%nat := dst]> fs1)); [|done|done| |congruence].
  2: { cbn [take fs1 fs insert list_insert]. rewrite !fields_len_cons, to_be_length. cbn [fields_len sum_list_with length]. unfold IP6_DST_OFF, ETH_HLEN. lia. }
  erewrite bind_ok; [|eapply (swap_macs_run dmac smac (drop 12 (concat (<[8%nat := src]> (<[7%nat := dst]> fs1))))); [|done..]].
  - rewrite !set_pkt_pkt. do 3 f_equal. unfold ip6_bytes. do 2 f_equal. cbn [concat fs1 fs insert list_insert].
    rewrite (app_assoc dmac), drop_app_length' by (rewrite length_app; lia). by rewrite app_nil_r.
  - cbn [pkt set_pkt concat fs1 fs insert list_insert].
    rewrite (app_assoc dmac) at 2. rewrite drop_app_length' by (rewrite length_app; lia). done.
Qed.

(** ** Returning Echoes *)

(** A frame whose payload at [off] is an Echo of ours. *)
Lemma record_return_run p q w off doff discr seq ts st : pkt w = p ++ echo_payload discr seq ts ++ q →
  off = Z.of_nat (length p) → doff = off + 4 → u32 discr → ECHO_TIMERS w !! discr = Some st →
  record_return off doff w =
    (set_ECHO_TIMERS (<[discr := kick_timer (timer_init (ticks w)) st]> (ECHO_TIMERS w)) (set_ticks (S (ticks w)) w), Ok tt).
Proof.
  intros Hp -> -> Hd Ht. unfold record_return, echo_payload in *. rewrite <- !app_assoc in Hp.
  erewrite bind_ok by (eapply xdp_be_mid; [exact Hp|done|by rewrite to_be_length]).
  rewrite of_to_be by done. rewrite Z.eqb_refl. cbn [negb].
  erewrite bind_ok by (eapply (xdp_be_mid (p ++ to_be 4 ECHO_MAGIC)); [by rewrite <- app_assoc|rewrite length_app, to_be_length; lia|by rewrite to_be_length]).
  rewrite of_to_be by exact Hd. rewrite bind_run. cbn [get]. rewrite Ht. done.
Qed.

(** What the detector holds after a return: up, and running its window. *)
Lemma kick_timer_up ok st : ds_down (kick_timer ok st) = 0 ∧ ds_detect_ns (kick_timer ok st) = ds_detect_ns st ∧
  (ds_armed st ≠ 0 ∨ ok = true → ds_timer (kick_timer ok st) = Some (ds_detect_ns st) ∧ ds_armed (kick_timer ok st) ≠ 0).
Proof.
  unfold kick_timer. cbn. split; [done|]. split; [done|]. intros Ho.
  destruct (Z.eqb_spec (ds_armed st) 0) as [E|E]; cbn.
  - destruct Ho as [?| ->]; [lia|]. done.
  - destruct (Z.eqb_spec (ds_armed st) 0); [lia|]. done.
Qed.
End reflector.

(** ** The dispatcher *)

Section dispatch.
Context `{Kernel} `{FibMaps} `{TunnelMaps} `{L3Maps} `{L2Maps} `{BfdMaps}.

(** Neither a replication slot, nor a cross-connect, nor a bridge port. *)
Definition plain_port (raw : Z) : Prop :=
  REPL_SID !! xdp_iif raw = None ∧ XCONNECT !! xdp_iif raw = None ∧ l2_port (xdp_iif raw) = None.

Lemma try_xdp_plain raw et w : plain_port raw → rd (pkt w) ETH_TYPE_OFF 2 = Some (to_be 2 et) → 0 ≤ et < 65536 → et ≠ ETH_P_8021Q →
  try_xdp raw w = (if et =? ETH_P_MPLS_UC then try_mpls_xdp
                   else if et =? ETH_P_IPV6 then try_ip6_xdp (xdp_iif raw)
                   else if et =? ETH_P_IP then try_udp4_xdp (xdp_iif raw) else mret XDP_PASS) w.
Proof.
  intros (Hr & Hx & Hl) Hty Het Hq. unfold try_xdp, slot_target. rewrite Hr.
  pose proof (xdp_be_run _ _ _ _ Hty) as Ety. rewrite of_to_be in Ety by done.
  rewrite bind_run. rewrite (bind_ok Ety). destruct (Z.eqb_spec et ETH_P_8021Q); [done|].
  erewrite bind_ok by done. cbn beta iota. rewrite Hx. cbn. rewrite Hl. by rewrite (bind_ok Ety).
Qed.

Lemma echo4_dispatch raw w : plain_port raw → rd (pkt w) ETH_TYPE_OFF 2 = Some (to_be 2 ETH_P_IP) →
  rd (pkt w) IP_VER_IHL_OFF 1 = Some [0x45] → rd (pkt w) IP_PROTO_OFF 1 = Some [IPPROTO_UDP] →
  rd (pkt w) (L4_OFF + 2) 2 = Some (to_be 2 BFD_ECHO_PORT) → try_xdp raw w = reflect_v4 w.
Proof.
  intros Hp Hty Hv Hpr Hd. rewrite (try_xdp_plain raw ETH_P_IP) by done.
  change (ETH_P_IP =? ETH_P_MPLS_UC) with false. change (ETH_P_IP =? ETH_P_IPV6) with false. cbv iota.
  change (ETH_P_IP =? ETH_P_IP) with true. cbv iota. unfold try_udp4_xdp.
  rewrite (bind_ok (xdp_ne_run _ _ _ _ Hv)). change (negb (of_le [0x45] .& 0x0f =? 5)) with false. cbv iota.
  rewrite (bind_ok (xdp_ne_run _ _ _ _ Hpr)). change (negb (of_le [IPPROTO_UDP] =? IPPROTO_UDP)) with false. cbv iota.
  by rewrite (bind_ok (xdp_be_run _ _ _ _ Hd)).
Qed.

Lemma echo6_dispatch raw w : plain_port raw → rd (pkt w) ETH_TYPE_OFF 2 = Some (to_be 2 ETH_P_IPV6) →
  rd (pkt w) IP6_NEXTHDR_OFF 1 = Some [IPPROTO_UDP] → rd (pkt w) (IP6_L4_OFF + 2) 2 = Some (to_be 2 BFD_ECHO_PORT) →
  ∀ w' act, reflect_v6 w = (w', Ok act) → try_xdp raw w = (w', Ok act).
Proof.
  intros Hp Hty Hpr Hd w' act E. rewrite (try_xdp_plain raw ETH_P_IPV6) by done.
  change (ETH_P_IPV6 =? ETH_P_MPLS_UC) with false. change (ETH_P_IPV6 =? ETH_P_IPV6) with true. cbv iota.
  unfold try_ip6_xdp, try_bfd6. rewrite bind_run.
  rewrite (bind_ok (xdp_ne_run _ _ _ _ Hpr)). change (negb (of_le [IPPROTO_UDP] =? IPPROTO_UDP)) with false. cbv iota.
  rewrite (bind_ok (xdp_be_run _ _ _ _ Hd)). change (of_be (to_be 2 BFD_ECHO_PORT) =? BFD_ECHO_PORT) with true. cbv iota.
  unfold fmap, M_fmap. rewrite E. done.
Qed.

Lemma cradle_xdp_ok raw w w' act : try_xdp raw w = (w', Ok act) → cradle_xdp raw w = (w', Ok act).
Proof. intros E. unfold cradle_xdp. rewrite bind_run. unfold catch. by rewrite E. Qed.
End dispatch.
