(* ===== verification/EchoProps.v ===== *)
(** * BFD Echo: the properties

    The bookkeeping of the addresses whose Echo returns are ours, the frames
    on the wire from the originator over the reflector and back, and the
    pacing of the originator. *)

From S2P Require Import Prelude.
From S2P Require Import Contract.
From S2P Require Import Common.
From S2P Require Import Bpf.
From S2P Require Import Frames.
From S2P Require Import KernelRef.
From S2P Require Import Maps.
From S2P Require Import Encap.
From S2P Require Import Xdp.
From S2P Require Import FrameRun.
From S2P Require Import Bfd.
From S2P Require Import MapRefs.
From S2P Require Import Dataplane.
From S2P Require Import DpRun.
From S2P Require Import DpPolicy.
From S2P Require Import XdpMain.
From S2P Require Import L7.
From S2P Require Import Control.
From S2P Require Import Echo.
From S2P Require Import EchoFrame.

(** ** Whose returns are ours

    [OUR_LOCAL_IPS] holds the address of every armed session, however
    sessions share addresses, re-arm and disarm, and whichever map calls
    fail. *)

Definition addr_ok (a : IpAddr) : Prop :=
  match a with
  | V4 b => length b = 4%nat ∧ Forall is_byte b
  | V6 b => length b = 16%nat ∧ Forall is_byte b
  end.
#[global] Instance addr_ok_dec a : Decision (addr_ok a).
Proof. destruct a; unfold addr_ok; apply _. Defined.

Definition ours (B : BfdMaps) (a : IpAddr) : Prop :=
  match a with
  | V4 b => is_Some (OUR_LOCAL_IPS !! of_be b)
  | V6 b => is_Some (OUR_LOCAL_IPS_V6 !! b)
  end.

(** The sessions on an address. *)
Definition users (locals : gmap Z IpAddr) (a : IpAddr) : nat := size (filter (λ kv, kv.2 = a) locals).

Record book_ok (N : Z) (B : BfdMaps) (refs : gmap IpAddr Z) (locals : gmap Z IpAddr) : Prop := {
  bo_counted a : (0 < users locals a)%nat → ∃ r, refs !! a = Some r ∧ Z.of_nat (users locals a) ≤ r;
  bo_present a r : refs !! a = Some r → 0 < r → ours B a;
  bo_range a r : refs !! a = Some r → addr_ok a ∧ 0 ≤ r ≤ N;
}.
Definition bfd_ok (N : Z) (d : Dp) : Prop := book_ok N (dp_bfd d) (dp_ip_refs d) (dp_echo_local d).

Lemma users_insert locals k a b :
  (users (<[k := a]> locals) b ≤ (if decide (a = b) then 1 else 0) + users locals b)%nat.
Proof.
  unfold users. rewrite map_filter_insert. cbn [snd]. destruct (decide (a = b)) as [->|Hn].
  - rewrite map_size_insert. destruct (_ !! _); cbn; lia.
  - rewrite map_filter_delete, map_size_delete. destruct (_ !! _); cbn; lia.
Qed.

Lemma users_delete locals k a b : locals !! k = Some a →
  users (delete k locals) b = (users locals b - if decide (a = b) then 1 else 0)%nat.
Proof.
  intros Hk. unfold users. rewrite map_filter_delete, map_size_delete, map_lookup_filter, Hk.
  cbn. destruct (decide (a = b)) as [->|Hn].
  - rewrite option_guard_decide, decide_True by done. cbn. lia.
  - rewrite option_guard_decide, decide_False by done. cbn. lia.
Qed.

Lemma users_pos locals k a : locals !! k = Some a → (0 < users locals a)%nat.
Proof.
  intros Hk. unfold users. apply Nat.neq_0_lt_0. rewrite map_size_ne_0_lookup. exists k, a.
  by apply map_lookup_filter_Some.
Qed.

Lemma of_be_inj4 a b : length a = length b → Forall is_byte a → Forall is_byte b → of_be a = of_be b → a = b.
Proof. intros Hl Ha Hb E. by rewrite <- (to_of_be a Ha), <- (to_of_be b Hb), E, Hl. Qed.

Lemma book_insert N B refs locals a r : book_ok N B refs locals → addr_ok a → 0 ≤ r ≤ N →
  default 0 (refs !! a) ≤ r → (0 < r → ours B a) → book_ok N B (<[a := r]> refs) locals.
Proof.
  intros [Hc Hp Hr] Ha Hrn Hle Ho. split.
  - intros b Hb. destruct (Hc b Hb) as (n & En & Hn). destruct (decide (a = b)) as [->|].
    + rewrite lookup_insert_eq. exists r. rewrite En in Hle. cbn in Hle. split; [done|lia].
    + rewrite lookup_insert_ne by done. eauto.
  - intros b n. destruct (decide (a = b)) as [->|]; [rewrite lookup_insert_eq|rewrite lookup_insert_ne by done].
    + intros [= <-]. done.
    + eauto.
  - intros b n. destruct (decide (a = b)) as [->|]; [rewrite lookup_insert_eq|rewrite lookup_insert_ne by done].
    + by intros [= <-].
    + eauto.
Qed.

Lemma book_more N N' B B' refs locals : book_ok N B refs locals → N ≤ N' →
  (∀ a, ours B a → ours B' a) → book_ok N' B' refs locals.
Proof.
  intros [Hc Hp Hr] Hle Ho. split; [done|eauto|]. intros a r E. destruct (Hr _ _ E). split; [done|lia].
Qed.

(** One more session on [a], and one more reference. *)
Lemma book_arm N B refs locals discr a r : book_ok N B refs locals → addr_ok a →
  refs !! a = Some r → ours B a → r + 1 ≤ N →
  book_ok N B (<[a := r + 1]> refs) (<[discr := a]> locals).
Proof.
  intros Hb Ha Er Ho Hn. destruct (bo_range _ _ _ _ Hb a r Er) as [_ Hr0].
  destruct Hb as [Hc Hp Hr]. split.
  - intros b Hu. pose proof (users_insert locals discr a b) as Hle. destruct (decide (a = b)) as [->|Hne].
    + rewrite lookup_insert_eq. eexists. split; [done|].
      destruct (decide (0 < users locals b)%nat) as [Hu0|Hu0]; [|lia].
      destruct (Hc b Hu0) as (n & En & Hn'). assert (n = r) as -> by congruence. lia.
    + rewrite lookup_insert_ne by done. destruct (Hc b) as (n & En & Hn'); [lia|].
      exists n. split; [done|lia].
  - intros b n. destruct (decide (a = b)) as [->|]; [rewrite lookup_insert_eq|rewrite lookup_insert_ne by done; eauto].
    intros [= <-]. done.
  - intros b n. destruct (decide (a = b)) as [->|]; [rewrite lookup_insert_eq|rewrite lookup_insert_ne by done; eauto].
    intros [= <-]. split; [done|lia].
Qed.

Lemma book_forget N B refs locals discr : book_ok N B refs locals → book_ok N B refs (delete discr locals).
Proof.
  intros [Hc Hp Hr]. split; [|done..]. intros a Hu.
  assert (users (delete discr locals) a ≤ users locals a)%nat as Hle.
  { destruct (locals !! discr) as [b|] eqn:E; [rewrite (users_delete _ _ b) by done; lia|by rewrite delete_id]. }
  destruct (Hc a) as (n & En & Hn); [lia|]. exists n. split; [done|lia].
Qed.

(** One session less on [a]: the address goes with its last session. *)
Lemma book_disarm N B B' refs locals discr a r : book_ok N B refs locals → locals !! discr = Some a →
  refs !! a = Some r → (∀ b, addr_ok b → a ≠ b → ours B b → ours B' b) → (1 < r → ours B a → ours B' a) →
  book_ok N B' (if Z.max 0 (r - 1) =? 0 then delete a refs else <[a := Z.max 0 (r - 1)]> refs) (delete discr locals).
Proof.
  intros Hb Hd Er Ho Ho'. pose proof (users_pos _ _ _ Hd) as Hu.
  destruct Hb as [Hc Hp Hr]. destruct (Hc a Hu) as (n & En & Hn). assert (n = r) as -> by congruence. clear En.
  destruct (Hr _ _ Er) as [Ha Hrn].
  assert (∀ b, b ≠ a → (if Z.max 0 (r - 1) =? 0 then delete a refs else <[a := Z.max 0 (r - 1)]> refs) !! b = refs !! b) as Hne.
  { intros b Hn'. destruct (_ =? 0); [by apply lookup_delete_ne|by apply lookup_insert_ne]. }
  assert (∀ x, (if Z.max 0 (r - 1) =? 0 then delete a refs else <[a := Z.max 0 (r - 1)]> refs) !! a = Some x → 1 < r ∧ x = r - 1) as Heq.
  { intros x. destruct (Z.eqb_spec (Z.max 0 (r - 1)) 0); [by rewrite lookup_delete_eq|].
    rewrite lookup_insert_eq. intros [= <-]. lia. }
  split.
  - intros b. rewrite (users_delete _ _ a) by done. destruct (decide (a = b)) as [<-|Hn'].
    + intros Hu'. exists (r - 1). destruct (Z.eqb_spec (Z.max 0 (r - 1)) 0); [lia|].
      rewrite lookup_insert_eq. split; [f_equal; lia|lia].
    + intros Hu'. rewrite Hne by done. destruct (Hc b) as (m & Em & Hm); [lia|]. exists m. split; [done|lia].
  - intros b m. destruct (decide (b = a)) as [->|Hn'].
    + intros [Hr1 ->]%Heq Hm. apply Ho'; [done|]. apply (Hp a r); [done|lia].
    + rewrite Hne by done. intros Em Hm. apply Ho; [by destruct (Hr _ _ Em)|done|by eapply Hp].
  - intros b m. destruct (decide (b = a)) as [->|Hn'].
    + intros [Hr1 ->]%Heq. split; [done|lia].
    + rewrite Hne by done. apply Hr.
Qed.

(** What one request does to the books. *)
Inductive BfdOp : Type :=
| OpArm (discr : Z) (local : IpAddr) (detect_ns : Z)
| OpDisarm (discr : Z)
| OpMark (discr : Z)
| OpWatch (discr detect_ns : Z)
| OpUnwatch (discr : Z).

Definition wf_bfd_op (o : BfdOp) : Prop := match o with OpArm _ a _ => addr_ok a | _ => True end.

Section book.
Context `{MapSysLaws}.

Definition bfd_op (o : BfdOp) : Ctl unit :=
  match o with
  | OpArm discr local detect_ns => bfd_echo_arm discr local detect_ns
  | OpDisarm discr => bfd_echo_disarm discr
  | OpMark discr => bfd_echo_mark_down discr
  | OpWatch discr detect_ns => bfd_detect_arm discr detect_ns
  | OpUnwatch discr => bfd_detect_disarm discr
  end.

(** Failed requests included. *)
Definition run_bfd (os : list BfdOp) (r : Run) : Run := foldl (λ r o, (bfd_op o r).1) r os.

Lemma ours_put a b s : ours (dp_bfd (now s)) b ∨ a = b →
  ∀ s' o, put_local_ip a s = (s', o) →
  dp_ip_refs (now s') = dp_ip_refs (now s) ∧ dp_echo_local (now s') = dp_echo_local (now s) ∧
  (o = Ok tt → ours (dp_bfd (now s')) b) ∧ (ours (dp_bfd (now s)) b → ours (dp_bfd (now s')) b).
Proof.
  intros Hb s' o. destruct a as [x|x]; unfold put_local_ip.
  - destruct (hash_put_cases m_OUR_LOCAL_IPS (of_be x) 1 s) as [E|E]; rewrite E; intros [= <- <-]; [done|].
    split_and!; [done..|intros _|]; destruct b as [y|y]; cbn; try done.
    + destruct Hb as [Hb|[= ->]]; [|by rewrite lookup_insert_eq; eauto].
      rewrite lookup_insert_is_Some'. by right.
    + by destruct Hb.
    + rewrite lookup_insert_is_Some'. by right.
  - destruct (hash_put_cases m_OUR_LOCAL_IPS_V6 x 1 s) as [E|E]; rewrite E; intros [= <- <-]; [done|].
    split_and!; [done..|intros _|]; destruct b as [y|y]; cbn; try done.
    + by destruct Hb.
    + destruct Hb as [Hb|[= ->]]; [|by rewrite lookup_insert_eq; eauto].
      rewrite lookup_insert_is_Some'. by right.
    + rewrite lookup_insert_is_Some'. by right.
Qed.

Lemma ours_drop a b s : addr_ok a → addr_ok b → a ≠ b → ours (dp_bfd (now s)) b →
  ours (dp_bfd (now (drop_local_ip a s).1)) b.
Proof.
  intros Ha Hb Hn Ho. destruct a as [x|x]; unfold drop_local_ip.
  - rewrite (hash_drop_now m_OUR_LOCAL_IPS). destruct b as [y|y]; [|done]. cbn in *.
    rewrite lookup_delete_ne; [done|]. intros E. apply Hn. f_equal.
    destruct Ha, Hb. apply of_be_inj4; congruence.
  - rewrite (hash_drop_now m_OUR_LOCAL_IPS_V6). destruct b as [y|y]; [done|]. cbn in *.
    rewrite lookup_delete_ne; [done|congruence].
Qed.

Lemma drop_local_books a s : dp_ip_refs (now (drop_local_ip a s).1) = dp_ip_refs (now s) ∧
  dp_echo_local (now (drop_local_ip a s).1) = dp_echo_local (now s).
Proof.
  destruct a; unfold drop_local_ip.
  - by rewrite (hash_drop_now m_OUR_LOCAL_IPS).
  - by rewrite (hash_drop_now m_OUR_LOCAL_IPS_V6).
Qed.

Lemma arm_books N discr a ns s : bfd_ok N (now s) → 0 ≤ N → addr_ok a → N + 1 < 2 ^ 32 →
  bfd_ok (N + 1) (now (bfd_echo_arm discr a ns s).1).
Proof.
  intros Hb H0N Ha HN. unfold bfd_echo_arm. rewrite bind_dp.
  set (r := default 0 (dp_ip_refs (now s) !! a)).
  assert (0 ≤ r ≤ N ∧ (0 < r → ours (dp_bfd (now s)) a)) as [Hr Hro].
  { unfold r. destruct (dp_ip_refs (now s) !! a) as [r0|] eqn:E; cbn; [|lia].
    split; [by destruct (bo_range _ _ _ _ Hb _ _ E)|]. by apply (bo_present _ _ _ _ Hb). }
  unfold set_refs at 1. rewrite (bind_ok_ctl _ _ s (mkRun (set_ip_refs (<[a := r]> (dp_ip_refs (now s))) (now s)) (seen s)) tt) by done.
  set (s1 := mkRun _ _).
  assert (bfd_ok N (now s1)) as Hb1 by (by apply book_insert).
  assert (∀ s2 o, (if r =? 0 then put_local_ip a else mret tt) s1 = (s2, o) →
    bfd_ok N (now s2) ∧ (o = Ok tt → ours (dp_bfd (now s2)) a ∧ dp_ip_refs (now s2) !! a = Some r)) as Hput.
  { intros s2 o E. destruct (Z.eqb_spec r 0) as [Hz|Hz].
    - assert (∀ b, ours (dp_bfd (now s1)) b → ours (dp_bfd (now s2)) b) as Hmono.
      { intros b Hob. by apply (ours_put a b s1 (or_introl Hob) s2 o E). }
      destruct (ours_put a a s1 (or_intror eq_refl) s2 o E) as (E1 & E2 & Ho & _).
      split; [|intros ->; split; [by apply Ho|by rewrite E1; apply lookup_insert_eq]].
      unfold bfd_ok. rewrite E1, E2. by eapply book_more.
    - injection E as <- <-. split; [done|]. intros _. split; [apply Hro; lia|apply lookup_insert_eq]. }
  rewrite bind_run_ctl. destruct ((if r =? 0 then put_local_ip a else mret tt) s1) as [s2 [[]|e]].
  2: { destruct (Hput _ _ eq_refl) as [Hb2 _]. eapply book_more; [exact Hb2|lia|done]. }
  destruct (Hput _ _ eq_refl) as [Hb2 Ho]. destruct Ho as [Ho Er]; [done|].
  rewrite (bind_ok_ctl _ _ s2 (mkRun (set_ip_refs (<[a := wrap 32 (r + 1)]> (dp_ip_refs (now s2))) (now s2)) (seen s2)) tt) by done.
  unfold wrap. rewrite Z.mod_small by lia.
  assert (book_ok (N + 1) (dp_bfd (now s2)) (<[a := r + 1]> (dp_ip_refs (now s2))) (<[discr := a]> (dp_echo_local (now s2)))) as Hb3.
  { apply book_arm; [|done..|lia]. by eapply book_more; [exact Hb2|lia|]. }
  erewrite bind_ok_ctl by done. destruct (hash_put_cases m_ECHO_TIMERS discr (seed ns)
    (mkRun (set_echo_local (<[discr := a]> (dp_echo_local (now s2))) (set_ip_refs (<[a := r + 1]> (dp_ip_refs (now s2))) (now s2))) (seen s2))) as [E'|E'];
    setoid_rewrite E'; exact Hb3.
Qed.

Lemma hash_drop_ok {K} `{Countable K} {V} (m : MapRef (gmap K V)) (k : K) s :
  hash_drop m k s = ((hash_drop m k s).1, Ok tt).
Proof. by rewrite hash_drop_run. Qed.

Lemma drop_local_ok a s : drop_local_ip a s = ((drop_local_ip a s).1, Ok tt).
Proof. destruct a; unfold drop_local_ip; apply hash_drop_ok. Qed.

Lemma disarm_books N discr s : bfd_ok N (now s) → bfd_ok N (now (bfd_echo_disarm discr s).1).
Proof.
  intros Hb. unfold bfd_echo_disarm. rewrite (bind_ok_ctl _ _ _ _ _ (hash_drop_ok _ _ _)).
  pose proof (hash_drop_now m_ECHO_TIMERS discr s) as En. set (s1 := (hash_drop m_ECHO_TIMERS discr s).1) in *.
  assert (bfd_ok N (now s1)) as Hb1 by (by rewrite En). clearbody s1. clear En Hb s.
  rewrite bind_dp. erewrite bind_ok_ctl by done. cbn [dp_ip_refs dp_echo_local set_echo_local].
  destruct (dp_echo_local (now s1) !! discr) as [a|] eqn:Ed; [|by apply book_forget].
  destruct (dp_ip_refs (now s1) !! a) as [r|] eqn:Er; [|by apply book_forget].
  assert (∀ B', (∀ b, addr_ok b → a ≠ b → ours (dp_bfd (now s1)) b → ours B' b) →
    (1 < r → ours (dp_bfd (now s1)) a → ours B' a) → _) as Hall
    by (intros B' H1' H2'; exact (book_disarm _ _ B' _ _ discr a r Hb1 Ed Er H1' H2')).
  destruct (Z.max 0 (r - 1) =? 0) eqn:Ez.
  - erewrite bind_ok_ctl by done. unfold bfd_ok. set (s2 := mkRun _ _).
    destruct (drop_local_books a s2) as [-> ->]. apply Hall.
    + intros b Hbo Hn Ho. apply ours_drop; [|done..]. by destruct (bo_range _ _ _ _ Hb1 _ _ Er).
    + apply Z.eqb_eq in Ez. lia.
  - by apply Hall.
Qed.

Lemma bfd_op_books N o s : bfd_ok N (now s) → 0 ≤ N → wf_bfd_op o → N + 1 < 2 ^ 32 →
  bfd_ok (N + 1) (now (bfd_op o s).1).
Proof.
  intros Hb H0N Ho HN. assert (∀ d, bfd_ok N d → bfd_ok (N + 1) d) as Hw.
  { intros d Hd. eapply book_more; [exact Hd|lia|done]. }
  destruct o as [discr a ns|discr|discr|discr ns|discr]; cbn [bfd_op].
  - by apply arm_books.
  - by apply Hw, disarm_books.
  - unfold bfd_echo_mark_down. rewrite bind_dp. destruct (dp_echo_timers _ !! discr); [|by apply Hw].
    destruct (_ && _); [|by apply Hw]. unfold ignore, catch. rewrite bind_run_ctl.
    destruct (hash_put_cases m_ECHO_TIMERS discr (mkDetectState (ds_timer d) (ds_detect_ns d) 0 1) s) as [->| ->]; by apply Hw.
  - unfold bfd_detect_arm. destruct (hash_put_cases m_CONTROL_TIMERS discr (seed ns) s) as [->| ->]; by apply Hw.
  - unfold bfd_detect_disarm. rewrite (hash_drop_now m_CONTROL_TIMERS). by apply Hw.
Qed.

Lemma run_bfd_books os s : bfd_ok 0 (now s) → Forall wf_bfd_op os → Z.of_nat (length os) < 2 ^ 32 →
  bfd_ok (Z.of_nat (length os)) (now (run_bfd os s)).
Proof.
  intros Hb. induction os as [|o os IH] using rev_ind; [done|]. rewrite length_app, Nat2Z.inj_add. cbn [length].
  intros [Hw [Ho _]%Forall_cons]%Forall_app Hl. unfold run_bfd. rewrite foldl_app. cbn [foldl].
  apply bfd_op_books; [|lia|done|lia]. apply IH; [done|lia].
Qed.

(** Every session in the books has its address among ours. *)
Lemma session_ours os s discr a : bfd_ok 0 (now s) → Forall wf_bfd_op os → Z.of_nat (length os) < 2 ^ 32 →
  dp_echo_local (now (run_bfd os s)) !! discr = Some a → ours (dp_bfd (now (run_bfd os s))) a ∧ addr_ok a.
Proof.
  intros Hb Hw Hl Ed. destruct (run_bfd_books os s Hb Hw Hl) as [Hc Hp Hr].
  pose proof (users_pos _ _ _ Ed) as Hu. destruct (Hc a Hu) as (r & Er & Hru).
  split; [apply (Hp a r); [done|lia]|by destruct (Hr a r)].
Qed.
End book.

(** ** An Echo on the wire *)

(** The Echo [seq] of session [discr] between two stations, [hops] left. *)
Definition echo_on_wire (local : IpAddr) (dmac smac : bytes) (hops discr seq ts : Z) (p : bytes) : Prop :=
  let pl := echo_payload discr seq ts in
  match local with
  | V4 l => ∃ f ck, p = ip4_bytes f ∧ wf_ip4 f ∧ csum_valid (ip4_header f) ∧
      i4_dmac f = dmac ∧ i4_smac f = smac ∧ i4_type f = to_be 2 ETH_P_IP ∧ i4_vihl f = [0x45] ∧
      i4_ttl f = [hops] ∧ i4_proto f = [IPPROTO_UDP] ∧ i4_src f = l ∧ i4_dst f = l ∧
      i4_rest f = echo_udp ck pl ∧ length ck = 2%nat ∧ udp_valid l l (i4_rest f)
  | V6 l => ∃ ck, p = ip6_bytes dmac smac [0x60; 0; 0; 0] (to_be 2 (UDP_HLEN + PAYLOAD_LEN)) IPPROTO_UDP hops l l (echo_udp ck pl) ∧
      length ck = 2%nat ∧ udp_valid l l (echo_udp ck pl)
  end.

Definition mac_ok (m : bytes) : Prop := length m = 6%nat ∧ Forall is_byte m.

Lemma echo_originated if_mac dst_mac local discr seq ts : mac_ok if_mac → mac_ok dst_mac → addr_ok local →
  echo_on_wire local dst_mac if_mac 255 discr seq ts (echo_frame if_mac dst_mac local discr seq ts).
Proof.
  intros [Hi Hib] [Hd Hdb] Hl. destruct local as [l|l]; destruct Hl as [Hl Hlb]; unfold echo_on_wire, echo_frame.
  - destruct (echo_ip4_wf if_mac dst_mac l discr seq ts) as [Hwf Hv]; [done..|].
    destruct (udp_checksum_valid l l discr seq ts 2) as [Hu1 Hu2]; [done|done|lia|done|done|].
    rewrite build_echo_fields. eexists _, _. by split_and!.
  - eexists. split; [|split; [apply to_be_length|]].
    + unfold build_echo_v6, echo_ip6, ip6_bytes, ECHO_TTL. rewrite udp_checksums_agree. by rewrite <- !app_assoc.
    + apply (udp_checksum_valid _ _ _ _ _ 8); (done || lia).
Qed.

Lemma echo_udp_split ck pl : length ck = 2%nat → echo_udp ck pl = take 8 (echo_udp ck pl) ++ pl.
Proof.
  intros Hck. unfold echo_udp. rewrite !app_assoc, take_app_length'; [done|].
  rewrite !length_app, !to_be_length. lia.
Qed.

Section wire.
Context `{Kernel}.

(** The XDP program on port [raw] of a node whose maps are [d]. *)
Definition xdp (d : Dp) (raw : Z) : Prog Z :=
  @cradle_xdp _ (dp_fib d) (dp_tun d) (dp_l3 d) (dp_l2 d) (dp_bfd d) raw.
Definition plain_at (d : Dp) (raw : Z) : Prop := @plain_port (dp_fib d) (dp_l2 d) raw.

(** Where the dispatcher looks. *)
Lemma echo4_reads f ck pl : wf_ip4 f → i4_rest f = echo_udp ck pl →
  rd (ip4_bytes f) ETH_TYPE_OFF 2 = Some (i4_type f) ∧ rd (ip4_bytes f) IP_VER_IHL_OFF 1 = Some (i4_vihl f) ∧
  rd (ip4_bytes f) IP_PROTO_OFF 1 = Some (i4_proto f) ∧ rd (ip4_bytes f) (L4_OFF + 2) 2 = Some (to_be 2 BFD_ECHO_PORT).
Proof.
  intros [] Hr. unfold ip4_bytes. split_and!.
  - apply (rd_field 2); [done|flen|flen].
  - apply (rd_field 3); [done|flen|flen].
  - apply (rd_field 9); [done|flen|flen].
  - unfold ip4_fields. rewrite Hr. unfold echo_udp. cbn [concat]. rewrite app_nil_r.
    rd_solve.
Qed.

Lemma echo6_reads dmac smac len hop src dst ck pl : wf_ip6 dmac smac [0x60; 0; 0; 0] len src dst →
  let p := ip6_bytes dmac smac [0x60; 0; 0; 0] len IPPROTO_UDP hop src dst (echo_udp ck pl) in
  rd p ETH_TYPE_OFF 2 = Some (to_be 2 ETH_P_IPV6) ∧ rd p IP6_NEXTHDR_OFF 1 = Some [IPPROTO_UDP] ∧
  rd p (IP6_L4_OFF + 2) 2 = Some (to_be 2 BFD_ECHO_PORT).
Proof.
  intros []. unfold ip6_bytes, echo_udp. cbn [app]. split_and!; rd_solve.
Qed.

Lemma echo_reflected local dmac smac hops discr seq ts d raw w : plain_at d raw → addr_ok local →
  length dmac = 6%nat → length smac = 6%nat → echo_on_wire local dmac smac hops discr seq ts (pkt w) → 1 ≤ hops → ¬ ours (dp_bfd d) local →
  ∃ p, xdp d raw w = (set_pkt p w, Ok XDP_TX) ∧ echo_on_wire local smac dmac (hops - 1) discr seq ts p.
Proof.
  intros Hp Hl Hdm Hsm Hw Hh Hn. destruct local as [l|l]; unfold echo_on_wire in Hw.
  - destruct Hw as (f & ck & Ep & Hwf & Hv & <- & <- & Hty & Hvi & Htt & Hpr & Hsr & Hds & Hre & Hck & Hu).
    destruct (echo4_reads f ck _ Hwf Hre) as (R1 & R2 & R3 & R4).
    destruct (@reflect_v4_run _ (dp_bfd d) f hops w Hwf Ep Htt Hh Hv) as (c & E & Hwf' & Hv').
    { rewrite Hsr. by apply eq_None_not_Some. }
    exists (ip4_bytes (ip4_turned c hops f)). split; [|by exists (ip4_turned c hops f), ck].
    apply cradle_xdp_ok. rewrite echo4_dispatch; [exact E|exact Hp|rewrite Ep..]; congruence.
  - destruct Hw as (ck & Ep & Hck & Hu). destruct Hl as [Hl Hlb].
    assert (wf_ip6 dmac smac [0x60; 0; 0; 0] (to_be 2 (UDP_HLEN + PAYLOAD_LEN)) l l) as Hwf by by split.
    destruct (echo6_reads _ _ _ hops _ _ ck (echo_payload discr seq ts) Hwf) as (R1 & R2 & R3).
    eexists. split; [|by exists ck]. apply cradle_xdp_ok.
    eapply echo6_dispatch; [exact Hp|by rewrite Ep..|]. eapply reflect_v6_run; [done|exact Ep|done|].
    by apply eq_None_not_Some.
Qed.

Lemma echo_returned local dmac smac hops discr seq ts d raw w st : plain_at d raw → addr_ok local →
  length dmac = 6%nat → length smac = 6%nat → echo_on_wire local dmac smac hops discr seq ts (pkt w) → u32 discr → ours (dp_bfd d) local →
  ECHO_TIMERS w !! discr = Some st →
  xdp d raw w = (set_ECHO_TIMERS (<[discr := kick_timer (timer_init (ticks w)) st]> (ECHO_TIMERS w)) (set_ticks (S (ticks w)) w), Ok XDP_DROP).
Proof.
  intros Hp Hl Hdm Hsm Hw Hdi Ho Ht. apply cradle_xdp_ok. destruct local as [l|l]; unfold echo_on_wire in Hw.
  - destruct Hw as (f & ck & Ep & Hwf & Hv & _ & _ & Hty & Hvi & Htt & Hpr & Hsr & Hds & Hre & Hck & Hu).
    destruct (echo4_reads f ck _ Hwf Hre) as (R1 & R2 & R3 & R4).
    rewrite echo4_dispatch; [|exact Hp|rewrite Ep; congruence..]. unfold reflect_v4. destruct Hwf.
    erewrite bind_ok by (eapply (xdp_be_field 11 (ip4_fields f)); [exact Ep|done|flen|by rewrite w4_src]).
    rewrite Hsr, bool_decide_true by exact Ho. erewrite bind_ok; [done|].
    eapply (record_return_run (concat (take 13 (ip4_fields f)) ++ take 8 (i4_rest f)) []).
    + rewrite Ep, app_nil_r. unfold ip4_bytes. rewrite <- (take_drop 13 (ip4_fields f)) at 1. rewrite concat_app, <- app_assoc. f_equal.
      cbn [drop ip4_fields concat]. rewrite app_nil_r, Hre. by apply echo_udp_split.
    + rewrite length_app, concat_length, length_take, Hre, echo_udp_length, Hck, echo_payload_length.
      unfold PL_MAGIC_OFF, PAYLOAD_OFF, UDP_OFF, IP_OFF. flen.
    + done.
    + done.
    + done.
  - destruct Hw as (ck & Ep & Hck & Hu). destruct Hl as [Hl Hlb].
    assert (wf_ip6 dmac smac [0x60; 0; 0; 0] (to_be 2 (UDP_HLEN + PAYLOAD_LEN)) l l) as Hwf by by split.
    destruct (echo6_reads _ _ _ hops _ _ ck (echo_payload discr seq ts) Hwf) as (R1 & R2 & R3).
    eapply echo6_dispatch; [exact Hp|by rewrite Ep..|]. unfold reflect_v6. destruct Hwf.
    erewrite bind_ok.
    2: { apply xdp_rd_run. rewrite Ep. unfold ip6_bytes. cbn [app]. rd_solve. }
    rewrite bool_decide_true by exact Ho. erewrite bind_ok; [done|].
    eapply (record_return_run (dmac ++ smac ++ to_be 2 ETH_P_IPV6 ++ [0x60; 0; 0; 0] ++ to_be 2 (UDP_HLEN + PAYLOAD_LEN)
      ++ [IPPROTO_UDP] ++ [hops] ++ l ++ l ++ take 8 (echo_udp ck (echo_payload discr seq ts))) []); [| |done..].
    + rewrite Ep. unfold ip6_bytes. rewrite <- !app_assoc, app_nil_r. by rewrite <- echo_udp_split.
    + rewrite !length_app, !to_be_length, length_take, echo_udp_length, Hck, echo_payload_length. cbn [length].
      unfold PL6_MAGIC_OFF, PAYLOAD6_OFF, UDP6_OFF, IP6_OFF, ETH_HLEN. lia.
Qed.
End wire.

(** ** Pacing *)

Lemma jitter_bounds micros base : 0 ≤ base → 75 * base / 100 ≤ jitter micros base ≤ base.
Proof.
  intros Hb. unfold jitter. pose proof (Z.mod_pos_bound micros 26 ltac:(lia)) as Hm.
  set (j := micros mod 26) in *. clearbody j.
  split; [apply Z.div_le_mono; nia|]. apply Z.div_le_upper_bound; nia.
Qed.

(** Our MAC on [oif], if the socket there is open or opens. *)
Definition io_mac (ev : EchoEnv) (e : BfdEchoEngine) (oif : string) : option bytes :=
  match en_io e !! oif with Some m => Some m | None => ev_open ev oif end.

(** The frame session [discr] sends in a tick. *)
Definition due_frame (ev : EchoEnv) (e : BfdEchoEngine) (discr : Z) : option (string * bytes) :=
  s ← en_sessions e !! discr;
  mac ← (match se_peer_mac s with Some m => Some m | None => ev_mac ev (se_oif s) (se_peer s) end);
  if_mac ← io_mac ev e (se_oif s);
  if se_next_tx s <=? ev_now ev
  then Some (se_oif s, echo_frame if_mac mac (se_local s) discr (se_seq s) (ev_ts ev discr)) else None.

(** What a tick leaves of a session. *)
Definition paced (ev : EchoEnv) (s s' : EchoSession) : Prop :=
  se_oif s' = se_oif s ∧ se_local s' = se_local s ∧ se_peer s' = se_peer s ∧ se_tx s' = se_tx s ∧
  se_detect s' = se_detect s ∧ se_added s' = se_added s ∧
  if se_next_tx s <=? ev_now ev
  then se_seq s' = wrap 32 (se_seq s + 1) ∧
       ev_now ev + 75 * se_tx s / 100 ≤ se_next_tx s' ≤ ev_now ev + se_tx s
  else s' = s.

Definition overdue (ev : EchoEnv) (e : BfdEchoEngine) (discr : Z) : Prop :=
  ∃ s, en_sessions e !! discr = Some s ∧ se_detect s < ev_now ev - se_added s.
#[global] Instance overdue_dec ev e discr : Decision (overdue ev e discr).
Proof.
  unfold overdue. destruct (en_sessions e !! discr) as [s|].
  - destruct (decide (se_detect s < ev_now ev - se_added s)); [left; eauto|right; naive_solver].
  - right. naive_solver.
Defined.

Lemma io_for_mac ev oif e : ∀ e1 o, io_for ev oif e = (e1, o) →
  o = io_mac ev e oif ∧ en_sessions e1 = en_sessions e ∧ en_sent e1 = en_sent e ∧ ∀ x, io_mac ev e1 x = io_mac ev e x.
Proof.
  intros e1 o. unfold io_for, io_mac. destruct (en_io e !! oif) as [m|] eqn:E; [by intros [= <- <-]|].
  destruct (ev_open ev oif) as [m|] eqn:Eo; intros [= <- <-]; [|done]. split_and!; [done..|]. intros x. cbn.
  destruct (decide (oif = x)) as [<-|Hn]; [by rewrite lookup_insert_eq, E, Eo|by rewrite lookup_insert_ne].
Qed.

Lemma send_due_run ev discr s e : en_sessions e !! discr = Some s → (se_next_tx s <=? ev_now ev) = true → 0 ≤ se_tx s →
  let e' := send_due ev discr s e in
  (∃ s', en_sessions e' = <[discr := s']> (en_sessions e) ∧ paced ev s s') ∧
  en_sent e' = en_sent e ++ option_list (due_frame ev e discr) ∧ ∀ x, io_mac ev e' x = io_mac ev e x.
Proof.
  intros Hs Hd Htx. pose proof (jitter_bounds (ev_wall ev discr) (se_tx s) Htx) as Hj.
  unfold send_due, due_frame. rewrite Hs. cbn.
  destruct (match se_peer_mac s with Some m => Some m | None => ev_mac ev (se_oif s) (se_peer s) end) as [m|] eqn:Em; cbn.
  - unfold transmit. destruct (io_for ev (se_oif s) e) as [e1 o] eqn:Eio.
    destruct (io_for_mac _ _ _ _ _ Eio) as (-> & Es & Est & Hio).
    destruct (io_mac ev e (se_oif s)) as [im|]; cbn; rewrite ?Hd, ?Es, ?Est; split_and!; try done;
      try (eexists; split; [done|]; unfold paced; rewrite Hd; cbn; split_and!; (done || lia)).
    by rewrite app_nil_r.
  - split_and!; try done.
    + eexists; split; [done|]; unfold paced; rewrite Hd; cbn; split_and!; (done || lia).
    + by rewrite app_nil_r.
Qed.

Lemma due_frame_ext ev e e' discr : en_sessions e' !! discr = en_sessions e !! discr →
  (∀ x, io_mac ev e' x = io_mac ev e x) → due_frame ev e' discr = due_frame ev e discr.
Proof. intros Hs Hio. unfold due_frame. rewrite Hs. destruct (en_sessions e !! discr) as [s|]; [|done]. cbn. by rewrite Hio. Qed.

Lemma due_frame_none ev e discr s : en_sessions e !! discr = Some s → (se_next_tx s <=? ev_now ev) = false →
  due_frame ev e discr = None.
Proof.
  intros Hs Hd. unfold due_frame. rewrite Hs. cbn. rewrite Hd.
  destruct (match se_peer_mac s with Some m => _ | None => _ end); [|done]. cbn. by destruct (io_mac _ _ _).
Qed.

(** The tick serves every session once, whatever the order. *)
Lemma tick_sessions_run ev order e down : NoDup order → (∀ k, k ∈ order → is_Some (en_sessions e !! k)) →
  (∀ k s, en_sessions e !! k = Some s → 0 ≤ se_tx s) →
  ∀ e' down', foldl (tick_session ev) (e, down) order = (e', down') →
  down' = down ++ filter (overdue ev e) order ∧
  en_sent e' = en_sent e ++ omap (due_frame ev e) order ∧
  (∀ k, k ∉ order → en_sessions e' !! k = en_sessions e !! k) ∧
  (∀ k s, k ∈ order → en_sessions e !! k = Some s → ∃ s', en_sessions e' !! k = Some s' ∧ paced ev s s').
Proof.
  revert e down. induction order as [|k order IH]; intros e down Hnd Hin Htx e' down'; cbn [foldl].
  { intros [= <- <-]. rewrite !app_nil_r. split_and!; [done..|]. set_solver. }
  apply NoDup_cons in Hnd as [Hk Hnd]. destruct (Hin k ltac:(set_solver)) as [s Hs].
  unfold tick_session at 2. rewrite Hs.
  set (e1 := if se_next_tx s <=? ev_now ev then send_due ev k s e else e).
  assert ((∃ s', en_sessions e1 = <[k := s']> (en_sessions e) ∧ paced ev s s') ∧
    en_sent e1 = en_sent e ++ option_list (due_frame ev e k) ∧ ∀ x, io_mac ev e1 x = io_mac ev e x) as ((s' & Es & Hp) & Est & Hio).
  { unfold e1. destruct (se_next_tx s <=? ev_now ev) eqn:Ed; [apply send_due_run; [done|done|by eapply Htx]|].
    split_and!; [|by rewrite (due_frame_none _ _ _ s), app_nil_r by done|done].
    exists s. rewrite insert_id by done. split; [done|]. unfold paced. by rewrite Ed. }
  clearbody e1. intros E. apply IH in E as (Ed & Esn & Hout & Hpd); [|done| |].
  - assert (∀ j, j ≠ k → en_sessions e1 !! j = en_sessions e !! j) as Hne by (intros; by rewrite Es, lookup_insert_ne).
    split_and!.
    + rewrite Ed. rewrite filter_cons.
      assert (filter (overdue ev e1) order = filter (overdue ev e) order) as ->.
      { apply filter_ext_in. intros j Hj. unfold overdue. rewrite Hne by set_solver. done. }
      unfold overdue at 2. case_decide as Ho.
      * destruct Ho as (s0 & Hs0 & Ho). assert (s0 = s) as -> by congruence. rewrite (proj2 (Z.ltb_lt _ _)) by done. by rewrite <- app_assoc.
      * destruct (Z.ltb_spec (se_detect s) (ev_now ev - se_added s)); [|done]. destruct Ho. eauto.
    + rewrite Esn, Est, <- app_assoc. f_equal.
      rewrite (omap_ext_in (due_frame ev e1) (due_frame ev e)).
      * cbn. by destruct (due_frame ev e k).
      * intros j Hj. apply due_frame_ext; [|done]. apply Hne. by intros ->.
    + intros j Hj. rewrite Hout by set_solver. apply Hne. set_solver.
    + intros j sj [->|Hj]%elem_of_cons Hsj.
      * exists s'. rewrite Hout, Es by done. rewrite lookup_insert_eq. by assert (sj = s) as -> by congruence.
      * apply Hpd; [done|]. rewrite Hne; [done|]. by intros ->.
  - intros j Hj. rewrite Es. rewrite lookup_insert_is_Some'. right. apply Hin. set_solver.
  - intros j sj. rewrite Es. destruct (decide (j = k)) as [->|Hn]; [rewrite lookup_insert_eq|rewrite lookup_insert_ne by done; by apply Htx].
    intros [= <-]. destruct Hp as (_ & _ & _ & -> & _). by eapply Htx.
Qed.

(** ** Reports *)

Definition marked (st : DetectState) : DetectState :=
  if (ds_armed st =? 0) && (ds_down st =? 0) then mkDetectState (ds_timer st) (ds_detect_ns st) 0 1 else st.

(** [bpf(2)]: replacing an element of a hash map needs no room. *)
Class ReplacesInPlace `{MapSys} : Prop := {
  replace_some {K} `{Countable K} {V} cap (k : K) (v : V) m : is_Some (m !! k) → is_Some (hash_update cap k v m);
}.

Lemma limited_sys_replaces limit : @ReplacesInPlace (limited_sys limit).
Proof. split. intros K ? ? V cap k v m Hk. cbn. rewrite bool_decide_true by (by left). eauto. Qed.

Section reports.
Context `{MapSysLaws} `{!ReplacesInPlace}.

Lemma mark_down_run discr r : ∃ r', bfd_echo_mark_down discr r = (r', Ok tt) ∧
  now r' = set_echo_timers (alter marked discr (dp_echo_timers (now r))) (now r).
Proof.
  assert (∀ m, alter marked discr m = m → set_echo_timers m (now r) = now r → dp_echo_timers (now r) = m →
    now r = set_echo_timers (alter marked discr (dp_echo_timers (now r))) (now r)) as Hsame by (intros m Em ? ->; congruence).
  assert (∀ d, set_echo_timers (dp_echo_timers d) d = d) as Hid by (by intros []).
  unfold bfd_echo_mark_down. rewrite bind_dp. destruct (dp_echo_timers (now r) !! discr) as [st|] eqn:E.
  - destruct ((ds_armed st =? 0) && (ds_down st =? 0)) eqn:Eb.
    + unfold ignore. rewrite bind_run_ctl. unfold catch, hash_put, map_put. rewrite bind_dp. unfold of_option.
      destruct (replace_some (capacity m_ECHO_TIMERS) discr (mkDetectState (ds_timer st) (ds_detect_ns st) 0 1)
        (view m_ECHO_TIMERS (now r))) as [m Hm]; [by exists st|]. rewrite Hm. apply hash_update_some in Hm as ->.
      eexists. split; [done|]. cbn. f_equal. apply map_eq. intros j. destruct (decide (discr = j)) as [<-|Hn].
      * rewrite lookup_insert_eq, lookup_alter_eq, E. cbn. unfold marked. by rewrite Eb.
      * by rewrite lookup_insert_ne, lookup_alter_ne.
    + eexists. split; [done|]. apply (Hsame (dp_echo_timers (now r))); [|apply Hid|done]. apply map_eq. intros j.
      destruct (decide (discr = j)) as [<-|Hn]; [|by rewrite lookup_alter_ne].
      rewrite lookup_alter_eq, E. cbn. unfold marked. by rewrite Eb.
  - eexists. split; [done|]. apply (Hsame (dp_echo_timers (now r))); [|apply Hid|done]. apply map_eq. intros j.
    destruct (decide (discr = j)) as [<-|Hn]; [|by rewrite lookup_alter_ne]. by rewrite lookup_alter_eq, E.
Qed.

Lemma marked_twice st : marked (marked st) = marked st.
Proof. unfold marked. destruct ((ds_armed st =? 0) && (ds_down st =? 0)) eqn:E; cbn; [done|by rewrite E]. Qed.

Lemma mark_all_run l i r : ∃ r', for_each (λ _ discr, bfd_echo_mark_down discr) i l r = (r', Ok tt) ∧
  ∀ k, dp_echo_timers (now r') !! k = (λ st, if bool_decide (k ∈ l) then marked st else st) <$> dp_echo_timers (now r) !! k.
Proof.
  revert i r. induction l as [|x l IH]; intros i r; cbn [for_each].
  - exists r. split; [done|]. intros k. rewrite bool_decide_false by set_solver. by rewrite option_fmap_id.
  - destruct (mark_down_run x r) as (r1 & E1 & Hn). rewrite (bind_ok_ctl _ _ _ _ _ E1).
    destruct (IH (i + 1) r1) as (r' & E' & Ht). exists r'. split; [done|]. intros k. rewrite Ht, Hn. cbn [dp_echo_timers set_echo_timers].
    destruct (decide (x = k)) as [->|Hne].
    + rewrite lookup_alter_eq. rewrite (bool_decide_true (k ∈ k :: l)) by set_solver.
      rewrite <- option_fmap_compose. apply option_fmap_ext. intros st. cbn. case_bool_decide; [apply marked_twice|done].
    + rewrite lookup_alter_ne by done. apply option_fmap_ext. intros st.
      repeat case_bool_decide; set_solver.
Qed.
End reports.

(** ** The properties *)

(** C35: a live path keeps its session up. After any requests, successful or
    not, take a session in the books with a detector: the Echo the
    originator sends for it is valid on the wire, a peer that does not own
    its address turns it round with one hop less and nothing else changed,
    and when it comes back the frame is consumed, the session is up and, if
    its timer is or can be armed, its detection window starts anew. *)
Theorem echo_loop `{Kernel} `{MapSysLaws} os s0 discr local st peer raw raw' if_mac dst_mac seq ts w w' :
  let d := now (run_bfd os s0) in
  bfd_ok 0 (now s0) → Forall wf_bfd_op os → Z.of_nat (length os) < 2 ^ 32 →
  dp_echo_local d !! discr = Some local → mac_ok if_mac → mac_ok dst_mac → u32 discr →
  plain_at peer raw → ¬ ours (dp_bfd peer) local → pkt w = echo_frame if_mac dst_mac local discr seq ts →
  plain_at d raw' → ECHO_TIMERS w' !! discr = Some st →
  echo_on_wire local dst_mac if_mac 255 discr seq ts (pkt w) ∧
  ∃ p, xdp peer raw w = (set_pkt p w, Ok XDP_TX) ∧ echo_on_wire local if_mac dst_mac 254 discr seq ts p ∧
    (pkt w' = p → ∃ st', xdp d raw' w' =
         (set_ECHO_TIMERS (<[discr := st']> (ECHO_TIMERS w')) (set_ticks (S (ticks w')) w'), Ok XDP_DROP) ∧
       ds_down st' = 0 ∧ ds_detect_ns st' = ds_detect_ns st ∧
       (ds_armed st ≠ 0 ∨ timer_init (ticks w') = true → ds_timer st' = Some (ds_detect_ns st) ∧ ds_armed st' ≠ 0)).
Proof.
  intros d Hb Hw Hl Hd Hi Hm Hdi Hp Hn Ep Hp' Ht. destruct (session_ours os s0 discr local Hb Hw Hl Hd) as [Ho Ha].
  pose proof (echo_originated if_mac dst_mac local discr seq ts Hi Hm Ha) as Hwire. rewrite <- Ep in Hwire.
  split; [done|]. destruct Hi as [Hi _], Hm as [Hm _].
  destruct (echo_reflected local dst_mac if_mac 255 discr seq ts peer raw w Hp Ha Hm Hi Hwire) as (p & E & Hback); [lia|done|].
  exists p. split; [done|]. split; [exact Hback|]. intros <-. eexists. split.
  - by apply (echo_returned local if_mac dst_mac (255 - 1) discr seq ts).
  - destruct (kick_timer_up (timer_init (ticks w')) st) as (? & ? & ?). done.
Qed.

(** C36: no session starves and no dead path stays up. One tick, whatever
    order it visits the table in, sends one Echo for every due session whose
    peer and interface are known and none for any other, schedules the next
    between 75% and 100% of the interval from now, leaves the sessions that
    are not due alone, and reports every session whose window has passed
    without its detector ever having been armed; detectors in charge are
    left alone. *)
Theorem echo_tick_serves `{MapSysLaws} `{!ReplacesInPlace} ev order e r :
  NoDup order → (∀ k, k ∈ order ↔ is_Some (en_sessions e !! k)) → (∀ k s, en_sessions e !! k = Some s → 0 ≤ se_tx s) →
  ∃ r' e', echo_tick ev order e r = (r', Ok e') ∧ en_sent e' = en_sent e ++ omap (due_frame ev e) order ∧
    (∀ k, match en_sessions e !! k, en_sessions e' !! k with
          | Some s, Some s' => paced ev s s' | None, None => True | _, _ => False end) ∧
    ∀ k st, dp_echo_timers (now r) !! k = Some st →
      (overdue ev e k → ds_armed st = 0 → (k, 0) ∈ bfd_poll_down (now r')) ∧
      (¬ overdue ev e k ∨ ds_armed st ≠ 0 → dp_echo_timers (now r') !! k = Some st).
Proof.
  intros Hnd Hdom Htx. unfold echo_tick, tick_sessions.
  destruct (foldl (tick_session ev) (e, []) order) as [e' down] eqn:E.
  apply tick_sessions_run in E as (-> & Hs & Hout & Hin); [|done|intros; by apply Hdom|done]. cbn [app] in *.
  destruct (mark_all_run (filter (overdue ev e) order) 0 r) as (r' & Er & Ht).
  exists r', e'. rewrite (bind_ok_ctl _ _ _ _ _ Er). split_and!; [done..| |].
  - intros k. destruct (decide (k ∈ order)) as [Hk|Hk].
    + destruct (proj1 (Hdom k) Hk) as [s Es]. destruct (Hin k s Hk Es) as (s' & Es' & Hp). by rewrite Es, Es'.
    + rewrite Hout by done. destruct (en_sessions e !! k) eqn:Es; [|done]. destruct Hk. apply Hdom. eauto.
  - intros k st Est. specialize (Ht k). rewrite Est in Ht. cbn in Ht. split.
    + intros Ho Ha. assert (k ∈ order) as Hk by (apply Hdom; destruct Ho as (s & -> & _); eauto).
      rewrite bool_decide_true in Ht by (by apply list_elem_of_filter). unfold bfd_poll_down. apply elem_of_app. left.
      apply list_elem_of_omap. exists (k, marked st). split; [by apply elem_of_map_to_list|].
      unfold marked. rewrite Ha. cbn. destruct (ds_down st =? 0) eqn:Ed; cbn; [done|]. by rewrite Ed.
    + intros Ho. rewrite Ht. case_bool_decide as Hf; [|done]. apply list_elem_of_filter in Hf as [Hf _].
      destruct Ho as [Ho|Ha]; [done|]. unfold marked. destruct (Z.eqb_spec (ds_armed st) 0); [done|]. done.
Qed.

(** ** One session

    Session 7 from 10.0.0.1, 300 ms window: armed twice, with another
    session on the same address armed and disarmed in between. *)

Definition ex_local : IpAddr := V4 [10; 0; 0; 1].
Definition ex_bfd_ops : list BfdOp :=
  [OpArm 7 ex_local 300000000; OpArm 9 ex_local 300000000; OpDisarm 9; OpArm 7 ex_local 300000000].
Definition ex_bfd_dp : Dp := now (@run_bfd ref_sys ex_bfd_ops (mkRun empty_dp [])).
Definition ex_our_mac : bytes := [2; 0; 0; 0; 0; 1].
Definition ex_peer_mac : bytes := [2; 0; 0; 0; 0; 2].
Definition ex_echo : bytes := echo_frame ex_our_mac ex_peer_mac ex_local 7 5 1000.
Definition ex_echo_back : bytes := pkt (xdp empty_dp 3 (world_of ex_echo)).1.
Definition ex_back_world : World := set_ECHO_TIMERS (dp_echo_timers ex_bfd_dp) (world_of ex_echo_back).

Lemma empty_bfd_ok : bfd_ok 0 empty_dp.
Proof.
  split; intros a; cbn.
  - unfold users. by rewrite map_filter_empty, map_size_empty; lia.
  - done.
  - done.
Qed.

Lemma echo_loop_witness :
  ECHO_TIMERS ex_back_world !! 7 = Some (seed 300000000) ∧
  echo_on_wire ex_local ex_peer_mac ex_our_mac 255 7 5 1000 ex_echo.
Proof.
  split; [vm_compute; reflexivity|].
  refine (proj1 (@echo_loop ref_kernel ref_sys ref_sys_laws ex_bfd_ops (mkRun empty_dp []) 7 ex_local (seed 300000000)
    empty_dp 3 4 ex_our_mac ex_peer_mac 5 1000 (world_of ex_echo) ex_back_world empty_bfd_ok _ _ _ _ _ _ _ _ _ _ _)).
  - repeat constructor; vm_compute; done.
  - vm_compute. done.
  - vm_compute. done.
  - split; [done|]. repeat constructor; vm_compute; done.
  - split; [done|]. repeat constructor; vm_compute; done.
  - vm_compute. done.
  - vm_compute. done.
  - intros [x Hx]. vm_compute in Hx. done.
  - done.
  - vm_compute. done.
  - vm_compute. reflexivity.
Defined.

Definition ex_session : EchoSession := mkEchoSession "eth0" ex_local ex_local None 100000000 300000000 0 0 0.
Definition ex_engine : BfdEchoEngine := mkEngine {[7 := ex_session]} ∅ [].
Definition ex_env : EchoEnv :=
  mkEchoEnv 400000000 (λ _ _, Some ex_peer_mac) (λ _, Some ex_our_mac) (λ _, 1000) (λ _, 13).

Lemma echo_tick_serves_witness : overdue ex_env ex_engine 7 ∧
  ∃ r' e', @echo_tick ref_sys ex_env [7] ex_engine (mkRun ex_bfd_dp []) = (r', Ok e') ∧
    en_sent e' = [("eth0", echo_frame ex_our_mac ex_peer_mac ex_local 7 0 1000)]%string ∧ (7, 0) ∈ bfd_poll_down (now r').
Proof.
  assert (overdue ex_env ex_engine 7) as Ho by (exists ex_session; split; [done|vm_compute; done]).
  split; [exact Ho|].
  destruct (@echo_tick_serves ref_sys ref_sys_laws (limited_sys_replaces _) ex_env [7] ex_engine (mkRun ex_bfd_dp []))
    as (r' & e' & E & Hs & _ & Hr).
  - apply NoDup_singleton.
  - intros k. rewrite list_elem_of_singleton. unfold ex_engine. cbn. rewrite lookup_singleton_is_Some. done.
  - intros k s. cbn. intros [<- <-]%lookup_singleton_Some. done.
  - exists r', e'. split; [exact E|]. split; [rewrite Hs; vm_compute; reflexivity|].
    destruct (Hr 7 (seed 300000000)) as [Hd _]; [vm_compute; reflexivity|]. by apply Hd.
Defined.

(** A session armed twice counts twice: after its disarm its address is
    still ours, and the peer's Echoes from it would be consumed. *)
Example rearm_leaks_address :
  let d := now (@run_bfd ref_sys (ex_bfd_ops ++ [OpDisarm 7]) (mkRun empty_dp [])) in
  dp_echo_local d = ∅ ∧ dp_echo_timers d = ∅ ∧ ours (dp_bfd d) ex_local.
Proof. vm_compute. split_and!; [done..|eauto]. Qed.
