(* ===== verification/IpText.v ===== *)
(** * Addresses as text

    The readers and writers of [std::net] the sources use ([parse::<IpAddr>],
    [to_string]), and the prefix parsers of [crates/cradle/src/util.rs].  A
    reader consumes a part of its input or leaves it alone; [parse_with]
    demands that nothing remains. *)

From S2P Require Import Prelude.
From S2P Require Import Bpf.
From S2P Require Import Text.
From S2P Require Import MapRefs.
From S2P Require Import Frames.

Abbreviation Reader A := (string → option (A * string)).

Definition read_char (c : Ascii.ascii) : Reader unit := λ s,
  match s with String a s => if Ascii.eqb a c then Some (tt, s) else None | EmptyString => None end.

(** The digits at the front, as a list. *)
Fixpoint take_digits (radix : Z) (s : string) : list Z * string :=
  match s with
  | EmptyString => ([], s)
  | String a t =>
      match digit radix a with
      | Some d => let '(ds, rest) := take_digits radix t in (d :: ds, rest)
      | None => ([], s)
      end
  end.

Definition value (radix : Z) (ds : list Z) : Z := foldl (λ acc d, acc * radix + d) 0 ds.

(** [read_number]: at most [max] digits, within [w] bits, and no leading
    zero unless [zeros] allows it. *)
Definition read_number (w radix : Z) (max : nat) (zeros : bool) : Reader Z := λ s,
  let '(ds, rest) := take_digits radix s in
  if (length ds =? 0)%nat || (max <? length ds)%nat then None else
  if negb zeros && (1 <? length ds)%nat && bool_decide (head ds = Some 0) then None else
  if 2 ^ w <=? value radix ds then None else Some (value radix ds, rest).

Definition sep (c : Ascii.ascii) (i : nat) {A} (r : Reader A) : Reader A := λ s,
  match i with
  | O => r s
  | S _ => match read_char c s with Some (_, s) => r s | None => None end
  end.

Definition dot : Ascii.ascii := Ascii.ascii_of_nat 46.
Definition colon : Ascii.ascii := Ascii.ascii_of_nat 58.

(** [n] octets separated by dots, [i] of them read already. *)
Fixpoint read_octets (n i : nat) : Reader bytes := λ s,
  match n with
  | O => Some ([], s)
  | S n =>
      match sep dot i (read_number 8 10 3 false) s with
      | Some (b, s) =>
          match read_octets n (S i) s with Some (bs, s) => Some (b :: bs, s) | None => None end
      | None => None
      end
  end.
Definition read_ipv4 : Reader bytes := read_octets 4 0.

(** [read_groups]: up to [limit] 16-bit groups from the [i]th on, and whether
    an IPv4 address closed them. *)
Fixpoint read_groups (limit i : nat) (s : string) : list Z * bool * string :=
  match limit with
  | O => ([], false, s)
  | S limit' =>
      let group := λ s,
        match sep colon i (read_number 16 16 4 true) s with
        | Some (g, s) => let '(gs, v4, s) := read_groups limit' (S i) s in (g :: gs, v4, s)
        | None => ([], false, s)
        end in
      match limit' with
      | O => group s
      | S _ =>
          match sep colon i read_ipv4 s with
          | Some ([a; b; c; d], s) => ([of_be [a; b]; of_be [c; d]], true, s)
          | _ => group s
          end
      end
  end.

Definition groups_bytes (gs : list Z) : bytes := mjoin (to_be 2 <$> gs).

Definition read_ipv6 : Reader bytes := λ s,
  let '(head, head_v4, s) := read_groups 8 0 s in
  if (length head =? 8)%nat then Some (groups_bytes head, s) else
  if head_v4 then None else
  match read_char colon s with
  | Some (_, s) =>
      match read_char colon s with
      | Some (_, s) =>
          let '(tail, _, s) := read_groups (7 - length head) 0 s in
          Some (groups_bytes (head ++ replicate (8 - length head - length tail) 0 ++ tail), s)
      | None => None
      end
  | None => None
  end.

Definition parse_with {A} (r : Reader A) (s : string) : option A :=
  match r s with Some (a, EmptyString) => Some a | _ => None end.

Definition parse_ipv4 (s : string) : option bytes := parse_with read_ipv4 s.
Definition parse_ipv6 (s : string) : option bytes := parse_with read_ipv6 s.
Definition parse_ip (s : string) : option IpAddr :=
  parse_with (λ s, match read_ipv4 s with
                   | Some (a, s) => Some (V4 a, s)
                   | None => match read_ipv6 s with Some (a, s) => Some (V6 a, s) | None => None end
                   end) s.

(** ** Writing *)

Definition digit_char (d : Z) : Ascii.ascii := Ascii.ascii_of_N (Z.to_N (if d <? 10 then 48 + d else 87 + d)).

(** The digits of [n], at most [k] of them, the least significant last. *)
Fixpoint show_number (k : nat) (radix n : Z) : string :=
  match k with
  | O => ""
  | S k => (if n <? radix then "" else show_number k radix (n / radix)) +:+ String (digit_char (n mod radix)) EmptyString
  end.

Definition show_octet (b : Z) : string := show_number 3 10 b.
Definition show_ipv4 (a : bytes) : string := String.concat "." (show_octet <$> a).

(** The longest run of zeros, the first one on a tie, as (start, length). *)
Fixpoint zero_run (i : nat) (cur best : nat * nat) (gs : list Z) : nat * nat :=
  match gs with
  | [] => best
  | g :: gs =>
      if g =? 0 then
        let cur := ((if (cur.2 =? 0)%nat then i else cur.1), S cur.2) in
        zero_run (S i) cur (if (best.2 <? cur.2)%nat then cur else best) gs
      else zero_run (S i) (0, 0)%nat best gs
  end.

Definition show_groups (gs : list Z) : string := String.concat ":" (show_number 4 16 <$> gs).

Fixpoint pairs_of (a : bytes) : list Z :=
  match a with x :: y :: a => of_be [x; y] :: pairs_of a | _ => [] end.

Definition show_ipv6 (a : bytes) : string :=
  if bool_decide (take 12 a = replicate 10 0 ++ [255; 255]) then "::ffff:" +:+ show_ipv4 (drop 12 a) else
  let gs := pairs_of a in
  let '(start, len) := zero_run 0 (0, 0)%nat (0, 0)%nat gs in
  if (1 <? len)%nat then show_groups (take start gs) +:+ "::" +:+ show_groups (drop (start + len) gs)
  else show_groups gs.

Definition show_ip (a : IpAddr) : string := match a with V4 b => show_ipv4 b | V6 b => show_ipv6 b end.

(** ** Prefixes ([util.rs]) *)

Definition slash : Ascii.ascii := Ascii.ascii_of_nat 47.

Definition parse_ipv4_prefix (s : string) : option (bytes * Z) :=
  '(addr, len) ← split_once slash s;
  addr ← parse_ipv4 addr;
  len ← from_str_radix 8 10 len;
  if 32 <? len then None else Some (addr, len).

Definition parse_ipv6_prefix (s : string) : option (bytes * Z) :=
  '(addr, len) ← split_once slash s;
  addr ← parse_ipv6 addr;
  len ← from_str_radix 8 10 len;
  if 128 <? len then None else Some (addr, len).

Example parse_leading_zero : parse_ipv4 "10.0.0.01" = None.
Proof. reflexivity. Qed.
Example parse_short : parse_ip "10.0.0" = None.
Proof. reflexivity. Qed.
Example parse_compressed :
  parse_ip "2001:db8::1" = Some (V6 [32; 1; 13; 184; 0; 0; 0; 0; 0; 0; 0; 0; 0; 0; 0; 1]).
Proof. reflexivity. Qed.
Example parse_mapped :
  parse_ip "::ffff:10.0.0.1" = Some (V6 [0; 0; 0; 0; 0; 0; 0; 0; 0; 0; 255; 255; 10; 0; 0; 1]).
Proof. reflexivity. Qed.
Example show_compressed :
  show_ip (V6 [32; 1; 13; 184; 0; 0; 0; 0; 0; 0; 0; 0; 0; 0; 0; 1]) = "2001:db8::1"%string.
Proof. reflexivity. Qed.
Example show_all_zero : show_ip (V6 (replicate 16 0)) = "::"%string.
Proof. reflexivity. Qed.
Example parse_prefix_long : parse_ipv4_prefix "10.0.0.0/33" = None.
Proof. reflexivity. Qed.

(** ** Reading back what was written *)

Definition no_digit (radix : Z) (s : string) : Prop :=
  match s with EmptyString => True | String a _ => digit radix a = None end.

Lemma take_digits_app radix s ds rest : take_digits radix s = (ds, ""%string) → no_digit radix rest →
  take_digits radix (s +:+ rest) = (ds, rest).
Proof.
  revert ds. induction s as [|a s IH]; intros ds E Hr; cbn [take_digits] in E.
  - injection E as <-. change ("" +:+ rest) with rest. destruct rest as [|a rest]; [done|]. cbn [no_digit take_digits] in *. by rewrite Hr.
  - change (String a s +:+ rest) with (String a (s +:+ rest)). cbn [take_digits]. destruct (digit radix a) as [d|]; [|done].
    destruct (take_digits radix s) as [ds' r] eqn:Es. injection E as <- ->. by rewrite (IH ds').
Qed.

Lemma append_nil s : s +:+ "" = s.
Proof. induction s as [|a s IH]; [done|]. change (String a (s +:+ "") = String a s). by rewrite IH. Qed.
Lemma append_assoc s t u : (s +:+ t) +:+ u = s +:+ (t +:+ u).
Proof. induction s as [|a s IH]; [done|]. change (String a ((s +:+ t) +:+ u) = String a (s +:+ (t +:+ u))). by rewrite IH. Qed.

(** A number in base ten, of as many digits as it has. *)
Lemma take_digits_cat radix s ds t : take_digits radix s = (ds, ""%string) →
  take_digits radix (s +:+ t) = (ds ++ (take_digits radix t).1, (take_digits radix t).2).
Proof.
  revert ds. induction s as [|a s IH]; intros ds E; cbn [take_digits] in E.
  - injection E as <-. change ("" +:+ t) with t. by destruct (take_digits radix t).
  - change (String a s +:+ t) with (String a (s +:+ t)). cbn [take_digits]. destruct (digit radix a) as [d|]; [|done].
    destruct (take_digits radix s) as [ds' r]. injection E as <- ->. by rewrite (IH ds').
Qed.
Lemma digit_shown radix d : radix ≤ 16 → 0 ≤ d < radix → digit radix (digit_char d) = Some d.
Proof.
  intros Hr Hd.
  assert (Forall (λ r, Forall (λ d, digit r (digit_char d) = Some d) (seqZ 0 r)) (seqZ 0 17)) as Hf by repeat constructor.
  rewrite Forall_forall in Hf. specialize (Hf radix ltac:(apply elem_of_seqZ; lia)).
  rewrite Forall_forall in Hf. apply Hf, elem_of_seqZ. lia.
Qed.
Lemma take_digits_show radix k n : 2 ≤ radix ≤ 16 → (0 < k)%nat → 0 ≤ n < radix ^ Z.of_nat k →
  ∃ ds, take_digits radix (show_number k radix n) = (ds, ""%string) ∧ value radix ds = n ∧ (0 < length ds ≤ k)%nat.
Proof.
  intros Hr. revert n. induction k as [|k IH]; intros n Hk Hn; [lia|]. cbn [show_number].
  assert (∃ ds, take_digits radix (if n <? radix then "" else show_number k radix (n / radix)) = (ds, ""%string) ∧
    value radix ds = n / radix ∧ (length ds ≤ k)%nat) as (ds & E & Hv & Hl).
  { destruct (Z.ltb_spec n radix) as [Hs|Hs]; [exists []; split_and!; [done|rewrite Z.div_small by lia; done|cbn; lia]|].
    destruct k as [|k]; [cbn in Hn; lia|]. destruct (IH (n / radix)) as (ds & ? & ? & ?); [lia| |exists ds; split_and!; [done..|lia]].
    split; [apply Z.div_pos; lia|]. apply Z.div_lt_upper_bound; [lia|]. rewrite Nat2Z.inj_succ, Z.pow_succ_r in Hn by lia. lia. }
  rewrite (take_digits_cat _ _ ds) by done. exists (ds ++ [n mod radix]).
  cbn [take_digits]. rewrite digit_shown by (lia || (apply Z.mod_pos_bound; lia)). split_and!; [done| | |]; rewrite ?length_app; cbn; [|lia..].
  unfold value in *. rewrite foldl_app, Hv. cbn. pose proof (Z.div_mod n radix). lia.
Qed.
(** What was written is read back, whatever follows it. *)
Lemma read_number_show w radix max zeros k n rest : 2 ≤ radix ≤ 16 → (0 < k ≤ max)%nat → 0 ≤ n < radix ^ Z.of_nat k → n < 2 ^ w →
  zeros = true → no_digit radix rest →
  read_number w radix max zeros (show_number k radix n +:+ rest) = Some (n, rest).
Proof.
  intros Hr Hk Hn Hw -> Hd. destruct (take_digits_show radix k n Hr ltac:(lia) Hn) as (ds & E & Hv & Hl).
  unfold read_number. rewrite (take_digits_app _ _ ds rest E Hd).
  rewrite (proj2 (Nat.eqb_neq _ _)), (proj2 (Nat.ltb_ge _ _)) by lia. cbn [orb negb andb].
  by rewrite (proj2 (Z.leb_gt _ _)), Hv by lia.
Qed.

(** One octet, checked for each of the 256. *)
Definition octet_reads (b : Z) : bool :=
  let '(ds, rest) := take_digits 10 (show_octet b) in
  bool_decide (rest = ""%string) && (value 10 ds =? b) && bool_decide (read_number 8 10 3 false (show_octet b) = Some (b, ""%string)).

Lemma octets_read : forallb octet_reads (seqZ 0 256) = true.
Proof. vm_compute. reflexivity. Qed.

Lemma read_octet_app b rest : is_byte b → no_digit 10 rest →
  read_number 8 10 3 false (show_octet b +:+ rest) = Some (b, rest).
Proof.
  intros Hb Hr. assert (octet_reads b = true) as Ho.
  { apply (proj1 (forallb_forall octet_reads (seqZ 0 256)) octets_read), list_elem_of_In, elem_of_seqZ.
    unfold is_byte in Hb. lia. }
  unfold octet_reads in Ho. destruct (take_digits 10 (show_octet b)) as [ds r] eqn:Ed.
  apply andb_true_iff in Ho as [[Hr'%bool_decide_eq_true Hv]%andb_true_iff Hn%bool_decide_eq_true]. subst r.
  unfold read_number in *. rewrite Ed in Hn. rewrite (take_digits_app _ _ ds rest Ed Hr).
  repeat match goal with H : context [if ?c then _ else _] |- _ => destruct c; [done|] end. by injection Hn as ->.
Qed.

Lemma read_octets_app n i bs s0 rest : length bs = n → Forall is_byte bs → no_digit 10 rest →
  s0 = (match i with O => "" | S _ => "." end)%string →
  (n ≠ 0)%nat →
  read_octets n i (s0 +:+ String.concat "." (show_octet <$> bs) +:+ rest) = Some (bs, rest).
Proof.
  revert i bs s0. induction n as [|n IH]; intros i bs s0 Hl Hb Hr -> Hn; [done|].
  destruct bs as [|b bs]; [done|]. injection Hl as Hl. apply Forall_cons in Hb as [Hb Hbs].
  assert (∀ t, no_digit 10 t → sep dot i (read_number 8 10 3 false)
    ((match i with O => "" | S _ => "." end) +:+ show_octet b +:+ t) = Some (b, t)) as Hsep.
  { intros t Ht. destruct i; cbn -[show_octet read_number]; by apply read_octet_app. }
  destruct bs as [|b' bs].
  - cbn [fmap list_fmap String.concat]. cbn [read_octets]. rewrite Hsep by done. by destruct n.
  - change (String.concat "." (show_octet <$> b :: b' :: bs)) with
      (show_octet b +:+ ("." +:+ String.concat "." (show_octet <$> b' :: bs))).
    cbn [read_octets]. rewrite !append_assoc, Hsep by done.
    rewrite (IH (S i) (b' :: bs) "."%string); [done..|]. by destruct n.
Qed.

Lemma parse_show_ipv4 a : length a = 4%nat → Forall is_byte a → parse_ipv4 (show_ipv4 a) = Some a.
Proof.
  intros Hl Hb. unfold parse_ipv4, parse_with, read_ipv4, show_ipv4.
  pose proof (read_octets_app 4 0 a "" "" Hl Hb I eq_refl ltac:(done)) as E. change ("" +:+ ?s) with s in E.
  rewrite append_nil in E. by rewrite E.
Qed.
Lemma parse_ip_show_ipv4 a : length a = 4%nat → Forall is_byte a → parse_ip (show_ipv4 a) = Some (V4 a).
Proof.
  intros Hl Hb. pose proof (parse_show_ipv4 a Hl Hb) as E. unfold parse_ipv4, parse_ip, parse_with in *.
  destruct (read_ipv4 _) as [[b s]|]; [|done]. destruct s; [|done]. by injection E as ->.
Qed.

(** ** What a reader accepts *)

Lemma digit_nonneg radix a d : 0 ≤ radix → digit radix a = Some d → 0 ≤ d.
Proof. unfold digit. intros Hr. repeat case_match; intros E; simplify_eq; lia. Qed.

Lemma take_digits_nonneg radix s : 0 ≤ radix → Forall (λ d, 0 ≤ d) (take_digits radix s).1.
Proof.
  intros Hr. induction s as [|a s IH]; [constructor|]. cbn -[digit].
  destruct (digit radix a) as [d|] eqn:E; [|constructor].
  destruct (take_digits radix s) as [ds rest]. cbn. constructor; [by apply (digit_nonneg radix a)|done].
Qed.

Lemma value_nonneg radix ds : 0 ≤ radix → Forall (λ d, 0 ≤ d) ds → 0 ≤ value radix ds.
Proof.
  intros Hr. unfold value. enough (∀ acc, 0 ≤ acc → Forall (λ d, 0 ≤ d) ds → 0 ≤ foldl (λ acc d, acc * radix + d) acc ds) by auto with lia.
  induction ds as [|d ds IH]; intros acc Ha Hf; [done|]. apply Forall_cons in Hf as [? ?]. cbn. apply IH; [nia|done].
Qed.

Lemma read_number_range w radix max zeros s n rest : 0 ≤ radix →
  read_number w radix max zeros s = Some (n, rest) → 0 ≤ n < 2 ^ w.
Proof.
  intros Hr. unfold read_number. pose proof (take_digits_nonneg radix s Hr) as Hd.
  destruct (take_digits radix s) as [ds r]. repeat match goal with |- context [if ?c then _ else _] => destruct c eqn:?; [done|] end.
  intros [= <- <-]. split; [apply value_nonneg; [done|exact Hd]|lia].
Qed.

Lemma read_octets_wf n i s a rest : read_octets n i s = Some (a, rest) → length a = n ∧ Forall is_byte a.
Proof.
  revert i s a rest. induction n as [|n IH]; intros i s a rest; cbn [read_octets]; [by intros [= <- _]|].
  destruct (sep dot i _ s) as [[b t]|] eqn:E; [|done].
  destruct (read_octets n (S i) t) as [[bs u]|] eqn:E2; [|done]. intros [= <- _].
  apply IH in E2 as [<- Hb]. split; [done|]. constructor; [|done]. unfold is_byte. change 256 with (2 ^ 8).
  destruct i as [|i]; cbn [sep] in E; [by apply read_number_range in E|].
  destruct (read_char dot s) as [[_ u']|]; [|done]. by apply read_number_range in E.
Qed.

Lemma parse_ip_v4 s a : parse_ip s = Some (V4 a) → length a = 4%nat ∧ Forall is_byte a.
Proof.
  unfold parse_ip, parse_with. destruct (read_ipv4 s) as [[b t]|] eqn:E.
  - destruct t; [|done]. intros [= <-]. by apply (read_octets_wf 4 0) in E.
  - destruct (read_ipv6 s) as [[b t]|]; [|done]. by destruct t.
Qed.

(** * Reading back an IPv6 address

    [to_string] of an [Ipv6Addr] and [parse]: the compressed form, with the
    longest run of zero groups left out, and the IPv4-mapped form are read
    back as the address that was written. *)

(** ** Groups *)

Definition wf_groups (gs : list Z) : Prop := Forall (in_range 16) gs.

Lemma groups_bytes_cons g gs : groups_bytes (g :: gs) = to_be 2 g ++ groups_bytes gs.
Proof. done. Qed.
Lemma pairs_of_cons g bs : in_range 16 g → pairs_of (to_be 2 g ++ bs) = g :: pairs_of bs.
Proof.
  intros Hg. assert (∃ x y, to_be 2 g = [x; y]) as (x & y & E) by (by eexists _, _).
  rewrite E. cbn [app pairs_of]. rewrite <- E. f_equal. apply of_to_be. unfold in_range in Hg. cbn. lia.
Qed.
Lemma pairs_of_bytes gs : wf_groups gs → pairs_of (groups_bytes gs) = gs.
Proof. induction 1 as [|g gs Hg _ IH]; [done|]. by rewrite groups_bytes_cons, pairs_of_cons, IH. Qed.
Lemma bytes_of_pairs a n : length a = (2 * n)%nat → Forall is_byte a →
  groups_bytes (pairs_of a) = a ∧ length (pairs_of a) = n ∧ wf_groups (pairs_of a).
Proof.
  revert a. induction n as [|n IH]; intros [|x [|y a]] Hl Hb; try (cbn in Hl; lia); [by repeat constructor|].
  apply Forall_cons in Hb as [Hx Hb]. apply Forall_cons in Hb as [Hy Hb].
  destruct (IH a) as (E & Hn & Hw); [cbn in Hl; lia|done|]. cbn [pairs_of]. rewrite groups_bytes_cons, E. split_and!.
  - assert (Forall is_byte [x; y]) as Hxy by by rewrite !Forall_cons. pose proof (to_of_be [x; y] Hxy) as E2. cbn [length] in E2. by rewrite E2.
  - cbn. by rewrite Hn.
  - constructor; [|done]. unfold in_range, is_byte in *. unfold of_be. cbn. lia.
Qed.

(** ** Reading groups *)

Definition show_group (g : Z) : string := show_number 4 16 g.
Definition no_dot (s : string) : Prop := match s with String a _ => a ≠ dot | EmptyString => True end.

(** The digits of a group, and what the IPv4 reader makes of them: it stops
    where no dot follows. *)
Lemma take_digits_split radix s : ∃ pre, s = pre +:+ (take_digits radix s).2 ∧ no_digit radix (take_digits radix s).2.
Proof.
  induction s as [|a s (pre & E & Hn)]; [by exists ""%string|]. cbn [take_digits]. destruct (digit radix a) as [d|] eqn:Ed.
  - destruct (take_digits radix s) as [ds rest]. cbn in E, Hn |- *. exists (String a pre). split; [|done].
    change (String a s = String a (pre +:+ rest)). by rewrite <- E.
  - exists ""%string. split; [done|]. exact Ed.
Qed.
Lemma digit_mono a d : digit 10 a = Some d → digit 16 a = Some d.
Proof. unfold digit. cbv zeta. repeat case_match; intros; simplify_eq; try done; lia. Qed.
Lemma take_digits_no_dot s ds rest : take_digits 16 s = (ds, rest) → no_dot rest → no_dot (take_digits 10 s).2.
Proof.
  revert ds. induction s as [|a s IH]; intros ds E Hr; cbn [take_digits] in *; [done|].
  destruct (digit 10 a) as [d|] eqn:E10.
  - rewrite (digit_mono a d E10) in E. destruct (take_digits 16 s) as [ds' r]. injection E as <- ->.
    specialize (IH ds' eq_refl Hr). by destruct (take_digits 10 s).
  - cbn. intros ->. vm_compute in E. injection E as _ <-. done.
Qed.
Lemma read_number_rest w radix max zeros s n rest : read_number w radix max zeros s = Some (n, rest) →
  rest = (take_digits radix s).2.
Proof. unfold read_number. destruct (take_digits radix s) as [ds r]. repeat case_match; try done. by intros [= _ ->]. Qed.
Lemma read_dot_none s : no_dot s → read_char dot s = None.
Proof. destruct s as [|a s]; [done|]. cbn. intros Ha. by rewrite (proj2 (Ascii.eqb_neq _ _) Ha). Qed.
Lemma read_ipv4_no_dot s : no_dot (take_digits 10 s).2 → read_ipv4 s = None.
Proof.
  intros Hn. unfold read_ipv4. cbn [read_octets sep].
  destruct (read_number 8 10 3 false s) as [[b r]|] eqn:E; [|done]. apply read_number_rest in E. subst r.
  by rewrite read_dot_none.
Qed.

Lemma group_read g rest : in_range 16 g → no_digit 16 rest →
  read_number 16 16 4 true (show_group g +:+ rest) = Some (g, rest).
Proof. intros [Hg Hg'] Hr. by apply read_number_show; [lia..|]. Qed.
Lemma read_ipv4_group g rest : in_range 16 g → no_digit 16 rest → no_dot rest → read_ipv4 (show_group g +:+ rest) = None.
Proof.
  intros Hg Hd Hn. destruct (take_digits_show 16 4 g) as (ds & E & _); [lia..|exact Hg|].
  apply (take_digits_app _ _ _ rest) in E; [|done]. by apply read_ipv4_no_dot, (take_digits_no_dot _ ds rest).
Qed.

(** The separator before the [i]th group. *)
Definition colons (i : nat) : string := match i with O => "" | S _ => ":" end.
Definition stops (s : string) : Prop := no_digit 16 s ∧ no_dot s.

Lemma sep_read {A} i (r : Reader A) s : sep colon i r (colons i +:+ s) = r s.
Proof. by destruct i. Qed.
Lemma read_groups_one limit i g rest : in_range 16 g → stops rest →
  read_groups (S limit) i (colons i +:+ show_group g +:+ rest) =
  let '(gs, v4, s) := read_groups limit (S i) rest in (g :: gs, v4, s).
Proof.
  intros Hg [Hd Hn]. cbn [read_groups]. rewrite !sep_read, group_read, read_ipv4_group by done. by destruct limit.
Qed.
(** Where no group follows, the reader stops and consumes nothing. *)
Definition ends (i : nat) (s : string) : Prop :=
  sep colon i read_ipv4 s = None ∧ sep colon i (read_number 16 16 4 true) s = None.
Lemma read_groups_ends limit i s : ends i s → read_groups limit i s = ([], false, s).
Proof. intros [E4 E]. destruct limit as [|limit]; [done|]. cbn [read_groups]. rewrite E4, E. by destruct limit. Qed.

Lemma read_groups_show gs : ∀ limit i rest, wf_groups gs → gs ≠ [] → (length gs ≤ limit)%nat → stops rest →
  ((length gs < limit)%nat → ends (i + length gs) rest) →
  read_groups limit i (colons i +:+ show_groups gs +:+ rest) = (gs, false, rest).
Proof.
  induction gs as [|g gs IH]; intros limit i rest Hw Hne Hl Hr He; [done|]. apply Forall_cons in Hw as [Hg Hw].
  destruct limit as [|limit]; [cbn in Hl; lia|]. destruct gs as [|g' gs].
  - change (show_groups [g]) with (show_group g). rewrite read_groups_one by done.
    destruct limit as [|limit]; [done|]. rewrite read_groups_ends; [done|].
    replace (S i) with (i + length [g])%nat by (cbn; lia). apply He. cbn. lia.
  - change (show_groups (g :: g' :: gs)) with (show_group g +:+ (colons (S i) +:+ show_groups (g' :: gs))).
    rewrite !append_assoc, read_groups_one by (done || by split). rewrite IH; [done..|cbn in *; lia|done|].
    intros Hlt. replace (S i + length (g' :: gs))%nat with (i + length (g :: g' :: gs))%nat by (cbn; lia). apply He. cbn in *. lia.
Qed.

(** ** The run that is left out *)

Definition zeros_at (p : nat * nat) (gs : list Z) : Prop := ∀ j, (p.1 ≤ j < p.1 + p.2)%nat → gs !! j = Some 0.
Lemma zeros_at_app p gs gs' : zeros_at p gs → zeros_at p (gs ++ gs').
Proof. intros Hz j Hj. specialize (Hz j Hj). by apply lookup_app_l_Some. Qed.
Lemma zero_run_spec gs : ∀ i cur best pre, i = length pre → zeros_at cur pre → zeros_at best pre →
  (cur.2 = 0%nat ∨ cur.1 + cur.2 = i)%nat → zeros_at (zero_run i cur best gs) (pre ++ gs).
Proof.
  induction gs as [|g gs IH]; intros i cur best pre -> Hc Hb Hi; cbn [zero_run]; [by rewrite app_nil_r|].
  replace (pre ++ g :: gs) with ((pre ++ [g]) ++ gs) by by rewrite <- app_assoc.
  assert (length (pre ++ [g]) = S (length pre)) as Hlen by (rewrite length_app; cbn; lia).
  destruct (Z.eqb_spec g 0) as [->|Hg].
  - assert (zeros_at ((if (cur.2 =? 0)%nat then length pre else cur.1), S cur.2) (pre ++ [0])) as Hz.
    { intros j Hj. cbn [fst snd] in Hj. destruct (decide (j < length pre)%nat) as [Hl|Hl].
      - apply lookup_app_l_Some, Hc. destruct (Nat.eqb_spec cur.2 0) as [E|E]; lia.
      - assert (j = length pre) as -> by (destruct (Nat.eqb_spec cur.2 0) as [E|E], Hi; lia).
        rewrite lookup_app_r, Nat.sub_diag by lia. done. }
    apply IH; [by rewrite Hlen|done| |].
    + destruct (_ <? _)%nat; [exact Hz|by apply zeros_at_app].
    + right. cbn [fst snd]. destruct (Nat.eqb_spec cur.2 0) as [E|E]; [lia|]. destruct Hi; lia.
  - apply IH; [by rewrite Hlen|intros j Hj; cbn in Hj; lia|by apply zeros_at_app|by left].
Qed.
Lemma zeros_split (start len : nat) gs : zeros_at (start, len) gs →
  gs = take start gs ++ replicate len 0 ++ drop (start + len) gs.
Proof.
  intros Hz. rewrite <- (take_drop start gs) at 1. f_equal. rewrite <- (take_drop len (drop start gs)) at 1.
  rewrite drop_drop. f_equal. apply list_eq. intros j. destruct (decide (j < len)%nat) as [Hj|Hj].
  - rewrite lookup_take_lt, lookup_drop, lookup_replicate_2 by done. apply Hz. cbn. lia.
  - rewrite lookup_take_ge by lia. symmetry. apply lookup_ge_None_2. rewrite length_replicate. lia.
Qed.
Lemma zeros_inside (start len : nat) gs : zeros_at (start, len) gs → (0 < len)%nat → (start + len ≤ length gs)%nat.
Proof.
  intros Hz Hl. pose proof (Hz (start + len - 1)%nat ltac:(cbn; lia)) as E. apply lookup_lt_Some in E. lia.
Qed.

(** ** The whole address *)

Lemma colons_stop s : stops ("::" +:+ s) ∧ stops (":" +:+ s).
Proof. by repeat split. Qed.
Lemma ends_compressed i s : ends i ("::" +:+ s).
Proof. split; by destruct i. Qed.
Lemma ends_nil i : ends i "".
Proof. split; by destruct i. Qed.

Lemma read_head gs rest : wf_groups gs → (length gs < 8)%nat →
  read_groups 8 0 (show_groups gs +:+ "::" +:+ rest) = (gs, false, "::" +:+ rest).
Proof.
  intros Hw Hl. destruct gs as [|g gs].
  - apply read_groups_ends, ends_compressed.
  - apply (read_groups_show (g :: gs) 8 0 ("::" +:+ rest)); [done..|cbn in *; lia|apply colons_stop|]. intros _. apply ends_compressed.
Qed.
Lemma read_tail gs limit : wf_groups gs → (length gs ≤ limit)%nat → read_groups limit 0 (show_groups gs) = (gs, false, ""%string).
Proof.
  intros Hw Hl. destruct gs as [|g gs]; [apply read_groups_ends, ends_nil|].
  rewrite <- (append_nil (show_groups (g :: gs))).
  apply (read_groups_show (g :: gs) limit 0 ""); [done..|]. intros _. apply ends_nil.
Qed.

Lemma read_compressed head tail : wf_groups head → wf_groups tail → (length head + length tail < 8)%nat →
  read_ipv6 (show_groups head +:+ "::" +:+ show_groups tail) =
  Some (groups_bytes (head ++ replicate (8 - length head - length tail) 0 ++ tail), ""%string).
Proof.
  intros Hh Ht Hl. unfold read_ipv6. rewrite read_head by (done || lia).
  rewrite (proj2 (Nat.eqb_neq _ _)) by lia. cbn [read_char].
  change (read_char colon ("::" +:+ show_groups tail)) with (Some (tt, ":" +:+ show_groups tail)).
  cbn iota. change (read_char colon (":" +:+ show_groups tail)) with (Some (tt, show_groups tail)).
  cbn iota. by rewrite read_tail by (done || lia).
Qed.

Lemma read_groups_v4 limit i s a b c d rest : sep colon i read_ipv4 s = Some ([a; b; c; d], rest) →
  read_groups (S (S limit)) i s = ([of_be [a; b]; of_be [c; d]], true, rest).
Proof. intros E. change (read_groups (S (S limit)) i s) with (
  match sep colon i read_ipv4 s with
  | Some ([a; b; c; d], s) => ([of_be [a; b]; of_be [c; d]], true, s)
  | _ => match sep colon i (read_number 16 16 4 true) s with
         | Some (g, s) => let '(gs, v4, s) := read_groups (S limit) (S i) s in (g :: gs, v4, s)
         | None => ([], false, s)
         end
  end). by rewrite E. Qed.
Lemma read_mapped v4 : length v4 = 4%nat → Forall is_byte v4 →
  read_ipv6 ("::ffff:" +:+ show_ipv4 v4) = Some (replicate 10 0 ++ [255; 255] ++ v4, ""%string).
Proof.
  intros Hl Hb. unfold read_ipv6. change ("::ffff:" +:+ show_ipv4 v4) with ("::" +:+ ("ffff:" +:+ show_ipv4 v4)).
  rewrite read_groups_ends by apply ends_compressed.
  change (read_char colon ("::" +:+ ("ffff:" +:+ show_ipv4 v4))) with (Some (tt, ":" +:+ ("ffff:" +:+ show_ipv4 v4))).
  cbn -[read_groups show_ipv4 String.append]. change (read_char colon (":" +:+ ("ffff:" +:+ show_ipv4 v4))) with (Some (tt, "ffff:" +:+ show_ipv4 v4)).
  cbn -[read_groups show_ipv4 String.append].
  change ("ffff:" +:+ show_ipv4 v4) with (colons 0 +:+ show_group 65535 +:+ (":" +:+ show_ipv4 v4)).
  rewrite read_groups_one by (done || apply colons_stop).
  pose proof (read_octets_app 4 0 v4 "" "" Hl Hb I eq_refl ltac:(done)) as E. change ("" +:+ ?s) with s in E.
  rewrite append_nil in E. destruct v4 as [|x [|y [|z [|w [|]]]]]; [discriminate..| |discriminate].
  rewrite (read_groups_v4 4 1 (":" +:+ show_ipv4 [x; y; z; w]) x y z w ""); [|exact E].
  cbn -[of_be to_be groups_bytes].
  assert (is_byte x ∧ is_byte y ∧ is_byte z ∧ is_byte w) as (Hx & Hy & Hz & Hw) by (rewrite !Forall_cons in Hb; tauto).
  do 2 f_equal.
  assert (∀ a b, is_byte a → is_byte b → to_be 2 (of_be [a; b]) = [a; b]) as Hab.
  { intros a b Ha Hb'. apply (to_of_be [a; b]). by rewrite !Forall_cons. }
  by rewrite !Hab.
Qed.

Lemma parse_show_ipv6 a : length a = 16%nat → Forall is_byte a → parse_ipv6 (show_ipv6 a) = Some a.
Proof.
  intros Hl Hb. destruct (bytes_of_pairs a 8 Hl Hb) as (Ea & Hn & Hw). unfold parse_ipv6, parse_with, show_ipv6.
  case_bool_decide as Hm.
  { rewrite read_mapped; [|by rewrite length_drop, Hl|by apply Forall_drop]. by rewrite app_assoc, <- Hm, take_drop. }
  pose proof (zero_run_spec (pairs_of a) 0 (0, 0)%nat (0, 0)%nat [] eq_refl) as Hz.
  destruct (zero_run 0 (0, 0)%nat (0, 0)%nat (pairs_of a)) as [start len]. cbn [app] in Hz.
  assert (zeros_at (start, len) (pairs_of a)) as Hr by (apply Hz; [intros j Hj; cbn in Hj; lia..|by left]).
  destruct (Nat.ltb_spec 1 len) as [Hlen|Hlen].
  - pose proof (zeros_inside _ _ _ Hr ltac:(lia)) as Hin. rewrite Hn in Hin. rewrite read_compressed.
    + rewrite length_take, length_drop, Hn. replace (8 - start `min` 8 - (8 - (start + len)))%nat with len by lia.
      by rewrite <- zeros_split, Ea.
    + by apply Forall_take.
    + by apply Forall_drop.
    + rewrite length_take, length_drop, Hn. lia.
  - unfold read_ipv6. rewrite read_tail by (done || lia). rewrite Hn. cbn. by rewrite Ea.
Qed.

(** What is read is an address. *)
Lemma read_groups_le limit i s : (length (read_groups limit i s).1.1 ≤ limit)%nat.
Proof.
  revert i s. induction limit as [|limit IH]; intros i s; [cbn; lia|]. cbn [read_groups].
  assert (∀ t, (length (match sep colon i (read_number 16 16 4 true) t with
                        | Some (g, t) => let '(gs, v4, t) := read_groups limit (S i) t in (g :: gs, v4, t)
                        | None => ([], false, t) end).1.1 ≤ S limit)%nat) as Hg.
  { intros t. destruct (sep colon i (read_number 16 16 4 true) t) as [[g u]|]; [|cbn; lia].
    specialize (IH (S i) u). destruct (read_groups limit (S i) u) as [[gs v4] u']. cbn in *. lia. }
  destruct limit as [|limit']; [exact (Hg s)|].
  destruct (sep colon i read_ipv4 s) as [[[|a [|b [|c [|d [|]]]]] t]|]; [exact (Hg s)..|cbn; lia|exact (Hg s)|exact (Hg s)].
Qed.
Lemma length_groups_bytes gs : length (groups_bytes gs) = (2 * length gs)%nat.
Proof. induction gs as [|g gs IH]; [done|]. rewrite groups_bytes_cons, length_app, IH, to_be_length. cbn. lia. Qed.
Lemma groups_bytes_wf gs : length gs = 8%nat → length (groups_bytes gs) = 16%nat ∧ Forall is_byte (groups_bytes gs).
Proof.
  intros E. rewrite length_groups_bytes, E. split; [done|]. clear E.
  induction gs as [|g gs IH]; [by constructor|]. rewrite groups_bytes_cons. apply Forall_app. split; [apply to_be_bytes|done].
Qed.
Lemma parse_ipv6_wf s a : parse_ipv6 s = Some a → length a = 16%nat ∧ Forall is_byte a.
Proof.
  unfold parse_ipv6, parse_with, read_ipv6. pose proof (read_groups_le 8 0 s) as Hh.
  destruct (read_groups 8 0 s) as [[hd hv4] t]. cbn [fst] in Hh. destruct (Nat.eqb_spec (length hd) 8) as [E|_].
  { destruct t; [|done]. intros [= <-]. by apply groups_bytes_wf. }
  destruct hv4; [done|]. destruct (read_char colon t) as [[_ u]|]; [|done]. destruct (read_char colon u) as [[_ v]|]; [|done].
  pose proof (read_groups_le (7 - length hd) 0 v) as Ht. destruct (read_groups (7 - length hd) 0 v) as [[tl tv4] w]. cbn [fst] in Ht.
  destruct w; [|done]. intros [= <-]. apply groups_bytes_wf. rewrite !length_app, length_replicate. lia.
Qed.

(** What is read as a prefix. *)
Lemma digits_nonneg radix bound acc s n : 0 ≤ radix → 0 ≤ acc → digits radix bound acc s = Some n → 0 ≤ n.
Proof.
  intros Hr. revert acc. induction s as [|a s IH]; intros acc Ha; cbn [digits]; [by intros [= <-]|].
  destruct (digit radix a) as [d|] eqn:Ed; [|done]. apply digit_nonneg in Ed; [|done]. cbn.
  destruct (bound <=? acc * radix + d); [done|]. apply IH. nia.
Qed.
Lemma from_str_radix_nonneg w radix s n : 0 ≤ radix → from_str_radix w radix s = Some n → 0 ≤ n.
Proof. intros Hr. unfold from_str_radix. case_bool_decide; [done|]. by apply digits_nonneg. Qed.
Lemma parse_ipv4_prefix_wf s a len : parse_ipv4_prefix s = Some (a, len) → (length a = 4%nat ∧ Forall is_byte a) ∧ 0 ≤ len ≤ 32.
Proof.
  unfold parse_ipv4_prefix. destruct (split_once slash s) as [[x y]|]; [|done]. cbn -[parse_ipv4 from_str_radix Z.ltb].
  destruct (parse_ipv4 x) as [b|] eqn:Ea; [|done]. destruct (from_str_radix 8 10 y) as [l|] eqn:El; [|done].
  cbn -[Z.ltb]. destruct (Z.ltb_spec 32 l); [done|]. intros [= <- <-]. apply from_str_radix_nonneg in El; [|done]. split; [|lia].
  unfold parse_ipv4, parse_with in Ea. destruct (read_ipv4 x) as [[c t]|] eqn:E; [|done]. destruct t; [|done].
  injection Ea as <-. by apply (read_octets_wf 4 0) in E.
Qed.
Lemma parse_ipv6_prefix_wf s a len : parse_ipv6_prefix s = Some (a, len) → (length a = 16%nat ∧ Forall is_byte a) ∧ 0 ≤ len ≤ 128.
Proof.
  unfold parse_ipv6_prefix. destruct (split_once slash s) as [[x y]|]; [|done]. cbn -[parse_ipv6 from_str_radix Z.ltb].
  destruct (parse_ipv6 x) as [b|] eqn:Ea; [|done]. destruct (from_str_radix 8 10 y) as [l|] eqn:El; [|done].
  cbn -[Z.ltb]. destruct (Z.ltb_spec 128 l); [done|]. intros [= <- <-]. apply from_str_radix_nonneg in El; [|done].
  split; [by apply parse_ipv6_wf in Ea|lia].
Qed.

Lemma digits_below radix bound acc s n : acc < bound → digits radix bound acc s = Some n → n < bound.
Proof.
  revert acc. induction s as [|a s IH]; intros acc Ha; cbn [digits]; [by intros [= <-]|].
  destruct (digit radix a) as [d|]; [|done]. cbn.
  destruct (Z.leb_spec bound (acc * radix + d)); [done|]. by apply IH.
Qed.
Lemma from_str_radix_below w radix s n : 0 ≤ w → from_str_radix w radix s = Some n → n < 2 ^ w.
Proof. intros Hw. unfold from_str_radix. case_bool_decide; [done|]. apply digits_below. lia. Qed.
Lemma parse_ipv4_wf s a : parse_ipv4 s = Some a → length a = 4%nat ∧ Forall is_byte a.
Proof.
  unfold parse_ipv4, parse_with. destruct (read_ipv4 s) as [[b t]|] eqn:E; [|done].
  destruct t; [|done]. intros [= <-]. by apply (read_octets_wf 4 0) in E.
Qed.
Lemma parse_ip_v6 s a : parse_ip s = Some (V6 a) → length a = 16%nat ∧ Forall is_byte a.
Proof.
  intros E. apply (parse_ipv6_wf s). revert E. unfold parse_ip, parse_ipv6, parse_with.
  destruct (read_ipv4 s) as [[b t]|]; [by destruct t|].
  destruct (read_ipv6 s) as [[b t]|]; [|done]. destruct t; [|done]. by intros [= <-].
Qed.
