(* ===== verification/Pb.v ===== *)
(** * The control API's messages ([proto/cradle.proto])

    One record per message, with its fields.  A field that is absent on the
    wire has the default of its type, as in the structures generated from
    the schema: the empty string or list, 0, false. *)

From S2P Require Import Prelude.

Record pb_Port := mk_pb_Port { Port_name : string; Port_mac : string; Port_l3 : bool; Port_vlan : Z;
  Port_vrf_id : Z }.
Record pb_L2Domain := mk_pb_L2Domain { L2Domain_vlan : Z; L2Domain_members : list string }.
Record pb_EthernetSegment := mk_pb_EthernetSegment { EthernetSegment_esi : string;
  EthernetSegment_ports : list string; EthernetSegment_esi_label : Z }.
Record pb_EthernetSegmentDel := mk_pb_EthernetSegmentDel { EthernetSegmentDel_esi : string }.
Record pb_EsRole := mk_pb_EsRole { EsRole_esi : string; EsRole_bd : Z; EsRole_df : bool;
  EsRole_single_active : bool }.
Record pb_EtreeRole := mk_pb_EtreeRole { EtreeRole_port : string; EtreeRole_leaf : bool }.
Record pb_EtreeLeafLabel := mk_pb_EtreeLeafLabel { EtreeLeafLabel_label : Z }.
Record pb_EtreeLeafArg := mk_pb_EtreeLeafArg { EtreeLeafArg_arg : Z }.
Record pb_EtreeRootOnly := mk_pb_EtreeRootOnly { EtreeRootOnly_remote : string; EtreeRootOnly_label : Z;
  EtreeRootOnly_root_only : bool }.
Record pb_EtreeRemote := mk_pb_EtreeRemote { EtreeRemote_bd : Z; EtreeRemote_remote : string;
  EtreeRemote_leaf_only : bool }.
Record pb_EsPeers := mk_pb_EsPeers { EsPeers_esi : string; EsPeers_vteps : list string }.
Record pb_EsNhgMember := mk_pb_EsNhgMember { EsNhgMember_remote_sid : string; EsNhgMember_remote_vtep : string;
  EsNhgMember_remote_pe : string; EsNhgMember_remote_label : Z }.
Record pb_EsNhg := mk_pb_EsNhg { EsNhg_esi : string; EsNhg_bd : Z; EsNhg_members : list pb_EsNhgMember;
  EsNhg_single_active : bool }.
Record pb_PortDel := mk_pb_PortDel { PortDel_name : string }.
Record pb_FdbFlush := mk_pb_FdbFlush { FdbFlush_port : string; FdbFlush_vlan : Z }.
Record pb_Nexthop := mk_pb_Nexthop { Nexthop_id : Z; Nexthop_gateway : string; Nexthop_oif : string;
  Nexthop_oif_index : Z; Nexthop_v6 : bool; Nexthop_labels : list Z; Nexthop_segs : list string;
  Nexthop_encap_mode : Z; Nexthop_backup_id : Z; Nexthop_gtp_src : string; Nexthop_gtp_dst : string;
  Nexthop_gtp_teid : Z; Nexthop_vxlan_vtep : string; Nexthop_vxlan_l3vni : Z; Nexthop_vxlan_rmac : string;
  Nexthop_mpls_pipe_ttl : bool }.
Record pb_GtpPdr := mk_pb_GtpPdr { GtpPdr_dst : string; GtpPdr_teid : Z; GtpPdr_vrf : Z; GtpPdr_match_vrf : Z }.
Record pb_GtpPdrDel := mk_pb_GtpPdrDel { GtpPdrDel_dst : string; GtpPdrDel_teid : Z; GtpPdrDel_match_vrf : Z }.
Record pb_NexthopGroup := mk_pb_NexthopGroup { NexthopGroup_id : Z; NexthopGroup_members : list Z }.
Record pb_Route4 := mk_pb_Route4 { Route4_prefix : string; Route4_nexthop_id : Z; Route4_flags : Z;
  Route4_vrf_table_id : Z }.
Record pb_Route4Del := mk_pb_Route4Del { Route4Del_prefix : string; Route4Del_vrf_table_id : Z }.
Record pb_Route4Batch := mk_pb_Route4Batch { Route4Batch_routes : list pb_Route4 }.
Record pb_FibSummary := mk_pb_FibSummary { FibSummary_fib4_mode : string; FibSummary_routes4 : Z;
  FibSummary_tbl8_used : Z; FibSummary_tbl8_free : Z }.
Record pb_Route6 := mk_pb_Route6 { Route6_prefix : string; Route6_nexthop_id : Z; Route6_flags : Z;
  Route6_vrf_table_id : Z }.
Record pb_Route6Del := mk_pb_Route6Del { Route6Del_prefix : string; Route6Del_vrf_table_id : Z }.
Record pb_LocalSid := mk_pb_LocalSid { LocalSid_sid : string; LocalSid_prefix_len : Z; LocalSid_behavior : Z;
  LocalSid_vrf_table_id : Z; LocalSid_oif : Z; LocalSid_nh6 : string; LocalSid_lb_bits : Z;
  LocalSid_ln_bits : Z; LocalSid_fun_bits : Z; LocalSid_arg_bits : Z; LocalSid_nexthop_id : Z;
  LocalSid_flavors : Z }.
Record pb_LocalSidDel := mk_pb_LocalSidDel { LocalSidDel_sid : string; LocalSidDel_prefix_len : Z }.
Record pb_Srv6EncapSource := mk_pb_Srv6EncapSource { Srv6EncapSource_addr : string }.
Record pb_Vni := mk_pb_Vni { Vni_vni : Z; Vni_vlan : Z; Vni_l3 : bool; Vni_vrf : Z; Vni_rmac : string }.
Record pb_VniDel := mk_pb_VniDel { VniDel_vni : Z }.
Record pb_VtepSource := mk_pb_VtepSource { VtepSource_addr : string }.
Record pb_FdbRemote := mk_pb_FdbRemote { FdbRemote_mac : string; FdbRemote_bd : Z;
  FdbRemote_remote_sid : string; FdbRemote_nexthop_id : Z; FdbRemote_remote_vtep : string;
  FdbRemote_remote_pe : string; FdbRemote_remote_label : Z; FdbRemote_esi : string;
  FdbRemote_etree_leaf : bool }.
Record pb_FdbRemoteDel := mk_pb_FdbRemoteDel { FdbRemoteDel_mac : string; FdbRemoteDel_bd : Z }.
Record pb_FdbLocal := mk_pb_FdbLocal { FdbLocal_mac : string; FdbLocal_bd : Z; FdbLocal_port : string }.
Record pb_Xconnect := mk_pb_Xconnect { Xconnect_port : string; Xconnect_port_index : Z;
  Xconnect_remote_sid : string; Xconnect_local_sid : string; Xconnect_vid : Z; Xconnect_dx2v_table : Z;
  Xconnect_remote_vtep : string; Xconnect_remote_vni : Z; Xconnect_local_vni : Z; Xconnect_remote_pe : string;
  Xconnect_remote_label : Z; Xconnect_local_label : Z }.
Record pb_XconnectDel := mk_pb_XconnectDel { XconnectDel_port : string; XconnectDel_port_index : Z;
  XconnectDel_local_sid : string; XconnectDel_vid : Z; XconnectDel_dx2v_table : Z; XconnectDel_local_vni : Z;
  XconnectDel_local_label : Z }.
Record pb_ReplSlot := mk_pb_ReplSlot { ReplSlot_bd : Z; ReplSlot_remote_sid : string;
  ReplSlot_remote_vtep : string; ReplSlot_remote_pe : string; ReplSlot_remote_label : Z; ReplSlot_esi : string;
  ReplSlot_esi_label : Z; ReplSlot_etree_leaf_label : Z; ReplSlot_etree_leaf_sid : string }.
Record pb_ReplSegBranch := mk_pb_ReplSegBranch { ReplSegBranch_sid : string; ReplSegBranch_nexthop_id : Z;
  ReplSegBranch_local : bool }.
Record pb_ReplSeg := mk_pb_ReplSeg { ReplSeg_sid : string; ReplSeg_branches : list pb_ReplSegBranch;
  ReplSeg_hop_limit_threshold : Z }.
Record pb_ReplSegDel := mk_pb_ReplSegDel { ReplSegDel_sid : string }.
Record pb_MirrorRoute := mk_pb_MirrorRoute { MirrorRoute_ctx : Z; MirrorRoute_prefix : string;
  MirrorRoute_prefix_len : Z; MirrorRoute_behavior : Z; MirrorRoute_vrf_table_id : Z }.
Record pb_MirrorRouteDel := mk_pb_MirrorRouteDel { MirrorRouteDel_ctx : Z; MirrorRouteDel_prefix : string;
  MirrorRouteDel_prefix_len : Z }.
Record pb_FdbEvent := mk_pb_FdbEvent { FdbEvent_mac : string; FdbEvent_bd : Z; FdbEvent_event : Z;
  FdbEvent_port : Z }.
Record pb_BfdEcho := mk_pb_BfdEcho { BfdEcho_discr : Z; BfdEcho_local : string; BfdEcho_peer : string;
  BfdEcho_tx_us : Z; BfdEcho_detect_mult : Z; BfdEcho_oif : string }.
Record pb_BfdDetect := mk_pb_BfdDetect { BfdDetect_discr : Z; BfdDetect_detect_us : Z }.
Record pb_BfdKey := mk_pb_BfdKey { BfdKey_discr : Z }.
Record pb_BfdEvent := mk_pb_BfdEvent { BfdEvent_discr : Z; BfdEvent_kind : Z }.
Record pb_Neighbor4 := mk_pb_Neighbor4 { Neighbor4_oif : string; Neighbor4_ip : string; Neighbor4_mac : string;
  Neighbor4_oif_index : Z }.
Record pb_Neighbor6 := mk_pb_Neighbor6 { Neighbor6_oif : string; Neighbor6_ip : string; Neighbor6_mac : string;
  Neighbor6_oif_index : Z }.
Record pb_Ilm := mk_pb_Ilm { Ilm_in_label : Z; Ilm_nexthop_id : Z; Ilm_action : Z; Ilm_vrf_table_id : Z;
  Ilm_ttl_uniform : bool }.
Record pb_IlmDel := mk_pb_IlmDel { IlmDel_in_label : Z }.
Record pb_Backend := mk_pb_Backend { Backend_ip : string; Backend_port : Z }.
Record pb_Service := mk_pb_Service { Service_svc_id : Z; Service_vip : string; Service_port : Z;
  Service_proto : string; Service_backends : list pb_Backend; Service_affinity : bool }.
Record pb_ServiceDel := mk_pb_ServiceDel { ServiceDel_vip : string; ServiceDel_port : Z;
  ServiceDel_proto : string }.
Record pb_AllocIpRequest := mk_pb_AllocIpRequest { AllocIpRequest_pool : string; AllocIpRequest_owner : string;
  AllocIpRequest_pool6 : string }.
Record pb_AllocIpReply := mk_pb_AllocIpReply { AllocIpReply_ip : string; AllocIpReply_prefix_len : Z;
  AllocIpReply_ip6 : string; AllocIpReply_prefix_len6 : Z }.
Record pb_ReleaseIpRequest := mk_pb_ReleaseIpRequest { ReleaseIpRequest_owner : string;
  ReleaseIpRequest_ip : string }.
Record pb_CniEndpoint := mk_pb_CniEndpoint { CniEndpoint_container_id : string; CniEndpoint_ifname : string;
  CniEndpoint_netns : string; CniEndpoint_host_if : string; CniEndpoint_ip : string; CniEndpoint_vrf_id : Z;
  CniEndpoint_host_ifindex : Z; CniEndpoint_pod_name : string; CniEndpoint_pod_namespace : string;
  CniEndpoint_policy_revision : Z; CniEndpoint_ip6 : string; CniEndpoint_chained : bool }.
Record pb_CniEndpointKey := mk_pb_CniEndpointKey { CniEndpointKey_container_id : string;
  CniEndpointKey_ifname : string }.
Record pb_Identity := mk_pb_Identity { Identity_ip : string; Identity_identity : Z; Identity_vrf_id : Z }.
Record pb_IdentityDel := mk_pb_IdentityDel { IdentityDel_ip : string; IdentityDel_vrf_id : Z }.
Record pb_CidrIdentity := mk_pb_CidrIdentity { CidrIdentity_cidr : string; CidrIdentity_identity : Z;
  CidrIdentity_del : bool; CidrIdentity_vrf_id : Z }.
Record pb_PolicyRule := mk_pb_PolicyRule { PolicyRule_identity : Z; PolicyRule_proto : Z; PolicyRule_port : Z;
  PolicyRule_deny : bool }.
Record pb_L7Rule := mk_pb_L7Rule { L7Rule_method : string; L7Rule_path : string }.
Record pb_L7PortPolicy := mk_pb_L7PortPolicy { L7PortPolicy_port : Z; L7PortPolicy_rules : list pb_L7Rule }.
Record pb_EndpointPolicy := mk_pb_EndpointPolicy { EndpointPolicy_host_if : string;
  EndpointPolicy_pod_namespace : string; EndpointPolicy_pod_name : string; EndpointPolicy_enforce : bool;
  EndpointPolicy_rules : list pb_PolicyRule; EndpointPolicy_enforce_egress : bool;
  EndpointPolicy_egress_rules : list pb_PolicyRule; EndpointPolicy_audit : bool;
  EndpointPolicy_l7 : list pb_L7PortPolicy }.
Record pb_PolicyTraceRequest := mk_pb_PolicyTraceRequest { PolicyTraceRequest_src : string;
  PolicyTraceRequest_dst : string; PolicyTraceRequest_port : Z; PolicyTraceRequest_proto : string;
  PolicyTraceRequest_vrf_id : Z }.
Record pb_PolicySummary := mk_pb_PolicySummary { PolicySummary_identities : Z; PolicySummary_identities6 : Z;
  PolicySummary_cidrs : Z; PolicySummary_cidrs6 : Z; PolicySummary_endpoints : Z; PolicySummary_rules : Z;
  PolicySummary_pct : Z; PolicySummary_pct6 : Z }.
Record pb_MasqNode := mk_pb_MasqNode { MasqNode_node : string }.
Record pb_NonMasq := mk_pb_NonMasq { NonMasq_cidr : string; NonMasq_del : bool }.
Record pb_StatEntry := mk_pb_StatEntry { StatEntry_name : string; StatEntry_packets : Z }.
Record pb_L7Route := mk_pb_L7Route { L7Route_path_prefix : string; L7Route_backend_ip : string;
  L7Route_backend_port : Z }.
Record pb_L7Service := mk_pb_L7Service { L7Service_vip : string; L7Service_port : Z;
  L7Service_routes : list pb_L7Route }.
Record pb_DumpRequest := mk_pb_DumpRequest { DumpRequest_table : Z; DumpRequest_vrf : Z;
  DumpRequest_resolve : bool }.
Record pb_NexthopInfo := mk_pb_NexthopInfo { NexthopInfo_id : Z; NexthopInfo_gateway : string;
  NexthopInfo_oif : Z; NexthopInfo_labels : list Z; NexthopInfo_flags : Z }.
Record pb_FdbDumpEntry := mk_pb_FdbDumpEntry { FdbDumpEntry_mac : string; FdbDumpEntry_vlan : Z;
  FdbDumpEntry_oif : Z; FdbDumpEntry_flags : Z; FdbDumpEntry_remote_sid : string; FdbDumpEntry_age_ms : Z }.
Record pb_FibDumpEntry := mk_pb_FibDumpEntry { FibDumpEntry_prefix : string; FibDumpEntry_vrf : Z;
  FibDumpEntry_nexthop_id : Z; FibDumpEntry_flags : Z; FibDumpEntry_nh : option pb_NexthopInfo }.
Record pb_MplsDumpEntry := mk_pb_MplsDumpEntry { MplsDumpEntry_label : Z; MplsDumpEntry_op : string;
  MplsDumpEntry_nexthop_id : Z; MplsDumpEntry_vrf : Z; MplsDumpEntry_nh : option pb_NexthopInfo }.
Record pb_Srv6LocalSidEntry := mk_pb_Srv6LocalSidEntry { Srv6LocalSidEntry_sid : string;
  Srv6LocalSidEntry_prefix_len : Z; Srv6LocalSidEntry_behavior : string; Srv6LocalSidEntry_flavors : Z;
  Srv6LocalSidEntry_vrf : Z; Srv6LocalSidEntry_nexthop_id : Z; Srv6LocalSidEntry_nh : option pb_NexthopInfo }.
Record pb_Srv6EncapEntry := mk_pb_Srv6EncapEntry { Srv6EncapEntry_nexthop_id : Z; Srv6EncapEntry_mode : string;
  Srv6EncapEntry_segs : list string }.
Record pb_NexthopDumpEntry := mk_pb_NexthopDumpEntry { NexthopDumpEntry_id : Z;
  NexthopDumpEntry_gateway : string; NexthopDumpEntry_oif : Z; NexthopDumpEntry_flags : Z;
  NexthopDumpEntry_labels : list Z; NexthopDumpEntry_backup_id : Z; NexthopDumpEntry_group : list Z }.
