(* ===== verification/Grpc.v ===== *)
(** * The control API ([impl Cradle for GrpcService], crates/cradle/src/control.rs)

    One definition per request of the API: what it reads out of the message,
    what it refuses, and the operation of [Control] it runs.  The transport
    (tonic) decodes the message and sends the reply or the status back.  The
    second part holds the rows of a dump and the event streams. *)

From S2P Require Import Prelude.
From S2P Require Import Contract.
From S2P Require Import Common.
From S2P Require Import Bpf.
From S2P Require Import Maps.
From S2P Require Import MapRefs.
From S2P Require Import Dataplane.
From S2P Require Import Cni.
From S2P Require Import Text.
From S2P Require Import L7.
From S2P Require Import Control.
From S2P Require Import Ports.
From S2P Require Import Overlay.
From S2P Require Import Pods.
From S2P Require Import Echo.
From S2P Require Import IpText.
From S2P Require Import Pb.

(** What a refused request is answered with: [st] wraps the error of an
    operation, or of the standard library's parsers. *)
Inductive Status : Type :=
| Internal (e : option CtlErr)
| InvalidArgument.


(** The address of [ip], when one is given. *)
Definition opt_str {A} (parse : string → option A) (s : string) : option (option A) :=
  if is_set s then Some <$> parse s else Some None.

(** [s.parse::<SocketAddr>()] on [<ip>:<port>]; the scope of a v6 address is
    read and does not take part in the choice of a backend. *)
Definition read_port : Reader Z := λ s,
  match read_char colon s with Some (_, s) => read_number 16 10 (String.length s) true s | None => None end.
Definition read_scope : Reader unit := λ s,
  match read_char (Ascii.ascii_of_nat 37) s with
  | Some (_, t) => match read_number 32 10 (String.length t) true t with Some (_, t) => Some (tt, t) | None => Some (tt, s) end
  | None => Some (tt, s)
  end.
Definition read_socket6 : Reader SocketAddr := λ s,
  '(_, s) ← read_char (Ascii.ascii_of_nat 91) s;
  '(a, s) ← read_ipv6 s;
  '(_, s) ← read_scope s;
  '(_, s) ← read_char (Ascii.ascii_of_nat 93) s;
  '(p, s) ← read_port s;
  Some (V6 a, p, s).
Definition read_socket : Reader SocketAddr := λ s,
  match ('(a, s) ← read_ipv4 s; '(p, s) ← read_port s; Some (V4 a, p, s)) with
  | Some r => Some r
  | None => read_socket6 s
  end.
Definition parse_socket (s : string) : option SocketAddr := parse_with read_socket s.

Definition count_set (l : list bool) : nat := length (filter (λ b, b = true) l).

Section grpc.
Context `{HostOps} `{Regex} `{MapSys}.

Abbreviation Rpc := (M Control Status).

(** [.await.map_err(st)?] *)
Definition call {A} (m : Ctrl A) : Rpc A := λ c,
  let '(c, r) := m c in (c, match r with Ok a => Ok a | Err e => Err (Internal (Some e)) end).
(** [.map_err(st)?] on a parser *)
Definition parsed {A} (o : option A) : Rpc A := of_option (Internal None) o.
Definition invalid {A} : Rpc A := bail InvalidArgument.

(** ** Ports and bridge domains *)

Definition rpc_set_port (p : pb_Port) : Rpc unit :=
  call (set_port (Port_name p) (Some (Port_mac p)) (Port_l3 p) (wrap 16 (Port_vlan p)) (Port_vrf_id p)).
Definition rpc_del_port (order : list (Z * PortAttachment)) (p : pb_PortDel) : Rpc unit :=
  call (del_port order (PortDel_name p)).
Definition rpc_set_l2_domain (d : pb_L2Domain) : Rpc unit :=
  call (set_l2_domain (wrap 16 (L2Domain_vlan d)) (L2Domain_members d)).
Definition rpc_add_fdb_local (f : pb_FdbLocal) : Rpc unit :=
  mac ← parsed (parse_mac (FdbLocal_mac f));
  call (add_fdb_local mac (wrap 16 (FdbLocal_bd f)) (FdbLocal_port f)).
Definition rpc_flush_fdb (order : list (Z * PortAttachment)) (f : pb_FdbFlush) : Rpc unit :=
  let port := if is_set (FdbFlush_port f) then Some (FdbFlush_port f) else None in
  let vlan := if negb (FdbFlush_vlan f =? 0) then Some (wrap 16 (FdbFlush_vlan f)) else None in
  _ ← call (flush_fdb order port vlan); mret tt.

(** ** Ethernet Segments and E-Tree *)

Definition rpc_set_ethernet_segment (e : pb_EthernetSegment) : Rpc unit :=
  call (set_ethernet_segment (EthernetSegment_esi e) (EthernetSegment_ports e) (EthernetSegment_esi_label e)).
Definition rpc_del_ethernet_segment (e : pb_EthernetSegmentDel) : Rpc unit :=
  call (del_ethernet_segment (EthernetSegmentDel_esi e)).
Definition rpc_set_es_role (r : pb_EsRole) : Rpc unit :=
  call (set_es_role (EsRole_esi r) (wrap 16 (EsRole_bd r)) (EsRole_df r) (EsRole_single_active r)).

(** The peers are parsed by [Control::set_es_peers]. *)
Definition rpc_set_es_peers (p : pb_EsPeers) : Rpc unit :=
  peers ← parsed (mapM parse_ip (EsPeers_vteps p));
  call (set_es_peers (EsPeers_esi p) (list_to_set peers)).

(** The members are parsed by [Control::set_es_nhg]: an address that is not
    one refuses the whole group. *)
Definition nhg_member (m : pb_EsNhgMember) : option EsNhgMember :=
  sid ← opt_str parse_ipv6 (EsNhgMember_remote_sid m);
  vtep ← opt_str parse_ip (EsNhgMember_remote_vtep m);
  pe ← opt_str parse_ip (EsNhgMember_remote_pe m);
  Some (mkEsNhgMember sid vtep pe (EsNhgMember_remote_label m)).
Definition rpc_set_es_nhg (g : pb_EsNhg) : Rpc unit :=
  members ← parsed (mapM nhg_member (EsNhg_members g));
  call (set_es_nhg (EsNhg_esi g) (wrap 16 (EsNhg_bd g)) members (EsNhg_single_active g)).

Definition rpc_set_etree_role (r : pb_EtreeRole) : Rpc unit :=
  call (set_etree_role (EtreeRole_port r) (EtreeRole_leaf r)).
Definition rpc_set_etree_root_only (r : pb_EtreeRootOnly) : Rpc unit :=
  remote ← parsed (parse_ip (EtreeRootOnly_remote r));
  call (set_etree_root_only (v6_key remote, EtreeRootOnly_label r) (EtreeRootOnly_root_only r)).
Definition rpc_set_etree_remote (r : pb_EtreeRemote) : Rpc unit :=
  remote ← parsed (parse_ip (EtreeRemote_remote r));
  if 2 ^ 16 <=? EtreeRemote_bd r then invalid else
  call (set_etree_remote (EtreeRemote_bd r) remote (EtreeRemote_leaf_only r)).
Definition rpc_set_etree_leaf_label (r : pb_EtreeLeafLabel) : Rpc unit :=
  let label := EtreeLeafLabel_label r in
  if negb (label =? 0) && negb (unreserved_label label) then invalid else
  call (set_etree_leaf_label label).
Definition rpc_set_etree_leaf_arg (r : pb_EtreeLeafArg) : Rpc unit :=
  call (set_etree_leaf_arg (EtreeLeafArg_arg r)).

(** ** Nexthops and routes *)

(** The interface of a nexthop that must leave through one. *)
Definition nh_oif (n : pb_Nexthop) : Rpc Z :=
  if negb (Nexthop_oif_index n =? 0) then mret (Nexthop_oif_index n) else call (resolve (Nexthop_oif n)).
(** An oif-less nexthop is stored as it is. *)
Definition nh_oif_or_none (n : pb_Nexthop) : Rpc Z :=
  if negb (Nexthop_oif_index n =? 0) || negb (is_set (Nexthop_oif n)) then mret (Nexthop_oif_index n)
  else call (resolve (Nexthop_oif n)).

(** The kind of encapsulation, by the fields that are set.  The datagram
    that makes the kernel resolve the gateway is best effort and changes
    nothing here. *)
Definition rpc_set_nexthop (n : pb_Nexthop) : Rpc unit :=
  if is_set (Nexthop_vxlan_vtep n) then
    gw ← parsed (opt_str parse_ipv4 (Nexthop_gateway n));
    oif ← nh_oif n;
    vtep ← parsed (parse_ipv4 (Nexthop_vxlan_vtep n));
    rmac ← parsed (parse_mac (Nexthop_vxlan_rmac n));
    call (set_nexthop_vxlan (Nexthop_id n) gw oif vtep (Nexthop_vxlan_l3vni n) rmac)
  else if is_set (Nexthop_gtp_dst n) then
    oif ← nh_oif n;
    dst ← parsed (parse_ip (Nexthop_gtp_dst n));
    match dst with
    | V4 dst =>
        gw ← parsed (opt_str parse_ipv4 (Nexthop_gateway n));
        src ← parsed (parse_ipv4 (Nexthop_gtp_src n));
        call (set_nexthop_gtp (Nexthop_id n) gw oif src dst (Nexthop_gtp_teid n))
    | V6 dst =>
        gw ← parsed (opt_str parse_ipv6 (Nexthop_gateway n));
        src ← parsed (parse_ipv6 (Nexthop_gtp_src n));
        call (set_nexthop_gtp6 (Nexthop_id n) gw oif src dst (Nexthop_gtp_teid n))
    end
  else if negb (bool_decide (Nexthop_segs n = [])) then
    gw ← parsed (opt_str parse_ipv6 (Nexthop_gateway n));
    oif ← nh_oif n;
    segs ← parsed (mapM parse_ipv6 (Nexthop_segs n));
    call (set_nexthop_srv6 (Nexthop_id n) gw oif segs (wrap 8 (Nexthop_encap_mode n)))
  else if Nexthop_v6 n then
    gw ← parsed (opt_str parse_ipv6 (Nexthop_gateway n));
    oif ← nh_oif_or_none n;
    call (set_nexthop_idx_v6 (Nexthop_id n) gw oif (Nexthop_labels n) (Nexthop_backup_id n) (Nexthop_mpls_pipe_ttl n))
  else
    gw ← parsed (opt_str parse_ipv4 (Nexthop_gateway n));
    if negb (Nexthop_oif_index n =? 0) || negb (is_set (Nexthop_oif n)) then
      call (set_nexthop_idx (Nexthop_id n) gw (Nexthop_oif_index n) (Nexthop_labels n) (Nexthop_backup_id n)
              (Nexthop_mpls_pipe_ttl n))
    else
      call (set_nexthop (Nexthop_id n) gw (Nexthop_oif n) (Nexthop_labels n) (Nexthop_backup_id n)
              (Nexthop_mpls_pipe_ttl n)).
Definition rpc_set_nexthop_group (g : pb_NexthopGroup) : Rpc unit :=
  call (set_nexthop_group (NexthopGroup_id g) (NexthopGroup_members g)).

Definition rpc_add_route4 (r : pb_Route4) : Rpc unit :=
  '(addr, len) ← parsed (parse_ipv4_prefix (Route4_prefix r));
  call (add_route4 (Route4_vrf_table_id r) addr len (Route4_nexthop_id r) (Route4_flags r)).
Definition rpc_del_route4 (r : pb_Route4Del) : Rpc unit :=
  '(addr, len) ← parsed (parse_ipv4_prefix (Route4Del_prefix r));
  call (del_route4 (Route4Del_vrf_table_id r) addr len).
Definition batch_route (r : pb_Route4) : option Route4 :=
  '(addr, len) ← parse_ipv4_prefix (Route4_prefix r);
  Some (mkRoute4 (Route4_vrf_table_id r) addr len (Route4_nexthop_id r) (Route4_flags r)).
Definition rpc_add_route4_batch (b : pb_Route4Batch) : Rpc unit :=
  routes ← parsed (mapM batch_route (Route4Batch_routes b));
  call (add_routes4 routes).
Definition rpc_add_route6 (r : pb_Route6) : Rpc unit :=
  '(addr, len) ← parsed (parse_ipv6_prefix (Route6_prefix r));
  call (add_route6 (Route6_vrf_table_id r) addr len (Route6_nexthop_id r) (Route6_flags r)).
Definition rpc_del_route6 (r : pb_Route6Del) : Rpc unit :=
  '(addr, len) ← parsed (parse_ipv6_prefix (Route6Del_prefix r));
  call (del_route6 (Route6Del_vrf_table_id r) addr len).
Definition rpc_get_fib_summary : Rpc pb_FibSummary :=
  c ← get;
  let '(mode, routes4, used, free) := fib_summary (now (c_run c)) in
  mret (mk_pb_FibSummary mode routes4 used free).

Definition rpc_set_neighbor4 (n : pb_Neighbor4) : Rpc unit :=
  ip ← parsed (parse_ipv4 (Neighbor4_ip n));
  mac ← parsed (parse_mac (Neighbor4_mac n));
  if negb (Neighbor4_oif_index n =? 0) then call (set_neighbor4_idx (Neighbor4_oif_index n) ip mac)
  else call (set_neighbor4 (Neighbor4_oif n) ip mac).
Definition rpc_set_neighbor6 (n : pb_Neighbor6) : Rpc unit :=
  ip ← parsed (parse_ipv6 (Neighbor6_ip n));
  mac ← parsed (parse_mac (Neighbor6_mac n));
  if negb (Neighbor6_oif_index n =? 0) then call (set_neighbor6_idx (Neighbor6_oif_index n) ip mac)
  else call (set_neighbor6 (Neighbor6_oif n) ip mac).

(** ** SRv6, GTP-U and VXLAN *)

Definition sid_prefix_len (len : Z) : Z := if len =? 0 then 128 else wrap 8 len.
Definition rpc_add_local_sid (s : pb_LocalSid) : Rpc unit :=
  sid ← parsed (parse_ipv6 (LocalSid_sid s));
  behavior ← call (srv6_behavior (LocalSid_behavior s));
  if 7 <? LocalSid_flavors s then invalid else
  call (add_localsid sid (sid_prefix_len (LocalSid_prefix_len s))
    (mkLocalSid behavior (wrap 8 (LocalSid_flavors s)) (LocalSid_vrf_table_id s) (LocalSid_nexthop_id s)
       (wrap 8 (LocalSid_lb_bits s)) (wrap 8 (LocalSid_ln_bits s)) (wrap 8 (LocalSid_fun_bits s))
       (wrap 8 (LocalSid_arg_bits s)))).
Definition rpc_del_local_sid (s : pb_LocalSidDel) : Rpc unit :=
  sid ← parsed (parse_ipv6 (LocalSidDel_sid s));
  call (del_localsid sid (sid_prefix_len (LocalSidDel_prefix_len s))).
Definition rpc_set_srv6_encap_source (s : pb_Srv6EncapSource) : Rpc unit :=
  addr ← parsed (parse_ipv6 (Srv6EncapSource_addr s)); call (set_srv6_encap_source addr).
Definition rpc_add_mirror_route (m : pb_MirrorRoute) : Rpc unit :=
  prefix ← parsed (parse_ipv6 (MirrorRoute_prefix m));
  behavior ← call (srv6_behavior (MirrorRoute_behavior m));
  call (add_mirror_route (MirrorRoute_ctx m) prefix (wrap 8 (MirrorRoute_prefix_len m)) behavior (MirrorRoute_vrf_table_id m)).
Definition rpc_del_mirror_route (m : pb_MirrorRouteDel) : Rpc unit :=
  prefix ← parsed (parse_ipv6 (MirrorRouteDel_prefix m));
  call (del_mirror_route (MirrorRouteDel_ctx m) prefix (wrap 8 (MirrorRouteDel_prefix_len m))).

Definition rpc_add_gtp_pdr (p : pb_GtpPdr) : Rpc unit :=
  dst ← parsed (parse_ip (GtpPdr_dst p));
  call (ctl_gtp_pdr_add dst (GtpPdr_teid p) (GtpPdr_vrf p) (GtpPdr_match_vrf p)).
Definition rpc_del_gtp_pdr (p : pb_GtpPdrDel) : Rpc unit :=
  dst ← parsed (parse_ip (GtpPdrDel_dst p));
  call (ctl_gtp_pdr_del dst (GtpPdrDel_teid p) (GtpPdrDel_match_vrf p)).

Definition rpc_set_vni (v : pb_Vni) : Rpc unit :=
  if Vni_l3 v then rmac ← parsed (parse_mac (Vni_rmac v)); call (set_vni_l3 (Vni_vni v) (Vni_vrf v) rmac)
  else call (set_vni (Vni_vni v) (wrap 16 (Vni_vlan v))).
Definition rpc_del_vni (v : pb_VniDel) : Rpc unit := call (del_vni (VniDel_vni v)).
Definition rpc_set_vtep_source (s : pb_VtepSource) : Rpc unit :=
  addr ← parsed (parse_ip (VtepSource_addr s)); call (set_vtep_source addr).

(** ** Remote MACs, cross-connects, replication *)

Definition bad_label (label : Z) : bool := (label =? 0) || (2 ^ 20 <=? label).

Definition rpc_add_fdb_remote (f : pb_FdbRemote) : Rpc unit :=
  mac ← parsed (parse_mac (FdbRemote_mac f));
  let bd := wrap 16 (FdbRemote_bd f) in
  if is_set (FdbRemote_esi f) then call (add_fdb_remote_es mac bd (FdbRemote_esi f) (FdbRemote_etree_leaf f)) else
  if negb (count_set [is_set (FdbRemote_remote_sid f); is_set (FdbRemote_remote_vtep f);
                      is_set (FdbRemote_remote_pe f)] =? 1)%nat then invalid else
  if is_set (FdbRemote_remote_sid f) then
    sid ← parsed (parse_ipv6 (FdbRemote_remote_sid f));
    call (add_fdb_remote mac bd sid (FdbRemote_nexthop_id f) (FdbRemote_etree_leaf f))
  else if is_set (FdbRemote_remote_vtep f) then
    vtep ← parsed (parse_ip (FdbRemote_remote_vtep f));
    call (add_fdb_remote_vxlan mac bd vtep (FdbRemote_nexthop_id f) (FdbRemote_etree_leaf f))
  else
    pe ← parsed (parse_ip (FdbRemote_remote_pe f));
    if bad_label (FdbRemote_remote_label f) then invalid else
    call (add_fdb_remote_mpls mac bd pe (FdbRemote_remote_label f) (FdbRemote_nexthop_id f) (FdbRemote_etree_leaf f)).
Definition rpc_del_fdb_remote (f : pb_FdbRemoteDel) : Rpc unit :=
  mac ← parsed (parse_mac (FdbRemoteDel_mac f)); call (del_fdb_remote mac (wrap 16 (FdbRemoteDel_bd f))).

Definition xc_remote (x : pb_Xconnect) : Rpc XconnectRemote :=
  match is_set (Xconnect_remote_sid x), is_set (Xconnect_remote_vtep x), is_set (Xconnect_remote_pe x) with
  | true, false, false => sid ← parsed (parse_ipv6 (Xconnect_remote_sid x)); mret (XrSrv6 sid)
  | false, true, false =>
      if Xconnect_remote_vni x =? 0 then invalid else
      vtep ← parsed (parse_ip (Xconnect_remote_vtep x)); mret (XrVxlan vtep (Xconnect_remote_vni x))
  | false, false, true =>
      if Xconnect_remote_label x =? 0 then invalid else
      pe ← parsed (parse_ip (Xconnect_remote_pe x)); mret (XrMpls pe (Xconnect_remote_label x))
  | _, _, _ => invalid
  end.
Definition xc_local (local_sid : string) (local_vni local_label : Z) : Rpc XconnectLocal :=
  match is_set local_sid, negb (local_vni =? 0), negb (local_label =? 0) with
  | false, false, false => mret XlNone
  | true, false, false => sid ← parsed (parse_ipv6 local_sid); mret (XlSrv6 sid)
  | false, true, false => mret (XlVxlan local_vni)
  | false, false, true => mret (XlMpls local_label)
  | _, _, _ => invalid
  end.
Definition rpc_add_xconnect (x : pb_Xconnect) : Rpc unit :=
  remote ← xc_remote x;
  local ← xc_local (Xconnect_local_sid x) (Xconnect_local_vni x) (Xconnect_local_label x);
  let vid := wrap 16 (Xconnect_vid x) in
  if negb (Xconnect_port_index x =? 0)
  then call (add_xconnect_idx (Xconnect_port_index x) remote local vid (Xconnect_dx2v_table x))
  else call (add_xconnect (Xconnect_port x) remote local vid (Xconnect_dx2v_table x)).
Definition rpc_del_xconnect (x : pb_XconnectDel) : Rpc unit :=
  local ← xc_local (XconnectDel_local_sid x) (XconnectDel_local_vni x) (XconnectDel_local_label x);
  let vid := wrap 16 (XconnectDel_vid x) in
  if negb (XconnectDel_port_index x =? 0)
  then call (del_xconnect_idx (XconnectDel_port_index x) local vid (XconnectDel_dx2v_table x))
  else call (del_xconnect (XconnectDel_port x) local vid (XconnectDel_dx2v_table x)).

Definition rpc_add_repl_slot (order : list (L2MemberKey * Z)) (r : pb_ReplSlot) : Rpc unit :=
  let bd := wrap 16 (ReplSlot_bd r) in
  if negb (count_set [is_set (ReplSlot_remote_sid r); is_set (ReplSlot_remote_vtep r);
                      is_set (ReplSlot_remote_pe r)] =? 1)%nat then invalid else
  if is_set (ReplSlot_etree_leaf_sid r) && negb (is_set (ReplSlot_remote_sid r)) then invalid else
  if is_set (ReplSlot_remote_sid r) then
    sid ← parsed (parse_ipv6 (ReplSlot_remote_sid r));
    leaf ← parsed (opt_str parse_ipv6 (ReplSlot_etree_leaf_sid r));
    call (add_repl_slot_auto order bd sid leaf)
  else if is_set (ReplSlot_remote_vtep r) then
    vtep ← parsed (parse_ip (ReplSlot_remote_vtep r));
    call (add_repl_slot_auto_vxlan order bd vtep)
  else
    pe ← parsed (parse_ip (ReplSlot_remote_pe r));
    if bad_label (ReplSlot_remote_label r) then invalid else
    if negb (Bool.eqb (negb (is_set (ReplSlot_esi r))) (ReplSlot_esi_label r =? 0)) then invalid else
    c ← get;
    match check_extra_labels (ReplSlot_esi_label r) (ReplSlot_etree_leaf_label r) c with
    | (_, Err _) => invalid
    | (_, Ok _) =>
        call (add_repl_slot_auto_mpls order bd pe (ReplSlot_remote_label r)
          (if is_set (ReplSlot_esi r) then Some (ReplSlot_esi r) else None)
          (ReplSlot_esi_label r) (ReplSlot_etree_leaf_label r))
    end.

(** The registry's key: the remote as an IPv6 address, then the leaf's mark
    or the segment. *)
Definition rpc_del_repl_slot (r : pb_ReplSlot) : Rpc unit :=
  key ← (if is_set (ReplSlot_remote_sid r) then parsed (parse_ipv6 (ReplSlot_remote_sid r))
         else if is_set (ReplSlot_remote_vtep r) then parsed (v6_key <$> parse_ip (ReplSlot_remote_vtep r))
         else parsed (v6_key <$> parse_ip (ReplSlot_remote_pe r)));
  let slot_key := if negb (ReplSlot_etree_leaf_label r =? 0) || is_set (ReplSlot_etree_leaf_sid r)
                  then ETREE_SLOT_KEY else ReplSlot_esi r in
  call (del_repl_slot_auto (wrap 16 (ReplSlot_bd r)) key slot_key).

Definition seg_branch_of (b : pb_ReplSegBranch) : option (bytes * Z * bool) :=
  sid ← parse_ipv6 (ReplSegBranch_sid b); Some (sid, ReplSegBranch_nexthop_id b, ReplSegBranch_local b).
Definition rpc_set_repl_seg (r : pb_ReplSeg) : Rpc unit :=
  sid ← parsed (parse_ipv6 (ReplSeg_sid r));
  branches ← parsed (mapM seg_branch_of (ReplSeg_branches r));
  call (set_repl_seg sid (wrap 8 (ReplSeg_hop_limit_threshold r)) branches).
Definition rpc_del_repl_seg (r : pb_ReplSegDel) : Rpc unit :=
  sid ← parsed (parse_ipv6 (ReplSegDel_sid r)); call (del_repl_seg sid).

(** ** MPLS *)

Definition ilm_actions : list Z :=
  [MPLS_OP_SWAP; MPLS_OP_POP_L3; MPLS_OP_POP; MPLS_OP_POP_XC; MPLS_OP_POP_XC_VLAN; MPLS_OP_POP_L2].
Definition rpc_add_ilm (i : pb_Ilm) : Rpc unit :=
  if 2 ^ 20 <=? Ilm_in_label i then invalid else
  if negb (bool_decide (Ilm_action i ∈ ilm_actions)) then invalid else
  call (add_ilm (Ilm_in_label i) (Ilm_nexthop_id i) (Ilm_action i) (Ilm_vrf_table_id i)
    (if Ilm_ttl_uniform i then MPLS_E_TTL_UNIFORM else 0)).
Definition rpc_del_ilm (i : pb_IlmDel) : Rpc unit := call (del_ilm (IlmDel_in_label i)).

(** ** Services *)

Definition ip_proto (proto : string) : option Z :=
  if bool_decide (proto = "tcp"%string) then Some 6
  else if bool_decide (proto = "udp"%string) then Some 17 else None.

Definition backend_of (parse : string → option bytes) (b : pb_Backend) : option (bytes * Z) :=
  ip ← parse (Backend_ip b); Some (ip, wrap 16 (Backend_port b)).

Definition rpc_add_service (s : pb_Service) : Rpc unit :=
  proto ← of_option InvalidArgument (ip_proto (Service_proto s));
  vip ← parsed (parse_ip (Service_vip s));
  match vip with
  | V4 v4 =>
      backends ← parsed (mapM (backend_of parse_ipv4) (Service_backends s));
      call (add_service (Service_svc_id s) v4 (wrap 16 (Service_port s)) proto backends (Service_affinity s))
  | V6 v6 =>
      backends ← parsed (mapM (backend_of parse_ipv6) (Service_backends s));
      call (add_service6 (Service_svc_id s) v6 (wrap 16 (Service_port s)) proto backends (Service_affinity s))
  end.
Definition rpc_del_service (s : pb_ServiceDel) : Rpc unit :=
  proto ← of_option InvalidArgument (ip_proto (ServiceDel_proto s));
  vip ← parsed (parse_ip (ServiceDel_vip s));
  call (del_service vip (wrap 16 (ServiceDel_port s)) proto).

Definition l7_route (r : pb_L7Route) : option L7Route :=
  backend ← parse_socket (L7Route_backend_ip r +:+ ":" +:+ show_number 10 10 (L7Route_backend_port r));
  Some (mkL7Route (L7Route_path_prefix r) backend).
Definition rpc_add_l7_service (s : pb_L7Service) : Rpc unit :=
  vip ← parsed (parse_ipv4 (L7Service_vip s));
  routes ← parsed (mapM l7_route (L7Service_routes s));
  call (add_l7_service vip (wrap 16 (L7Service_port s)) routes).

Definition rpc_set_masq_node (m : pb_MasqNode) : Rpc unit :=
  node ← parsed (opt_str parse_ipv4 (MasqNode_node m)); call (set_masq_node node).
Definition rpc_set_non_masq (n : pb_NonMasq) : Rpc unit :=
  '(net, len) ← parsed (parse_ipv4_prefix (NonMasq_cidr n));
  if NonMasq_del n then call (del_non_masq net len) else call (add_non_masq net len).

(** ** Identities and policies *)

Definition rpc_set_identity (i : pb_Identity) : Rpc unit :=
  ip ← parsed (parse_ip (Identity_ip i));
  match ip with
  | V4 ip => call (set_identity (Identity_vrf_id i) (of_be ip) (Identity_identity i))
  | V6 ip => call (set_identity6 (Identity_vrf_id i) ip (Identity_identity i) false)
  end.
Definition rpc_del_identity (i : pb_IdentityDel) : Rpc unit :=
  ip ← parsed (parse_ip (IdentityDel_ip i));
  match ip with
  | V4 ip => call (del_identity (IdentityDel_vrf_id i) (of_be ip))
  | V6 ip => call (set_identity6 (IdentityDel_vrf_id i) ip 0 true)
  end.
Definition rpc_set_cidr_identity (c : pb_CidrIdentity) : Rpc unit :=
  if contains ":" (CidrIdentity_cidr c) then
    '(net, len) ← parsed (parse_ipv6_prefix (CidrIdentity_cidr c));
    call (set_cidr6_identity (CidrIdentity_vrf_id c) net len (CidrIdentity_identity c) (CidrIdentity_del c))
  else
    '(net, len) ← parsed (parse_ipv4_prefix (CidrIdentity_cidr c));
    call (set_cidr_identity (CidrIdentity_vrf_id c) net len (CidrIdentity_identity c) (CidrIdentity_del c)).

(** [as u8] and [as u16] keep the low bits. *)
Definition rule_of (r : pb_PolicyRule) : Rule :=
  mkRule (PolicyRule_identity r) (wrap 8 (PolicyRule_proto r)) (wrap 16 (PolicyRule_port r)) (PolicyRule_deny r).
Definition l7_port_of (p : pb_L7PortPolicy) : Z * list L7PolicyRule :=
  (wrap 16 (L7PortPolicy_port p), (λ r, mkL7PolicyRule (L7Rule_method r) (L7Rule_path r)) <$> L7PortPolicy_rules p).
Definition rpc_set_endpoint_policy (p : pb_EndpointPolicy) : Rpc unit :=
  ep ← call (resolve_endpoint (EndpointPolicy_host_if p) (EndpointPolicy_pod_namespace p) (EndpointPolicy_pod_name p));
  _ ← call (set_endpoint_policy ep (EndpointPolicy_enforce p) (EndpointPolicy_enforce_egress p)
              (EndpointPolicy_audit p) (rule_of <$> EndpointPolicy_rules p) (rule_of <$> EndpointPolicy_egress_rules p)
              (l7_port_of <$> EndpointPolicy_l7 p));
  mret tt.

(** ** The CNI store *)

Definition rpc_alloc_ip (r : pb_AllocIpRequest) : Rpc pb_AllocIpReply :=
  '(net, len) ← parsed (parse_ipv4_prefix (AllocIpRequest_pool r));
  '(ip, prefix_len) ← call (cni_alloc_ip (of_be net, len) (AllocIpRequest_owner r));
  '(ip6, prefix_len6) ←
    (if negb (is_set (AllocIpRequest_pool6 r)) then mret (""%string, 0) else
       '(net, len) ← parsed (parse_ipv6_prefix (AllocIpRequest_pool6 r));
       '(a, p) ← call (cni_alloc_ip6 (of_be net, len) (AllocIpRequest_owner r));
       mret (show_ipv6 (to_be 16 a), p));
  mret (mk_pb_AllocIpReply (show_ipv4 (to_be 4 ip)) prefix_len ip6 prefix_len6).
Definition rpc_release_ip (r : pb_ReleaseIpRequest) : Rpc unit :=
  ip ← parsed (opt_str parse_ipv4 (ReleaseIpRequest_ip r));
  call (cni_release_ip (ReleaseIpRequest_owner r) (of_be <$> ip) None).
Definition rpc_create_endpoint (e : pb_CniEndpoint) : Rpc unit :=
  ip ← parsed (parse_ipv4 (CniEndpoint_ip e));
  ip6 ← parsed (opt_str parse_ipv6 (CniEndpoint_ip6 e));
  call (cni_create_endpoint (CniEndpoint_container_id e) (CniEndpoint_ifname e) (CniEndpoint_netns e)
    (CniEndpoint_host_if e) (of_be ip) (of_be <$> ip6) (CniEndpoint_vrf_id e) (CniEndpoint_pod_name e)
    (CniEndpoint_pod_namespace e) (CniEndpoint_chained e)).
Definition rpc_delete_endpoint (k : pb_CniEndpointKey) : Rpc unit :=
  call (cni_delete_endpoint (CniEndpointKey_container_id k) (CniEndpointKey_ifname k)).
Definition endpoint_to_pb (revs : gmap Z Z) (ep : Endpoint) : pb_CniEndpoint :=
  mk_pb_CniEndpoint (ep_container_id ep) (ep_ifname ep) (ep_netns ep) (ep_host_if ep) (show_ipv4 (ip4 (ep_ip ep)))
    (ep_vrf_id ep) (ep_host_ifindex ep) (ep_pod_name ep) (ep_pod_namespace ep)
    (default 0 (revs !! ep_host_ifindex ep)) (from_option (λ a, show_ipv6 (ip6 a)) "" (ep_ip6 ep)) (ep_chained ep).
Definition rpc_list_endpoints : Rpc (list pb_CniEndpoint) :=
  c ← get;
  eps ← call (on_cni list_endpoints);
  mret (endpoint_to_pb (c_policy_revisions c) <$> eps).

(** ** BFD *)

(** The detection time is the interval times the multiplier, both at least
    1; durations are nanoseconds. *)
Definition rpc_arm_bfd_echo (e : pb_BfdEcho) : Rpc EchoCmd :=
  local ← parsed (parse_ip (BfdEcho_local e));
  peer ← parsed (parse_ip (BfdEcho_peer e));
  let tx := Z.max (BfdEcho_tx_us e) 1 * 1000 in
  let detect := tx * Z.max (BfdEcho_detect_mult e) 1 in
  call (ctl_bfd_echo_arm (BfdEcho_discr e) (BfdEcho_oif e) local peer tx detect).
Definition rpc_disarm_bfd_echo (k : pb_BfdKey) : Rpc EchoCmd := call (ctl_bfd_echo_disarm (BfdKey_discr k)).
Definition rpc_arm_bfd_detect (d : pb_BfdDetect) : Rpc unit :=
  call (ctl_bfd_detect_arm (BfdDetect_discr d) (BfdDetect_detect_us d * 1000)).
Definition rpc_disarm_bfd_detect (k : pb_BfdKey) : Rpc unit := call (ctl_bfd_detect_disarm (BfdKey_discr k)).

(** ** The trace and the counters *)

Context `{Kernel}.

Definition verdict_name (v : Verdict) : string :=
  match v with
  | TDefaultAllow => "DEFAULT-ALLOW" | TL7 => "L7" | TAudit => "AUDIT" | TDeny => "DENY" | TAllow => "ALLOW"
  end.
Definition trace_proto (proto : string) : Z :=
  if bool_decide (proto = "udp"%string) then 17
  else if bool_decide (proto = ""%string) || bool_decide (proto = "any"%string) then 0 else 6.
(** The verdict; the lines that explain it are for the operator. *)
Definition rpc_policy_trace (r : pb_PolicyTraceRequest) : Rpc string :=
  src ← parsed (parse_ip (PolicyTraceRequest_src r));
  dst ← parsed (parse_ip (PolicyTraceRequest_dst r));
  v ← call (policy_trace src dst (PolicyTraceRequest_vrf_id r) (trace_proto (PolicyTraceRequest_proto r))
              (wrap 16 (PolicyTraceRequest_port r)));
  mret (verdict_name v).

Definition STAT_NAMES : list string :=
  ["l2_forward"; "l2_flood"; "l3v4_forward"; "l3v6_forward"; "l3_local"; "l4_dnat"; "l4_snat"; "drop";
   "l7_redirect"; "mpls_swap"; "mpls_pop"; "mpls_push"; "fib4_tbl24_hit"; "fib4_tbl8_hit"; "fib4_default";
   "fib4_vrf_hit"; "srv6_encap"; "srv6_decap"; "fib6_vrf_hit"; "srv6_end"; "srv6_usid"; "srv6_l2_encap";
   "srv6_l2_decap"; "srv6_l2_bum"; "fdb_aged"; "srv6_hinsert"; "nh_backup"; "srv6_endm"; "srv6_psp";
   "srv6_usp"; "srv6_usd"; "srv6_replace"; "srv6_b6"; "srv6_endt"; "srv6_dx"; "gtp_encap"; "gtp_decap";
   "srv6_dx2"; "policy_drop"; "masq"; "policy_audit"; "vxlan_encap"; "vxlan_decap"; "vxlan_flood";
   "srv6_replicate"; "xdp_l3_fwd"; "mpls_l2_encap"; "mpls_l2_decap"; "mpls_l2_bum"; "vxlan_dx2"; "mpls_dx2";
   "l2_drop_nondf"; "l2_drop_sph"; "l2_es_nhg"; "l2_drop_sa"; "mpls_l2_esi_push"; "mpls_l2_esi_pop";
   "l2_drop_etree_local"; "l2_drop_etree_uc"; "mpls_l2_leaf_push"; "mpls_l2_leaf_pop"; "l2_drop_etree_bum";
   "srv6_l2_leaf_decap"; "srv6_drop_arg"]%string.
Definition ctl_stats (d : Dp) : list (string * Z) :=
  zip STAT_NAMES ((λ i, default 0 (dp_stats d !! i)) <$> seqZ 0 STAT_MAX).
Definition rpc_get_stats : Rpc (list pb_StatEntry) :=
  c ← get; mret ((λ '(name, packets), mk_pb_StatEntry name packets) <$> ctl_stats (now (c_run c))).
End grpc.

(** * What the API reports back (crates/cradle/src/control.rs)

    The rows of [cradle dump] in their wire form, and the two event streams:
    [watch_fdb] tells a subscriber of the MACs learned on local ports,
    [watch_bfd] of the sessions that went down.  A stream is a loop of
    rounds; a round compares what the maps say with what was reported. *)

(** ** Dump rows *)

Definition mpls_op_name (op : Z) : string :=
  if op =? MPLS_OP_SWAP then "swap" else if op =? MPLS_OP_POP_L3 then "pop_l3"
  else if op =? MPLS_OP_POP then "pop" else if op =? MPLS_OP_POP_L2 then "pop_l2"
  else if op =? MPLS_OP_POP_XC then "pop_xc" else if op =? MPLS_OP_POP_XC_VLAN then "pop_xc_vlan"
  else "unknown".

Definition behavior_names : list (Z * string) :=
  [(SRV6_BH_END, "End"); (SRV6_BH_END_X, "End.X"); (SRV6_BH_END_DT4, "End.DT4"); (SRV6_BH_END_DT6, "End.DT6");
   (SRV6_BH_END_DT46, "End.DT46"); (SRV6_BH_END_B6, "End.B6.Encaps"); (SRV6_BH_UN, "uN"); (SRV6_BH_UA, "uA");
   (SRV6_BH_UALIB, "uA.lib"); (SRV6_BH_END_DT2U, "End.DT2U"); (SRV6_BH_END_DT2M, "End.DT2M");
   (SRV6_BH_END_M, "End.M"); (SRV6_BH_END_REP, "End.Replace"); (SRV6_BH_END_X_REP, "End.X.Replace");
   (SRV6_BH_END_T, "End.T"); (SRV6_BH_END_DX4, "End.DX4"); (SRV6_BH_END_DX6, "End.DX6");
   (SRV6_BH_END_DX2, "End.DX2"); (SRV6_BH_END_DX2V, "End.DX2V"); (SRV6_BH_END_REPLICATE, "End.Replicate")]%string.
Definition srv6_behavior_name (b : Z) : string :=
  default "unknown"%string (first_some (λ '(k, n), if k =? b then Some n else None) behavior_names).

Definition hex2 (b : Z) : string := String (digit_char (b / 16)) (String (digit_char (b mod 16)) EmptyString).
Definition fmt_mac (mac : bytes) : string := String.concat ":" (hex2 <$> mac).

Definition is_zero_bytes (a : bytes) : bool := bool_decide (Forall (eq 0) a).
Definition nh_gateway_text (nh : NextHop) : string :=
  if has (nh_flags nh) NH_F_V6 then
    if is_zero_bytes (nh_gateway_v6 nh) then "" else show_ipv6 (nh_gateway_v6 nh)
  else if negb (nh_gateway_v4 nh =? 0) then show_ipv4 (to_be 4 (nh_gateway_v4 nh)) else "".
Definition nh_to_pb (id : Z) (nh : NextHop) : pb_NexthopInfo :=
  mk_pb_NexthopInfo id (nh_gateway_text nh) (Contract.nh_oif nh) (take (Z.to_nat (nh_num_labels nh)) (nh_labels nh)) (nh_flags nh).

Inductive pb_DumpEntry : Type :=
| EntryFdb (e : pb_FdbDumpEntry)
| EntryFib (e : pb_FibDumpEntry)
| EntryMpls (e : pb_MplsDumpEntry)
| EntrySrv6Localsid (e : pb_Srv6LocalSidEntry)
| EntrySrv6Encap (e : pb_Srv6EncapEntry)
| EntryNexthop (e : pb_NexthopDumpEntry).

Definition row_to_pb (row : DumpRow) : pb_DumpEntry :=
  match row with
  | RowFdb mac vlan oif fl remote_sid age_ms =>
      EntryFdb (mk_pb_FdbDumpEntry (fmt_mac mac) vlan oif fl
        (if is_zero_bytes remote_sid then "" else show_ipv6 remote_sid) age_ms)
  | RowFib addr prefix_len vrf nexthop_id fl nh =>
      EntryFib (mk_pb_FibDumpEntry (show_ip addr +:+ "/" +:+ show_number 3 10 prefix_len) vrf nexthop_id fl
        (nh_to_pb nexthop_id <$> nh))
  | RowMpls label op nexthop_id vrf nh =>
      EntryMpls (mk_pb_MplsDumpEntry label (mpls_op_name op) nexthop_id vrf (nh_to_pb nexthop_id <$> nh))
  | RowLocalSid sid prefix_len behavior flavors vrf nexthop_id nh =>
      EntrySrv6Localsid (mk_pb_Srv6LocalSidEntry (show_ipv6 sid) prefix_len (srv6_behavior_name behavior) flavors vrf
        nexthop_id (nh_to_pb nexthop_id <$> nh))
  | RowEncap nexthop_id encap =>
      EntrySrv6Encap (mk_pb_Srv6EncapEntry nexthop_id
        (if se_mode encap =? SRV6_ENCAP_MODE_INSERT then "insert" else "encaps")
        (show_ipv6 <$> take (Z.to_nat (se_num_segs encap)) (se_segs encap)))
  | RowNexthop id nh =>
      let info := nh_to_pb id nh in
      EntryNexthop (mk_pb_NexthopDumpEntry id (NexthopInfo_gateway info) (NexthopInfo_oif info)
        (NexthopInfo_flags info) (NexthopInfo_labels info) (nh_backup_id nh) [])
  | RowGroup id members => EntryNexthop (mk_pb_NexthopDumpEntry id "" 0 0 [] 0 members)
  end.

(** An unknown table number asks for the first. *)
Definition dump_table (n : Z) : DumpTable :=
  if n =? 1 then DumpIpv4 else if n =? 2 then DumpIpv6 else if n =? 3 then DumpMpls
  else if n =? 4 then DumpSrv6 else if n =? 5 then DumpNexthop else DumpL2.
Definition rpc_dump (now_ns : Z) (d : Dp) (r : pb_DumpRequest) : list pb_DumpEntry :=
  row_to_pb <$> dump now_ns d (dump_table (DumpRequest_table r)) (DumpRequest_vrf r) (DumpRequest_resolve r).

(** ** The FDB stream *)

(** What is learned, or was reported: the port of a (MAC, bridge domain). *)
Abbreviation LocalMacs := (gmap (bytes * Z) Z).

Definition local_macs (entries : list (bytes * Z * Z)) : LocalMacs :=
  foldl (λ m '(mac, bd, port), <[(mac, bd) := port]> m) ∅ entries.

(** An event, before its MAC is printed: learned with the port, or aged. *)
Inductive FdbEv : Type := Learned (mac : bytes) (bd port : Z) | Aged (mac : bytes) (bd : Z).
Definition ev_to_pb (e : FdbEv) : pb_FdbEvent :=
  match e with
  | Learned mac bd port => mk_pb_FdbEvent (fmt_mac mac) bd 0 port
  | Aged mac bd => mk_pb_FdbEvent (fmt_mac mac) bd 1 0
  end.

(** One poll: the events, and what has been reported after it. *)
Definition poll_fdb (current seen : LocalMacs) : list FdbEv * LocalMacs :=
  (omap (λ '((mac, bd), port), if bool_decide (seen !! (mac, bd) = Some port) then None
                               else Some (Learned mac bd port)) (map_to_list current) ++
   omap (λ '((mac, bd), _), if bool_decide (is_Some (current !! (mac, bd))) then None
                            else Some (Aged mac bd)) (map_to_list seen),
   current).

(** A hint that a MAC moved to a remote. *)
Definition hint_fdb (mac : bytes) (bd : Z) (seen : LocalMacs) : list FdbEv * LocalMacs :=
  if bool_decide (is_Some (seen !! (mac, bd))) then ([Aged mac bd], delete (mac, bd) seen) else ([], seen).

(** A round: a poll, and what wakes the next one: the timer, a lag in the
    hints ([None]), or a hint. *)
Record WatchRound := mkWatchRound { wr_entries : list (bytes * Z * Z); wr_hint : option (bytes * Z) }.
Definition watch_fdb_round (seen : LocalMacs) (r : WatchRound) : list FdbEv * LocalMacs :=
  let '(evs, seen) := poll_fdb (local_macs (wr_entries r)) seen in
  match wr_hint r with
  | None => (evs, seen)
  | Some (mac, bd) => let '(more, seen) := hint_fdb mac bd seen in (evs ++ more, seen)
  end.
Fixpoint watch_fdb (seen : LocalMacs) (rounds : list WatchRound) : list FdbEv * LocalMacs :=
  match rounds with
  | [] => ([], seen)
  | r :: rounds =>
      let '(evs, seen) := watch_fdb_round seen r in
      let '(rest, seen) := watch_fdb seen rounds in (evs ++ rest, seen)
  end.

(** ** The BFD stream *)

Abbreviation DownSet := (gset (Z * Z)).

(** One poll: each session newly down is reported once; a session that came
    back is reported again when it goes down again. *)
Definition poll_bfd (down reported : DownSet) : list pb_BfdEvent * DownSet :=
  ((λ '(discr, kind), mk_pb_BfdEvent discr kind) <$> elements (down ∖ reported),
   filter (λ k, k ∈ down) reported ∪ down).
