(* ===== verification/K8s.v ===== *)
(** * Kubernetes objects

    The fields of the API objects that [crates/cradle-k8s] reads, as the
    client library ([k8s-openapi]) presents them, and the names it gives an
    object ([kube::ResourceExt]).  Label sets are ordered maps of strings. *)

From S2P Require Import Prelude.
From S2P Require Import Control.

Abbreviation Labels := (gmap string string).

Record ObjectMeta := mkObjectMeta {
  md_name : option string; md_generate_name : option string; md_namespace : option string;
  md_labels : option Labels }.

(** [name_any], [namespace().unwrap_or_default()], [labels.unwrap_or_default()] *)
Definition name_any (m : ObjectMeta) : string :=
  default ""%string (match md_name m with Some n => Some n | None => md_generate_name m end).
Definition namespace_of (m : ObjectMeta) : string := default ""%string (md_namespace m).
Definition labels_or_empty (m : ObjectMeta) : Labels := default ∅ (md_labels m).

(** ** Pods and namespaces *)

Record ContainerPort := mkContainerPort { cport_name : option string; cport_container_port : Z }.
Record Container := mkContainer { ctr_ports : option (list ContainerPort) }.
Record PodStatus := mkPodStatus { pst_pod_ips : option (list string); pst_pod_ip : option string }.
Record Pod := mkPod {
  pod_metadata : ObjectMeta; pod_spec : option (list Container); pod_status : option PodStatus }.
Record Namespace := mkNamespace { nsp_metadata : ObjectMeta }.

Definition pod_ns (p : Pod) : string := namespace_of (pod_metadata p).
Definition labels_of (p : Pod) : Labels := labels_or_empty (pod_metadata p).

(** ** Network policies *)

Record SelectorRequirement := mkSelectorRequirement {
  rq_key : string; rq_operator : string; rq_values : option (list string) }.
Record LabelSelector := mkLabelSelector {
  sel_match_labels : option Labels; sel_match_expressions : option (list SelectorRequirement) }.

Record IPBlock := mkIPBlock { ipb_cidr : string; ipb_except : option (list string) }.
Record NetworkPolicyPeer := mkNetworkPolicyPeer {
  peer_ip_block : option IPBlock; peer_namespace_selector : option LabelSelector;
  peer_pod_selector : option LabelSelector }.

Inductive IntOrString : Type := IntPort (n : Z) | NamedPort (name : string).
Record NetworkPolicyPort := mkNetworkPolicyPort {
  npp_protocol : option string; npp_port : option IntOrString; npp_end_port : option Z }.

(** An ingress rule ([from], [ports]) or an egress rule ([to], [ports]). *)
Record NpRule := mkNpRule {
  npr_peers : option (list NetworkPolicyPeer); npr_ports : option (list NetworkPolicyPort) }.
Record NetworkPolicySpec := mkNetworkPolicySpec {
  nps_pod_selector : option LabelSelector; nps_ingress : option (list NpRule);
  nps_egress : option (list NpRule); nps_policy_types : option (list string) }.
Record NetworkPolicy := mkNetworkPolicy { np_metadata : ObjectMeta; np_spec : option NetworkPolicySpec }.

(** ** Services *)

Record ServicePort := mkServicePort {
  sp_name : option string; sp_port : Z; sp_protocol : option string; sp_node_port : option Z }.
Record ServiceSpec := mkServiceSpec {
  ss_type : option string; ss_cluster_ip : option string; ss_ports : option (list ServicePort);
  ss_session_affinity : option string }.
Record K8sService := mkK8sService { ksvc_metadata : ObjectMeta; ksvc_spec : option ServiceSpec }.

Record SliceEndpoint := mkSliceEndpoint { sle_addresses : list string; sle_ready : option bool }.
Record SlicePort := mkSlicePort { slp_name : option string; slp_protocol : option string; slp_port : option Z }.
Record EndpointSlice := mkEndpointSlice {
  sli_metadata : ObjectMeta; sli_address_type : string;
  sli_ports : option (list SlicePort); sli_endpoints : option (list SliceEndpoint) }.

(** ** Ordered collections

    The elements of a [BTreeSet] or of a vector that is sorted and rid of
    its duplicates. *)
Section sorted.
Context {A : Type} `{!EqDecision A} (leb : A → A → bool).
Definition leb_le (x y : A) : Prop := leb x y = true.
#[local] Instance leb_le_dec x y : Decision (leb_le x y).
Proof. unfold leb_le. apply _. Defined.
Definition sort_dedup (l : list A) : list A := merge_sort leb_le (remove_dups l).

Lemma elem_of_sort_dedup x l : x ∈ sort_dedup l ↔ x ∈ l.
Proof. unfold sort_dedup. by rewrite merge_sort_Permutation, elem_of_remove_dups. Qed.
Lemma NoDup_sort_dedup l : NoDup (sort_dedup l).
Proof. unfold sort_dedup. rewrite merge_sort_Permutation. apply NoDup_remove_dups. Qed.
End sorted.

Definition pair_leb (x y : Z * Z) : bool := (x.1 <? y.1) || ((x.1 =? y.1) && (x.2 <=? y.2)).
Definition str_pair_leb (x y : string * Z) : bool :=
  match String.compare x.1 y.1 with Lt => true | Eq => x.2 <=? y.2 | Gt => false end.
