(* ===== verification/NetPol.v ===== *)
(** * NetworkPolicy translation ([crates/cradle-k8s/src/netpol.rs], [identity.rs], [cnp.rs])

    Identities of label sets, and the compilation of the NetworkPolicies and
    CiliumNetworkPolicies that select a pod into the rules of its endpoint. *)

From S2P Require Import Prelude.
From S2P Require Import Bpf.
From S2P Require Import Cni.
From S2P Require Import Text.
From S2P Require Import Control.
From S2P Require Import Pb.
From S2P Require Import K8s.

Definition K8S_IDENTITY_HOST : Z := 1.
Definition K8S_IDENTITY_WORLD : Z := 2.

(** ** Identities *)

(** FNV-1a, 32 bits. *)
Definition fnv1a32 (bs : bytes) : Z :=
  foldl (λ hash b, wrap 32 ((hash .^ b) * 0x01000193)) 0x811c9dc5 bs.

Definition label_feed (kv : string * string) : bytes :=
  string_bytes kv.1 ++ string_bytes "=" ++ string_bytes kv.2 ++ string_bytes ";".
Definition identity (namespace : string) (labels : Labels) : Z :=
  Z.max (fnv1a32 (string_bytes namespace ++ [0] ++ mjoin (label_feed <$> stree labels))) 3.

Definition cidr_identity (cidr : string) : Z :=
  identity (String (Ascii.ascii_of_nat 0) "cidr") {["cidr"%string := cidr]}.

(** The allocation table, by the canonical text of a label set. *)
Definition labels_key (namespace : string) (labels : Labels) : string :=
  String.concat ";" (("k8s:io.kubernetes.pod.namespace=" +:+ namespace) ::
    ((λ kv : string * string, "k8s:" +:+ kv.1 +:+ "=" +:+ kv.2) <$> stree labels)).

Definition Alloc : Type := gmap string Z.
Definition alloc_resolve (alloc : Alloc) (namespace : string) (labels : Labels) : Z :=
  default (identity namespace labels) (alloc !! labels_key namespace labels).
Definition all_ids (alloc : Alloc) : list Z := sort_dedup Z.leb (map_to_list alloc).*2.

Definition pod_identity (alloc : Alloc) (p : Pod) : Z := alloc_resolve alloc (pod_ns p) (labels_of p).

(** *** CiliumIdentities *)

Definition FIRST_ID : Z := 256.

(** The [security-labels] of a label set: a label of that very name replaces
    the namespace. *)
Definition security_labels (namespace : string) (labels : Labels) : Labels :=
  foldl (λ out kv, <["k8s:" +:+ kv.1 := kv.2]> out)
    {["k8s:io.kubernetes.pod.namespace"%string := namespace]} (stree labels).
Definition label_list (namespace : string) (labels : Labels) : list string :=
  (λ kv : string * string, kv.1 +:+ "=" +:+ kv.2) <$> stree (security_labels namespace labels).
Definition cid_key (namespace : string) (labels : Labels) : string :=
  String.concat ";" (label_list namespace labels).

(** A CiliumIdentity as listed: its name and, when it has them, its labels. *)
Record Cid := mkCid { cid_name : string; cid_labels : Labels }.
Definition list_cids (items : list Cid) : gmap string Z :=
  foldl (λ out cid,
    match from_str_radix 32 10 (cid_name cid) with
    | Some id => <[String.concat ";" ((λ kv : string * string, kv.1 +:+ "=" +:+ kv.2) <$> stree (cid_labels cid)) := id]> out
    | None => out
    end) ∅ items.

Definition rekey_for_pods (cids : gmap string Z) (pods : list Pod) : Alloc :=
  foldl (λ out pod,
    match cids !! cid_key (pod_ns pod) (labels_of pod) with
    | Some id => <[labels_key (pod_ns pod) (labels_of pod) := id]> out
    | None => out
    end) ∅ pods.

(** The creations of one reconcile: [created] says whether the API server
    accepts the [n]th pod's; a refused one gives its number back. *)
Fixpoint ensure_pods (created : nat → bool) (n : nat) (pods : list Pod) (cids : gmap string Z) (max_id : Z) : gmap string Z :=
  match pods with
  | [] => cids
  | pod :: pods =>
      let key := cid_key (pod_ns pod) (labels_of pod) in
      if bool_decide (is_Some (cids !! key)) then ensure_pods created (S n) pods cids max_id else
      let id := wrap 32 (max_id + 1) in
      if created n then ensure_pods created (S n) pods (<[key := id]> cids) id
      else ensure_pods created (S n) pods cids max_id
  end.
Definition max_cid (cids : gmap string Z) : Z :=
  Z.max (foldr Z.max (FIRST_ID - 1) (map_to_list cids).*2) (FIRST_ID - 1).
Definition ensure_identities (created : nat → bool) (items : list Cid) (pods : list Pod) : Alloc :=
  let cids := list_cids items in
  rekey_for_pods (ensure_pods created 0 pods cids (max_cid cids)) pods.

(** Mark and sweep: strike counts, and what to delete. *)
Definition gc_one (in_use : gset Z) (prev : gmap Z Z) (grace : Z) (st : gmap Z Z * list Z) (id : Z)
    : gmap Z Z * list Z :=
  let '(counts, del) := st in
  if (id <? FIRST_ID) || bool_decide (id ∈ in_use) then (counts, del) else
  let n := default 0 (prev !! id) + 1 in
  if grace <=? n then (counts, del ++ [id]) else (<[id := n]> counts, del).
Definition gc_plan (cids : list Z) (in_use : gset Z) (prev : gmap Z Z) (grace : Z) : gmap Z Z * list Z :=
  foldl (gc_one in_use prev grace) (∅, []) cids.

(** ** Selectors *)

Definition selector_matches (selector : option LabelSelector) (labels : Labels) : bool :=
  match selector with
  | None => true
  | Some sel =>
      if negb (bool_decide (default [] (sel_match_expressions sel) = [])) then false else
      match sel_match_labels sel with
      | None => true
      | Some ml => forallb (λ kv, bool_decide (labels !! kv.1 = Some kv.2)) (stree ml)
      end
  end.

(** The pods a peer's selectors admit. *)
Definition peer_namespaces (peer : NetworkPolicyPeer) (policy_ns : string) (namespaces : list Namespace) : list string :=
  match peer_namespace_selector peer with
  | Some _ => (λ ns, name_any (nsp_metadata ns)) <$>
      filter (λ ns, selector_matches (peer_namespace_selector peer) (labels_or_empty (nsp_metadata ns)) = true) namespaces
  | None => [policy_ns]
  end.
Definition peer_pods (peer : NetworkPolicyPeer) (policy_ns : string) (pods : list Pod) (namespaces : list Namespace) : list Pod :=
  match peer_ip_block peer with
  | Some _ => []
  | None =>
      filter (λ pod, selector_matches (peer_pod_selector peer) (labels_of pod) = true)
        (filter (λ pod, pod_ns pod ∈ peer_namespaces peer policy_ns namespaces) pods)
  end.

Definition peer_identities (peer : NetworkPolicyPeer) (policy_ns : string) (pods : list Pod)
    (namespaces : list Namespace) (alloc : Alloc) : list Z :=
  match peer_ip_block peer with
  | Some b => [cidr_identity (ipb_cidr b)]
  | None => pod_identity alloc <$> peer_pods peer policy_ns pods namespaces
  end.

(** ** Rules *)

Definition pod_container_ports (pod : Pod) : list ContainerPort :=
  mjoin ((λ c, default [] (ctr_ports c)) <$> default [] (pod_spec pod)).
Definition named_port (pod : Pod) (name : string) : option Z :=
  first_some (λ cp, if bool_decide (cport_name cp = Some name) then Some (wrap 16 (cport_container_port cp)) else None)
    (pod_container_ports pod).

Definition proto_num (p : option string) : Z :=
  match p with
  | Some p => if bool_decide (p = "UDP"%string) then 17 else if bool_decide (p = "SCTP"%string) then 0 else 6
  | None => 6
  end.

(** [u16::try_from(n).unwrap_or(0)] *)
Definition u16_or_zero (n : Z) : Z := if bool_decide (in_range 16 n) then n else 0.

Definition port_entries (port_pods : list Pod) (np : NetworkPolicyPort) : list (Z * Z) :=
  let proto := proto_num (npp_protocol np) in
  match npp_port np with
  | Some (IntPort n) => [(proto, u16_or_zero n)]
  | Some (NamedPort name) => sort_dedup pair_leb ((λ port, (proto, port)) <$> omap (λ pod, named_port pod name) port_pods)
  | None => [(proto, 0)]
  end.

Definition rule_ids (peers : option (list NetworkPolicyPeer)) (policy_ns : string) (pods : list Pod)
    (namespaces : list Namespace) (alloc : Alloc) : list Z :=
  match peers with
  | None | Some [] => [0]
  | Some f => mjoin ((λ peer, peer_identities peer policy_ns pods namespaces alloc) <$> f)
  end.
Definition rule_port_pairs (rule_ports : option (list NetworkPolicyPort)) (port_pods : list Pod) : list (Z * Z) :=
  match rule_ports with
  | None | Some [] => [(0, 0)]
  | Some p => mjoin (port_entries port_pods <$> p)
  end.
Definition rule_tuples (rule : NpRule) (policy_ns : string) (pods : list Pod) (namespaces : list Namespace)
    (port_pods : list Pod) (alloc : Alloc) : list (Z * Z * Z) :=
  ids ← rule_ids (npr_peers rule) policy_ns pods namespaces alloc;
  '(proto, port) ← rule_port_pairs (npr_ports rule) port_pods;
  [(ids, proto, port)].

Definition allow_rule (t : Z * Z * Z) : pb_PolicyRule :=
  let '(id, proto, port) := t in mk_pb_PolicyRule id proto port false.
Definition host_rule : pb_PolicyRule := mk_pb_PolicyRule K8S_IDENTITY_HOST 0 0 false.

(** ** The policy of an endpoint *)

Definition find_pod (ns pod_name : string) (pods : list Pod) : option Pod :=
  first_some (λ p, if bool_decide (md_namespace (pod_metadata p) = Some ns) && bool_decide (name_any (pod_metadata p) = pod_name)
                   then Some p else None) pods.

Definition selecting (ns : string) (pod_labels : Labels) (policies : list NetworkPolicy) : list NetworkPolicy :=
  filter (λ np, from_option (λ s, selector_matches (nps_pod_selector s) pod_labels) false (np_spec np) = true)
    (filter (λ np, md_namespace (np_metadata np) = Some ns) policies).

Definition has_type (np : NetworkPolicy) (dir : string) : bool :=
  match np_spec np with
  | None => false
  | Some spec =>
      match nps_policy_types spec with
      | Some t => existsb (λ x, bool_decide (x = dir)) t
      | None => bool_decide (dir = "Ingress"%string) || negb (bool_decide (default [] (nps_egress spec) = []))
      end
  end.

Definition ingress_rules (ns : string) (pods : list Pod) (namespaces : list Namespace) (target : list Pod) (alloc : Alloc)
    (np : NetworkPolicy) : list pb_PolicyRule :=
  match np_spec np with
  | None => []
  | Some spec =>
      if has_type np "Ingress" then
        rule ← default [] (nps_ingress spec);
        allow_rule <$> rule_tuples rule ns pods namespaces target alloc
      else []
  end.
(** Named egress ports are those of the peers' containers. *)
Definition egress_rules_of (ns : string) (pods : list Pod) (namespaces : list Namespace) (alloc : Alloc)
    (np : NetworkPolicy) : list pb_PolicyRule :=
  match np_spec np with
  | None => []
  | Some spec =>
      if has_type np "Egress" then
        rule ← default [] (nps_egress spec);
        let peers := peer ← default [] (npr_peers rule); peer_pods peer ns pods namespaces in
        allow_rule <$> rule_tuples rule ns pods namespaces peers alloc
      else []
  end.

Definition endpoint_policy (ep : pb_CniEndpoint) (policies : list NetworkPolicy) (pods : list Pod)
    (namespaces : list Namespace) (alloc : Alloc) : pb_EndpointPolicy :=
  let ns := CniEndpoint_pod_namespace ep in
  let this_pod := find_pod ns (CniEndpoint_pod_name ep) pods in
  let pod_labels := from_option labels_of ∅ this_pod in
  let target := option_list this_pod in
  let sel := selecting ns pod_labels policies in
  let enforce := existsb (λ np, has_type np "Ingress") sel in
  let enforce_egress := existsb (λ np, has_type np "Egress") sel in
  if negb enforce && negb enforce_egress then
    mk_pb_EndpointPolicy "" ns (CniEndpoint_pod_name ep) false [] false [] false []
  else
    let rules := host_rule :: mjoin (ingress_rules ns pods namespaces target alloc <$> sel) in
    let egress_rules := host_rule :: mjoin (egress_rules_of ns pods namespaces alloc <$> sel) in
    mk_pb_EndpointPolicy "" ns (CniEndpoint_pod_name ep) enforce (if enforce then rules else [])
      enforce_egress (if enforce_egress then egress_rules else []) false [].

(** ** Bindings *)

Definition peer_bindings (peers : option (list NetworkPolicyPeer)) : list (string * Z) :=
  peer ← default [] peers;
  match peer_ip_block peer with
  | None => []
  | Some b => (ipb_cidr b, cidr_identity (ipb_cidr b)) :: ((λ e, (e, K8S_IDENTITY_WORLD)) <$> default [] (ipb_except b))
  end.
Definition cidr_bindings (policies : list NetworkPolicy) : list (string * Z) :=
  sort_dedup str_pair_leb
    (np ← policies;
     match np_spec np with
     | None => []
     | Some spec =>
         (rule ← default [] (nps_ingress spec); peer_bindings (npr_peers rule)) ++
         (rule ← default [] (nps_egress spec); peer_bindings (npr_peers rule))
     end).

(** [podIPs], then [podIP] when it is not among them. *)
Definition pod_addresses (p : Pod) : list string :=
  let ips := default [] (st ← pod_status p; pst_pod_ips st) in
  match (st ← pod_status p; pst_pod_ip st) with
  | Some ip => if bool_decide (ip ∈ ips) then ips else ips ++ [ip]
  | None => ips
  end.
Definition identities (pods : list Pod) (alloc : Alloc) : list (string * Z) :=
  p ← pods; (λ ip, (ip, pod_identity alloc p)) <$> pod_addresses p.

(** * CiliumNetworkPolicy translation ([crates/cradle-k8s/src/cnp.rs])

    The rules of the Cilium policies, namespaced and cluster-wide, that
    select a pod: allow and deny rules per direction, and the HTTP
    allow-lists of ingress ports.  Reading the objects is [serde]'s. *)

Record CnpHttpRule := mkCnpHttpRule { chr_method : string; chr_path : string }.
Record CnpPort := mkCnpPort { cpp_port : string; cpp_protocol : string }.
(** [rules]: the HTTP rules attached to the ports, when there are L7 rules. *)
Record CnpPortRule := mkCnpPortRule { cpr_ports : list CnpPort; cpr_rules : option (list CnpHttpRule) }.
(** A selector is its [matchLabels]. *)
Record CnpRule := mkCnpRule {
  cr_from_endpoints : list Labels; cr_to_endpoints : list Labels;
  cr_from_entities : list string; cr_to_entities : list string; cr_to_ports : list CnpPortRule }.
Record CnpSpec := mkCnpSpec {
  cs_endpoint_selector : Labels; cs_ingress : list CnpRule; cs_egress : list CnpRule;
  cs_ingress_deny : list CnpRule; cs_egress_deny : list CnpRule }.
Record Cnp := mkCnp { cnp_namespace : string; cnp_clusterwide : bool; cnp_spec : CnpSpec }.

Definition cnp_selector_matches (sel labels : Labels) : bool :=
  forallb (λ kv, bool_decide (labels !! kv.1 = Some kv.2)) (stree sel).

(** What an entity stands for; an unknown one adds nothing. *)
Definition entity_ids (alloc : Alloc) (e : string) : list Z :=
  if bool_decide (e = "all"%string) then [0]
  else if bool_decide (e = "host"%string) then [K8S_IDENTITY_HOST]
  else if bool_decide (e = "world"%string) then [K8S_IDENTITY_WORLD]
  else if bool_decide (e = "cluster"%string) then K8S_IDENTITY_HOST :: all_ids alloc
  else [].

Definition cnp_peer_ids (peers : list Labels) (entities : list string) (policy_ns : string) (clusterwide : bool)
    (pods : list Pod) (alloc : Alloc) : list Z :=
  sort_dedup Z.leb
    ((sel ← peers;
      pod_identity alloc <$> filter (λ pod, (clusterwide || bool_decide (pod_ns pod = policy_ns)) &&
                                            cnp_selector_matches sel (labels_of pod) = true) pods) ++
     mjoin (entity_ids alloc <$> entities) ++
     (if bool_decide (peers = []) && bool_decide (entities = []) then [0] else [])).

Definition cnp_proto (protocol : string) : Z :=
  if bool_decide (protocol = "UDP"%string) then 17
  else if bool_decide (protocol = "ANY"%string) then 0 else 6.
Definition cnp_port_number (p : CnpPort) : Z := default 0 (from_str_radix 16 10 (cpp_port p)).
Definition cnp_rule_ports (rule : CnpRule) : list (Z * Z) :=
  let out := pr ← cr_to_ports rule; (λ p, (cnp_proto (cpp_protocol p), cnp_port_number p)) <$> cpr_ports pr in
  if bool_decide (out = []) then [(0, 0)] else out.

Definition from_peers (r : CnpRule) : list Labels * list string := (cr_from_endpoints r, cr_from_entities r).
Definition to_peers (r : CnpRule) : list Labels * list string := (cr_to_endpoints r, cr_to_entities r).

Definition cnp_expand (ns : string) (cw : bool) (pods : list Pod) (alloc : Alloc) (rules : list CnpRule)
    (peers_of : CnpRule → list Labels * list string) (deny : bool) : list pb_PolicyRule :=
  rule ← rules;
  id ← cnp_peer_ids (peers_of rule).1 (peers_of rule).2 ns cw pods alloc;
  '(proto, port) ← cnp_rule_ports rule;
  [mk_pb_PolicyRule id proto port deny].

(** The port of an L7 entry is a [u32]. *)
Definition cnp_l7_port (p : CnpPort) : Z := default 0 (from_str_radix 32 10 (cpp_port p)).
Definition cnp_l7 (rules : list CnpRule) : list pb_L7PortPolicy :=
  rule ← rules;
  pr ← cr_to_ports rule;
  match cpr_rules pr with
  | None | Some [] => []
  | Some http => (λ p, mk_pb_L7PortPolicy (cnp_l7_port p)
                         ((λ h, mk_pb_L7Rule (chr_method h) (chr_path h)) <$> http)) <$> cpr_ports pr
  end.

(** Does a policy apply to an endpoint? *)
Definition cnp_selects (ns : string) (pod_labels : Labels) (cnp : Cnp) : bool :=
  (cnp_clusterwide cnp || bool_decide (cnp_namespace cnp = ns)) &&
  cnp_selector_matches (cs_endpoint_selector (cnp_spec cnp)) pod_labels.

Record EndpointRules := mkEndpointRules {
  er_ingress : list pb_PolicyRule; er_egress : list pb_PolicyRule;
  er_any_in : bool; er_any_eg : bool; er_l7 : list pb_L7PortPolicy }.

Definition endpoint_rules_one (ns : string) (pods : list Pod) (alloc : Alloc) (out : EndpointRules) (cnp : Cnp) : EndpointRules :=
  let s := cnp_spec cnp in
  let expand := cnp_expand ns (cnp_clusterwide cnp) pods alloc in
  let on_in := negb (bool_decide (cs_ingress s = [])) || negb (bool_decide (cs_ingress_deny s = [])) in
  let on_eg := negb (bool_decide (cs_egress s = [])) || negb (bool_decide (cs_egress_deny s = [])) in
  mkEndpointRules
    (er_ingress out ++ (if on_in then expand (cs_ingress s) from_peers false ++ expand (cs_ingress_deny s) from_peers true else []))
    (er_egress out ++ (if on_eg then expand (cs_egress s) to_peers false ++ expand (cs_egress_deny s) to_peers true else []))
    (er_any_in out || on_in) (er_any_eg out || on_eg)
    (er_l7 out ++ (if on_in then cnp_l7 (cs_ingress s) else [])).

Definition endpoint_rules (cnps : list Cnp) (ns : string) (pod_labels : Labels) (pods : list Pod) (alloc : Alloc) : EndpointRules :=
  foldl (endpoint_rules_one ns pods alloc) (mkEndpointRules [] [] false false [])
    (filter (λ cnp, cnp_selects ns pod_labels cnp = true) cnps).
