(* ===== verification/Agent.v ===== *)
(** * The Kubernetes agent ([crates/cradle-k8s/src/main.rs], [sync.rs])

    The services that Services and EndpointSlices account for, and what the
    agent asks of the daemon: the identities and policies of a reconcile
    ([push_policy]), and the difference between the programmed and the
    desired services ([apply]), the rounds of its tasks and its start.  The
    calls go through the control API of [Grpc]; the watches and the connection
    are the client libraries'. *)

From S2P Require Import Prelude.
From S2P Require Import Bpf.
From S2P Require Import MapRefs.
From S2P Require Import L7.
From S2P Require Import Control.
From S2P Require Import Text.
From S2P Require Import Pb.
From S2P Require Import Grpc.
From S2P Require Import IpText.
From S2P Require Import K8s.
From S2P Require Import NetPol.
From S2P Require Import Cni.

(** * Service synchronisation ([crates/cradle-k8s/src/sync.rs])

    The services the data plane should hold, computed from the Service and
    EndpointSlice objects. *)

(** (VIP, port, IP protocol) *)
Abbreviation SvcKey := (bytes * Z * Z)%type.
Record Svc := mkSvc { svc_backends : gset (bytes * Z); svc_affinity : bool }.
#[global] Instance Svc_eq_dec : EqDecision Svc.
Proof. solve_decision. Defined.
Abbreviation Desired := (gmap SvcKey Svc).

(** The orders of [BTreeMap<Key, _>] and [BTreeSet<(Ipv4Addr, u16)>]. *)
Definition key_rank (k : SvcKey) : Z := (of_be k.1.1 * 2 ^ 16 + k.1.2) * 2 ^ 8 + k.2.
Definition backend_leb (a b : bytes * Z) : bool := of_be a.1 * 2 ^ 16 + a.2 <=? of_be b.1 * 2 ^ 16 + b.2.
Definition backend_list (s : Svc) : list (bytes * Z) := sort_dedup backend_leb (elements (svc_backends s)).
Definition key_leb (a b : SvcKey) : bool := key_rank a <=? key_rank b.
Definition key_list (keys : list SvcKey) : list SvcKey := sort_dedup key_leb keys.
Definition desired_keys (d : Desired) : list SvcKey := key_list (map_to_list d).*1.

Definition proto_str (proto : Z) : string := if proto =? 17 then "udp" else "tcp".

Definition svc_id (key : SvcKey) : Z :=
  let '(vip, port, proto) := key in
  Z.max (fnv1a32 (string_bytes (show_ipv4 vip +:+ ":" +:+ show_number 5 10 port +:+ "/" +:+ show_number 3 10 proto))) 1.

Definition svc_proto (p : option string) : option Z :=
  let p := default "TCP"%string p in
  if bool_decide (p = "TCP"%string) then Some 6 else if bool_decide (p = "UDP"%string) then Some 17 else None.
Definition name_eq (a b : option string) : bool := bool_decide (default ""%string a = default ""%string b).

(** [u16::try_from(n).ok()] *)
Definition u16_of (n : Z) : option Z := if bool_decide (in_range 16 n) then Some n else None.

(** The slices of a service. *)
Definition slice_of (ns name : string) (s : EndpointSlice) : bool :=
  bool_decide (md_namespace (sli_metadata s) = Some ns) && bool_decide (sli_address_type s = "IPv4"%string) &&
  bool_decide (labels_or_empty (sli_metadata s) !! "kubernetes.io/service-name"%string = Some name).

Definition slice_target (sp : ServicePort) (proto : Z) (s : EndpointSlice) : option Z :=
  ep ← first_some (λ ep, if name_eq (slp_name ep) (sp_name sp) && bool_decide (svc_proto (slp_protocol ep) = Some proto)
                         then Some ep else None) (default [] (sli_ports s));
  p ← slp_port ep;
  u16_of p.
Definition slice_backends (sp : ServicePort) (proto : Z) (s : EndpointSlice) : list (bytes * Z) :=
  match slice_target sp proto s with
  | None => []
  | Some target =>
      ep ← default [] (sli_endpoints s);
      if bool_decide (sle_ready ep = Some false) then [] else
      (λ ip, (ip, target)) <$> omap parse_ipv4 (sle_addresses ep)
  end.

Definition service_port_step (slices : list EndpointSlice) (node_ip : option bytes) (vip : bytes) (affinity : bool)
    (out : Desired) (sp : ServicePort) : Desired :=
  match svc_proto (sp_protocol sp), u16_of (sp_port sp) with
  | Some proto, Some port =>
      if port =? 0 then out else
      let backends : gset (bytes * Z) := list_to_set (s ← slices; slice_backends sp proto s) in
      if bool_decide (backends = ∅) then out else
      let svc := mkSvc backends affinity in
      let out := match node_ip, u16_of (default 0 (sp_node_port sp)) with
                 | Some node, Some np => if np =? 0 then out else <[(node, np, proto) := svc]> out
                 | _, _ => out
                 end in
      <[(vip, port, proto) := svc]> out
  | _, _ => out
  end.

(** [None]: headless, external or without a usable address. *)
Definition service_vip (spec : ServiceSpec) : option bytes :=
  if bool_decide (ss_type spec = Some "ExternalName"%string) then None else
  ip ← ss_cluster_ip spec;
  if bool_decide (ip = "None"%string) || bool_decide (ip = ""%string) then None else parse_ipv4 ip.

Definition service_step (slices : list EndpointSlice) (node_ip : option bytes) (out : Desired) (svc : K8sService) : Desired :=
  match ksvc_spec svc with
  | None => out
  | Some spec =>
      match service_vip spec with
      | None => out
      | Some vip =>
          let ns := default "default"%string (md_namespace (ksvc_metadata svc)) in
          let name := default ""%string (md_name (ksvc_metadata svc)) in
          let mine := filter (λ s, slice_of ns name s = true) slices in
          let affinity := bool_decide (ss_session_affinity spec = Some "ClientIP"%string) in
          foldl (service_port_step mine node_ip vip affinity) out (default [] (ss_ports spec))
      end
  end.

Definition build_desired (services : list K8sService) (slices : list EndpointSlice) (node_ip : option bytes) : Desired :=
  foldl (service_step slices node_ip) ∅ services.

(** * What the agent asks of the daemon ([main.rs]) *)

(** ** The policy of one endpoint *)

(** The Cilium rules on top of the translated ones. *)
Definition merge_cnp (policy : pb_EndpointPolicy) (er : EndpointRules) : pb_EndpointPolicy :=
  let enforce := EndpointPolicy_enforce policy in
  let enforce_egress := EndpointPolicy_enforce_egress policy in
  mk_pb_EndpointPolicy (EndpointPolicy_host_if policy) (EndpointPolicy_pod_namespace policy) (EndpointPolicy_pod_name policy)
    (enforce || er_any_in er)
    (EndpointPolicy_rules policy ++
       (if er_any_in er then (if enforce then [] else [host_rule]) ++ er_ingress er else []))
    (enforce_egress || er_any_eg er)
    (EndpointPolicy_egress_rules policy ++
       (if er_any_eg er then (if enforce_egress then [] else [host_rule]) ++ er_egress er else []))
    (EndpointPolicy_audit policy) (EndpointPolicy_l7 policy ++ er_l7 er).

(** [--policy-enforcement] *)
Definition apply_mode (mode : string) (policy : pb_EndpointPolicy) : pb_EndpointPolicy :=
  let with_rules (enforce enforce_egress : bool) rules egress_rules :=
    mk_pb_EndpointPolicy (EndpointPolicy_host_if policy) (EndpointPolicy_pod_namespace policy)
      (EndpointPolicy_pod_name policy) enforce rules enforce_egress egress_rules
      (EndpointPolicy_audit policy) (EndpointPolicy_l7 policy) in
  if bool_decide (mode = "never"%string) then with_rules false false [] []
  else if bool_decide (mode = "always"%string) && negb (EndpointPolicy_enforce policy)
          && negb (EndpointPolicy_enforce_egress policy) then with_rules true true [host_rule] [host_rule]
  else policy.

Record Cluster := mkCluster {
  cl_pods : list Pod; cl_namespaces : list Namespace; cl_policies : list NetworkPolicy; cl_cnps : list Cnp }.

Definition agent_policy (mode : string) (alloc : Alloc) (cl : Cluster) (ep : pb_CniEndpoint) : pb_EndpointPolicy :=
  let policy := endpoint_policy ep (cl_policies cl) (cl_pods cl) (cl_namespaces cl) alloc in
  let pod_labels := from_option labels_of ∅ (find_pod (CniEndpoint_pod_namespace ep) (CniEndpoint_pod_name ep) (cl_pods cl)) in
  apply_mode mode (merge_cnp policy
    (endpoint_rules (cl_cnps cl) (CniEndpoint_pod_namespace ep) pod_labels (cl_pods cl) alloc)).

(** ** Services *)

Definition service_request (key : SvcKey) (svc : Svc) : pb_Service :=
  let '(vip, port, proto) := key in
  mk_pb_Service (svc_id key) (show_ipv4 vip) port (proto_str proto)
    ((λ b : bytes * Z, mk_pb_Backend (show_ipv4 b.1) b.2) <$> backend_list svc) (svc_affinity svc).
Definition service_del_request (key : SvcKey) : pb_ServiceDel :=
  let '(vip, port, proto) := key in mk_pb_ServiceDel (show_ipv4 vip) port (proto_str proto).

Section agent.
Context `{HostOps} `{Regex} `{MapSys}.

(** The agent's side of a task: the daemon, and what it remembers. *)
Definition rpc {S A} (m : M Control Status A) : M (Control * S) Status A := λ '(c, s),
  let '(c, r) := m c in ((c, s), r).
Definition remember {S} (f : S → S) : M (Control * S) Status unit := modify (λ '(c, s), (c, f s)).
Definition each_of {S A} (f : A → M (Control * S) Status unit) (l : list A) : M (Control * S) Status unit :=
  mfold (λ _ x, f x) l tt.

(** The state of the policy task: the CIDR bindings pushed last. *)
Abbreviation PolicyTask := (M (Control * list (string * Z)) Status).

Definition push_identity (b : string * Z) : PolicyTask unit := rpc (rpc_set_identity (mk_pb_Identity b.1 b.2 0)).
Definition push_cidr (del : bool) (b : string * Z) : PolicyTask unit :=
  rpc (rpc_set_cidr_identity (mk_pb_CidrIdentity b.1 b.2 del 0)).
Definition push_endpoint (mode : string) (alloc : Alloc) (cl : Cluster) (ep : pb_CniEndpoint) : PolicyTask unit :=
  if bool_decide (CniEndpoint_pod_name ep = ""%string) then mret tt else
  rpc (rpc_set_endpoint_policy (agent_policy mode alloc cl ep)).

Definition push_policy (mode : string) (alloc : Alloc) (cl : Cluster) (endpoints : list pb_CniEndpoint) : PolicyTask unit :=
  _ ← each_of push_identity (identities (cl_pods cl) alloc);
  let cidrs := cidr_bindings (cl_policies cl) in
  _ ← each_of (push_cidr false) cidrs;
  s ← get;
  _ ← each_of (push_cidr true) (filter (λ b, b.1 ∉ cidrs.*1) s.2);
  _ ← remember (λ _, cidrs);
  each_of (push_endpoint mode alloc cl) endpoints.

(** The state of the service task: what is programmed. *)
Abbreviation ServiceTask := (M (Control * Desired) Status).

Definition push_service (desired : Desired) (key : SvcKey) : ServiceTask unit :=
  s ← get;
  match desired !! key with
  | None => mret tt
  | Some svc =>
      if bool_decide (s.2 !! key = Some svc) then mret tt else
      _ ← rpc (rpc_add_service (service_request key svc));
      remember <[key := svc]>
  end.
Definition drop_service (key : SvcKey) : ServiceTask unit :=
  _ ← rpc (rpc_del_service (service_del_request key));
  remember (delete key).

Definition stale_keys (programmed desired : Desired) : list SvcKey :=
  key_list (filter (λ k, desired !! k = None) (map_to_list programmed).*1).
Definition apply_services (desired : Desired) : ServiceTask unit :=
  _ ← each_of (push_service desired) (desired_keys desired);
  s ← get;
  each_of drop_service (stale_keys s.2 desired).

(** One round of the task.  A resync forgets what is programmed first; a
    failed listing ([None]) ends the round, and a failed call is retried in
    the next one. *)
Definition service_round (resync : bool) (listed : option (list K8sService * list EndpointSlice)) (node_ip : option bytes)
    : ServiceTask unit :=
  _ ← (if resync then remember (λ _, ∅) else mret tt);
  match listed with
  | None => mret tt
  | Some (svcs, slices) => _ ← catch (apply_services (build_desired svcs slices node_ip)); mret tt
  end.

(** One round of the policy task: what the API server listed ([None]: the
    listing failed), the identities it holds and accepts, the Cilium policies
    as read.  Without identities the agent falls back on hashes, without
    Cilium policies on none.  The answer is whether the connection to the
    daemon is kept for the next round. *)
Definition policy_round (mode : string) (listed : option (list Pod * list Namespace * list NetworkPolicy))
    (connected reachable : bool) (created : nat → bool) (cids : option (list Cid)) (cnps ccnps : option (list Cnp))
    : PolicyTask bool :=
  match listed with
  | None => mret connected
  | Some (pl, nl, npl) =>
      if negb connected && negb reachable then mret false else
      let alloc := match cids with Some items => ensure_identities created items pl | None => ∅ end in
      let cnps := default [] cnps ++ default [] ccnps in
      endpoints ← catch (rpc rpc_list_endpoints);
      match endpoints with
      | None => mret false
      | Some eps => r ← catch (push_policy mode alloc (mkCluster pl nl npl cnps) eps); mret (bool_decide (is_Some r))
      end
  end.
End agent.

(** ** The start *)

Definition connect_uri (ep : string) : string :=
  if starts_with "unix:" ep then ep else "http://" +:+ default ep (strip_prefix "tcp:" ep).

Record AgentArgs := mkAgentArgs {
  aa_grpc : string; aa_write_cni_conf : option string; aa_node_name : option string; aa_cni_grpc : option string;
  aa_resync_secs : Z; aa_publish_crds : bool; aa_gc_identities : bool; aa_enforce_policy : bool;
  aa_policy_enforcement : string }.

Inductive AgentTask : Type :=
| RenderCniConf (node path grpc : string)
| PublishCrds (node grpc : string) (gc_identities : bool)
| PolicyTaskOf (grpc mode : string)
| ServiceSync (grpc : string) (resync_secs : Z) (node_name : option string).

(** The tasks the agent runs; [None] when one of them needs the node's name
    and there is none. *)
Definition agent_tasks (args : AgentArgs) : option (list AgentTask) :=
  render ← match aa_write_cni_conf args with
           | None => Some []
           | Some path =>
               node ← aa_node_name args;
               Some [RenderCniConf node path (default (aa_grpc args) (aa_cni_grpc args))]
           end;
  crds ← (if aa_publish_crds args then
            node ← aa_node_name args; Some [PublishCrds node (aa_grpc args) (aa_gc_identities args)]
          else Some []);
  Some (render ++ crds ++
        (if aa_enforce_policy args then [PolicyTaskOf (aa_grpc args) (aa_policy_enforcement args)] else []) ++
        [ServiceSync (aa_grpc args) (aa_resync_secs args) (aa_node_name args)]).
