(* ===== verification/NetPolSpec.v ===== *)
(** * NetworkPolicy: the specification, and the compiled rules

    What Kubernetes promises of a [NetworkPolicy] on ingress, stated on the
    objects alone: a pod that no policy selects is open; a pod that some
    select accepts what one of their rules lists, by source pod, protocol
    and port, and what comes from its own node.  The rules
    [endpoint_policy] compiles say the same, on the fragment the agent
    supports. *)

From S2P Require Import Prelude.
From S2P Require Import Contract.
From S2P Require Import Bpf.
From S2P Require Import Frames.
From S2P Require Import Maps.
From S2P Require Import Policy.
From S2P Require Import PolicyProps.
From S2P Require Import MapRefs.
From S2P Require Import Dataplane.
From S2P Require Import DpRun.
From S2P Require Import DpPolicy.
From S2P Require Import Control.
From S2P Require Import Pb.
From S2P Require Import Grpc.
From S2P Require Import K8s.
From S2P Require Import NetPol.

(** ** What Kubernetes promises *)

Definition requirement_holds (r : SelectorRequirement) (l : Labels) : Prop :=
  let vs := default [] (rq_values r) in
  let op := rq_operator r in
  (op = "In"%string → ∃ v, l !! rq_key r = Some v ∧ v ∈ vs) ∧
  (op = "NotIn"%string → ∀ v, l !! rq_key r = Some v → v ∉ vs) ∧
  (op = "Exists"%string → is_Some (l !! rq_key r)) ∧
  (op = "DoesNotExist"%string → l !! rq_key r = None).

(** An absent or empty selector selects everything. *)
Definition selected (sel : option LabelSelector) (l : Labels) : Prop :=
  (∀ k v, default ∅ (s ← sel; sel_match_labels s) !! k = Some v → l !! k = Some v) ∧
  (∀ r, r ∈ default [] (s ← sel; sel_match_expressions s) → requirement_holds r l).

Section spec.
Context (namespaces : list Namespace).

Definition peer_admits (peer : NetworkPolicyPeer) (policy_ns : string) (src : Pod) : Prop :=
  peer_ip_block peer = None ∧
  match peer_namespace_selector peer with
  | None => pod_ns src = policy_ns
  | Some _ => ∃ ns, ns ∈ namespaces ∧ name_any (nsp_metadata ns) = pod_ns src ∧
                    selected (peer_namespace_selector peer) (labels_or_empty (nsp_metadata ns))
  end ∧
  selected (peer_pod_selector peer) (labels_of src).

(** The IANA number; TCP is the default. *)
Definition protocol_number (p : option string) : Z :=
  let p := default "TCP"%string p in
  if bool_decide (p = "UDP"%string) then 17 else if bool_decide (p = "SCTP"%string) then 132 else 6.

(** A name is a container port of the pod the rule protects. *)
Definition port_admits (np : NetworkPolicyPort) (dst : Pod) (proto port : Z) : Prop :=
  protocol_number (npp_protocol np) = proto ∧
  match npp_port np with
  | None => True
  | Some (IntPort n) => n ≤ port ≤ default n (npp_end_port np)
  | Some (NamedPort name) => ∃ cp, cp ∈ pod_container_ports dst ∧ cport_name cp = Some name ∧ cport_container_port cp = port
  end.

Definition empty_or {A} (l : option (list A)) (P : A → Prop) : Prop :=
  default [] l = [] ∨ ∃ x, x ∈ default [] l ∧ P x.

Definition rule_admits (r : NpRule) (policy_ns : string) (src dst : Pod) (proto port : Z) : Prop :=
  empty_or (npr_peers r) (λ peer, peer_admits peer policy_ns src) ∧
  empty_or (npr_ports r) (λ np, port_admits np dst proto port).

(** [np] restricts what [dst] receives. *)
Definition isolates (np : NetworkPolicy) (dst : Pod) (spec : NetworkPolicySpec) : Prop :=
  np_spec np = Some spec ∧ md_namespace (np_metadata np) = Some (pod_ns dst) ∧
  selected (nps_pod_selector spec) (labels_of dst) ∧
  match nps_policy_types spec with None => True | Some ts => "Ingress"%string ∈ ts end.

Definition isolated (policies : list NetworkPolicy) (dst : Pod) : Prop :=
  ∃ np spec, np ∈ policies ∧ isolates np dst spec.

Definition rules_admit (policies : list NetworkPolicy) (src dst : Pod) (proto port : Z) : Prop :=
  ∃ np spec r, np ∈ policies ∧ isolates np dst spec ∧ r ∈ default [] (nps_ingress spec) ∧
    rule_admits r (pod_ns dst) src dst proto port.

Definition k8s_allows (policies : list NetworkPolicy) (src dst : Pod) (proto port : Z) : Prop :=
  isolated policies dst → rules_admit policies src dst proto port.
End spec.

(** ** The fragment the agent supports *)

Definition plain_selector (sel : option LabelSelector) : Prop := default [] (s ← sel; sel_match_expressions s) = [].
Definition plain_peer (peer : NetworkPolicyPeer) : Prop :=
  peer_ip_block peer = None ∧ plain_selector (peer_namespace_selector peer) ∧ plain_selector (peer_pod_selector peer).
(** TCP or UDP, one port or all. *)
Definition plain_port (np : NetworkPolicyPort) : Prop :=
  npp_protocol np ∈ [None; Some "TCP"; Some "UDP"]%string ∧ npp_end_port np = None ∧
  match npp_port np with Some (IntPort n) => 1 ≤ n < 2 ^ 16 | _ => True end.
Definition plain_rule (r : NpRule) : Prop :=
  Forall plain_peer (default [] (npr_peers r)) ∧ Forall plain_port (default [] (npr_ports r)).
Definition plain_policy (np : NetworkPolicy) : Prop :=
  ∀ spec, np_spec np = Some spec → plain_selector (nps_pod_selector spec) ∧ Forall plain_rule (default [] (nps_ingress spec)).

(** A port name is used once in a pod, for a port number. *)
Definition ports_named_once (p : Pod) : Prop := ∀ cp cp' name,
  cp ∈ pod_container_ports p → cp' ∈ pod_container_ports p → cport_name cp = Some name → cport_name cp' = Some name →
  cport_container_port cp = cport_container_port cp' ∧ 1 ≤ cport_container_port cp < 2 ^ 16.

(** Identities tell label sets apart, and none is reserved. *)
Definition separates (alloc : Alloc) (pods : list Pod) : Prop :=
  (∀ p q, p ∈ pods → q ∈ pods → pod_identity alloc p = pod_identity alloc q →
     pod_ns p = pod_ns q ∧ labels_of p = labels_of q) ∧
  (∀ p, p ∈ pods → 2 < pod_identity alloc p).

(** ** Selectors and peers *)

Lemma stree_lookup (m : Labels) k v : (k, v) ∈ stree m ↔ m !! k = Some v.
Proof. unfold stree. by rewrite merge_sort_Permutation, elem_of_map_to_list. Qed.

Lemma selector_matches_spec sel l : plain_selector sel → selector_matches sel l = true ↔ selected sel l.
Proof.
  intros Hp. unfold selected. unfold plain_selector in Hp. rewrite Hp.
  assert (∀ P : Prop, P ∧ (∀ r : SelectorRequirement, r ∈ [] → requirement_holds r l) ↔ P) as ->.
  { intros P. split; [by intros []|]. intros HP. split; [done|]. intros r Hr. by apply not_elem_of_nil in Hr. }
  destruct sel as [[ml es]|]; cbn in *.
  - rewrite Hp. cbn. destruct ml as [ml|]; cbn.
    + rewrite forallb_forall. split.
      * intros Hf k v Hk. apply stree_lookup, list_elem_of_In in Hk. apply Hf in Hk. by apply bool_decide_eq_true in Hk.
      * intros Hl [k v] Hk%list_elem_of_In%stree_lookup. apply bool_decide_eq_true. by apply Hl.
    + split; [|done]. intros _ k v Hk. by rewrite lookup_empty in Hk.
  - split; [|done]. intros _ k v Hk. by rewrite lookup_empty in Hk.
Qed.

Lemma elem_of_peer_pods peer ns pods namespaces p : plain_peer peer →
  p ∈ peer_pods peer ns pods namespaces ↔ p ∈ pods ∧ peer_admits namespaces peer ns p.
Proof.
  intros (Hb & Hn & Hs). unfold peer_pods, peer_admits. rewrite Hb.
  rewrite !list_elem_of_filter, selector_matches_spec by done.
  assert (pod_ns p ∈ peer_namespaces peer ns namespaces ↔
    match peer_namespace_selector peer with
    | None => pod_ns p = ns
    | Some _ => ∃ nsp, nsp ∈ namespaces ∧ name_any (nsp_metadata nsp) = pod_ns p ∧
                  selected (peer_namespace_selector peer) (labels_or_empty (nsp_metadata nsp))
    end) as ->; [|naive_solver].
  unfold peer_namespaces. destruct (peer_namespace_selector peer) as [s|] eqn:E; [|by rewrite list_elem_of_singleton].
  rewrite list_elem_of_fmap. setoid_rewrite list_elem_of_filter. split.
  - intros (nsp & -> & Hm & Hin). exists nsp. split_and!; [done..|]. by apply selector_matches_spec.
  - intros (nsp & Hin & Hname & Hm). exists nsp. split_and!; [done| |done]. by apply selector_matches_spec.
Qed.

(** Peers tell pods apart by what an identity names. *)
Lemma peer_admits_same namespaces peer ns p q : pod_ns p = pod_ns q → labels_of p = labels_of q →
  peer_admits namespaces peer ns p → peer_admits namespaces peer ns q.
Proof. unfold peer_admits. by intros -> ->. Qed.

Lemma rule_ids_spec peers ns pods namespaces alloc src :
  separates alloc pods → Forall plain_peer (default [] peers) → src ∈ pods →
  (0 ∈ rule_ids peers ns pods namespaces alloc ∨ pod_identity alloc src ∈ rule_ids peers ns pods namespaces alloc) ↔
  empty_or peers (λ peer, peer_admits namespaces peer ns src).
Proof.
  intros [Hsep Hid] Hpl Hsrc. pose proof (Hid src Hsrc) as Hid0. unfold empty_or, rule_ids.
  destruct peers as [[|p0 f]|]; cbn [default]; [split; [by left|left; by left]| |split; [by left|left; by left]].
  set (l := p0 :: f) in *. change (default [] (Some l)) with l in *.
  assert (∀ i, i ∈ mjoin ((λ peer, peer_identities peer ns pods namespaces alloc) <$> l) ↔
    ∃ peer p, peer ∈ l ∧ p ∈ pods ∧ peer_admits namespaces peer ns p ∧ i = pod_identity alloc p) as Hin.
  { intros i. rewrite list_elem_of_join. setoid_rewrite list_elem_of_fmap. split.
    - intros (ids & Hi & peer & -> & Hp). rewrite Forall_forall in Hpl. pose proof (Hpl peer Hp) as Hpp.
      unfold peer_identities in Hi. rewrite (proj1 Hpp) in Hi. apply list_elem_of_fmap in Hi as (p & -> & Hi).
      apply elem_of_peer_pods in Hi as [? ?]; [|done]. by exists peer, p.
    - intros (peer & p & Hp & Hpods & Ha & ->). eexists. split; [|by exists peer].
      unfold peer_identities. rewrite (proj1 Ha). apply list_elem_of_fmap. exists p. split; [done|].
      apply elem_of_peer_pods; [|done]. rewrite Forall_forall in Hpl. by apply Hpl. }
  rewrite !Hin. split.
  - intros [(peer & p & ? & Hp & ? & E)|(peer & p & Hpe & Hp & Ha & E)].
    + pose proof (Hid p Hp). lia.
    + right. exists peer. split; [done|]. destruct (Hsep src p) as [En El]; [done..|]. by apply (peer_admits_same _ _ _ p).
  - intros [?|(peer & Hpe & Ha)]; [done|]. right. by exists peer, src.
Qed.

(** ** Ports *)

(** A pair of a rule covers a flow. *)
Definition pair_covers (e : Z * Z) (proto port : Z) : Prop :=
  e = (proto, port) ∨ e = (proto, 0) ∨ e = (0, 0).

Lemma proto_num_plain np : plain_port np → proto_num (npp_protocol np) = protocol_number (npp_protocol np) ∧
  protocol_number (npp_protocol np) ∈ [6; 17].
Proof. intros [Hp _]. repeat (apply elem_of_cons in Hp as [-> | Hp]; [split; [done|set_solver]|]). by apply not_elem_of_nil in Hp. Qed.

Lemma named_port_spec dst name port : ports_named_once dst →
  named_port dst name = Some port ↔
  ∃ cp, cp ∈ pod_container_ports dst ∧ cport_name cp = Some name ∧ cport_container_port cp = port.
Proof.
  intros Hw. unfold named_port. split.
  - intros (cp & Hin & E)%first_some_Some. case_bool_decide as En; [|done]. injection E as <-.
    exists cp. split_and!; [done..|]. destruct (Hw cp cp name) as [_ Hr]; [done..|].
    unfold wrap. by rewrite Z.mod_small by lia.
  - intros (cp & Hin & En & <-). destruct (first_some _ _) as [n|] eqn:E.
    + apply first_some_Some in E as (cp' & Hin' & E'). case_bool_decide as En'; [|done]. injection E' as <-.
      destruct (Hw cp cp' name) as [-> Hr]; [done..|]. destruct (Hw cp' cp' name) as [_ Hr']; [done..|].
      unfold wrap. by rewrite Z.mod_small by lia.
    + rewrite first_some_None in E. specialize (E cp Hin). by rewrite bool_decide_true in E.
Qed.

Lemma rule_ports_spec ports dst proto port :
  Forall plain_port (default [] ports) → ports_named_once dst → proto ∈ [6; 17] → 1 ≤ port < 2 ^ 16 →
  (∃ e, e ∈ rule_port_pairs ports [dst] ∧ pair_covers e proto port) ↔
  empty_or ports (λ np, port_admits np dst proto port).
Proof.
  intros Hpl Hw Hpr Hpo. unfold empty_or, rule_port_pairs.
  assert (proto ≠ 0) as Hp0 by (intros ->; set_solver).
  destruct ports as [[|n0 f]|]; cbn [default];
    [split; [by left|]; intros _; exists (0, 0); split; [set_solver|by do 2 right]| |
     split; [by left|]; intros _; exists (0, 0); split; [set_solver|by do 2 right]].
  set (l := n0 :: f) in *. change (default [] (Some l)) with l in *.
  transitivity (∃ np, np ∈ l ∧ port_admits np dst proto port); [|split; [by right|by intros [?|?]]].
  setoid_rewrite list_elem_of_join. setoid_rewrite list_elem_of_fmap.
  assert (∀ np, np ∈ l → (∃ e, e ∈ port_entries [dst] np ∧ pair_covers e proto port) ↔ port_admits np dst proto port) as Hnp.
  { intros np Hin. rewrite Forall_forall in Hpl. pose proof (Hpl np Hin) as Hpp.
    destruct (proto_num_plain np Hpp) as [En Hn]. destruct Hpp as (_ & Hend & Hport).
    unfold port_entries, port_admits. rewrite En, Hend.
    set (q := protocol_number _) in *. assert (q ≠ 0) as Hq by (intros Hq0; rewrite Hq0 in Hn; set_solver).
    destruct (npp_port np) as [[n|name]|].
    - unfold u16_or_zero. rewrite bool_decide_true by (unfold in_range; lia). cbn [default].
      setoid_rewrite list_elem_of_singleton. split.
      + intros (e & -> & [[= -> ->]|[[= _ ?]|[= ? _]]]); lia.
      + intros [-> ?]. eexists. split; [done|]. left. f_equal. lia.
    - setoid_rewrite elem_of_sort_dedup. setoid_rewrite list_elem_of_fmap. cbn [omap list_omap].
      rewrite <- (named_port_spec dst name port Hw).
      destruct (named_port dst name) as [n|] eqn:Enp.
      + assert (1 ≤ n) as Hn1.
        { apply named_port_spec in Enp as (cp & Hcp & Hname & <-); [|done]. destruct (Hw cp cp name) as [_ ?]; [done..|lia]. }
        setoid_rewrite list_elem_of_singleton. split.
        * intros (e & (m & -> & ->) & [[= -> ->]|[[= _ ?]|[= ? _]]]); [done|lia|lia].
        * intros [-> [= ->]]. eexists. split; [by eexists|]. by left.
      + split; [|by intros [_ ?]]. intros (e & (m & _ & Hm) & _). by apply not_elem_of_nil in Hm.
    - setoid_rewrite list_elem_of_singleton. split.
      + intros (e & -> & [[= -> ?]|[[= -> ]|[= ?]]]); [lia|done|lia].
      + intros [-> _]. eexists. split; [done|]. by right; left. }
  split.
  - intros (e & (es & He & np & -> & Hin) & Hc). exists np. split; [done|]. apply Hnp; [done|]. by exists e.
  - intros (np & Hin & Ha). apply Hnp in Ha as (e & He & Hc); [|done]. exists e. split; [|done].
    exists (port_entries [dst] np). split; [done|]. by exists np.
Qed.

(** The pairs fit the fields of a rule. *)
Lemma rule_ports_range ports target e : e ∈ rule_port_pairs ports target →
  wrap 8 e.1 = e.1 ∧ wrap 16 e.2 = e.2.
Proof.
  assert (∀ q, q ∈ [0; 6; 17] → wrap 8 q = q) as Hq.
  { intros q Hq. repeat (apply elem_of_cons in Hq as [-> | Hq]; [done|]). by apply not_elem_of_nil in Hq. }
  assert (∀ p, proto_num p ∈ [0; 6; 17]) as Hproto.
  { intros [p|]; cbn; repeat case_bool_decide; set_solver. }
  assert (∀ l, e ∈ mjoin (port_entries target <$> l) → wrap 8 e.1 = e.1 ∧ wrap 16 e.2 = e.2) as Hl.
  { intros l (es & He & (np & -> & _)%list_elem_of_fmap)%list_elem_of_join. unfold port_entries in He.
    destruct (npp_port np) as [[n|name]|].
    - apply list_elem_of_singleton in He as ->. split; [apply Hq, Hproto|]. unfold u16_or_zero, wrap.
      case_bool_decide as Hn; [|done]. unfold in_range in Hn. cbn. by rewrite Z.mod_small by lia.
    - apply elem_of_sort_dedup, list_elem_of_fmap in He as (n & -> & Hn). split; [apply Hq, Hproto|].
      apply list_elem_of_omap in Hn as (p & _ & Hn). unfold named_port in Hn.
      apply first_some_Some in Hn as (cp & _ & E). case_bool_decide; [|done]. injection E as <-.
      unfold wrap. cbn. by rewrite Zmod_mod.
    - apply list_elem_of_singleton in He as ->. split; [apply Hq, Hproto|done]. }
  unfold rule_port_pairs. destruct ports as [[|n0 f]|]; [|apply Hl|]; by intros ->%list_elem_of_singleton.
Qed.

(** ** The compiled policy *)

Section compiled.
Context (policies : list NetworkPolicy) (pods : list Pod) (namespaces : list Namespace) (alloc : Alloc).
Context (Hplain : Forall plain_policy policies) (Hsep : separates alloc pods).
Context (ep : pb_CniEndpoint) (dst : Pod).
Context (Hdst : find_pod (CniEndpoint_pod_namespace ep) (CniEndpoint_pod_name ep) pods = Some dst).

Lemma find_pod_spec : dst ∈ pods ∧ pod_ns dst = CniEndpoint_pod_namespace ep ∧
  md_namespace (pod_metadata dst) = Some (CniEndpoint_pod_namespace ep).
Proof.
  unfold find_pod in Hdst. apply first_some_Some in Hdst as (p & Hin & E).
  destruct (_ && _) eqn:Eb in E; [|done]. injection E as ->. apply andb_true_iff in Eb as [En%bool_decide_eq_true _].
  split; [done|]. split; [|done]. unfold pod_ns, namespace_of. by rewrite En.
Qed.

Abbreviation sel := (selecting (CniEndpoint_pod_namespace ep) (labels_of dst) policies).

(** The policies that count are those that isolate the pod. *)
Lemma elem_of_selecting np : np ∈ sel ∧ has_type np "Ingress" = true ↔ np ∈ policies ∧ ∃ spec, isolates np dst spec.
Proof.
  destruct find_pod_spec as (_ & Hns & _). unfold selecting, isolates. rewrite !list_elem_of_filter, Hns.
  unfold has_type. split.
  - intros [(Hs & Hn & Hin) Ht]. split; [done|]. rewrite Forall_forall in Hplain.
    destruct (np_spec np) as [spec|] eqn:E; [|done]. exists spec. split_and!; [done..| |].
    + apply selector_matches_spec; [|done]. by apply (Hplain np Hin spec).
    + destruct (nps_policy_types spec) as [ts|]; [|done]. apply existsb_exists in Ht as (x & Hx & Hb%bool_decide_eq_true).
      subst x. by apply list_elem_of_In.
  - intros (Hin & spec & E & Hn & Hs & Ht). rewrite E. cbn. split.
    + split_and!; [|done..]. apply selector_matches_spec; [|done]. rewrite Forall_forall in Hplain. by apply (Hplain np Hin spec).
    + destruct (nps_policy_types spec) as [ts|]; [|done]. apply existsb_exists. exists "Ingress"%string.
      split; [by apply list_elem_of_In|done].
Qed.

Abbreviation policy := (endpoint_policy ep policies pods namespaces alloc).

Lemma policy_enforce : EndpointPolicy_enforce policy = true ↔ isolated policies dst.
Proof.
  assert (existsb (λ np, has_type np "Ingress") sel = true ↔ isolated policies dst) as He.
  { rewrite existsb_exists. unfold isolated. split.
    - intros (np & Hin%list_elem_of_In & Ht). destruct (proj1 (elem_of_selecting np) (conj Hin Ht)) as (? & spec & ?).
      by exists np, spec.
    - intros (np & spec & Hin & Hi). destruct (proj2 (elem_of_selecting np)) as [Hs Ht]; [by eauto|].
      exists np. split; [by apply list_elem_of_In|done]. }
  rewrite <- He. unfold endpoint_policy. rewrite Hdst. cbn [from_option].
  destruct (existsb (λ np, has_type np "Ingress") sel), (existsb (λ np, has_type np "Egress") sel); done.
Qed.

(** A rule covers a flow from a peer of this identity. *)
Definition rule_covers (r : Rule) (id proto port : Z) : Prop :=
  (r_identity r = 0 ∨ r_identity r = id) ∧ pair_covers (r_proto r, r_port r) proto port.

Lemma elem_of_tuples r target t :
  t ∈ rule_tuples r (CniEndpoint_pod_namespace ep) pods namespaces target alloc ↔
  t.1.1 ∈ rule_ids (npr_peers r) (CniEndpoint_pod_namespace ep) pods namespaces alloc ∧
  (t.1.2, t.2) ∈ rule_port_pairs (npr_ports r) target.
Proof.
  unfold rule_tuples. rewrite list_elem_of_bind. split.
  - intros (i & Ht & Hi). apply list_elem_of_bind in Ht as ([p n] & Ht & Hp). by apply list_elem_of_singleton in Ht as ->.
  - destruct t as [[i p] n]. cbn. intros [Hi Hp]. exists i. split; [|done]. apply list_elem_of_bind.
    exists (p, n). split; [by apply list_elem_of_singleton|done].
Qed.

Lemma policy_rules : isolated policies dst →
  EndpointPolicy_rules policy = host_rule ::
    mjoin (ingress_rules (CniEndpoint_pod_namespace ep) pods namespaces [dst] alloc <$> sel).
Proof.
  intros He%policy_enforce. revert He. unfold endpoint_policy. rewrite Hdst. cbn [from_option option_list].
  by destruct (existsb (λ np, has_type np "Ingress") sel), (existsb (λ np, has_type np "Egress") sel).
Qed.

(** The rules cover what the policies list. *)
Lemma policy_rules_cover src proto port : ports_named_once dst → isolated policies dst → src ∈ pods →
  proto ∈ [6; 17] → 1 ≤ port < 2 ^ 16 →
  (∃ r, r ∈ rule_of <$> EndpointPolicy_rules policy ∧ rule_covers r (pod_identity alloc src) proto port) ↔
  rules_admit namespaces policies src dst proto port.
Proof.
  intros Hw Hi Hsrc Hpr Hpo. rewrite policy_rules by done.
  destruct find_pod_spec as (Hdin & Hns & _). pose proof (proj2 Hsep src Hsrc) as Hid0.
  set (id := pod_identity alloc src) in *.
  assert (∀ np spec r, isolates np dst spec → np ∈ policies → r ∈ default [] (nps_ingress spec) →
    (∃ t, t ∈ rule_tuples r (CniEndpoint_pod_namespace ep) pods namespaces [dst] alloc ∧
          rule_covers (rule_of (allow_rule t)) id proto port) ↔
    rule_admits namespaces r (pod_ns dst) src dst proto port) as Hrule.
  { intros np spec r (Hspec & _) Hin Hr. rewrite Forall_forall in Hplain. destruct (Hplain np Hin spec Hspec) as [_ Hrs].
    rewrite Forall_forall in Hrs. destruct (Hrs r Hr) as [Hpeers Hports]. unfold rule_admits. rewrite Hns.
    rewrite <- (rule_ids_spec _ _ pods namespaces alloc src) by done.
    rewrite <- (rule_ports_spec _ dst proto port) by done. setoid_rewrite elem_of_tuples. split.
    - intros ([[i p] n] & [Hti Htp] & Hc). cbn in Hti, Htp. destruct (rule_ports_range _ _ _ Htp) as [Ep En]. cbn in Ep, En.
      unfold rule_covers in Hc. cbn in Hc. rewrite Ep, En in Hc. destruct Hc as [Hc Hpc]. split; [|by exists (p, n)].
      destruct Hc as [-> | ->]; auto.
    - intros [Hid ([p n] & Htp & Hpc)]. destruct (rule_ports_range _ _ _ Htp) as [Ep En]. cbn in Ep, En.
      assert (∃ i, i ∈ rule_ids (npr_peers r) (CniEndpoint_pod_namespace ep) pods namespaces alloc ∧ (i = 0 ∨ i = id))
        as (i & Hi' & Hi0) by (destruct Hid; eauto).
      exists (i, p, n). split; [done|]. unfold rule_covers. cbn. by rewrite Ep, En. }
  unfold rules_admit. split.
  - intros (r & (pr & -> & Hr)%list_elem_of_fmap & Hc). apply elem_of_cons in Hr as [-> | Hr].
    { destruct Hc as [[Hc|Hc] _]; cbn in Hc; unfold K8S_IDENTITY_HOST in Hc; lia. }
    apply list_elem_of_join in Hr as (rs & Hr & (np & -> & Hnp)%list_elem_of_fmap). unfold ingress_rules in Hr.
    destruct (np_spec np) as [spec|] eqn:Es; [|by apply not_elem_of_nil in Hr].
    destruct (has_type np "Ingress") eqn:Et; [|by apply not_elem_of_nil in Hr].
    apply list_elem_of_bind in Hr as (kr & Hr & Hkr). apply list_elem_of_fmap in Hr as (t & -> & Ht).
    destruct (proj1 (elem_of_selecting np) (conj Hnp Et)) as (Hin & spec' & His).
    assert (spec' = spec) as -> by (destruct His as [? _]; congruence).
    exists np, spec, kr. split_and!; [done..|]. apply (Hrule np spec kr); [done..|]. by exists t.
  - intros (np & spec & kr & Hin & His & Hkr & Ha). apply (Hrule np spec kr) in Ha as (t & Ht & Hc); [|done..].
    exists (rule_of (allow_rule t)). split; [|done]. apply list_elem_of_fmap. exists (allow_rule t). split; [done|].
    apply elem_of_cons. right. apply list_elem_of_join.
    destruct (proj2 (elem_of_selecting np)) as [Hs Ht']; [by eauto|]. eexists. split; [|apply list_elem_of_fmap; by exists np].
    unfold ingress_rules. rewrite (proj1 His), Ht'. apply list_elem_of_bind. exists kr. split; [|done].
    apply list_elem_of_fmap. by exists t.
Qed.

(** Every compiled rule allows. *)
Lemma policy_rules_allow : Forall (λ r, r_deny (rule_of r) = false) (EndpointPolicy_rules policy).
Proof.
  assert (∀ ns target l, Forall (λ r, r_deny (rule_of r) = false)
    (host_rule :: mjoin (ingress_rules ns pods namespaces target alloc <$> l))) as Hr.
  { intros ns target l. constructor; [done|]. apply Forall_forall. intros r.
    intros (rs & Hr & (np & -> & _)%list_elem_of_fmap)%list_elem_of_join. unfold ingress_rules in Hr.
    destruct (np_spec np) as [spec|]; [|by apply not_elem_of_nil in Hr].
    destruct (has_type np "Ingress"); [|by apply not_elem_of_nil in Hr].
    apply list_elem_of_bind in Hr as (kr & Hr & _). by apply list_elem_of_fmap in Hr as ([[i p] n] & -> & _). }
  unfold endpoint_policy. destruct (_ && _); [constructor|]. cbn [EndpointPolicy_rules].
  destruct (existsb _ _); [apply Hr|constructor].
Qed.
End compiled.

(** ** The installed rules *)

(** An endpoint whose rules are [rules], all of them allowing, admits the
    flows one of them covers. *)
Lemma installed_admits ep enforce_egress rules egress_rules d fl id proto port :
  installed ep true enforce_egress false rules egress_rules d → @EP_POLICY (dp_pol d) !! ep = Some fl →
  Forall (λ r, r_deny r = false ∧ u16 (r_port r)) rules → u16 port →
  @policy_allows (dp_pol d) ep id (port_to_map port) proto (dir_gen fl POLICY_DIR_INGRESS) ↔
  ∃ r, r ∈ rules ∧ rule_covers r id proto port.
Proof.
  intros [_ Hi] Hfl Hrs Hport. rewrite Hfl in Hi. destruct Hi as (_ & _ & _ & Hi).
  set (dir := dir_gen fl POLICY_DIR_INGRESS) in *. rewrite Forall_forall in Hrs.
  assert (∀ k, pol_ep k = ep → pol_dir k = dir → @POLICY (dp_pol d) !! k = rule_table ep dir rules !! k) as Hk.
  { intros k He Hd. rewrite Hi by done. unfold new_table. destruct enforce_egress; [|by rewrite (left_id_L ∅ (∪))].
    apply lookup_union_r, eq_None_not_Some. intros [v Hv]. apply rule_table_keys in Hv as [_ Hv].
    rewrite Hv in Hd. unfold dir, dir_gen in Hd. by destruct (has fl EP_F_GEN). }
  assert (∀ k v, rule_table ep dir rules !! k = Some v ↔ v = POLICY_ALLOW ∧ ∃ r, r ∈ rules ∧ rule_key ep dir r = k) as Ht.
  { intros k v. unfold rule_table. rewrite (put_all_lookup (rule_key ep dir) rule_verdict).
    - assert (∀ r, r ∈ rules → rule_verdict r = POLICY_ALLOW) as Hv.
      { intros r Hr. unfold rule_verdict. by rewrite (proj1 (Hrs r Hr)). }
      split.
      + intros [(r & Hr & <- & <-)|[_ E]]; [|by rewrite lookup_empty in E]. rewrite Hv by done. eauto.
      + intros (-> & r & Hr & <-). left. exists r. rewrite Hv by done. done.
    - intros x y Hx Hy _. unfold rule_verdict. by rewrite (proj1 (Hrs x Hx)), (proj1 (Hrs y Hy)). }
  assert (∀ i p n, u16 n → is_Some (@POLICY (dp_pol d) !! mkPolicyKey ep i (port_to_map n) p dir) ↔
    ∃ r, r ∈ rules ∧ r_identity r = i ∧ (r_proto r, r_port r) = (p, n)) as Hkey.
  { intros i p n Hn. rewrite Hk by done. split.
    - intros [v (-> & r & Hr & [= <- E <-])%Ht]. exists r. split_and!; [done..|]. f_equal.
      apply port_to_map_inj in E; [done| |done]. by apply Hrs.
    - intros (r & Hr & <- & [= <- <-]). exists POLICY_ALLOW. apply Ht. split; [done|]. by exists r. }
  assert (u16 0) as H0 by done. assert (port_to_map 0 = 0) as E0 by done.
  assert (@policy_allows (dp_pol d) ep id (port_to_map port) proto dir ↔
    Exists (λ k, is_Some (@POLICY (dp_pol d) !! k)) (@matching_rules ep id (port_to_map port) proto dir)) as ->.
  { unfold policy_allows. split; [by intros []|]. intros He. split; [done|]. apply Forall_forall. intros k Hkm.
    assert (pol_ep k = ep ∧ pol_dir k = dir) as [He' Hd'].
    { unfold matching_rules in Hkm. repeat (apply elem_of_cons in Hkm as [-> | Hkm]; [done|]). by apply not_elem_of_nil in Hkm. }
    rewrite Hk by done. intros [Hd _]%Ht. done. }
  unfold matching_rules. rewrite !Exists_cons, Exists_nil.
  pose proof (Hkey id proto port Hport) as K1. pose proof (Hkey id proto 0 H0) as K2. pose proof (Hkey id 0 0 H0) as K3.
  pose proof (Hkey 0 proto port Hport) as K4. pose proof (Hkey 0 proto 0 H0) as K5. pose proof (Hkey 0 0 0 H0) as K6.
  rewrite E0 in K2, K3, K5, K6. rewrite K1, K2, K3, K4, K5, K6. unfold rule_covers, pair_covers. clear. split.
  - intros He. repeat destruct He as [He|He]; try done; destruct He as (r & ? & ? & ?); exists r; tauto.
  - intros (r & ? & [?|?] & [?|[?|?]]); [do 3 right; left|do 4 right; left|do 5 right; left|left|right; left|do 2 right; left];
      by exists r.
Qed.
