(* ===== verification/AgentRun.v ===== *)
(** * Running the agent's requests

    What a reconcile of [Agent] leaves in the maps: the bindings it pushed,
    and for every local pod the policy that was computed for it. *)

From S2P Require Import Prelude.
From S2P Require Import Contract.
From S2P Require Import Bpf.
From S2P Require Import Frames.
From S2P Require Import Maps.
From S2P Require Import MapRefs.
From S2P Require Import Dataplane.
From S2P Require Import DpRun.
From S2P Require Import DpPolicy.
From S2P Require Import Cni.
From S2P Require Import L7.
From S2P Require Import Control.
From S2P Require Import CtlRun.
From S2P Require Import Ports.
From S2P Require Import Overlay.
From S2P Require Import Pods.
From S2P Require Import Text.
From S2P Require Import IpText.
From S2P Require Import Pb.
From S2P Require Import Grpc.
From S2P Require Import K8s.
From S2P Require Import NetPol.
From S2P Require Import Agent.

(** ** What a run keeps *)

(** Whatever a computation answers, it moves its state along [Q]. *)
Definition moves {S E A} (Q : S → S → Prop) (m : M S E A) : Prop := ∀ s, Q s (m s).1.

Section moves.
Context {S E : Type} (Q : S → S → Prop) `{!PreOrder Q}.
Lemma moves_ret {A} (a : A) : moves Q (mret a : M S E A).
Proof. intros s. cbn. reflexivity. Qed.
Lemma moves_bail {A} (e : E) : moves Q (bail e : M S E A).
Proof. intros s. cbn. reflexivity. Qed.
Lemma moves_get : moves Q (get : M S E S).
Proof. intros s. cbn. reflexivity. Qed.
Lemma moves_of_option {A} (e : E) (o : option A) : moves Q (of_option e o : M S E A).
Proof. intros s. destruct o; cbn; reflexivity. Qed.
Lemma moves_modify (f : S → S) : (∀ s, Q s (f s)) → moves Q (modify f : M S E unit).
Proof. intros Hf s. apply Hf. Qed.
Lemma moves_bind {A B} (m : M S E A) (f : A → M S E B) : moves Q m → (∀ a, moves Q (f a)) → moves Q (m ≫= f).
Proof.
  intros Hm Hf s. unfold mbind, M_bind. specialize (Hm s). destruct (m s) as [s1 [a|e]]; [|done].
  cbn in Hm. etransitivity; [done|apply Hf].
Qed.
Lemma moves_mfold {A} (f : A → M S E unit) l : (∀ x, moves Q (f x)) → moves Q (mfold (λ _ x, f x) l tt).
Proof.
  intros Hf. induction l as [|x l IH]; [apply moves_ret|]. cbn [mfold]. apply moves_bind; [done|]. by intros [].
Qed.
End moves.

(** ** The maps a request leaves alone *)

(** Neither the policy maps nor the ports changed. *)
Definition calm (d d' : Dp) : Prop := dp_pol d' = dp_pol d ∧ dp_fib d' = dp_fib d.
#[global] Instance calm_preorder : PreOrder calm.
Proof. split; [by intros d|]. intros d1 d2 d3 [] []. split; congruence. Qed.

(** Only bindings changed. *)
Record policy_kept (d d' : Dp) : Prop := mkPolicyKept {
  pk_rules : @POLICY (dp_pol d') = @POLICY (dp_pol d);
  pk_words : @EP_POLICY (dp_pol d') = @EP_POLICY (dp_pol d);
  pk_fib : dp_fib d' = dp_fib d }.
#[global] Instance policy_kept_preorder : PreOrder policy_kept.
Proof. split; [by intros d|]. intros d1 d2 d3 [] []. split; congruence. Qed.

(** Only CIDR bindings changed. *)
Definition bindings_kept (d d' : Dp) : Prop :=
  policy_kept d d' ∧ @IDENTITY (dp_pol d') = @IDENTITY (dp_pol d) ∧ @IDENTITY6 (dp_pol d') = @IDENTITY6 (dp_pol d).
#[global] Instance bindings_kept_preorder : PreOrder bindings_kept.
Proof.
  split; [by intros d|]. intros d1 d2 d3 (? & ? & ?) (? & ? & ?). split; [by transitivity d2|]. split; congruence.
Qed.

(** Only endpoint [ep]'s policy changed. *)
Record others_kept (ep : Z) (d d' : Dp) : Prop := mkOthersKept {
  ok_rules : ∀ k, pol_ep k ≠ ep → @POLICY (dp_pol d') !! k = @POLICY (dp_pol d) !! k;
  ok_words : ∀ x, x ≠ ep → @EP_POLICY (dp_pol d') !! x = @EP_POLICY (dp_pol d) !! x;
  ok_identity : @IDENTITY (dp_pol d') = @IDENTITY (dp_pol d);
  ok_identity6 : @IDENTITY6 (dp_pol d') = @IDENTITY6 (dp_pol d);
  ok_fib : dp_fib d' = dp_fib d }.
#[global] Instance others_kept_preorder ep : PreOrder (others_kept ep).
Proof.
  split; [by intros d|]. intros d1 d2 d3 [] []. split; try congruence; intros x Hx.
  - by rewrite ok_rules1, ok_rules0.
  - by rewrite ok_words1, ok_words0.
Qed.

Lemma clean_other ep x d d' : others_kept ep d d' → x ≠ ep → clean x d → clean x d'.
Proof.
  intros [Hr Hw _ _] Hx Hc k Hk Hs. rewrite Hr in Hs by congruence. destruct (Hc k Hk Hs) as (fl & Hf & Ha).
  exists fl. by rewrite Hw.
Qed.
Lemma installed_other ep x a b au rs ers d d' : others_kept ep d d' → x ≠ ep →
  installed x a b au rs ers d → installed x a b au rs ers d'.
Proof.
  intros Ho Hx [Hc Hi]. split; [by apply (clean_other ep x d)|]. destruct Ho as [Hr Hw _ _]. rewrite Hw by done.
  destruct (EP_POLICY !! x) as [fl|]; [|done]. destruct Hi as (? & ? & ? & Hi). split_and!; [done..|].
  intros k Hk. rewrite Hr by congruence. by apply Hi.
Qed.
Lemma clean_kept x d d' : policy_kept d d' → clean x d → clean x d'.
Proof. intros [Hr Hw _] Hc k Hk Hs. rewrite Hr in Hs. destruct (Hc k Hk Hs) as (fl & ? & ?). exists fl. by rewrite Hw. Qed.
Lemma installed_kept x a b au rs ers d d' : policy_kept d d' → installed x a b au rs ers d → installed x a b au rs ers d'.
Proof.
  intros Hp [Hc Hi]. split; [by apply (clean_kept x d)|]. destruct Hp as [-> -> _]. done.
Qed.
Lemma calm_kept d d' : calm d d' → bindings_kept d d'.
Proof. intros [Hp Hf]. split; [by split; rewrite ?Hp|by rewrite Hp]. Qed.

Section dp.
Context `{MapSysLaws}.

Lemma trie_put_evolves (R : Dp → Dp → Prop) `{!PreOrder R} {V} (r : MapRef (gmap (Z * bytes) V)) n k v :
  (∀ d m, R d (over r m d)) → evolves R (trie_put r n k v).
Proof.
  intros HR s. unfold trie_put, map_put. rewrite bind_dp. unfold of_option.
  destruct (_ : option _) as [m|]; [|split; [cbn; reflexivity|exists []; by rewrite app_nil_r]].
  apply (evolves_commit R (λ d, over r m d)), HR.
Qed.
Lemma trie_drop_evolves (R : Dp → Dp → Prop) `{!PreOrder R} {V} (r : MapRef (gmap (Z * bytes) V)) n k :
  (∀ d m, R d (over r m d)) → evolves R (trie_drop r n k).
Proof.
  intros HR s. unfold trie_drop, trie_del, ignore, map_put, catch. rewrite bind_run_ctl.
  rewrite bind_dp. unfold of_option.
  destruct (_ : option _) as [m|]; [|split; [cbn; reflexivity|exists []; by rewrite app_nil_r]].
  apply (evolves_commit R (λ d, over r m d)), HR.
Qed.

Lemma policy_set_others ep enforce enforce_egress audit rules egress_rules :
  evolves (others_kept ep) (endpoint_policy_set ep enforce enforce_egress audit rules egress_rules).
Proof.
  assert (∀ keep, evolves (others_kept ep) (sweep ep keep)) as Hsw.
  { intros keep. apply evolves_dp. intros d. apply evolves_for; [apply _|]. intros _ k [Hk _]%list_elem_of_filter.
    apply evolves_drop; [apply _|]. intros d1. unfold stale_rule in Hk. apply andb_true_iff in Hk as [He%Z.eqb_eq _].
    split; try done. intros k' Hne. cbn. apply lookup_delete_ne. congruence. }
  assert (∀ dir rs, evolves (others_kept ep) (install_rules ep dir rs)) as Hin.
  { intros dir rs. apply evolves_for; [apply _|]. intros _ r _. apply evolves_put; [apply _|]. intros d.
    split; try done. intros k' Hne. cbn. apply lookup_insert_ne. intros <-. by apply Hne. }
  unfold endpoint_policy_set. destruct (_ && _).
  - apply evolves_bind; [apply _| |by intros _]. apply evolves_drop; [apply _|]. intros d. split; try done.
    intros x Hx. cbn. by apply lookup_delete_ne.
  - apply evolves_dp. intros d. apply evolves_bind; [apply _| |intros _].
    { destruct enforce; [done|apply evolves_ret, _]. }
    apply evolves_bind; [apply _| |intros _].
    { destruct enforce_egress; [done|apply evolves_ret, _]. }
    apply evolves_bind; [apply _| |done]. apply evolves_put; [apply _|]. intros d1. split; try done.
    intros x Hx. cbn. by apply lookup_insert_ne.
Qed.

Lemma cidr_set_evolves vrf net len id del : evolves bindings_kept (cidr_identity_set vrf net len id del).
Proof. unfold cidr_identity_set. destruct del; [apply trie_drop_evolves|apply trie_put_evolves]; try apply _; by intros. Qed.
Lemma cidr6_set_evolves vrf net len id del : evolves bindings_kept (cidr6_identity_set vrf net len id del).
Proof. unfold cidr6_identity_set. destruct del; [apply trie_drop_evolves|apply trie_put_evolves]; try apply _; by intros. Qed.
End dp.

Section ctl.
Context `{HostOps} `{Regex} `{MapSysLaws}.

(** The store is as it was, and the data plane moved along [R]. *)
Definition via (R : Dp → Dp → Prop) (c c' : Control) : Prop :=
  c_cni c' = c_cni c ∧ R (now (c_run c)) (now (c_run c')).
#[global] Instance via_preorder R : PreOrder R → PreOrder (via R).
Proof.
  intros HR. split; [intros c; by split|]. intros c1 c2 c3 [E1 R1] [E2 R2]. split; [congruence|by etransitivity].
Qed.

Lemma evolves_ignore (R : Dp → Dp → Prop) (m : Ctl unit) : evolves R m → evolves R (ignore m).
Proof. intros Hm s. specialize (Hm s). unfold ignore, catch, mbind, M_bind. by destruct (m s) as [s1 [[]|]]. Qed.

Lemma on_dp_moves (R : Dp → Dp → Prop) {A} (m : Ctl A) : evolves R m → moves (via R) (on_dp m).
Proof.
  intros Hm c. unfold on_dp. specialize (Hm (c_run c)). destruct (m (c_run c)) as [s r]. destruct Hm as [HR _].
  by destruct c.
Qed.

Lemma set_endpoint_l7_moves ep l7 : moves (via calm) (set_endpoint_l7 ep l7).
Proof.
  assert (∀ f, moves (via calm) (upd_routes f)) as Hr by (intros f; by apply moves_modify).
  assert (∀ f, moves (via calm) (upd_l7_policies f)) as Hl by (intros f; by apply moves_modify).
  unfold set_endpoint_l7. apply moves_bind; [apply _| |intros eps].
  { intros c. cbn. by destruct c. }
  apply moves_bind; [apply _|by apply moves_get, _|intros c]. apply moves_bind; [apply _|done|intros _].
  apply moves_bind; [apply _| |intros new_set].
  { destruct (ep_ip <$> _) as [ip|]; [|apply moves_ret, _]. apply moves_bind; [apply _| |intros; apply moves_ret, _].
    apply moves_mfold; [apply _|]. intros p. apply moves_bind; [apply _| |done]. apply on_dp_moves.
    apply evolves_put; [apply _|]. by intros. }
  apply moves_bind; [apply _| |intros _].
  { apply moves_mfold; [apply _|]. intros p. apply moves_bind; [apply _| |done]. apply on_dp_moves, evolves_ignore.
    apply evolves_drop; [apply _|]. by intros. }
  case_bool_decide; [apply moves_ret, _|done].
Qed.

(** ** Requests *)

(** The port of a pod, as the store knows it. *)
Definition pod_port (c : Control) (ns pod_name : string) : option Z :=
  ep_host_ifindex <$>
    find_ep (λ e, bool_decide (ep_pod_name e = pod_name) && bool_decide (ep_pod_namespace e = ns))
      (merge_sort endpoint_le (map_to_list (st_endpoints (c_cni c))).*2).

Lemma resolve_pod_inv ns pod_name (c c' : Control) ix : resolve_endpoint "" ns pod_name c = (c', Ok ix) →
  pod_port c ns pod_name = Some ix ∧ via (=) c c'.
Proof.
  unfold resolve_endpoint. cbn [negb bool_decide]. change (negb (bool_decide (""%string = ""%string))) with false. cbn iota.
  unfold on_cni, list_endpoints, gets. unfold mbind at 1, M_bind. cbn -[find_ep merge_sort map_to_list].
  intros [E ->]%of_option_inv. split; [exact E|]. by destruct c.
Qed.

Lemma call_inv {A} (m : M Control CtlErr A) (c c' : Control) a : call m c = (c', Ok a) → m c = (c', Ok a).
Proof. unfold call. destruct (m c) as [c1 [x|]]; [|done]. by intros [= <- <-]. Qed.
Lemma parsed_inv {A} (o : option A) (c c' : Control) a : parsed o c = (c', Ok a) → o = Some a ∧ c' = c.
Proof. apply of_option_inv. Qed.

Lemma rpc_policy_inv p (c c' : Control) : EndpointPolicy_host_if p = ""%string →
  rpc_set_endpoint_policy p c = (c', Ok tt) →
  ∃ ix d, pod_port c (EndpointPolicy_pod_namespace p) (EndpointPolicy_pod_name p) = Some ix ∧
    c_cni c' = c_cni c ∧ calm (now (c_run c)) d ∧ others_kept ix d (now (c_run c')) ∧
    (clean ix d → installed ix (EndpointPolicy_enforce p) (EndpointPolicy_enforce_egress p) (EndpointPolicy_audit p)
       (rule_of <$> EndpointPolicy_rules p) (rule_of <$> EndpointPolicy_egress_rules p) (now (c_run c'))).
Proof.
  unfold rpc_set_endpoint_policy. intros Hif (c1 & ix & E1 & E2)%bind_inv_M. rewrite Hif in E1.
  apply call_inv, resolve_pod_inv in E1 as [Hix [Hc1 Hr1]].
  apply bind_inv_M in E2 as (c2 & rev & E2%call_inv & [= <-]).
  unfold set_endpoint_policy in E2. apply bind_inv_M in E2 as (c3 & [] & E3 & E2).
  pose proof (set_endpoint_l7_moves ix (l7_port_of <$> EndpointPolicy_l7 p) c1) as [Hc3 Hr3]. rewrite E3 in Hc3, Hr3.
  cbn [fst] in Hc3, Hr3. apply bind_inv_M in E2 as (c4 & [] & (s & E4 & ->)%on_dp_inv & E2).
  cbn in E2. injection E2 as <- _.
  exists ix, (now (c_run c3)). split; [done|].
  pose proof (policy_set_others ix (EndpointPolicy_enforce p) (EndpointPolicy_enforce_egress p) (EndpointPolicy_audit p)
    (rule_of <$> EndpointPolicy_rules p) (rule_of <$> EndpointPolicy_egress_rules p) (c_run c3)) as [Ho _].
  rewrite E4 in Ho. cbn [fst] in Ho. split_and!.
  - cbn. congruence.
  - by rewrite Hr1.
  - exact Ho.
  - intros Hcl. exact (policy_set_installed _ _ _ _ _ _ _ _ E4 Hcl).
Qed.

(** An identity is bound to an address in the global scope. *)
Definition bound (d : Dp) (ip : IpAddr) (id : Z) : Prop :=
  match ip with
  | V4 a => @IDENTITY (dp_pol d) !! mkVrfIdKey 0 (ipv4_to_map a) = Some id
  | V6 a => @IDENTITY6 (dp_pol d) !! mkVrfId6Key 0 a = Some id
  end.
Definition ip_wf (ip : IpAddr) : Prop := match ip with V4 a => length a = 4%nat ∧ Forall is_byte a | V6 _ => True end.

Lemma parse_ip_wf s ip : parse_ip s = Some ip → ip_wf ip.
Proof. destruct ip; [apply parse_ip_v4|done]. Qed.

Lemma ip4_of_be a : length a = 4%nat → Forall is_byte a → ip4 (of_be a) = a.
Proof. intros Hl Hb. unfold ip4. rewrite <- Hl. by apply to_of_be. Qed.

Lemma hash_put_inv {K} `{Countable K} {V} (r : MapRef (gmap K V)) (k : K) (v : V) s s' :
  hash_put r k v s = (s', Ok tt) → now s' = over r (<[k := v]> (view r (now s))) (now s).
Proof. destruct (hash_put_cases r k v s) as [E|E]; rewrite E; [done|]. by intros [= <-]. Qed.

Lemma rpc_identity_inv s id (c c' : Control) : rpc_set_identity (mk_pb_Identity s id 0) c = (c', Ok tt) →
  ∃ ip, parse_ip s = Some ip ∧ via policy_kept c c' ∧ bound (now (c_run c')) ip id ∧
    ∀ ip' i, ip' ≠ ip → ip_wf ip' → bound (now (c_run c)) ip' i → bound (now (c_run c')) ip' i.
Proof.
  unfold rpc_set_identity. cbn [Identity_ip Identity_vrf_id Identity_identity].
  intros (c1 & ip & [Hp ->]%parsed_inv & E)%bind_inv_M. pose proof (parse_ip_wf s ip Hp) as Hwf. exists ip. split; [done|].
  destruct ip as [a|a]; apply call_inv in E.
  - destruct Hwf as [Hl Hb]. unfold set_identity in E. rewrite ip4_of_be in E by done.
    apply bind_inv_M in E as (c2 & [] & (s1 & E1%hash_put_inv & ->)%on_dp_inv & E). cbn in E. injection E as <-. split; [split; [done|cbn; rewrite E1; by split]|]. cbn. rewrite E1. split; [apply lookup_insert_eq|]. intros [b|b] i Hne Hwf' Hbd; [|done].
    destruct Hwf'. cbn. rewrite lookup_insert_ne; [done|]. intros [= Heq]. apply Hne. f_equal. symmetry.
    by apply ipv4_to_map_inj.
  - unfold set_identity6 in E. apply on_dp_inv in E as (s1 & E1%hash_put_inv & ->).
    split; [split; [done|cbn; rewrite E1; by split]|]. cbn. rewrite E1. split; [apply lookup_insert_eq|]. intros [b|b] i Hne _ Hbd; [done|].
    cbn. rewrite lookup_insert_ne; [done|]. congruence.
Qed.

Lemma call_moves (Q : Control → Control → Prop) {A} (m : M Control CtlErr A) : moves Q m → moves Q (call m).
Proof. intros Hm c. unfold call. specialize (Hm c). by destruct (m c). Qed.

Lemma rpc_cidr_moves x : moves (via bindings_kept) (rpc_set_cidr_identity x).
Proof.
  unfold rpc_set_cidr_identity. destruct (contains _ _).
  - apply moves_bind; [apply _|apply moves_of_option, _|intros [net len]]. apply call_moves, on_dp_moves, cidr6_set_evolves.
  - apply moves_bind; [apply _|apply moves_of_option, _|intros [net len]]. apply call_moves, on_dp_moves, cidr_set_evolves.
Qed.
End ctl.

(** ** Loops *)

Section loops.
Context `{HostOps} `{Regex} `{MapSysLaws}.

Lemma each_of_cons {S A} (f : A → M (Control * S) Status unit) x l (s s' : Control * S) :
  each_of f (x :: l) s = (s', Ok tt) → ∃ s1, f x s = (s1, Ok tt) ∧ each_of f l s1 = (s', Ok tt).
Proof. unfold each_of. cbn [mfold]. intros (s1 & [] & ? & ?)%bind_inv_M. eauto. Qed.

Lemma rpc_inv {S A} (m : M Control Status A) (c : Control) (x : S) (s' : Control * S) a :
  rpc m (c, x) = (s', Ok a) → m c = (s'.1, Ok a) ∧ s'.2 = x.
Proof. unfold rpc. destruct (m c) as [c1 r]. by intros [= <- ->]. Qed.

(** Every binding is pushed: an address whose bindings agree has theirs. *)
Lemma push_identities_run l (s s' : Control * list (string * Z)) :
  each_of push_identity l s = (s', Ok tt) →
  via policy_kept s.1 s'.1 ∧
  ∀ ip i, ip_wf ip → (∀ b, b ∈ l → parse_ip b.1 = Some ip → b.2 = i) →
    (bound (now (c_run s.1)) ip i ∨ ∃ b, b ∈ l ∧ parse_ip b.1 = Some ip) → bound (now (c_run s'.1)) ip i.
Proof.
  revert s. induction l as [|[t id] l IH]; intros s.
  - intros [= <-]. split; [reflexivity|]. intros ip i _ _ [?|(b & Hb & _)]; [done|]. by apply not_elem_of_nil in Hb.
  - intros (s1 & E1 & E2)%each_of_cons. destruct s as [c x]. apply rpc_inv in E1 as [E1 _].
    destruct (rpc_identity_inv _ _ _ _ E1) as (ip0 & Hp & Hv & Hb0 & Hk). apply IH in E2 as [Hv2 Hall].
    split; [by transitivity s1.1|]. intros ip i Hwf Hag Hex. apply Hall; [done|set_solver|].
    destruct (decide (ip = ip0)) as [->|Hne].
    + left. rewrite <- (Hag (t, id)); [done|set_solver|done].
    + destruct Hex as [Hex|(b & [-> |Hb]%elem_of_cons & Hpb)]; [left; by apply Hk| |right; eauto].
      exfalso. cbn in Hp, Hpb. congruence.
Qed.

Lemma push_cidrs_run del l (s s' : Control * list (string * Z)) :
  each_of (push_cidr del) l s = (s', Ok tt) → via bindings_kept s.1 s'.1.
Proof.
  revert s. induction l as [|b l IH]; intros s; [by intros [= <-]|].
  intros (s1 & E1 & E2)%each_of_cons. destruct s as [c x]. apply rpc_inv in E1 as [E1 _]. apply IH in E2.
  etransitivity; [|exact E2]. pose proof (rpc_cidr_moves (mk_pb_CidrIdentity b.1 b.2 del 0) c) as Hm. by rewrite E1 in Hm.
Qed.

(** ** Policies *)

(** The policy of a pod when there are no Cilium policies and enforcement
    is Kubernetes'. *)
Lemma agent_policy_default alloc cl ep : cl_cnps cl = [] →
  agent_policy "default" alloc cl ep = endpoint_policy ep (cl_policies cl) (cl_pods cl) (cl_namespaces cl) alloc.
Proof.
  intros Hc. unfold agent_policy. rewrite Hc. cbn [endpoint_rules filter list_filter foldl].
  destruct (endpoint_policy _ _ _ _ _) as [h ns n e r ee er a l]. unfold merge_cnp, apply_mode. cbn.
  by rewrite !orb_false_r, !app_nil_r.
Qed.

(** The policy computed for the pod at port [ix] is in force there. *)
Definition enforced (ix : Z) (p : pb_EndpointPolicy) (d : Dp) : Prop :=
  installed ix (EndpointPolicy_enforce p) (EndpointPolicy_enforce_egress p) (EndpointPolicy_audit p)
    (rule_of <$> EndpointPolicy_rules p) (rule_of <$> EndpointPolicy_egress_rules p) d.

(** Two pods have two ports. *)
Definition ports_distinct (c : Control) : Prop := ∀ n1 m1 n2 m2 ix,
  pod_port c n1 m1 = Some ix → pod_port c n2 m2 = Some ix → n1 = n2 ∧ m1 = m2.

Lemma pod_port_same c c' ns m : c_cni c' = c_cni c → pod_port c' ns m = pod_port c ns m.
Proof. unfold pod_port. by intros ->. Qed.

Abbreviation pushed_policy alloc cl ep := (endpoint_policy ep (cl_policies cl) (cl_pods cl) (cl_namespaces cl) alloc).

Lemma endpoint_policy_names ep policies pods namespaces alloc :
  let p := endpoint_policy ep policies pods namespaces alloc in
  EndpointPolicy_host_if p = ""%string ∧ EndpointPolicy_pod_namespace p = CniEndpoint_pod_namespace ep ∧
  EndpointPolicy_pod_name p = CniEndpoint_pod_name ep ∧ EndpointPolicy_audit p = false.
Proof. unfold endpoint_policy. by destruct (_ && _). Qed.

Lemma endpoint_policy_same ep ep' policies pods namespaces alloc :
  CniEndpoint_pod_namespace ep = CniEndpoint_pod_namespace ep' → CniEndpoint_pod_name ep = CniEndpoint_pod_name ep' →
  endpoint_policy ep policies pods namespaces alloc = endpoint_policy ep' policies pods namespaces alloc.
Proof. unfold endpoint_policy. by intros -> ->. Qed.

Lemma push_endpoints_run alloc cl ep ix l (s s' : Control * list (string * Z)) :
  each_of (push_endpoint "default" alloc cl) l s = (s', Ok tt) →
  cl_cnps cl = [] → ports_distinct s.1 →
  pod_port s.1 (CniEndpoint_pod_namespace ep) (CniEndpoint_pod_name ep) = Some ix →
  clean ix (now (c_run s.1)) →
  dp_fib (now (c_run s'.1)) = dp_fib (now (c_run s.1)) ∧
  (∀ ip i, bound (now (c_run s.1)) ip i → bound (now (c_run s'.1)) ip i) ∧
  (enforced ix (pushed_policy alloc cl ep) (now (c_run s.1)) ∨ ep ∈ l ∧ CniEndpoint_pod_name ep ≠ ""%string →
   enforced ix (pushed_policy alloc cl ep) (now (c_run s'.1))).
Proof.
  intros E Hcnp. revert s E. induction l as [|e l IH]; intros s E Hd Hix Hcl.
  { injection E as <-. split_and!; [done..|]. intros [?|[Hin _]]; [done|]. by apply not_elem_of_nil in Hin. }
  apply each_of_cons in E as (s1 & E1 & E2). unfold push_endpoint in E1. case_bool_decide as Hname.
  { injection E1 as <-. destruct (IH s E2) as (? & ? & He); [done..|]. split_and!; [done..|].
    intros [?|[[-> |?]%elem_of_cons ?]]; [by apply He; left|done|by apply He; right]. }
  destruct s as [c x]. apply rpc_inv in E1 as [E1 Ex]. cbn [fst] in *. rewrite agent_policy_default in E1 by done.
  destruct (endpoint_policy_names e (cl_policies cl) (cl_pods cl) (cl_namespaces cl) alloc) as (Nh & Nn & Nm & _).
  destruct (rpc_policy_inv _ _ _ Nh E1) as (ix' & d & Hix' & Hcni & Hcalm & Ho & Hins). rewrite Nn, Nm in Hix'.
  pose proof (calm_kept _ _ Hcalm) as (Hpk & Hid & Hid6).
  assert (ports_distinct s1.1) as Hd1.
  { intros n1 m1 n2 m2 i. rewrite !(pod_port_same c s1.1) by done. apply Hd. }
  assert (pod_port s1.1 (CniEndpoint_pod_namespace ep) (CniEndpoint_pod_name ep) = Some ix) as Hix1.
  { by rewrite (pod_port_same c s1.1). }
  assert (clean ix d) as Hcd by (by apply (clean_kept ix (now (c_run c)))).
  assert (dp_fib (now (c_run s1.1)) = dp_fib (now (c_run c))) as Hfib.
  { rewrite (ok_fib _ _ _ Ho). apply Hcalm. }
  assert (∀ ip i, bound (now (c_run c)) ip i → bound (now (c_run s1.1)) ip i) as Hbd.
  { intros [a|a] i; cbn.
    - by rewrite (ok_identity _ _ _ Ho), Hid.
    - by rewrite (ok_identity6 _ _ _ Ho), Hid6. }
  destruct (decide (ix' = ix)) as [->|Hne].
  - destruct (Hd _ _ _ _ _ Hix Hix') as [Hns Hm].
    rewrite <- (endpoint_policy_same ep e) in Hins by done.
    assert (enforced ix (pushed_policy alloc cl ep) (now (c_run s1.1))) as Hen by (by apply Hins).
    destruct (IH s1 E2) as (Hf & Hb & He); [done..|exact (proj1 Hen)|]. split_and!.
    + by rewrite Hf.
    + intros. by apply Hb, Hbd.
    + intros _. apply He. by left.
  - assert (clean ix (now (c_run s1.1))) as Hcl1 by (by apply (clean_other ix' ix d)).
    destruct (IH s1 E2) as (Hf & Hb & He); [done..|]. split_and!.
    + by rewrite Hf.
    + intros. by apply Hb, Hbd.
    + intros [Hen|[[-> |Hin]%elem_of_cons Hn]]; [|congruence|].
      * apply He. left. apply (installed_other ix' ix _ _ _ _ _ d); [done..|]. by apply (installed_kept _ _ _ _ _ _ (now (c_run c))).
      * apply He. by right.
Qed.
End loops.
