(* ===== verification/AgentProps.v ===== *)
(** * The Kubernetes agent: its property

    From the objects of the API server to the packet: after a reconcile of
    the agent has gone through, the policy program at a local pod's port
    passes a new flow exactly if Kubernetes admits it. *)

From S2P Require Import Prelude.
From S2P Require Import Contract.
From S2P Require Import Common.
From S2P Require Import Bpf.
From S2P Require Import Frames.
From S2P Require Import KernelRef.
From S2P Require Import Maps.
From S2P Require Import Policy.
From S2P Require Import PolicyProps.
From S2P Require Import MapRefs.
From S2P Require Import Dataplane.
From S2P Require Import DpRun.
From S2P Require Import DpPolicy.
From S2P Require Import Cni.
From S2P Require Import L7.
From S2P Require Import Control.
From S2P Require Import CtlRun.
From S2P Require Import Ports.
From S2P Require Import Pods.
From S2P Require Import HostRef.
From S2P Require Import TraceProps.
From S2P Require Import IpText.
From S2P Require Import Pb.
From S2P Require Import Grpc.
From S2P Require Import K8s.
From S2P Require Import NetPol.
From S2P Require Import Agent.
From S2P Require Import NetPolSpec.
From S2P Require Import AgentRun.

(** The pod [dst] of the cluster is the local endpoint [ep], behind port
    [ix] of the global scope, and no two pods share a port. *)
Record local_pod `{HostOps} `{Regex} (c : Control) (cl : Cluster) (ep : pb_CniEndpoint) (dst : Pod) (ix : Z) : Prop := mkLocalPod {
  lp_named : CniEndpoint_pod_name ep ≠ ""%string;
  lp_pod : find_pod (CniEndpoint_pod_namespace ep) (CniEndpoint_pod_name ep) (cl_pods cl) = Some dst;
  lp_ports : ports_named_once dst;
  lp_ix : pod_port c (CniEndpoint_pod_namespace ep) (CniEndpoint_pod_name ep) = Some ix;
  lp_global : @port_vrf (dp_fib (now (c_run c))) ix = 0;
  lp_clean : clean ix (now (c_run c));
  lp_distinct : ports_distinct c }.

(** [ip] is an address of the pod [src]; a pod that reports the same address
    has the same identity. *)
Definition addresses (alloc : Alloc) (cl : Cluster) (src : Pod) (ip : IpAddr) : Prop :=
  (∃ s, s ∈ pod_addresses src ∧ parse_ip s = Some ip) ∧
  ∀ p s, p ∈ cl_pods cl → s ∈ pod_addresses p → parse_ip s = Some ip → pod_identity alloc p = pod_identity alloc src.

Section agent.
Context `{HostOps} `{Regex} `{KernelLaws} `{MapSysLaws}.

Lemma elem_of_identities pods alloc b :
  b ∈ identities pods alloc ↔ ∃ p, p ∈ pods ∧ b.1 ∈ pod_addresses p ∧ b.2 = pod_identity alloc p.
Proof.
  unfold identities. rewrite list_elem_of_bind. setoid_rewrite list_elem_of_fmap. destruct b as [s i]. cbn. split.
  - intros (p & (ip & [= -> ->] & Hip) & Hp). by exists p.
  - intros (p & Hp & Hs & ->). exists p. split; [by exists s|done].
Qed.

(** What a reconcile leaves. *)
Lemma push_policy_run alloc cl endpoints (c c' : Control) last last' ep dst ix :
  push_policy "default" alloc cl endpoints (c, last) = ((c', last'), Ok tt) →
  cl_cnps cl = [] → local_pod c cl ep dst ix → ep ∈ endpoints →
  let d := now (c_run c') in
  enforced ix (endpoint_policy ep (cl_policies cl) (cl_pods cl) (cl_namespaces cl) alloc) d ∧
  @port_vrf (dp_fib d) ix = 0 ∧
  ∀ src ip, src ∈ cl_pods cl → addresses alloc cl src ip → bound d ip (pod_identity alloc src).
Proof.
  intros E Hcnp [Hn Hp Hpo Hix Hv Hcl Hdi] Hin. unfold push_policy in E.
  apply bind_inv_M in E as (s1 & [] & [Hv1 Hb1]%push_identities_run & E).
  apply bind_inv_M in E as (s2 & [] & Hv2%push_cidrs_run & E).
  apply bind_inv_M in E as (s3 & x & [= <- <-] & E).
  apply bind_inv_M in E as (s4 & [] & Hv4%push_cidrs_run & E).
  apply bind_inv_M in E as (s5 & [] & E5 & E). unfold remember, modify in E5.
  destruct s4 as [c4 l4]. injection E5 as <-. cbn [fst] in *.
  destruct Hv1 as [C1 K1], Hv2 as [C2 (K2 & I2 & J2)], Hv4 as [C4 (K4 & I4 & J4)].
  assert (c_cni c4 = c_cni c) as Hc by congruence.
  pose proof (transitivity K1 (transitivity K2 K4)) as K. cbn [fst] in K.
  destruct (push_endpoints_run alloc cl ep ix endpoints _ _ E) as (Hf & Hb & He); [done| | | |].
  - intros n1 m1 n2 m2 i. cbn [fst]. rewrite !(pod_port_same c c4) by done. apply Hdi.
  - cbn [fst]. by rewrite (pod_port_same c).
  - by apply (clean_kept ix (now (c_run c))).
  - cbn [fst] in *. split; [by apply He; right|]. split.
    + cbn zeta. rewrite Hf, (pk_fib _ _ K). done.
    + intros src ip Hsrc [(s & Hs & Hps) Hag]. apply Hb. cbn [fst].
      enough (bound (now (c_run s1.1)) ip (pod_identity alloc src)) as Hbd.
      { destruct ip; cbn in Hbd |- *; congruence. }
      apply Hb1; [by apply (parse_ip_wf s)| |].
      * intros b (p & Hpp & Ha & ->)%elem_of_identities Hpb. by apply (Hag p b.1).
      * right. exists (s, pod_identity alloc src). split; [|done]. apply elem_of_identities. by exists src.
Qed.

Lemma trace_identity_bound d ip id : ip_wf ip → bound d ip id → trace_identity d 0 ip = id.
Proof.
  destruct ip as [a|a]; cbn [bound ip_wf].
  - intros [Hl Hb] E. rewrite trace_identity4 by done. unfold identity4. unfold ipv4_to_map in E. by rewrite E.
  - intros _ E. rewrite trace_identity6. unfold identity6. by rewrite E.
Qed.

(** C37: the agent enforces Kubernetes' network policies. Let a reconcile in
    the default enforcement mode, without Cilium policies, have gone through.
    The policies use what the agent supports: matchLabels selectors, no ipBlock
    peer, TCP and UDP ports in range and no endPort ([plain_policy]). Identities
    tell label sets apart ([separates]; C40), the pod is a local endpoint in
    the global VRF, named port by port, whose rules no failed update left
    unclean ([local_pod]), and the sender's address is its own ([addresses]).
    Then the policy program at the pod's port passes a frame that opens a TCP
    or UDP flow from a pod of the cluster exactly if Kubernetes admits the
    flow, and drops it otherwise; the frame is not touched. *)
Theorem network_policies_enforced alloc cl endpoints (c c' : Control) last last' ep dst ix src src_ip dst_ip proto port w ty :
  push_policy "default" alloc cl endpoints (c, last) = ((c', last'), Ok tt) →
  cl_cnps cl = [] → Forall plain_policy (cl_policies cl) → separates alloc (cl_pods cl) →
  local_pod c cl ep dst ix → ep ∈ endpoints →
  src ∈ cl_pods cl → addresses alloc cl src src_ip →
  rd (pkt w) ETH_TYPE_OFF 2 = Some ty → carries (pkt w) ty src_ip dst_ip proto port → opens_flow w →
  proto ∈ [6; 17] → 1 ≤ port < 2 ^ 16 →
  let d := now (c_run c') in
  ∃ w' act, @ingress_policy _ (dp_fib d) (dp_pol d) ix w = (w', Ok act) ∧
    pkt w' = pkt w ∧ sent w' = sent w ∧ (act = TC_ACT_PIPE ∨ act = TC_ACT_SHOT) ∧
    (act = TC_ACT_PIPE ↔ k8s_allows (cl_namespaces cl) (cl_policies cl) src dst proto port).
Proof.
  intros E Hcnp Hplain Hsep Hlp Hin Hsrc Haddr Hty Hc Ho Hpr Hpo d.
  destruct (push_policy_run _ _ _ _ _ _ _ _ _ _ E Hcnp Hlp Hin) as ([Hcln He] & Hvrf & Hb). fold d in Hcln, He, Hvrf, Hb.
  destruct (@ingress_policy_run _ _ (dp_fib d) (dp_pol d) ix w ty Hty) as (w' & act & Hr & Hp & Hs & Ha & Hi).
  exists w', act. split_and!; [done..|tauto|].
  assert (act = TC_ACT_PIPE ↔ act ≠ TC_ACT_SHOT) as -> by (destruct Ha as [-> | ->]; done).
  rewrite Hi. clear Hi Ha Hr Hp Hs. setoid_rewrite Hvrf. unfold k8s_allows.
  pose proof (policy_enforce (cl_policies cl) (cl_pods cl) (cl_namespaces cl) alloc Hplain ep dst (lp_pod _ _ _ _ _ Hlp)) as Hen.
  set (p := endpoint_policy _ _ _ _ _) in *.
  destruct (EndpointPolicy_enforce p) eqn:Eb.
  2:{ split; [intros _ Hiso; by apply Hen in Hiso|]. intros _ (fl & Efl & Hfl & _). rewrite Efl in He.
      destruct He as (He & _). congruence. }
  assert (isolated (cl_policies cl) dst) as Hiso by by apply Hen.
  destruct (@EP_POLICY (dp_pol d) !! ix) as [fl|] eqn:Efl; [|by destruct He].
  rewrite ex_some. rewrite (denied_frame d ix fl 0 w ty src_ip dst_ip proto port Hc Ho).
  rewrite (trace_identity_bound d src_ip (pod_identity alloc src)).
  2:{ destruct Haddr as [(s & _ & Hps) _]. by apply (parse_ip_wf s). }
  2:{ by apply Hb. }
  destruct (endpoint_policy_names ep (cl_policies cl) (cl_pods cl) (cl_namespaces cl) alloc) as (_ & _ & _ & Hau).
  fold p in Hau. rewrite Hau in He.
  assert (installed ix true (EndpointPolicy_enforce_egress p) false (rule_of <$> EndpointPolicy_rules p)
    (rule_of <$> EndpointPolicy_egress_rules p) d) as Hins.
  { split; [done|]. by rewrite Efl. }
  pose proof (installed_admits ix _ _ _ d fl (pod_identity alloc src) proto port Hins Efl) as Had.
  pose proof (policy_rules_cover (cl_policies cl) (cl_pods cl) (cl_namespaces cl) alloc Hplain Hsep ep dst
    (lp_pod _ _ _ _ _ Hlp) src proto port (lp_ports _ _ _ _ _ Hlp) Hiso Hsrc Hpr Hpo) as Hcov.
  fold p in Hcov. rewrite <- Hcov, <- Had.
  - destruct He as (Hin' & _ & Hau' & _). rewrite Hin', Hau'.
    destruct (decide (@policy_allows (dp_pol d) ix (pod_identity alloc src) (port_to_map port) proto (dir_gen fl POLICY_DIR_INGRESS)));
      naive_solver.
  - pose proof (policy_rules_allow (cl_policies cl) (cl_pods cl) (cl_namespaces cl) alloc ep) as Hall. fold p in Hall.
    rewrite Forall_fmap. eapply Forall_impl; [exact Hall|]. intros r Hr. split; [done|].
    apply Z.mod_pos_bound. lia.
  - unfold in_range. lia.
Qed.
End agent.

(** ** A cluster

    Pod [web] (10.0.0.3, behind port 7) serves [http] on port 80; a policy
    admits the pods labelled [app=client] to it.  Pod [cli] (10.0.0.2) is one. *)
Definition ex_meta (name : string) (labels : Labels) : ObjectMeta :=
  mkObjectMeta (Some name) None (Some "default"%string) (Some labels).
Definition ex_web : Pod :=
  mkPod (ex_meta "web" {["app" := "web"]}%string)
    (Some [mkContainer (Some [mkContainerPort (Some "http"%string) 80])])
    (Some (mkPodStatus (Some ["10.0.0.3"%string]) (Some "10.0.0.3"%string))).
Definition ex_client (app : string) : Pod :=
  mkPod (ex_meta "cli" {["app"%string := app]}) (Some [])
    (Some (mkPodStatus (Some ["10.0.0.2"%string]) (Some "10.0.0.2"%string))).
Definition ex_policy : NetworkPolicy :=
  mkNetworkPolicy (ex_meta "p" ∅) (Some (mkNetworkPolicySpec
    (Some (mkLabelSelector (Some {["app" := "web"]}%string) None))
    (Some [mkNpRule
      (Some [mkNetworkPolicyPeer None None (Some (mkLabelSelector (Some {["app" := "client"]}%string) None))])
      (Some [mkNetworkPolicyPort None (Some (NamedPort "http"%string)) None])])
    None None)).
Definition ex_cluster (app : string) : Cluster := mkCluster [ex_web; ex_client app] [] [ex_policy] [].
Definition ex_endpoint : pb_CniEndpoint := endpoint_to_pb ∅ ex_pod.
Definition ex_daemon : @Control ref_host literal_regex :=
  fresh_control (host_with {["veth7"%string := 7]} []) empty_dp
    (mkStore (mkIpamFile ∅ ∅) {[endpoint_path "c1" "eth0" := ex_pod]} []).
Definition ex_reconcile (app : string) :=
  @push_policy ref_host literal_regex ref_sys "default" ∅ (ex_cluster app) [ex_endpoint] (ex_daemon, []).
Definition ex_passes (app : string) : option Z :=
  let d := now (c_run (ex_reconcile app).1.1) in
  match (@ingress_policy _ (dp_fib d) (dp_pol d) 7 (world_of tcp_fwd)).2 with Ok a => Some a | Err _ => None end.

Lemma ex_plain : Forall plain_policy [ex_policy].
Proof.
  constructor; [|constructor]. intros spec [= <-]. split; [done|]. constructor; [|constructor].
  split; (constructor; [|constructor]); split_and!; try done. by left.
Qed.
Lemma ex_separates : separates ∅ (cl_pods (ex_cluster "client")).
Proof.
  assert ((pod_identity ∅ ex_web =? pod_identity ∅ (ex_client "client")) = false) as Hne%Z.eqb_neq by (vm_compute; reflexivity).
  assert (∀ p, p ∈ [ex_web; ex_client "client"] → (2 <? pod_identity ∅ p) = true) as Hid.
  { intros p [-> | ->%list_elem_of_singleton]%elem_of_cons; vm_compute; reflexivity. }
  change (cl_pods (ex_cluster "client")) with [ex_web; ex_client "client"]. split.
  - intros p q [-> | ->%list_elem_of_singleton]%elem_of_cons [-> | ->%list_elem_of_singleton]%elem_of_cons E;
      [by split|by destruct Hne|symmetry in E; by destruct Hne|by split].
  - intros p Hp. by apply Z.ltb_lt, Hid.
Qed.
Lemma ex_ports_distinct : ports_distinct ex_daemon.
Proof.
  assert (∀ n m ix, pod_port ex_daemon n m = Some ix → n = "default"%string ∧ m = "web"%string) as Hd.
  { intros n m ix. unfold pod_port.
    assert (merge_sort endpoint_le (map_to_list (st_endpoints (c_cni ex_daemon))).*2 = [ex_pod]) as -> by (vm_compute; reflexivity).
    cbn -[bool_decide]. match goal with |- context [if ?b then _ else _] => destruct b eqn:E end; [|done]. intros _.
    by apply andb_true_iff in E as [<-%bool_decide_eq_true <-%bool_decide_eq_true]. }
  intros n1 m1 n2 m2 ix [-> ->]%Hd [-> ->]%Hd. done.
Qed.
Lemma ex_local_pod : local_pod ex_daemon (ex_cluster "client") ex_endpoint ex_web 7.
Proof.
  split; try (vm_compute; reflexivity).
  - done.
  - intros cp cp' name [-> |[]%not_elem_of_nil]%elem_of_cons [-> |[]%not_elem_of_nil]%elem_of_cons _ _. cbn. lia.
  - intros k _ [v Hv]. change ((∅ : gmap PolicyKey Z) !! k = Some v) in Hv. by rewrite lookup_empty in Hv.
  - apply ex_ports_distinct.
Qed.

(** The client's SYN to the named port goes through; relabelled, it is
    dropped. *)
Lemma network_policies_enforced_witness :
  let w := world_of tcp_fwd in
  (ex_reconcile "client").2 = Ok tt ∧ (ex_reconcile "batch").2 = Ok tt ∧
  ex_passes "client" = Some TC_ACT_PIPE ∧ ex_passes "batch" = Some TC_ACT_SHOT ∧
  let d := now (c_run (ex_reconcile "client").1.1) in
  ∃ w' act, @ingress_policy _ (dp_fib d) (dp_pol d) 7 w = (w', Ok act) ∧
    pkt w' = pkt w ∧ sent w' = sent w ∧ (act = TC_ACT_PIPE ∨ act = TC_ACT_SHOT) ∧
    (act = TC_ACT_PIPE ↔ k8s_allows [] [ex_policy] (ex_client "client") ex_web 6 80).
Proof.
  cbn zeta. do 4 (split; [vm_compute; reflexivity|]).
  apply (@network_policies_enforced ref_host literal_regex _ _ ref_sys ref_sys_laws ∅ (ex_cluster "client") [ex_endpoint]
    ex_daemon (ex_reconcile "client").1.1 [] (ex_reconcile "client").1.2 ex_endpoint ex_web 7 (ex_client "client")
    (V4 [10; 0; 0; 2]) (V4 [10; 0; 0; 3]) 6 80 (world_of tcp_fwd) [8; 0]).
  - rewrite <- surjective_pairing. apply ok_pair. vm_compute. reflexivity.
  - reflexivity.
  - apply ex_plain.
  - apply ex_separates.
  - apply ex_local_pod.
  - by left.
  - by right; left.
  - split; [exists "10.0.0.2"%string; split; [by left|vm_compute; reflexivity]|].
    intros p s [-> | ->%list_elem_of_singleton]%elem_of_cons; [|done].
    intros [-> |[]%not_elem_of_nil]%elem_of_cons. vm_compute. discriminate.
  - vm_compute. reflexivity.
  - split; [reflexivity|]. split; [reflexivity|]. split; [repeat constructor; unfold is_byte; lia|].
    exists (of_le [18; 52]). vm_compute. reflexivity.
  - split; intros k _; apply lookup_empty.
  - by left.
  - lia.
Defined.
