(* ===== verification/SvcRun.v ===== *)
(** * Running the service task

    What one accepted call of the service task leaves in the maps, and what
    a whole round does: the services it programs, those it withdraws, and
    those it leaves alone. *)

From S2P Require Import Prelude.
From S2P Require Import Contract.
From S2P Require Import Bpf.
From S2P Require Import Frames.
From S2P Require Import Maps.
From S2P Require Import MapRefs.
From S2P Require Import Dataplane.
From S2P Require Import DpRun.
From S2P Require Import L7.
From S2P Require Import Control.
From S2P Require Import CtlRun.
From S2P Require Import Overlay.
From S2P Require Import IpText.
From S2P Require Import Pb.
From S2P Require Import Grpc.
From S2P Require Import K8s.
From S2P Require Import NetPol.
From S2P Require Import Agent.
From S2P Require Import AgentRun.

(** ** What the maps say of a service *)

Definition svc_key (k : SvcKey) : ServiceKey := mkServiceKey (ipv4_to_map k.1.1) (port_to_map k.1.2) k.2.
Definition svc_entry (k : SvcKey) (s : Svc) : ServiceInfo :=
  svc_info (svc_id k) (length (backend_list s)) (svc_affinity s).

(** The data plane balances [k] over exactly the backends of [s]. *)
Definition loaded (d : Dp) (k : SvcKey) (s : Svc) : Prop :=
  @SERVICES (dp_l4 d) !! svc_key k = Some (svc_entry k s) ∧
  ∀ i b, backend_list s !! i = Some b →
    @BACKENDS (dp_l4 d) !! mkBackendKey (svc_id k) (Z.of_nat i) = Some (mkBackend (ipv4_to_map b.1) (port_to_map b.2) 0).

(** An entry at [k] is the agent's. *)
Definition owned (d : Dp) (k : SvcKey) : Prop :=
  ∀ info, @SERVICES (dp_l4 d) !! svc_key k = Some info → si_svc_id info = svc_id k.

Definition wf_addr (a : bytes) : Prop := length a = 4%nat ∧ Forall is_byte a.
Definition wf_key (k : SvcKey) : Prop := wf_addr k.1.1 ∧ u16 k.1.2 ∧ (k.2 = 6 ∨ k.2 = 17).
Definition wf_svc (s : Svc) : Prop :=
  (∀ b, b ∈ svc_backends s → wf_addr b.1 ∧ u16 b.2) ∧ (Z.of_nat (length (backend_list s)) < 2 ^ 16).

Lemma svc_key_inj k k' : wf_key k → wf_key k' → svc_key k = svc_key k' → k = k'.
Proof.
  destruct k as [[v p] q], k' as [[v' p'] q']. intros ([? ?] & ? & _) ([? ?] & ? & _) [= Ev Ep ->]. cbn in *.
  apply ipv4_to_map_inj in Ev; [|done..]. apply port_to_map_inj in Ep; [|done..]. by subst.
Qed.

(** ** One call *)

(** The slots of the services other than [k]'s. *)
Definition slots_kept (k : SvcKey) (d d' : Dp) : Prop :=
  ∀ b, bk_svc_id b ≠ svc_id k → @BACKENDS (dp_l4 d') !! b = @BACKENDS (dp_l4 d) !! b.

(** [k] is withdrawn, or programmed. *)
Definition withdrawn (k : SvcKey) (d d' : Dp) : Prop :=
  @SERVICES (dp_l4 d') = delete (svc_key k) (@SERVICES (dp_l4 d)) ∧ slots_kept k d d'.
Definition programs (k : SvcKey) (s : Svc) (d d' : Dp) : Prop :=
  @SERVICES (dp_l4 d') = <[svc_key k := svc_entry k s]> (@SERVICES (dp_l4 d)) ∧ loaded d' k s ∧ slots_kept k d d'.

Section dp.
Context `{MapSysLaws}.

(** The slots a loop fills. *)
Abbreviation slots id vf := (put_all (λ n _, mkBackendKey id (wrap 16 n)) (λ _ x, vf x)).

Lemma slots_below {A V} id (vf : A → V) i xs m n : 0 ≤ n < i → i + Z.of_nat (length xs) ≤ 2 ^ 16 →
  slots id vf i xs m !! mkBackendKey id n = m !! mkBackendKey id n.
Proof.
  revert i m. induction xs as [|x xs IH]; intros i m Hn Hl; [done|]. cbn [put_all length] in *.
  rewrite IH by lia. apply lookup_insert_ne. intros [= E]. unfold wrap in E. rewrite Z.mod_small in E by lia. lia.
Qed.

Lemma slots_lookup {A V} id (vf : A → V) i xs m j x : 0 ≤ i → i + Z.of_nat (length xs) ≤ 2 ^ 16 → xs !! j = Some x →
  slots id vf i xs m !! mkBackendKey id (i + Z.of_nat j) = Some (vf x).
Proof.
  revert i j m. induction xs as [|y xs IH]; intros i j m Hi Hl Hj; [done|]. cbn [put_all length] in *.
  destruct j as [|j]; cbn in Hj.
  - injection Hj as ->. rewrite Z.add_0_r, slots_below by lia.
    unfold wrap. rewrite Z.mod_small by lia. apply lookup_insert_eq.
  - replace (i + Z.of_nat (S j)) with (i + 1 + Z.of_nat j) by lia. apply IH; [lia|lia|done].
Qed.

Lemma service_add_programs k s r r' : wf_svc s → owned (now r) k →
  service_add (svc_id k) k.1.1 k.1.2 k.2 (backend_list s) (svc_affinity s) r = (r', Ok tt) →
  programs k s (now r) (now r').
Proof.
  intros [_ Hlen] Hown. unfold service_add. rewrite bind_dp. fold (svc_key k). fold (svc_entry k s).
  intros (r1 & [] & E1%hash_put_inv & E)%bind_inv_ctl. apply bind_inv_ctl in E as (r2 & [] & E2 & E3).
  apply (for_each_put m_BACKENDS _ (λ n _, mkBackendKey (svc_id k) (wrap 16 n))
    (λ _ b, mkBackend (ipv4_to_map b.1) (port_to_map b.2) 0)) in E2; [|by intros n [ip p]].
  set (vf := λ b : bytes * Z, mkBackend (ipv4_to_map b.1) (port_to_map b.2) 0) in *.
  assert (@SERVICES (dp_l4 (now r2)) = <[svc_key k := svc_entry k s]> (@SERVICES (dp_l4 (now r)))) as S2.
  { rewrite E2, E1. done. }
  assert (∀ i b, backend_list s !! i = Some b →
    @BACKENDS (dp_l4 (now r2)) !! mkBackendKey (svc_id k) (Z.of_nat i) = Some (vf b)) as B2.
  { intros i b Hb. rewrite E2. cbn. replace (Z.of_nat i) with (0 + Z.of_nat i) by lia. apply slots_lookup; [lia|lia|done]. }
  assert (∀ b, bk_svc_id b ≠ svc_id k → @BACKENDS (dp_l4 (now r2)) !! b = @BACKENDS (dp_l4 (now r)) !! b) as K2.
  { intros b Hb. rewrite E2. cbn. rewrite put_all_None by (intros ? ? _ <-; by apply Hb). by rewrite E1. }
  change (view m_SERVICES (now r)) with (@SERVICES (dp_l4 (now r))) in E3.
  destruct (@SERVICES (dp_l4 (now r)) !! svc_key k) as [old|] eqn:Eold.
  2:{ injection E3 as <-. split; [done|]. split; [|done]. split; [by rewrite S2, lookup_insert_eq|done]. }
  destruct (for_each_drop m_BACKENDS (λ _ slot, hash_drop m_BACKENDS (mkBackendKey (si_svc_id old) slot))
    (λ _ slot, mkBackendKey (si_svc_id old) slot) 0
    (seqZ (wrap 16 (Z.of_nat (length (backend_list s)))) (si_backend_count old - wrap 16 (Z.of_nat (length (backend_list s))))) r2
    ltac:(done)) as (r3 & Er & En).
  rewrite Er in E3. injection E3 as <-.
  assert (@SERVICES (dp_l4 (now r3)) = @SERVICES (dp_l4 (now r2))) as S3 by by rewrite En.
  assert (∀ b, @BACKENDS (dp_l4 (now r3)) !! b ≠ @BACKENDS (dp_l4 (now r2)) !! b →
    bk_svc_id b = svc_id k ∧ Z.of_nat (length (backend_list s)) ≤ bk_slot b) as K3.
  { intros b Hb. rewrite En in Hb. cbn in Hb. rewrite foldl_delete in Hb. case_bool_decide as Hin; [|done].
    apply elem_of_lookup_imap in Hin as (j & slot & -> & Hslot). apply list_elem_of_lookup_2, elem_of_seqZ in Hslot.
    unfold wrap in Hslot. rewrite Z.mod_small in Hslot by lia. cbn. split; [by apply Hown|lia]. }
  split; [by rewrite S3|]. split; [split|].
  - by rewrite S3, S2, lookup_insert_eq.
  - intros i b Hb. fold (vf b). rewrite <- (B2 i b) by done.
    destruct (decide (@BACKENDS (dp_l4 (now r3)) !! mkBackendKey (svc_id k) (Z.of_nat i) =
                      @BACKENDS (dp_l4 (now r2)) !! mkBackendKey (svc_id k) (Z.of_nat i))) as [|Hne]; [done|].
    apply K3 in Hne as [_ Hge]. cbn in Hge. apply lookup_lt_Some in Hb. lia.
  - intros b Hb. rewrite <- K2 by done.
    destruct (decide (@BACKENDS (dp_l4 (now r3)) !! b = @BACKENDS (dp_l4 (now r2)) !! b)) as [|Hne]; [done|].
    by apply K3 in Hne as [? _].
Qed.

Lemma service_del_withdraws k r r' : owned (now r) k →
  service_del k.1.1 k.1.2 k.2 r = (r', Ok tt) → withdrawn k (now r) (now r').
Proof.
  intros Hown. unfold service_del. rewrite bind_dp. fold (svc_key k).
  change (view m_SERVICES (now r)) with (@SERVICES (dp_l4 (now r))).
  destruct (@SERVICES (dp_l4 (now r)) !! svc_key k) as [info|] eqn:E.
  2:{ intros [= <-]. split; [|done]. by rewrite delete_id. }
  intros (r1 & [] & E1 & E2)%bind_inv_ctl.
  destruct (for_each_drop m_BACKENDS (λ _ slot, hash_drop m_BACKENDS (mkBackendKey (si_svc_id info) slot))
    (λ _ slot, mkBackendKey (si_svc_id info) slot) 0 (seqZ 0 (si_backend_count info)) r ltac:(done)) as (r3 & Er & En).
  rewrite Er in E1. injection E1 as <-. rewrite hash_del_run in E2. case_bool_decide; [|done]. injection E2 as <-.
  split; [cbn; by rewrite En|]. intros b Hb. cbn. rewrite En. cbn. rewrite foldl_delete. case_bool_decide as Hin; [|done].
  apply elem_of_lookup_imap in Hin as (j & slot & -> & _). cbn in Hb. by rewrite (Hown info) in Hb.
Qed.
End dp.

(** ** Requests *)

Section requests.
Context `{HostOps} `{Regex} `{MapSysLaws}.

Lemma ip_proto_str q : q = 6 ∨ q = 17 → ip_proto (proto_str q) = Some q.
Proof. by intros [-> | ->]. Qed.
Lemma wrap_u16 p : u16 p → wrap 16 p = p.
Proof. intros Hp. unfold wrap. apply Z.mod_small. exact Hp. Qed.

Lemma mapM_backends l : Forall (λ b : bytes * Z, wf_addr b.1 ∧ u16 b.2) l →
  mapM (backend_of parse_ipv4) ((λ b : bytes * Z, mk_pb_Backend (show_ipv4 b.1) b.2) <$> l) = Some l.
Proof.
  intros Hl. apply mapM_Some, Forall2_fmap_l, Forall_Forall2_diag. eapply Forall_impl; [exact Hl|].
  intros [a p] [[Ha Hb] Hp]. unfold backend_of. cbn [compose Backend_ip Backend_port fst snd] in *.
  rewrite parse_show_ipv4, wrap_u16 by done. done.
Qed.

Lemma wf_backends s : wf_svc s → Forall (λ b : bytes * Z, wf_addr b.1 ∧ u16 b.2) (backend_list s).
Proof.
  intros [Hb _]. apply Forall_forall. intros b Hin. apply Hb. unfold backend_list in Hin.
  by apply elem_of_sort_dedup, elem_of_elements in Hin.
Qed.

Lemma rpc_add_inv k s (c c' : Control) : wf_key k → wf_svc s → owned (now (c_run c)) k →
  rpc_add_service (service_request k s) c = (c', Ok tt) → programs k s (now (c_run c)) (now (c_run c')).
Proof.
  destruct k as [[vip port] proto]. intros ([Hl Hb] & Hp & Hq) Hs Hown. cbn [fst snd] in *. unfold rpc_add_service, service_request.
  cbn [Service_proto Service_vip Service_backends Service_port Service_svc_id Service_affinity].
  rewrite ip_proto_str, parse_ip_show_ipv4 by done.
  rewrite (mapM_backends (backend_list s)) by by apply wf_backends. rewrite wrap_u16 by done.
  intros (c1 & q & [= <- <-] & E)%bind_inv_M. apply bind_inv_M in E as (c2 & v & [= <- <-] & E).
  apply bind_inv_M in E as (c3 & bs & [= <- <-] & E). apply call_inv, on_dp_inv in E as (r & E & ->). cbn.
  by apply (service_add_programs (vip, port, proto)).
Qed.

Lemma rpc_del_inv k (c c' : Control) : wf_key k → owned (now (c_run c)) k →
  rpc_del_service (service_del_request k) c = (c', Ok tt) → withdrawn k (now (c_run c)) (now (c_run c')).
Proof.
  destruct k as [[vip port] proto]. intros ([Hl Hb] & Hp & Hq) Hown. cbn [fst snd] in *. unfold rpc_del_service, service_del_request.
  cbn [ServiceDel_proto ServiceDel_vip ServiceDel_port].
  rewrite ip_proto_str, parse_ip_show_ipv4, wrap_u16 by done.
  intros (c1 & q & [= <- <-] & E)%bind_inv_M. apply bind_inv_M in E as (c2 & v & [= <- <-] & E).
  apply call_inv, on_dp_inv in E as (r & E & ->). cbn. by apply (service_del_withdraws (vip, port, proto)).
Qed.
End requests.

(** ** A round *)

Section round.
Context `{HostOps} `{Regex} `{MapSysLaws}.

(** The services at stake, which the agent alone programs. *)
Context (K : SvcKey → Prop) (Kwf : ∀ k, K k → wf_key k) (Kid : ∀ k k', K k → K k' → svc_id k = svc_id k' → k = k').

(** What is programmed is loaded. *)
Record synced (d : Dp) (programmed : Desired) : Prop := mkSynced {
  sy_owned : ∀ k, K k → owned d k;
  sy_loaded : ∀ k s, programmed !! k = Some s → loaded d k s;
  sy_known : ∀ k, is_Some (programmed !! k) → K k }.

(** Services not at stake, and their slots, stay. *)
Definition bystanders (d d' : Dp) : Prop :=
  (∀ sk, (∀ k, K k → svc_key k ≠ sk) → @SERVICES (dp_l4 d') !! sk = @SERVICES (dp_l4 d) !! sk) ∧
  (∀ b, (∀ k, K k → svc_id k ≠ bk_svc_id b) → @BACKENDS (dp_l4 d') !! b = @BACKENDS (dp_l4 d) !! b).
#[local] Instance bystanders_preorder : PreOrder bystanders.
Proof.
  split; [by split|]. intros d1 d2 d3 [A1 B1] [A2 B2]. split; intros x Hx; [rewrite A2, A1|rewrite B2, B1]; done.
Qed.

Lemma loaded_other k k' s d d' : K k → K k' → k' ≠ k →
  @SERVICES (dp_l4 d') !! svc_key k' = @SERVICES (dp_l4 d) !! svc_key k' → slots_kept k d d' → loaded d k' s → loaded d' k' s.
Proof.
  intros Hk Hk' Hne Hs Hb [Hl Hbs]. split; [by rewrite Hs|]. intros i b Hi. rewrite Hb; [by apply Hbs|].
  cbn. intros E. apply Hne. by apply Kid.
Qed.

Lemma svc_key_ne k k' : K k → K k' → k' ≠ k → svc_key k ≠ svc_key k'.
Proof. intros Hk Hk' Hne E. apply Hne. symmetry. apply svc_key_inj; auto. Qed.

Lemma programs_synced k s d d' p : K k → programs k s d d' → synced d p →
  synced d' (<[k := s]> p) ∧ bystanders d d'.
Proof.
  intros Hk (Hs & Hl & Hb) [Ho Hp Hkn]. split; [split|].
  - intros k' Hk' info. rewrite Hs. destruct (decide (k' = k)) as [->|Hne].
    + rewrite lookup_insert_eq. by intros [= <-].
    + rewrite lookup_insert_ne by by apply svc_key_ne. by apply Ho.
  - intros k' s'. destruct (decide (k' = k)) as [->|Hne].
    + rewrite lookup_insert_eq. by intros [= <-].
    + rewrite lookup_insert_ne by done. intros Hk'. assert (K k') by eauto.
      apply (loaded_other k k' s' d); [done..| |done|by apply Hp]. rewrite Hs. by apply lookup_insert_ne, svc_key_ne.
  - intros k' [s' Hk']. destruct (decide (k' = k)) as [->|Hne]; [done|]. rewrite lookup_insert_ne in Hk' by done. eauto.
  - split; [|intros b Hb'; apply Hb; intros E; by apply (Hb' k)]. intros sk Hsk. rewrite Hs.
    by apply lookup_insert_ne, Hsk.
Qed.

Lemma withdrawn_synced k d d' p : K k → withdrawn k d d' → synced d p →
  synced d' (delete k p) ∧ bystanders d d'.
Proof.
  intros Hk (Hs & Hb) [Ho Hp Hkn]. split; [split|].
  - intros k' Hk' info. rewrite Hs. intros [_ Hi]%lookup_delete_Some. by apply Ho.
  - intros k' s' [Hne Hk']%lookup_delete_Some. assert (K k') by eauto.
    apply (loaded_other k k' s' d); [done..| |done|by apply Hp]. rewrite Hs. by apply lookup_delete_ne, svc_key_ne.
  - intros k' [s' [_ Hk']%lookup_delete_Some]. eauto.
  - split; [|intros b Hb'; apply Hb; intros E; by apply (Hb' k)]. intros sk Hsk. rewrite Hs.
    by apply lookup_delete_ne, Hsk.
Qed.

Lemma push_services_run (desired : Desired) (l : list SvcKey) (s s' : Control * Desired) :
  (∀ k, k ∈ l → K k) → (∀ k v, desired !! k = Some v → wf_svc v) →
  each_of (push_service desired) l s = (s', Ok tt) → synced (now (c_run s.1)) s.2 →
  synced (now (c_run s'.1)) s'.2 ∧ bystanders (now (c_run s.1)) (now (c_run s'.1)) ∧
  ∀ k, s'.2 !! k = if decide (k ∈ l ∧ is_Some (desired !! k)) then desired !! k else s.2 !! k.
Proof.
  intros Hl Hwf. revert s. induction l as [|k l IH]; intros s.
  - intros [= <-] Hsy. split; [done|]. split; [reflexivity|]. intros k.
    rewrite decide_False; [done|]. intros [Hin _]. by apply not_elem_of_nil in Hin.
  - intros (s1 & E1 & E2)%each_of_cons Hsy.
    assert (synced (now (c_run s1.1)) s1.2 ∧ bystanders (now (c_run s.1)) (now (c_run s1.1)) ∧
      ∀ k', s1.2 !! k' = if decide (k' = k ∧ is_Some (desired !! k)) then desired !! k else s.2 !! k') as (Hsy1 & Hby1 & Hp1).
    { unfold push_service in E1. apply bind_inv_M in E1 as (s0 & x & [= <- <-] & E1).
      destruct (desired !! k) as [svc|] eqn:Ek.
      2:{ injection E1 as <-. split; [done|]. split; [reflexivity|]. intros k'. rewrite decide_False; [done|]. by intros [_ [? ?]]. }
      case_bool_decide as Hsame.
      { injection E1 as <-. split; [done|]. split; [reflexivity|]. intros k'. case_decide as Hd; [|done].
        by destruct Hd as [-> _]. }
      apply bind_inv_M in E1 as (s2 & [] & E1 & [= <-]). destruct s as [c p]. apply rpc_inv in E1 as [E1 Ep].
      assert (K k) as Hk by (by apply Hl; left). apply rpc_add_inv in E1; [|by auto|by eauto|by apply (sy_owned _ _ Hsy)].
      destruct s2 as [c2 p2]. cbn [fst snd] in *. subst p2.
      destruct (programs_synced k svc _ _ p Hk E1 Hsy) as [? ?]. split; [done|]. split; [done|]. intros k'.
      case_decide as Hd; [destruct Hd as [-> _]; apply lookup_insert_eq|]. apply lookup_insert_ne. intros <-. by apply Hd. }
    apply IH in E2 as (Hsy2 & Hby2 & Hp2); [|by intros; apply Hl; right|done]. split; [done|]. split; [by etransitivity|].
    intros k'. rewrite Hp2, Hp1. pose proof (elem_of_cons l k' k) as Hin. clear -Hin. repeat case_decide; naive_solver.
Qed.

Lemma drop_services_run (l : list SvcKey) (s s' : Control * Desired) :
  (∀ k, k ∈ l → K k) → each_of drop_service l s = (s', Ok tt) → synced (now (c_run s.1)) s.2 →
  synced (now (c_run s'.1)) s'.2 ∧ bystanders (now (c_run s.1)) (now (c_run s'.1)) ∧
  (∀ sk, @SERVICES (dp_l4 (now (c_run s.1))) !! sk = None ∨ (∃ k, k ∈ l ∧ svc_key k = sk) →
     @SERVICES (dp_l4 (now (c_run s'.1))) !! sk = None) ∧
  ∀ k, s'.2 !! k = if decide (k ∈ l) then None else s.2 !! k.
Proof.
  intros Hl. revert s. induction l as [|k l IH]; intros s.
  - intros [= <-] Hsy. split; [done|]. split; [reflexivity|]. split.
    + intros sk [?|(k & Hin & _)]; [done|]. by apply not_elem_of_nil in Hin.
    + intros k. rewrite decide_False; [done|]. apply not_elem_of_nil.
  - intros (s1 & E1 & E2)%each_of_cons Hsy. unfold drop_service in E1.
    apply bind_inv_M in E1 as (s2 & [] & E1 & [= <-]). destruct s as [c p]. apply rpc_inv in E1 as [E1 Ep].
    assert (K k) as Hk by (by apply Hl; left). apply rpc_del_inv in E1; [|by auto|by apply (sy_owned _ _ Hsy)].
    destruct s2 as [c2 p2]. cbn [fst snd] in *. subst p2.
    destruct (withdrawn_synced k _ _ p Hk E1 Hsy) as [Hsy1 Hby1].
    apply IH in E2 as (Hsy2 & Hby2 & Hn2 & Hp2); [|by intros; apply Hl; right|done]. cbn [fst snd] in *.
    split; [done|]. split; [by etransitivity|]. destruct E1 as [Es _]. split.
    + intros sk Hsk. apply Hn2. rewrite Es. destruct Hsk as [Hsk|(k' & [-> |Hin]%elem_of_cons & <-)].
      * left. apply lookup_delete_None. by right.
      * left. apply lookup_delete_eq.
      * right. by exists k'.
    + intros k'. rewrite Hp2. destruct (decide (k' = k)) as [->|Hne].
      * rewrite lookup_delete_eq, (decide_True (P := k ∈ k :: l)) by (by left). by case_decide.
      * rewrite lookup_delete_ne by done. pose proof (elem_of_cons l k' k) as Hin. clear -Hin Hne. repeat case_decide; tauto.
Qed.

Lemma elem_of_desired_keys (desired : Desired) k : k ∈ desired_keys desired ↔ is_Some (desired !! k).
Proof.
  unfold desired_keys, key_list. rewrite elem_of_sort_dedup, list_elem_of_fmap. split.
  - intros ([k' v] & -> & Hin). apply elem_of_map_to_list in Hin. by exists v.
  - intros [v Hv]. exists (k, v). split; [done|]. by apply elem_of_map_to_list.
Qed.
Lemma elem_of_stale_keys (programmed desired : Desired) k :
  k ∈ stale_keys programmed desired ↔ is_Some (programmed !! k) ∧ desired !! k = None.
Proof.
  unfold stale_keys, key_list. rewrite elem_of_sort_dedup, list_elem_of_filter, <- elem_of_desired_keys.
  unfold desired_keys, key_list. rewrite elem_of_sort_dedup. tauto.
Qed.

(** A round that goes through. *)
Lemma apply_services_run (desired : Desired) (c c' : Control) (programmed programmed' : Desired) :
  (∀ k s, desired !! k = Some s → K k ∧ wf_svc s) →
  synced (now (c_run c)) programmed →
  apply_services desired (c, programmed) = ((c', programmed'), Ok tt) →
  programmed' = desired ∧ synced (now (c_run c')) desired ∧ bystanders (now (c_run c)) (now (c_run c')) ∧
  ∀ k, is_Some (programmed !! k) → desired !! k = None → @SERVICES (dp_l4 (now (c_run c'))) !! svc_key k = None.
Proof.
  intros Hwf Hsy E. unfold apply_services in E. apply bind_inv_M in E as (s1 & [] & E1 & E).
  apply push_services_run in E1 as (Hsy1 & Hby1 & Hp1); [| |by intros; eapply Hwf|done].
  2:{ intros k [s Hk]%elem_of_desired_keys. by eapply Hwf. }
  apply bind_inv_M in E as (s2 & x & [= <- <-] & E). cbn [fst snd] in *.
  assert (∀ k, s1.2 !! k = match desired !! k with Some s => Some s | None => programmed !! k end) as Hp.
  { intros k. rewrite Hp1. case_decide as Hd; [destruct Hd as [_ [s ->]]; done|].
    destruct (desired !! k) as [s|] eqn:Ek; [|done]. destruct Hd. split; [|by eauto]. apply elem_of_desired_keys. by rewrite Ek. }
  apply drop_services_run in E as (Hsy2 & Hby2 & Hn2 & Hp2); [| |done].
  2:{ intros k [[s Hk] _]%elem_of_stale_keys. apply (sy_known _ _ Hsy1). by exists s. }
  cbn [fst snd] in *.
  assert (programmed' = desired) as ->.
  { apply map_eq. intros k. rewrite Hp2. case_decide as Hd.
    - apply elem_of_stale_keys in Hd as [_ ->]. done.
    - rewrite Hp. destruct (desired !! k) as [s|] eqn:Ek; [done|]. apply eq_None_not_Some. intros Hs. apply Hd.
      apply elem_of_stale_keys. split; [|done]. by rewrite Hp, Ek. }
  split; [done|]. split; [done|]. split; [by etransitivity|]. intros k Hk Hdk. apply Hn2. right. exists k.
  split; [|done]. apply elem_of_stale_keys. split; [|done]. by rewrite Hp, Hdk.
Qed.
End round.
