(* ===== verification/SvcProps.v ===== *)
(** * The service task: its property

    What Kubernetes means by a service, stated on the objects alone: the
    addresses and ports a service claims, and the ready endpoints behind
    them.  A round of the task that goes through leaves the data plane
    balancing every claimed address that has a ready endpoint over exactly
    those, and none of the others it remembers programming; a resync
    remembers none. *)

From S2P Require Import Prelude.
From S2P Require Import Contract.
From S2P Require Import Bpf.
From S2P Require Import Frames.
From S2P Require Import Maps.
From S2P Require Import MapRefs.
From S2P Require Import Dataplane.
From S2P Require Import DpRun.
From S2P Require Import DpPolicy.
From S2P Require Import Cni.
From S2P Require Import L7.
From S2P Require Import Control.
From S2P Require Import Ports.
From S2P Require Import HostRef.
From S2P Require Import IpText.
From S2P Require Import Pb.
From S2P Require Import Grpc.
From S2P Require Import K8s.
From S2P Require Import NetPol.
From S2P Require Import Agent.
From S2P Require Import AgentRun.
From S2P Require Import SvcRun.

(** ** What a service promises *)

Section spec.
Context (services : list K8sService) (slices : list EndpointSlice) (node_ip : option bytes).

Definition svc_ns (svc : K8sService) : string := default "default"%string (md_namespace (ksvc_metadata svc)).
Definition svc_name (svc : K8sService) : string := default ""%string (md_name (ksvc_metadata svc)).

(** A ready endpoint of the service answers on the target of port [sp]. *)
Definition ready_backend (svc : K8sService) (sp : ServicePort) (proto : Z) (b : bytes * Z) : Prop :=
  ∃ slice ep text, slice ∈ slices ∧ slice_of (svc_ns svc) (svc_name svc) slice = true ∧
    slice_target sp proto slice = Some b.2 ∧ ep ∈ default [] (sli_endpoints slice) ∧ sle_ready ep ≠ Some false ∧
    text ∈ sle_addresses ep ∧ parse_ipv4 text = Some b.1.

(** Port [sp] of the service is reached at [k]: at its cluster address, or at
    a node port of this node. *)
Definition claims (svc : K8sService) (sp : ServicePort) (k : SvcKey) : Prop :=
  svc ∈ services ∧ ∃ spec vip, ksvc_spec svc = Some spec ∧ service_vip spec = Some vip ∧
    sp ∈ default [] (ss_ports spec) ∧ svc_proto (sp_protocol sp) = Some k.2 ∧ 1 ≤ sp_port sp < 2 ^ 16 ∧
    (k.1 = (vip, sp_port sp) ∨
     ∃ node np, node_ip = Some node ∧ sp_node_port sp = Some np ∧ 1 ≤ np < 2 ^ 16 ∧ k.1 = (node, np)).

(** [s] is a faithful account of a service port claiming [k]. *)
Definition accounts (k : SvcKey) (s : Svc) : Prop :=
  ∃ svc sp, claims svc sp k ∧ (∀ b, b ∈ svc_backends s ↔ ready_backend svc sp k.2 b) ∧
    (∃ b, b ∈ svc_backends s) ∧
    (svc_affinity s = true ↔ ∃ spec, ksvc_spec svc = Some spec ∧ ss_session_affinity spec = Some "ClientIP"%string).

(** Somebody answers at [k]. *)
Definition served (k : SvcKey) : Prop := ∃ svc sp b, claims svc sp k ∧ ready_backend svc sp k.2 b.

(** ** What is computed *)

Lemma elem_of_backends svc sp proto b :
  b ∈ (list_to_set (s ← filter (λ s, slice_of (svc_ns svc) (svc_name svc) s = true) slices; slice_backends sp proto s) : gset (bytes * Z)) ↔
  ready_backend svc sp proto b.
Proof.
  rewrite elem_of_list_to_set, list_elem_of_bind. unfold ready_backend. split.
  - intros (slice & Hb & [Hof Hin]%list_elem_of_filter). unfold slice_backends in Hb.
    destruct (slice_target sp proto slice) as [t|] eqn:Et; [|by apply not_elem_of_nil in Hb].
    apply list_elem_of_bind in Hb as (ep & Hb & Hep). case_bool_decide; [by apply not_elem_of_nil in Hb|].
    apply list_elem_of_fmap in Hb as (ip & -> & (text & Ht & Hp)%list_elem_of_omap).
    exists slice, ep, text. done.
  - intros (slice & ep & text & Hin & Hof & Et & Hep & Hr & Ht & Hp). exists slice. split; [|by apply list_elem_of_filter].
    unfold slice_backends. rewrite Et. apply list_elem_of_bind. exists ep. split; [|done]. rewrite bool_decide_false by done.
    apply list_elem_of_fmap. exists b.1. split; [by destruct b|]. apply list_elem_of_omap. by exists text.
Qed.

(** The table accounts for its entries, and holds what was served by the
    service ports seen. *)
Definition sound (out : Desired) : Prop := ∀ k s, out !! k = Some s → accounts k s.
Definition covers (seen : K8sService → ServicePort → Prop) (out : Desired) : Prop :=
  ∀ svc sp k b, seen svc sp → claims svc sp k → ready_backend svc sp k.2 b → is_Some (out !! k).

Lemma u16_of_Some n m : u16_of n = Some m ↔ m = n ∧ 0 ≤ n < 2 ^ 16.
Proof. unfold u16_of, in_range. case_bool_decide; naive_solver. Qed.

Lemma port_step_spec svc spec vip sp out :
  let mine := filter (λ s, slice_of (svc_ns svc) (svc_name svc) s = true) slices in
  let affinity := bool_decide (ss_session_affinity spec = Some "ClientIP"%string) in
  let out' := service_port_step mine node_ip vip affinity out sp in
  svc ∈ services → ksvc_spec svc = Some spec → service_vip spec = Some vip → sp ∈ default [] (ss_ports spec) →
  sound out → sound out' ∧ (∀ k, is_Some (out !! k) → is_Some (out' !! k)) ∧ covers (λ svc' sp', svc' = svc ∧ sp' = sp) out'.
Proof.
  intros mine affinity out' Hsvc Hspec Hvip Hsp Hso. unfold out', service_port_step.
  destruct (svc_proto (sp_protocol sp)) as [proto|] eqn:Epr.
  2:{ split; [done|]. split; [done|]. intros ? ? k b [-> ->] (_ & spec' & v' & _ & _ & _ & Hpr & _). congruence. }
  destruct (u16_of (sp_port sp)) as [port|] eqn:Epo.
  2:{ split; [done|]. split; [done|]. intros ? ? k b [-> ->] (_ & spec' & v' & _ & _ & _ & _ & Hr & _).
      assert (u16_of (sp_port sp) = Some (sp_port sp)) by (apply u16_of_Some; lia). congruence. }
  apply u16_of_Some in Epo as [-> Hpo]. destruct (Z.eqb_spec (sp_port sp) 0) as [E0|E0].
  { split; [done|]. split; [done|]. intros ? ? k b [-> ->] (_ & spec' & v' & _ & _ & _ & _ & Hr & _). lia. }
  set (backends := list_to_set _ : gset (bytes * Z)).
  assert (∀ b, b ∈ backends ↔ ready_backend svc sp proto b) as Hbk by (intros b; apply elem_of_backends).
  case_bool_decide as Hemp.
  { split; [done|]. split; [done|]. intros ? ? k b [-> ->] (_ & spec' & v' & _ & _ & _ & Hpr & _) Hb.
    assert (k.2 = proto) as Ek by congruence. rewrite Ek in Hb. apply Hbk in Hb. set_solver. }
  assert (∀ k, k.2 = proto → claims svc sp k → accounts k (mkSvc backends affinity)) as Hacc.
  { intros k Hk Hcl. exists svc, sp. split; [done|]. split; [by rewrite Hk|].
    split; [by apply set_choose_L|]. cbn. unfold affinity.
    rewrite bool_decide_eq_true. naive_solver. }
  assert (claims svc sp (vip, sp_port sp, proto)) as Hcl1.
  { split; [done|]. exists spec, vip. split_and!; [done..|lia|lia|by left]. }
  set (out1 := match node_ip with Some _ => _ | None => _ end).
  assert (sound out1 ∧ (∀ k, is_Some (out !! k) → is_Some (out1 !! k)) ∧
    ∀ node np, node_ip = Some node → sp_node_port sp = Some np → 1 ≤ np < 2 ^ 16 → is_Some (out1 !! (node, np, proto))) as (Hs1 & Hm1 & Hc1).
  { unfold out1. destruct node_ip as [node|] eqn:Enode; [|by split_and!].
    destruct (u16_of _) as [np|] eqn:Enp.
    2:{ split_and!; [done..|]. intros ? np [= <-] E' Hr. rewrite E' in Enp. cbn in Enp.
        assert (u16_of np = Some np) by (apply u16_of_Some; lia). congruence. }
    apply u16_of_Some in Enp as [-> Hnp]. destruct (Z.eqb_spec (default 0 (sp_node_port sp)) 0) as [En|En].
    { split_and!; [done..|]. intros ? np [= <-] E' Hr. rewrite E' in En. cbn in En. lia. }
    destruct (sp_node_port sp) as [np|] eqn:E'; cbn in *; [|done]. split_and!.
    - intros k s. rewrite lookup_insert_Some. intros [[<- <-]|[_ Hk]]; [|by apply Hso]. apply Hacc; [done|].
      split; [done|]. exists spec, vip. split_and!; [done..|lia|lia|]. right. exists node, np. split_and!; [done..|lia|lia|done].
    - intros k Hk. apply lookup_insert_is_Some'. by right.
    - intros ? ? [= <-] [= <-] _. rewrite lookup_insert_eq. done. }
  split; [|split].
  - intros k s. rewrite lookup_insert_Some. intros [[<- <-]|[_ Hk]]; [by apply Hacc|by apply Hs1].
  - intros k Hk. apply lookup_insert_is_Some'. right. by apply Hm1.
  - intros ? ? [[a p] q] b [-> ->] (_ & spec' & v' & Hspec' & Hvip' & _ & Hpr & _ & Hwhere) _. cbn in *.
    assert (q = proto) as -> by congruence. assert (v' = vip) as -> by congruence. apply lookup_insert_is_Some'.
    destruct Hwhere as [[= -> ->]|(node & np & Hn & Hnp & Hr & [= -> ->])]; [by left|right]. by apply Hc1.
Qed.

Lemma ports_spec svc spec vip ports out :
  let mine := filter (λ s, slice_of (svc_ns svc) (svc_name svc) s = true) slices in
  let affinity := bool_decide (ss_session_affinity spec = Some "ClientIP"%string) in
  let out' := foldl (service_port_step mine node_ip vip affinity) out ports in
  svc ∈ services → ksvc_spec svc = Some spec → service_vip spec = Some vip →
  (∀ sp, sp ∈ ports → sp ∈ default [] (ss_ports spec)) →
  sound out → sound out' ∧ (∀ k, is_Some (out !! k) → is_Some (out' !! k)) ∧ covers (λ svc' sp, svc' = svc ∧ sp ∈ ports) out'.
Proof.
  intros mine affinity out' Hsvc Hspec Hvip. unfold out'. clear out'. revert out.
  induction ports as [|sp ports IH]; intros out Hp Hso; cbn [foldl].
  { split; [done|]. split; [done|]. intros ? ? k b [_ Hin]. by apply not_elem_of_nil in Hin. }
  destruct (port_step_spec svc spec vip sp out) as (Hs1 & Hm1 & Hc1); [done..|apply Hp; by left|done|].
  destruct (IH (service_port_step mine node_ip vip affinity out sp)) as (Hs2 & Hm2 & Hc2); [by intros; apply Hp; right|done|].
  split; [done|]. split; [by auto|]. intros svc' sp' k b [-> [-> |Hin]%elem_of_cons] Hcl Hb.
  - apply Hm2. by apply (Hc1 svc sp k b).
  - by apply (Hc2 svc sp' k b).
Qed.

Lemma service_step_spec svc out : svc ∈ services → sound out →
  let out' := service_step slices node_ip out svc in
  sound out' ∧ (∀ k, is_Some (out !! k) → is_Some (out' !! k)) ∧ covers (λ svc' _, svc' = svc) out'.
Proof.
  intros Hsvc Hso. cbn zeta. unfold service_step. destruct (ksvc_spec svc) as [spec|] eqn:Es.
  2:{ split; [done|]. split; [done|]. intros ? ? k b -> (_ & spec' & v & Hs & _). congruence. }
  destruct (service_vip spec) as [vip|] eqn:Ev.
  2:{ split; [done|]. split; [done|]. intros ? ? k b -> (_ & spec' & v & Hs & Hv & _). congruence. }
  destruct (ports_spec svc spec vip (default [] (ss_ports spec)) out) as (Hs & Hm & Hc); [done..|].
  split; [done|]. split; [done|]. intros svc' sp k b -> Hcl Hb. apply (Hc svc sp k b); [|done..]. split; [done|].
  destruct Hcl as (_ & spec' & v & Hs' & _ & Hin & _). congruence.
Qed.

Lemma services_spec svcs out : (∀ svc, svc ∈ svcs → svc ∈ services) → sound out →
  let out' := foldl (service_step slices node_ip) out svcs in
  sound out' ∧ (∀ k, is_Some (out !! k) → is_Some (out' !! k)) ∧ covers (λ svc _, svc ∈ svcs) out'.
Proof.
  cbn zeta. revert out. induction svcs as [|svc svcs IH]; intros out Hin Hso; cbn [foldl].
  { split; [done|]. split; [done|]. intros ? ? k b Hi. by apply not_elem_of_nil in Hi. }
  destruct (service_step_spec svc out) as (Hs1 & Hm1 & Hc1); [apply Hin; by left|done|].
  destruct (IH (service_step slices node_ip out svc)) as (Hs2 & Hm2 & Hc2); [by intros; apply Hin; right|done|].
  split; [done|]. split; [by auto|]. intros svc' sp k b [-> |Hi]%elem_of_cons Hcl Hb.
  - apply Hm2. by apply (Hc1 svc sp k b).
  - by apply (Hc2 svc' sp k b).
Qed.

Lemma build_desired_sound : sound (build_desired services slices node_ip).
Proof. apply services_spec; [done|]. intros k s Hk. by rewrite lookup_empty in Hk. Qed.
Lemma build_desired_served k : is_Some (build_desired services slices node_ip !! k) ↔ served k.
Proof.
  split.
  - intros [s Hs]. destruct (build_desired_sound k s Hs) as (svc & sp & Hcl & Hb & (b & Hin) & _).
    exists svc, sp, b. split; [done|]. by apply Hb.
  - intros (svc & sp & b & Hcl & Hb). destruct (services_spec services ∅) as (_ & _ & Hc); [done| |].
    { intros k' s Hk. by rewrite lookup_empty in Hk. }
    apply (Hc svc sp k b); [|done..]. apply Hcl.
Qed.

Lemma service_vip_wf spec vip : service_vip spec = Some vip → wf_addr vip.
Proof.
  unfold service_vip. case_bool_decide; [done|]. destruct (ss_cluster_ip spec) as [ip|]; [|done]. cbn -[parse_ipv4].
  destruct (_ || _); [done|]. apply parse_ipv4_wf.
Qed.
Lemma svc_proto_cases p q : svc_proto p = Some q → q = 6 ∨ q = 17.
Proof. unfold svc_proto. repeat case_bool_decide; naive_solver. Qed.

Lemma accounts_wf k s : (∀ a, node_ip = Some a → wf_addr a) → accounts k s →
  wf_key k ∧ ∀ b, b ∈ svc_backends s → wf_addr b.1 ∧ u16 b.2.
Proof.
  intros Hn (svc & sp & (_ & spec & vip & _ & Hvip%service_vip_wf & _ & Hpr%svc_proto_cases & Hpo & Hk) & Hb & _). split.
  - split_and!; [| |done].
    + destruct Hk as [-> |(node & np & E & _ & _ & ->)]; [done|by apply Hn].
    + unfold in_range. destruct Hk as [-> |(node & np & E & _ & Hr & ->)]; cbn; lia.
  - intros b (slice & ep & text & _ & _ & Ht & _ & _ & _ & Hp)%Hb. split; [by apply parse_ipv4_wf in Hp|].
    unfold slice_target in Ht. destruct (first_some _ _) as [pe|]; [|done]. cbn in Ht.
    destruct (slp_port pe) as [p|]; [|done]. cbn in Ht. by apply u16_of_Some in Ht as [-> ?].
Qed.
End spec.

Section agent.
Context `{HostOps} `{Regex} `{MapSysLaws}.

(** What the task remembers when it compares: nothing on a resync. *)
Definition known (resync : bool) (programmed : Desired) : Desired := if resync then ∅ else programmed.

Lemma synced_known K resync d programmed : synced K d programmed → synced K d (known resync programmed).
Proof.
  destruct resync; [|done]. intros [Ho _ _]. split; [done| |]; intros k; cbn; rewrite lookup_empty; [done|by intros [? ?]].
Qed.

(** The addresses a round is about. *)
Definition concerned (services : list K8sService) (slices : list EndpointSlice) (node_ip : option bytes) (p : Desired) (k : SvcKey) : Prop :=
  served services slices node_ip k ∨ is_Some (p !! k).

(** A round whose calls are all answered ends in what [apply_services] does. *)
Lemma service_round_ok resync services slices node_ip (c : Control) programmed s' :
  apply_services (build_desired services slices node_ip) (c, known resync programmed) = (s', Ok tt) →
  service_round resync (Some (services, slices)) node_ip (c, programmed) = (s', Ok tt).
Proof.
  intros E. unfold service_round.
  assert ((if resync then remember (λ _, ∅) else mret tt : M (Control * Desired) Status unit) (c, programmed) =
    ((c, known resync programmed), Ok tt)) as E0 by by destruct resync.
  unfold mbind, M_bind. rewrite E0. unfold catch. by rewrite E.
Qed.

(** C38: the service task implements Kubernetes' services. Let [K] be
    the service addresses the agent is responsible for, told apart by their
    slot namespaces ([svc_id], a hash), each with fewer than 2^16 backends.
    Take a round whose calls are all answered, from a state in which what was
    programmed is loaded. It ends with the table of programmed services the
    desired one, loaded again; an address that is served, a cluster address or
    a node port, is balanced over the ready endpoints of a service claiming it,
    by the affinity it asks for. Only addresses that are served or that the
    round remembers are touched: an address programmed before that is not
    served any more is withdrawn, unless the round is a resync, which
    remembers none and leaves its entry as it was. *)
Theorem services_synced (K : SvcKey → Prop) (services : list K8sService) (slices : list EndpointSlice) (node_ip : option bytes)
    (resync : bool) (c : Control) (programmed : Desired) :
  let desired := build_desired services slices node_ip in
  let start := known resync programmed in
  (∀ k, K k → wf_key k) → (∀ k k', K k → K k' → svc_id k = svc_id k' → k = k') →
  (∀ a, node_ip = Some a → wf_addr a) → (∀ k, served services slices node_ip k → K k) →
  (∀ k s, desired !! k = Some s → Z.of_nat (length (backend_list s)) < 2 ^ 16) →
  synced K (now (c_run c)) programmed →
  (apply_services desired (c, start)).2 = Ok tt →
  ∃ c', service_round resync (Some (services, slices)) node_ip (c, programmed) = ((c', desired), Ok tt) ∧
    synced K (now (c_run c')) desired ∧
    bystanders (concerned services slices node_ip start) (now (c_run c)) (now (c_run c')) ∧
    (∀ k, served services slices node_ip k → ∃ s, accounts services slices node_ip k s ∧ loaded (now (c_run c')) k s) ∧
    (∀ k, is_Some (programmed !! k) → ¬ served services slices node_ip k →
       @SERVICES (dp_l4 (now (c_run c'))) !! svc_key k = if resync then @SERVICES (dp_l4 (now (c_run c))) !! svc_key k else None).
Proof.
  intros desired start Kwf Kid Hn Hk Hlen Hsy Hok. set (K' := concerned services slices node_ip start).
  destruct (apply_services desired (c, start)) as [[c' p'] r] eqn:E. cbn in Hok. subst r.
  assert (∀ k s, desired !! k = Some s → served services slices node_ip k ∧ wf_svc s) as Hdes.
  { intros k s Hs. split; [apply build_desired_served; by exists s|]. split; [|by apply (Hlen k)].
    by apply (accounts_wf services slices node_ip k s), build_desired_sound. }
  assert (∀ k, K' k → K k) as HK.
  { intros k [?|Hp]; [by apply Hk|]. exact (sy_known _ _ _ (synced_known K resync _ _ Hsy) k Hp). }
  pose proof (synced_known K resync _ _ Hsy) as Hst. fold start in Hst.
  destruct (apply_services_run K Kwf Kid desired c c' start p') as (-> & Hsy' & _ & Hgone); [|done|done|].
  { intros k s Hs. destruct (Hdes k s Hs). auto. }
  destruct (apply_services_run K' (λ k Hk', Kwf k (HK k Hk')) (λ k k' H1 H2, Kid k k' (HK k H1) (HK k' H2)) desired c c' start desired)
    as (_ & _ & Hby & _); [| |done|].
  { intros k s Hs. destruct (Hdes k s Hs). split; [by left|done]. }
  { destruct Hst as [Ho Hl _]. split; [intros k Hk'; by apply Ho, HK|done|by right]. }
  exists c'. split; [by apply service_round_ok|]. split; [done|]. split; [exact Hby|]. split.
  - intros k [s Hs]%build_desired_served. exists s. split; [by apply build_desired_sound|]. by apply (sy_loaded _ _ _ Hsy').
  - intros k Hp Hns. destruct resync.
    + apply (proj1 Hby). intros k' [Hse|[? Hin]] Ekey; [|cbn in Hin; by rewrite lookup_empty in Hin].
      apply Hns. replace k with k'; [done|]. apply svc_key_inj; [by apply Kwf, Hk|by apply Kwf, (sy_known _ _ _ Hsy)|done].
    + apply Hgone; [done|]. apply eq_None_not_Some. unfold desired. by rewrite build_desired_served.
Qed.
End agent.

(** ** A service

    [web] at 10.96.0.10:80 and, on this node, at 192.168.0.1:30080; one of
    its two endpoints is ready.  [old] was programmed before. *)
Definition ex_service : K8sService :=
  mkK8sService (mkObjectMeta (Some "web") None (Some "default") None)%string
    (Some (mkServiceSpec None (Some "10.96.0.10"%string)
       (Some [mkServicePort (Some "http"%string) 80 None (Some 30080)]) (Some "ClientIP"%string))).
Definition ex_slice : EndpointSlice :=
  mkEndpointSlice (mkObjectMeta (Some "web-x") None (Some "default") (Some {["kubernetes.io/service-name" := "web"]}))%string
    "IPv4" (Some [mkSlicePort (Some "http"%string) None (Some 8080)])
    (Some [mkSliceEndpoint ["10.0.0.3"%string] (Some true); mkSliceEndpoint ["10.0.0.4"%string] (Some false)]).
Definition ex_node : bytes := [192; 168; 0; 1].
Definition ex_web_key : SvcKey := ([10; 96; 0; 10], 80, 6).
Definition ex_node_key : SvcKey := (ex_node, 30080, 6).
Definition ex_old_key : SvcKey := ([10; 96; 0; 99], 53, 17).
Definition ex_old : Desired := {[ex_old_key := mkSvc {[([10; 0; 0; 5], 53)]} false]}.
Definition ex_keys : list SvcKey := [ex_web_key; ex_node_key; ex_old_key].

(** The state [old] left. *)
Definition ex_before := @apply_services ref_host literal_regex ref_sys ex_old
  (fresh_control (host_with ∅ []) empty_dp (mkStore (mkIpamFile ∅ ∅) ∅ []), ∅).
Definition ex_desired : Desired := build_desired [ex_service] [ex_slice] (Some ex_node).
Definition ex_round (resync : bool) := @service_round ref_host literal_regex ref_sys resync (Some ([ex_service], [ex_slice]))
  (Some ex_node) ex_before.1.

Lemma ex_keys_wf k : k ∈ ex_keys → wf_key k.
Proof.
  intros Hk. repeat (apply elem_of_cons in Hk as [-> | Hk];
    [split_and!; [split; [done|repeat constructor; unfold is_byte; lia]|unfold in_range; cbn; lia|by (left + right)]|]).
  by apply not_elem_of_nil in Hk.
Qed.
Lemma ex_keys_ids k k' : k ∈ ex_keys → k' ∈ ex_keys → svc_id k = svc_id k' → k = k'.
Proof.
  assert (forallb (λ k, forallb (λ k', negb (svc_id k =? svc_id k') || bool_decide (k = k')) ex_keys) ex_keys = true) as Hall
    by (vm_compute; reflexivity).
  intros Hk Hk' E. rewrite forallb_forall in Hall. apply list_elem_of_In in Hk. specialize (Hall k Hk).
  rewrite forallb_forall in Hall. apply list_elem_of_In in Hk'. specialize (Hall k' Hk').
  rewrite (proj2 (Z.eqb_eq _ _) E) in Hall. by apply bool_decide_eq_true in Hall.
Qed.
Lemma ex_synced : synced (λ k, k ∈ ex_keys) (now (c_run ex_before.1.1)) ex_before.1.2.
Proof.
  destruct (@apply_services_run ref_host literal_regex ref_sys ref_sys_laws (λ k, k ∈ ex_keys) ex_keys_wf ex_keys_ids ex_old
    (fresh_control (host_with ∅ []) empty_dp (mkStore (mkIpamFile ∅ ∅) ∅ [])) ex_before.1.1 ∅ ex_before.1.2)
    as (E & Hsy & _).
  - intros k s Hk. unfold ex_old in Hk. apply lookup_singleton_Some in Hk as [<- <-]. split; [by right; right; left|]. split; [|vm_compute; reflexivity].
    intros b Hb. cbn [svc_backends] in Hb. apply elem_of_singleton in Hb as ->.
    split; [split; [done|repeat constructor; unfold is_byte; lia]|unfold in_range; cbn; lia].
  - split; [|intros k s Hk; by rewrite lookup_empty in Hk|intros k [s Hk]; by rewrite lookup_empty in Hk].
    intros k _ info Hi. change ((∅ : gmap ServiceKey ServiceInfo) !! svc_key k = Some info) in Hi. by rewrite lookup_empty in Hi.
  - rewrite <- surjective_pairing. apply ok_pair. vm_compute. reflexivity.
  - by rewrite E.
Qed.
Lemma ex_desired_checked :
  forallb (λ k, bool_decide (k ∈ ex_keys)) (desired_keys (build_desired [ex_service] [ex_slice] (Some ex_node))) = true ∧
  forallb (λ ks, Z.of_nat (length (backend_list ks.2)) <? 2 ^ 16)
    (map_to_list (build_desired [ex_service] [ex_slice] (Some ex_node))) = true.
Proof. split; vm_compute; reflexivity. Qed.

Definition ex_count (c : @Control ref_host literal_regex) (k : SvcKey) : option Z :=
  si_backend_count <$> @SERVICES (dp_l4 (now (c_run c))) !! svc_key k.

(** The round serves [web] at both addresses and withdraws [old]; as a resync
    it leaves [old] in place. *)
Lemma services_synced_witness :
  let c := ex_before.1.1 in
  let c' := (ex_round false).1.1 in
  (ex_count c' ex_web_key, ex_count c' ex_node_key, ex_count c' ex_old_key) = (Some 1, Some 1, None) ∧
  ex_count c ex_old_key = Some 1 ∧ ex_count (ex_round true).1.1 ex_old_key = Some 1 ∧
  ∃ c', ex_round false = ((c', ex_desired), Ok tt) ∧
    synced (λ k, k ∈ ex_keys) (now (c_run c')) ex_desired ∧
    bystanders (concerned [ex_service] [ex_slice] (Some ex_node) ex_before.1.2) (now (c_run c)) (now (c_run c')) ∧
    (∀ k, served [ex_service] [ex_slice] (Some ex_node) k →
       ∃ s, accounts [ex_service] [ex_slice] (Some ex_node) k s ∧ loaded (now (c_run c')) k s) ∧
    (∀ k, is_Some (ex_before.1.2 !! k) → ¬ served [ex_service] [ex_slice] (Some ex_node) k →
       @SERVICES (dp_l4 (now (c_run c'))) !! svc_key k = None).
Proof.
  cbn zeta. split; [vm_compute; reflexivity|]. split; [vm_compute; reflexivity|]. split; [vm_compute; reflexivity|].
  destruct ex_desired_checked as [Hkeys Hlen]. unfold ex_round. rewrite (surjective_pairing ex_before.1).
  apply (@services_synced ref_host literal_regex ref_sys ref_sys_laws (λ k, k ∈ ex_keys) [ex_service] [ex_slice] (Some ex_node)
    false ex_before.1.1 ex_before.1.2).
  - apply ex_keys_wf.
  - apply ex_keys_ids.
  - intros a [= <-]. split; [done|]. repeat constructor; unfold is_byte; lia.
  - intros k Hk%build_desired_served. apply elem_of_desired_keys, list_elem_of_In in Hk.
    rewrite forallb_forall in Hkeys. by apply (bool_decide_eq_true _), Hkeys.
  - intros k s Hk. apply elem_of_map_to_list, list_elem_of_In in Hk. rewrite forallb_forall in Hlen.
    by apply Z.ltb_lt, (Hlen (k, s)).
  - apply ex_synced.
  - vm_compute. reflexivity.
Defined.
