(* ===== verification/Config.v ===== *)
(** * Declarative configuration ([crates/cradle/src/config.rs])

    The configuration as it is read (the fields' defaults and the JSON
    syntax are [serde]'s), and [apply_control]: the operations it stands for,
    in order, on the control plane of the daemon that loads it. *)

From S2P Require Import Prelude.
From S2P Require Import Contract.
From S2P Require Import Bpf.
From S2P Require Import Maps.
From S2P Require Import MapRefs.
From S2P Require Import Dataplane.
From S2P Require Import Cni.
From S2P Require Import Text.
From S2P Require Import L7.
From S2P Require Import Control.
From S2P Require Import Ports.
From S2P Require Import Overlay.
From S2P Require Import Pods.
From S2P Require Import IpText.
From S2P Require Import Pb.
From S2P Require Import Grpc.

(** ** The sections *)

Record PortCfg := mkPortCfg {
  PortCfg_name : string; PortCfg_l3 : bool; PortCfg_vlan : Z; PortCfg_vrf : Z; PortCfg_etree_leaf : option bool }.
Record NexthopCfg := mkNexthopCfg {
  NexthopCfg_id : Z; NexthopCfg_oif : option string; NexthopCfg_gateway : option string; NexthopCfg_labels : list Z;
  NexthopCfg_segs : list string; NexthopCfg_encap_mode : Z; NexthopCfg_backup : Z;
  NexthopCfg_gtp_src : option string; NexthopCfg_gtp_dst : option string; NexthopCfg_gtp_teid : Z;
  NexthopCfg_vxlan_vtep : option string; NexthopCfg_vxlan_l3vni : Z; NexthopCfg_vxlan_rmac : option string;
  NexthopCfg_mpls_pipe : bool }.
Record RouteCfg := mkRouteCfg {
  RouteCfg_prefix : string; RouteCfg_nexthop : Z; RouteCfg_vrf : Z }.
Record NeighborCfg := mkNeighborCfg {
  NeighborCfg_oif : string; NeighborCfg_ip : string; NeighborCfg_mac : string }.
Record IlmCfg := mkIlmCfg {
  IlmCfg_in_label : Z; IlmCfg_nexthop : Z; IlmCfg_action : string; IlmCfg_vrf : Z; IlmCfg_bd : Z;
  IlmCfg_ttl_uniform : bool }.
Record Route6Cfg := mkRoute6Cfg {
  Route6Cfg_prefix : string; Route6Cfg_nexthop : Z; Route6Cfg_vrf : Z }.
Record LocalSidCfg := mkLocalSidCfg {
  LocalSidCfg_sid : string; LocalSidCfg_behavior : string; LocalSidCfg_vrf : Z; LocalSidCfg_nexthop : Z;
  LocalSidCfg_prefix_len : Z; LocalSidCfg_block_bits : Z; LocalSidCfg_node_bits : Z; LocalSidCfg_fun_bits : Z;
  LocalSidCfg_arg_bits : Z; LocalSidCfg_port : string; LocalSidCfg_flavors : list string }.
Record GtpPdrCfg := mkGtpPdrCfg {
  GtpPdrCfg_dst : string; GtpPdrCfg_teid : Z; GtpPdrCfg_vrf : Z; GtpPdrCfg_match_vrf : Z }.
Record VniCfg := mkVniCfg {
  VniCfg_vni : Z; VniCfg_vlan : Z; VniCfg_l3 : bool; VniCfg_vrf : Z; VniCfg_rmac : option string }.
Record FdbCfg := mkFdbCfg {
  FdbCfg_mac : string; FdbCfg_bd : Z; FdbCfg_remote_sid : option string; FdbCfg_remote_vtep : option string;
  FdbCfg_remote_pe : option string; FdbCfg_label : Z; FdbCfg_nexthop : Z; FdbCfg_esi : option string;
  FdbCfg_port : option string; FdbCfg_etree_leaf : bool }.
Record ReplSlotCfg := mkReplSlotCfg {
  ReplSlotCfg_flood_port : string; ReplSlotCfg_encap_port : string; ReplSlotCfg_remote_sid : option string;
  ReplSlotCfg_remote_vtep : option string; ReplSlotCfg_vni : option Z; ReplSlotCfg_remote_pe : option string;
  ReplSlotCfg_label : Z; ReplSlotCfg_esi : option string; ReplSlotCfg_esi_label : Z;
  ReplSlotCfg_etree_leaf_label : Z; ReplSlotCfg_etree_root_only : bool;
  ReplSlotCfg_etree_leaf_sid : option string }.
Record EtreeRemoteCfg := mkEtreeRemoteCfg {
  EtreeRemoteCfg_bd : Z; EtreeRemoteCfg_remote_vtep : string; EtreeRemoteCfg_leaf_only : bool }.
Record ReplSegBranchCfg := mkReplSegBranchCfg {
  ReplSegBranchCfg_sid : string; ReplSegBranchCfg_nexthop : Z; ReplSegBranchCfg_local : bool }.
Record ReplSegCfg := mkReplSegCfg {
  ReplSegCfg_sid : string; ReplSegCfg_branches : list ReplSegBranchCfg; ReplSegCfg_hop_limit_threshold : Z }.
Record XconnectCfg := mkXconnectCfg {
  XconnectCfg_port : string; XconnectCfg_remote_sid : option string; XconnectCfg_remote_vtep : option string;
  XconnectCfg_remote_vni : Z; XconnectCfg_local_vni : Z; XconnectCfg_remote_pe : option string;
  XconnectCfg_remote_label : Z; XconnectCfg_local_label : Z; XconnectCfg_vid : Z; XconnectCfg_dx2v_table : Z }.
Record Dx2vCfg := mkDx2vCfg {
  Dx2vCfg_table : Z; Dx2vCfg_vid : Z; Dx2vCfg_port : string }.
Record BackendCfg := mkBackendCfg {
  BackendCfg_ip : string; BackendCfg_port : Z }.
Record ServiceCfg := mkServiceCfg {
  ServiceCfg_vip : string; ServiceCfg_port : Z; ServiceCfg_proto : string; ServiceCfg_affinity : bool;
  ServiceCfg_backends : list BackendCfg }.
Record IdentityCfg := mkIdentityCfg {
  IdentityCfg_ip : string; IdentityCfg_id : Z; IdentityCfg_vrf : Z }.
Record CidrIdentityCfg := mkCidrIdentityCfg {
  CidrIdentityCfg_cidr : string; CidrIdentityCfg_id : Z; CidrIdentityCfg_vrf : Z }.
Record PolicyRuleCfg := mkPolicyRuleCfg {
  PolicyRuleCfg_identity : Z; PolicyRuleCfg_proto : string; PolicyRuleCfg_port : Z; PolicyRuleCfg_deny : bool }.
Record L7RuleCfg := mkL7RuleCfg {
  L7RuleCfg_method : string; L7RuleCfg_path : string }.
Record L7PortCfg := mkL7PortCfg {
  L7PortCfg_port : Z; L7PortCfg_rules : list L7RuleCfg }.
Record PolicyCfg := mkPolicyCfg {
  PolicyCfg_host_if : string; PolicyCfg_namespace : string; PolicyCfg_pod : string; PolicyCfg_enforce : bool;
  PolicyCfg_rules : list PolicyRuleCfg; PolicyCfg_enforce_egress : bool;
  PolicyCfg_egress_rules : list PolicyRuleCfg; PolicyCfg_audit : bool; PolicyCfg_l7 : list L7PortCfg }.
Record L7RouteCfg := mkL7RouteCfg {
  L7RouteCfg_prefix : string; L7RouteCfg_backend : string }.
Record L7ServiceCfg := mkL7ServiceCfg {
  L7ServiceCfg_vip : string; L7ServiceCfg_port : Z; L7ServiceCfg_routes : list L7RouteCfg }.
Record EsRoleCfg := mkEsRoleCfg {
  EsRoleCfg_bd : Z; EsRoleCfg_df : bool; EsRoleCfg_single_active : bool }.
Record EsNhgMemberCfg := mkEsNhgMemberCfg {
  EsNhgMemberCfg_remote_sid : option string; EsNhgMemberCfg_remote_vtep : option string;
  EsNhgMemberCfg_remote_pe : option string; EsNhgMemberCfg_label : Z }.
Record EsNhgCfg := mkEsNhgCfg {
  EsNhgCfg_bd : Z; EsNhgCfg_single_active : bool; EsNhgCfg_members : list EsNhgMemberCfg }.
Record EthernetSegmentCfg := mkEthernetSegmentCfg {
  EthernetSegmentCfg_esi : string; EthernetSegmentCfg_ports : list string; EthernetSegmentCfg_esi_label : Z;
  EthernetSegmentCfg_roles : list EsRoleCfg; EthernetSegmentCfg_peers : list string;
  EthernetSegmentCfg_nhg : list EsNhgCfg }.
Record Config := mkConfig {
  Config_fib4_mode : option string; Config_ports : list PortCfg; Config_nexthops : list NexthopCfg;
  Config_routes : list RouteCfg; Config_neighbors : list NeighborCfg; Config_ilm : list IlmCfg;
  Config_routes6 : list Route6Cfg; Config_localsids : list LocalSidCfg; Config_gtp_pdrs : list GtpPdrCfg;
  Config_srv6_source : option string; Config_vtep_source : option string; Config_vtep_source6 : option string;
  Config_vnis : list VniCfg; Config_fdb : list FdbCfg; Config_repl_slots : list ReplSlotCfg;
  Config_etree_leaf_label : option Z; Config_etree_leaf_arg : option Z; Config_etree_remotes : list EtreeRemoteCfg;
  Config_repl_segs : list ReplSegCfg; Config_xconnects : list XconnectCfg; Config_dx2v : list Dx2vCfg;
  Config_fdb_age_secs : option Z; Config_services : list ServiceCfg; Config_masq_node : option string;
  Config_non_masq : list string; Config_identities : list IdentityCfg;
  Config_cidr_identities : list CidrIdentityCfg; Config_policies : list PolicyCfg;
  Config_l7_services : list L7ServiceCfg; Config_ethernet_segments : list EthernetSegmentCfg }.

(** ** Names and numbers *)

(** The members of every bridge domain, by rising VLAN. *)
Definition l2_domains (ports : list PortCfg) : list (Z * list string) :=
  btree (foldl (λ m p, if PortCfg_l3 p then m
                       else <[PortCfg_vlan p := default [] (m !! PortCfg_vlan p) ++ [PortCfg_name p]]> m) ∅ ports).

(** [None]: not a name. *)
Definition proto_num_cfg (proto : string) : option Z :=
  if bool_decide (proto = "tcp"%string) then Some 6
  else if bool_decide (proto = "udp"%string) then Some 17 else None.
Definition rule_proto (s : string) : option Z :=
  if bool_decide (s = ""%string) || bool_decide (s = "any"%string) then Some 0 else proto_num_cfg s.

Definition named {A} (table : list (string * A)) (s : string) : option A :=
  first_some (λ '(n, a), if bool_decide (n = s) then Some a else None) table.

Definition srv6_behavior_of_name : string → option Z := named
  [("end", SRV6_BH_END); ("end.x", SRV6_BH_END_X); ("end.dt4", SRV6_BH_END_DT4); ("end.dt6", SRV6_BH_END_DT6);
   ("end.dt46", SRV6_BH_END_DT46); ("end.b6", SRV6_BH_END_B6); ("un", SRV6_BH_UN); ("ua", SRV6_BH_UA);
   ("ualib", SRV6_BH_UALIB); ("end.t", SRV6_BH_END_T); ("end.dx4", SRV6_BH_END_DX4); ("end.dx6", SRV6_BH_END_DX6);
   ("end.dx2", SRV6_BH_END_DX2); ("end.dx2v", SRV6_BH_END_DX2V); ("end.dt2u", SRV6_BH_END_DT2U);
   ("end.dt2m", SRV6_BH_END_DT2M); ("end.replace", SRV6_BH_END_REP); ("end.x.replace", SRV6_BH_END_X_REP);
   ("end.replicate", SRV6_BH_END_REPLICATE)]%string.

Definition srv6_flavor_of_name : string → option Z := named
  [("psp", SRV6_FLAVOR_PSP); ("usp", SRV6_FLAVOR_USP); ("usd", SRV6_FLAVOR_USD)]%string.
Definition srv6_flavors (l : list string) : option Z :=
  foldl (λ mask f, mask ← mask; b ← srv6_flavor_of_name f; Some (mask .| b)) (Some 0) l.

Definition ilm_action : string → option Z := named
  [("swap", MPLS_OP_SWAP); ("pop", MPLS_OP_POP); ("pop-l3", MPLS_OP_POP_L3); ("pop-l2", MPLS_OP_POP_L2);
   ("pop-xc", MPLS_OP_POP_XC); ("pop-xc-vlan", MPLS_OP_POP_XC_VLAN)]%string.

(** An optional text: absent, or readable. *)
Definition opt_parse {A} (parse : string → option A) (s : option string) : option (option A) :=
  match s with Some s => Some <$> parse s | None => Some None end.

(** ** Applying *)

Inductive ConfigErr : Type := BadConfig | Failed (e : CtlErr).

Section apply.
Context `{HostOps} `{Regex} `{MapSys}.

Abbreviation Apply := (M Control ConfigErr).

Definition ctl {A} (m : Ctrl A) : Apply A := λ c,
  let '(c, r) := m c in (c, match r with Ok a => Ok a | Err e => Err (Failed e) end).
Definition read {A} (o : option A) : Apply A := of_option BadConfig o.
Definition every {E A} (f : A → M Control E unit) (l : list A) : M Control E unit := mfold (λ _ x, f x) l tt.
Definition given {E A} (f : A → M Control E unit) (o : option A) : M Control E unit :=
  match o with Some x => f x | None => mret tt end.

(** The role first: a leaf must not forward as a root in between. *)
Definition apply_port (p : PortCfg) : Apply unit :=
  _ ← given (λ leaf, ctl (set_etree_role (PortCfg_name p) leaf)) (PortCfg_etree_leaf p);
  ctl (set_port (PortCfg_name p) None (PortCfg_l3 p) (PortCfg_vlan p) (PortCfg_vrf p)).
Definition apply_domain (d : Z * list string) : Apply unit := ctl (set_l2_domain d.1 d.2).
Definition apply_etree_remote (r : EtreeRemoteCfg) : Apply unit :=
  vtep ← read (parse_ip (EtreeRemoteCfg_remote_vtep r));
  ctl (set_etree_remote (EtreeRemoteCfg_bd r) vtep (EtreeRemoteCfg_leaf_only r)).

Definition apply_segment (es : EthernetSegmentCfg) : Apply unit :=
  let esi := EthernetSegmentCfg_esi es in
  _ ← ctl (set_ethernet_segment esi (EthernetSegmentCfg_ports es) (EthernetSegmentCfg_esi_label es));
  _ ← every (λ r, ctl (set_es_role esi (EsRoleCfg_bd r) (EsRoleCfg_df r) (EsRoleCfg_single_active r)))
        (EthernetSegmentCfg_roles es);
  peers ← read (mapM parse_ip (EthernetSegmentCfg_peers es));
  ctl (set_es_peers esi (list_to_set peers)).

Definition apply_srv6_source (src : string) : Apply unit := addr ← read (parse_ipv6 src); ctl (set_srv6_encap_source addr).
Definition apply_vtep_source (src : string) : Apply unit := addr ← read (parse_ip src); ctl (set_vtep_source addr).
Definition apply_vni (v : VniCfg) : Apply unit :=
  if VniCfg_l3 v then
    rmac ← read (VniCfg_rmac v); rmac ← read (parse_mac rmac);
    ctl (set_vni_l3 (VniCfg_vni v) (VniCfg_vrf v) rmac)
  else ctl (set_vni (VniCfg_vni v) (VniCfg_vlan v)).

(** The members in the form of a request; [Control::set_es_nhg] reads them. *)
Definition nhg_member_pb (m : EsNhgMemberCfg) : pb_EsNhgMember :=
  mk_pb_EsNhgMember (default "" (EsNhgMemberCfg_remote_sid m)) (default "" (EsNhgMemberCfg_remote_vtep m))
    (default "" (EsNhgMemberCfg_remote_pe m)) (EsNhgMemberCfg_label m).
Definition apply_nhg (es : EthernetSegmentCfg) : Apply unit :=
  every (λ g,
    members ← read (mapM nhg_member (nhg_member_pb <$> EsNhgCfg_members g));
    ctl (set_es_nhg (EthernetSegmentCfg_esi es) (EsNhgCfg_bd g) members (EsNhgCfg_single_active g)))
    (EthernetSegmentCfg_nhg es).

(** The interface of a nexthop that needs one. *)
Definition nexthop_oif (nh : NexthopCfg) : Apply Z :=
  match NexthopCfg_oif nh with Some o => ctl (resolve o) | None => bail BadConfig end.
Definition nexthop_is_v6 (nh : NexthopCfg) : bool :=
  default false (contains ":" <$> NexthopCfg_gateway nh).

Definition apply_nexthop (nh : NexthopCfg) : Apply unit :=
  match NexthopCfg_vxlan_vtep nh with
  | Some vtep =>
      gw ← read (opt_parse parse_ipv4 (NexthopCfg_gateway nh));
      oif ← nexthop_oif nh;
      vtep ← read (parse_ipv4 vtep);
      rmac ← read (NexthopCfg_vxlan_rmac nh); rmac ← read (parse_mac rmac);
      ctl (set_nexthop_vxlan (NexthopCfg_id nh) gw oif vtep (NexthopCfg_vxlan_l3vni nh) rmac)
  | None =>
  match NexthopCfg_gtp_dst nh with
  | Some dst =>
      oif ← nexthop_oif nh;
      dst ← read (parse_ip dst);
      match dst with
      | V4 dst =>
          gw ← read (opt_parse parse_ipv4 (NexthopCfg_gateway nh));
          src ← read (parse_ipv4 (default "0.0.0.0"%string (NexthopCfg_gtp_src nh)));
          ctl (set_nexthop_gtp (NexthopCfg_id nh) gw oif src dst (NexthopCfg_gtp_teid nh))
      | V6 dst =>
          gw ← read (opt_parse parse_ipv6 (NexthopCfg_gateway nh));
          src ← read (parse_ipv6 (default "::"%string (NexthopCfg_gtp_src nh)));
          ctl (set_nexthop_gtp6 (NexthopCfg_id nh) gw oif src dst (NexthopCfg_gtp_teid nh))
      end
  | None =>
  if negb (bool_decide (NexthopCfg_segs nh = [])) then
    gw ← read (opt_parse parse_ipv6 (NexthopCfg_gateway nh));
    oif ← nexthop_oif nh;
    segs ← read (mapM parse_ipv6 (NexthopCfg_segs nh));
    ctl (set_nexthop_srv6 (NexthopCfg_id nh) gw oif segs (NexthopCfg_encap_mode nh))
  else
    oif ← (match NexthopCfg_oif nh with Some o => ctl (resolve o) | None => mret 0 end);
    if nexthop_is_v6 nh then
      gw ← read (opt_parse parse_ipv6 (NexthopCfg_gateway nh));
      ctl (set_nexthop_idx_v6 (NexthopCfg_id nh) gw oif (NexthopCfg_labels nh) (NexthopCfg_backup nh) (NexthopCfg_mpls_pipe nh))
    else
      gw ← read (opt_parse parse_ipv4 (NexthopCfg_gateway nh));
      ctl (set_nexthop_idx (NexthopCfg_id nh) gw oif (NexthopCfg_labels nh) (NexthopCfg_backup nh) (NexthopCfg_mpls_pipe nh))
  end end.

(** The attachment port of an [end.dx2] rides in the VRF slot. *)
Definition apply_localsid (ls : LocalSidCfg) : Apply unit :=
  sid ← read (parse_ipv6 (LocalSidCfg_sid ls));
  behavior ← read (srv6_behavior_of_name (LocalSidCfg_behavior ls));
  let prefix_len := if LocalSidCfg_prefix_len ls =? 0 then 128 else LocalSidCfg_prefix_len ls in
  vrf ← (if is_set (LocalSidCfg_port ls) then ctl (resolve (LocalSidCfg_port ls)) else mret (LocalSidCfg_vrf ls));
  flavors ← read (srv6_flavors (LocalSidCfg_flavors ls));
  ctl (add_localsid sid prefix_len
    (mkLocalSid behavior flavors vrf (LocalSidCfg_nexthop ls) (LocalSidCfg_block_bits ls) (LocalSidCfg_node_bits ls)
       (LocalSidCfg_fun_bits ls) (LocalSidCfg_arg_bits ls))).
Definition apply_gtp_pdr (pdr : GtpPdrCfg) : Apply unit :=
  dst ← read (parse_ip (GtpPdrCfg_dst pdr));
  ctl (ctl_gtp_pdr_add dst (GtpPdrCfg_teid pdr) (GtpPdrCfg_vrf pdr) (GtpPdrCfg_match_vrf pdr)).

Definition apply_fdb (f : FdbCfg) : Apply unit :=
  mac ← read (parse_mac (FdbCfg_mac f));
  let bd := FdbCfg_bd f in
  match FdbCfg_port f, FdbCfg_esi f with
  | Some port, _ => ctl (add_fdb_local mac bd port)
  | None, Some esi => ctl (add_fdb_remote_es mac bd esi (FdbCfg_etree_leaf f))
  | None, None =>
  match FdbCfg_remote_sid f, FdbCfg_remote_vtep f, FdbCfg_remote_pe f with
  | Some sid, None, None =>
      sid ← read (parse_ipv6 sid);
      ctl (add_fdb_remote mac bd sid (FdbCfg_nexthop f) (FdbCfg_etree_leaf f))
  | None, Some vtep, None =>
      vtep ← read (parse_ip vtep);
      ctl (add_fdb_remote_vxlan mac bd vtep (FdbCfg_nexthop f) (FdbCfg_etree_leaf f))
  | None, None, Some pe =>
      pe ← read (parse_ip pe);
      if bad_label (FdbCfg_label f) then bail BadConfig else
      ctl (add_fdb_remote_mpls mac bd pe (FdbCfg_label f) (FdbCfg_nexthop f) (FdbCfg_etree_leaf f))
  | _, _, _ => bail BadConfig
  end end.

(** [members]: the order [L2_MEMBERS] is listed in. *)
Definition apply_repl_slot (members : Dp → list (L2MemberKey * Z)) (r : ReplSlotCfg) : Apply unit :=
  let flood := ReplSlotCfg_flood_port r in
  let encap := ReplSlotCfg_encap_port r in
  match ReplSlotCfg_remote_sid r, ReplSlotCfg_remote_vtep r, ReplSlotCfg_remote_pe r with
  | Some sid, None, None =>
      sid ← read (parse_ipv6 sid);
      leaf ← read (opt_parse parse_ipv6 (ReplSlotCfg_etree_leaf_sid r));
      c ← get;
      _ ← ctl (add_repl_slot (members (now (c_run c))) flood encap sid leaf);
      if ReplSlotCfg_etree_root_only r then ctl (set_etree_root_only (sid, 0) true) else mret tt
  | None, Some vtep, None =>
      vtep ← read (parse_ip vtep);
      vni ← read (ReplSlotCfg_vni r);
      c ← get;
      _ ← ctl (add_repl_slot_vxlan (members (now (c_run c))) flood encap vtep vni);
      if ReplSlotCfg_etree_root_only r then ctl (set_slot_etree_root_only flood) else mret tt
  | None, None, Some pe =>
      pe ← read (parse_ip pe);
      if bad_label (ReplSlotCfg_label r) then bail BadConfig else
      if negb (Bool.eqb (bool_decide (is_Some (ReplSlotCfg_esi r))) (negb (ReplSlotCfg_esi_label r =? 0)))
      then bail BadConfig else
      _ ← ctl (check_extra_labels (ReplSlotCfg_esi_label r) (ReplSlotCfg_etree_leaf_label r));
      c ← get;
      ctl (add_repl_slot_mpls (members (now (c_run c))) flood encap pe (ReplSlotCfg_label r) (ReplSlotCfg_esi r)
        (ReplSlotCfg_esi_label r) (ReplSlotCfg_etree_leaf_label r))
  | _, _, _ => bail BadConfig
  end.

Definition apply_branch (b : ReplSegBranchCfg) : option (bytes * Z * bool) :=
  sid ← parse_ipv6 (ReplSegBranchCfg_sid b); Some (sid, ReplSegBranchCfg_nexthop b, ReplSegBranchCfg_local b).
Definition apply_repl_seg (rs : ReplSegCfg) : Apply unit :=
  sid ← read (parse_ipv6 (ReplSegCfg_sid rs));
  branches ← read (mapM apply_branch (ReplSegCfg_branches rs));
  ctl (set_repl_seg sid (ReplSegCfg_hop_limit_threshold rs) branches).

Definition apply_xc_remote (x : XconnectCfg) : Apply XconnectRemote :=
  match XconnectCfg_remote_sid x, XconnectCfg_remote_vtep x, XconnectCfg_remote_pe x with
  | Some sid, None, None => sid ← read (parse_ipv6 sid); mret (XrSrv6 sid)
  | None, Some vtep, None =>
      if XconnectCfg_remote_vni x =? 0 then bail BadConfig else
      vtep ← read (parse_ip vtep); mret (XrVxlan vtep (XconnectCfg_remote_vni x))
  | None, None, Some pe =>
      if XconnectCfg_remote_label x =? 0 then bail BadConfig else
      pe ← read (parse_ip pe); mret (XrMpls pe (XconnectCfg_remote_label x))
  | _, _, _ => bail BadConfig
  end.
Definition apply_xc_local (x : XconnectCfg) : Apply XconnectLocal :=
  match negb (XconnectCfg_local_vni x =? 0), negb (XconnectCfg_local_label x =? 0) with
  | false, false => mret XlNone
  | true, false => mret (XlVxlan (XconnectCfg_local_vni x))
  | false, true => mret (XlMpls (XconnectCfg_local_label x))
  | true, true => bail BadConfig
  end.
Definition apply_xconnect (x : XconnectCfg) : Apply unit :=
  remote ← apply_xc_remote x;
  local ← apply_xc_local x;
  ctl (add_xconnect (XconnectCfg_port x) remote local (XconnectCfg_vid x) (XconnectCfg_dx2v_table x)).
Definition apply_dx2v (d : Dx2vCfg) : Apply unit := ctl (add_dx2v (Dx2vCfg_table d) (Dx2vCfg_vid d) (Dx2vCfg_port d)).

Definition apply_neighbor (n : NeighborCfg) : Apply unit :=
  ip ← read (parse_ip (NeighborCfg_ip n));
  mac ← read (parse_mac (NeighborCfg_mac n));
  match ip with
  | V4 v4 => ctl (set_neighbor4 (NeighborCfg_oif n) v4 mac)
  | V6 v6 => ctl (set_neighbor6 (NeighborCfg_oif n) v6 mac)
  end.
(** [bd] and [vrf] are one field of the entry. *)
Definition apply_ilm (i : IlmCfg) : Apply unit :=
  op ← read (ilm_action (IlmCfg_action i));
  let table := if negb (IlmCfg_bd i =? 0) then IlmCfg_bd i else IlmCfg_vrf i in
  ctl (add_ilm (IlmCfg_in_label i) (IlmCfg_nexthop i) op table
    (if IlmCfg_ttl_uniform i then MPLS_E_TTL_UNIFORM else 0)).

(** All IPv4 routes go down in one plan. *)
Definition route_of (r : RouteCfg) : option Route4 :=
  '(addr, len) ← parse_ipv4_prefix (RouteCfg_prefix r);
  Some (mkRoute4 (RouteCfg_vrf r) addr len (RouteCfg_nexthop r) 0).
Definition apply_routes (routes : list RouteCfg) : Apply unit :=
  rs ← read (mapM route_of routes);
  if bool_decide (rs = []) then mret tt else ctl (add_routes4 rs).
Definition apply_route6 (r : Route6Cfg) : Apply unit :=
  '(addr, len) ← read (parse_ipv6_prefix (Route6Cfg_prefix r));
  ctl (add_route6 (Route6Cfg_vrf r) addr len (Route6Cfg_nexthop r) 0).

Definition backend_cfg (parse : string → option bytes) (b : BackendCfg) : option (bytes * Z) :=
  ip ← parse (BackendCfg_ip b); Some (ip, BackendCfg_port b).
(** The [i]th service, from 0, has the slot namespace [i + 1]. *)
Definition apply_service (nth : nat * ServiceCfg) : Apply unit :=
  let '(i, svc) := nth in
  let svc_id := wrap 32 (Z.of_nat i + 1) in
  proto ← read (proto_num_cfg (ServiceCfg_proto svc));
  vip ← read (parse_ip (ServiceCfg_vip svc));
  match vip with
  | V4 v4 =>
      backends ← read (mapM (backend_cfg parse_ipv4) (ServiceCfg_backends svc));
      ctl (add_service svc_id v4 (ServiceCfg_port svc) proto backends (ServiceCfg_affinity svc))
  | V6 v6 =>
      backends ← read (mapM (backend_cfg parse_ipv6) (ServiceCfg_backends svc));
      ctl (add_service6 svc_id v6 (ServiceCfg_port svc) proto backends (ServiceCfg_affinity svc))
  end.
Definition indexed {A} (l : list A) : list (nat * A) := imap (λ i x, (i, x)) l.

Definition apply_masq_node (node : string) : Apply unit := ip ← read (parse_ipv4 node); ctl (set_masq_node (Some ip)).
Definition apply_non_masq (cidr : string) : Apply unit :=
  '(net, len) ← read (parse_ipv4_prefix cidr); ctl (add_non_masq net len).

Definition apply_identity (i : IdentityCfg) : Apply unit :=
  ip ← read (parse_ip (IdentityCfg_ip i));
  match ip with
  | V4 ip => ctl (set_identity (IdentityCfg_vrf i) (of_be ip) (IdentityCfg_id i))
  | V6 ip => ctl (set_identity6 (IdentityCfg_vrf i) ip (IdentityCfg_id i) false)
  end.
Definition apply_cidr_identity (c : CidrIdentityCfg) : Apply unit :=
  if contains ":" (CidrIdentityCfg_cidr c) then
    '(net, len) ← read (parse_ipv6_prefix (CidrIdentityCfg_cidr c));
    ctl (set_cidr6_identity (CidrIdentityCfg_vrf c) net len (CidrIdentityCfg_id c) false)
  else
    '(net, len) ← read (parse_ipv4_prefix (CidrIdentityCfg_cidr c));
    ctl (set_cidr_identity (CidrIdentityCfg_vrf c) net len (CidrIdentityCfg_id c) false).

Definition rule_cfg (r : PolicyRuleCfg) : option Rule :=
  proto ← rule_proto (PolicyRuleCfg_proto r);
  Some (mkRule (PolicyRuleCfg_identity r) proto (PolicyRuleCfg_port r) (PolicyRuleCfg_deny r)).
Definition l7_port_cfg (pp : L7PortCfg) : Z * list L7PolicyRule :=
  (L7PortCfg_port pp, (λ r, mkL7PolicyRule (L7RuleCfg_method r) (L7RuleCfg_path r)) <$> L7PortCfg_rules pp).
Definition apply_policy (pol : PolicyCfg) : Apply unit :=
  ep ← ctl (resolve_endpoint (PolicyCfg_host_if pol) (PolicyCfg_namespace pol) (PolicyCfg_pod pol));
  rules ← read (mapM rule_cfg (PolicyCfg_rules pol));
  egress_rules ← read (mapM rule_cfg (PolicyCfg_egress_rules pol));
  _ ← ctl (set_endpoint_policy ep (PolicyCfg_enforce pol) (PolicyCfg_enforce_egress pol) (PolicyCfg_audit pol)
             rules egress_rules (l7_port_cfg <$> PolicyCfg_l7 pol));
  mret tt.

Definition l7_route_cfg (r : L7RouteCfg) : option L7Route :=
  backend ← parse_socket (L7RouteCfg_backend r); Some (mkL7Route (L7RouteCfg_prefix r) backend).
Definition apply_l7_service (svc : L7ServiceCfg) : Apply unit :=
  vip ← read (parse_ipv4 (L7ServiceCfg_vip svc));
  routes ← read (mapM l7_route_cfg (L7ServiceCfg_routes svc));
  ctl (add_l7_service vip (L7ServiceCfg_port svc) routes).

Definition apply_control (members : Dp → list (L2MemberKey * Z)) (cfg : Config) : Apply unit :=
  _ ← every apply_port (Config_ports cfg);
  _ ← every apply_domain (l2_domains (Config_ports cfg));
  _ ← given (λ label, ctl (set_etree_leaf_label label)) (Config_etree_leaf_label cfg);
  _ ← given (λ arg, ctl (set_etree_leaf_arg arg)) (Config_etree_leaf_arg cfg);
  _ ← every apply_etree_remote (Config_etree_remotes cfg);
  _ ← every apply_segment (Config_ethernet_segments cfg);
  _ ← given apply_srv6_source (Config_srv6_source cfg);
  _ ← given apply_vtep_source (Config_vtep_source6 cfg);
  _ ← given apply_vtep_source (Config_vtep_source cfg);
  _ ← every apply_vni (Config_vnis cfg);
  _ ← every apply_nhg (Config_ethernet_segments cfg);
  _ ← every apply_nexthop (Config_nexthops cfg);
  _ ← every apply_localsid (Config_localsids cfg);
  _ ← every apply_gtp_pdr (Config_gtp_pdrs cfg);
  _ ← every apply_fdb (Config_fdb cfg);
  _ ← every (apply_repl_slot members) (Config_repl_slots cfg);
  _ ← every apply_repl_seg (Config_repl_segs cfg);
  _ ← every apply_xconnect (Config_xconnects cfg);
  _ ← every apply_dx2v (Config_dx2v cfg);
  _ ← every apply_neighbor (Config_neighbors cfg);
  _ ← every apply_ilm (Config_ilm cfg);
  _ ← apply_routes (Config_routes cfg);
  _ ← every apply_route6 (Config_routes6 cfg);
  _ ← every apply_service (indexed (Config_services cfg));
  _ ← given apply_masq_node (Config_masq_node cfg);
  _ ← every apply_non_masq (Config_non_masq cfg);
  _ ← every apply_identity (Config_identities cfg);
  _ ← every apply_cidr_identity (Config_cidr_identities cfg);
  _ ← every apply_policy (Config_policies cfg);
  every apply_l7_service (Config_l7_services cfg).
End apply.
