(* ===== verification/Ctl.v ===== *)
(** * Replaying a configuration ([crates/cradle/src/ctl.rs])

    [cradle ctl apply]: the configuration a daemon would load, sent as
    requests of the control API to one that is running. *)

From S2P Require Import Prelude.
From S2P Require Import Contract.
From S2P Require Import Bpf.
From S2P Require Import Maps.
From S2P Require Import MapRefs.
From S2P Require Import Dataplane.
From S2P Require Import Text.
From S2P Require Import L7.
From S2P Require Import Control.
From S2P Require Import IpText.
From S2P Require Import Pb.
From S2P Require Import Grpc.
From S2P Require Import Config.

(** Why the command fails: a section it does not replay, a text it cannot
    read, or a request the daemon refuses. *)
Inductive ReplayErr : Type := Unreplayable (section : string) | BadText | Refused (st : Status).

(** The sections that are refused before anything is sent. *)
Definition unreplayable (cfg : Config) : list (string * bool) :=
  [("fib4_mode", bool_decide (is_Some (Config_fib4_mode cfg)));
   ("fdb_age_secs", bool_decide (is_Some (Config_fdb_age_secs cfg)));
   ("repl_slots", negb (bool_decide (Config_repl_slots cfg = [])));
   ("dx2v", negb (bool_decide (Config_dx2v cfg = [])))]%string.

(** ** Requests *)

Definition port_msg (p : PortCfg) : pb_Port :=
  mk_pb_Port (PortCfg_name p) "" (PortCfg_l3 p) (PortCfg_vlan p) (PortCfg_vrf p).
Definition etree_remote_msg (r : EtreeRemoteCfg) : pb_EtreeRemote :=
  mk_pb_EtreeRemote (EtreeRemoteCfg_bd r) (EtreeRemoteCfg_remote_vtep r) (EtreeRemoteCfg_leaf_only r).
Definition segment_msg (es : EthernetSegmentCfg) : pb_EthernetSegment :=
  mk_pb_EthernetSegment (EthernetSegmentCfg_esi es) (EthernetSegmentCfg_ports es) (EthernetSegmentCfg_esi_label es).
Definition role_msg (es : EthernetSegmentCfg) (r : EsRoleCfg) : pb_EsRole :=
  mk_pb_EsRole (EthernetSegmentCfg_esi es) (EsRoleCfg_bd r) (EsRoleCfg_df r) (EsRoleCfg_single_active r).
Definition vni_msg (v : VniCfg) : pb_Vni :=
  mk_pb_Vni (VniCfg_vni v) (VniCfg_vlan v) (VniCfg_l3 v) (VniCfg_vrf v) (default "" (VniCfg_rmac v)).
Definition fdb_msg (f : FdbCfg) : pb_FdbRemote :=
  mk_pb_FdbRemote (FdbCfg_mac f) (FdbCfg_bd f) (default "" (FdbCfg_remote_sid f)) (FdbCfg_nexthop f)
    (default "" (FdbCfg_remote_vtep f)) (default "" (FdbCfg_remote_pe f)) (FdbCfg_label f)
    (default "" (FdbCfg_esi f)) (FdbCfg_etree_leaf f).
Definition fdb_local_msg (f : FdbCfg) (port : string) : pb_FdbLocal := mk_pb_FdbLocal (FdbCfg_mac f) (FdbCfg_bd f) port.
Definition nhg_msg (es : EthernetSegmentCfg) (g : EsNhgCfg) : pb_EsNhg :=
  mk_pb_EsNhg (EthernetSegmentCfg_esi es) (EsNhgCfg_bd g) (nhg_member_pb <$> EsNhgCfg_members g) (EsNhgCfg_single_active g).
Definition nexthop_msg (nh : NexthopCfg) : pb_Nexthop :=
  mk_pb_Nexthop (NexthopCfg_id nh) (default "" (NexthopCfg_gateway nh)) (default "" (NexthopCfg_oif nh)) 0
    (nexthop_is_v6 nh) (NexthopCfg_labels nh) (NexthopCfg_segs nh) (NexthopCfg_encap_mode nh) (NexthopCfg_backup nh)
    (default "" (NexthopCfg_gtp_src nh)) (default "" (NexthopCfg_gtp_dst nh)) (NexthopCfg_gtp_teid nh)
    (default "" (NexthopCfg_vxlan_vtep nh)) (NexthopCfg_vxlan_l3vni nh) (default "" (NexthopCfg_vxlan_rmac nh))
    (NexthopCfg_mpls_pipe nh).
(** The length of the argument and the attachment port are not sent. *)
Definition localsid_msg (ls : LocalSidCfg) (behavior flavors : Z) : pb_LocalSid :=
  mk_pb_LocalSid (LocalSidCfg_sid ls) (if LocalSidCfg_prefix_len ls =? 0 then 128 else LocalSidCfg_prefix_len ls) behavior
    (LocalSidCfg_vrf ls) 0 "" (LocalSidCfg_block_bits ls) (LocalSidCfg_node_bits ls) (LocalSidCfg_fun_bits ls) 0
    (LocalSidCfg_nexthop ls) flavors.
Definition gtp_pdr_msg (pdr : GtpPdrCfg) : pb_GtpPdr :=
  mk_pb_GtpPdr (GtpPdrCfg_dst pdr) (GtpPdrCfg_teid pdr) (GtpPdrCfg_vrf pdr) (GtpPdrCfg_match_vrf pdr).
Definition repl_seg_msg (rs : ReplSegCfg) : pb_ReplSeg :=
  mk_pb_ReplSeg (ReplSegCfg_sid rs)
    ((λ b, mk_pb_ReplSegBranch (ReplSegBranchCfg_sid b) (ReplSegBranchCfg_nexthop b) (ReplSegBranchCfg_local b))
       <$> ReplSegCfg_branches rs)
    (ReplSegCfg_hop_limit_threshold rs).
Definition xconnect_msg (x : XconnectCfg) : pb_Xconnect :=
  mk_pb_Xconnect (XconnectCfg_port x) 0 (default "" (XconnectCfg_remote_sid x)) "" (XconnectCfg_vid x)
    (XconnectCfg_dx2v_table x) (default "" (XconnectCfg_remote_vtep x)) (XconnectCfg_remote_vni x)
    (XconnectCfg_local_vni x) (default "" (XconnectCfg_remote_pe x)) (XconnectCfg_remote_label x)
    (XconnectCfg_local_label x).
(** The bridge domain of a [pop-l2] entry is not sent. *)
Definition ilm_msg (i : IlmCfg) (op : Z) : pb_Ilm :=
  mk_pb_Ilm (IlmCfg_in_label i) (IlmCfg_nexthop i) op (IlmCfg_vrf i) (IlmCfg_ttl_uniform i).
Definition route_msg (r : RouteCfg) : pb_Route4 := mk_pb_Route4 (RouteCfg_prefix r) (RouteCfg_nexthop r) 0 (RouteCfg_vrf r).
Definition route6_msg (r : Route6Cfg) : pb_Route6 :=
  mk_pb_Route6 (Route6Cfg_prefix r) (Route6Cfg_nexthop r) 0 (Route6Cfg_vrf r).
Definition service_msg (nth : nat * ServiceCfg) : pb_Service :=
  let '(i, s) := nth in
  mk_pb_Service (wrap 32 (Z.of_nat i + 1)) (ServiceCfg_vip s) (ServiceCfg_port s) (ServiceCfg_proto s)
    ((λ b, mk_pb_Backend (BackendCfg_ip b) (BackendCfg_port b)) <$> ServiceCfg_backends s) (ServiceCfg_affinity s).
Definition rule_msg (r : PolicyRuleCfg) : option pb_PolicyRule :=
  proto ← rule_proto (PolicyRuleCfg_proto r);
  Some (mk_pb_PolicyRule (PolicyRuleCfg_identity r) proto (PolicyRuleCfg_port r) (PolicyRuleCfg_deny r)).
Definition policy_msg (pol : PolicyCfg) (rules egress_rules : list pb_PolicyRule) : pb_EndpointPolicy :=
  mk_pb_EndpointPolicy (PolicyCfg_host_if pol) (PolicyCfg_namespace pol) (PolicyCfg_pod pol) (PolicyCfg_enforce pol) rules
    (PolicyCfg_enforce_egress pol) egress_rules (PolicyCfg_audit pol)
    ((λ pp, mk_pb_L7PortPolicy (L7PortCfg_port pp)
              ((λ r, mk_pb_L7Rule (L7RuleCfg_method r) (L7RuleCfg_path r)) <$> L7PortCfg_rules pp)) <$> PolicyCfg_l7 pol).
(** The backend is read, and sent as an address and a port. *)
Definition l7_route_msg (r : L7RouteCfg) : option pb_L7Route :=
  sa ← parse_socket (L7RouteCfg_backend r);
  Some (mk_pb_L7Route (L7RouteCfg_prefix r) (show_ip sa.1) sa.2).

(** ** The command *)

Section replay.
Context `{HostOps} `{Regex} `{MapSys}.

Abbreviation Replay := (M Control ReplayErr).

Definition send {A} (m : M Control Status A) : Replay A := λ c,
  let '(c, r) := m c in (c, match r with Ok a => Ok a | Err e => Err (Refused e) end).
Definition text {A} (o : option A) : Replay A := of_option BadText o.

Definition replay_port (p : PortCfg) : Replay unit :=
  _ ← given (λ leaf, send (rpc_set_etree_role (mk_pb_EtreeRole (PortCfg_name p) leaf))) (PortCfg_etree_leaf p);
  send (rpc_set_port (port_msg p)).
Definition replay_domain (d : Z * list string) : Replay unit := send (rpc_set_l2_domain (mk_pb_L2Domain d.1 d.2)).
Definition replay_etree_remote (r : EtreeRemoteCfg) : Replay unit := send (rpc_set_etree_remote (etree_remote_msg r)).
Definition replay_segment (es : EthernetSegmentCfg) : Replay unit :=
  _ ← send (rpc_set_ethernet_segment (segment_msg es));
  _ ← every (λ r, send (rpc_set_es_role (role_msg es r))) (EthernetSegmentCfg_roles es);
  send (rpc_set_es_peers (mk_pb_EsPeers (EthernetSegmentCfg_esi es) (EthernetSegmentCfg_peers es))).
Definition replay_srv6_source (src : string) : Replay unit := send (rpc_set_srv6_encap_source (mk_pb_Srv6EncapSource src)).
Definition replay_vtep_source (src : string) : Replay unit := send (rpc_set_vtep_source (mk_pb_VtepSource src)).
Definition replay_vni (v : VniCfg) : Replay unit := send (rpc_set_vni (vni_msg v)).
Definition replay_fdb (f : FdbCfg) : Replay unit :=
  match FdbCfg_port f with
  | Some port => send (rpc_add_fdb_local (fdb_local_msg f port))
  | None => send (rpc_add_fdb_remote (fdb_msg f))
  end.
Definition replay_nhg (es : EthernetSegmentCfg) : Replay unit :=
  every (λ g, send (rpc_set_es_nhg (nhg_msg es g))) (EthernetSegmentCfg_nhg es).
Definition replay_nexthop (nh : NexthopCfg) : Replay unit := send (rpc_set_nexthop (nexthop_msg nh)).
Definition replay_localsid (ls : LocalSidCfg) : Replay unit :=
  behavior ← text (srv6_behavior_of_name (LocalSidCfg_behavior ls));
  flavors ← text (srv6_flavors (LocalSidCfg_flavors ls));
  send (rpc_add_local_sid (localsid_msg ls behavior flavors)).
Definition replay_gtp_pdr (pdr : GtpPdrCfg) : Replay unit := send (rpc_add_gtp_pdr (gtp_pdr_msg pdr)).
Definition replay_repl_seg (rs : ReplSegCfg) : Replay unit := send (rpc_set_repl_seg (repl_seg_msg rs)).
Definition replay_xconnect (x : XconnectCfg) : Replay unit := send (rpc_add_xconnect (xconnect_msg x)).
Definition replay_neighbor (n : NeighborCfg) : Replay unit :=
  match parse_ip (NeighborCfg_ip n) with
  | Some (V6 _) => send (rpc_set_neighbor6 (mk_pb_Neighbor6 (NeighborCfg_oif n) (NeighborCfg_ip n) (NeighborCfg_mac n) 0))
  | _ => send (rpc_set_neighbor4 (mk_pb_Neighbor4 (NeighborCfg_oif n) (NeighborCfg_ip n) (NeighborCfg_mac n) 0))
  end.
Definition replay_ilm (i : IlmCfg) : Replay unit :=
  op ← text (ilm_action (IlmCfg_action i)); send (rpc_add_ilm (ilm_msg i op)).
Definition replay_routes (routes : list RouteCfg) : Replay unit :=
  if bool_decide (routes = []) then mret tt else send (rpc_add_route4_batch (mk_pb_Route4Batch (route_msg <$> routes))).
Definition replay_route6 (r : Route6Cfg) : Replay unit := send (rpc_add_route6 (route6_msg r)).
Definition replay_service (nth : nat * ServiceCfg) : Replay unit := send (rpc_add_service (service_msg nth)).
Definition replay_masq_node (node : string) : Replay unit := send (rpc_set_masq_node (mk_pb_MasqNode node)).
Definition replay_non_masq (cidr : string) : Replay unit := send (rpc_set_non_masq (mk_pb_NonMasq cidr false)).
Definition replay_identity (i : IdentityCfg) : Replay unit :=
  send (rpc_set_identity (mk_pb_Identity (IdentityCfg_ip i) (IdentityCfg_id i) (IdentityCfg_vrf i))).
Definition replay_cidr_identity (c : CidrIdentityCfg) : Replay unit :=
  send (rpc_set_cidr_identity (mk_pb_CidrIdentity (CidrIdentityCfg_cidr c) (CidrIdentityCfg_id c) false (CidrIdentityCfg_vrf c))).
Definition replay_policy (pol : PolicyCfg) : Replay unit :=
  rules ← text (mapM rule_msg (PolicyCfg_rules pol));
  egress_rules ← text (mapM rule_msg (PolicyCfg_egress_rules pol));
  send (rpc_set_endpoint_policy (policy_msg pol rules egress_rules)).
Definition replay_l7_service (svc : L7ServiceCfg) : Replay unit :=
  routes ← text (mapM l7_route_msg (L7ServiceCfg_routes svc));
  send (rpc_add_l7_service (mk_pb_L7Service (L7ServiceCfg_vip svc) (L7ServiceCfg_port svc) routes)).

Definition ctl_apply (cfg : Config) : Replay unit :=
  _ ← every (λ '(name, present), if (present : bool) then bail (Unreplayable name) else mret tt) (unreplayable cfg);
  _ ← every replay_port (Config_ports cfg);
  _ ← every replay_domain (l2_domains (Config_ports cfg));
  _ ← given (λ arg, send (rpc_set_etree_leaf_arg (mk_pb_EtreeLeafArg arg))) (Config_etree_leaf_arg cfg);
  _ ← given (λ label, send (rpc_set_etree_leaf_label (mk_pb_EtreeLeafLabel label))) (Config_etree_leaf_label cfg);
  _ ← every replay_etree_remote (Config_etree_remotes cfg);
  _ ← every replay_segment (Config_ethernet_segments cfg);
  _ ← given replay_srv6_source (Config_srv6_source cfg);
  _ ← given replay_vtep_source (Config_vtep_source6 cfg);
  _ ← given replay_vtep_source (Config_vtep_source cfg);
  _ ← every replay_vni (Config_vnis cfg);
  _ ← every replay_fdb (Config_fdb cfg);
  _ ← every replay_nhg (Config_ethernet_segments cfg);
  _ ← every replay_nexthop (Config_nexthops cfg);
  _ ← every replay_localsid (Config_localsids cfg);
  _ ← every replay_gtp_pdr (Config_gtp_pdrs cfg);
  _ ← every replay_repl_seg (Config_repl_segs cfg);
  _ ← every replay_xconnect (Config_xconnects cfg);
  _ ← every replay_neighbor (Config_neighbors cfg);
  _ ← every replay_ilm (Config_ilm cfg);
  _ ← replay_routes (Config_routes cfg);
  _ ← every replay_route6 (Config_routes6 cfg);
  _ ← every replay_service (indexed (Config_services cfg));
  _ ← given replay_masq_node (Config_masq_node cfg);
  _ ← every replay_non_masq (Config_non_masq cfg);
  _ ← every replay_identity (Config_identities cfg);
  _ ← every replay_cidr_identity (Config_cidr_identities cfg);
  _ ← every replay_policy (Config_policies cfg);
  every replay_l7_service (Config_l7_services cfg).
End replay.
