(* ===== verification/TableTypes.v ===== *)
(** * The tables behind forwarding are well typed

    The programs index the arrays of a nexthop and copy addresses of a fixed
    width out of the maps without a check: they rely on what the daemon
    writes.  Whatever the routing requests of the control API ask for, the
    entries have the shape the programs rely on, in every state a packet can
    meet. *)

From S2P Require Import Prelude.
From S2P Require Import Contract.
From S2P Require Import Common.
From S2P Require Import Dir24.
From S2P Require Import Bpf.
From S2P Require Import Frames.
From S2P Require Import Maps.
From S2P Require Import MapRefs.
From S2P Require Import Dataplane.
From S2P Require Import DpRun.
From S2P Require Import Text.
From S2P Require Import L7.
From S2P Require Import Control.
From S2P Require Import CtlRun.
From S2P Require Import Overlay.
From S2P Require Import IpText.
From S2P Require Import Pb.
From S2P Require Import Grpc.
From S2P Require Import KernelRef.
From S2P Require Import DpPolicy.
From S2P Require Import HostRef.

(** ** Well-typed entries *)

Definition octets (n : nat) (a : bytes) : Prop := length a = n ∧ Forall is_byte a.

#[global] Instance octets_dec n a : Decision (octets n a).
Proof. unfold octets. apply _. Defined.

Definition typed_nexthop (nh : NextHop) : Prop :=
  u32 (nh_gateway_v4 nh) ∧ octets 16 (nh_gateway_v6 nh) ∧
  Z.of_nat (length (nh_labels nh)) = MAX_LABELS ∧ 0 ≤ nh_num_labels nh ≤ MAX_LABELS ∧
  Forall (λ l, l < 2 ^ 20) (nh_labels nh).
Definition typed_srv6 (e : Srv6Encap) : Prop :=
  1 ≤ se_num_segs e ≤ MAX_SEGS ∧ Z.of_nat (length (se_segs e)) = MAX_SEGS ∧ Forall (octets 16) (se_segs e).
Definition typed_gtp (e : GtpEncap) : Prop := octets 4 (ge_src e) ∧ octets 4 (ge_dst e) ∧ octets 4 (ge_teid e).
Definition typed_gtp6 (e : Gtp6Encap) : Prop := octets 16 (g6_src e) ∧ octets 16 (g6_dst e) ∧ octets 4 (g6_teid e).
Definition typed_vxlan (e : VxlanEncap) : Prop := octets 4 (ve_vtep e) ∧ octets 6 (ve_rmac e).
Definition typed_neigh (e : NeighEntry) : Prop := octets 6 (ne_mac e).
(** A prefix of [lo] to [8 * n] bits of an [n]-octet key. *)
Definition typed_prefix (lo : Z) (n : nat) (k : Z * bytes) : Prop := lo ≤ k.1 ≤ 8 * Z.of_nat n ∧ octets n k.2.

(** The behaviors the programs have code for. *)
Definition dispatched : list Z := known_behaviors ++ [SRV6_BH_END_DX2; SRV6_BH_END_DX2V].

Record typed (d : Dp) : Prop := mkTyped {
  ty_nexthops : map_Forall (λ _, typed_nexthop) (view m_NEXTHOPS d);
  ty_srv6 : map_Forall (λ _, typed_srv6) (view m_SRV6_ENCAP d);
  ty_gtp : map_Forall (λ _, typed_gtp) (view m_GTP_ENCAP d);
  ty_gtp6 : map_Forall (λ _, typed_gtp6) (view m_GTP6_ENCAP d);
  ty_vxlan : map_Forall (λ _, typed_vxlan) (view m_VXLAN_ENCAP d);
  ty_neigh4 : map_Forall (λ _, typed_neigh) (view m_NEIGH4 d);
  ty_neigh6 : map_Forall (λ k e, octets 16 (n6_addr k) ∧ typed_neigh e) (view m_NEIGH6 d);
  ty_fib4 : map_Forall (λ k _, typed_prefix 0 4 k) (view m_FIB4 d);
  ty_fib4_vrf : map_Forall (λ k _, typed_prefix 32 8 k) (view m_FIB4_VRF d);
  ty_fib6 : map_Forall (λ k _, typed_prefix 0 16 k) (view m_FIB6 d);
  ty_fib6_vrf : map_Forall (λ k _, typed_prefix 32 20 k) (view m_FIB6_VRF d);
  ty_localsid : map_Forall (λ k ls, typed_prefix 0 16 k ∧ ls_behavior ls ∈ dispatched) (view m_SRV6_LOCALSID d);
}.

(** What a step keeps. *)
Definition keeps_typed (d d' : Dp) : Prop := typed d → typed d'.
#[global] Instance keeps_typed_preorder : PreOrder keeps_typed.
Proof. split; [intros d Hd; exact Hd|]. intros a b c Hab Hbc Ha. auto. Qed.

(** ** Single writes *)

Section writes.
Context `{MapSysLaws}.

Lemma trie_update_typed {V} (P : Z * bytes → V → Prop) (cap n : Z) (k : bytes) (v : V) (t t' : gmap (Z * bytes) V) :
  map_Forall P t → (n ≤ 8 * Z.of_nat (length k) → P (n, k) v) → trie_update cap n k v t = Some t' → map_Forall P t'.
Proof.
  intros Ht Hp Hu. apply trie_update_some in Hu as [Hn Hl]. intros [n' k'] v'. rewrite Hl.
  case_bool_decide as E1; [destruct E1 as [-> ->]; intros [= <-]; auto|].
  case_bool_decide; [done|]. apply Ht.
Qed.
Lemma trie_delete_typed {V} (P : Z * bytes → V → Prop) (n : Z) (k : bytes) (t t' : gmap (Z * bytes) V) :
  map_Forall P t → trie_delete n k t = Some t' → map_Forall P t'.
Proof.
  intros Ht Hu. pose proof (trie_delete_some _ _ _ _ Hu) as Hl. intros [n' k'] v'. rewrite Hl.
  case_bool_decide; [done|]. apply Ht.
Qed.

Lemma evolves_map_put {X} (r : MapRef X) (call : X → option X) :
  (∀ d x, call (view r d) = Some x → keeps_typed d (over r x d)) → evolves keeps_typed (map_put r call).
Proof.
  intros Hc s. unfold map_put. rewrite bind_dp. unfold of_option. destruct (call (view r (now s))) as [x|] eqn:E.
  - apply (evolves_commit keeps_typed (λ d, over r x d)). by apply Hc.
  - split; [by cbn|]. exists []. by rewrite app_nil_r.
Qed.
End writes.

(** A write to one map leaves the others alone: what is left is its entry. *)
Ltac hash_typed :=
  let Hu := fresh "Hu" in apply evolves_map_put; intros ? ? Hu [];
  first [apply hash_update_some in Hu as ->
        |rewrite hash_delete_spec in Hu; case_bool_decide; [injection Hu as <-|done]];
  split; try done; first [apply map_Forall_insert_2; [|done]|by apply map_Forall_delete].
Ltac trie_typed :=
  let Hu := fresh "Hu" in apply evolves_map_put; intros ? ? Hu []; split; try done;
  first [eapply trie_update_typed; [eassumption| |exact Hu]|eapply trie_delete_typed; [eassumption|exact Hu]].

Section operations.
Context `{MapSysLaws}.
Implicit Types (src dst mac k : bytes) (id oif fl : Z) (gw : option bytes).

Lemma put_nexthop id nh : typed_nexthop nh → evolves keeps_typed (hash_put m_NEXTHOPS id nh).
Proof. intros. hash_typed. done. Qed.
Lemma put_srv6 id e : typed_srv6 e → evolves keeps_typed (hash_put m_SRV6_ENCAP id e).
Proof. intros. hash_typed. done. Qed.
Lemma put_gtp id e : typed_gtp e → evolves keeps_typed (hash_put m_GTP_ENCAP id e).
Proof. intros. hash_typed. done. Qed.
Lemma put_gtp6 id e : typed_gtp6 e → evolves keeps_typed (hash_put m_GTP6_ENCAP id e).
Proof. intros. hash_typed. done. Qed.
Lemma put_vxlan id e : typed_vxlan e → evolves keeps_typed (hash_put m_VXLAN_ENCAP id e).
Proof. intros. hash_typed. done. Qed.
Lemma put_fib4 n k e : typed_prefix 0 4 (n, k) → evolves keeps_typed (trie_put m_FIB4 n k e).
Proof. intros. trie_typed. done. Qed.
Lemma put_fib4_vrf n k e : typed_prefix 32 8 (n, k) → evolves keeps_typed (trie_put m_FIB4_VRF n k e).
Proof. intros. trie_typed. done. Qed.

(** *** Nexthops and neighbors *)

Lemma default_octets (n : nat) gw : from_option (octets n) True gw → octets n (default (replicate n 0) gw).
Proof.
  destruct gw; [done|]. intros _. split; [apply length_replicate|]. apply Forall_replicate. unfold is_byte. lia.
Qed.
Lemma gateway_u32 (gw : option bytes) : from_option (octets 4) True gw → u32 (from_option of_be 0 gw).
Proof.
  destruct gw as [a|]; [|done]. intros [Hl Hb]. pose proof (of_be_range a Hb) as Hr. by rewrite Hl in Hr.
Qed.

Lemma pack_labels_typed labels pipe ls n fl : pack_labels labels pipe = Ok (ls, n, fl) →
  Z.of_nat (length ls) = MAX_LABELS ∧ 0 ≤ n ≤ MAX_LABELS ∧ Forall (λ l, l < 2 ^ 20) ls.
Proof.
  unfold pack_labels. destruct (Z.to_nat MAX_LABELS <? length labels)%nat eqn:El; [done|]. apply Nat.ltb_ge in El.
  destruct (first_some _ labels) eqn:Ef; [done|]. intros [= <- <- _]. unfold padded.
  rewrite length_app, length_replicate. unfold MAX_LABELS in *. split_and!; [lia..|]. apply Forall_app. split.
  - apply Forall_forall. intros l Hl. rewrite first_some_None in Ef. specialize (Ef l Hl). cbn in Ef.
    destruct (Z.leb_spec (2 ^ 20) l); [done|lia].
  - apply Forall_replicate. lia.
Qed.

Lemma mk_typed_nexthop (gw4 : Z) (gw6 : bytes) oif fl ls n backup : u32 gw4 → octets 16 gw6 →
  Z.of_nat (length ls) = MAX_LABELS ∧ 0 ≤ n ≤ MAX_LABELS ∧ Forall (λ l, l < 2 ^ 20) ls →
  typed_nexthop (mkNextHop gw4 gw6 oif fl ls n backup).
Proof. intros ? ? (? & ? & ?). done. Qed.
Lemma zero16_octets : octets 16 zero16.
Proof. by apply (default_octets 16 None). Qed.

Lemma nexthop_set_typed id gw oif labels backup pipe : from_option (octets 4) True gw →
  evolves keeps_typed (nexthop_set id gw oif labels backup pipe).
Proof.
  intros Hg. unfold nexthop_set. destruct (pack_labels labels pipe) as [[[ls n] fl]|e] eqn:E; [|apply evolves_bail, _].
  apply put_nexthop, mk_typed_nexthop; [by apply gateway_u32|apply zero16_octets|by eapply pack_labels_typed].
Qed.
Lemma nexthop_set_v6_typed id gw oif labels backup pipe : from_option (octets 16) True gw →
  evolves keeps_typed (nexthop_set_v6 id gw oif labels backup pipe).
Proof.
  intros Hg. unfold nexthop_set_v6. destruct (pack_labels labels pipe) as [[[ls n] fl]|e] eqn:E; [|apply evolves_bail, _].
  apply put_nexthop, mk_typed_nexthop; [done|by apply (default_octets 16)|by eapply pack_labels_typed].
Qed.

(** A nexthop without labels. *)
Lemma put_plain_nexthop id (gw4 : Z) (gw6 : bytes) oif fl : u32 gw4 → octets 16 gw6 →
  evolves keeps_typed (hash_put m_NEXTHOPS id (mkNextHop gw4 gw6 oif fl no_labels 0 0)).
Proof. intros. apply put_nexthop, mk_typed_nexthop; [done..|]. by apply (pack_labels_typed [] false no_labels 0 0). Qed.

Lemma nexthop_set_srv6_typed id gw oif segs mode : from_option (octets 16) True gw → Forall (octets 16) segs →
  evolves keeps_typed (nexthop_set_srv6 id gw oif segs mode).
Proof.
  intros Hg Hs. unfold nexthop_set_srv6. case_bool_decide as E0; [apply evolves_bail, _|].
  cbn [orb]. destruct (Z.ltb_spec MAX_SEGS (Z.of_nat (length segs))); [apply evolves_bail, _|].
  apply evolves_bind; [apply _|by apply put_plain_nexthop; [done|apply (default_octets 16)]|]. intros _.
  apply put_srv6. unfold typed_srv6, padded; cbn. rewrite length_app, length_replicate.
  assert (length segs ≠ 0%nat) by by destruct segs. unfold MAX_SEGS in *.
  split_and!; [lia..|]. apply Forall_app. split; [done|]. apply Forall_replicate, zero16_octets.
Qed.
Lemma nexthop_set_gtp_typed id gw oif src dst teid : from_option (octets 4) True gw → octets 4 src → octets 4 dst →
  evolves keeps_typed (nexthop_set_gtp id gw oif src dst teid).
Proof.
  intros. apply evolves_bind; [apply _|apply put_plain_nexthop; [by apply gateway_u32|apply zero16_octets]|]. intros _.
  apply put_gtp. split; [done|]. split; [done|]. split; [apply to_be_length|apply to_be_bytes].
Qed.
Lemma nexthop_set_gtp6_typed id gw oif src dst teid : from_option (octets 16) True gw → octets 16 src → octets 16 dst →
  evolves keeps_typed (nexthop_set_gtp6 id gw oif src dst teid).
Proof.
  intros. apply evolves_bind; [apply _|apply put_plain_nexthop; [done|by apply (default_octets 16)]|]. intros _.
  apply put_gtp6. split; [done|]. split; [done|]. split; [apply to_be_length|apply to_be_bytes].
Qed.
Lemma nexthop_set_vxlan_typed id gw oif vtep l3vni rmac : from_option (octets 4) True gw → octets 4 vtep → octets 6 rmac →
  evolves keeps_typed (nexthop_set_vxlan id gw oif vtep l3vni rmac).
Proof.
  intros. apply evolves_bind; [apply _|apply put_plain_nexthop; [by apply gateway_u32|apply zero16_octets]|]. intros _.
  by apply put_vxlan.
Qed.
Lemma nexthop_group_set_typed group members : evolves keeps_typed (nexthop_group_set group members).
Proof.
  apply evolves_bind; [apply _|apply evolves_map_put; intros d x Hu []; by split|]. intros _.
  apply evolves_for; [apply _|]. intros j x _. apply evolves_map_put. intros d y Hu []. by split.
Qed.
Lemma neigh4_set_typed ifindex ip mac : octets 6 mac → evolves keeps_typed (neigh4_set ifindex ip mac).
Proof. intros. unfold neigh4_set. hash_typed. done. Qed.
Lemma neigh6_set_typed ifindex ip mac : octets 16 ip → octets 6 mac → evolves keeps_typed (neigh6_set ifindex ip mac).
Proof. intros. unfold neigh6_set. hash_typed. done. Qed.

(** *** Routes *)

Lemma vrf_key_octets vrf n k : octets n k → octets (4 + n) (vrf_key vrf k).
Proof.
  intros [Hl Hb]. unfold vrf_key. split; [by rewrite length_app, to_le_length, Hl|].
  apply Forall_app. split; [apply to_le_bytes|done].
Qed.

Lemma evolves_private (f : Dp → Dp) : (∀ d, keeps_typed d (f d)) → evolves keeps_typed (private f).
Proof. intros Hf s. split; [apply Hf|]. exists []. by rewrite app_nil_r. Qed.

Lemma apply_plan_typed plan : evolves keeps_typed (apply_plan plan).
Proof.
  apply evolves_for; [apply _|]. intros j w _ s. rewrite bind_dp. unfold of_option.
  destruct (apply_write _ w) as [t|].
  - apply (evolves_commit keeps_typed (λ d, set_tbls t d)). intros []. by split.
  - split; [intros Hd; exact Hd|]. exists []. by rewrite app_nil_r.
Qed.
Lemma with_engine_typed eng op : evolves keeps_typed (with_engine eng op).
Proof.
  unfold with_engine. destruct (op eng) as [eng' r]. apply evolves_bind; [apply _| |].
  - apply evolves_private. intros d []. by split.
  - intros _. destruct r; [apply apply_plan_typed|apply evolves_bail, _].
Qed.

Lemma route4_add_typed vrf k len nh fl : octets 4 k → 0 ≤ len ≤ 32 → evolves keeps_typed (route4_add vrf k len nh fl).
Proof.
  intros Hk Hl. unfold route4_add. destruct (negb _).
  - apply put_fib4_vrf. split; [cbn; lia|by apply (vrf_key_octets vrf 4)].
  - apply evolves_dp. intros d. destruct (dp_dir24 d); [apply with_engine_typed|]. apply put_fib4. split; [cbn; lia|done].
Qed.
Lemma route4_del_typed vrf k len : evolves keeps_typed (route4_del vrf k len).
Proof.
  unfold route4_del. destruct (negb _); [trie_typed|].
  apply evolves_dp. intros d. destruct (dp_dir24 d); [apply with_engine_typed|trie_typed].
Qed.
Lemma route4_add_bulk_typed rs : (∀ r, r ∈ rs → octets 4 (r4_addr r) ∧ 0 ≤ r4_len r ≤ 32) →
  evolves keeps_typed (route4_add_bulk rs).
Proof.
  intros Hr. unfold route4_add_bulk. apply evolves_bind; [apply _| |].
  - apply evolves_for; [apply _|]. intros j r [_ Hin]%list_elem_of_filter. by apply route4_add_typed; apply Hr.
  - intros _. apply evolves_dp. intros d. destruct (dp_dir24 d) as [eng|].
    + case_bool_decide; [apply evolves_ret, _|apply with_engine_typed].
    + apply evolves_for; [apply _|]. intros j r [_ Hin]%list_elem_of_filter. destruct (Hr r Hin) as [Ha Hl].
      apply put_fib4. split; [cbn; lia|done].
Qed.
Lemma route6_add_typed vrf k len nh fl : octets 16 k → 0 ≤ len ≤ 128 → evolves keeps_typed (route6_add vrf k len nh fl).
Proof.
  intros Hk Hl. unfold route6_add. destruct (negb _); trie_typed.
  - split; [cbn; lia|by apply (vrf_key_octets vrf 16)].
  - by split; [cbn; lia|].
Qed.
Lemma route6_del_typed vrf k len : evolves keeps_typed (route6_del vrf k len).
Proof. unfold route6_del. destruct (negb _); trie_typed. Qed.

(** A SID longer than an address is refused by the trie. *)
Lemma localsid_add_typed sid len ls : octets 16 sid → 0 ≤ len → ls_behavior ls ∈ dispatched →
  evolves keeps_typed (localsid_add sid len ls).
Proof.
  intros Hs Hl Hb. unfold localsid_add. trie_typed. intros Hn. destruct Hs as [E Hby]. rewrite E in Hn.
  split; [|done]. split; [cbn; lia|done].
Qed.
Lemma localsid_del_typed sid len : evolves keeps_typed (localsid_del sid len).
Proof. unfold localsid_del. trie_typed. Qed.
End operations.

(** ** Requests *)

(** The data plane now, and every one a packet has met since. *)
Definition safe `{HostOps} `{Regex} (c : Control) : Prop := typed (now (c_run c)) ∧ Forall typed (seen (c_run c)).

Section requests.
Context `{HostOps} `{Regex} `{MapSysLaws}.

Definition keeps_safe {E A} (m : M Control E A) : Prop := ∀ c, safe c → safe (m c).1.

Lemma safe_ret {E A} (a : A) : keeps_safe (mret a : M Control E A).
Proof. by intros c. Qed.
Lemma safe_bail {E A} (e : E) : keeps_safe (bail e : M Control E A).
Proof. by intros c. Qed.
Lemma safe_bind {E A B} (m : M Control E A) (f : A → M Control E B) :
  keeps_safe m → (∀ a, keeps_safe (f a)) → keeps_safe (m ≫= f).
Proof.
  intros Hm Hf c Hc. specialize (Hm c Hc). unfold mbind, M_bind. destruct (m c) as [c1 [a|e]]; [by apply Hf|done].
Qed.
(** What a parser accepts may be assumed. *)
Lemma safe_parsed {A B} (o : option A) (f : A → M Control Status B) :
  (∀ a, o = Some a → keeps_safe (f a)) → keeps_safe (parsed o ≫= f).
Proof. destruct o; [intros Hf; by apply (Hf a)|]. intros _. by intros c. Qed.
Lemma safe_call {A} (m : M Control CtlErr A) : keeps_safe m → keeps_safe (call m).
Proof. intros Hm c Hc. specialize (Hm c Hc). unfold call. by destruct (m c). Qed.
Lemma safe_on_dp {A} (m : Ctl A) : evolves keeps_typed m → keeps_safe (on_dp m).
Proof.
  intros Hm c [Hn Hs]. destruct (Hm (c_run c)) as (Hlast & ds & E & F). unfold on_dp.
  destruct (m (c_run c)) as [s r]. cbn [fst] in *. split; cbn; [by apply Hlast|].
  rewrite E. apply Forall_app. split; [done|]. eapply Forall_impl; [exact F|]. intros d Hd. by apply Hd.
Qed.
Lemma safe_resolve name : keeps_safe (resolve name).
Proof. intros c Hc. unfold resolve. rewrite bind_get_M. by destruct (ifindex_of _ _). Qed.

(** A text that is absent or read. *)
Lemma opt_str_octets n (parse : string → option bytes) s o : (∀ s a, parse s = Some a → octets n a) →
  opt_str parse s = Some o → from_option (octets n) True o.
Proof.
  intros Hp. unfold opt_str. destruct (is_set s); [|by intros [= <-]].
  destruct (parse s) as [a|] eqn:E; [|done]. intros [= <-]. by eapply Hp.
Qed.
Lemma parse_mac_octets s a : parse_mac s = Some a → octets 6 a.
Proof.
  unfold parse_mac. destruct (length _ =? 6)%nat eqn:E; [|done]. apply Nat.eqb_eq in E.
  intros Hm%mapM_Some. split; [by rewrite <- (Forall2_length _ _ _ Hm)|].
  clear E. induction Hm as [|x b l k Hx _ IH]; constructor; [|done].
  unfold is_byte. pose proof (from_str_radix_nonneg 8 16 x b ltac:(lia) Hx).
  apply from_str_radix_below in Hx; lia.
Qed.

(** The routing requests of the API. *)
Inductive RoutingRequest : Type :=
| SetNexthop (n : pb_Nexthop)
| SetNexthopGroup (g : pb_NexthopGroup)
| AddRoute4 (r : pb_Route4)
| AddRoute4Batch (b : pb_Route4Batch)
| DelRoute4 (r : pb_Route4Del)
| AddRoute6 (r : pb_Route6)
| DelRoute6 (r : pb_Route6Del)
| SetNeighbor4 (n : pb_Neighbor4)
| SetNeighbor6 (n : pb_Neighbor6)
| AddLocalSid (s : pb_LocalSid)
| DelLocalSid (s : pb_LocalSidDel).

Definition serve_routing (r : RoutingRequest) : M Control Status unit :=
  match r with
  | SetNexthop n => rpc_set_nexthop n
  | SetNexthopGroup g => rpc_set_nexthop_group g
  | AddRoute4 r => rpc_add_route4 r
  | AddRoute4Batch b => rpc_add_route4_batch b
  | DelRoute4 r => rpc_del_route4 r
  | AddRoute6 r => rpc_add_route6 r
  | DelRoute6 r => rpc_del_route6 r
  | SetNeighbor4 n => rpc_set_neighbor4 n
  | SetNeighbor6 n => rpc_set_neighbor6 n
  | AddLocalSid s => rpc_add_local_sid s
  | DelLocalSid s => rpc_del_local_sid s
  end.

Lemma safe_nh_oif n : keeps_safe (nh_oif n) ∧ keeps_safe (nh_oif_or_none n).
Proof.
  unfold nh_oif, nh_oif_or_none. split; (destruct (_ : bool); [apply safe_ret|apply safe_call, safe_resolve]).
Qed.
Lemma set_nexthop_keeps n : keeps_safe (rpc_set_nexthop n).
Proof.
  pose proof (λ s o, opt_str_octets 4 parse_ipv4 s o parse_ipv4_wf) as H4.
  pose proof (λ s o, opt_str_octets 16 parse_ipv6 s o parse_ipv6_wf) as H6.
  destruct (safe_nh_oif n) as [Ho Ho']. unfold rpc_set_nexthop.
  destruct (is_set _); [|destruct (is_set _); [|destruct (negb _); [|destruct (Nexthop_v6 n)]]].
  - apply safe_parsed; intros gw Hg%H4. apply safe_bind; [done|intros oif].
    apply safe_parsed; intros vtep Hv%parse_ipv4_wf. apply safe_parsed; intros rmac Hr%parse_mac_octets.
    by apply safe_call, safe_on_dp, nexthop_set_vxlan_typed.
  - apply safe_bind; [done|intros oif]. apply safe_parsed; intros [dst|dst] Hd.
    + apply safe_parsed; intros gw Hg%H4. apply safe_parsed; intros src Hs%parse_ipv4_wf.
      apply parse_ip_v4 in Hd. by apply safe_call, safe_on_dp, nexthop_set_gtp_typed.
    + apply safe_parsed; intros gw Hg%H6. apply safe_parsed; intros src Hs%parse_ipv6_wf.
      apply parse_ip_v6 in Hd. by apply safe_call, safe_on_dp, nexthop_set_gtp6_typed.
  - apply safe_parsed; intros gw Hg%H6. apply safe_bind; [done|intros oif].
    apply safe_parsed; intros segs Hs%mapM_Some. apply safe_call, safe_on_dp, nexthop_set_srv6_typed; [done|].
    clear -Hs. induction Hs as [|s a l k Ha _ IH]; constructor; [by eapply parse_ipv6_wf|done].
  - apply safe_parsed; intros gw Hg%H6. apply safe_bind; [done|intros oif].
    by apply safe_call, safe_on_dp, nexthop_set_v6_typed.
  - apply safe_parsed; intros gw Hg%H4. destruct (_ || _); apply safe_call.
    + by apply safe_on_dp, nexthop_set_typed.
    + apply safe_bind; [apply safe_resolve|]. intros oif. by apply safe_on_dp, nexthop_set_typed.
Qed.

Lemma set_neighbor4_keeps n : keeps_safe (rpc_set_neighbor4 n).
Proof.
  apply safe_parsed; intros ip Hi. apply safe_parsed; intros mac Hm%parse_mac_octets.
  destruct (negb _); apply safe_call; [|apply safe_bind; [apply safe_resolve|intros oif]];
    by apply safe_on_dp, neigh4_set_typed.
Qed.
Lemma set_neighbor6_keeps n : keeps_safe (rpc_set_neighbor6 n).
Proof.
  apply safe_parsed; intros ip Hi%parse_ipv6_wf. apply safe_parsed; intros mac Hm%parse_mac_octets.
  destruct (negb _); apply safe_call; [|apply safe_bind; [apply safe_resolve|intros oif]];
    by apply safe_on_dp, neigh6_set_typed.
Qed.

Lemma batch_octets b routes r : mapM batch_route (Route4Batch_routes b) = Some routes → r ∈ routes →
  octets 4 (r4_addr r) ∧ 0 ≤ r4_len r ≤ 32.
Proof.
  intros Hm%mapM_Some Hr. induction Hm as [|x y l k Hx _ IH]; [by apply not_elem_of_nil in Hr|].
  apply elem_of_cons in Hr as [->|Hr]; [|by apply IH]. unfold batch_route in Hx.
  destruct (parse_ipv4_prefix _) as [[a len]|] eqn:E; [|done]. injection Hx as <-. by apply parse_ipv4_prefix_wf in E.
Qed.

Lemma sid_prefix_len_nonneg len : 0 ≤ sid_prefix_len len.
Proof. unfold sid_prefix_len, wrap. destruct (_ =? _); [lia|]. apply Z.mod_pos_bound. lia. Qed.
Lemma add_local_sid_keeps s : keeps_safe (rpc_add_local_sid s).
Proof.
  apply safe_parsed; intros sid Hs%parse_ipv6_wf. unfold srv6_behavior. case_bool_decide as Hb; [|by intros c].
  change (call (mret ?x) ≫= ?f) with (λ c, f x c). cbn beta. destruct (7 <? _); [apply safe_bail|].
  apply safe_call. unfold add_localsid. apply safe_bind.
  { unfold srv6_dt2m_arg_bits. destruct (negb _); [apply safe_ret|]. destruct (_ || _); [apply safe_ret|apply safe_bail]. }
  intros arg. apply safe_on_dp, localsid_add_typed; [done|apply sid_prefix_len_nonneg|].
  cbn. unfold dispatched. set_solver.
Qed.

Lemma serve_routing_keeps r : keeps_safe (serve_routing r).
Proof.
  destruct r as [n|g|r|b|r|r|r|n|n|s|s]; cbn [serve_routing].
  - apply set_nexthop_keeps.
  - apply safe_call, safe_on_dp, nexthop_group_set_typed.
  - apply safe_parsed; intros [a len] [Ha Hl]%parse_ipv4_prefix_wf. by apply safe_call, safe_on_dp, route4_add_typed.
  - apply safe_parsed; intros routes Hm. apply safe_call, safe_on_dp, route4_add_bulk_typed.
    intros r Hr. by apply (batch_octets b routes r Hm).
  - apply safe_parsed; intros [a len] _. apply safe_call, safe_on_dp, route4_del_typed.
  - apply safe_parsed; intros [a len] [Ha Hl]%parse_ipv6_prefix_wf. by apply safe_call, safe_on_dp, route6_add_typed.
  - apply safe_parsed; intros [a len] _. apply safe_call, safe_on_dp, route6_del_typed.
  - apply set_neighbor4_keeps.
  - apply set_neighbor6_keeps.
  - apply add_local_sid_keeps.
  - apply safe_parsed; intros sid _. apply safe_call, safe_on_dp, localsid_del_typed.
Qed.

(** C8: the tables the programs index without a check stay well typed.
    Whatever routing requests the daemon serves, in whichever order and
    whether they succeed or are refused half way, every data plane a packet
    can meet holds only entries of the shape the programs rely on: label
    stacks and segment lists whose length is within their array, addresses
    and MACs of the right width made of octets, prefixes no longer than
    their address, and SIDs with a behavior the programs have code for. *)
Theorem routing_tables_typed requests c : safe c →
  let c' := foldl (λ c r, (serve_routing r c).1) c requests in
  typed (now (c_run c')) ∧ Forall typed (seen (c_run c')).
Proof.
  revert c. induction requests as [|r requests IH]; intros c Hc; [done|]. cbn [foldl].
  apply IH. by apply serve_routing_keeps.
Qed.
End requests.

(** ** A concrete daemon *)

Definition ex_requests : list RoutingRequest :=
  [SetNexthop (mk_pb_Nexthop 5 "10.0.0.1" "" 3 false [100; 200] [] 0 0 "" "" 0 "" 0 "" false);
   SetNexthop (mk_pb_Nexthop 6 "10.0.0.1" "" 3 false [1; 2; 3; 4] [] 0 0 "" "" 0 "" 0 "" false);
   SetNexthop (mk_pb_Nexthop 7 "fe80::1" "" 3 false [] ["2001:db8::1"; "2001:db8::2"] 0 0 "" "" 0 "" 0 "" false);
   AddRoute4 (mk_pb_Route4 "10.1.0.0/16" 5 0 0);
   AddRoute4 (mk_pb_Route4 "10.1.0.0/33" 5 0 0);
   AddRoute6 (mk_pb_Route6 "2001:db8::/32" 7 0 0)]%string.
Definition ex_daemon : Control := fresh_control (host_with ∅ []) empty_dp Cni.empty_store.

Lemma empty_typed : typed empty_dp.
Proof. by split; apply map_Forall_empty. Qed.

Lemma routing_tables_typed_witness :
  let c' := foldl (λ c r, (@serve_routing ref_host literal_regex ref_sys r c).1) ex_daemon ex_requests in
  elements (dom (view m_NEXTHOPS (now (c_run c')))) = [7; 5] ∧
  elements (dom (view m_FIB4 (now (c_run c')))) = [(16, [10; 1; 0; 0])] ∧
  typed (now (c_run c')) ∧ Forall typed (seen (c_run c')).
Proof.
  cbn zeta. split; [vm_compute; reflexivity|]. split; [vm_compute; reflexivity|].
  apply (@routing_tables_typed ref_host literal_regex ref_sys ref_sys_laws ex_requests ex_daemon).
  split; [exact empty_typed|constructor].
Defined.
