(* ===== verification/CtlProps.v ===== *)
(** * Loading and replaying a configuration: the property

    [apply_control] and [ctl_apply] are two programs for one configuration:
    the daemon's own bootstrap, and the client that sends the same
    operations through the control API, in an order of its own and less the
    fields it does not send. *)

From S2P Require Import Prelude.
From S2P Require Import Contract.
From S2P Require Import Common.
From S2P Require Import Bpf.
From S2P Require Import Maps.
From S2P Require Import MapRefs.
From S2P Require Import Dataplane.
From S2P Require Import DpPolicy.
From S2P Require Import Cni.
From S2P Require Import Text.
From S2P Require Import L7.
From S2P Require Import Control.
From S2P Require Import CtlRun.
From S2P Require Import Ports.
From S2P Require Import Overlay.
From S2P Require Import Pods.
From S2P Require Import HostRef.
From S2P Require Import IpText.
From S2P Require Import Pb.
From S2P Require Import Grpc.
From S2P Require Import Config.
From S2P Require Import Ctl.

(** ** Computations that do the same *)

(** The same answer, or a failure of either kind. *)
Definition same_res {E F A} (r : res E A) (q : res F A) : Prop :=
  match r, q with Ok a, Ok b => a = b | Err _, Err _ => True | _, _ => False end.
(** From every state, the same state and the same answer. *)
Definition agrees {S E F A} (m : M S E A) (n : M S F A) : Prop := ∀ s, (m s).1 = (n s).1 ∧ same_res (m s).2 (n s).2.

Section agrees.
Context {S E F : Type}.

Lemma agrees_ret {A} (a : A) : agrees (mret a : M S E A) (mret a : M S F A).
Proof. by intros s. Qed.
Lemma agrees_bail {A} (e : E) (f : F) : agrees (bail e : M S E A) (bail f : M S F A).
Proof. by intros s. Qed.
Lemma agrees_option {A} (e : E) (f : F) (o : option A) : agrees (of_option e o : M S E A) (of_option f o : M S F A).
Proof. by destruct o. Qed.
Lemma agrees_bind {A B} (m : M S E A) (n : M S F A) (f : A → M S E B) (g : A → M S F B) :
  agrees m n → (∀ a, agrees (f a) (g a)) → agrees (m ≫= f) (n ≫= g).
Proof.
  intros Hm Hf s. unfold mbind, M_bind. destruct (Hm s) as [Hs Hr].
  destruct (m s) as [s1 [a|e]], (n s) as [s2 [b|e']]; cbn in *; subst; try done. apply Hf.
Qed.

(** A step that does nothing may be put in, or left out. *)
Definition idle {G} (m : M S G unit) : Prop := ∀ s, m s = (s, Ok tt).
Lemma agrees_idle_l {A} (i : M S E unit) (m : M S E A) (n : M S F A) : idle i → agrees m n → agrees (_ ← i; m) n.
Proof. intros Hi Hm s. unfold mbind, M_bind. rewrite Hi. apply Hm. Qed.
Lemma agrees_idle_r {A} (i : M S F unit) (m : M S E A) (n : M S F A) : idle i → agrees m n → agrees m (_ ← i; n).
Proof. intros Hi Hm s. unfold mbind, M_bind. rewrite Hi. apply Hm. Qed.
End agrees.

Section calls.
Context `{HostOps} `{Regex} `{MapSys}.

Lemma agrees_every {E F A} (f : A → M Control E unit) (g : A → M Control F unit) l :
  (∀ x, x ∈ l → agrees (f x) (g x)) → agrees (every f l) (every g l).
Proof.
  unfold every. induction l as [|x l IH]; intros Hf; [by intros s|]. cbn [mfold].
  apply agrees_bind; [apply Hf; by left|]. intros []. apply IH. intros y Hy. apply Hf. by right.
Qed.
Lemma agrees_every_of {E F A B} (f : B → M Control E unit) (h : A → B) (g : A → M Control F unit) l :
  (∀ x, x ∈ l → agrees (f (h x)) (g x)) → agrees (every f (h <$> l)) (every g l).
Proof.
  unfold every. induction l as [|x l IH]; intros Hf; [by intros s|]. cbn [fmap list_fmap mfold].
  apply agrees_bind; [apply Hf; by left|]. intros []. apply IH. intros y Hy. apply Hf. by right.
Qed.
Lemma agrees_given {E F A} (f : A → M Control E unit) (g : A → M Control F unit) o :
  (∀ x, o = Some x → agrees (f x) (g x)) → agrees (given f o) (given g o).
Proof. destruct o; cbn; [auto|]. intros _. apply agrees_ret. Qed.

Lemma idle_every {G A} (f : A → M Control G unit) l : (∀ x, x ∈ l → idle (f x)) → idle (every f l).
Proof.
  unfold every. induction l as [|x l IH]; intros Hf s; [done|]. cbn [mfold]. unfold mbind, M_bind.
  rewrite Hf by by left. apply IH. intros y Hy. apply Hf. by right.
Qed.

Lemma agrees_call {A} (m : Ctrl A) : agrees (ctl m) (send (call m)).
Proof. intros c. unfold ctl, send, call. by destruct (m c) as [c' []]. Qed.
Lemma agrees_send_bind {A B} (m : M Control ConfigErr B) (n : M Control Status A) (f : A → M Control Status B) :
  agrees m (a ← send n; send (f a)) → agrees m (send (n ≫= f)).
Proof.
  intros Hm c. destruct (Hm c) as [E R]. unfold send, mbind, M_bind in *. destruct (n c) as [c1 [a|e]]; [|done].
  by destruct (f a c1).
Qed.

Lemma agrees_reads {A B} (e : Status) (o : option A) (f : A → M Control ConfigErr B) (g : A → M Control Status B) :
  (∀ a, agrees (f a) (send (g a))) → agrees (a ← read o; f a) (send (a ← of_option e o; g a)).
Proof. intros Hf. destruct o as [a|]; [apply Hf|by intros c]. Qed.

(** Reading the name of an interface changes nothing. *)
Lemma resolve_run n (c : Control) : resolve n c = (c, match ifindex_of (c_host c) n with Some ix => Ok ix | None => Err (NoSuchPort n) end).
Proof. unfold resolve, mbind, M_bind. cbn. by destruct (ifindex_of _ _). Qed.
End calls.

(** ** What the replay supports

    The fields a request has room for, within the width it keeps, and texts
    that say something. *)
Definition some_text (o : option string) : Prop := o ≠ Some ""%string.

Definition plain_segment (es : EthernetSegmentCfg) : Prop :=
  Forall (λ r, u16 (EsRoleCfg_bd r)) (EthernetSegmentCfg_roles es) ∧ Forall (λ g, u16 (EsNhgCfg_bd g)) (EthernetSegmentCfg_nhg es).
Definition plain_fdb (f : FdbCfg) : Prop :=
  u16 (FdbCfg_bd f) ∧ some_text (FdbCfg_esi f) ∧ some_text (FdbCfg_remote_sid f) ∧ some_text (FdbCfg_remote_vtep f) ∧
  some_text (FdbCfg_remote_pe f).
(** An encapsulating nexthop names its interface; a GTP-U one its source. *)
Definition plain_nexthop (nh : NexthopCfg) : Prop :=
  some_text (NexthopCfg_gateway nh) ∧ some_text (NexthopCfg_oif nh) ∧ some_text (NexthopCfg_vxlan_vtep nh) ∧
  some_text (NexthopCfg_gtp_dst nh) ∧ u8 (NexthopCfg_encap_mode nh) ∧
  (is_Some (NexthopCfg_vxlan_vtep nh) ∨ is_Some (NexthopCfg_gtp_dst nh) ∨ NexthopCfg_segs nh ≠ [] → is_Some (NexthopCfg_oif nh)) ∧
  (is_Some (NexthopCfg_gtp_dst nh) → is_Some (NexthopCfg_gtp_src nh)).
(** A behavior the API knows. *)
Definition plain_localsid (ls : LocalSidCfg) : Prop :=
  (LocalSidCfg_behavior ls ∉ ["end.dx2"; "end.dx2v"]%string) ∧
  u8 (LocalSidCfg_prefix_len ls) ∧ u8 (LocalSidCfg_block_bits ls) ∧ u8 (LocalSidCfg_node_bits ls) ∧ u8 (LocalSidCfg_fun_bits ls).
Definition plain_xconnect (x : XconnectCfg) : Prop :=
  u16 (XconnectCfg_vid x) ∧ some_text (XconnectCfg_remote_sid x) ∧ some_text (XconnectCfg_remote_vtep x) ∧
  some_text (XconnectCfg_remote_pe x).
Definition plain_ilm (i : IlmCfg) : Prop := IlmCfg_in_label i < 2 ^ 20.
Definition plain_service (s : ServiceCfg) : Prop :=
  u16 (ServiceCfg_port s) ∧ Forall (λ b, u16 (BackendCfg_port b)) (ServiceCfg_backends s).
Definition plain_rules (rs : list PolicyRuleCfg) : Prop := Forall (λ r, u16 (PolicyRuleCfg_port r)) rs.
Definition plain_policy_cfg (pol : PolicyCfg) : Prop :=
  plain_rules (PolicyCfg_rules pol) ∧ plain_rules (PolicyCfg_egress_rules pol) ∧
  Forall (λ pp, u16 (L7PortCfg_port pp)) (PolicyCfg_l7 pol).
(** The backends of an L7 route are IPv4 sockets. *)
Definition plain_l7 (svc : L7ServiceCfg) : Prop :=
  u16 (L7ServiceCfg_port svc) ∧
  Forall (λ r, ∀ sa, parse_socket (L7RouteCfg_backend r) = Some sa → match sa.1 with V4 _ => True | V6 _ => False end)
    (L7ServiceCfg_routes svc).

(** ** What the replay sends

    It drops, without a word, the argument length and the attachment port of a
    local SID and the bridge domain of an ILM entry. *)
Definition sent_localsid (ls : LocalSidCfg) : LocalSidCfg :=
  mkLocalSidCfg (LocalSidCfg_sid ls) (LocalSidCfg_behavior ls) (LocalSidCfg_vrf ls) (LocalSidCfg_nexthop ls)
    (LocalSidCfg_prefix_len ls) (LocalSidCfg_block_bits ls) (LocalSidCfg_node_bits ls) (LocalSidCfg_fun_bits ls)
    0 "" (LocalSidCfg_flavors ls).
Definition sent_ilm (i : IlmCfg) : IlmCfg :=
  mkIlmCfg (IlmCfg_in_label i) (IlmCfg_nexthop i) (IlmCfg_action i) (IlmCfg_vrf i) 0 (IlmCfg_ttl_uniform i).

(** ** Entry by entry *)

Ltac agree :=
  cbn beta iota;
  lazymatch goal with
  | |- agrees (ctl ?m) (send (call ?m)) => apply agrees_call
  | |- agrees (mret _) (mret _) => apply agrees_ret
  | |- agrees (bail _) (bail _) => apply agrees_bail
  | |- agrees (bail _) (send invalid) => by intros ?
  | |- agrees (read ?o ≫= _) (send (parsed ?o ≫= _)) => apply agrees_reads; intros ?; agree
  | |- agrees (read _ ≫= _) (send (parsed _ ≫= _)) => idtac
  | |- agrees _ (send (_ ≫= _)) => apply agrees_send_bind; agree
  | |- agrees (let '(_, _) := ?a in _) _ => destruct a; agree
  | |- agrees (ctl ?m ≫= _) (send (call ?m) ≫= _) => apply agrees_bind; [apply agrees_call|intros ?; agree]
  | |- agrees (match ?a with V4 _ => _ | V6 _ => _ end) _ => destruct a; agree
  | |- agrees (if ?b then _ else _) (send (if ?b then _ else _)) => destruct b; agree
  | |- _ => idtac
  end.

Section entries.
Context `{HostOps} `{Regex} `{MapSys}.

Lemma wrap_id w n : in_range w n → wrap w n = n.
Proof. intros Hn. unfold wrap. by apply Z.mod_small. Qed.
Lemma mapM_fmap_as {A B C} (f : B → option C) (g : A → B) (h : A → option C) l :
  (∀ x, x ∈ l → f (g x) = h x) → mapM f (g <$> l) = mapM h l.
Proof.
  induction l as [|x l IH]; intros Hf; [done|]. cbn [fmap list_fmap mapM]. rewrite Hf by by left.
  rewrite IH; [done|]. intros y Hy. apply Hf. by right.
Qed.

Lemma port_agrees p : u16 (PortCfg_vlan p) → agrees (apply_port p) (replay_port p).
Proof.
  intros Hv. unfold apply_port, replay_port. apply agrees_bind; [apply agrees_given; intros leaf _; apply agrees_call|].
  intros _. unfold rpc_set_port, port_msg. cbn [Port_name Port_mac Port_l3 Port_vlan Port_vrf_id]. rewrite wrap_id by done.
  intros c. destruct (agrees_call (set_port (PortCfg_name p) None (PortCfg_l3 p) (PortCfg_vlan p) (PortCfg_vrf p)) c).
  done.
Qed.
Lemma domain_agrees d : u16 d.1 → agrees (apply_domain d) (replay_domain d).
Proof. intros Hv. unfold replay_domain, rpc_set_l2_domain. cbn [L2Domain_vlan L2Domain_members]. rewrite wrap_id by done. apply agrees_call. Qed.
Lemma etree_remote_agrees r : u16 (EtreeRemoteCfg_bd r) → agrees (apply_etree_remote r) (replay_etree_remote r).
Proof.
  intros Hv. unfold apply_etree_remote, replay_etree_remote, rpc_set_etree_remote, etree_remote_msg.
  cbn [EtreeRemote_bd EtreeRemote_remote EtreeRemote_leaf_only]. agree.
  replace (2 ^ 16 <=? EtreeRemoteCfg_bd r) with false by (unfold in_range in Hv; lia). agree.
Qed.
Lemma segment_agrees es : plain_segment es → agrees (apply_segment es) (replay_segment es).
Proof.
  intros [Hr _]. unfold apply_segment, replay_segment, rpc_set_ethernet_segment, segment_msg.
  apply agrees_bind; [apply agrees_call|intros _]. apply agrees_bind.
  - apply agrees_every. intros r Hin. unfold rpc_set_es_role, role_msg. cbn [EsRole_esi EsRole_bd EsRole_df EsRole_single_active].
    rewrite wrap_id; [apply agrees_call|]. rewrite Forall_forall in Hr. by apply Hr.
  - intros _. unfold rpc_set_es_peers. cbn [EsPeers_vteps EsPeers_esi]. agree.
Qed.
Lemma srv6_source_agrees src : agrees (apply_srv6_source src) (replay_srv6_source src).
Proof. unfold apply_srv6_source, replay_srv6_source, rpc_set_srv6_encap_source. cbn [Srv6EncapSource_addr]. agree. Qed.
Lemma vtep_source_agrees src : agrees (apply_vtep_source src) (replay_vtep_source src).
Proof. unfold apply_vtep_source, replay_vtep_source, rpc_set_vtep_source. cbn [VtepSource_addr]. agree. Qed.
Lemma vni_agrees v : u16 (VniCfg_vlan v) → agrees (apply_vni v) (replay_vni v).
Proof.
  intros Hv. unfold apply_vni, replay_vni, rpc_set_vni, vni_msg. cbn [Vni_l3 Vni_rmac Vni_vni Vni_vrf Vni_vlan].
  rewrite wrap_id by done. destruct (VniCfg_l3 v); [|apply agrees_call].
  destruct (VniCfg_rmac v) as [rmac|]; [|by intros c]. change (agrees (rmac ← read (parse_mac rmac);
    ctl (set_vni_l3 (VniCfg_vni v) (VniCfg_vrf v) rmac)) (send (rmac ← parsed (parse_mac rmac);
    call (set_vni_l3 (VniCfg_vni v) (VniCfg_vrf v) rmac)))). agree.
Qed.

Lemma is_set_default o : some_text o → is_set (default ""%string o) = match o with Some _ => true | None => false end.
Proof.
  destruct o as [t|]; [|done]. intros Ht. unfold is_set. rewrite bool_decide_false; [done|]. intros E. apply Ht. cbn in E. by rewrite E.
Qed.
Lemma opt_str_default {A} (parse : string → option A) o : some_text o → opt_str parse (default ""%string o) = opt_parse parse o.
Proof. intros Ht. unfold opt_str. rewrite is_set_default by done. by destruct o. Qed.

Lemma fdb_agrees f : plain_fdb f → agrees (apply_fdb f) (replay_fdb f).
Proof.
  intros (Hb & He & Hs & Hv & Hp). unfold apply_fdb, replay_fdb. destruct (FdbCfg_port f) as [port|].
  { unfold rpc_add_fdb_local, fdb_local_msg. cbn [FdbLocal_mac FdbLocal_bd FdbLocal_port]. rewrite wrap_id by done. agree. }
  unfold rpc_add_fdb_remote, fdb_msg.
  cbn [FdbRemote_mac FdbRemote_bd FdbRemote_esi FdbRemote_remote_sid FdbRemote_remote_vtep FdbRemote_remote_pe
       FdbRemote_etree_leaf FdbRemote_remote_label FdbRemote_nexthop_id].
  rewrite wrap_id, !is_set_default by done. agree.
  destruct (FdbCfg_esi f) as [esi|]; [apply agrees_call|]. cbn [default from_option id].
  destruct (FdbCfg_remote_sid f) as [sid|], (FdbCfg_remote_vtep f) as [vtep|], (FdbCfg_remote_pe f) as [pe|];
    try (by intros c);
    match goal with |- context [count_set ?l] => let v := eval vm_compute in (count_set l) in change (count_set l) with v end;
    cbn; agree.
Qed.

Lemma nhg_agrees es : plain_segment es → agrees (apply_nhg es) (replay_nhg es).
Proof.
  intros [_ Hg]. unfold apply_nhg, replay_nhg. apply agrees_every. intros g Hin. unfold rpc_set_es_nhg, nhg_msg.
  cbn [EsNhg_members EsNhg_esi EsNhg_bd EsNhg_single_active]. rewrite wrap_id; [agree|].
  rewrite Forall_forall in Hg. by apply Hg.
Qed.

Lemma gtp_pdr_agrees pdr : agrees (apply_gtp_pdr pdr) (replay_gtp_pdr pdr).
Proof. unfold apply_gtp_pdr, replay_gtp_pdr, rpc_add_gtp_pdr. cbn [GtpPdr_dst GtpPdr_teid GtpPdr_vrf GtpPdr_match_vrf gtp_pdr_msg]. agree. Qed.

Lemma repl_seg_agrees rs : u8 (ReplSegCfg_hop_limit_threshold rs) → agrees (apply_repl_seg rs) (replay_repl_seg rs).
Proof.
  intros Hh. unfold apply_repl_seg, replay_repl_seg, rpc_set_repl_seg, repl_seg_msg.
  cbn [ReplSeg_sid ReplSeg_branches ReplSeg_hop_limit_threshold]. rewrite wrap_id by done.
  rewrite (mapM_fmap_as seg_branch_of _ apply_branch); [agree|].
  intros b _. unfold seg_branch_of, apply_branch. cbn [ReplSegBranch_sid ReplSegBranch_nexthop_id ReplSegBranch_local]. reflexivity.
Qed.

Lemma xconnect_agrees x : plain_xconnect x → agrees (apply_xconnect x) (replay_xconnect x).
Proof.
  intros (Hv & Hs & Ht & Hp). unfold apply_xconnect, replay_xconnect, rpc_add_xconnect, xconnect_msg, xc_remote, xc_local.
  cbn [Xconnect_remote_sid Xconnect_remote_vtep Xconnect_remote_pe Xconnect_remote_vni Xconnect_remote_label
       Xconnect_local_sid Xconnect_local_vni Xconnect_local_label Xconnect_vid Xconnect_port_index Xconnect_port Xconnect_dx2v_table].
  rewrite wrap_id, !is_set_default by done. apply agrees_send_bind, agrees_bind.
  - unfold apply_xc_remote.
    destruct (XconnectCfg_remote_sid x) as [sid|], (XconnectCfg_remote_vtep x) as [vtep|], (XconnectCfg_remote_pe x) as [pe|];
      try (by intros c); cbn; agree; try (by intros c).
  - intros remote. apply agrees_send_bind, agrees_bind; [|intros local; apply agrees_call]. unfold apply_xc_local. cbn.
    destruct (XconnectCfg_local_vni x =? 0), (XconnectCfg_local_label x =? 0); by intros c.
Qed.

Lemma parse_ip_family s : match parse_ip s with
  | Some (V6 a) => parse_ipv6 s = Some a
  | Some (V4 a) => parse_ipv4 s = Some a
  | None => parse_ipv4 s = None
  end.
Proof.
  unfold parse_ip, parse_ipv4, parse_ipv6, parse_with. destruct (read_ipv4 s) as [[a r]|] eqn:E4.
  - by destruct r.
  - destruct (read_ipv6 s) as [[a r]|]; [|done]. by destruct r.
Qed.
Lemma neighbor_agrees n : agrees (apply_neighbor n) (replay_neighbor n).
Proof.
  unfold apply_neighbor, replay_neighbor. pose proof (parse_ip_family (NeighborCfg_ip n)) as Hf.
  destruct (parse_ip (NeighborCfg_ip n)) as [[a|a]|]; unfold rpc_set_neighbor4, rpc_set_neighbor6;
    cbn [Neighbor4_ip Neighbor4_mac Neighbor4_oif_index Neighbor4_oif Neighbor6_ip Neighbor6_mac Neighbor6_oif_index Neighbor6_oif];
    rewrite Hf; [| |by intros c].
  - change (agrees (mac ← read (parse_mac (NeighborCfg_mac n)); ctl (set_neighbor4 (NeighborCfg_oif n) a mac))
      (send (mac ← parsed (parse_mac (NeighborCfg_mac n)); call (set_neighbor4 (NeighborCfg_oif n) a mac)))). agree.
  - change (agrees (mac ← read (parse_mac (NeighborCfg_mac n)); ctl (set_neighbor6 (NeighborCfg_oif n) a mac))
      (send (mac ← parsed (parse_mac (NeighborCfg_mac n)); call (set_neighbor6 (NeighborCfg_oif n) a mac)))). agree.
Qed.

Lemma named_Some {A} (table : list (string * A)) s a : named table s = Some a → (s, a) ∈ table.
Proof. unfold named. intros ([n x] & Hin & E)%first_some_Some. case_bool_decide; [|done]. naive_solver. Qed.
Lemma agrees_read_text {A} (o : option A) : agrees (read o) (text o).
Proof. by destruct o. Qed.
Lemma agrees_known {B} (o : option B) {A} (m : B → M Control ConfigErr A) (n : B → M Control ReplayErr A) :
  (∀ b, o = Some b → agrees (m b) (n b)) → agrees (b ← read o; m b) (b ← text o; n b).
Proof. destruct o as [b|]; intros Hb; [by apply Hb|by intros c]. Qed.

Lemma ilm_agrees i : plain_ilm i → agrees (apply_ilm (sent_ilm i)) (replay_ilm i).
Proof.
  unfold plain_ilm. intros Hl. unfold apply_ilm, replay_ilm.
  cbn [IlmCfg_action IlmCfg_bd IlmCfg_vrf IlmCfg_in_label IlmCfg_nexthop IlmCfg_ttl_uniform sent_ilm Z.eqb negb]. apply agrees_known. intros op Hop%named_Some.
  unfold rpc_add_ilm, ilm_msg. cbn [Ilm_in_label Ilm_nexthop_id Ilm_action Ilm_vrf_table_id Ilm_ttl_uniform].
  replace (2 ^ 20 <=? IlmCfg_in_label i) with false by lia.
  rewrite (bool_decide_true (op ∈ ilm_actions)); [apply agrees_call|].
  repeat (apply elem_of_cons in Hop as [[= _ ->]|Hop]; [apply (bool_decide_unpack _); reflexivity|]). by apply not_elem_of_nil in Hop.
Qed.

Lemma routes_agree routes : agrees (apply_routes routes) (replay_routes routes).
Proof.
  unfold apply_routes, replay_routes. destruct routes as [|r routes]; [by intros c|].
  rewrite (bool_decide_false (r :: routes = [])) by done. unfold rpc_add_route4_batch. cbn [Route4Batch_routes].
  rewrite (mapM_fmap_as batch_route route_msg route_of).
  2:{ intros x _. unfold batch_route, route_of, route_msg.
      cbn [Route4_prefix Route4_vrf_table_id Route4_nexthop_id Route4_flags]. reflexivity. }
  destruct (mapM route_of (r :: routes)) as [rs|] eqn:E; [|by intros c]. apply mapM_Some in E.
  inversion E as [|? x ? rs']; subst. apply agrees_send_bind.
  change (agrees (if bool_decide (x :: rs' = []) then mret tt else ctl (add_routes4 (x :: rs'))) (send (call (add_routes4 (x :: rs'))))).
  rewrite bool_decide_false by done. apply agrees_call.
Qed.
Lemma route6_agrees r : agrees (apply_route6 r) (replay_route6 r).
Proof.
  unfold apply_route6, replay_route6, rpc_add_route6, route6_msg.
  cbn [Route6_prefix Route6_vrf_table_id Route6_nexthop_id Route6_flags]. agree.
Qed.

Lemma service_agrees i svc : plain_service svc → agrees (apply_service (i, svc)) (replay_service (i, svc)).
Proof.
  intros [Hp Hb]. unfold apply_service, replay_service, rpc_add_service, service_msg.
  cbn [Service_svc_id Service_vip Service_port Service_proto Service_backends Service_affinity].
  change (ip_proto (ServiceCfg_proto svc)) with (proto_num_cfg (ServiceCfg_proto svc)). rewrite (wrap_id 16) by done.
  assert (∀ parse, mapM (backend_of parse) ((λ b, mk_pb_Backend (BackendCfg_ip b) (BackendCfg_port b)) <$> ServiceCfg_backends svc) =
    mapM (backend_cfg parse) (ServiceCfg_backends svc)) as Hm.
  { intros parse. apply mapM_fmap_as. intros b Hin. unfold backend_of, backend_cfg. cbn [Backend_ip Backend_port].
    rewrite wrap_id; [done|]. rewrite Forall_forall in Hb. by apply Hb. }
  apply agrees_reads. intros proto. apply agrees_reads. intros [v4|v6]; rewrite Hm; agree.
Qed.

(** The interface and the gateway are read in either order. *)
Lemma agrees_resolve_read {A B} (e : Status) o (g : option B) (f : Z → B → M Control ConfigErr A) (h : Z → B → M Control Status A) :
  (∀ ix b, agrees (f ix b) (send (h ix b))) →
  agrees (ix ← ctl (resolve o); b ← read g; f ix b) (send (b ← of_option e g; ix ← call (resolve o); h ix b)).
Proof.
  intros Hf. destruct g as [b|].
  - intros c. unfold send, ctl, call, mbind, M_bind. cbn. rewrite resolve_run.
    destruct (ifindex_of _ _) as [ix|]; [|done]. apply Hf.
  - intros c. unfold send, ctl, call, mbind, M_bind. cbn. rewrite resolve_run. by destruct (ifindex_of _ _).
Qed.

Lemma nexthop_agrees nh : plain_nexthop nh → agrees (apply_nexthop nh) (replay_nexthop nh).
Proof.
  intros (Hg & Ho & Hv & Hd & Hm & Hif & Hsrc). unfold apply_nexthop, replay_nexthop, rpc_set_nexthop, nexthop_msg, nh_oif, nh_oif_or_none, nexthop_oif.
  cbn [Nexthop_id Nexthop_gateway Nexthop_oif Nexthop_oif_index Nexthop_v6 Nexthop_labels Nexthop_segs Nexthop_encap_mode
       Nexthop_backup_id Nexthop_gtp_src Nexthop_gtp_dst Nexthop_gtp_teid Nexthop_vxlan_vtep Nexthop_vxlan_l3vni
       Nexthop_vxlan_rmac Nexthop_mpls_pipe_ttl].
  rewrite !is_set_default, !(opt_str_default _ (NexthopCfg_gateway nh)) by done. rewrite wrap_id by done. cbn [Z.eqb negb orb].
  destruct (NexthopCfg_vxlan_vtep nh) as [vtep|].
  { destruct (NexthopCfg_oif nh) as [o|]; [|by destruct Hif as [? ?]; [left|]]. cbn [default from_option id]. agree.
    destruct (NexthopCfg_vxlan_rmac nh) as [rmac|]; [|intros c; split; [reflexivity|exact I]].
    match goal with |- agrees (read (Some ?r) ≫= ?f) ?n => change (agrees (f r) n) end. cbn [default from_option id]. agree. }
  destruct (NexthopCfg_gtp_dst nh) as [dst|].
  { destruct (NexthopCfg_oif nh) as [o|]; [|by destruct Hif as [? ?]; [right; left|]].
    destruct Hsrc as [src ->]; [done|]. cbn [default from_option id]. agree. }
  cbn [default from_option id].
  destruct (negb (bool_decide (NexthopCfg_segs nh = []))) eqn:Es.
  { destruct (NexthopCfg_oif nh) as [o|].
    - cbn [default from_option id]. agree.
    - exfalso. destruct Hif as [? ?]; [|done]. do 2 right. apply negb_true_iff, bool_decide_eq_false in Es. done. }
  destruct (NexthopCfg_oif nh) as [o|]; cbn [default from_option id negb]; destruct (nexthop_is_v6 nh).
  - apply agrees_resolve_read. intros ix gw. apply agrees_call.
  - intros c. pose proof (agrees_resolve_read (Internal None) o (opt_parse parse_ipv4 (NexthopCfg_gateway nh))
      (λ ix gw, ctl (set_nexthop_idx (NexthopCfg_id nh) gw ix (NexthopCfg_labels nh) (NexthopCfg_backup nh) (NexthopCfg_mpls_pipe nh)))
      (λ ix gw, call (set_nexthop_idx (NexthopCfg_id nh) gw ix (NexthopCfg_labels nh) (NexthopCfg_backup nh) (NexthopCfg_mpls_pipe nh)))
      (λ ix gw, agrees_call _) c) as Ha.
    destruct (opt_parse parse_ipv4 (NexthopCfg_gateway nh)) as [gw|]; [|exact Ha]. destruct Ha as [E R]. rewrite E.
    revert R. unfold send, call, ctl, set_nexthop, parsed, of_option, mbind, M_bind, mret, M_ret. rewrite resolve_run.
    destruct (ifindex_of (c_host c) o) as [ix|]; [|done]. cbn. by destruct (set_nexthop_idx _ gw ix _ _ _ c) as [c' []].
  - change (agrees (gw ← read (opt_parse parse_ipv6 (NexthopCfg_gateway nh));
      ctl (set_nexthop_idx_v6 (NexthopCfg_id nh) gw 0 (NexthopCfg_labels nh) (NexthopCfg_backup nh) (NexthopCfg_mpls_pipe nh)))
      (send (gw ← parsed (opt_parse parse_ipv6 (NexthopCfg_gateway nh));
      call (set_nexthop_idx_v6 (NexthopCfg_id nh) gw 0 (NexthopCfg_labels nh) (NexthopCfg_backup nh) (NexthopCfg_mpls_pipe nh))))). agree.
  - change (agrees (gw ← read (opt_parse parse_ipv4 (NexthopCfg_gateway nh));
      ctl (set_nexthop_idx (NexthopCfg_id nh) gw 0 (NexthopCfg_labels nh) (NexthopCfg_backup nh) (NexthopCfg_mpls_pipe nh)))
      (send (gw ← parsed (opt_parse parse_ipv4 (NexthopCfg_gateway nh));
      call (set_nexthop_idx (NexthopCfg_id nh) gw 0 (NexthopCfg_labels nh) (NexthopCfg_backup nh) (NexthopCfg_mpls_pipe nh))))). agree.
Qed.

(** The names of the configuration, but for two, are behaviors of the API. *)
Lemma behavior_known name b : srv6_behavior_of_name name = Some b → name ∉ ["end.dx2"; "end.dx2v"]%string →
  srv6_behavior b = mret b.
Proof.
  intros Hb%named_Some Hn. unfold srv6_behavior.
  repeat (apply elem_of_cons in Hb as [[= -> ->]|Hb]; [first [reflexivity | by destruct Hn; set_solver]|]).
  by apply not_elem_of_nil in Hb.
Qed.
Lemma flavors_range l mask : srv6_flavors l = Some mask → 0 ≤ mask < 8.
Proof.
  unfold srv6_flavors. assert (∀ o, (∀ m, o = Some m → 0 ≤ m < 8) →
    ∀ m, foldl (λ mask f, mask ← mask; b ← srv6_flavor_of_name f; Some (mask .| b)) o l = Some m → 0 ≤ m < 8) as Hf.
  { induction l as [|f l IH]; intros o Ho m; cbn [foldl]; [apply Ho|]. apply IH. intros m'.
    destruct o as [x|]; [|done]. destruct (srv6_flavor_of_name f) as [b|] eqn:Eb; [|done]. intros [= <-].
    specialize (Ho x eq_refl). apply named_Some in Eb. assert (0 ≤ b < 8) as Hb.
    { repeat (apply elem_of_cons in Eb as [[= -> ->]|Eb]; [vm_compute; split; done|]). by apply not_elem_of_nil in Eb. }
    clear -Ho Hb. assert (x = 0 ∨ x = 1 ∨ x = 2 ∨ x = 3 ∨ x = 4 ∨ x = 5 ∨ x = 6 ∨ x = 7) as Hx by lia.
    assert (b = 0 ∨ b = 1 ∨ b = 2 ∨ b = 3 ∨ b = 4 ∨ b = 5 ∨ b = 6 ∨ b = 7) as Hb' by lia.
    repeat destruct Hx as [-> |Hx]; subst; repeat destruct Hb' as [-> |Hb']; subst; vm_compute; split; done. }
  apply Hf. intros m [= <-]. lia.
Qed.
Lemma localsid_agrees ls : plain_localsid ls → agrees (apply_localsid (sent_localsid ls)) (replay_localsid ls).
Proof.
  intros (Hb & Hl & H1' & H2' & H3'). unfold apply_localsid, replay_localsid.
  cbn [LocalSidCfg_sid LocalSidCfg_behavior LocalSidCfg_vrf LocalSidCfg_nexthop LocalSidCfg_prefix_len LocalSidCfg_block_bits
       LocalSidCfg_node_bits LocalSidCfg_fun_bits LocalSidCfg_arg_bits LocalSidCfg_port LocalSidCfg_flavors sent_localsid
       is_set negb bool_decide].
  destruct (srv6_behavior_of_name (LocalSidCfg_behavior ls)) as [b|] eqn:Eb.
  2:{ intros c. unfold read, text. destruct (parse_ipv6 _); by split. }
  destruct (srv6_flavors (LocalSidCfg_flavors ls)) as [fl|] eqn:Ef.
  2:{ intros c. unfold read, text. destruct (parse_ipv6 _); by split. }
  apply flavors_range in Ef. unfold rpc_add_local_sid, localsid_msg.
  cbn [LocalSid_sid LocalSid_prefix_len LocalSid_behavior LocalSid_vrf_table_id LocalSid_lb_bits LocalSid_ln_bits
       LocalSid_fun_bits LocalSid_arg_bits LocalSid_nexthop_id LocalSid_flavors].
  change (agrees (sid ← read (parse_ipv6 (LocalSidCfg_sid ls));
    ctl (add_localsid sid (if LocalSidCfg_prefix_len ls =? 0 then 128 else LocalSidCfg_prefix_len ls)
      (mkLocalSid b fl (LocalSidCfg_vrf ls) (LocalSidCfg_nexthop ls) (LocalSidCfg_block_bits ls) (LocalSidCfg_node_bits ls)
         (LocalSidCfg_fun_bits ls) 0)))
    (send (sid ← parsed (parse_ipv6 (LocalSidCfg_sid ls)); behavior ← call (srv6_behavior b);
      if 7 <? fl then invalid else
      call (add_localsid sid (sid_prefix_len (if LocalSidCfg_prefix_len ls =? 0 then 128 else LocalSidCfg_prefix_len ls))
        (mkLocalSid behavior (wrap 8 fl) (LocalSidCfg_vrf ls) (LocalSidCfg_nexthop ls) (wrap 8 (LocalSidCfg_block_bits ls))
           (wrap 8 (LocalSidCfg_node_bits ls)) (wrap 8 (LocalSidCfg_fun_bits ls)) (wrap 8 0)))))).
  rewrite (behavior_known _ b Eb Hb). agree.
  match goal with |- agrees ?m (send (call (mret b)) ≫= ?f) => change (agrees m (f b)) end. cbn beta.
  replace (7 <? fl) with false by lia. change (wrap 8 0) with 0. rewrite !wrap_id by (done || (unfold in_range; lia)).
  replace (sid_prefix_len _) with (if LocalSidCfg_prefix_len ls =? 0 then 128 else LocalSidCfg_prefix_len ls); [apply agrees_call|].
  unfold sid_prefix_len. destruct (LocalSidCfg_prefix_len ls =? 0) eqn:E; [reflexivity|]. by rewrite E, wrap_id.
Qed.

Lemma masq_node_agrees node : node ≠ ""%string → agrees (apply_masq_node node) (replay_masq_node node).
Proof.
  intros Hn. unfold apply_masq_node, replay_masq_node, rpc_set_masq_node, opt_str, is_set. cbn [MasqNode_node].
  rewrite bool_decide_false by done. cbn [negb]. destruct (parse_ipv4 node) as [ip|]; [|by intros c].
  apply (agrees_call (set_masq_node (Some ip))).
Qed.
Lemma non_masq_agrees cidr : agrees (apply_non_masq cidr) (replay_non_masq cidr).
Proof. unfold apply_non_masq, replay_non_masq, rpc_set_non_masq. cbn [NonMasq_cidr NonMasq_del]. agree. Qed.
Lemma identity_agrees i : agrees (apply_identity i) (replay_identity i).
Proof.
  unfold apply_identity, replay_identity, rpc_set_identity. cbn [Identity_ip Identity_vrf_id Identity_identity]. agree.
Qed.
Lemma cidr_identity_agrees x : agrees (apply_cidr_identity x) (replay_cidr_identity x).
Proof.
  unfold apply_cidr_identity, replay_cidr_identity, rpc_set_cidr_identity.
  cbn [CidrIdentity_cidr CidrIdentity_vrf_id CidrIdentity_identity CidrIdentity_del]. agree.
Qed.

(** Resolving an endpoint changes nothing. *)
Lemma resolve_endpoint_state host_if ns pod (c : Control) : (resolve_endpoint host_if ns pod c).1 = c.
Proof.
  unfold resolve_endpoint. destruct (negb _); [by rewrite resolve_run|].
  unfold on_cni, list_endpoints, gets, of_option, mbind, M_bind. cbn -[find_ep merge_sort map_to_list].
  destruct (_ <$> find_ep _ _); by destruct c.
Qed.
Lemma rule_proto_u8 s n : rule_proto s = Some n → u8 n.
Proof. unfold rule_proto, proto_num_cfg, u8, in_range. intros Hn. repeat case_match; simplify_eq; lia. Qed.
Lemma mapM_then {A B C} (f : A → option B) (g : B → C) (h : A → option C) l :
  (∀ x, x ∈ l → h x = g <$> f x) → mapM h l = (fmap g : list B → list C) <$> mapM f l.
Proof.
  induction l as [|x l IH]; intros Hf; [done|]. cbn [mapM]. rewrite Hf by by left.
  rewrite IH by (intros y Hy; apply Hf; by right). destruct (f x) as [y|]; [|done]. cbn. by destruct (mapM f l).
Qed.
Lemma rules_agree rs : plain_rules rs → mapM rule_cfg rs = (fmap rule_of : list pb_PolicyRule → list Rule) <$> mapM rule_msg rs.
Proof.
  intros Hr. apply mapM_then. intros r Hin. unfold rule_cfg, rule_msg.
  destruct (rule_proto (PolicyRuleCfg_proto r)) as [n|] eqn:En; [|done]. apply rule_proto_u8 in En.
  unfold plain_rules in Hr. rewrite Forall_forall in Hr. cbn. unfold rule_of. cbn. by rewrite !wrap_id by auto.
Qed.

Lemma policy_agrees pol : plain_policy_cfg pol → agrees (apply_policy pol) (replay_policy pol).
Proof.
  intros (Hr & He & Hl). unfold apply_policy, replay_policy, rpc_set_endpoint_policy. rewrite !rules_agree by done.
  assert (l7_port_of <$> EndpointPolicy_l7 (policy_msg pol [] []) = l7_port_cfg <$> PolicyCfg_l7 pol) as Hp.
  { cbn. rewrite <- list_fmap_compose. apply list_fmap_ext. intros i pp Hpp%list_elem_of_lookup_2. unfold l7_port_of, l7_port_cfg. cbn.
    rewrite wrap_id by (rewrite Forall_forall in Hl; by apply Hl). f_equal. rewrite <- list_fmap_compose. by apply list_fmap_ext. }
  intros c. pose proof (resolve_endpoint_state (PolicyCfg_host_if pol) (PolicyCfg_namespace pol) (PolicyCfg_pod pol) c) as Hs.
  unfold ctl, read, text, send, call, policy_msg, mbind, M_bind. cbn in Hp |- *. rewrite Hp.
  destruct (resolve_endpoint _ _ _ c) as [c1 r] eqn:Er. cbn in Hs. subst c1.
  destruct (mapM rule_msg (PolicyCfg_rules pol)) as [rs|], (mapM rule_msg (PolicyCfg_egress_rules pol)) as [ers|]; cbn;
    rewrite ?Er; destruct r as [ep|e]; cbn; try done.
  by destruct (set_endpoint_policy _ _ _ _ _ _ _ c) as [c' []].
Qed.
Lemma take_digits_length radix s : (length (take_digits radix s).1 ≤ String.length s)%nat.
Proof.
  induction s as [|a s IH]; [done|]. cbn -[digit]. destruct (digit radix a); [|cbn; lia].
  destruct (take_digits radix s). cbn in *. lia.
Qed.
Lemma read_port_show p : u16 p → read_port (":" +:+ show_number 10 10 p) = Some (p, ""%string).
Proof.
  intros [Hp Hp']. change (read_port (":" +:+ show_number 10 10 p)) with
    (read_number 16 10 (String.length (show_number 10 10 p)) true (show_number 10 10 p)).
  unfold read_number. pose proof (take_digits_length 10 (show_number 10 10 p)) as Hl.
  destruct (take_digits_show 10 10 p) as (ds & E & Hv & Hd); [lia..| |].
  { split; [done|]. etrans; [exact Hp'|]. by apply Z.ltb_lt. }
  rewrite E in *. cbn [fst] in Hl. rewrite (proj2 (Nat.eqb_neq _ _)), (proj2 (Nat.ltb_ge _ _)) by lia.
  cbn [orb negb andb]. by rewrite (proj2 (Z.leb_gt _ _)), Hv by lia.
Qed.
Lemma read_socket6_v6 s a p t : read_socket6 s ≠ Some (V4 a, p, t).
Proof.
  unfold read_socket6. destruct (read_char _ s) as [[u1 s1]|]; [|done]. cbn.
  destruct (read_ipv6 s1) as [[b s2]|]; [|done]. cbn. destruct (read_scope s2) as [[u3 s3]|]; [|done]. cbn.
  destruct (read_char _ s3) as [[u4 s4]|]; [|done]. cbn. by destruct (read_port s4) as [[q s5]|].
Qed.
Lemma parse_socket_wf s a p : parse_socket s = Some (V4 a, p) → length a = 4%nat ∧ Forall is_byte a ∧ u16 p.
Proof.
  unfold parse_socket, parse_with, read_socket. destruct (read_ipv4 s) as [[b t]|] eqn:E4.
  - cbn. destruct (read_port t) as [[q u]|] eqn:Ep; cbn.
    + destruct u; [|done]. intros [= -> ->]. apply (read_octets_wf 4 0) in E4 as [? ?]. split_and!; [done..|].
      unfold read_port in Ep. destruct (read_char _ _) as [[_ v]|]; [|done]. by apply read_number_range in Ep.
    + destruct (read_socket6 s) as [[r [|? ?]]|] eqn:E6; [|done..]. intros [= E]. subst r. by apply read_socket6_v6 in E6.
  - cbn. destruct (read_socket6 s) as [[r [|? ?]]|] eqn:E6; [|done..]. intros [= E]. subst r. by apply read_socket6_v6 in E6.
Qed.
Lemma parse_socket_show a p : length a = 4%nat → Forall is_byte a → u16 p →
  parse_socket (show_ipv4 a +:+ ":" +:+ show_number 10 10 p) = Some (V4 a, p).
Proof.
  intros Hl Hb Hp. unfold parse_socket, parse_with, read_socket, read_ipv4, show_ipv4.
  pose proof (read_octets_app 4 0 a "" (":" +:+ show_number 10 10 p) Hl Hb eq_refl eq_refl ltac:(done)) as E.
  change ("" +:+ ?s) with s in E. rewrite E. cbn -[read_port show_number String.append]. by rewrite read_port_show.
Qed.

Lemma mapM_chain {A B C} (f : A → option B) (g : B → option C) (h : A → option C) l :
  (∀ x, x ∈ l → h x = f x ≫= g) → mapM h l = mapM f l ≫= mapM g.
Proof.
  induction l as [|x l IH]; intros Hf; [done|]. cbn [mapM]. rewrite Hf by by left.
  rewrite IH by (intros y Hy; apply Hf; by right). destruct (f x) as [y|]; [|done]. cbn.
  destruct (mapM f l); cbn; [done|]. by destruct (g y).
Qed.
Lemma l7_service_agrees svc : plain_l7 svc → agrees (apply_l7_service svc) (replay_l7_service svc).
Proof.
  intros [Hp Hr]. unfold apply_l7_service, replay_l7_service, rpc_add_l7_service.
  cbn [L7Service_vip L7Service_routes L7Service_port]. rewrite wrap_id by done.
  rewrite (mapM_chain l7_route_msg l7_route).
  - intros c. unfold read, text, parsed, send, call, ctl, mbind, M_bind.
    destruct (mapM l7_route_msg _) as [ms|], (parse_ipv4 _) as [vip|]; cbn; try done.
    destruct (mapM l7_route ms) as [rs|]; [|done]. cbn. by destruct (add_l7_service vip _ rs c) as [c' []].
  - intros r Hin. unfold l7_route_cfg, l7_route_msg. rewrite Forall_forall in Hr. specialize (Hr r Hin).
    destruct (parse_socket (L7RouteCfg_backend r)) as [[[a|a] p]|] eqn:E; [|by specialize (Hr _ eq_refl)|done].
    apply parse_socket_wf in E as (? & ? & ?). cbn -[show_number String.append]. unfold l7_route.
    cbn -[show_number String.append]. by rewrite parse_socket_show.
Qed.
End entries.

(** ** The whole configuration *)

(** The sections a replay sends are those that were given. *)
Definition plain (cfg : Config) : Prop :=
  Forall (λ p, u16 (PortCfg_vlan p)) (Config_ports cfg) ∧
  (∀ label, Config_etree_leaf_label cfg = Some label → label = 0 ∨ unreserved_label label = true) ∧
  Forall (λ r, u16 (EtreeRemoteCfg_bd r)) (Config_etree_remotes cfg) ∧
  Forall plain_segment (Config_ethernet_segments cfg) ∧
  Forall (λ v, u16 (VniCfg_vlan v)) (Config_vnis cfg) ∧
  Forall plain_fdb (Config_fdb cfg) ∧
  Forall plain_nexthop (Config_nexthops cfg) ∧
  Forall plain_localsid (Config_localsids cfg) ∧
  Forall (λ rs, u8 (ReplSegCfg_hop_limit_threshold rs)) (Config_repl_segs cfg) ∧
  Forall plain_xconnect (Config_xconnects cfg) ∧
  Forall plain_ilm (Config_ilm cfg) ∧
  Forall plain_service (Config_services cfg) ∧
  some_text (Config_masq_node cfg) ∧
  Forall plain_policy_cfg (Config_policies cfg) ∧
  Forall plain_l7 (Config_l7_services cfg).
(** The configuration a replay puts into effect. *)
Definition sent (cfg : Config) : Config := {|
  Config_fib4_mode := Config_fib4_mode cfg; Config_ports := Config_ports cfg; Config_nexthops := Config_nexthops cfg;
  Config_routes := Config_routes cfg; Config_neighbors := Config_neighbors cfg;
  Config_ilm := sent_ilm <$> Config_ilm cfg; Config_routes6 := Config_routes6 cfg;
  Config_localsids := sent_localsid <$> Config_localsids cfg; Config_gtp_pdrs := Config_gtp_pdrs cfg;
  Config_srv6_source := Config_srv6_source cfg; Config_vtep_source := Config_vtep_source cfg;
  Config_vtep_source6 := Config_vtep_source6 cfg; Config_vnis := Config_vnis cfg; Config_fdb := Config_fdb cfg;
  Config_repl_slots := Config_repl_slots cfg; Config_etree_leaf_label := Config_etree_leaf_label cfg;
  Config_etree_leaf_arg := Config_etree_leaf_arg cfg; Config_etree_remotes := Config_etree_remotes cfg;
  Config_repl_segs := Config_repl_segs cfg; Config_xconnects := Config_xconnects cfg; Config_dx2v := Config_dx2v cfg;
  Config_fdb_age_secs := Config_fdb_age_secs cfg; Config_services := Config_services cfg;
  Config_masq_node := Config_masq_node cfg; Config_non_masq := Config_non_masq cfg;
  Config_identities := Config_identities cfg; Config_cidr_identities := Config_cidr_identities cfg;
  Config_policies := Config_policies cfg; Config_l7_services := Config_l7_services cfg;
  Config_ethernet_segments := Config_ethernet_segments cfg |}.
(** Nothing is dropped. *)
Definition keeps_all (cfg : Config) : Prop :=
  Forall (λ ls, LocalSidCfg_arg_bits ls = 0 ∧ LocalSidCfg_port ls = ""%string) (Config_localsids cfg) ∧
  Forall (λ i, IlmCfg_bd i = 0) (Config_ilm cfg).
Lemma map_unchanged {A} (g : A → A) l : Forall (λ x, g x = x) l → g <$> l = l.
Proof. induction 1 as [|x l E _ IH]; [done|]. cbn. by rewrite E, IH. Qed.
Lemma sent_all cfg : keeps_all cfg → sent cfg = cfg.
Proof.
  intros [Hl Hi]. unfold sent. rewrite !map_unchanged; [by destruct cfg|..].
  - eapply Forall_impl; [exact Hl|]. intros [] [E1 E2]. cbn in E1, E2. by subst.
  - eapply Forall_impl; [exact Hi|]. intros [] E. cbn in E. by subst.
Qed.

(** The two orders differ in the place of the FDB, which the daemon loads
    after what it points to, and of the two leaf settings. *)
Definition order_free (cfg : Config) : Prop :=
  (Config_etree_leaf_label cfg = None ∨ Config_etree_leaf_arg cfg = None) ∧
  (Config_fdb cfg = [] ∨
   Forall (λ es, EthernetSegmentCfg_nhg es = []) (Config_ethernet_segments cfg) ∧ Config_nexthops cfg = [] ∧
   Config_localsids cfg = [] ∧ Config_gtp_pdrs cfg = []).
Definition accepted (cfg : Config) : Prop := Forall (λ s, s.2 = false) (unreplayable cfg).

Section replay.
Context `{HostOps} `{Regex} `{MapSys}.

(** The loader's operations in the order of the replay: the FDB before the
    nexthop groups, nexthops, local SIDs and GTP PDRs it points to, and the
    leaf argument before the leaf label. *)
Definition apply_in_replay_order (members : Dp → list (L2MemberKey * Z)) (cfg : Config) : M Control ConfigErr unit :=
  _ ← every apply_port (Config_ports cfg);
  _ ← every apply_domain (l2_domains (Config_ports cfg));
  _ ← given (λ arg, ctl (set_etree_leaf_arg arg)) (Config_etree_leaf_arg cfg);
  _ ← given (λ label, ctl (set_etree_leaf_label label)) (Config_etree_leaf_label cfg);
  _ ← every apply_etree_remote (Config_etree_remotes cfg);
  _ ← every apply_segment (Config_ethernet_segments cfg);
  _ ← given apply_srv6_source (Config_srv6_source cfg);
  _ ← given apply_vtep_source (Config_vtep_source6 cfg);
  _ ← given apply_vtep_source (Config_vtep_source cfg);
  _ ← every apply_vni (Config_vnis cfg);
  _ ← every apply_fdb (Config_fdb cfg);
  _ ← every apply_nhg (Config_ethernet_segments cfg);
  _ ← every apply_nexthop (Config_nexthops cfg);
  _ ← every apply_localsid (Config_localsids cfg);
  _ ← every apply_gtp_pdr (Config_gtp_pdrs cfg);
  _ ← every (apply_repl_slot members) (Config_repl_slots cfg);
  _ ← every apply_repl_seg (Config_repl_segs cfg);
  _ ← every apply_xconnect (Config_xconnects cfg);
  _ ← every apply_dx2v (Config_dx2v cfg);
  _ ← every apply_neighbor (Config_neighbors cfg);
  _ ← every apply_ilm (Config_ilm cfg);
  _ ← apply_routes (Config_routes cfg);
  _ ← every apply_route6 (Config_routes6 cfg);
  _ ← every apply_service (indexed (Config_services cfg));
  _ ← given apply_masq_node (Config_masq_node cfg);
  _ ← every apply_non_masq (Config_non_masq cfg);
  _ ← every apply_identity (Config_identities cfg);
  _ ← every apply_cidr_identity (Config_cidr_identities cfg);
  _ ← every apply_policy (Config_policies cfg);
  every apply_l7_service (Config_l7_services cfg).

(** The sections after those, in both orders. *)
Definition load_rest (members : Dp → list (L2MemberKey * Z)) (cfg : Config) : M Control ConfigErr unit :=
  _ ← every (apply_repl_slot members) (Config_repl_slots cfg);
  _ ← every apply_repl_seg (Config_repl_segs cfg);
  _ ← every apply_xconnect (Config_xconnects cfg);
  _ ← every apply_dx2v (Config_dx2v cfg);
  _ ← every apply_neighbor (Config_neighbors cfg);
  _ ← every apply_ilm (Config_ilm cfg);
  _ ← apply_routes (Config_routes cfg);
  _ ← every apply_route6 (Config_routes6 cfg);
  _ ← every apply_service (indexed (Config_services cfg));
  _ ← given apply_masq_node (Config_masq_node cfg);
  _ ← every apply_non_masq (Config_non_masq cfg);
  _ ← every apply_identity (Config_identities cfg);
  _ ← every apply_cidr_identity (Config_cidr_identities cfg);
  _ ← every apply_policy (Config_policies cfg);
  every apply_l7_service (Config_l7_services cfg).
Definition replay_rest (cfg : Config) : M Control ReplayErr unit :=
  _ ← every replay_repl_seg (Config_repl_segs cfg);
  _ ← every replay_xconnect (Config_xconnects cfg);
  _ ← every replay_neighbor (Config_neighbors cfg);
  _ ← every replay_ilm (Config_ilm cfg);
  _ ← replay_routes (Config_routes cfg);
  _ ← every replay_route6 (Config_routes6 cfg);
  _ ← every replay_service (indexed (Config_services cfg));
  _ ← given replay_masq_node (Config_masq_node cfg);
  _ ← every replay_non_masq (Config_non_masq cfg);
  _ ← every replay_identity (Config_identities cfg);
  _ ← every replay_cidr_identity (Config_cidr_identities cfg);
  _ ← every replay_policy (Config_policies cfg);
  every replay_l7_service (Config_l7_services cfg).

Lemma l2_domains_vlan ports d : d ∈ l2_domains ports → ∃ p, p ∈ ports ∧ PortCfg_vlan p = d.1.
Proof.
  destruct d as [v names]. unfold l2_domains. intros Hd%elem_of_btree.
  enough (∀ m : gmap Z (list string), foldl (λ m p, if PortCfg_l3 p then m
      else <[PortCfg_vlan p := default [] (m !! PortCfg_vlan p) ++ [PortCfg_name p]]> m) m ports !! v = Some names →
    is_Some (m !! v) ∨ ∃ p, p ∈ ports ∧ PortCfg_vlan p = v) as Hg.
  { apply Hg in Hd as [[? Hd]|?]; [by rewrite lookup_empty in Hd|done]. }
  clear Hd. induction ports as [|p ports IH]; intros m Hm; [left; by exists names|]. cbn in Hm. apply IH in Hm as [Hm|(q & ? & ?)].
  - destruct (PortCfg_l3 p); [by left|]. destruct (decide (PortCfg_vlan p = v)) as [<-|Hne].
    + right. exists p. split; [by left|done].
    + left. by rewrite lookup_insert_ne in Hm.
  - right. exists q. split; [by right|done].
Qed.

Lemma leaf_label_agrees label : label = 0 ∨ unreserved_label label = true →
  agrees (ctl (set_etree_leaf_label label)) (send (rpc_set_etree_leaf_label (mk_pb_EtreeLeafLabel label))).
Proof.
  intros Hl. unfold rpc_set_etree_leaf_label. cbn [EtreeLeafLabel_label].
  replace (negb (label =? 0) && negb (unreserved_label label)) with false; [apply agrees_call|].
  by destruct Hl as [->| ->]; rewrite ?andb_false_r.
Qed.
Lemma leaf_settings_agree label arg : (label = None ∨ arg = None) →
  (∀ l, label = Some l → l = 0 ∨ unreserved_label l = true) → ∀ A (m : M Control ConfigErr A) (n : M Control ReplayErr A),
  agrees m n →
  agrees (_ ← given (λ label, ctl (set_etree_leaf_label label)) label; _ ← given (λ arg, ctl (set_etree_leaf_arg arg)) arg; m)
    (_ ← given (λ arg, send (rpc_set_etree_leaf_arg (mk_pb_EtreeLeafArg arg))) arg;
     _ ← given (λ label, send (rpc_set_etree_leaf_label (mk_pb_EtreeLeafLabel label))) label; n).
Proof.
  intros [-> | ->] Hl A m n Hm.
  - apply agrees_idle_l; [by intros c|]. apply agrees_bind; [apply agrees_given; intros; apply agrees_call|].
    intros _. by apply agrees_idle_r.
  - apply agrees_idle_r; [by intros c|]. apply agrees_bind; [apply agrees_given; intros l E; by apply leaf_label_agrees, Hl|].
    intros _. by apply agrees_idle_l.
Qed.

Lemma idle_accepted cfg : accepted cfg →
  idle (every (λ '(name, present), if (present : bool) then bail (Unreplayable name) else mret tt) (unreplayable cfg) :
    M Control ReplayErr unit).
Proof. unfold accepted. intros Ha. apply idle_every. intros [n []] Hin c; [|done]. rewrite Forall_forall in Ha. by apply Ha in Hin. Qed.
Lemma refused cfg c : ¬ accepted cfg →
  ∃ name, ctl_apply cfg c = (c, Err (Unreplayable name)) ∧ (name, true) ∈ unreplayable cfg.
Proof.
  intros Hn. unfold accepted in Hn. unfold ctl_apply.
  enough (∃ name, every (λ '(name, present), if (present : bool) then bail (Unreplayable name) else mret tt) (unreplayable cfg) c =
    (c, Err (Unreplayable name)) ∧ (name, true) ∈ unreplayable cfg) as (name & E & Hin).
  { exists name. split; [|done]. unfold mbind at 1, M_bind. by rewrite E. }
  unfold every. induction (unreplayable cfg) as [|[n b] l IH]; [by destruct Hn|]. cbn [mfold]. destruct b.
  - exists n. split; [done|by left].
  - destruct IH as (name & E & Hin); [intros Hf; apply Hn; by constructor|]. exists name. split; [exact E|by right].
Qed.

Ltac each_in H := rewrite Forall_forall in H.
Ltac by_section L := apply agrees_bind; [apply agrees_every; intros ? ?; apply L; eauto|intros _].

(** The objects the FDB points to. *)
Lemma objects_agree cfg : plain cfg → ∀ A (m : M Control ConfigErr A) (n : M Control ReplayErr A), agrees m n →
  agrees (_ ← every apply_nhg (Config_ethernet_segments cfg); _ ← every apply_nexthop (Config_nexthops cfg);
          _ ← every apply_localsid (sent_localsid <$> Config_localsids cfg); _ ← every apply_gtp_pdr (Config_gtp_pdrs cfg); m)
    (_ ← every replay_nhg (Config_ethernet_segments cfg); _ ← every replay_nexthop (Config_nexthops cfg);
     _ ← every replay_localsid (Config_localsids cfg); _ ← every replay_gtp_pdr (Config_gtp_pdrs cfg); n).
Proof.
  intros (_ & _ & _ & Hs & _ & _ & Hn & Hl & _) A m n Hm. each_in Hs. each_in Hn. each_in Hl.
  by_section nhg_agrees. by_section nexthop_agrees.
  apply agrees_bind; [apply agrees_every_of; intros ? ?; apply localsid_agrees; eauto|intros _].
  by_section gtp_pdr_agrees. exact Hm.
Qed.

(** The FDB after or before what it points to. *)
Lemma fdb_sections_agree cfg : plain cfg → order_free cfg → ∀ A (m : M Control ConfigErr A) (n : M Control ReplayErr A),
  agrees m n →
  agrees (_ ← every apply_nhg (Config_ethernet_segments cfg); _ ← every apply_nexthop (Config_nexthops cfg);
          _ ← every apply_localsid (sent_localsid <$> Config_localsids cfg); _ ← every apply_gtp_pdr (Config_gtp_pdrs cfg);
          _ ← every apply_fdb (Config_fdb cfg); m)
    (_ ← every replay_fdb (Config_fdb cfg);
     _ ← every replay_nhg (Config_ethernet_segments cfg); _ ← every replay_nexthop (Config_nexthops cfg);
     _ ← every replay_localsid (Config_localsids cfg); _ ← every replay_gtp_pdr (Config_gtp_pdrs cfg); n).
Proof.
  intros Hp [_ Ho] A m n Hm. pose proof Hp as (_ & _ & _ & _ & _ & Hf & _). each_in Hf.
  destruct Ho as [-> | (Hg & -> & -> & ->)].
  - apply agrees_idle_r; [by intros c|]. apply (objects_agree cfg Hp). by apply agrees_idle_l.
  - rewrite Forall_forall in Hg.
    apply agrees_idle_l; [apply idle_every; intros es Hin c; unfold apply_nhg; by rewrite Hg|].
    do 3 (apply agrees_idle_l; [by intros c|]). by_section fdb_agrees.
    apply agrees_idle_r; [apply idle_every; intros es Hin c; unfold replay_nhg; by rewrite Hg|].
    do 3 (apply agrees_idle_r; [by intros c|]). exact Hm.
Qed.

(** The sections between the leaf settings and the FDB. *)
Lemma middle_agrees cfg : plain cfg → ∀ A (m : M Control ConfigErr A) (n : M Control ReplayErr A), agrees m n →
  agrees (_ ← every apply_etree_remote (Config_etree_remotes cfg); _ ← every apply_segment (Config_ethernet_segments cfg);
          _ ← given apply_srv6_source (Config_srv6_source cfg); _ ← given apply_vtep_source (Config_vtep_source6 cfg);
          _ ← given apply_vtep_source (Config_vtep_source cfg); _ ← every apply_vni (Config_vnis cfg); m)
    (_ ← every replay_etree_remote (Config_etree_remotes cfg); _ ← every replay_segment (Config_ethernet_segments cfg);
     _ ← given replay_srv6_source (Config_srv6_source cfg); _ ← given replay_vtep_source (Config_vtep_source6 cfg);
     _ ← given replay_vtep_source (Config_vtep_source cfg); _ ← every replay_vni (Config_vnis cfg); n).
Proof.
  intros (_ & _ & Hr & Hs & Hv & _) A m n Hm. each_in Hr. each_in Hs. each_in Hv.
  by_section etree_remote_agrees. by_section segment_agrees.
  apply agrees_bind; [apply agrees_given; intros; apply srv6_source_agrees|intros _].
  do 2 (apply agrees_bind; [apply agrees_given; intros; apply vtep_source_agrees|intros _]).
  by_section vni_agrees. exact Hm.
Qed.

Lemma rest_agrees members cfg : plain cfg → accepted cfg → agrees (load_rest members (sent cfg)) (replay_rest cfg).
Proof.
  intros Hp Ha.
  destruct Hp as (_ & _ & _ & _ & _ & _ & _ & _ & Hrs & Hx & Hilm & Hsvc & Hmasq & Hpol & Hl7).
  each_in Hrs. each_in Hx. each_in Hilm. each_in Hsvc. each_in Hpol. each_in Hl7.
  assert (Config_repl_slots (sent cfg) = [] ∧ Config_dx2v (sent cfg) = []) as [Hslots Hdx].
  { pose proof Ha as Ha'. unfold accepted, unreplayable in Ha'. rewrite !Forall_cons in Ha'. cbn in Ha'.
    destruct Ha' as (_ & _ & Hslots%negb_false_iff%bool_decide_eq_true & Hdx%negb_false_iff%bool_decide_eq_true & _). done. }
  unfold load_rest, replay_rest. rewrite Hslots, Hdx. apply agrees_idle_l; [by intros c|].
  by_section repl_seg_agrees. by_section xconnect_agrees. apply agrees_idle_l; [by intros c|].
  by_section neighbor_agrees.
  apply agrees_bind; [apply agrees_every_of; intros ? ?; apply ilm_agrees; eauto|intros _].
  apply agrees_bind; [apply routes_agree|intros _]. by_section route6_agrees.
  apply agrees_bind; [apply agrees_every; intros [i svc] (j & svc' & E & Hin)%elem_of_lookup_imap; injection E as -> ->;
    eauto using service_agrees, list_elem_of_lookup_2|intros _].
  apply agrees_bind; [apply agrees_given; intros node E; apply masq_node_agrees; intros ->; by apply Hmasq|intros _].
  by_section non_masq_agrees. by_section identity_agrees. by_section cidr_identity_agrees. by_section policy_agrees.
  apply agrees_every. intros. apply l7_service_agrees. auto.
Qed.

(** C39: what a replay of a configuration over the control API ([cradle ctl
    apply]) does, compared with loading it in the daemon
    ([Config::apply_control]), for configurations within the API's range
    ([plain]: behaviors it knows, IPv4 L7 backends, unreserved leaf and
    20-bit ILM labels, encapsulating nexthops that name their interface and
    GTP-U source, numbers within their widths, no empty texts).  The replay performs the loader's operations on the
    configuration less the argument lengths and attachment ports of its
    local SIDs and the bridge domains of its ILM entries ([sent]), in an order
    of its own ([apply_in_replay_order]): from any state it reaches the same
    state, and the one fails exactly when the other does, at the same point.
    Where the sections do not depend on the order ([order_free]: no FDB
    entries, or none of the objects an FDB points to, and not both leaf
    settings), that is the state the daemon's own load reaches; where no
    dropped field is set ([keeps_all]), the configuration is the one given.
    A configuration with a section the API cannot express is refused before
    anything is sent. *)
Theorem config_replay_agrees (members : Dp → list (L2MemberKey * Z)) cfg : plain cfg →
  (accepted cfg →
     agrees (apply_in_replay_order members (sent cfg)) (ctl_apply cfg) ∧
     (order_free cfg → agrees (apply_control members (sent cfg)) (ctl_apply cfg)) ∧
     (keeps_all cfg → sent cfg = cfg)) ∧
  (¬ accepted cfg → ∀ c, ∃ name, ctl_apply cfg c = (c, Err (Unreplayable name)) ∧ (name, true) ∈ unreplayable cfg).
Proof.
  intros Hp. split; [|intros Hn c; by apply refused]. intros Ha.
  pose proof (rest_agrees members cfg Hp Ha) as Hrest. pose proof Hp as (Hports & Hlabel & _ & _ & _ & Hf & _).
  each_in Hports. each_in Hf.
  assert (∀ p, p ∈ Config_ports cfg → u16 (PortCfg_vlan p)) as Hports' by done.
  split; [|split; [|apply sent_all]].
  - unfold apply_in_replay_order, ctl_apply. apply agrees_idle_r; [by apply idle_accepted|].
    by_section port_agrees.
    apply agrees_bind; [apply agrees_every; intros d (q & ? & E)%l2_domains_vlan; apply domain_agrees; rewrite <- E; auto|intros _].
    apply agrees_bind; [apply agrees_given; intros; apply agrees_call|intros _].
    apply agrees_bind; [apply agrees_given; intros l E; by apply leaf_label_agrees, Hlabel|intros _].
    apply (middle_agrees cfg Hp). by_section fdb_agrees. apply (objects_agree cfg Hp). exact Hrest.
  - intros Ho. unfold apply_control, ctl_apply. apply agrees_idle_r; [by apply idle_accepted|].
    by_section port_agrees.
    apply agrees_bind; [apply agrees_every; intros d (q & ? & E)%l2_domains_vlan; apply domain_agrees; rewrite <- E; auto|intros _].
    apply leaf_settings_agree; [apply Ho|done|].
    apply (middle_agrees cfg Hp). apply (fdb_sections_agree cfg Hp Ho). exact Hrest.
Qed.
End replay.

(** ** An instance *)

Definition ex_port (name : string) (l3 : bool) (vlan : Z) : PortCfg := mkPortCfg name l3 vlan 0 None.
Definition ex_fdb : FdbCfg := mkFdbCfg "02:00:00:00:00:07" 10 None (Some "192.0.2.9") None 0 1 None None false.
Definition ex_cfg (mode : option string) (fdb : list FdbCfg) : Config := {|
  Config_fib4_mode := mode;
  Config_ports := [ex_port "veth0" false 10; ex_port "eth0" true 0]%string;
  Config_nexthops := [mkNexthopCfg 1 (Some "eth0") (Some "10.0.0.2") [100] [] 0 0 None None 0 None 0 None false]%string;
  Config_routes := [mkRouteCfg "10.1.0.0/16" 1 0]%string;
  Config_neighbors := [mkNeighborCfg "eth0" "10.0.0.2" "02:00:00:00:00:02"]%string;
  Config_ilm := [mkIlmCfg 100 1 "swap" 0 0 false]%string;
  Config_routes6 := [mkRoute6Cfg "2001:db8::/32" 1 0]%string;
  Config_localsids := [mkLocalSidCfg "fc00::1" "end.dt4" 0 0 0 0 0 0 16 "" ["usd"]]%string;
  Config_gtp_pdrs := []; Config_srv6_source := Some "fc00::ff"%string; Config_vtep_source := Some "192.0.2.1"%string;
  Config_vtep_source6 := None; Config_vnis := [mkVniCfg 5010 10 false 0 None];
  Config_fdb := fdb; Config_repl_slots := [];
  Config_etree_leaf_label := Some 2000; Config_etree_leaf_arg := None; Config_etree_remotes := []; Config_repl_segs := [];
  Config_xconnects := []; Config_dx2v := []; Config_fdb_age_secs := None;
  Config_services := [mkServiceCfg "10.96.0.1" 80 "tcp" false [mkBackendCfg "10.0.0.5" 8080]]%string;
  Config_masq_node := Some "192.0.2.1"%string; Config_non_masq := ["10.0.0.0/8"]%string;
  Config_identities := [mkIdentityCfg "10.0.0.5" 300 0]%string;
  Config_cidr_identities := [mkCidrIdentityCfg "192.0.2.0/24" 400 0]%string;
  Config_policies := [mkPolicyCfg "veth0" "" "" true [mkPolicyRuleCfg 300 "tcp" 80 false] false [] false
    [mkL7PortCfg 80 [mkL7RuleCfg "GET" "/"]]]%string;
  Config_l7_services := [mkL7ServiceCfg "10.96.0.2" 80 [mkL7RouteCfg "/" "10.0.0.5:08080"]]%string;
  Config_ethernet_segments := [] |}.
Definition ex_start : @Control ref_host literal_regex :=
  fresh_control (host_with {[ "veth0" := 3; "eth0" := 4 ]}%string []) empty_dp (mkStore (mkIpamFile ∅ ∅) ∅ []).

Lemma ex_cfg_plain mode fdb : fdb = [] ∨ fdb = [ex_fdb] → plain (ex_cfg mode fdb).
Proof.
  intros Hfdb.
  unfold plain, plain_nexthop, plain_localsid, plain_ilm, plain_service, plain_policy_cfg, plain_rules, plain_l7, some_text, in_range.
  split_and!; cbn; try done; try (intros label [= <-]; right; reflexivity).
  all: try (destruct Hfdb as [-> | ->]; repeat constructor; unfold in_range; (lia || done)).
  all: repeat (progress cbn || rewrite Forall_cons || rewrite Forall_nil || split_and!).
  all: match goal with
       | |- _ ∨ _ ∨ _ → _ => intros [[? ?]|[[? ?]|?]]; by try eexists
       | |- _ ∉ _ => set_solver
       | |- ∀ sa, _ => intros sa [= <-]; exact I
       | |- is_Some _ → _ => by intros [? ?]
       | |- _ => first [done | lia]
       end.
Qed.
Lemma ex_refused mode fdb : mode ≠ None → ¬ accepted (ex_cfg mode fdb).
Proof. intros Hm Ha. apply Forall_cons in Ha as [Hf _]. cbn in Hf. by destruct mode. Qed.

(** An overlay configuration is replayed in the replay's order, less the
    argument length of its local SID; without its FDB entry as the daemon
    loads it; the same with a knob the API has no request for is refused. *)
Lemma config_replay_agrees_witness :
  let cfg := ex_cfg None [ex_fdb] in
  let flat := ex_cfg None [] in
  let other := ex_cfg (Some "dir24"%string) [] in
  (@ctl_apply ref_host literal_regex ref_sys cfg ex_start).2 = Ok tt ∧ accepted cfg ∧
  LocalSidCfg_arg_bits <$> Config_localsids cfg = [16] ∧ LocalSidCfg_arg_bits <$> Config_localsids (sent cfg) = [0] ∧
  agrees (@apply_in_replay_order ref_host literal_regex ref_sys (λ _, []) (sent cfg)) (@ctl_apply ref_host literal_regex ref_sys cfg) ∧
  agrees (@apply_control ref_host literal_regex ref_sys (λ _, []) (sent flat)) (@ctl_apply ref_host literal_regex ref_sys flat) ∧
  ∃ name, @ctl_apply ref_host literal_regex ref_sys other ex_start = (ex_start, Err (Unreplayable name)).
Proof.
  cbn zeta. assert (∀ fdb, accepted (ex_cfg None fdb)) as Ha by (intros fdb; repeat constructor).
  split; [vm_compute; reflexivity|]. split; [apply Ha|]. split; [reflexivity|]. split; [reflexivity|].
  pose proof (λ mode fdb Hf, @config_replay_agrees ref_host literal_regex ref_sys (λ _, []) (ex_cfg mode fdb) (ex_cfg_plain mode fdb Hf)) as Hall.
  split; [|split].
  - destruct (Hall None [ex_fdb] ltac:(by right)) as [Hr _]. apply (Hr (Ha _)).
  - destruct (Hall None [] ltac:(by left)) as [Hr _]. apply (Hr (Ha _)). split; [by right|by left].
  - destruct (Hall (Some "dir24"%string) [] ltac:(by left)) as [_ Hr].
    destruct (Hr (ex_refused (Some "dir24"%string) [] ltac:(done)) ex_start) as (name & E & _). by exists name.
Defined.
