(* ===== verification/IdentProps.v ===== *)
(** * Identity allocation: the property

    The texts that stand for label sets tell them apart, and the numbers
    [ensure_identities] hands out tell the pods' label sets apart. *)

From S2P Require Import Prelude.
From S2P Require Import Bpf.
From S2P Require Import Text.
From S2P Require Import Control.
From S2P Require Import K8s.
From S2P Require Import NetPol.
From S2P Require Import NetPolSpec.

(** ** Texts that can be taken apart *)

Fixpoint lacks (c : Ascii.ascii) (s : string) : Prop :=
  match s with EmptyString => True | String a s => a ≠ c ∧ lacks c s end.

Lemma lacks_app c s t : lacks c (s +:+ t) ↔ lacks c s ∧ lacks c t.
Proof.
  induction s as [|a s IH]; [cbn; tauto|].
  change (a ≠ c ∧ lacks c (s +:+ t) ↔ (a ≠ c ∧ lacks c s) ∧ lacks c t). rewrite IH. tauto.
Qed.
Lemma app_inj_l (s t u : string) : s +:+ t = s +:+ u → t = u.
Proof. induction s as [|a s IH]; [done|]. intros [= E]. by apply IH. Qed.
Lemma split_at c (s t x y : string) : lacks c s → lacks c t → s +:+ String c x = t +:+ String c y → s = t ∧ x = y.
Proof.
  revert t. induction s as [|a s IH]; intros [|b t] Hs Ht E.
  - by injection E as ->.
  - injection E as <- _. by destruct Ht.
  - injection E as -> _. by destruct Hs.
  - injection E as -> E. destruct Hs, Ht. by destruct (IH t) as [-> ->].
Qed.
Lemma no_split c (s t x : string) : lacks c t → s +:+ String c x ≠ t.
Proof. intros Ht E. subst. apply lacks_app in Ht as [_ [Hc _]]. done. Qed.

Definition semi : Ascii.ascii := Ascii.ascii_of_nat 59.
Definition equals : Ascii.ascii := Ascii.ascii_of_nat 61.

Lemma concat_inj s l t k : Forall (lacks semi) (s :: l) → Forall (lacks semi) (t :: k) →
  String.concat ";" (s :: l) = String.concat ";" (t :: k) → s = t ∧ l = k.
Proof.
  revert s t k. induction l as [|s' l IH]; intros s t [|t' k] [Hs Hl]%Forall_cons [Ht Hk]%Forall_cons E.
  - done.
  - by apply eq_sym, no_split in E.
  - by apply no_split in E.
  - apply (split_at semi s t (String.concat ";" (s' :: l)) (String.concat ";" (t' :: k))) in E as [-> E]; [|done..].
    by destruct (IH s' t' k) as [-> ->].
Qed.

Lemma stree_inj (m n : Labels) : stree m = stree n → m = n.
Proof. intros E. apply map_eq. intros k. apply option_eq. intros v. by rewrite <- !stree_lookup, E. Qed.

(** Labels as Kubernetes admits them, without a label that claims to be the
    namespace. *)
Definition plain_labels (namespace : string) (labels : Labels) : Prop :=
  lacks semi namespace ∧ labels !! "io.kubernetes.pod.namespace"%string = None ∧
  ∀ k v, labels !! k = Some v → lacks semi k ∧ lacks equals k ∧ lacks semi v.

(** An entry of a text: a prefix, a key without [=], and its value. *)
Lemma entry_inj (pre : string) (kv kv' : string * string) : lacks equals kv.1 → lacks equals kv'.1 →
  pre +:+ kv.1 +:+ "=" +:+ kv.2 = pre +:+ kv'.1 +:+ "=" +:+ kv'.2 → kv = kv'.
Proof.
  destruct kv as [k v], kv' as [k' v']. cbn [fst snd]. intros Hk Hk' E%app_inj_l.
  by apply (split_at equals k k' v v') in E as [-> ->].
Qed.
Lemma entries_inj (pre : string) (l l' : list (string * string)) : Forall (λ kv, lacks equals kv.1) l → Forall (λ kv, lacks equals kv.1) l' →
  (λ kv : string * string, pre +:+ kv.1 +:+ "=" +:+ kv.2) <$> l = (λ kv : string * string, pre +:+ kv.1 +:+ "=" +:+ kv.2) <$> l' → l = l'.
Proof.
  revert l'. induction l as [|kv l IH]; intros [|kv' l'] Hl Hl' E; try done.
  apply Forall_cons in Hl as [Hk Hl]. apply Forall_cons in Hl' as [Hk' Hl']. rewrite !fmap_cons in E. injection E as E1 E2. f_equal; [by apply (entry_inj pre)|by apply IH].
Qed.
Lemma entries_lack (pre : string) (m : Labels) : lacks semi pre → (∀ k v, m !! k = Some v → lacks semi k ∧ lacks semi v) →
  Forall (lacks semi) ((λ kv : string * string, pre +:+ kv.1 +:+ "=" +:+ kv.2) <$> stree m).
Proof.
  intros Hp Hm. apply Forall_fmap, Forall_forall. intros [k v] [? ?]%stree_lookup%Hm. cbn.
  by rewrite !lacks_app; cbn.
Qed.
Lemma stree_keys (P : string → Prop) (m : Labels) : (∀ k v, m !! k = Some v → P k) → Forall (λ kv, P kv.1) (stree m).
Proof. intros Hm. apply Forall_forall. intros [k v] Hkv%stree_lookup. by apply (Hm k v). Qed.

Lemma labels_key_inj ns ns' l l' : plain_labels ns l → plain_labels ns' l' → labels_key ns l = labels_key ns' l' → ns = ns' ∧ l = l'.
Proof.
  intros (Hn & _ & Hl) (Hn' & _ & Hl') E. unfold labels_key in E. apply concat_inj in E as [En%app_inj_l El].
  - split; [done|]. apply stree_inj. apply (entries_inj "k8s:") in El; [done|..]; apply stree_keys; naive_solver.
  - constructor; [by rewrite lacks_app|]. apply (entries_lack "k8s:"); [done|naive_solver].
  - constructor; [by rewrite lacks_app|]. apply (entries_lack "k8s:"); [done|naive_solver].
Qed.

(** ** The security labels *)

Lemma foldl_insert (f : string → string) `{!Inj (=) (=) f} (l : list (string * string)) (m : Labels) i v : NoDup l.*1 →
  foldl (λ out kv, <[f kv.1 := kv.2]> out) m l !! i = Some v ↔
  (∃ k, (k, v) ∈ l ∧ f k = i) ∨ (m !! i = Some v ∧ ∀ kv, kv ∈ l → f kv.1 ≠ i).
Proof.
  revert m. induction l as [|[k w] l IH]; intros m Hd; cbn [foldl fst snd].
  - set_solver.
  - cbn in Hd. apply NoDup_cons in Hd as [Hk Hd]. rewrite IH by done. clear IH.
    assert (∀ u, (k, u) ∉ l) as Hk' by (intros u Hu; apply Hk; rewrite list_elem_of_fmap; by exists (k, u)). split.
    + intros [(k' & Hin & <-)|[Hm Hl]]; [left; exists k'; split; [by right|done]|].
      destruct (decide (f k = i)) as [<-|Hne].
      * rewrite lookup_insert_eq in Hm. injection Hm as ->. left. exists k. split; [by left|done].
      * rewrite lookup_insert_ne in Hm by done. right. split; [done|]. intros kv [->|Hin]%elem_of_cons; [done|by apply Hl].
    + intros [(k' & [[= -> ->]|Hin]%elem_of_cons & <-)|[Hm Hl]].
      * right. rewrite lookup_insert_eq. split; [done|]. intros [k' u] Hin E%(inj f). cbn in E. subst. by apply (Hk' u).
      * left. by exists k'.
      * right. rewrite lookup_insert_ne by (apply (Hl (k, w)); by left). split; [done|]. intros kv Hin. apply Hl. by right.
Qed.
Lemma stree_nodup (m : Labels) : NoDup (stree m).*1.
Proof.
  unfold stree. rewrite (Permutation_map fst (merge_sort_Permutation str_key_le (map_to_list m))).
  apply NoDup_fst_map_to_list.
Qed.
#[local] Instance k8s_inj : Inj (=) (=) (λ k : string, "k8s:" +:+ k).
Proof. intros k k'. apply app_inj_l. Qed.
Lemma security_labels_label ns l k v : plain_labels ns l → k ≠ "io.kubernetes.pod.namespace"%string →
  security_labels ns l !! ("k8s:" +:+ k) = Some v ↔ l !! k = Some v.
Proof.
  intros (_ & Hn & _) Hk. unfold security_labels. rewrite (foldl_insert (λ k, "k8s:" +:+ k)) by apply stree_nodup. split.
  - intros [(k' & Hin%stree_lookup & E%(inj (λ k, "k8s:" +:+ k)))|[Hm _]]; [by subst|].
    apply lookup_singleton_Some in Hm as [E _]. change ("k8s:" +:+ "io.kubernetes.pod.namespace" = "k8s:" +:+ k) in E.
    by apply app_inj_l in E.
  - intros Hl. left. exists k. by rewrite stree_lookup.
Qed.
Lemma security_labels_namespace ns l : plain_labels ns l →
  security_labels ns l !! "k8s:io.kubernetes.pod.namespace"%string = Some ns.
Proof.
  intros (_ & Hn & _). unfold security_labels. rewrite (foldl_insert (λ k, "k8s:" +:+ k)) by apply stree_nodup. right.
  split; [done|]. intros [k v] Hin%stree_lookup E. change ("k8s:" +:+ k = "k8s:" +:+ "io.kubernetes.pod.namespace") in E.
  apply app_inj_l in E. congruence.
Qed.
Lemma security_labels_prefixed ns l i v : security_labels ns l !! i = Some v → ∃ k, i = "k8s:" +:+ k.
Proof.
  unfold security_labels. rewrite (foldl_insert (λ k, "k8s:" +:+ k)) by apply stree_nodup.
  intros [(k & _ & <-)|[Hm _]]; [by exists k|]. apply lookup_singleton_Some in Hm as [<- _].
  by exists "io.kubernetes.pod.namespace"%string.
Qed.
Lemma security_labels_inj ns ns' l l' : plain_labels ns l → plain_labels ns' l' →
  security_labels ns l = security_labels ns' l' → ns = ns' ∧ l = l'.
Proof.
  intros Hl Hl' E. split.
  - pose proof (security_labels_namespace ns l Hl) as H1. rewrite E, security_labels_namespace in H1 by done. by injection H1.
  - apply map_eq. intros k. destruct (decide (k = "io.kubernetes.pod.namespace"%string)) as [->|Hk].
    + destruct Hl as (_ & -> & _), Hl' as (_ & -> & _). done.
    + apply option_eq. intros v. by rewrite <- (security_labels_label ns l), <- (security_labels_label ns' l'), E.
Qed.
Lemma security_labels_lack ns l k v : plain_labels ns l → security_labels ns l !! k = Some v →
  lacks semi k ∧ lacks equals k ∧ lacks semi v.
Proof.
  intros Hp Hk. destruct (security_labels_prefixed ns l k v Hk) as [k' ->].
  rewrite !lacks_app. destruct (decide (k' = "io.kubernetes.pod.namespace"%string)) as [->|Hne].
  - change ("k8s:" +:+ "io.kubernetes.pod.namespace") with "k8s:io.kubernetes.pod.namespace"%string in Hk.
    rewrite security_labels_namespace in Hk by done. injection Hk as <-. by destruct Hp.
  - apply security_labels_label in Hk; [|done..]. destruct Hp as (_ & _ & Hl). apply Hl in Hk as (? & ? & ?). done.
Qed.
Lemma label_list_spec ns l : plain_labels ns l →
  stree (security_labels ns l) ≠ [] ∧ Forall (lacks semi) (label_list ns l) ∧
  Forall (λ kv, lacks equals kv.1) (stree (security_labels ns l)).
Proof.
  intros Hl. split_and!.
  - pose proof (security_labels_namespace ns l Hl) as Hk. apply stree_lookup in Hk. intros En. rewrite En in Hk.
    by apply not_elem_of_nil in Hk.
  - apply (entries_lack ""); [done|]. intros k v Hk. apply (security_labels_lack ns l k v Hl) in Hk as (? & ? & ?). done.
  - apply (stree_keys (lacks equals)). intros k v Hk. apply (security_labels_lack ns l k v Hl) in Hk as (? & ? & ?). done.
Qed.
Lemma cid_key_inj ns ns' l l' : plain_labels ns l → plain_labels ns' l' → cid_key ns l = cid_key ns' l' → ns = ns' ∧ l = l'.
Proof.
  intros Hl Hl' E. apply security_labels_inj; [exact Hl|exact Hl'|]. apply stree_inj.
  destruct (label_list_spec ns l Hl) as (Hn & Hs & Hk), (label_list_spec ns' l' Hl') as (Hn' & Hs' & Hk').
  apply (entries_inj ""); [done..|]. unfold cid_key, label_list in *.
  destruct (stree (security_labels ns l)) as [|kv t], (stree (security_labels ns' l')) as [|kv' t']; [done..|].
  rewrite fmap_cons in Hs, Hs', E. rewrite !fmap_cons in E |- *. apply concat_inj in E as [E1 E2]; [|exact Hs|exact Hs'].
  exact (f_equal2 cons E1 E2).
Qed.

(** ** The table of the cluster *)

Definition cid_id (c : Cid) : option Z := from_str_radix 32 10 (cid_name c).
(** The identities of the cluster are distinct, and none is reserved. *)
Definition plain_cids (items : list Cid) : Prop :=
  NoDup (omap cid_id items) ∧ Forall (λ id, FIRST_ID ≤ id) (omap cid_id items).
(** Distinct numbers, from the first one up to [top]. *)
Definition numbered (cids : gmap string Z) (top : Z) : Prop :=
  (∀ key id, cids !! key = Some id → FIRST_ID ≤ id ≤ top) ∧
  (∀ key key' id, cids !! key = Some id → cids !! key' = Some id → key = key') ∧
  FIRST_ID - 1 ≤ top.

Lemma list_cids_ids items : NoDup (omap cid_id items) →
  (∀ key id, list_cids items !! key = Some id → id ∈ omap cid_id items) ∧
  (∀ key key' id, list_cids items !! key = Some id → list_cids items !! key' = Some id → key = key').
Proof.
  induction items as [|c items IH] using rev_ind; [done|]. rewrite omap_app, NoDup_app. cbn [omap list_omap].
  change (match cid_id c with Some y => [y] | None => [] end) with (omap cid_id [c]).
  intros (Hd & Hdis & _). destruct (IH Hd) as [Hin Hinj]. unfold list_cids. rewrite foldl_app. cbn [foldl].
  fold (list_cids items). cbn [omap list_omap] in *. unfold cid_id in *.
  destruct (from_str_radix 32 10 (cid_name c)) as [id|]; [|split; [|done]; intros; rewrite app_nil_r; eauto].
  split.
  - intros key id' [[<- <-]|[_ Hk]]%lookup_insert_Some; [set_solver|]. rewrite elem_of_app. left. eauto.
  - intros key key' id' [[<- <-]|[Hn Hk]]%lookup_insert_Some [[<- E]|[Hn' Hk']]%lookup_insert_Some; [done|..|eauto];
      exfalso; [apply Hin in Hk'|apply Hin in Hk; subst]; apply (Hdis _ ltac:(eassumption)); set_solver.
Qed.
Lemma max_cid_spec cids : FIRST_ID - 1 ≤ max_cid cids ∧ ∀ key id, cids !! key = Some id → id ≤ max_cid cids.
Proof.
  unfold max_cid. split; [lia|]. intros key id Hk. apply elem_of_map_to_list in Hk.
  assert (id ∈ (map_to_list cids).*2) as Hin by (apply list_elem_of_fmap; by exists (key, id)).
  enough (id ≤ foldr Z.max (FIRST_ID - 1) (map_to_list cids).*2) by lia.
  clear Hk. induction (map_to_list cids).*2 as [|x l IH]; [by apply not_elem_of_nil in Hin|]. cbn.
  apply elem_of_cons in Hin as [->|Hin]; [lia|]. specialize (IH Hin). lia.
Qed.
Lemma list_cids_numbered items : plain_cids items → numbered (list_cids items) (max_cid (list_cids items)).
Proof.
  intros [Hd Hr]. destruct (list_cids_ids items Hd) as [Hin Hinj]. destruct (max_cid_spec (list_cids items)) as [Hb Hm].
  split_and!; [|done..]. intros key id Hk. split; [|eauto]. rewrite Forall_forall in Hr. eauto.
Qed.

(** ** Allocation *)

Lemma numbered_insert cids top key id : numbered cids top → cids !! key = None → id = top + 1 →
  numbered (<[key := id]> cids) id.
Proof.
  intros (Hb & Hi & Ht) Hk ->. split_and!; [| |lia].
  - intros k id [[<- <-]|[_ Hl]]%lookup_insert_Some; [lia|]. apply Hb in Hl. lia.
  - intros k k' id [[<- <-]|[Hn Hl]]%lookup_insert_Some [[<- E]|[Hn' Hl']]%lookup_insert_Some; [done| | |by apply (Hi _ _ id)].
    + apply Hb in Hl'. lia.
    + apply Hb in Hl. lia.
Qed.
Lemma ensure_pods_spec created pods : ∀ n cids top, numbered cids top → top + Z.of_nat (length pods) < 2 ^ 32 →
  let cids' := ensure_pods created n pods cids top in
  (∃ top', numbered cids' top' ∧ top' < 2 ^ 32) ∧ cids ⊆ cids' ∧
  ((∀ n, created n = true) → ∀ pod, pod ∈ pods → is_Some (cids' !! cid_key (pod_ns pod) (labels_of pod))).
Proof.
  induction pods as [|pod pods IH]; intros n cids top Hn Ht; cbn [ensure_pods].
  { split_and!; [exists top; split; [done|cbn in Ht; lia]|done|]. intros _ pod Hp. by apply not_elem_of_nil in Hp. }
  cbn [length] in Ht. rewrite Nat2Z.inj_succ in Ht. case_bool_decide as Hk.
  { destruct (IH (S n) cids top) as (Hm & Hs & Hc); [done|lia|]. split_and!; [done..|].
    intros Ha p [->|Hp]%elem_of_cons; [|by apply Hc]. destruct Hk as [id Hk]. exists id. by eapply lookup_weaken. }
  assert (wrap 32 (top + 1) = top + 1) as -> by (destruct Hn as (_ & _ & Hf); unfold wrap, FIRST_ID in *; apply Z.mod_small; lia).
  apply eq_None_not_Some in Hk. destruct (created n) eqn:Ec.
  - destruct (IH (S n) (<[cid_key (pod_ns pod) (labels_of pod) := top + 1]> cids) (top + 1)) as (Hm & Hs & Hc);
      [by apply numbered_insert with top|lia|]. split_and!; [done| |].
    + etrans; [by apply insert_subseteq|exact Hs].
    + intros Ha p [->|Hp]%elem_of_cons; [|by apply Hc]. exists (top + 1). eapply lookup_weaken; [|exact Hs]. apply lookup_insert_eq.
  - destruct (IH (S n) cids top) as (Hm & Hs & _); [done|lia|]. split_and!; [done..|]. intros Ha. by rewrite Ha in Ec.
Qed.

Definition plain_pods (pods : list Pod) : Prop := ∀ p, p ∈ pods → plain_labels (pod_ns p) (labels_of p).
Lemma rekey_from cids pods key id : rekey_for_pods cids pods !! key = Some id →
  ∃ q, q ∈ pods ∧ labels_key (pod_ns q) (labels_of q) = key ∧ cids !! cid_key (pod_ns q) (labels_of q) = Some id.
Proof.
  induction pods as [|q pods IH] using rev_ind; [done|]. unfold rekey_for_pods. rewrite foldl_app. cbn [foldl].
  fold (rekey_for_pods cids pods). setoid_rewrite elem_of_app.
  destruct (cids !! cid_key (pod_ns q) (labels_of q)) as [i|] eqn:Eq; [|naive_solver].
  intros [[<- <-]|[_ Hk]]%lookup_insert_Some; [exists q; split_and!; [right; set_solver|done..]|naive_solver].
Qed.
Lemma rekey_has cids pods pod : pod ∈ pods → is_Some (cids !! cid_key (pod_ns pod) (labels_of pod)) →
  is_Some (rekey_for_pods cids pods !! labels_key (pod_ns pod) (labels_of pod)).
Proof.
  intros Hin Hk. induction pods as [|q pods IH] using rev_ind; [by apply not_elem_of_nil in Hin|].
  unfold rekey_for_pods. rewrite foldl_app. cbn [foldl]. fold (rekey_for_pods cids pods).
  apply elem_of_app in Hin as [Hin|Hin%list_elem_of_singleton].
  - destruct (cids !! cid_key (pod_ns q) (labels_of q)); [|by apply IH]. apply lookup_insert_is_Some'. right. by apply IH.
  - subst q. destruct Hk as [id ->]. exists id. apply (lookup_insert_eq (M:=gmap string)).
Qed.
Lemma rekey_spec cids pods pod : plain_pods pods → pod ∈ pods →
  rekey_for_pods cids pods !! labels_key (pod_ns pod) (labels_of pod) = cids !! cid_key (pod_ns pod) (labels_of pod).
Proof.
  intros Hp Hin. destruct (rekey_for_pods cids pods !! labels_key (pod_ns pod) (labels_of pod)) as [id|] eqn:E.
  - apply rekey_from in E as (q & Hq & E & Hc).
    apply labels_key_inj in E as [En El]; [|by apply Hp..]. rewrite <- En, <- El. by symmetry.
  - destruct (cids !! cid_key (pod_ns pod) (labels_of pod)) as [id|] eqn:Ec; [|done].
    destruct (rekey_has cids pods pod) as [? Ek]; [done|by exists id|]. congruence.
Qed.

(** C40: Identity allocation separates label sets, within 32 bits. Let the
    CiliumIdentities of the cluster have distinct unreserved numbers, the
    pods ordinary labels, and let there be room for one number per pod
    above the largest. Then whichever creations the API server refuses, a
    number in the table lies in [256, 2^32), two pods it lists have the same
    number exactly when they have the same namespace and labels, and a label
    set that had an identity keeps it. When no creation is refused the table
    [separates] all pods, which is what the enforcement of policies needs
    (C37). *)
Theorem identities_separate (created : nat → bool) (items : list Cid) (pods : list Pod) :
  plain_cids items → plain_pods pods → max_cid (list_cids items) + Z.of_nat (length pods) < 2 ^ 32 →
  let alloc := ensure_identities created items pods in
  let listed p := alloc !! labels_key (pod_ns p) (labels_of p) in
  (∀ p id, p ∈ pods → listed p = Some id → FIRST_ID ≤ id < 2 ^ 32 ∧ pod_identity alloc p = id) ∧
  (∀ p q id, p ∈ pods → q ∈ pods → listed p = Some id → listed q = Some id → pod_ns p = pod_ns q ∧ labels_of p = labels_of q) ∧
  (∀ p id, p ∈ pods → list_cids items !! cid_key (pod_ns p) (labels_of p) = Some id → listed p = Some id) ∧
  ((∀ n, created n = true) → (∀ p, p ∈ pods → is_Some (listed p)) ∧ separates alloc pods).
Proof.
  intros Hc Hp Hroom alloc listed.
  destruct (ensure_pods_spec created pods 0 (list_cids items) (max_cid (list_cids items))) as ((top & Hn & Ht) & Hs & Hall);
    [by apply list_cids_numbered|done|].
  set (cids := ensure_pods _ _ _ _ _) in *. destruct Hn as (Hb & Hinj & _).
  assert (∀ p, p ∈ pods → listed p = cids !! cid_key (pod_ns p) (labels_of p)) as Hl by (intros p Hin; by apply rekey_spec).
  assert (∀ p id, p ∈ pods → listed p = Some id → FIRST_ID ≤ id < 2 ^ 32 ∧ pod_identity alloc p = id) as Hrange.
  { intros p id Hin E. split; [rewrite Hl in E by done; apply Hb in E; lia|]. unfold pod_identity, alloc_resolve. unfold listed in E. by rewrite E. }
  assert (∀ p q id, p ∈ pods → q ∈ pods → listed p = Some id → listed q = Some id →
    pod_ns p = pod_ns q ∧ labels_of p = labels_of q) as Hsame.
  { intros p q id Hin Hin' E E'. rewrite Hl in E, E' by done. apply cid_key_inj; [by apply Hp..|by apply (Hinj _ _ id)]. }
  split_and!; [done..| |].
  - intros p id Hin E. rewrite Hl by done. by eapply lookup_weaken.
  - intros Hcr. assert (∀ p, p ∈ pods → is_Some (listed p)) as Hsome by (intros p Hin; rewrite Hl by done; by apply Hall).
    split; [done|]. split.
    + intros p q Hin Hin' E. destruct (Hsome p Hin) as [id Ep], (Hsome q Hin') as [id' Eq].
      destruct (Hrange p id Hin Ep) as [_ Hid], (Hrange q id' Hin' Eq) as [_ Hid']. rewrite Hid, Hid' in E. subst id'. eauto.
    + intros p Hin. destruct (Hsome p Hin) as [id Ep]. destruct (Hrange p id Hin Ep) as [? ->]. unfold FIRST_ID in *. lia.
Qed.

(** A label of the name the namespace goes by takes its place: a pod of one
    namespace can have the identity of another's. *)
Lemma namespace_claimed :
  cid_key "tenant" {["io.kubernetes.pod.namespace" := "kube-system"]}%string = cid_key "kube-system" ∅.
Proof. reflexivity. Qed.

(** ** An instance *)

Definition ex_pod (name app : string) : Pod :=
  mkPod (mkObjectMeta (Some name) None (Some "default"%string) (Some {["app"%string := app]})) None None.
Definition ex_pods : list Pod := [ex_pod "a" "web"; ex_pod "b" "db"; ex_pod "c" "web"]%string.
(** Identity 300 is [app=db]'s. *)
Definition ex_cids : list Cid := [mkCid "300" (security_labels "default" {["app" := "db"]})]%string.

Lemma ex_pods_plain : plain_pods ex_pods.
Proof.
  intros p Hp. assert (∃ name app, p = ex_pod name app ∧ lacks semi app) as (name & app & -> & Ha).
  { repeat (apply elem_of_cons in Hp as [-> |Hp]; [eexists _, _; split; [reflexivity|]; repeat split; discriminate|]).
    by apply not_elem_of_nil in Hp. }
  split_and!; [repeat split; discriminate|reflexivity|].
  intros k v Hk. change (({["app"%string := app]} : Labels) !! k = Some v) in Hk. apply lookup_singleton_Some in Hk as [<- <-].
  split_and!; [repeat split; discriminate..|done].
Qed.
(** The pods of [web] get 301; [db] keeps 300. *)
Lemma identities_separate_witness :
  let alloc := ensure_identities (λ _, true) ex_cids ex_pods in
  pod_identity alloc <$> ex_pods = [301; 300; 301] ∧ separates alloc ex_pods.
Proof.
  split; [vm_compute; reflexivity|].
  apply (identities_separate (λ _, true) ex_cids ex_pods); [|apply ex_pods_plain| |done].
  - split; vm_compute; [repeat constructor; set_solver|repeat constructor; discriminate].
  - vm_compute. reflexivity.
Defined.
