(* ===== verification/Gen.v ===== *)
(** * Synthetic route tables ([crates/cradle/src/util.rs])

    The generator behind [ctl gen-routes] and the benchmarks: [count]
    distinct prefixes drawn from a SplitMix64 stream.  It draws until it has
    enough, so whether it returns depends on what the stream can draw. *)

From S2P Require Import Prelude.
From S2P Require Import Dir24.
From S2P Require Import Dir24Lpm.

(** The next state and the number drawn. *)
Definition splitmix64 (state : Z) : Z * Z :=
  let state := wrap 64 (state + 0x9e3779b97f4a7c15) in
  let z := wrap 64 ((state .^ (state ≫ 30)) * 0xbf58476d1ce4e5b9) in
  let z := wrap 64 ((z .^ (z ≫ 27)) * 0x94d049bb133111eb) in
  (state, z .^ (z ≫ 31)).

(** Lengths with their cumulative weights. *)
Definition LENS : list (Z * Z) :=
  [(24, 620); (23, 740); (22, 860); (21, 920); (20, 960); (19, 985); (18, 995); (17, 998); (16, 1000)].

(** A dice is below 1000, so some entry is found. *)
Definition dice_len (dice : Z) : Z :=
  default 0 (first_some (λ '(len, cum), if dice <? cum then Some len else None) LENS).

(** The prefix a number stands for. *)
Definition drawn (r : Z) : Z * Z :=
  let len := dice_len (r mod 1000) in
  let mask := wrap 32 ((2 ^ 32 - 1) ≪ (32 - len)) in
  ((wrap 32 (wrap 32 (20 + (r ≫ 10) mod 70) ≪ 24) .| (wrap 32 (r ≫ 17) .& 0x00ffffff)) .& mask, len).

(** [while out.len() < count]: [None] when the fuel does not suffice. *)
Fixpoint draw (fuel : nat) (count rng : Z) (seen : gset (Z * Z)) (out : list (Z * Z)) : option (list (Z * Z)) :=
  if count <=? Z.of_nat (length out) then Some out else
  match fuel with
  | O => None
  | S fuel =>
      let '(rng, r) := splitmix64 rng in
      let p := drawn r in
      if decide (p ∈ seen) then draw fuel count rng seen out else draw fuel count rng ({[p]} ∪ seen) (out ++ [p])
  end.
Definition gen_dfz_prefixes (fuel : nat) (count seed : Z) : option (list (Z * Z)) := draw fuel count seed ∅ [].

(** What the stream can draw: lengths 16 to 24 under 20.0.0.0-89.255.255.255. *)
Definition dfz (p : Z * Z) : Prop :=
  16 ≤ p.2 ≤ 24 ∧ 20 * 2 ^ 24 ≤ p.1 < 90 * 2 ^ 24 ∧ p.1 mod 2 ^ (32 - p.2) = 0.

Example gen_three : gen_dfz_prefixes 10 3 1 = Some [(569787392, 24); (835760640, 24); (762805504, 24)].
Proof. vm_compute. reflexivity. Qed.

(** ** The stream reaches every number

    A step adds an odd constant and applies a bijection of the words, so
    [2^64] steps visit every word. *)

Definition mix (z : Z) : Z :=
  let z := wrap 64 ((z .^ (z ≫ 30)) * 0xbf58476d1ce4e5b9) in
  let z := wrap 64 ((z .^ (z ≫ 27)) * 0x94d049bb133111eb) in
  z .^ (z ≫ 31).

Lemma splitmix64_mix rng :
  splitmix64 rng = (wrap 64 (rng + 0x9e3779b97f4a7c15), mix (wrap 64 (rng + 0x9e3779b97f4a7c15))).
Proof. done. Qed.

Lemma wrap_in_range w z : 0 ≤ w → in_range w (wrap w z).
Proof. intros Hw. apply Z.mod_pos_bound. lia. Qed.

Lemma lxor_in_range w a b : 0 ≤ w → in_range w a → in_range w b → in_range w (a .^ b).
Proof.
  unfold in_range. intros Hw Ha Hb.
  assert (0 ≤ a .^ b) by (apply Z.lxor_nonneg; lia). split; [done|].
  assert (a .^ b = (a .^ b) mod 2 ^ w) as ->; [|apply Z.mod_pos_bound; lia].
  apply Z.bits_inj'. intros n Hn. destruct (decide (n < w)); [by rewrite Z.mod_pow2_bits_low|].
  rewrite <- (Z.mod_small a (2 ^ w)), <- (Z.mod_small b (2 ^ w)) by done.
  by rewrite Z.lxor_spec, !Z.mod_pow2_bits_high by lia.
Qed.

Lemma shiftr_in_range w k z : 0 ≤ k → in_range w z → in_range w (z ≫ k).
Proof.
  unfold in_range. intros Hk Hz. rewrite shr_div by done.
  pose proof (Z.pow_pos_nonneg 2 k). split; [apply Z.div_pos; lia|].
  apply Z.le_lt_trans with z; [|lia]. apply Z.div_le_upper_bound; nia.
Qed.

(** [z ^= z >> k] is undone by two more shifts once [3k] covers the word. *)
Lemma xorshift_inv k y : 22 ≤ k → u64 y →
  let x := (y .^ (y ≫ k)) .^ (y ≫ (2 * k)) in u64 x ∧ x .^ (x ≫ k) = y.
Proof.
  intros Hk Hy x. split.
  { apply lxor_in_range; [lia|apply lxor_in_range|]; try apply shiftr_in_range; done || lia. }
  unfold x. rewrite !Z.shiftr_lxor, !Z.shiftr_shiftr by lia.
  replace (k + k) with (2 * k) by lia.
  assert (y ≫ (2 * k + k) = 0) as ->.
  { rewrite shr_div by lia. apply Z.div_small. unfold in_range in Hy.
    pose proof (Z.pow_le_mono_r 2 64 (2 * k + k)). lia. }
  apply Z.bits_inj'. intros n _. rewrite !Z.lxor_spec, Z.bits_0.
  by destruct (Z.testbit y n), (Z.testbit (y ≫ k) n), (Z.testbit (y ≫ (2 * k)) n).
Qed.

(** Multiplication by an odd constant is undone by its inverse. *)
Lemma mul_inv m i y : wrap 64 (m * i) = 1 → u64 y → wrap 64 (wrap 64 (y * i) * m) = y.
Proof.
  unfold wrap, in_range. intros Hmi Hy. rewrite Z.mul_mod_idemp_l by lia.
  replace (y * i * m) with (y * (m * i)) by lia.
  rewrite <- Z.mul_mod_idemp_r, Hmi, Z.mul_1_r by lia. by apply Z.mod_small.
Qed.

Lemma mix_onto r : u64 r → ∃ z, u64 z ∧ mix z = r.
Proof.
  intros Hr. destruct (xorshift_inv 31 r) as [Hc Ec]; [lia|done|].
  set (c := _ .^ _) in Hc, Ec.
  destruct (xorshift_inv 27 (wrap 64 (c * 0x319642b2d24d8ec3))) as [Hb Eb]; [lia|by apply wrap_in_range|].
  set (b := _ .^ _) in Hb, Eb.
  destruct (xorshift_inv 30 (wrap 64 (b * 0x96de1b173f119089))) as [Ha Ea]; [lia|by apply wrap_in_range|].
  set (a := _ .^ _) in Ha, Ea. exists a. split; [done|].
  unfold mix. rewrite Ea, mul_inv by done. rewrite Eb, mul_inv by done. done.
Qed.

(** The state after [j + 1] steps, for every word some [j] below [2^64]. *)
Lemma state_onto seed z : u64 z →
  ∃ j, 0 ≤ j < 2 ^ 64 ∧ wrap 64 (seed + (j + 1) * 0x9e3779b97f4a7c15) = z.
Proof.
  intros Hz. exists (wrap 64 ((z - seed) * 0xf1de83e19937733d - 1)).
  split; [by apply wrap_in_range|]. unfold wrap.
  rewrite <- Z.add_mod_idemp_r, <- Z.mul_mod_idemp_l by lia.
  rewrite Z.add_mod_idemp_l, Z.sub_add, Z.mul_mod_idemp_l, Z.add_mod_idemp_r by lia.
  rewrite <- Z.mul_assoc.
  change (0xf1de83e19937733d * 0x9e3779b97f4a7c15) with (10771413168148108919 * 2 ^ 64 + 1).
  replace (seed + (z - seed) * (10771413168148108919 * 2 ^ 64 + 1)) with (z + ((z - seed) * 10771413168148108919) * 2 ^ 64) by lia.
  rewrite Z.mod_add by lia. by apply Z.mod_small.
Qed.

(** ** What a number stands for *)

Lemma dice_len_range d : 0 ≤ d < 1000 → 16 ≤ dice_len d ≤ 24.
Proof.
  intros Hd. unfold dice_len, LENS. cbn [first_some].
  repeat match goal with |- context [d <? ?c] => destruct (Z.ltb_spec d c); cbn; [lia|] end.
  lia.
Qed.

Lemma dice_len_onto len : 16 ≤ len ≤ 24 → ∃ d, 0 ≤ d < 1000 ∧ dice_len d = len.
Proof.
  intros H. assert (len ∈ seqZ 16 9) as Hin by (apply elem_of_seqZ; lia).
  change (seqZ 16 9) with [16; 17; 18; 19; 20; 21; 22; 23; 24] in Hin.
  repeat (apply elem_of_cons in Hin as [->|Hin]);
    [exists 998|exists 995|exists 985|exists 960|exists 920|exists 860|exists 740|exists 620|exists 0|]; try done.
  by apply not_elem_of_nil in Hin.
Qed.

Lemma drawn_eq r : u64 r →
  let len := dice_len (r mod 1000) in
  let a := (20 + (r / 2 ^ 10) mod 70) * 2 ^ 24 + (r / 2 ^ 17) mod 2 ^ 24 in
  drawn r = (a / 2 ^ (32 - len) * 2 ^ (32 - len), len).
Proof.
  intros Hr len a. pose proof (dice_len_range (r mod 1000) ltac:(apply Z.mod_pos_bound; lia)) as Hl.
  unfold drawn. fold len. f_equal.
  assert (wrap 32 ((2 ^ 32 - 1) ≪ (32 - len)) = mask len) as ->.
  { unfold mask. by rewrite (proj2 (Z.eqb_neq len 0)) by (unfold len; lia). }
  rewrite !shr_div, shl_mul by lia. change 0x00ffffff with (2 ^ 24 - 1). rewrite land_ones' by lia.
  pose proof (Z.mod_pos_bound (r / 2 ^ 10) 70 ltac:(lia)).
  pose proof (Z.mod_pos_bound (r / 2 ^ 17) (2 ^ 24) ltac:(lia)).
  assert (wrap 32 (r / 2 ^ 17) mod 2 ^ 24 = (r / 2 ^ 17) mod 2 ^ 24) as ->.
  { unfold wrap. change (2 ^ 32) with (2 ^ 24 * 2 ^ 8).
    by rewrite Z.rem_mul_r, Z.mul_comm, Z.mod_add, Z.mod_mod by lia. }
  unfold wrap. rewrite (Z.mod_small (20 + _)), Z.mod_small, lor_add by lia. fold a.
  apply land_mask; [|unfold len; lia]. unfold in_range, a. lia.
Qed.

Lemma drawn_dfz r : u64 r → dfz (drawn r).
Proof.
  intros Hr. rewrite drawn_eq by done. unfold dfz; cbn [fst snd].
  pose proof (dice_len_range (r mod 1000) ltac:(apply Z.mod_pos_bound; lia)) as Hl.
  set (len := dice_len _) in *. set (a := _ + _ mod _).
  assert (20 * 2 ^ 24 ≤ a < 90 * 2 ^ 24) as Ha.
  { unfold a. pose proof (Z.mod_pos_bound (r / 2 ^ 10) 70 ltac:(lia)).
    pose proof (Z.mod_pos_bound (r / 2 ^ 17) (2 ^ 24) ltac:(lia)). lia. }
  assert (2 ^ 24 = 2 ^ (len - 8) * 2 ^ (32 - len)) as E by (rewrite <- Z.pow_add_r by lia; f_equal; lia).
  pose proof (Z.pow_pos_nonneg 2 (32 - len)).
  split; [done|]. split; [|apply Z.mod_mul; lia]. split.
  - rewrite E, Z.mul_assoc. apply Z.mul_le_mono_nonneg_r; [lia|].
    apply Z.div_le_lower_bound; [lia|]. rewrite E in Ha. lia.
  - apply Z.le_lt_trans with a; [|lia]. rewrite Z.mul_comm. apply Z.mul_div_le. lia.
Qed.

Lemma drawn_onto p : dfz p → ∃ r, u64 r ∧ drawn r = p.
Proof.
  destruct p as [a len]. unfold dfz; cbn [fst snd]. intros (Hl & Ha & Hm).
  destruct (dice_len_onto len Hl) as (d & Hd & Ed).
  set (X := a mod 2 ^ 24). assert (0 ≤ X < 2 ^ 24) as HX by (apply Z.mod_pos_bound; lia).
  set (q := (a / 2 ^ 24 - 20 - 128 * X) mod 70). assert (0 ≤ q < 70) as Hq by (apply Z.mod_pos_bound; lia).
  set (b := X * 2 ^ 17 + q * 2 ^ 10).
  set (e := (d - b) mod 1000). assert (0 ≤ e < 1000) as He by (apply Z.mod_pos_bound; lia).
  exists (b + e). assert (u64 (b + e)) as Hr by (unfold in_range, b; lia). split; [done|].
  assert ((b + e) mod 1000 = d) as E1.
  { unfold e. rewrite Z.add_mod_idemp_r by lia. replace (b + (d - b)) with d by lia. apply Z.mod_small. lia. }
  assert ((b + e) / 2 ^ 17 = X) as E2 by (unfold b in *; divlia).
  assert (((b + e) / 2 ^ 10) mod 70 = a / 2 ^ 24 - 20) as E3.
  { assert ((b + e) / 2 ^ 10 = 128 * X + q) as -> by (unfold b in *; divlia).
    unfold q. rewrite Z.add_mod_idemp_r by lia.
    replace (128 * X + (a / 2 ^ 24 - 20 - 128 * X)) with (a / 2 ^ 24 - 20) by lia. apply Z.mod_small. divlia. }
  rewrite drawn_eq, E1, E2, E3, Ed, (Z.mod_small X) by done. f_equal.
  replace ((20 + (a / 2 ^ 24 - 20)) * 2 ^ 24 + X) with a by (unfold X; divlia).
  pose proof (Z.pow_pos_nonneg 2 (32 - len)). rewrite Z.mul_comm. symmetry. apply Z.div_exact; lia.
Qed.

(** ** How many there are *)

(** The prefixes of one length, and all of them. *)
Definition dfz_block (len : Z) : list (Z * Z) :=
  (λ k, (k * 2 ^ (32 - len), len)) <$> seqZ (20 * 2 ^ (len - 8)) (70 * 2 ^ (len - 8)).
Definition all_dfz : list (Z * Z) := seqZ 16 9 ≫= dfz_block.

Lemma elem_of_dfz_block len p : 16 ≤ len ≤ 24 → p ∈ dfz_block len ↔ dfz p ∧ p.2 = len.
Proof.
  intros Hl. assert (2 ^ 24 = 2 ^ (len - 8) * 2 ^ (32 - len)) as E by (rewrite <- Z.pow_add_r by lia; f_equal; lia).
  pose proof (Z.pow_pos_nonneg 2 (32 - len)). unfold dfz_block. rewrite list_elem_of_fmap. split.
  - intros (k & -> & Hk%elem_of_seqZ). unfold dfz; cbn [fst snd]. rewrite E.
    split; [|done]. split; [done|]. split; [nia|]. apply Z.mod_mul. lia.
  - destruct p as [a l]. unfold dfz; cbn [fst snd]. intros [(_ & Ha & Hm) ->]. rewrite E in Ha.
    apply Z.div_exact in Hm; [|lia]. exists (a / 2 ^ (32 - len)).
    split; [f_equal; lia|]. apply elem_of_seqZ. nia.
Qed.

Lemma elem_of_all_dfz p : p ∈ all_dfz ↔ dfz p.
Proof.
  unfold all_dfz. rewrite list_elem_of_bind. split.
  - intros (len & Hp & Hl%elem_of_seqZ). apply elem_of_dfz_block in Hp; [tauto|lia].
  - intros Hp. pose proof (proj1 Hp). exists p.2. rewrite elem_of_seqZ, elem_of_dfz_block by lia.
    split; [done|lia].
Qed.

Lemma NoDup_all_dfz : NoDup all_dfz.
Proof.
  apply NoDup_bind; [|intros len Hl%elem_of_seqZ|apply NoDup_seqZ].
  - intros x y p Hx%elem_of_seqZ Hy%elem_of_seqZ Hpx Hpy.
    apply elem_of_dfz_block in Hpx as [_ <-]; [|lia]. by apply elem_of_dfz_block in Hpy as [_ <-]; [|lia].
  - apply NoDup_fmap_2; [|apply NoDup_seqZ]. intros k k' [= Hk].
    pose proof (Z.pow_pos_nonneg 2 (32 - len)). nia.
Qed.

Lemma length_dfz_block len : 16 ≤ len ≤ 24 → Z.of_nat (length (dfz_block len)) = 70 * 2 ^ (len - 8).
Proof.
  intros Hl. unfold dfz_block. rewrite length_fmap, length_seqZ.
  pose proof (Z.pow_pos_nonneg 2 (len - 8)). lia.
Qed.

Lemma length_all_dfz : Z.of_nat (length all_dfz) = 9157120.
Proof.
  unfold all_dfz. change (seqZ 16 9) with [16; 17; 18; 19; 20; 21; 22; 23; 24].
  rewrite !bind_cons, !length_app, !Nat2Z.inj_add, !length_dfz_block by lia. done.
Qed.

(** Distinct drawable prefixes are at most that many; more cannot be drawn,
    and a list with all of them has that many. *)
Lemma dfz_bound out : NoDup out → (∀ p, p ∈ out → dfz p) → Z.of_nat (length out) ≤ 9157120.
Proof.
  intros Hnd Hd. rewrite <- length_all_dfz. apply Nat2Z.inj_le, submseteq_length.
  apply NoDup_submseteq; [done|]. intros p Hp. by apply elem_of_all_dfz, Hd.
Qed.

Lemma dfz_covered out : (∀ p, dfz p → p ∈ out) → 9157120 ≤ Z.of_nat (length out).
Proof.
  intros Hc. rewrite <- length_all_dfz. apply Nat2Z.inj_le, submseteq_length.
  apply NoDup_submseteq; [apply NoDup_all_dfz|]. intros p Hp. by apply Hc, elem_of_all_dfz.
Qed.

(** ** The loop *)

(** [o] holds [out] and everything drawn in [n] steps from the state [rng]. *)
Definition shown (n : nat) (rng : Z) (out o : list (Z * Z)) : Prop :=
  (∀ p, p ∈ out → p ∈ o) ∧
  ∀ j, 0 ≤ j < Z.of_nat n → drawn (mix (wrap 64 (rng + (j + 1) * 0x9e3779b97f4a7c15))) ∈ o.

Lemma shown_step n rng out out' o :
  let rng' := wrap 64 (rng + 0x9e3779b97f4a7c15) in
  (∀ p, p ∈ out → p ∈ out') → drawn (mix rng') ∈ out' → shown n rng' out' o → shown (S n) rng out o.
Proof.
  intros rng' Hsub Hin [Ho Hj]. split; [auto|]. intros j Hjr. destruct (decide (j = 0)) as [->|].
  - rewrite Z.add_0_l, Z.mul_1_l. by apply Ho.
  - specialize (Hj (j - 1) ltac:(lia)). revert Hj. unfold rng', wrap. rewrite Z.add_mod_idemp_l by lia.
    by replace (rng + 0x9e3779b97f4a7c15 + (j - 1 + 1) * 0x9e3779b97f4a7c15)
      with (rng + (j + 1) * 0x9e3779b97f4a7c15) by lia.
Qed.

(** What is in the list is distinct and drawable; a run that needs more fuel
    holds everything the stream has shown. *)
Lemma draw_spec fuel count rng seen out :
  NoDup out → (∀ p, p ∈ out → dfz p) → (∀ p, p ∈ seen ↔ p ∈ out) → Z.of_nat (length out) ≤ count →
  match draw fuel count rng seen out with
  | Some o => Z.of_nat (length o) = count ∧ NoDup o ∧ ∀ p, p ∈ o → dfz p
  | None => ∃ o, Z.of_nat (length o) < count ∧ shown fuel rng out o
  end.
Proof.
  revert rng seen out. induction fuel as [|fuel IH]; intros rng seen out Hnd Hd Hs Hle; cbn [draw];
    (destruct (Z.leb_spec count (Z.of_nat (length out))); [split; [lia|done]|]).
  { exists out. split; [lia|]. split; [done|]. lia. }
  rewrite splitmix64_mix. set (p := drawn _).
  assert (dfz p) as Hp.
  { apply drawn_dfz. unfold mix. apply lxor_in_range; [lia| |apply shiftr_in_range; [lia|]]; by apply wrap_in_range. }
  case_decide as Hseen.
  - specialize (IH (wrap 64 (rng + 0x9e3779b97f4a7c15)) seen out Hnd Hd Hs Hle).
    destruct (draw _ _ _ _ _); [done|]. destruct IH as (o & ? & Ho). exists o. split; [done|].
    eapply shown_step, Ho; [done|by apply Hs].
  - assert (NoDup (out ++ [p])) as Hnd'.
    { apply NoDup_app. split; [done|]. split; [set_solver|apply NoDup_singleton]. }
    specialize (IH (wrap 64 (rng + 0x9e3779b97f4a7c15)) ({[p]} ∪ seen) (out ++ [p]) Hnd'
      ltac:(set_solver) ltac:(set_solver) ltac:(rewrite length_app; cbn; lia)).
    destruct (draw _ _ _ _ _); [done|]. destruct IH as (o & ? & Ho). exists o. split; [done|].
    eapply shown_step, Ho; set_solver.
Qed.

(** [2^64] draws show every drawable prefix. *)
Lemma stream_complete seed (o : list (Z * Z)) p : dfz p →
  (∀ j, 0 ≤ j < 2 ^ 64 → drawn (mix (wrap 64 (seed + (j + 1) * 0x9e3779b97f4a7c15))) ∈ o) → p ∈ o.
Proof.
  intros Hd Hall. destruct (drawn_onto p Hd) as (r & Hr & <-). destruct (mix_onto r Hr) as (z & Hz & <-).
  destruct (state_onto seed z Hz) as (j & Hj & <-). by apply Hall.
Qed.

(** C17: the synthetic table is generated for every seed and every size up to
    9,157,120: the loop ends (within [2^64] draws, after which the stream has
    shown all it can), with exactly [count] distinct prefixes of lengths 16
    to 24 inside 20.0.0.0-89.255.255.255, their host bits clear.  That bound
    is the number of such prefixes, so for a larger [count] no number of
    draws is enough and the loop never ends. *)
Theorem gen_dfz_terminates count seed : 0 ≤ count →
  (count ≤ 9157120 → ∃ out, gen_dfz_prefixes (Z.to_nat (2 ^ 64)) count seed = Some out ∧
     Z.of_nat (length out) = count ∧ NoDup out ∧ ∀ p, p ∈ out → dfz p) ∧
  (9157120 < count → ∀ fuel, gen_dfz_prefixes fuel count seed = None).
Proof.
  intros Hc. unfold gen_dfz_prefixes.
  pose proof (λ fuel, draw_spec fuel count seed ∅ [] (NoDup_nil_2) ltac:(set_solver) ltac:(set_solver) Hc) as Hs.
  split.
  - intros Hle. specialize (Hs (Z.to_nat (2 ^ 64))).
    destruct (draw _ _ _ _ _) as [out|]; [by exists out|]. exfalso. destruct Hs as (o & Hlt & _ & Hall). rewrite Z2Nat.id in Hall by lia.
    enough (9157120 ≤ Z.of_nat (length o)) by lia. apply dfz_covered. intros p Hp.
    by apply (stream_complete seed).
  - intros Hgt fuel. specialize (Hs fuel). destruct (draw _ _ _ _ _) as [out|]; [|done].
    destruct Hs as (Hlen & Hnd & Hd). pose proof (dfz_bound out Hnd Hd). lia.
Qed.

Lemma gen_dfz_terminates_witness :
  (∃ out, gen_dfz_prefixes (Z.to_nat (2 ^ 64)) 900000 7 = Some out ∧
     Z.of_nat (length out) = 900000 ∧ NoDup out ∧ ∀ p, p ∈ out → dfz p) ∧
  gen_dfz_prefixes (Z.to_nat (2 ^ 64)) 10000000 7 = None.
Proof.
  split.
  - apply (gen_dfz_terminates 900000 7); [lia|lia].
  - apply (gen_dfz_terminates 10000000 7); lia.
Defined.
