(* ===== verification/Cli.v ===== *)
(** * The [cradle] command ([main.rs], [ctl.rs], [grpc.rs], [kernel.rs], [bench.rs])

    What the binary does around the library: where the control API is
    reached, how the daemon starts, the client's operations with what they
    print, the [ip] commands of the daemon, and the benchmark's probes.  Reading the command line
    (clap), loading the programs (aya) and the sockets are not modelled. *)

From S2P Require Import Prelude.
From S2P Require Import Contract.
From S2P Require Import Common.
From S2P Require Import Bpf.
From S2P Require Import Frames.
From S2P Require Import Maps.
From S2P Require Import MapRefs.
From S2P Require Import Dataplane.
From S2P Require Import Cni.
From S2P Require Import Text.
From S2P Require Import L7.
From S2P Require Import Control.
From S2P Require Import Overlay.
From S2P Require Import Pods.
From S2P Require Import IpText.
From S2P Require Import Pb.
From S2P Require Import Grpc.
From S2P Require Import Config.
From S2P Require Import Ctl.
From S2P Require Import Gen.
From S2P Require Import Echo.
From S2P Require Import EchoFrame.

(** ** Endpoints *)

Inductive GrpcEndpoint : Type := Tcp (a : SocketAddr) | Uds (path : string) | AbstractUds (name : string).

Module GrpcEndpoint.
Definition parse (s : string) : option GrpcEndpoint :=
  match strip_prefix "unix:" s with
  | Some rest =>
      if starts_with "/" rest then Some (Uds rest) else
      let name := trim_start_matches (String.length rest) "@" rest in
      if is_set name then Some (AbstractUds name) else None
  | None => Tcp <$> parse_socket (default s (strip_prefix "tcp:" s))
  end.
Definition show_socket (a : SocketAddr) : string :=
  match a.1 with
  | V4 b => show_ipv4 b +:+ ":" +:+ show_number 5 10 a.2
  | V6 b => "[" +:+ show_ipv6 b +:+ "]:" +:+ show_number 5 10 a.2
  end.
Definition uri (e : GrpcEndpoint) : string :=
  match e with
  | Tcp a => "http://" +:+ show_socket a
  | Uds p => "unix:" +:+ p
  | AbstractUds name => "unix:" +:+ name
  end.
End GrpcEndpoint.

(** ** Columns *)

Fixpoint spaces (n : nat) : string := match n with O => "" | S n => String (Ascii.ascii_of_nat 32) (spaces n) end.
(** [{:<w}] and [{:>w}] *)
Definition left_in (w : nat) (s : string) : string := s +:+ spaces (w - String.length s).
Definition right_in (w : nat) (s : string) : string := spaces (w - String.length s) +:+ s.
(** A 64-bit number has at most 20 digits. *)
Definition dec (n : Z) : string := show_number 20 10 n.
(** [{:?}] of a list of numbers *)
Definition debug_list (l : list Z) : string := "[" +:+ String.concat ", " (dec <$> l) +:+ "]".
Definition words (l : list string) : string := String.concat " " l.
(** A name and a value. *)
Definition named (name v : string) : string := words [left_in 14 name; v].

(** The names of the flags that are set. *)
Definition flag_list (none : string) (names : list (Z * string)) (fl : Z) : string :=
  match omap (λ '(f, n), if has fl f then Some n else None) names with
  | [] => none
  | v => String.concat "," v
  end.
Definition fdb_flags : Z → string := flag_list "learned"
  [(FDB_F_LOCAL, "local"); (FDB_F_REMOTE, "remote"); (FDB_F_VXLAN, "vxlan"); (FDB_F_MPLS, "mpls");
   (FDB_F_ESNHG, "es"); (FDB_F_STATIC, "static"); (FDB_F_ETREE_LEAF, "etree-leaf")]%string.
Definition fib_flags : Z → string := flag_list "-"
  [(FIB_F_BLACKHOLE, "blackhole"); (FIB_F_LOCAL, "local"); (FIB_F_CONNECTED, "connected"); (FIB_F_ECMP, "ecmp")]%string.
Definition nh_flag_names : Z → string := flag_list "-"
  [(NH_F_V6, "v6"); (NH_F_ONLINK, "onlink"); (NH_F_MPLS, "mpls"); (NH_F_SRV6, "srv6"); (NH_F_GTP, "gtp");
   (NH_F_VXLAN, "vxlan")]%string.

Definition nh_str (nh : option pb_NexthopInfo) : string :=
  match nh with
  | None => ""
  | Some n =>
      (if is_set (NexthopInfo_gateway n) then "via " +:+ NexthopInfo_gateway n +:+ " " else "") +:+
      "dev if" +:+ dec (NexthopInfo_oif n) +:+
      (if bool_decide (NexthopInfo_labels n = []) then "" else " labels " +:+ debug_list (NexthopInfo_labels n))
  end.

(** ** [cradle dump] *)

Definition header_line (e : pb_DumpEntry) : option string :=
  match e with
  | EntryFdb _ => Some (words [left_in 18 "mac"; right_in 5 "vlan"; right_in 8 "oif"; left_in 8 "flags"; right_in 9 "age_ms"; "remote_sid"])
  | EntryFib _ => Some (words [left_in 20 "prefix"; right_in 4 "vrf"; right_in 7 "nh_id"; left_in 10 "flags"; "nexthop"])
  | EntryMpls _ => Some (words [right_in 8 "label"; left_in 7 "op"; right_in 7 "nh_id"; right_in 4 "vrf"; "nexthop"])
  | EntryNexthop _ => Some (words [right_in 7 "nh_id"; left_in 26 "gateway"; right_in 5 "oif"; left_in 14 "flags"; right_in 7 "backup"; "labels"])
  | _ => None
  end%string.
Definition entry_line (e : pb_DumpEntry) : string :=
  match e with
  | EntryFdb f =>
      words [left_in 18 (FdbDumpEntry_mac f); right_in 5 (dec (FdbDumpEntry_vlan f)); right_in 8 (dec (FdbDumpEntry_oif f));
             left_in 8 (fdb_flags (FdbDumpEntry_flags f)); right_in 9 (dec (FdbDumpEntry_age_ms f)); FdbDumpEntry_remote_sid f]
  | EntryFib r =>
      words [left_in 20 (FibDumpEntry_prefix r); right_in 4 (dec (FibDumpEntry_vrf r)); right_in 7 (dec (FibDumpEntry_nexthop_id r));
             left_in 10 (fib_flags (FibDumpEntry_flags r)); nh_str (FibDumpEntry_nh r)]
  | EntryMpls m =>
      words [right_in 8 (dec (MplsDumpEntry_label m)); left_in 7 (MplsDumpEntry_op m); right_in 7 (dec (MplsDumpEntry_nexthop_id m));
             right_in 4 (dec (MplsDumpEntry_vrf m)); nh_str (MplsDumpEntry_nh m)]
  | EntrySrv6Localsid s =>
      words ["localsid"; Srv6LocalSidEntry_sid s +:+ "/" +:+ left_in 3 (dec (Srv6LocalSidEntry_prefix_len s));
             left_in 14 (Srv6LocalSidEntry_behavior s); "flavors=" +:+ dec (Srv6LocalSidEntry_flavors s);
             "vrf=" +:+ dec (Srv6LocalSidEntry_vrf s); "nh_id=" +:+ dec (Srv6LocalSidEntry_nexthop_id s);
             nh_str (Srv6LocalSidEntry_nh s)]
  | EntrySrv6Encap en =>
      words ["encap   "; "nh_id=" +:+ dec (Srv6EncapEntry_nexthop_id en); "mode=" +:+ Srv6EncapEntry_mode en;
             "segs=[" +:+ String.concat ", " (Srv6EncapEntry_segs en) +:+ "]"]
  | EntryNexthop n =>
      if negb (bool_decide (NexthopDumpEntry_group n = [])) then
        words [right_in 7 (dec (NexthopDumpEntry_id n)); "group members"; debug_list (NexthopDumpEntry_group n)]
      else
        words [right_in 7 (dec (NexthopDumpEntry_id n));
               left_in 26 (if is_set (NexthopDumpEntry_gateway n) then NexthopDumpEntry_gateway n else "-");
               right_in 5 (dec (NexthopDumpEntry_oif n)); left_in 14 (nh_flag_names (NexthopDumpEntry_flags n));
               right_in 7 (dec (NexthopDumpEntry_backup_id n));
               if bool_decide (NexthopDumpEntry_labels n = []) then "" else debug_list (NexthopDumpEntry_labels n)]
  end%string.

(** The header goes before the first row that has one. *)
Fixpoint dump_rows (header : bool) (entries : list pb_DumpEntry) : list string :=
  match entries with
  | [] => []
  | e :: entries =>
      let h := header_line e in
      (if header then [] else option_list h) ++ entry_line e :: dump_rows (header || bool_decide (is_Some h)) entries
  end.
Definition dump_output (entries : list pb_DumpEntry) : list string :=
  dump_rows false entries ++ (if bool_decide (entries = []) then ["(empty)"%string] else []).

(** The table's number in the API. *)
Definition dump_table_pb (t : DumpTable) : Z :=
  match t with DumpL2 => 0 | DumpIpv4 => 1 | DumpIpv6 => 2 | DumpMpls => 3 | DumpSrv6 => 4 | DumpNexthop => 5 end.
Definition run_dump (now_ns : Z) (d : Dp) (table : DumpTable) (vrf : Z) (resolve : bool) : list string :=
  dump_output (rpc_dump now_ns d (mk_pb_DumpRequest (dump_table_pb table) vrf resolve)).

(** ** [cradle ctl] *)

Inductive CtlOp : Type :=
| Apply (config : string)
| PolicyTrace (src dst : string) (port : Z) (proto : string) (vrf : Z)
| PolicySummary
| Fib
| DelRoute (prefix : string)
| DelPort (name : string)
| FlushFdb (port : string) (vlan : Z)
| DelService (vip : string) (port : Z) (proto : string)
| GenRoutes (count seed nexthop_id : Z) (chunk : nat)
| GenRoutesKernel (count seed : Z) (via : bytes) (dev : string).

(** A batch size of zero is a panic; a table the generator cannot fill is a
    run without end. *)
Inductive CtlFail : Type := BadTarget | Unreadable | Replayed (e : ReplayErr) | Panicked | Endless.

(** [slice.chunks(n)], for [0 < n]. *)
Fixpoint chunks {A} (fuel n : nat) (l : list A) : list (list A) :=
  match fuel, l with
  | S fuel, _ :: _ => take n l :: chunks fuel n (drop n l)
  | _, _ => []
  end.

Definition prefix_text (p : Z * Z) : string := show_ipv4 (to_be 4 p.1) +:+ "/" +:+ show_number 3 10 p.2.
Definition batch_msg (nexthop_id : Z) (slice : list (Z * Z)) : pb_Route4Batch :=
  mk_pb_Route4Batch ((λ p, mk_pb_Route4 (prefix_text p) nexthop_id 0 0) <$> slice).

(** [(identities, identities6, cidrs, cidrs6, endpoints, rules, pct, pct6)];
    the connection tables are the data plane's. *)
Definition policy_counts (pct pct6 : nat) (d : Dp) : list Z :=
  Z.of_nat <$> [size (view m_IDENTITY d); size (view m_IDENTITY6 d); size (view m_CIDR_ID d); size (view m_CIDR_ID6 d);
                size (view m_EP_POLICY d); size (view m_POLICY d); pct; pct6].

(** [ip -batch] lines of the same table. *)
Definition kernel_line (via : bytes) (dev : string) (p : Z * Z) : string :=
  words ["route"; "add"; show_ipv4 (to_be 4 p.1) +:+ "/" +:+ dec p.2; "via"; show_ipv4 via; "dev"; dev]%string.
Definition gen_routes_kernel (fuel : nat) (count seed : Z) (via : bytes) (dev : string) : option (list string) :=
  option_map (map (kernel_line via dev)) (gen_dfz_prefixes fuel count seed).

Section ctl.
Context `{HostOps} `{Regex} `{MapSys} `{Kernel}.

(** [serde]'s reading of a file, the order a table of ports is walked in, the
    sizes of the connection tables, the generator's fuel. *)
Variables (load : string → option Config) (order : list (Z * PortAttachment)) (pct pct6 fuel : nat).

Abbreviation Cli := (M Control CtlFail).
Definition through {A} (m : M Control ReplayErr A) : Cli A := λ c,
  let '(c, r) := m c in (c, match r with Ok a => Ok a | Err e => Err (Replayed e) end).

Definition gen_routes (count seed nexthop_id : Z) (chunk : nat) : Cli (list string) :=
  prefixes ← of_option Endless (gen_dfz_prefixes fuel count seed);
  if (chunk =? 0)%nat then bail Panicked else
  _ ← through (every (λ slice, send (rpc_add_route4_batch (batch_msg nexthop_id slice)))
                 (chunks (length prefixes) chunk prefixes));
  mret ["installed " +:+ dec (Z.of_nat (length prefixes)) +:+ " routes"].

(** What each operation prints, the time it took and the trace's own lines
    left out. *)
Definition ctl_run (endpoint : GrpcEndpoint) (op : CtlOp) : Cli (list string) :=
  match op with
  | Apply config =>
      cfg ← of_option Unreadable (load config);
      _ ← through (ctl_apply cfg);
      mret ["applied " +:+ config +:+ " to " +:+ GrpcEndpoint.uri endpoint +:+ " via gRPC"]
  | PolicyTrace src dst port proto vrf =>
      verdict ← through (send (rpc_policy_trace (mk_pb_PolicyTraceRequest src dst port proto vrf)));
      mret ["verdict: " +:+ verdict]
  | PolicySummary =>
      c ← get;
      mret (zip_with named ["identities"; "identities6"; "cidrs"; "cidrs6"; "endpoints"; "rules"; "pct"; "pct6"]
              (dec <$> policy_counts pct pct6 (now (c_run c))))
  | Fib =>
      s ← through (send rpc_get_fib_summary);
      mret [named "fib4_mode" (FibSummary_fib4_mode s); named "routes4" (dec (FibSummary_routes4 s));
            named "tbl8_used" (dec (FibSummary_tbl8_used s)); named "tbl8_free" (dec (FibSummary_tbl8_free s))]
  | DelRoute prefix =>
      _ ← through (send (rpc_del_route4 (mk_pb_Route4Del prefix 0))); mret ["deleted " +:+ prefix]
  | DelPort name =>
      _ ← through (send (rpc_del_port order (mk_pb_PortDel name))); mret ["deleted port " +:+ name]
  | FlushFdb port vlan =>
      _ ← through (send (rpc_flush_fdb order (mk_pb_FdbFlush port vlan)));
      mret ["flushed learned fdb (port " +:+ (if is_set port then port else "any") +:+ ", vlan " +:+
            (if (vlan =? 0)%Z then "any" else dec vlan) +:+ ")"]
  | DelService vip port proto =>
      _ ← through (send (rpc_del_service (mk_pb_ServiceDel vip port proto)));
      mret ["deleted service " +:+ vip +:+ ":" +:+ dec port]
  | GenRoutes count seed nexthop_id chunk => gen_routes count seed nexthop_id chunk
  | GenRoutesKernel _ _ _ _ => bail Panicked    (* handled by [ctl_main] *)
  end%string.

(** The kernel's copy of a table needs no daemon. *)
Definition ctl_main (grpc : string) (op : CtlOp) : Cli (list string) :=
  match op with
  | GenRoutesKernel count seed via dev => of_option Endless (gen_routes_kernel fuel count seed via dev)
  | op => endpoint ← of_option BadTarget (GrpcEndpoint.parse grpc); ctl_run endpoint op
  end.

Definition run_stats : Cli (list string) :=
  entries ← through (send rpc_get_stats);
  mret ((λ e, named (StatEntry_name e) (dec (StatEntry_packets e))) <$> entries).
End ctl.

(** ** [cradle serve] *)

Inductive Fib4Mode : Type := Lpm | Dir24.
Inductive EbpfMode : Type := TcOnly | XdpOnly.

(** The flag wins; then the configuration; a single-hook run defaults to
    DIR-24-8. *)
Definition choose_fib4_mode (flag : option Fib4Mode) (configured : option string) (ebpf_mode : option EbpfMode) : option Fib4Mode :=
  match flag, configured with
  | Some m, _ => Some m
  | None, Some s =>
      if bool_decide (s = "dir24"%string) then Some Dir24 else if bool_decide (s = "lpm"%string) then Some Lpm else None
  | None, None => Some (if bool_decide (is_Some ebpf_mode) then Dir24 else Lpm)
  end.

(** [map_max_entries]: the capacities of TBL24 and TBL8 when they are not the
    declared ones. *)
Definition fib_table_sizes (m : Fib4Mode) : option (Z * Z) :=
  match m with Dir24 => Some (1 ≪ 24, DIR24_TBL8_GROUPS * 256) | Lpm => None end.

(** The programs attached to a port, [attach]. *)
Definition want_tc (m : option EbpfMode) : bool := match m with None | Some TcOnly => true | Some XdpOnly => false end.
Definition want_egress (m : option EbpfMode) : bool := bool_decide (m = None).
Definition want_xdp (m : option EbpfMode) : bool := match m with None | Some XdpOnly => true | Some TcOnly => false end.
Definition xdp_prog (m : option EbpfMode) : string := match m with Some XdpOnly => "cradle_xdp_l3" | _ => "cradle_xdp" end.

#[global] Instance Fib4Mode_eq_dec : EqDecision Fib4Mode.
Proof. solve_decision. Defined.
#[global] Instance EbpfMode_eq_dec : EqDecision EbpfMode.
Proof. solve_decision. Defined.

(** The first name that is set: [$NODE_NAME], [$HOSTNAME], the kernel's. *)
Definition default_node_name (env : string → option string) (hostname : option string) : string :=
  let from_env k := s ← env k; if is_set s then Some s else None in
  match from_env "NODE_NAME", from_env "HOSTNAME" with
  | Some s, _ | None, Some s => s
  | None, None =>
      match hostname with Some s => if is_set (trim s) then trim s else "cradle" | None => "cradle" end
  end%string.

Record ServeArgs := mkServeArgs {
  sa_config : option string; sa_grpc : string; sa_pid_file : option string; sa_state_dir : string;
  sa_cilium_sock : option string; sa_pod_cidr : option string; sa_hubble_sock : option string;
  sa_hubble_listen : option SocketAddr; sa_node_name : option string; sa_fib4_mode : option Fib4Mode;
  sa_ebpf_mode : option EbpfMode;
}.

Inductive ServeErr : Type :=
| NoConfig | BadFib4Mode | Start (e : DpErr) | BadBoot (e : ConfigErr) | NoPodCidr | BadEndpoint.

(** How often the aging sweep runs, in seconds; [None]: never. *)
Definition aging_interval (age_secs : Z) : option Z :=
  if age_secs =? 0 then None else Some (Z.min 5 (Z.max 1 (age_secs / 3))).
(** One sweep: what it cannot remove is logged. *)
Definition aging_round `{MapSys} (age_secs now_ns : Z) : M Run DpErr (option nat) :=
  catch (fdb_age_sweep now_ns (age_secs * 1000000000)).

Section serve.
Context `{HostOps} `{Regex} `{MapSys}.
Variables (load : string → option Config) (members : Dp → list (L2MemberKey * Z)).
Variables (env : string → option string) (hostname : option string).

(** [Control::new]: the tables of a control plane that has just started. *)
Definition new_control (h : Host) (run : Run) (store : Store) : Control :=
  mkControl h run ∅ (mkRouteTable ∅ ∅) ∅ ∅ 0 ∅ (mkEsTable ∅ 0 ∅) (mkEtreeTable ∅ ∅) 0 0 ∅ store ∅ ∅ ∅ [].

(** The maps between loading and [Control::new]. *)
Definition start_dp (mode : Fib4Mode) (ebpf_mode : option EbpfMode) (random : Z) : M Run DpErr unit :=
  _ ← meta_cookie_seed random;
  _ ← match mode with Dir24 => set_fib4_mode_dir24 | Lpm => mret tt end;
  if bool_decide (ebpf_mode = Some TcOnly) then add_dp_config DPC_L3_ONLY else mret tt.

(** What a daemon that has started goes on to serve. *)
Record Served := mkServed {
  sv_endpoint : GrpcEndpoint; sv_fdb_age : Z;
  sv_cilium : option (string * string);                       (* socket, pod CIDR *)
  sv_hubble : option (string * option SocketAddr * string);   (* socket, listen address, node name *)
}.

(** The bootstrap, the persisted pods, the side APIs, and the endpoint to
    serve on. *)
Definition boot (args : ServeArgs) (cfg : option Config) : M Control ServeErr Served :=
  _ ← match cfg with
      | Some cfg => λ c, let '(c, r) := apply_control members cfg c in
                         (c, match r with Ok a => Ok a | Err e => Err (BadBoot e) end)
      | None => mret tt
      end;
  _ ← (λ c, ((cni_reconcile c).1, Ok tt));
  cilium ← match sa_cilium_sock args with
           | None => mret None
           | Some sock => cidr ← of_option NoPodCidr (sa_pod_cidr args); mret (Some (sock, cidr))
           end;
  let hubble := sock ← sa_hubble_sock args;
                Some (sock, sa_hubble_listen args, default (default_node_name env hostname) (sa_node_name args)) in
  let age := default 300 (c ← cfg; Config_fdb_age_secs c) in
  endpoint ← of_option BadEndpoint (GrpcEndpoint.parse (sa_grpc args));
  mret (mkServed endpoint age cilium hubble).

(** The control plane that serves, over the maps as loaded. *)
Definition serve (args : ServeArgs) (h : Host) (maps : Fib4Mode → Dp) (store : Store) (random : Z)
    : res ServeErr (Control * Served) :=
  match (match sa_config args with Some path => Some <$> load path | None => Some None end) with
  | None => Err NoConfig
  | Some cfg =>
      match choose_fib4_mode (sa_fib4_mode args) (c ← cfg; Config_fib4_mode c) (sa_ebpf_mode args) with
      | None => Err BadFib4Mode
      | Some mode =>
          match start_dp mode (sa_ebpf_mode args) random (mkRun (maps mode) []) with
          | (_, Err e) => Err (Start e)
          | (run, Ok _) =>
              match boot args cfg (new_control h run store) with
              | (c, Ok r) => Ok (c, r)
              | (_, Err e) => Err e
              end
          end
      end
  end.
End serve.

(** ** The host's commands ([kernel.rs]) *)

Definition L7_PROXY_TABLE : Z := 2047.
Definition L7_PROXY_RULE_PREF : Z := 100.

(** How a run of [ip] ends: not started, failed with its stderr, done. *)
Inductive IpOut : Type := NotStarted | Failure (stderr : string) | Done.

Section host.
Context {H : Type}.
Variable ip : list string → H → H * IpOut.

Definition run_ip (args : list string) (h : H) : H * bool :=
  let '(h, o) := ip args h in (h, match o with Done => true | _ => false end).
(** [f()?; g()] *)
Definition and_then (f g : H → H * bool) (h : H) : H * bool :=
  let '(h, ok) := f h in if ok then g h else (h, false).

Definition ensure_l7_proxy_routing (h : H) : H * bool :=
  let table := dec L7_PROXY_TABLE in
  let pref := dec L7_PROXY_RULE_PREF in
  let mark := "0x" +:+ show_number 8 16 L7_PROXY_MARK in
  and_then (run_ip ["-4"; "route"; "replace"; "local"; "0.0.0.0/0"; "dev"; "lo"; "table"; table])
    (λ h, run_ip ["-4"; "rule"; "add"; "pref"; pref; "fwmark"; mark; "lookup"; table]
            (ip ["-4"; "rule"; "del"; "pref"; pref] h).1) h.

Definition add_local_route_v4 (vip : bytes) : H → H * bool :=
  run_ip ["route"; "replace"; "local"; show_ipv4 vip +:+ "/32"; "dev"; "lo"].
Definition replace_dev_route_v4 (a : bytes) (dev : string) : H → H * bool :=
  run_ip ["route"; "replace"; show_ipv4 a +:+ "/32"; "dev"; dev].
Definition del_dev_route_v4 (a : bytes) (dev : string) (h : H) : H :=
  (ip ["route"; "del"; show_ipv4 a +:+ "/32"; "dev"; dev] h).1.
Definition replace_dev_route_v6 (a : bytes) (dev : string) : H → H * bool :=
  run_ip ["-6"; "route"; "replace"; show_ipv6 a +:+ "/128"; "dev"; dev].
Definition del_dev_route_v6 (a : bytes) (dev : string) (h : H) : H :=
  (ip ["-6"; "route"; "del"; show_ipv6 a +:+ "/128"; "dev"; dev] h).1.

(** A pair that exists already is reused. *)
Definition ip_add_veth_pair (a b : string) (h : H) : H * bool :=
  let '(h, o) := ip ["link"; "add"; a; "type"; "veth"; "peer"; "name"; b] h in
  let created := match o with Done => true | Failure err => contains "File exists" err | NotStarted => false end in
  if created then and_then (run_ip ["link"; "set"; a; "up"]) (run_ip ["link"; "set"; b; "up"]) h else (h, false).
Definition ip_del_link (name : string) : H → H * bool := run_ip ["link"; "del"; name].

(** The operations of [HostOps] that are [ip] commands. *)
Definition ip_replace_route (r : HostRoute) : H → H * bool :=
  match r with
  | DevRoute (V4 a) dev => replace_dev_route_v4 a dev
  | DevRoute (V6 a) dev => replace_dev_route_v6 a dev
  | LocalRoute (V4 a) => add_local_route_v4 a
  | LocalRoute (V6 _) => λ h, (h, false)                 (* no such call *)
  end.
Definition ip_del_route (r : HostRoute) (h : H) : H :=
  match r with
  | DevRoute (V4 a) dev => del_dev_route_v4 a dev h
  | DevRoute (V6 a) dev => del_dev_route_v6 a dev h
  | LocalRoute _ => h
  end.
End host.

(** ** The benchmark's packets and tables *)

(** [while sum > 0xffff]: ten words fold in at most two rounds. *)
Fixpoint fold_sum (fuel : nat) (sum : Z) : Z :=
  match fuel with
  | O => sum
  | S fuel => if sum <=? 0xffff then sum else fold_sum fuel ((sum .& 0xffff) + (sum ≫ 16))
  end.

Definition probe_header (csum : Z) (dst : bytes) : bytes :=
  [0x45; 0] ++ to_be 2 (64 - 14) ++ [0; 0; 0; 0; 64; 17] ++ to_be 2 csum ++ [192; 0; 2; 1] ++ dst.
Definition probe_csum (dst : bytes) : Z :=
  0xffff - wrap 16 (fold_sum 2 (be_words (probe_header 0 dst))).
Definition udp_packet (dst : bytes) : bytes :=
  [0x02; 0; 0; 0; 0; 0x02] ++ [0x02; 0; 0; 0; 0; 0x01] ++ to_be 2 0x0800 ++
  probe_header (probe_csum dst) dst ++
  to_be 2 1000 ++ to_be 2 2000 ++ to_be 2 (64 - 14 - 20) ++ replicate 24 0.

(** Probe addresses of a category. *)
Definition K : nat := 16.
Definition host_addrs : list bytes := (λ i, [91; 0; Z.of_nat i; 10]) <$> seq 0 K.
Definition default_addrs : list bytes := (λ i, [99; 1; Z.of_nat i; 1]) <$> seq 0 K.
Definition direct_addrs (prefixes : list (Z * Z)) : list bytes :=
  (λ '(addr, _), to_be 4 (addr .| 7)) <$> take K (filter (λ '(_, len), len = 24) prefixes).

(** The rules of [policy-bench]. *)
Definition bench_rule (i : nat) : Rule :=
  mkRule (1000 + Z.of_nat i) 6 (8000 + Z.of_nat i mod 65536 mod 1000) (Z.of_nat i mod 8 =? 0).
Definition bench_rules (rules : nat) : list Rule := bench_rule <$> seq 0 rules.

Section bench.
Context `{MapSys}.

(** What the lookup benchmark programs into fresh maps: a port, a nexthop, a
    default route, the generated table, the host routes. *)
Definition bench_load (dir24 : bool) (prefixes : list (Z * Z)) : M Run DpErr unit :=
  _ ← (if dir24 then set_fib4_mode_dir24 else mret tt);
  _ ← port_set 0 [2; 0; 0; 0; 0; 2] PORT_F_L3 0 0;
  _ ← nexthop_set 1 (Some [198; 51; 100; 1]) 1 [] 0 false;
  _ ← route4_add 0 [0; 0; 0; 0] 0 1 0;
  _ ← route4_add_bulk ((λ p, mkRoute4 0 (to_be 4 p.1) p.2 1 0) <$> prefixes);
  for_each (λ _ a, route4_add 0 a 32 1 0) 0 host_addrs.

(** One round of [policy-bench]: every endpoint's rules are replaced. *)
Definition policy_round (endpoints rules : nat) : M Run DpErr unit :=
  for_each (λ _ ep, endpoint_policy_set ep true true false (bench_rules rules) (bench_rules rules)) 0
    (seqZ 1 (Z.of_nat endpoints)).
End bench.

(** ** What it amounts to *)

(** The tests of [grpc.rs]. *)
Example parse_unix_abstract : GrpcEndpoint.parse "unix:@cradle/grpc" = Some (AbstractUds "cradle/grpc").
Proof. reflexivity. Qed.
Example parse_unix_path : GrpcEndpoint.parse "unix:/run/cradle/cradle.sock" = Some (Uds "/run/cradle/cradle.sock").
Proof. reflexivity. Qed.
Example parse_tcp :
  GrpcEndpoint.parse "tcp:127.0.0.1:50151" = Some (Tcp (V4 [127; 0; 0; 1], 50151)) ∧
  GrpcEndpoint.parse "127.0.0.1:50151" = Some (Tcp (V4 [127; 0; 0; 1], 50151)) ∧
  GrpcEndpoint.parse "unix:" = None.
Proof. by vm_compute. Qed.

(** The sigil of an abstract name is dropped, so a printed endpoint can read as
    another one. *)
Example uri_reads_otherwise :
  GrpcEndpoint.parse "unix:@/run/x" = Some (AbstractUds "/run/x") ∧
  GrpcEndpoint.parse (GrpcEndpoint.uri (AbstractUds "/run/x")) = Some (Uds "/run/x").
Proof. by vm_compute. Qed.

Example flags_shown :
  fdb_flags 0 = "learned"%string ∧ fdb_flags 34 = "remote,static"%string ∧ fib_flags 9 = "blackhole,ecmp"%string.
Proof. by vm_compute. Qed.
Example fdb_row_shown :
  dump_output [EntryFdb (mk_pb_FdbDumpEntry "02:00:00:00:00:01" 10 3 2 "2001:db8::1" 12)] =
  ["mac                 vlan      oif flags       age_ms remote_sid";
   "02:00:00:00:00:01     10        3 remote          12 2001:db8::1"]%string.
Proof. by vm_compute. Qed.

(** *** The start *)

(** The engine the daemon programs is the one its data plane looks up in. *)
Lemma start_dp_engine `{HostOps} `{Regex} `{MapSys} mode ebpf_mode random d :
  dp_dir24 d = None → has (default 0 (@DP_CONFIG (dp_l3 d))) DPC_FIB4_DIR24 = false →
  let '(run, r) := start_dp mode ebpf_mode random (mkRun d []) in
  r = Ok tt ∧ (is_Some (dp_dir24 (now run)) ↔ mode = Dir24) ∧
  has (default 0 (@DP_CONFIG (dp_l3 (now run)))) DPC_FIB4_DIR24 = bool_decide (mode = Dir24).
Proof.
  intros Hn Hf. unfold DPC_FIB4_DIR24 in *. rewrite has_pow2 in Hf by lia.
  destruct d as [? ? [] ? ? ? ? ? ? ? ? ? ? ?]. cbn in Hn. subst.
  destruct mode, ebpf_mode as [[]|]; (split; [done|]); rewrite has_pow2 by lia;
    (split; [split; [by intros [? [=]]|by intros [=] || (intros _; eexists; reflexivity)]|]); cbn -[Z.testbit Z.lor DPC_L3_ONLY] in *;
    rewrite ?Z.lor_spec, ?Hf; done.
Qed.

(** *** The generated table *)

Lemma chunks_join {A} n fuel (l : list A) : (0 < n)%nat → (length l ≤ fuel)%nat → mjoin (chunks fuel n l) = l.
Proof.
  intros Hn. revert l. induction fuel as [|fuel IH]; intros l Hl; destruct l as [|x l]; cbn in *; try done || lia.
  rewrite IH by (rewrite length_drop; cbn; lia). by apply take_drop.
Qed.
Lemma chunks_size {A} n fuel (l : list A) s : (0 < n)%nat → s ∈ chunks fuel n l → (0 < length s ≤ n)%nat.
Proof.
  intros Hn. revert l. induction fuel as [|fuel IH]; intros l Hs; [by apply not_elem_of_nil in Hs|].
  destruct l as [|x l]; [by apply not_elem_of_nil in Hs|].
  cbn -[take drop] in Hs. apply elem_of_cons in Hs as [->|Hs]; [|by eapply IH].
  rewrite length_take. cbn. lia.
Qed.

Lemma split_once_app sep s t : split_once sep s = None → split_once sep (s +:+ String sep t) = Some (s, t).
Proof.
  induction s as [|a s IH]; cbn -[Ascii.eqb].
  - intros _. change ("" +:+ ?u) with u. cbn -[Ascii.eqb]. by rewrite Ascii.eqb_refl.
  - destruct (Ascii.eqb a sep) eqn:Ea; [done|]. destruct (split_once sep s) as [[]|]; [done|]. intros.
    change (String a s +:+ ?u) with (String a (s +:+ u)). cbn -[Ascii.eqb]. by rewrite Ea, IH.
Qed.
Lemma split_once_none_app sep s t : split_once sep s = None → split_once sep t = None → split_once sep (s +:+ t) = None.
Proof.
  intros Hs Ht. induction s as [|a s IH]; [done|].
  change (String a s +:+ t) with (String a (s +:+ t)). cbn -[Ascii.eqb] in *.
  destruct (Ascii.eqb a sep); [done|]. destruct (split_once sep s) as [[]|]; [done|]. by rewrite IH.
Qed.

Lemma show_number_no_slash k n : 0 ≤ n → split_once slash (show_number k 10 n) = None.
Proof.
  revert n. induction k as [|k IH]; intros n Hn; [done|]. cbn [show_number].
  apply split_once_none_app; [destruct (n <? 10); [done|]; apply IH, Z.div_pos; lia|].
  pose proof (Z.mod_pos_bound n 10 ltac:(lia)).
  assert (n mod 10 ∈ seqZ 0 10) as Hd by (apply elem_of_seqZ; lia). clear -Hd.
  set (d := n mod 10) in *. clearbody d. change (seqZ 0 10) with [0; 1; 2; 3; 4; 5; 6; 7; 8; 9] in Hd.
  repeat (apply elem_of_cons in Hd as [->|Hd]; [done|]). by apply not_elem_of_nil in Hd.
Qed.
Lemma show_ipv4_no_slash a : Forall is_byte a → split_once slash (show_ipv4 a) = None.
Proof.
  unfold show_ipv4. intros Ha. induction Ha as [|x a Hx Ha IH]; [done|].
  assert (split_once slash (show_octet x) = None) by (apply show_number_no_slash; unfold is_byte in Hx; lia).
  destruct a as [|y a]; [done|]. change (String.concat "." (show_octet <$> x :: y :: a)) with
    (show_octet x +:+ ("." +:+ String.concat "." (show_octet <$> y :: a))).
  by apply split_once_none_app, split_once_none_app.
Qed.

(** The daemon reads back the prefix the client prints. *)
Lemma prefix_text_read p : dfz p → parse_ipv4_prefix (prefix_text p) = Some (to_be 4 p.1, p.2).
Proof.
  intros (Hl & _). unfold parse_ipv4_prefix, prefix_text.
  assert (Forall is_byte (to_be 4 p.1)) as Hb by apply to_be_bytes.
  change ("/" +:+ ?t) with (String slash t). rewrite split_once_app by by apply show_ipv4_no_slash.
  cbn -[parse_ipv4 show_ipv4 to_be from_str_radix Z.ltb show_number]. rewrite parse_show_ipv4 by done.
  cbn -[to_be from_str_radix Z.ltb show_number]. destruct p as [a len]. cbn [fst snd] in *.
  assert (len ∈ seqZ 16 9) as Hin by (apply elem_of_seqZ; lia). clear -Hin.
  change (seqZ 16 9) with [16; 17; 18; 19; 20; 21; 22; 23; 24] in Hin.
  repeat (apply elem_of_cons in Hin as [->|Hin]; [done|]). by apply not_elem_of_nil in Hin.
Qed.

(** A batch arrives as the additions of its slice, in order. *)
Lemma batch_msg_read nexthop_id slice : (∀ p, p ∈ slice → dfz p) →
  mapM batch_route (Route4Batch_routes (batch_msg nexthop_id slice)) =
  Some ((λ p, mkRoute4 0 (to_be 4 p.1) p.2 nexthop_id 0) <$> slice).
Proof.
  intros Hd. apply mapM_Some. cbn [Route4Batch_routes batch_msg]. apply Forall2_fmap_2, Forall_Forall2_diag, Forall_forall.
  intros p Hp. unfold batch_route. cbn [Route4_prefix]. by rewrite (prefix_text_read p (Hd p Hp)).
Qed.

Lemma every_ext {E A} `{HostOps} `{Regex} (f g : A → M Control E unit) l c :
  (∀ x c, x ∈ l → f x c = g x c) → every f l c = every g l c.
Proof.
  unfold every. intros Hfg. generalize tt. revert c. induction l as [|x l IH]; intros c u; [done|].
  rewrite !mfold_cons, (Hfg x) by set_solver. destruct (g x c) as [c' [[]|]]; [|done].
  apply IH. intros. apply Hfg. set_solver.
Qed.

(** [ctl gen-routes] hands the daemon the whole generated table, in slices
    that are each one bulk addition. *)
Lemma gen_routes_run `{HostOps} `{Regex} `{MapSys} fuel count seed nexthop_id chunk out c :
  0 ≤ count → (0 < chunk)%nat → gen_dfz_prefixes fuel count seed = Some out →
  gen_routes fuel count seed nexthop_id chunk c =
  (_ ← through (every (λ slice, send (call (add_routes4 ((λ p, mkRoute4 0 (to_be 4 p.1) p.2 nexthop_id 0) <$> slice))))
                  (chunks (length out) chunk out));
   mret ["installed " +:+ dec (Z.of_nat (length out)) +:+ " routes"]%string) c.
Proof.
  intros Hc Hk Hout.
  pose proof (draw_spec fuel count seed ∅ [] (NoDup_nil_2) ltac:(set_solver) ltac:(set_solver) Hc) as Hs.
  unfold gen_dfz_prefixes in Hout. rewrite Hout in Hs. destruct Hs as (_ & _ & Hd).
  unfold gen_routes, gen_dfz_prefixes. rewrite Hout. rewrite (proj2 (Nat.eqb_neq chunk 0)) by lia.
  assert (∀ s, s ∈ chunks (length out) chunk out → ∀ p, p ∈ s → dfz p) as Hs.
  { intros s Hin p Hp. apply Hd. rewrite <- (chunks_join chunk (length out) out) by done.
    apply list_elem_of_join. eauto. }
  unfold mbind at 1, M_bind at 1. cbn [of_option mret M_ret].
  unfold mbind, M_bind, through.
  rewrite (every_ext (λ s, send (rpc_add_route4_batch (batch_msg nexthop_id s)))
    (λ s, send (call (add_routes4 ((λ p, mkRoute4 0 (to_be 4 p.1) p.2 nexthop_id 0) <$> s))))); [done|].
  intros s c' Hin. unfold send, rpc_add_route4_batch. by rewrite (batch_msg_read nexthop_id s) by eauto.
Qed.

(** *** The benchmark's probe *)

Lemma fold_sum_spec s : 0 ≤ s < 65536 * 65535 →
  0 ≤ fold_sum 2 s ≤ 65535 ∧ fold_sum 2 s mod 65535 = s mod 65535.
Proof.
  intros Hs. destruct (fold_twice s Hs) as (Hr & _ & Hm). cbv zeta in Hr, Hm. cbn [fold_sum].
  destruct (Z.leb_spec s 0xffff); [lia|].
  set (s1 := (s .& 0xffff) + (s ≫ 16)) in *.
  assert (0 ≤ s1 ∧ s1 mod 65535 = s mod 65535) as [? ?].
  { unfold s1. change 0xffff with (2 ^ 16 - 1). rewrite land_ones', shr_div by lia. divlia. }
  destruct (Z.leb_spec s1 0xffff); [lia|]. done.
Qed.

(** The benchmark sends 64 bytes that the data plane takes for a valid IPv4
    packet, whatever the destination. *)
Lemma udp_packet_valid dst : length dst = 4%nat → Forall is_byte dst →
  length (udp_packet dst) = 64%nat ∧ csum_valid (take 20 (drop 14 (udp_packet dst))).
Proof.
  intros Hl Hd.
  assert (∀ c, length (probe_header c dst) = 20%nat) as Hlen.
  { intros c. unfold probe_header. rewrite !length_app, !to_be_length, Hl. done. }
  unfold udp_packet. split; [rewrite !length_app, Hlen, !to_be_length; done|].
  set (h := probe_header (probe_csum dst) dst). set (rest := to_be 2 1000 ++ _).
  change (drop 14 _) with (h ++ rest). rewrite take_app_length' by (symmetry; apply Hlen). subst h rest.
  pose proof (be_words_range (probe_header 0 dst)) as Hr. rewrite Hlen in Hr.
  destruct (fold_sum_spec (be_words (probe_header 0 dst))) as [Hf Hm].
  { enough (Forall is_byte (probe_header 0 dst)) by (specialize (Hr ltac:(done)); lia).
    unfold probe_header. rewrite !Forall_app. split_and!; try apply to_be_bytes; [..|done];
      repeat constructor; unfold is_byte; lia. }
  unfold csum_valid. rewrite <- (Z.add_0_l (sum16 _)).
  unfold probe_header at 1. rewrite (app_assoc [_; _]), (app_assoc _ [0; 0; 0; 0; 64; 17]).
  apply (stored_checksum _ _ 0); [by exists 5%nat|exists 4%nat; cbn; lia| |..|done].
  - unfold probe_csum, wrap, in_range. rewrite Z.mod_small; lia.
  - replace ((_ ++ _) ++ _) with (probe_header 0 dst) by done. unfold probe_csum, wrap.
    set (s := be_words _) in *. set (f := fold_sum 2 s) in *. clearbody s f.
    rewrite (Z.mod_small f) by lia. clear -Hm Hf. divlia.
Qed.
