(* ===== verification/Cep.v ===== *)
(** * CiliumEndpoints and identity collection
    ([crates/cradle-k8s/src/cep.rs], the publication task of [main.rs])

    The agent mirrors the daemon's endpoints into CiliumEndpoint objects,
    removes those whose endpoint is gone, and collects the CiliumIdentities
    no CiliumEndpoint of the cluster refers to.  The API server is a state of
    its own: the objects it holds, and which of the coming calls it refuses;
    what server-side apply makes of an object is a parameter.  The last part is
    the CNI configuration the agent writes for its node. *)

From S2P Require Import Prelude.
From S2P Require Import Bpf.
From S2P Require Import MapRefs.
From S2P Require Import Text.
From S2P Require Import Control.
From S2P Require Import IpText.
From S2P Require Import Pb.
From S2P Require Import K8s.
From S2P Require Import NetPol.

(** ** The objects *)

Definition NODE_LABEL : string := "cradle.io/node".

Record CepIdentity := mkCepIdentity { ci_id : Z; ci_labels : list string }.

Definition cep_object (node node_ip : string) (ep : pb_CniEndpoint) (identity : option CepIdentity) : Json :=
  let networking := JObj [("addressing"%string, JArr [JObj [("ipv4"%string, JStr (CniEndpoint_ip ep))]])] in
  let networking := if is_set node_ip then jset "node" (JStr node_ip) networking else networking in
  let status := JObj [("id"%string, JNum (CniEndpoint_host_ifindex ep)); ("state"%string, JStr "ready");
                      ("networking"%string, networking);
                      ("policy"%string, JObj [("revision"%string, JNum (CniEndpoint_policy_revision ep))])] in
  let status := match identity with
                | Some id => jset "identity" (JObj [("id"%string, JNum (ci_id id)); ("labels"%string, JArr (JStr <$> ci_labels id))]) status
                | None => status
                end in
  JObj [("apiVersion"%string, JStr "cilium.io/v2"); ("kind"%string, JStr "CiliumEndpoint");
        ("metadata"%string, JObj [("name"%string, JStr (CniEndpoint_pod_name ep));
                                  ("namespace"%string, JStr (CniEndpoint_pod_namespace ep));
                                  ("labels"%string, JObj [(NODE_LABEL, JStr node)])]);
        ("status"%string, status)].

Definition cilium_node_object (node node_ip pod_cidr : string) : Json :=
  let addresses := if is_set node_ip then [JObj [("type"%string, JStr "InternalIP"); ("ip"%string, JStr node_ip)]] else [] in
  JObj [("apiVersion"%string, JStr "cilium.io/v2"); ("kind"%string, JStr "CiliumNode");
        ("metadata"%string, JObj [("name"%string, JStr node); ("labels"%string, JObj [(NODE_LABEL, JStr node)])]);
        ("spec"%string, JObj [("addresses"%string, JArr addresses);
           ("ipam"%string, JObj [("podCIDRs"%string, JArr (if is_set pod_cidr then [JStr pod_cidr] else []))])])].

(** Objects by namespace and name. *)
Abbreviation CepKey := (string * string)%type.

Definition is_pod (ep : pb_CniEndpoint) : bool := is_set (CniEndpoint_pod_name ep) && is_set (CniEndpoint_pod_namespace ep).
Definition cep_key (ep : pb_CniEndpoint) : CepKey := (CniEndpoint_pod_namespace ep, CniEndpoint_pod_name ep).

Definition desired_ceps (node node_ip : string) (endpoints : list pb_CniEndpoint) (identities : gmap CepKey CepIdentity)
    : gmap CepKey Json :=
  foldl (λ m ep, <[cep_key ep := cep_object node node_ip ep (identities !! cep_key ep)]> m) ∅ (filter (λ ep, is_pod ep) endpoints).

(** ** The API server *)

Record ApiServer := mkApiServer {
  api_ceps : gmap CepKey Json; api_nodes : gmap string Json; api_cids : list Cid; api_refusals : list bool }.

Section publish.
(** What is stored when an object is applied over the one that is there. *)
Variable server_apply : option Json → Json → Json.

Abbreviation Api := (M ApiServer unit).

(** One call: [f] of the objects, unless it is refused. *)
Definition api_call {A} (f : ApiServer → ApiServer * A) : Api A := λ s,
  let '(s', a) := f (mkApiServer (api_ceps s) (api_nodes s) (api_cids s) (tail (api_refusals s))) in
  match api_refusals s with
  | true :: fs => (mkApiServer (api_ceps s) (api_nodes s) (api_cids s) fs, Err tt)
  | _ => (s', Ok a)
  end.

Definition apply_cep (k : CepKey) (obj : Json) : Api unit := api_call (λ s,
  (mkApiServer (<[k := server_apply (api_ceps s !! k) obj]> (api_ceps s)) (api_nodes s) (api_cids s) (api_refusals s), tt)).
Definition delete_cep (k : CepKey) : Api unit := api_call (λ s,
  (mkApiServer (delete k (api_ceps s)) (api_nodes s) (api_cids s) (api_refusals s), tt)).
Definition apply_node (node : string) (obj : Json) : Api unit := api_call (λ s,
  (mkApiServer (api_ceps s) (<[node := server_apply (api_nodes s !! node) obj]> (api_nodes s)) (api_cids s) (api_refusals s), tt)).

Definition node_label (j : Json) : option string :=
  match jpath ["metadata"; "labels"; NODE_LABEL]%string j with Some (JStr s) => Some s | _ => None end.
(** The list restricted to the objects with the label [cradle.io/node=node]. *)
Definition list_node_ceps (node : string) : Api (list CepKey) := api_call (λ s,
  (s, (map_to_list (filter (λ kv, node_label kv.2 = Some node) (api_ceps s))).*1)).

Definition sweep_one (desired : gmap CepKey Json) (k : CepKey) : Api unit :=
  if bool_decide (is_Some (desired !! k)) then mret tt else _ ← catch (delete_cep k); mret tt.

Definition publish (node node_ip pod_cidr : string) (endpoints : list pb_CniEndpoint) (identities : gmap CepKey CepIdentity)
    : Api unit :=
  let desired := desired_ceps node node_ip endpoints identities in
  _ ← mfold (λ _ '(k, obj), apply_cep k obj) (map_to_list desired) tt;
  items ← list_node_ceps node;
  _ ← mfold (λ _ k, sweep_one desired k) items tt;
  apply_node node (cilium_node_object node node_ip pod_cidr).

(** ** The identities in use *)

Definition status_identity (j : Json) : option Z :=
  match jpath ["status"; "identity"; "id"]%string j with
  | Some (JNum n) => if bool_decide (0 ≤ n < 2 ^ 64) then Some (wrap 32 n) else None
  | _ => None
  end.
Definition in_use_identities : Api (gset Z) := api_call (λ s,
  (s, list_to_set (omap status_identity (map_to_list (api_ceps s)).*2))).

Definition list_cids_call : Api (gmap string Z) := api_call (λ s, (s, list_cids (api_cids s))).
Definition all_cid_ids : Api (list Z) := m ← list_cids_call; mret (map_to_list m).*2.
Definition delete_cid (id : Z) : Api unit := api_call (λ s,
  (mkApiServer (api_ceps s) (api_nodes s) (filter (λ c, cid_name c ≠ show_number 10 10 id) (api_cids s)) (api_refusals s), tt)).

(** A listing of the identities that fails leaves the hashes. *)
Definition resolve_only (pods : list Pod) : Api Alloc := cids ← list_cids_call; mret (rekey_for_pods cids pods).
Definition build_cep_identities (pod_list : option (list Pod)) (endpoints : list pb_CniEndpoint) : Api (gmap CepKey CepIdentity) :=
  match pod_list with
  | None => mret ∅
  | Some pods =>
      alloc ← catch (resolve_only pods);
      let alloc := default ∅ alloc in
      mret (foldl (λ m ep,
        match find_pod (CniEndpoint_pod_namespace ep) (CniEndpoint_pod_name ep) pods with
        | Some pod => <[cep_key ep := mkCepIdentity (alloc_resolve alloc (CniEndpoint_pod_namespace ep) (labels_of pod))
                                        (label_list (CniEndpoint_pod_namespace ep) (labels_of pod))]> m
        | None => m
        end) ∅ (filter (λ ep, is_pod ep) endpoints))
  end.

(** ** A round of the task *)

Definition GC_GRACE : Z := 3.

(** The node's InternalIP and its first IPv4 pod CIDR. *)
Record NodeInfo := mkNodeInfo { nd_addresses : list (string * string); nd_pod_cidrs : list string; nd_pod_cidr : option string }.
Definition node_internal_ip (n : NodeInfo) : string :=
  default ""%string (first_some (λ '(t, a), if bool_decide (t = "InternalIP"%string) then Some a else None) (nd_addresses n)).
Definition has_dot (c : string) : option string := if contains "." c then Some c else None.
Definition node_pod_cidr (n : NodeInfo) : string :=
  default ""%string (match first_some has_dot (nd_pod_cidrs n) with Some c => Some c | None => nd_pod_cidr n ≫= has_dot end).

(** The collection: what is deleted, and the strikes that remain. *)
Definition gc_round (strikes : gmap Z Z) : Api (gmap Z Z) :=
  cids ← catch all_cid_ids;
  in_use ← catch in_use_identities;
  match cids, in_use with
  | Some cids, Some in_use =>
      let '(strikes, del) := gc_plan cids in_use strikes GC_GRACE in
      _ ← mfold (λ _ id, _ ← catch (delete_cid id); mret tt) del tt;
      mret strikes
  | _, _ => mret strikes
  end.

(** [node_info] and [endpoints]: what the calls before answered. *)
Definition publish_round (gc_identities : bool) (node : string) (node_info : option NodeInfo)
    (endpoints : option (list pb_CniEndpoint)) (pods : option (list Pod)) (strikes : gmap Z Z) : Api (gmap Z Z) :=
  match node_info, endpoints with
  | Some n, Some endpoints =>
      identities ← build_cep_identities pods endpoints;
      _ ← catch (publish node (node_internal_ip n) (node_pod_cidr n) endpoints identities);
      if gc_identities then gc_round strikes else mret strikes
  | _, _ => mret strikes
  end.
End publish.

(** ** The node ([main.rs]) *)

(** The frontend address of NodePort services. *)
Definition node_frontend (n : option NodeInfo) : option bytes :=
  n ← n;
  a ← first_some (λ '(t, a), if bool_decide (t = "InternalIP"%string) then Some a else None) (nd_addresses n);
  parse_ipv4 a.

(** The CNI configuration of a node that has been given an IPv4 pod CIDR. *)
Definition cni_conf (grpc : string) (n : NodeInfo) : option Json :=
  let has_colon c := if contains ":" c then Some c else None in
  cidr ← match first_some has_dot (nd_pod_cidrs n) with Some c => Some c | None => nd_pod_cidr n ≫= has_dot end;
  let ipam := JObj [("type"%string, JStr "cradle"); ("subnet"%string, JStr cidr)] in
  let ipam := match first_some has_colon (nd_pod_cidrs n) with Some c6 => jset "subnet6" (JStr c6) ipam | None => ipam end in
  Some (JObj [("cniVersion"%string, JStr "1.0.0"); ("name"%string, JStr "cradle");
    ("plugins"%string, JArr [JObj [("type"%string, JStr "cradle-cni"); ("grpcEndpoint"%string, JStr grpc);
       ("nodeIP"%string, JStr (node_internal_ip n));
       ("capabilities"%string, JObj [("portMappings"%string, JBool true)]); ("ipam"%string, ipam)]])]).

(** The task asks again until a configuration is written: the answers of the
    API server, each with whether the file can be written then. *)
Definition render_cni_conf (grpc : string) (attempts : list (option NodeInfo * bool)) : option Json :=
  first_some (λ '(n, writable), conf ← n ≫= cni_conf grpc; if (writable : bool) then Some conf else None) attempts.

(** The IPv6 CIDR is taken from [podCIDRs] only, wherever it stands. *)
Example conf_dual_stack :
  (cni_conf "unix:/run/cradle/cradle.sock" (mkNodeInfo [("Hostname", "n1"); ("InternalIP", "10.0.0.1")]%string
     ["fd00::/64"; "10.244.0.0/24"]%string None) ≫= jpath ["plugins"]%string) =
  Some (JArr [JObj [("type", JStr "cradle-cni"); ("grpcEndpoint", JStr "unix:/run/cradle/cradle.sock");
    ("nodeIP", JStr "10.0.0.1"); ("capabilities", JObj [("portMappings", JBool true)]);
    ("ipam", JObj [("type", JStr "cradle"); ("subnet", JStr "10.244.0.0/24"); ("subnet6", JStr "fd00::/64")])]])%string.
Proof. reflexivity. Qed.
