(* ===== verification/Hubble.v ===== *)
(** * The Hubble observer ([crates/cradle/src/hubble.rs])

    The flow records the programs leave in [FLOWS] and the verdicts of the L7
    proxy become flows, kept in a ring and sent to the followers; the
    observer's requests select among them.  Flows carry the fields the
    exporter fills (proto/hubble); the wall clock is an argument. *)

From S2P Require Import Prelude.
From S2P Require Import Contract.
From S2P Require Import Bpf.
From S2P Require Import MapRefs.
From S2P Require Import Text.
From S2P Require Import L7.
From S2P Require Import Control.
From S2P Require Import Pods.
From S2P Require Import IpText.

Definition RING_CAP : Z := 8192.
Definition HUBBLE_VERSION : string := "1.19.5 (cradle)".

(** ** Flows *)

(** Seconds and nanoseconds *)
Abbreviation Timestamp := (Z * Z)%type.

Definition V_UNKNOWN : Z := 0.
Definition V_FORWARDED : Z := 1.
Definition V_DROPPED : Z := 2.
Definition V_AUDIT : Z := 4.
Definition V_TRANSLATED : Z := 7.
Definition T_UNKNOWN : Z := 0.
Definition T_INGRESS : Z := 1.
Definition T_EGRESS : Z := 2.
Definition FT_L3L4 : Z := 1.
Definition FT_L7 : Z := 2.

Inductive Layer4 : Type := Tcp (source_port destination_port : Z) | Udp (source_port destination_port : Z) | IcmPv4 | IcmPv6.
Record Http := mkHttp { ht_code : Z; ht_method : string; ht_url : string; ht_protocol : string }.
Record FlowEndpoint := mkFlowEndpoint { fe_identity : Z; fe_namespace : string; fe_pod_name : string; fe_labels : list string }.
Record Flow := mkFlow {
  fl_time : option Timestamp; fl_verdict : Z; fl_ip : option (string * string); fl_l4 : option Layer4; fl_l7 : option Http;
  fl_source : option FlowEndpoint; fl_destination : option FlowEndpoint; fl_type : Z; fl_node_name : string;
  fl_traffic_direction : Z }.

(** The proxy's report of a request. *)
Record L7Event := mkL7Event {
  ev_client : SocketAddr; ev_dst : SocketAddr; ev_method : string; ev_path : string; ev_allowed : bool }.

(** What the exporter knows of the addresses, by their number. *)
Abbreviation IpIndex := (gmap Z EpInfo).

Definition endpoint_labels (info : EpInfo) : list string :=
  (if is_set (ei_namespace info) then [("k8s:io.kubernetes.pod.namespace=" +:+ ei_namespace info)%string] else []) ++
  (if is_set (ei_pod_name info) then [("k8s:io.kubernetes.pod.name=" +:+ ei_pod_name info)%string] else []).

Definition endpoint_of (ip : bytes) (index : IpIndex) : option FlowEndpoint :=
  info ← index !! of_be ip;
  if negb (is_set (ei_namespace info)) && negb (is_set (ei_pod_name info)) && (ei_identity info =? 0) then None
  else Some (mkFlowEndpoint (ei_identity info) (ei_namespace info) (ei_pod_name info) (endpoint_labels info)).

Definition flow_verdict (v : Z) : Z :=
  if v =? FLOW_FORWARDED then V_FORWARDED else if v =? FLOW_DROPPED then V_DROPPED
  else if v =? FLOW_TRANSLATED then V_TRANSLATED else if v =? FLOW_AUDITED then V_AUDIT else V_UNKNOWN.
Definition flow_direction (dir : Z) : Z :=
  if dir =? FLOW_DIR_INGRESS then T_INGRESS else if dir =? FLOW_DIR_EGRESS then T_EGRESS else T_UNKNOWN.

(** [u16::from_be] of a number read natively. *)
Definition from_be16 (x : Z) : Z := of_be (to_le 2 x).

Definition flow_l4 (rec : FlowRecord) : option Layer4 :=
  let sport := from_be16 (fr_sport rec) in
  let dport := from_be16 (fr_dport rec) in
  if fr_proto rec =? 6 then Some (Tcp sport dport) else if fr_proto rec =? 17 then Some (Udp sport dport)
  else if fr_proto rec =? 1 then Some IcmPv4 else None.

(** The identity the rules were matched against, where the index knows no
    better. *)
Definition graft (peer_identity : Z) (peer : option FlowEndpoint) : option FlowEndpoint :=
  let e := default (mkFlowEndpoint 0 "" "" []) peer in
  Some (if fe_identity e =? 0 then mkFlowEndpoint peer_identity (fe_namespace e) (fe_pod_name e) (fe_labels e) else e).

Definition build_flow (now : Timestamp) (rec : FlowRecord) (index : IpIndex) (node : string) : Flow :=
  let grafts := negb (fr_peer_identity rec =? 0) in
  let from_peer := fr_dir rec =? FLOW_DIR_INGRESS in
  let source := endpoint_of (fr_saddr rec) index in
  let destination := endpoint_of (fr_daddr rec) index in
  mkFlow (Some now) (flow_verdict (fr_verdict rec)) (Some (show_ipv4 (fr_saddr rec), show_ipv4 (fr_daddr rec))) (flow_l4 rec) None
    (if grafts && from_peer then graft (fr_peer_identity rec) source else source)
    (if grafts && negb from_peer then graft (fr_peer_identity rec) destination else destination)
    FT_L3L4 node (flow_direction (fr_dir rec)).

Definition v4_of (a : IpAddr) : bytes := match a with V4 b => b | V6 _ => [0; 0; 0; 0] end.
Definition build_l7_flow (now : Timestamp) (ev : L7Event) (index : IpIndex) (node : string) : Flow :=
  let src := v4_of (ev_client ev).1 in
  let dst := v4_of (ev_dst ev).1 in
  mkFlow (Some now) (if ev_allowed ev then V_FORWARDED else V_DROPPED) (Some (show_ipv4 src, show_ipv4 dst))
    (Some (Tcp (ev_client ev).2 (ev_dst ev).2)) (Some (mkHttp 0 (ev_method ev) (ev_path ev) "HTTP/1.1"))
    (endpoint_of src index) (endpoint_of dst index) FT_L7 node T_INGRESS.

(** ** Filters *)

Record FlowFilter := mkFlowFilter {
  ff_verdict : list Z; ff_traffic_direction : list Z; ff_source_ip : list string; ff_destination_ip : list string;
  ff_source_pod : list string; ff_destination_pod : list string; ff_source_identity : list Z; ff_destination_identity : list Z;
  ff_source_label : list string; ff_destination_label : list string; ff_protocol : list string }.

Definition pod_matches (pattern : string) (ep : option FlowEndpoint) : bool :=
  match ep with
  | None => false
  | Some ep =>
      match split_once slash pattern with
      | Some (ns, pod) => (bool_decide (ns = ""%string) || bool_decide (fe_namespace ep = ns)) && starts_with pod (fe_pod_name ep)
      | None => starts_with pattern (fe_pod_name ep)
      end
  end.

(** An address, or an IPv4 prefix. *)
Definition ip_matches (pattern ip : string) : bool :=
  if bool_decide (ip = ""%string) then false else
  match split_once slash pattern with
  | None => bool_decide (pattern = ip)
  | Some (net, plen) =>
      match parse_ipv4 net, from_str_radix 8 10 plen, parse_ipv4 ip with
      | Some net, Some plen, Some addr =>
          if plen <=? 32 then
            let mask := if plen =? 0 then 0 else wrap 32 ((2 ^ 32 - 1) ≪ (32 - plen)) in
            of_be net .& mask =? of_be addr .& mask
          else false
      | _, _, _ => false
      end
  end.

Definition label_matches (selector : string) (ep : option FlowEndpoint) : bool :=
  match ep with
  | Some ep => existsb (λ l, bool_decide (l = selector) ||
                             bool_decide (trim_start_matches (String.length l) "k8s:" l = selector)) (fe_labels ep)
  | None => false
  end.

Definition l4_name (l4 : Layer4) : string :=
  match l4 with Tcp _ _ => "tcp" | Udp _ _ => "udp" | IcmPv4 => "icmpv4" | IcmPv6 => "icmpv6" end.
Definition eq_ignore_case (a b : string) : bool := bool_decide (to_lowercase a = to_lowercase b).
Definition protocol_matches (name : string) (f : Flow) : bool :=
  match fl_l4 f with
  | Some l4 => eq_ignore_case name (l4_name l4) || (eq_ignore_case name "icmp" && starts_with "icmp" (l4_name l4))
  | None => false
  end.

(** A field that is not filled in admits everything. *)
Definition any_of {A} (l : list A) (p : A → bool) : bool := match l with [] => true | _ => existsb p l end.

Definition filter_matches (f : Flow) (flt : FlowFilter) : bool :=
  let '(src_ip, dst_ip) := default (""%string, ""%string) (fl_ip f) in
  any_of (ff_verdict flt) (Z.eqb (fl_verdict f)) &&
  any_of (ff_traffic_direction flt) (Z.eqb (fl_traffic_direction f)) &&
  any_of (ff_source_ip flt) (λ p, ip_matches p src_ip) &&
  any_of (ff_destination_ip flt) (λ p, ip_matches p dst_ip) &&
  any_of (ff_source_pod flt) (λ p, pod_matches p (fl_source f)) &&
  any_of (ff_destination_pod flt) (λ p, pod_matches p (fl_destination f)) &&
  any_of (ff_source_identity flt) (Z.eqb (from_option fe_identity 0 (fl_source f))) &&
  any_of (ff_destination_identity flt) (Z.eqb (from_option fe_identity 0 (fl_destination f))) &&
  any_of (ff_source_label flt) (λ l, label_matches l (fl_source f)) &&
  any_of (ff_destination_label flt) (λ l, label_matches l (fl_destination f)) &&
  any_of (ff_protocol flt) (λ p, protocol_matches p f).

Definition flow_passes (f : Flow) (whitelist blacklist : list FlowFilter) : bool :=
  negb (existsb (filter_matches f) blacklist) && any_of whitelist (filter_matches f).

Definition ts_lt (a b : Timestamp) : bool := (a.1 <? b.1) || ((a.1 =? b.1) && (a.2 <? b.2)).
Definition in_time_window (f : Flow) (since until : option Timestamp) : bool :=
  match fl_time f with
  | None => true
  | Some t => negb (from_option (ts_lt t) false since) && negb (from_option (λ u, ts_lt u t) false until)
  end.

(** ** The observer *)

(** The ring, oldest first; everything broadcast so far; the counter. *)
Record Observer := mkObserver { ob_flows : list Flow; ob_tx : list Flow; ob_seen : Z; ob_node_name : string }.

(** [State::push] *)
Definition push (f : Flow) (st : Observer) : Observer :=
  let q := ob_flows st in
  mkObserver ((if RING_CAP <=? Z.of_nat (length q) then drop 1 q else q) ++ [f]) (ob_tx st ++ [f]) (wrap 64 (ob_seen st + 1))
    (ob_node_name st).

(** One wake of [drain_loop], over the records the ring buffer holds. *)
Definition drain (index : IpIndex) (batch : list (Timestamp * FlowRecord)) (st : Observer) : Observer :=
  foldl (λ st '(now, rec), push (build_flow now rec index (ob_node_name st)) st) st batch.
(** One report of the proxy. *)
Definition observe_l7 (now : Timestamp) (index : IpIndex) (ev : L7Event) (st : Observer) : Observer :=
  push (build_l7_flow now ev index (ob_node_name st)) st.

Record GetFlowsRequest := mkGetFlowsRequest {
  gf_number : Z; gf_first : bool; gf_follow : bool; gf_whitelist : list FlowFilter; gf_blacklist : list FlowFilter;
  gf_since : option Timestamp; gf_until : option Timestamp }.

Definition selects (req : GetFlowsRequest) (f : Flow) : bool :=
  in_time_window f (gf_since req) (gf_until req) && flow_passes f (gf_whitelist req) (gf_blacklist req).

(** The flows replayed: the first or the last of the matching ones. *)
Definition replay (req : GetFlowsRequest) (st : Observer) : list Flow :=
  let matched := filter (λ f, selects req f) (ob_flows st) in
  let number := Z.to_nat (gf_number req) in
  let n := if (number =? 0)%nat || (length matched <? number)%nat then length matched else number in
  if gf_first req then take n matched else drop (length matched - n) matched.

(** What a client receives that subscribed in state [st0], had the ring read
    in [st], and heard the broadcasts [heard] since it subscribed; a receiver
    that lags behind misses some. *)
Definition wrap_flow (node : string) (f : Flow) : string * option Timestamp * Flow := (node, fl_time f, f).
Definition get_flows (req : GetFlowsRequest) (st : Observer) (heard : list Flow) : list (string * option Timestamp * Flow) :=
  wrap_flow (ob_node_name st) <$>
    replay req st ++ (if gf_follow req then filter (λ f, selects req f) heard else []).

Record ServerStatus := mkServerStatus {
  ss_num_flows : Z; ss_max_flows : Z; ss_seen_flows : Z; ss_uptime_ns : Z; ss_version : string }.
Definition server_status (uptime_ns : Z) (st : Observer) : ServerStatus :=
  mkServerStatus (Z.of_nat (length (ob_flows st))) RING_CAP (ob_seen st) uptime_ns HUBBLE_VERSION.
Definition get_nodes (uptime_ns : Z) (st : Observer) : list (string * ServerStatus) :=
  [(ob_node_name st, server_status uptime_ns st)].

Definition flow_namespaces (f : Flow) : list string :=
  filter (λ ns, ns ≠ ""%string) (omap (fmap fe_namespace) [fl_source f; fl_destination f]).
(** A [BTreeSet]: each once, in order. *)
Definition str_order (a b : string) : Prop := String.leb a b = true.
#[global] Instance str_order_dec a b : Decision (str_order a b).
Proof. unfold str_order. apply _. Defined.
Definition get_namespaces (st : Observer) : list string :=
  merge_sort str_order (elements (list_to_set (ob_flows st ≫= flow_namespaces) : gset string)).

(** The Peer service announces this node once. *)
Definition peer_notify (node_name : string) (listen_addr : option string) : string * string := (node_name, default ""%string listen_addr).
