(* ===== verification/HubbleProps.v ===== *)
(** * The Hubble observer: the properties

    The ring holds the newest flows, a follower misses none, and what the
    enforcement point denies is what the observer shows. *)

From S2P Require Import Prelude.
From S2P Require Import Contract.
From S2P Require Import Bpf.
From S2P Require Import Frames.
From S2P Require Import KernelRef.
From S2P Require Import Maps.
From S2P Require Import Policy.
From S2P Require Import PolicyProps.
From S2P Require Import Text.
From S2P Require Import IpText.
From S2P Require Import Pods.
From S2P Require Import Hubble.

(** ** What the enforcement point records *)

Section records.
Context `{KernelLaws} `{FibMaps} `{PolicyMaps}.

Lemma catch_ok {A} (m : Prog A) w w' a : m w = (w', Ok a) → catch m w = (w', Ok (Some a)).
Proof. intros E. unfold catch. by rewrite E. Qed.
Lemma unwrap_ok {A} (d : A) (m : Prog A) w w' a : m w = (w', Ok a) → unwrap_or d m w = (w', Ok a).
Proof. intros E. unfold unwrap_or, fmap, M_fmap. by rewrite (catch_ok _ _ _ _ E). Qed.

(** The record that is left when the ring has room. *)
Lemma reserve_run (rec : Z → FlowRecord) w :
  ∃ w', (n ← tick;
         if ring_reserve n then now ← ktime_get_ns; modify (λ w, set_FLOWS (FLOWS w ++ [rec now]) w)
         else mret tt) w = (w', Ok tt) ∧ peer_id w' = peer_id w ∧
    if ring_reserve (ticks w) then ∃ now, FLOWS w' = FLOWS w ++ [rec now] else FLOWS w' = FLOWS w.
Proof.
  assert (tick w = (set_ticks (S (ticks w)) w, Ok (ticks w))) as Et by done. rewrite (bind_ok Et).
  destruct (ring_reserve (ticks w)); eexists; (split; [reflexivity|]); (split; [done|]); [by eexists|done].
Qed.

Lemma emit_flow_run v dir ep pid w src dst k :
  rd (pkt w) IP_SRC_OFF 4 = Some src → rd (pkt w) IP_DST_OFF 4 = Some dst → flow4 (pkt w) = Some k →
  ∃ w', emit_flow_v4 v dir ep pid w = (w', Ok tt) ∧ peer_id w' = peer_id w ∧
    if ring_reserve (ticks w)
    then ∃ now, FLOWS w' = FLOWS w ++ [mkFlowRecord now ep src dst (ct_src_port k) (ct_dst_port k) (ct_proto k) v dir pid]
    else FLOWS w' = FLOWS w.
Proof.
  intros Hs Hd Hk. unfold flow4 in Hk. rewrite Hs, Hd in Hk.
  destruct (rd (pkt w) IP_PROTO_OFF 1) as [pr|] eqn:Hp; [|done]. cbn -[Z.land] in Hk.
  destruct (rd (pkt w) IP_VER_IHL_OFF 1) as [vi|] eqn:Hv; [|done]. cbn -[Z.land] in Hk.
  unfold emit_flow_v4. rewrite (bind_ok (catch_ok _ _ _ _ (load_run _ _ _ _ Hs ltac:(lia)))).
  rewrite (bind_ok (catch_ok _ _ _ _ (load_run _ _ _ _ Hd ltac:(lia)))).
  rewrite (bind_ok (catch_ok _ _ _ _ (load_ne_run _ _ _ _ Hp ltac:(lia)))).
  rewrite (bind_ok (unwrap_ok _ _ _ _ _ (load_ne_run _ _ _ _ Hv ltac:(lia)))).
  destruct (is_l4 (of_le pr) && (of_le vi .& 15 =? 5)).
  - destruct (rd (pkt w) L4_OFF 2) as [sp|] eqn:Hsp; [|done]. cbn -[Z.land] in Hk.
    destruct (rd (pkt w) (L4_OFF + 2) 2) as [dp|] eqn:Hdp; [|done]. injection Hk as <-.
    rewrite bind_assoc, (bind_ok (unwrap_ok _ _ _ _ _ (load_ne_run _ _ _ _ Hsp ltac:(lia)))).
    rewrite bind_assoc, (bind_ok (unwrap_ok _ _ _ _ _ (load_ne_run _ _ _ _ Hdp ltac:(lia)))).
    rewrite bind_ret. apply (reserve_run (λ now, mkFlowRecord now _ _ _ _ _ _ _ _ _)).
  - injection Hk as <-. rewrite bind_ret. apply (reserve_run (λ now, mkFlowRecord now _ _ _ _ _ _ _ _ _)).
Qed.

(** On ingress the peer is the sender, in either generation. *)
Lemma ingress_peer fl (k : CtKey) :
  (if has (dir_gen fl POLICY_DIR_INGRESS) POLICY_DIR_EGRESS then ct_dst k else ct_src k) = ct_src k.
Proof. unfold dir_gen. by destruct (has fl EP_F_GEN). Qed.

(** The enforcement point on an IPv4 frame it can parse. *)
Lemma policed_record ifindex fl w src dst k :
  rd (pkt w) ETH_TYPE_OFF 2 = Some (to_be 2 ETH_P_IP) → rd (pkt w) IP_SRC_OFF 4 = Some src → rd (pkt w) IP_DST_OFF 4 = Some dst →
  flow4 (pkt w) = Some k → EP_POLICY !! ifindex = Some fl →
  let denied := has fl EP_F_INGRESS = true ∧ denies4 w ifindex (dir_gen fl POLICY_DIR_INGRESS) (port_vrf ifindex) in
  let audit := has fl EP_F_AUDIT in
  ∃ w' act, ingress_policy ifindex w = (w', Ok act) ∧
    (denied → act = (if audit then TC_ACT_PIPE else TC_ACT_SHOT) ∧
       if ring_reserve (ticks w)
       then ∃ now, FLOWS w' = FLOWS w ++ [mkFlowRecord now ifindex src dst (ct_src_port k) (ct_dst_port k) (ct_proto k)
                 (if audit then FLOW_AUDITED else FLOW_DROPPED) FLOW_DIR_INGRESS (identity4 (port_vrf ifindex) (ct_src k))]
       else FLOWS w' = FLOWS w) ∧
    (¬ denied → act = TC_ACT_PIPE ∧ FLOWS w' = FLOWS w).
Proof.
  intros Hty Hs Hd Hk Hfl denied audit. unfold ingress_policy. rewrite Hfl. fold (port_vrf ifindex). cbv zeta.
  rewrite (bind_ok (load_be_run 2 _ _ _ Hty ltac:(lia))). change (of_be (to_be 2 ETH_P_IP) =? ETH_P_IP) with true. cbn iota.
  destruct (enforced_run (has fl EP_F_INGRESS) ifindex (dir_gen fl POLICY_DIR_INGRESS) (port_vrf ifindex) w)
    as (w1 & d & E1 & Hw1 & Hden). rewrite (bind_ok E1), bind_run. cbn [get].
  assert (pkt w1 = pkt w ∧ FLOWS w1 = FLOWS w ∧ ticks w1 = ticks w) as (Hpk & Hfw & Htk) by (destruct Hw1 as [->|[i ->]]; done).
  assert (∀ w2, ∃ w', ((_ ← (if has fl EP_F_EGRESS then _ ← catch (pct_track PCT_INBOUND); mret tt else mret tt); mret TC_ACT_PIPE) : Prog Z) w2
                = (w', Ok TC_ACT_PIPE) ∧ FLOWS w' = FLOWS w2 ∧ peer_id w' = peer_id w2) as Htail.
  { intros w2. destruct (total_track (has fl EP_F_EGRESS) (pct_track PCT_INBOUND) w2) as (w3 & [] & E3).
    rewrite (bind_ok E3). exists w3. split; [done|].
    assert (∀ {X} (g : World → X), (∀ x w, g (set_PCT x w) = g w) → g w3 = g w2) as Hg; [|by split; apply Hg].
    intros X g Hg. refine (keeps_run g _ _ _ _ _ E3). unfold pct_track. keeps. }
  destruct d.
  - assert (denied) as Hdn by by apply Hden. fold audit.
    assert (peer_id w1 = identity4 (port_vrf ifindex) (ct_src k)) as Hpeer.
    { rewrite (enforced_identity _ _ _ _ _ _ k Hk E1). cbn [peer_id set_peer_id]. by rewrite ingress_peer. }
    assert (∀ v (b : bool), ∃ w', ((_ ← stat_inc (if b then STAT_POLICY_DROP else STAT_POLICY_AUDIT);
              _ ← emit_flow_v4 v FLOW_DIR_INGRESS ifindex (peer_id w1); mret b) : Prog bool) w1 = (w', Ok b) ∧ peer_id w' = peer_id w1 ∧
        if ring_reserve (ticks w)
        then ∃ now, FLOWS w' = FLOWS w ++ [mkFlowRecord now ifindex src dst (ct_src_port k) (ct_dst_port k) (ct_proto k) v FLOW_DIR_INGRESS (peer_id w1)]
        else FLOWS w' = FLOWS w) as Hem.
    { intros v b. destruct (stat_inc_run (if b then STAT_POLICY_DROP else STAT_POLICY_AUDIT) w1) as [st Est]. rewrite (bind_ok Est).
      destruct (emit_flow_run v FLOW_DIR_INGRESS ifindex (peer_id w1) (Bpf.set_stats st w1) src dst k) as (w2 & E2 & Hpid & Hf2);
        [by cbn; rewrite Hpk..|]. rewrite (bind_ok E2). exists w2. split; [done|]. split; [done|].
      rewrite <- Hfw, <- Htk. exact Hf2. }
    destruct audit.
    + destruct (Hem FLOW_AUDITED false) as (w2 & E2 & Hpid & Hf2). rewrite (bind_ok E2).
      destruct (Htail w2) as (w' & E' & Hf' & Hp'). exists w', TC_ACT_PIPE. rewrite E', Hf', <- Hpeer. by split.
    + destruct (Hem FLOW_DROPPED true) as (w2 & E2 & Hpid & Hf2). rewrite (bind_ok E2). exists w2, TC_ACT_SHOT.
      rewrite <- Hpeer. by split.
  - rewrite bind_ret. destruct (Htail w1) as (w' & E' & Hf' & Hp'). exists w', TC_ACT_PIPE. split; [exact E'|].
    split; [|by rewrite Hf', Hfw]. intros Hdn. by apply Hden in Hdn.
Qed.
End records.

(** ** The ring *)

Definition push_all (fs : list Flow) (st : Observer) : Observer := foldl (λ st f, push f st) st fs.
Definition newest (fs : list Flow) : list Flow := drop (length fs - Z.to_nat RING_CAP) fs.

Lemma newest_add fs gs : newest (newest fs ++ gs) = newest (fs ++ gs).
Proof.
  unfold newest. rewrite !length_app, length_drop. set (n := Z.to_nat RING_CAP).
  destruct (decide (length fs ≤ n)%nat) as [Hl|Hl].
  - replace (length fs - n)%nat with 0%nat by lia. by rewrite drop_0, Nat.sub_0_r.
  - rewrite <- (drop_app_le fs gs (length fs - n)) by lia. rewrite drop_drop. f_equal. lia.
Qed.
Lemma push_flows f st : (length (ob_flows st) ≤ Z.to_nat RING_CAP)%nat →
  ob_flows (push f st) = newest (ob_flows st ++ [f]) ∧ ob_tx (push f st) = ob_tx st ++ [f] ∧ ob_node_name (push f st) = ob_node_name st.
Proof.
  intros Hl. split; [|done]. unfold push, newest. cbn [ob_flows]. rewrite length_app. cbn [length].
  destruct (Z.leb_spec RING_CAP (Z.of_nat (length (ob_flows st)))) as [Hc|Hc].
  - replace (length (ob_flows st) + 1 - Z.to_nat RING_CAP)%nat with 1%nat by lia.
    rewrite drop_app_le; [done|]. unfold RING_CAP in *. lia.
  - by replace (length (ob_flows st) + 1 - Z.to_nat RING_CAP)%nat with 0%nat by lia.
Qed.
Lemma newest_length fs : (length (newest fs) ≤ Z.to_nat RING_CAP)%nat.
Proof. unfold newest. rewrite length_drop. lia. Qed.
Lemma newest_short fs : (length fs ≤ Z.to_nat RING_CAP)%nat → newest fs = fs.
Proof. intros Hl. unfold newest. by replace (length fs - Z.to_nat RING_CAP)%nat with 0%nat by lia. Qed.

(** The ring holds the newest flows, and everything was broadcast. *)
Lemma push_all_flows fs st : (length (ob_flows st) ≤ Z.to_nat RING_CAP)%nat →
  ob_flows (push_all fs st) = newest (ob_flows st ++ fs) ∧ ob_tx (push_all fs st) = ob_tx st ++ fs ∧
  ob_node_name (push_all fs st) = ob_node_name st.
Proof.
  revert st. induction fs as [|f fs IH]; intros st Hl; [cbn; by rewrite !app_nil_r, newest_short|].
  destruct (push_flows f st Hl) as (Ef & Et & En). change (push_all (f :: fs) st) with (push_all fs (push f st)).
  destruct (IH (push f st)) as (-> & -> & ->); [rewrite Ef; apply newest_length|]. by rewrite Ef, Et, En, newest_add, <- !app_assoc.
Qed.

(** A flow stays until [RING_CAP] others have come. *)
Lemma stays f fs gs : (length gs < Z.to_nat RING_CAP)%nat → f ∈ newest (fs ++ f :: gs).
Proof.
  intros Hl. unfold newest. rewrite length_app. cbn [length].
  rewrite drop_app, elem_of_app. right.
  replace (length fs + S (length gs) - Z.to_nat RING_CAP - length fs)%nat with 0%nat by lia. by left.
Qed.

(** With no number, everything that is selected is replayed. *)
Lemma replay_all req st : gf_number req = 0 → replay req st = filter (λ f, selects req f) (ob_flows st).
Proof.
  intros Hn. unfold replay. rewrite Hn. cbn. destruct (gf_first req); [by rewrite take_ge|].
  by rewrite Nat.sub_diag, drop_0.
Qed.

(** ** From the frame to the reply *)

(** The ports and protocol a frame shows. *)
Definition frame_l4 (p : bytes) : option Layer4 :=
  pr ← rd p IP_PROTO_OFF 1;
  vi ← rd p IP_VER_IHL_OFF 1;
  let port off := if of_le vi .& 0x0f =? 5 then from_option of_be 0 (rd p off 2) else 0 in
  if of_le pr =? 6 then Some (Tcp (port L4_OFF) (port (L4_OFF + 2)))
  else if of_le pr =? 17 then Some (Udp (port L4_OFF) (port (L4_OFF + 2)))
  else if of_le pr =? 1 then Some IcmPv4 else None.

Lemma from_be16_word p off b : Forall is_byte p → rd p off 2 = Some b → from_be16 (of_le b) = of_be b.
Proof.
  intros Hp Hb. pose proof (rd_length _ _ _ _ Hb) as Hl. unfold rd in Hb. case_bool_decide; [|done]. injection Hb as <-.
  unfold from_be16. set (b := take _ _) in *. replace 2%nat with (length b) by lia. rewrite to_of_le; [done|].
  by apply Forall_take, Forall_drop.
Qed.

Lemma frame_l4_recorded p k rec : Forall is_byte p → flow4 p = Some k →
  fr_sport rec = ct_src_port k → fr_dport rec = ct_dst_port k → fr_proto rec = ct_proto k → flow_l4 rec = frame_l4 p.
Proof.
  intros Hb Hk Es Ed Ep. unfold flow_l4, frame_l4. rewrite Es, Ed, Ep. unfold flow4 in Hk.
  destruct (rd p IP_PROTO_OFF 1) as [pr|]; [|done]. destruct (rd p IP_SRC_OFF 4) as [sa|]; [|done].
  destruct (rd p IP_DST_OFF 4) as [da|]; [|done]. destruct (rd p IP_VER_IHL_OFF 1) as [vi|]; [|done].
  cbn -[Z.land rd from_be16] in Hk |- *. destruct (of_le vi .& 15 =? 5).
  - rewrite andb_true_r in Hk. destruct (is_l4 (of_le pr)) eqn:E4.
    + destruct (rd p L4_OFF 2) as [sp|] eqn:Esp; [|done]. cbn -[Z.land rd from_be16] in Hk.
      destruct (rd p (L4_OFF + 2) 2) as [dp|] eqn:Edp; [|done]. injection Hk as <-. cbn -[rd from_be16].
      by rewrite (from_be16_word p _ _ Hb Esp), (from_be16_word p _ _ Hb Edp).
    + injection Hk as <-. cbn -[rd from_be16]. unfold is_l4 in E4. apply orb_false_iff in E4 as [E6 E17].
      unfold IPPROTO_TCP, IPPROTO_UDP in *. by rewrite E6, E17.
  - rewrite andb_false_r in Hk. by injection Hk as <-.
Qed.

(** The flow a denied frame is shown as: the verdict, the direction, the
    addresses and ports in the frame, and for its source the identity the
    rules were matched against where the index knows no better. *)
Definition shows (p src dst : bytes) (audit : bool) (peer_identity : Z) (index : IpIndex) (node : string) (f : Flow) : Prop :=
  fl_verdict f = (if audit then V_AUDIT else V_DROPPED) ∧ fl_traffic_direction f = T_INGRESS ∧
  fl_ip f = Some (show_ipv4 src, show_ipv4 dst) ∧ fl_l4 f = frame_l4 p ∧ fl_type f = FT_L3L4 ∧ fl_node_name f = node ∧
  fl_source f = (if peer_identity =? 0 then endpoint_of src index else graft peer_identity (endpoint_of src index)) ∧
  fl_destination f = endpoint_of dst index.

(** Wherever the observer is asked for it, and [RING_CAP] flows have not come
    since, the flow is in the reply. *)
Definition observable (f : Flow) (st : Observer) : Prop :=
  ∀ later req, (length later < Z.to_nat RING_CAP)%nat → gf_number req = 0 → selects req f = true →
  (∀ heard, wrap_flow (ob_node_name st) f ∈ get_flows req (push_all later st) heard) ∧
  ∀ st0, gf_follow req = true → wrap_flow (ob_node_name st0) f ∈ get_flows req st0 (f :: later).

Lemma pushed_observable f st : (length (ob_flows st) ≤ Z.to_nat RING_CAP)%nat → observable f (push f st).
Proof.
  intros Hl later req Hlater Hn Hs. destruct (push_flows f st Hl) as (Ef & _ & En).
  destruct (push_all_flows later (push f st)) as (Ea & _ & Ena); [rewrite Ef; apply newest_length|].
  unfold get_flows. split.
  - intros heard. rewrite Ena. apply list_elem_of_fmap. exists f. split; [done|]. apply elem_of_app. left. rewrite replay_all by done.
    apply list_elem_of_filter. split; [by rewrite Hs|]. rewrite Ea, Ef, newest_add, <- app_assoc. cbn [app]. by apply stays.
  - intros st0 ->. apply list_elem_of_fmap. exists f. split; [done|]. apply elem_of_app. right.
    apply list_elem_of_filter. split; [by rewrite Hs|by left].
Qed.

Section observed.
Context `{KernelLaws} `{FibMaps} `{PolicyMaps}.

(** C14: what the enforcement point denies is what the observer shows.  An
    IPv4 frame with the fields the rules are matched on that reaches an
    endpoint with a policy leaves a flow record exactly when the rules deny it
    and the ring buffer has room: it is dropped, or forwarded in audit mode.
    Drained by the exporter, the record becomes a flow with the verdict
    DROPPED (or AUDIT), the frame's own addresses and ports and, as its
    source, the identity of the sender's address in the endpoint's VRF, which
    is the one the rules were matched against ([denies4]); every request that
    selects it is answered with it until as many flows as the ring holds have
    come since, and every follower is sent it. *)
Theorem denied_flow_observed ifindex fl w src dst k : Forall is_byte (pkt w) →
  rd (pkt w) ETH_TYPE_OFF 2 = Some (to_be 2 ETH_P_IP) → rd (pkt w) IP_SRC_OFF 4 = Some src → rd (pkt w) IP_DST_OFF 4 = Some dst →
  flow4 (pkt w) = Some k → EP_POLICY !! ifindex = Some fl →
  let denied := has fl EP_F_INGRESS = true ∧ denies4 w ifindex (dir_gen fl POLICY_DIR_INGRESS) (port_vrf ifindex) in
  let audit := has fl EP_F_AUDIT in
  ∃ w' act, ingress_policy ifindex w = (w', Ok act) ∧
    (¬ denied → act = TC_ACT_PIPE ∧ FLOWS w' = FLOWS w) ∧
    (denied → act = (if audit then TC_ACT_PIPE else TC_ACT_SHOT) ∧
      if ring_reserve (ticks w) then
       ∃ rec, FLOWS w' = FLOWS w ++ [rec] ∧
         ∀ now index st, (length (ob_flows st) ≤ Z.to_nat RING_CAP)%nat →
           ∃ f, shows (pkt w) src dst audit (identity4 (port_vrf ifindex) (ct_src k)) index (ob_node_name st) f ∧ fl_time f = Some now ∧
                observable f (drain index [(now, rec)] st)
      else FLOWS w' = FLOWS w).
Proof.
  intros Hb Hty Hs Hd Hk Hfl denied audit.
  destruct (policed_record ifindex fl w src dst k Hty Hs Hd Hk Hfl) as (w' & act & E & Hden & Hadm). exists w', act.
  split; [done|]. split; [exact Hadm|]. intros Hdn. destruct (Hden Hdn) as [Hact Hrec]. split; [done|]. destruct (ring_reserve (ticks w)); [|done].
  destruct Hrec as [t Hrec]. eexists. split; [exact Hrec|]. intros now index st Hl. set (rec := mkFlowRecord _ _ _ _ _ _ _ _ _ _).
  exists (build_flow now rec index (ob_node_name st)). split; [|split; [done|by apply pushed_observable]].
  fold audit in rec. split_and!; try done.
  - cbn. by destruct audit.
  - by apply (frame_l4_recorded _ k).
  - cbn. by destruct (identity4 _ _ =? 0).
  - cbn. by destruct (identity4 _ _ =? 0).
Qed.
End observed.

(** A filter whose fields are all of those the exporter does not support
    matches every flow. *)
Lemma unsupported_filter_matches f : filter_matches f (mkFlowFilter [] [] [] [] [] [] [] [] [] [] []) = true.
Proof. unfold filter_matches. by destruct (default _ _). Qed.

(** ** A witness *)

#[local] Existing Instance PolicyProps.ex_fib.
#[local] Existing Instance PolicyProps.ex_policy.

(** The denied TCP packet from 10.0.0.2 to 10.0.0.3:80, of identity 5. *)
Lemma denied_flow_observed_witness :
  let w := world_of tcp_fwd in
  (ingress_policy 7 w).2 = Ok TC_ACT_SHOT ∧
  ∃ rec, FLOWS (ingress_policy 7 w).1 = [rec] ∧
    ∀ now index st, (length (ob_flows st) ≤ Z.to_nat RING_CAP)%nat →
      ∃ f, shows tcp_fwd [10; 0; 0; 2] [10; 0; 0; 3] false 5 index (ob_node_name st) f ∧ fl_time f = Some now ∧
           observable f (drain index [(now, rec)] st).
Proof.
  cbn zeta. set (w := world_of tcp_fwd). assert ((ingress_policy 7 w).2 = Ok TC_ACT_SHOT) as Hshot by (vm_compute; reflexivity).
  assert (identity4 (port_vrf 7) (of_le [10; 0; 0; 2]) = 5) as Hid by (vm_compute; reflexivity).
  assert (FLOWS (ingress_policy 7 w).1 ≠ []) as Hfl by (vm_compute; done).
  split; [exact Hshot|].
  assert (has EP_F_INGRESS EP_F_INGRESS = true ∧ denies4 w 7 (dir_gen EP_F_INGRESS POLICY_DIR_INGRESS) (port_vrf 7)) as Hden.
  { destruct (ingress_policy_run 7 w [8; 0]) as (w' & act & E & _ & _ & _ & Hs); [vm_compute; reflexivity|].
    rewrite E in Hshot. cbn in Hshot. injection Hshot as ->. destruct (proj1 Hs eq_refl) as (fl & Hf & _ & _ & [[_ Hd]|[Hty _]]); [|done].
    change (EP_POLICY !! 7) with (Some EP_F_INGRESS) in Hf. injection Hf as <-. by split. }
  destruct (denied_flow_observed 7 EP_F_INGRESS w [10; 0; 0; 2] [10; 0; 0; 3]
    (mkCtKey (of_le [10; 0; 0; 2]) (of_le [10; 0; 0; 3]) (of_le [18; 52]) (of_le [0; 80]) 6)) as (w' & act & E & _ & Hd);
    [repeat (constructor; [done|]); constructor|vm_compute; reflexivity..|].
  rewrite E in Hfl |- *. destruct (Hd Hden) as (_ & rec & Hrec & Hobs).
  exists rec. split; [exact Hrec|]. cbn [ct_src] in Hobs. rewrite Hid in Hobs. exact Hobs.
Defined.
