(* ===== verification/CniPlugin.v ===== *)
(** * The CNI plugin ([crates/cradle-cni/src/main.rs])

    The program the container runtime runs to attach a pod: it asks the
    daemon for an address, builds the pod's interface with [ip], and hands
    the host end to the daemon.  [ip], the files under [/sys] and the
    environment are parameters ([IpTool]); the calls are the daemon's
    handlers ([Grpc]), on whose host the plugin runs.  [up] says whether the
    daemon can be reached. *)

From S2P Require Import Prelude.
From S2P Require Import Bpf.
From S2P Require Import MapRefs.
From S2P Require Import Cni.
From S2P Require Import Text.
From S2P Require Import L7.
From S2P Require Import Control.
From S2P Require Import IpText.
From S2P Require Import Pb.
From S2P Require Import Grpc.

Definition POD_GW : string := "169.254.1.1".
Definition POD_GW6 : string := "fe80::1".

Definition ERR_UNSUPPORTED_FIELD : Z := 2.
Definition ERR_BAD_ENV : Z := 4.
Definition ERR_DECODE : Z := 6.
Definition ERR_BAD_CONFIG : Z := 7.
Definition ERR_TRANSIENT : Z := 11.
Definition ERR_PLUGIN_NOT_AVAILABLE : Z := 50.
Definition ERR_INTERNAL : Z := 100.

(** ** The input *)

Record PortMapping := mkPortMapping { pm_host_port : Z; pm_container_port : Z; pm_protocol : string }.
Record Attachment := mkAttachment { at_container_id : string; at_ifname : string }.
Record IpamConf := mkIpamConf { ic_subnet : string; ic_subnet6 : string }.
(** The fields the plugin reads; their defaults are [serde]'s. *)
Record NetConf := mkNetConf {
  nc_cni_version : string; nc_ipam : IpamConf; nc_vrf : Z; nc_chained : bool; nc_node_ip : string;
  nc_port_mappings : list PortMapping; nc_valid_attachments : list Attachment }.

Record CniEnv := mkCniEnv {
  ce_container_id : string; ce_netns : string; ce_ifname : string; ce_pod_name : string; ce_pod_namespace : string }.

(** Why an operation fails: a code of the specification, or an error without
    one, which is reported as [ERR_INTERNAL]. *)
Inductive PluginErr : Type := Coded (code : Z) | Uncoded.
Definition error_code (e : PluginErr) : Z := match e with Coded code => code | Uncoded => ERR_INTERNAL end.

(** The value of [key] in [KEY=VAL;KEY=VAL]. *)
Definition cni_arg (args key : string) : string :=
  default ""%string (first_some (λ '(k, v), if bool_decide (k = key) then Some v else None)
    (omap (split_once (Ascii.ascii_of_nat 61)) (split_char (Ascii.ascii_of_nat 59) args))).

Definition require_env (env : string → option string) (name : string) : res PluginErr string :=
  match env name with
  | Some v => if bool_decide (v = ""%string) then Err (Coded ERR_BAD_ENV) else Ok v
  | None => Err (Coded ERR_BAD_ENV)
  end.
Definition load_env (env : string → option string) (netns_required : bool) : res PluginErr CniEnv :=
  let args := default ""%string (env "CNI_ARGS"%string) in
  match require_env env "CNI_CONTAINERID" with
  | Err e => Err e
  | Ok container_id =>
  match (if netns_required then require_env env "CNI_NETNS" else Ok (default ""%string (env "CNI_NETNS"%string))) with
  | Err e => Err e
  | Ok netns =>
  match require_env env "CNI_IFNAME" with
  | Err e => Err e
  | Ok ifname =>
      Ok (mkCniEnv container_id netns ifname (cni_arg args "K8S_POD_NAME") (cni_arg args "K8S_POD_NAMESPACE"))
  end end end.

(** ** Names *)

(** [{:010x}] of the low 40 bits *)
Definition hex10 (n : Z) : string :=
  String.concat "" ((λ i, String (digit_char ((n ≫ (4 * i)) .& 15)) EmptyString) <$> [9; 8; 7; 6; 5; 4; 3; 2; 1; 0]).
Definition host_ifname (container_id ifname : string) : string := "crdl" +:+ hex10 (fnv1a64 (owner_key container_id ifname)).
Definition tmp_ifname (host_if : string) : string := "tmp" +:+ hex10 (fnv1a64 host_if).

Definition netns_name (path : string) : option string :=
  first_some (λ prefix,
    match strip_prefix prefix path with
    | Some name => if is_set name && negb (contains "/" name) then Some name else None
    | None => None
    end) ["/var/run/netns/"; "/run/netns/"]%string.

(** The token after [link/ether]. *)
Fixpoint after_ether (tokens : list string) : option string :=
  match tokens with
  | [] => None
  | tok :: tokens =>
      if bool_decide (tok = "link/ether"%string) then match tokens with mac :: _ => Some mac | [] => None end
      else after_ether tokens
  end.

(** A stable number for a host port, not zero. *)
Definition hostport_svc_id (node_ip : string) (host_port : Z) (proto : string) : Z :=
  Z.max (wrap 32 (fnv1a64 (node_ip +:+ ":" +:+ show_number 10 10 host_port +:+ "/" +:+ proto))) 1.

Example host_ifname_length : String.length (host_ifname "abc" "eth0") = 14%nat.
Proof. vm_compute. reflexivity. Qed.

(** ** The host *)

(** [ip_run]: the namespaces after [ip args] and whether it succeeded;
    [ip_stdout]: what a query prints; the rest reads [/sys/class/net]. *)
Class IpTool `{HostOps} := {
  ip_run : list string → Host → Host * bool;
  ip_stdout : list string → Host → option string;
  sys_address : string → Host → option string;
  sys_exists : string → Host → bool;
}.

(** What ADD prints. *)
Record PodIface := mkPodIface { if_name : string; if_mac : string; if_sandbox : option string }.
Record AddResult := mkAddResult {
  ar_cni_version : string; ar_interfaces : list PodIface; ar_ips : list (string * string); ar_routes : list (string * string) }.

(** What the plugin prints on success. *)
Inductive Reply : Type := Versions (version : string) (supported : list string) | Added (r : AddResult) | Nothing.

Section plugin.
Context `{HostOps} `{Regex} `{MapSys} `{!IpTool}.

Abbreviation Plugin := (M Control PluginErr).

Definition ip (args : list string) : Plugin unit := λ c,
  let '(h, ok) := ip_run args (c_host c) in (set_c_host h c, if ok then Ok tt else Err Uncoded).
Definition ip_quietly (args : list string) : Plugin unit := λ c, (set_c_host (ip_run args (c_host c)).1 c, Ok tt).
(** A call of the daemon, [code] on failure. *)
Definition coded {A} (code : Z) (m : M Control Status A) : Plugin A := λ c,
  let '(c, r) := m c in (c, match r with Ok a => Ok a | Err _ => Err (Coded code) end).
Definition best_effort {A} (m : M Control Status A) : Plugin unit := λ c, ((m c).1, Ok tt).

Definition client (up : bool) : Plugin unit := if up then mret tt else bail (Coded ERR_TRANSIENT).

Definition mac_in_ns (ns ifname : string) : Plugin string :=
  c ← get;
  text ← of_option Uncoded (ip_stdout ["-n"; ns; "-o"; "link"; "show"; ifname]%string (c_host c));
  of_option Uncoded (after_ether (split_whitespace text)).
Definition host_mac (ifname : string) : Plugin string :=
  c ← get; text ← of_option Uncoded (sys_address ifname (c_host c)); mret (trim text).

Definition del_host_link (env : CniEnv) : Plugin unit :=
  ip_quietly ["link"; "del"; host_ifname (ce_container_id env) (ce_ifname env)]%string.

(** ** ADD *)

(** The veth pair: the peer moves into the pod's namespace under its name. *)
Definition make_veth (env : CniEnv) (ns host_if : string) : Plugin unit :=
  let tmp := tmp_ifname host_if in
  _ ← ip_quietly ["link"; "del"; host_if]%string;
  _ ← ip ["link"; "add"; host_if; "type"; "veth"; "peer"; "name"; tmp]%string;
  _ ← ip ["link"; "set"; tmp; "netns"; ns; "name"; ce_ifname env]%string;
  ip ["link"; "set"; host_if; "up"]%string.

(** Address, the route to the gateway, the default route. *)
Definition pod_net (env : CniEnv) (ns pod_addr : string) : Plugin unit :=
  let ifname := ce_ifname env in
  _ ← ip ["-n"; ns; "link"; "set"; "lo"; "up"]%string;
  _ ← ip ["-n"; ns; "addr"; "add"; pod_addr; "dev"; ifname]%string;
  _ ← ip ["-n"; ns; "link"; "set"; ifname; "up"]%string;
  _ ← ip ["-n"; ns; "route"; "add"; POD_GW +:+ "/32"; "dev"; ifname; "scope"; "link"]%string;
  ip ["-n"; ns; "route"; "add"; "default"; "via"; POD_GW; "dev"; ifname]%string.
Definition pod_neigh (env : CniEnv) (ns gw mac : string) : Plugin unit :=
  ip ["-n"; ns; "neigh"; "replace"; gw; "lladdr"; mac; "dev"; ce_ifname env; "nud"; "permanent"]%string.
Definition pod_net6 (env : CniEnv) (ns addr6 mac : string) : Plugin unit :=
  let ifname := ce_ifname env in
  _ ← ip ["-n"; ns; "addr"; "add"; addr6; "dev"; ifname; "nodad"]%string;
  _ ← ip ["-n"; ns; "route"; "add"; POD_GW6; "dev"; ifname]%string;
  _ ← ip ["-n"; ns; "route"; "add"; "default"; "via"; POD_GW6; "dev"; ifname]%string;
  pod_neigh env ns POD_GW6 mac.

Definition hostport_service (conf : NetConf) (pod_ip : bytes) (pm : PortMapping) : pb_Service :=
  mk_pb_Service (hostport_svc_id (nc_node_ip conf) (pm_host_port pm) (pm_protocol pm)) (nc_node_ip conf) (pm_host_port pm)
    (to_lowercase (pm_protocol pm)) [mk_pb_Backend (show_ipv4 pod_ip) (pm_container_port pm)] false.
Definition each_mapping (f : PortMapping → Plugin unit) (conf : NetConf) : Plugin unit :=
  if is_set (nc_node_ip conf) then mfold (λ _ pm, f pm) (nc_port_mappings conf) tt else mret tt.
Definition program_host_ports (conf : NetConf) (pod_ip : bytes) : Plugin unit :=
  each_mapping (λ pm, coded ERR_INTERNAL (rpc_add_service (hostport_service conf pod_ip pm))) conf.
Definition remove_host_ports (conf : NetConf) : Plugin unit :=
  each_mapping (λ pm, best_effort (rpc_del_service (mk_pb_ServiceDel (nc_node_ip conf) (pm_host_port pm)
    (to_lowercase (pm_protocol pm))))) conf.

Definition endpoint_msg (env : CniEnv) (conf : NetConf) (pod_ip : bytes) (pod_ip6 : option bytes) : pb_CniEndpoint :=
  mk_pb_CniEndpoint (ce_container_id env) (ce_ifname env) (ce_netns env) (host_ifname (ce_container_id env) (ce_ifname env))
    (show_ipv4 pod_ip) (nc_vrf conf) 0 (ce_pod_name env) (ce_pod_namespace env) 0
    (from_option show_ipv6 "" pod_ip6) (nc_chained conf).

Definition add_result (env : CniEnv) (conf : NetConf) (host_mac pod_mac pod_addr : string) (pod_addr6 : option string) : AddResult :=
  mkAddResult (nc_cni_version conf)
    [mkPodIface (host_ifname (ce_container_id env) (ce_ifname env)) host_mac None;
     mkPodIface (ce_ifname env) pod_mac (Some (ce_netns env))]
    ((pod_addr, POD_GW) :: from_option (λ a, [(a, POD_GW6)]) [] pod_addr6)
    (("0.0.0.0/0"%string, POD_GW) :: from_option (λ _, [("::/0"%string, POD_GW6)]) [] pod_addr6).

Definition plumb (env : CniEnv) (conf : NetConf) (ns : string) (pod_ip : bytes) (pod_ip6 : option bytes) : Plugin AddResult :=
  let host_if := host_ifname (ce_container_id env) (ce_ifname env) in
  let pod_addr := show_ipv4 pod_ip +:+ "/32" in
  let pod_addr6 := (λ a, show_ipv6 a +:+ "/128") <$> pod_ip6 in
  _ ← make_veth env ns host_if;
  _ ← pod_net env ns pod_addr;
  mac ← host_mac host_if;
  _ ← pod_neigh env ns POD_GW mac;
  _ ← (match pod_addr6 with Some addr6 => pod_net6 env ns addr6 mac | None => mret tt end);
  _ ← coded ERR_INTERNAL (rpc_create_endpoint (endpoint_msg env conf pod_ip pod_ip6));
  _ ← program_host_ports conf pod_ip;
  pod_mac ← mac_in_ns ns (ce_ifname env);
  mret (add_result env conf mac pod_mac pod_addr pod_addr6).

(** On an error the undoing runs, and the error stays. *)
Definition or_undo {A} (m : Plugin A) (undo : Plugin unit) : Plugin A := λ c,
  match m c with (c, Ok a) => (c, Ok a) | (c, Err e) => ((undo c).1, Err e) end.

(** On failure the link and the address are given back. *)
Definition cmd_add (up : bool) (env : CniEnv) (conf : NetConf) : Plugin AddResult :=
  if negb (is_set (ic_subnet (nc_ipam conf))) then bail (Coded ERR_BAD_CONFIG) else
  ns ← of_option (Coded ERR_UNSUPPORTED_FIELD) (netns_name (ce_netns env));
  let owner := owner_key (ce_container_id env) (ce_ifname env) in
  _ ← client up;
  reply ← coded ERR_INTERNAL (rpc_alloc_ip (mk_pb_AllocIpRequest (ic_subnet (nc_ipam conf)) owner (ic_subnet6 (nc_ipam conf))));
  pod_ip ← of_option (Coded ERR_INTERNAL) (parse_ipv4 (AllocIpReply_ip reply));
  pod_ip6 ← of_option (Coded ERR_INTERNAL) (opt_str parse_ipv6 (AllocIpReply_ip6 reply));
  or_undo (plumb env conf ns pod_ip pod_ip6)
    (_ ← del_host_link env; best_effort (rpc_release_ip (mk_pb_ReleaseIpRequest owner (show_ipv4 pod_ip)))).

(** ** The other operations *)

Definition cmd_del (up : bool) (env : CniEnv) (conf : NetConf) : Plugin unit :=
  _ ← (if up then
         _ ← best_effort (rpc_delete_endpoint (mk_pb_CniEndpointKey (ce_container_id env) (ce_ifname env)));
         remove_host_ports conf
       else mret tt);
  del_host_link env.

Definition cmd_check (up : bool) (env : CniEnv) : Plugin unit :=
  _ ← client up;
  endpoints ← coded ERR_INTERNAL rpc_list_endpoints;
  ep ← of_option (Coded ERR_INTERNAL) (first_some (λ e,
         if bool_decide (CniEndpoint_container_id e = ce_container_id env) && bool_decide (CniEndpoint_ifname e = ce_ifname env)
         then Some e else None) endpoints);
  c ← get;
  if sys_exists (CniEndpoint_host_if ep) (c_host c) then mret tt else bail (Coded ERR_INTERNAL).

Definition cmd_status (up : bool) : Plugin unit :=
  _ ← (if up then mret tt else bail (Coded ERR_PLUGIN_NOT_AVAILABLE));
  _ ← coded ERR_PLUGIN_NOT_AVAILABLE rpc_get_stats; mret tt.

Definition still_valid (conf : NetConf) (ep : pb_CniEndpoint) : bool :=
  existsb (λ a, bool_decide (at_container_id a = CniEndpoint_container_id ep) &&
                (bool_decide (at_ifname a = ""%string) || bool_decide (at_ifname a = CniEndpoint_ifname ep)))
    (nc_valid_attachments conf).
Definition gc_endpoint (conf : NetConf) (ep : pb_CniEndpoint) : Plugin unit :=
  if still_valid conf ep then mret tt else
  _ ← best_effort (rpc_delete_endpoint (mk_pb_CniEndpointKey (CniEndpoint_container_id ep) (CniEndpoint_ifname ep)));
  ip_quietly ["link"; "del"; CniEndpoint_host_if ep]%string.
Definition cmd_gc (up : bool) (conf : NetConf) : Plugin unit :=
  _ ← client up;
  endpoints ← coded ERR_INTERNAL rpc_list_endpoints;
  mfold (λ _ ep, gc_endpoint conf ep) endpoints tt.

(** [conf]: the configuration, when it can be read; [version]: its
    [cniVersion], when it has one. *)
Definition run (up : bool) (env : string → option string) (command : string) (conf : option NetConf) (version : option string)
    : Plugin Reply :=
  let parse_conf := of_option (Coded ERR_DECODE) conf in
  let load netns : Plugin CniEnv := λ c, (c, load_env env netns) in
  if bool_decide (command = "VERSION"%string) then mret (Versions (default "1.1.0"%string version) ["1.0.0"; "1.1.0"]%string)
  else if bool_decide (command = "ADD"%string) then
    conf ← parse_conf; env ← load true; r ← cmd_add up env conf; mret (Added r)
  else if bool_decide (command = "DEL"%string) then
    conf ← parse_conf; env ← load false; _ ← cmd_del up env conf; mret Nothing
  else if bool_decide (command = "CHECK"%string) then
    conf ← parse_conf; env ← load true; _ ← cmd_check up env; mret Nothing
  else if bool_decide (command = "STATUS"%string) then conf ← parse_conf; _ ← cmd_status up; mret Nothing
  else if bool_decide (command = "GC"%string) then conf ← parse_conf; _ ← cmd_gc up conf; mret Nothing
  else bail (Coded ERR_BAD_ENV).
End plugin.

(** What is printed: the reply, or an error object with the specification's
    version and a code; the exit status tells them apart. *)
Definition report (version : option string) (r : res PluginErr Reply) : Reply + (string * Z) :=
  match r with
  | Ok reply => inl reply
  | Err e => inr (default "1.1.0"%string version, error_code e)
  end.

(** ** Reaching the daemon *)

Definition default_grpc_endpoint : string := "unix:/run/cradle/cradle.sock".

Inductive Dial : Type := DialAbstract (name : string) | DialUri (uri : string).
Definition dial (ep : string) : Dial :=
  match strip_prefix "unix:" ep with
  | Some name =>
      if starts_with "/" name then DialUri ep else DialAbstract (trim_start_matches (String.length name) "@" name)
  | None => DialUri ("http://" +:+ default ep (strip_prefix "tcp:" ep))
  end.
Example dial_default : dial default_grpc_endpoint = DialUri "unix:/run/cradle/cradle.sock".
Proof. reflexivity. Qed.
