(* ===== verification/Cilium.v ===== *)
(** * The Cilium agent API ([crates/cradle/src/cilium.rs])

    The requests the stock [cilium-cni] plugin makes of its agent, answered
    from the CNI operations of [Pods].  A response is a status and a body,
    whose text is left out ([None]) where it is an error's.  The JSON of a
    request body is read by [serde]: the two readers are parameters.  The
    HTTP server (hyper) hands over method, path, query and body. *)

From S2P Require Import Prelude.
From S2P Require Import Bpf.
From S2P Require Import MapRefs.
From S2P Require Import Cni.
From S2P Require Import Text.
From S2P Require Import L7.
From S2P Require Import Control.
From S2P Require Import Pods.
From S2P Require Import IpText.
From S2P Require Import Pb.
From S2P Require Import CniPlugin.

(** ** Percent-encoding *)

Definition amp : Ascii.ascii := Ascii.ascii_of_nat 38.
Definition equals_sign : Ascii.ascii := Ascii.ascii_of_nat 61.
Definition percent : Ascii.ascii := Ascii.ascii_of_nat 37.
Definition byte_char (b : Z) : Ascii.ascii := Ascii.ascii_of_N (Z.to_N b).
Definition char_byte (a : Ascii.ascii) : Z := Z.of_N (Ascii.N_of_ascii a).

(** An escape needs two digits after it; another [%] stands for itself. *)
Fixpoint pct_bytes (s : string) : string :=
  match s with
  | EmptyString => EmptyString
  | String a s1 =>
      match s1 with
      | String h (String l s2) =>
          if bool_decide (a = percent) then
            match digit 16 h, digit 16 l with
            | Some h, Some l => String (byte_char (h * 16 + l)) (pct_bytes s2)
            | _, _ => String a (pct_bytes s1)
            end
          else String a (pct_bytes s1)
      | _ => String a (pct_bytes s1)
      end
  end.

(** [String::from_utf8_lossy]: the continuation bytes the first byte of a
    sequence asks for, by the range each must lie in. *)
Definition utf8_follow (b : Z) : option (list (Z * Z)) :=
  let cont := (0x80, 0xbf) in
  if b <? 0x80 then Some []
  else if (0xc2 <=? b) && (b <=? 0xdf) then Some [cont]
  else if b =? 0xe0 then Some [(0xa0, 0xbf); cont]
  else if b =? 0xed then Some [(0x80, 0x9f); cont]
  else if (0xe1 <=? b) && (b <=? 0xef) then Some [cont; cont]
  else if b =? 0xf0 then Some [(0x90, 0xbf); cont; cont]
  else if (0xf1 <=? b) && (b <=? 0xf3) then Some [cont; cont; cont]
  else if b =? 0xf4 then Some [(0x80, 0x8f); cont; cont]
  else None.
Definition replacement : string := String (byte_char 0xef) (String (byte_char 0xbf) (String (byte_char 0xbd) EmptyString)).

(** [pending]: the sequence begun, and what it still asks for.  A byte that
    does not fit closes it with a replacement and starts anew. *)
Fixpoint utf8_lossy (pending : option (string * list (Z * Z))) (s : string) : string :=
  match s with
  | EmptyString => match pending with Some _ => replacement | None => EmptyString end
  | String a s =>
      let start (out : string) := out +:+
        match utf8_follow (char_byte a) with
        | Some [] => String a (utf8_lossy None s)
        | Some want => utf8_lossy (Some (String a EmptyString, want)) s
        | None => replacement +:+ utf8_lossy None s
        end in
      match pending with
      | Some (seq, (lo, hi) :: want) =>
          if (lo <=? char_byte a) && (char_byte a <=? hi) then
            let seq := seq +:+ String a EmptyString in
            match want with [] => seq +:+ utf8_lossy None s | _ => utf8_lossy (Some (seq, want)) s end
          else start replacement
      | _ => start EmptyString
      end
  end.

Definition pct_decode (s : string) : string := utf8_lossy None (pct_bytes s).
Definition query_param (query : option string) (name : string) : option string :=
  first_some (λ pair,
    let '(k, v) := default (pair, ""%string) (split_once equals_sign pair) in
    if bool_decide (k = name) then Some (pct_decode v) else None) (split_char amp (default ""%string query)).

Example pct_decode_path : pct_decode "a%3A%2f%zz%4" = "a:/%zz%4"%string.
Proof. reflexivity. Qed.

(** ** Messages *)

(** The fields the shim reads; their defaults are [serde]'s. *)
Record EndpointChangeRequest := mkEndpointChangeRequest {
  ecr_container_id : string; ecr_container_ifname : string; ecr_interface_name : string; ecr_netns_path : string;
  ecr_host_mac : string; ecr_addressing : option string; ecr_k8s_namespace : string; ecr_k8s_pod_name : string }.

Abbreviation Response := (Z * option Json)%type.
Definition S_OK : Z := 200.
Definition S_CREATED : Z := 201.
Definition S_BAD_REQUEST : Z := 400.
Definition S_NOT_FOUND : Z := 404.
Definition S_INTERNAL : Z := 500.
Definition S_BAD_GATEWAY : Z := 502.

Definition host_addressing (pod_cidr : string) : Json :=
  JObj [("ipv4"%string, JObj [("enabled"%string, JBool true); ("ip"%string, JStr POD_GW); ("alloc-range"%string, JStr pod_cidr)]);
        ("ipv6"%string, JObj [("enabled"%string, JBool false)])].
Definition healthz : Response := (S_OK, Some (JObj [])).
Definition config (pod_cidr : string) : Response :=
  (S_OK, Some (JObj [("spec"%string, JObj []);
     ("status"%string, JObj [("datapathMode"%string, JStr "veth"); ("ipam-mode"%string, JStr "cluster-pool");
        ("deviceMTU"%string, JNum 1500); ("routeMTU"%string, JNum 1500); ("addressing"%string, host_addressing pod_cidr);
        ("realized"%string, JObj [])])])).

Inductive Method : Type := GET | POST | PUT | DELETE | OtherMethod.
#[global] Instance Method_eq_dec : EqDecision Method.
Proof. solve_decision. Defined.

Definition last_segment (p : string) : string := default ""%string (last (split_char slash p)).
(** One of the two paths a route is known under. *)
Definition is_path (p path : string) : bool := bool_decide (path = p) || bool_decide (path = ("/v1" +:+ p)%string).
Definition under_path (p path : string) : bool := starts_with p path || starts_with ("/v1" +:+ p) path.

Section api.
Context `{HostOps} `{Regex} `{MapSys} `{!IpTool}.
Variables (read_create : string → option EndpointChangeRequest) (read_delete : string → option string).
Variable pod_cidr : string.

Abbreviation Api := (M Control unit).
Definition ctl_call {A} (m : Ctrl A) : Api A := λ c,
  let '(c, r) := m c in (c, match r with Ok a => Ok a | Err _ => Err tt end).

Definition ipam_allocate (query : option string) : Api Response :=
  let owner := default "cilium"%string (query_param query "owner") in
  if bool_decide (query_param query "family" = Some "ipv6"%string) then
    mret (S_BAD_GATEWAY, Some (JStr "IPv6 allocation not supported"))
  else
    '(net, len) ← of_option tt (parse_ipv4_prefix pod_cidr);
    '(ip, _) ← ctl_call (cni_alloc_ip (of_be net, len) owner);
    let text := show_ipv4 (ip4 ip) in
    mret (S_CREATED, Some (JObj [("address"%string, JObj [("ipv4"%string, JStr text)]);
      ("host-addressing"%string, host_addressing pod_cidr);
      ("ipv4"%string, JObj [("ip"%string, JStr text); ("cidrs"%string, JArr [JStr pod_cidr]); ("gateway"%string, JStr POD_GW)])])).

Definition ipam_release (ip : string) : Api Response :=
  ip ← of_option tt (parse_ipv4 ip);
  _ ← ctl_call (cni_release_ip "" (Some (of_be ip)) None);
  mret (S_OK, Some (JObj [])).

Definition run_ip (args : list string) : Api unit := λ c,
  let '(h, ok) := ip_run args (c_host c) in (set_c_host h c, if ok then Ok tt else Err tt).

(** The gateway's neighbor entry in the pod's namespace. *)
Definition pod_gateway_neigh (ecr : EndpointChangeRequest) (ifname : string) : Api unit :=
  let ns := last_segment (ecr_netns_path ecr) in
  if negb (is_set ns) then bail tt else
  mac ← (if is_set (ecr_host_mac ecr) then mret (ecr_host_mac ecr)
         else c ← get; text ← of_option tt (sys_address (ecr_interface_name ecr) (c_host c)); mret (trim text));
  run_ip ["-n"; ns; "neigh"; "replace"; POD_GW; "lladdr"; mac; "dev"; ifname; "nud"; "permanent"]%string.

Definition endpoint_create (body : string) : Api Response :=
  ecr ← of_option tt (read_create body);
  ip ← of_option tt (parse_ipv4 (default ""%string (ecr_addressing ecr)));
  if negb (is_set (ecr_container_id ecr)) || negb (is_set (ecr_interface_name ecr)) then bail tt else
  let ifname := if is_set (ecr_container_ifname ecr) then ecr_container_ifname ecr else "eth0"%string in
  _ ← ctl_call (cni_create_endpoint (ecr_container_id ecr) ifname (ecr_netns_path ecr) (ecr_interface_name ecr)
        (of_be ip) None 0 (ecr_k8s_pod_name ecr) (ecr_k8s_namespace ecr) false);
  done ← catch (pod_gateway_neigh ecr ifname);
  match done with
  | Some _ => mret (S_CREATED, Some (JObj []))
  | None => _ ← catch (ctl_call (cni_delete_endpoint (ecr_container_id ecr) ifname)); bail tt
  end.

Definition delete_attachment (ep : Endpoint) : Api unit :=
  _ ← ctl_call (cni_delete_endpoint (ep_container_id ep) (ep_ifname ep));
  modify (λ c, set_c_host (del_link (ep_host_if ep) (c_host c)).1 c).
Definition endpoint_delete_batch (body : string) : Api Response :=
  container_id ← of_option tt (read_delete body);
  endpoints ← ctl_call (on_cni list_endpoints);
  _ ← mfold (λ _ ep, delete_attachment ep) (filter (λ ep, ep_container_id ep = container_id) endpoints) tt;
  mret (S_OK, Some (JObj [])).

Definition trim_start_of (p s : string) : string := trim_start_matches (String.length s) p s.
Definition trim_end_of (p s : string) : string := trim_end_matches (String.length s) p s.
Definition attachment_id (path : string) : option (string * string) :=
  rest ← strip_prefix "cni-attachment-id:" (trim_end_of "/healthz" (trim_start_of "/endpoint/" (trim_start_of "/v1" path)));
  Some (default (rest, "eth0"%string) (rsplit_once colon rest)).
Definition endpoint_healthz (path : string) : Api Response :=
  match attachment_id path with
  | None => mret (S_NOT_FOUND, Some (JStr "unknown endpoint id"))
  | Some (cid, ifname) =>
      endpoints ← ctl_call (on_cni list_endpoints);
      if existsb (λ ep, bool_decide (ep_container_id ep = cid) && bool_decide (ep_ifname ep = ifname)) endpoints
      then mret (S_OK, Some (JObj [("overallHealth"%string, JStr "OK"); ("bpf"%string, JStr "OK"); ("policy"%string, JStr "OK");
                                   ("connected"%string, JBool true)]))
      else mret (S_NOT_FOUND, Some (JStr "endpoint not found"))
  end.

(** The routes, in the order they are tried. *)
Definition dispatch (method : Method) (path : string) (query : option string) (body : string) : Api Response :=
  let on m := bool_decide (method = m) in
  if on GET && is_path "/healthz" path then mret healthz
  else if on GET && is_path "/config" path then mret (config pod_cidr)
  else if on POST && is_path "/ipam" path then ipam_allocate query
  else if on PUT && under_path "/endpoint/" path then endpoint_create body
  else if on DELETE && is_path "/endpoint" path then endpoint_delete_batch body
  else if on GET && ends_with "/healthz" path && contains "/endpoint/" path then endpoint_healthz path
  else if on DELETE && under_path "/ipam/" path then ipam_release (last_segment path)
  else mret (S_NOT_FOUND, Some (JStr "not found")).

(** A body that cannot be read is refused; an error of a handler is 500. *)
Definition handle (method : Method) (raw_path : string) (query body : option string) : M Control False Response := λ c,
  match body with
  | None => (c, Ok (S_BAD_REQUEST, None))
  | Some body =>
      match dispatch method (pct_decode raw_path) query body c with
      | (c, Ok r) => (c, Ok r)
      | (c, Err _) => (c, Ok (S_INTERNAL, None))
      end
  end.
End api.
