(* ===== verification/CniAttach.v ===== *)
(** * Attaching and detaching a pod: the property

    What the operations of the CNI plugin leave in the daemon's store. *)

From S2P Require Import Prelude.
From S2P Require Import Bpf.
From S2P Require Import Frames.
From S2P Require Import MapRefs.
From S2P Require Import Dataplane.
From S2P Require Import DpPolicy.
From S2P Require Import Cni.
From S2P Require Import CniProps.
From S2P Require Import Text.
From S2P Require Import L7.
From S2P Require Import Control.
From S2P Require Import CtlRun.
From S2P Require Import Ports.
From S2P Require Import Overlay.
From S2P Require Import Pods.
From S2P Require Import HostRef.
From S2P Require Import IpText.
From S2P Require Import FibEngines.
From S2P Require Import Pb.
From S2P Require Import Grpc.
From S2P Require Import AgentRun.
From S2P Require Import CniPlugin.
From S2P Require Import Cilium.

Section store.
Context `{HostOps} `{Regex} `{MapSys} `{!IpTool}.

(** ** Runs seen from the store *)

(** The store is left alone. *)
Definition kept (c c' : Control) : Prop := c_cni c' = c_cni c.
#[local] Instance kept_preorder : PreOrder kept.
Proof. split; [by intros c|]. intros c1 c2 c3. unfold kept. congruence. Qed.

(** From the store [s], [m] succeeds with a store in [Q] or fails with one
    in [R]. *)
Definition leaves {E A} (s : Store) (m : M Control E A) (Q : A → Store → Prop) (R : Store → Prop) : Prop :=
  ∀ c, c_cni c = s → match m c with (c', Ok a) => Q a (c_cni c') | (c', Err _) => R (c_cni c') end.

Lemma leaves_kept {E A} s (m : M Control E A) Q R : moves kept m → (∀ a, Q a s) → R s → leaves s m Q R.
Proof. intros Hm HQ HR c <-. specialize (Hm c). unfold kept in Hm. by destruct (m c) as [c' [a|e]]; cbn in Hm; rewrite Hm. Qed.
Lemma leaves_impl {E A} s (m : M Control E A) Q R (Q' : A → Store → Prop) (R' : Store → Prop) :
  leaves s m Q R → (∀ a s', Q a s' → Q' a s') → (∀ s', R s' → R' s') → leaves s m Q' R'.
Proof. intros Hm HQ HR c Hc. specialize (Hm c Hc). destruct (m c) as [c' [a|e]]; auto. Qed.
Lemma leaves_bind {E A B} s (m : M Control E A) (f : A → M Control E B) Q' Q R R' :
  leaves s m Q' R' → (∀ s', R' s' → R s') → (∀ a s', Q' a s' → leaves s' (f a) Q R) → leaves s (m ≫= f) Q R.
Proof.
  intros Hm HR Ha c Hc. specialize (Hm c Hc). unfold mbind, M_bind. destruct (m c) as [c1 [a|e]]; [|by apply HR].
  by apply (Ha a (c_cni c1)).
Qed.
Lemma leaves_then {E A B} s (m : M Control E A) (f : A → M Control E B) Q (R : Store → Prop) :
  moves kept m → R s → (∀ a, leaves s (f a) Q R) → leaves s (m ≫= f) Q R.
Proof.
  intros Hm HR Hf. apply (leaves_bind s m f (λ _ s', s' = s) Q R (λ s', s' = s)); [by apply leaves_kept|by intros s' ->|].
  by intros a s' ->.
Qed.
Lemma leaves_ret {E A} s (a : A) (Q : A → Store → Prop) R : Q a s → leaves s (mret a : M Control E A) Q R.
Proof. by intros HQ c <-. Qed.
Lemma leaves_bail {E A} s (e : E) (Q : A → Store → Prop) (R : Store → Prop) : R s → leaves s (bail e : M Control E A) Q R.
Proof. by intros HR c <-. Qed.
Lemma leaves_option {E A B} s (e : E) (o : option A) (f : A → M Control E B) Q (R : Store → Prop) :
  R s → (∀ a, o = Some a → leaves s (f a) Q R) → leaves s (a ← of_option e o; f a) Q R.
Proof. intros HR Hf c Hc. destruct o as [a|]; [by apply Hf|]. rewrite <- Hc in HR. exact HR. Qed.
Lemma leaves_some {E A B} s (e : E) (a : A) (f : A → M Control E B) Q R :
  leaves s (f a) Q R → leaves s (a ← of_option e (Some a); f a) Q R.
Proof. done. Qed.
Lemma leaves_on_cni {A} s (m : Cni A) (Q : A → Store → Prop) (R : Store → Prop) :
  match m s with (s', Ok a) => Q a s' | (s', Err _) => R s' end → leaves s (on_cni m) Q R.
Proof. intros Hm c <-. unfold on_cni. destruct (m (c_cni c)) as [s' [a|e]]; by destruct c. Qed.
Lemma leaves_call {A} s (m : Ctrl A) Q R : leaves s m Q R → leaves s (call m) Q R.
Proof. intros Hm c Hc. specialize (Hm c Hc). unfold call. by destruct (m c) as [c' []]. Qed.
Lemma leaves_coded {A} s code (m : M Control Status A) Q R : leaves s m Q R → leaves s (coded code m) Q R.
Proof. intros Hm c Hc. specialize (Hm c Hc). unfold coded. by destruct (m c) as [c' []]. Qed.
Lemma leaves_best_effort {A} s (m : M Control Status A) P R : leaves s m (λ _, P) P → leaves s (best_effort m) (λ _, P) R.
Proof. intros Hm c Hc. specialize (Hm c Hc). unfold best_effort. by destruct (m c) as [c' []]. Qed.

(** ** What leaves the store alone *)

Lemma kept_on_dp {A} (m : Ctl A) : moves kept (on_dp m).
Proof. intros c. unfold on_dp. destruct (m (c_run c)) as [s r]. by destruct c. Qed.
Lemma kept_on_host f : moves kept (on_host f).
Proof. intros c. unfold on_host. destruct (f (c_host c)) as [h b]. by destruct c. Qed.
Lemma kept_modify {E} (f : Control → Control) : (∀ c, c_cni (f c) = c_cni c) → moves kept (modify f : M Control E unit).
Proof. intros Hf. by apply moves_modify. Qed.
Lemma kept_call {A} (m : Ctrl A) : moves kept m → moves kept (call m).
Proof. intros Hm c. specialize (Hm c). unfold call. by destruct (m c) as [c' []]. Qed.
Lemma kept_coded {A} code (m : M Control Status A) : moves kept m → moves kept (coded code m).
Proof. intros Hm c. specialize (Hm c). unfold coded. by destruct (m c) as [c' []]. Qed.
Lemma kept_best_effort {A} (m : M Control Status A) : moves kept m → moves kept (best_effort m).
Proof. intros Hm c. specialize (Hm c). unfold best_effort. done. Qed.
Lemma kept_ip args : moves kept (ip args).
Proof. intros c. unfold ip. destruct (ip_run args (c_host c)) as [h b]. by destruct c. Qed.
Lemma kept_ip_quietly args : moves kept (ip_quietly args).
Proof. intros c. by destruct c. Qed.
Lemma kept_mfold {E A} (f : A → M Control E unit) l : (∀ x, moves kept (f x)) → moves kept (mfold (λ _ x, f x) l tt).
Proof. apply moves_mfold, _. Qed.

Ltac keeps :=
  lazymatch goal with
  | |- moves kept (_ ≫= _) => apply moves_bind; [apply _|keeps|intros ?; keeps]
  | |- moves kept (mret _) => apply moves_ret, _
  | |- moves kept (bail _) => apply moves_bail, _
  | |- moves kept get => apply moves_get, _
  | |- moves kept (of_option _ _) => apply moves_of_option, _
  | |- moves kept (on_dp _) => apply kept_on_dp
  | |- moves kept (on_host _) => apply kept_on_host
  | |- moves kept (modify _) => apply kept_modify; intros ?; reflexivity
  | |- moves kept (call _) => apply kept_call; keeps
  | |- moves kept (coded _ _) => apply kept_coded; keeps
  | |- moves kept (best_effort _) => apply kept_best_effort; keeps
  | |- moves kept (ip _) => apply kept_ip
  | |- moves kept (ip_quietly _) => apply kept_ip_quietly
  | |- moves kept (mfold (λ _ x, _) _ tt) => apply kept_mfold; intros ?; keeps
  | |- moves kept (match ?x with _ => _ end) => destruct x; keeps
  | |- moves kept (let '(_, _) := ?x in _) => destruct x; keeps
  | |- moves kept ?m => let h := head_of m in unfold h; keeps
  end
with head_of m := lazymatch m with ?f _ => head_of f | ?f => f end.

(** ** Addresses *)

Lemma usable_range w net plen ip : 0 ≤ net < 2 ^ w → 0 ≤ plen < w → usable w net plen ip → 0 ≤ ip < 2 ^ w.
Proof.
  intros Hn Hp [E Hr]. pose proof (Z.pow_add_r 2 plen (w - plen) ltac:(lia) ltac:(lia)) as E2.
  replace (plen + (w - plen)) with w in E2 by lia.
  assert (0 < 2 ^ (w - plen)) as HP by (apply Z.pow_pos_nonneg; lia).
  assert (0 < 2 ^ plen) as HQ by (apply Z.pow_pos_nonneg; lia).
  set (P := 2 ^ (w - plen)) in *. set (Q := 2 ^ plen) in *. clearbody P Q.
  pose proof (Z.div_mod ip P ltac:(lia)). pose proof (Z.div_mod net P ltac:(lia)).
  pose proof (Z.mod_pos_bound net P HP). assert (0 ≤ net / P < Q) as Hq by (split; [apply Z.div_pos|apply Z.div_lt_upper_bound]; lia).
  rewrite E in *. nia.
Qed.

(** What an allocation with a working directory and a new owner does. *)
Lemma alloc_body_fresh w net plen owner m f s : 0 ≤ net < 2 ^ w → 0 ≤ plen < w → st_faults s = [] →
  (∀ a, m !! a ≠ Some owner) →
  match alloc_body w net plen owner m f s with
  | (s', Ok (ip, _)) => s' = f (<[ip := owner]> m) s ∧ m !! ip = None ∧ in_range w ip ∧ usable w net plen ip
  | (s', Err _) => s' = s
  end.
Proof.
  intros Hn Hp Hf Ho. unfold alloc_body. rewrite (proj2 (held_by_none owner m) Ho).
  destruct (vacancy _ _ _) as [ip|] eqn:Ev; [|done]. apply vacancy_some in Ev as (Hr & Hnone & _).
  rewrite pool_range in Hr by lia. unfold mbind, M_bind, write_store. rewrite Hf.
  split_and!; [done|done|by apply (usable_range w net plen)|done].
Qed.

(** ** The grant *)

Definition take4 (owner : string) (ip : Z) (s : Store) : Store :=
  set_ipam (mkIpamFile (<[ip := owner]> (allocations (st_ipam s))) (allocations6 (st_ipam s))) s.
Definition take6 (owner : string) (ip : Z) (s : Store) : Store :=
  set_ipam (mkIpamFile (allocations (st_ipam s)) (<[ip := owner]> (allocations6 (st_ipam s)))) s.
Definition grant (owner : string) (ip : Z) (ip6' : option Z) (s : Store) : Store :=
  from_option (take6 owner) id ip6' (take4 owner ip s).

(** The state directory works, and [owner] holds no address. *)
Definition newcomer (owner : string) (s : Store) : Prop :=
  st_faults s = [] ∧ (∀ a, allocations (st_ipam s) !! a ≠ Some owner) ∧ (∀ a, allocations6 (st_ipam s) !! a ≠ Some owner).
(** Addresses of the widths of their families that nobody holds. *)
Definition unheld (ip : Z) (ip6' : option Z) (s : Store) : Prop :=
  (allocations (st_ipam s) !! ip = None ∧ in_range 32 ip) ∧
  from_option (λ a, allocations6 (st_ipam s) !! a = None ∧ in_range 128 a) True ip6'.

(** Addresses of the pools named. *)
Definition in_pool (pool pool6 : string) (ip : Z) (ip6' : option Z) : Prop :=
  (∃ net len, parse_ipv4_prefix pool = Some (net, len) ∧ usable 32 (of_be net) len ip) ∧
  from_option (λ a, ∃ net len, parse_ipv6_prefix pool6 = Some (net, len) ∧ usable 128 (of_be net) len a) True ip6'.

Lemma alloc_ip_fresh net plen owner s : in_range 32 net → 0 ≤ plen → newcomer owner s →
  match alloc_ip (net, plen) owner s with
  | (s', Ok (ip, _)) => s' = take4 owner ip s ∧ allocations (st_ipam s) !! ip = None ∧ in_range 32 ip ∧ usable 32 net plen ip
  | (s', Err _) => s' = s
  end.
Proof.
  intros Hn Hp (Hf & Ho & _). unfold alloc_ip. destruct (Z.ltb_spec 30 plen); [done|].
  apply (alloc_body_fresh 32 net plen owner (allocations (st_ipam s)) (λ m, set_ipam (mkIpamFile m (allocations6 (st_ipam s)))));
    [exact Hn|lia|done..].
Qed.
Lemma alloc_ip6_fresh net plen owner s : in_range 128 net → 0 ≤ plen → st_faults s = [] →
  (∀ a, allocations6 (st_ipam s) !! a ≠ Some owner) →
  match alloc_ip6 (net, plen) owner s with
  | (s', Ok (ip, _)) => s' = take6 owner ip s ∧ allocations6 (st_ipam s) !! ip = None ∧ in_range 128 ip ∧ usable 128 net plen ip
  | (s', Err _) => s' = s
  end.
Proof.
  intros Hn Hp Hf Ho. unfold alloc_ip6. destruct (Z.ltb_spec 126 plen); [done|].
  apply (alloc_body_fresh 128 net plen owner (allocations6 (st_ipam s)) (λ m, set_ipam (mkIpamFile (allocations (st_ipam s)) m)));
    [exact Hn|lia|done..].
Qed.

(** The reply names the granted addresses. *)
Definition names (ip : Z) (ip6' : option Z) (reply : pb_AllocIpReply) : Prop :=
  AllocIpReply_ip reply = show_ipv4 (ip4 ip) ∧ AllocIpReply_ip6 reply = from_option (λ a, show_ipv6 (ip6 a)) "" ip6'.

Lemma call_alloc_ip s net plen owner : in_range 32 net → 0 ≤ plen → newcomer owner s →
  leaves s (call (cni_alloc_ip (net, plen) owner))
    (λ r s', s' = take4 owner r.1 s ∧ allocations (st_ipam s) !! r.1 = None ∧ in_range 32 r.1 ∧ usable 32 net plen r.1) (λ s', s' = s).
Proof.
  intros Hn Hp Hnew. apply leaves_call, leaves_on_cni. pose proof (alloc_ip_fresh net plen owner s Hn Hp Hnew) as Ha.
  by destruct (alloc_ip (net, plen) owner s) as [s' [[ip len]|e]].
Qed.
Lemma call_alloc_ip6 s net plen owner : in_range 128 net → 0 ≤ plen → st_faults s = [] →
  (∀ a, allocations6 (st_ipam s) !! a ≠ Some owner) →
  leaves s (call (cni_alloc_ip6 (net, plen) owner))
    (λ r s', s' = take6 owner r.1 s ∧ allocations6 (st_ipam s) !! r.1 = None ∧ in_range 128 r.1 ∧ usable 128 net plen r.1) (λ s', s' = s).
Proof.
  intros Hn Hp Hf Ho. apply leaves_call, leaves_on_cni. pose proof (alloc_ip6_fresh net plen owner s Hn Hp Hf Ho) as Ha.
  by destruct (alloc_ip6 (net, plen) owner s) as [s' [[ip len]|e]].
Qed.

Lemma rpc_alloc_ip_leaves s (r : pb_AllocIpRequest) (owner := AllocIpRequest_owner r)
    (pools := in_pool (AllocIpRequest_pool r) (AllocIpRequest_pool6 r)) : newcomer owner s →
  leaves s (rpc_alloc_ip r)
    (λ reply s', ∃ ip ip6', names ip ip6' reply ∧ unheld ip ip6' s ∧ pools ip ip6' ∧ s' = grant owner ip ip6' s ∧
                            (is_Some ip6' ↔ AllocIpRequest_pool6 r ≠ ""%string))
    (λ s', s' = s ∨ AllocIpRequest_pool6 r ≠ ""%string ∧ ∃ ip, unheld ip None s ∧ s' = take4 owner ip s).
Proof.
  intros Hnew. unfold rpc_alloc_ip. apply leaves_option; [by left|]. intros [net len] Hp.
  pose proof (parse_ipv4_prefix_wf _ _ _ Hp) as [[Hl Hb] Hlen].
  assert (in_range 32 (of_be net)) as Hnet by (pose proof (of_be_range net Hb); rewrite Hl in *; done).
  eapply leaves_bind; [apply (call_alloc_ip s (of_be net) len owner Hnet ltac:(lia) Hnew)|by left|].
  intros [ip plen] s' (-> & Hip & Hr & Huse). cbn [fst] in *.
  assert (unheld ip None s) as Hu by done. destruct Hnew as (Hf & _ & Ho6).
  assert (pools ip None) as Hin by (split; [by exists net, len|done]).
  eapply (leaves_bind _ _ _
    (λ t s', ∃ ip6', t.1 = from_option (λ a, show_ipv6 (ip6 a)) ""%string ip6' ∧ unheld ip ip6' s ∧ pools ip ip6' ∧
                     s' = grant owner ip ip6' s ∧ (is_Some ip6' ↔ AllocIpRequest_pool6 r ≠ ""%string))
    _ _ (λ s', AllocIpRequest_pool6 r ≠ ""%string ∧ s' = take4 owner ip s)).
  - unfold is_set. case_bool_decide as E6; cbn [negb].
    + apply leaves_ret. exists None. split_and!; [done..|]. rewrite E6. split; [by intros []|done].
    + apply leaves_option; [done|]. intros [net6 len6] Hp6. pose proof (parse_ipv6_prefix_wf _ _ _ Hp6) as [[Hl6 Hb6] Hlen6].
      assert (in_range 128 (of_be net6)) as Hnet6 by (pose proof (of_be_range net6 Hb6); rewrite Hl6 in *; done).
      eapply leaves_bind; [apply (call_alloc_ip6 (take4 owner ip s) (of_be net6) len6 owner Hnet6 ltac:(lia) Hf Ho6)|by intros s' ->|].
      intros [a plen6] s' (-> & Ha & Hra & Huse6). apply leaves_ret. exists (Some a). split_and!; [done..| |done|done].
      split; [by exists net, len|by exists net6, len6].
  - intros s' [H6 ->]. right. split; [done|]. by exists ip.
  - intros [text plen6] s' (ip6' & E & Hu6 & Hin6 & -> & H6). cbn in E. subst text. apply leaves_ret. by exists ip, ip6'.
Qed.

(** ** The record *)

Definition record_of (env : CniEnv) (conf : NetConf) (ip : Z) (ip6' : option Z) (ix : Z) : Endpoint :=
  mkEndpoint (ce_container_id env) (ce_ifname env) (ce_netns env) (host_ifname (ce_container_id env) (ce_ifname env)) ix ip ip6'
    (nc_vrf conf) (ce_pod_name env) (ce_pod_namespace env) (nc_chained conf).
Definition file_of (env : CniEnv) : Z := endpoint_path (ce_container_id env) (ce_ifname env).
Definition with_record (env : CniEnv) (ep : Endpoint) (s : Store) : Store := set_endpoints (<[file_of env := ep]> (st_endpoints s)) s.

Lemma read_ip4 ip : in_range 32 ip → parse_ipv4 (show_ipv4 (ip4 ip)) = Some (ip4 ip) ∧ of_be (ip4 ip) = ip.
Proof.
  intros Hr. split; [apply parse_show_ipv4; [apply to_be_length|apply to_be_bytes]|]. apply of_to_be. exact Hr.
Qed.
Lemma read_ip6 ip6' : from_option (in_range 128) True ip6' →
  opt_str parse_ipv6 (from_option show_ipv6 "" (ip6 <$> ip6')) = Some (ip6 <$> ip6') ∧ of_be <$> (ip6 <$> ip6') = ip6'.
Proof.
  destruct ip6' as [a|]; [|done]. cbn -[show_ipv6 ip6]. intros Hr.
  assert (parse_ipv6 (show_ipv6 (ip6 a)) = Some (ip6 a)) as E by (apply parse_show_ipv6; [apply to_be_length|apply to_be_bytes]).
  unfold opt_str, is_set. case_bool_decide as Es; [by rewrite Es in E|]. rewrite E. split; [done|]. f_equal. apply of_to_be. exact Hr.
Qed.

Lemma create_endpoint_leaves s env conf ip ip6' : in_range 32 ip → from_option (in_range 128) True ip6' → st_faults s = [] →
  leaves s (rpc_create_endpoint (endpoint_msg env conf (ip4 ip) (ip6 <$> ip6')))
    (λ _ s', ∃ ix, s' = with_record env (record_of env conf ip ip6' ix) s) (λ s', s' = s).
Proof.
  intros Hr4 Hr6 Hf. destruct (read_ip4 ip Hr4) as [E4 E4']. destruct (read_ip6 ip6' Hr6) as [E6 E6'].
  unfold rpc_create_endpoint, endpoint_msg.
  cbn [CniEndpoint_container_id CniEndpoint_ifname CniEndpoint_netns CniEndpoint_host_if CniEndpoint_ip CniEndpoint_vrf_id
       CniEndpoint_pod_name CniEndpoint_pod_namespace CniEndpoint_ip6 CniEndpoint_chained].
  apply leaves_option; [done|]. rewrite E4. intros _ [= <-]. apply leaves_option; [done|]. rewrite E6. intros _ [= <-].
  rewrite E4', E6'. apply leaves_call. unfold cni_create_endpoint.
  apply leaves_then; [keeps|done|intros ix]. do 4 (apply leaves_then; [keeps|done|intros _]).
  apply leaves_on_cni. unfold put_endpoint, mbind, M_bind, get, write_store. rewrite Hf. by exists ix.
Qed.

(** ** The operations *)

(** The addresses an ADD reports. *)
Definition reported (ip : Z) (ip6' : option Z) : list (string * string) :=
  (show_ipv4 (ip4 ip) +:+ "/32", POD_GW) :: from_option (λ a, [(show_ipv6 (ip6 a) +:+ "/128", POD_GW6)]) [] ip6'.

Lemma plumb_leaves s env conf ns ip ip6' : in_range 32 ip → from_option (in_range 128) True ip6' → st_faults s = [] →
  leaves s (plumb env conf ns (ip4 ip) (ip6 <$> ip6'))
    (λ res s', ar_ips res = reported ip ip6' ∧ ∃ ix, s' = with_record env (record_of env conf ip ip6' ix) s)
    (λ s', s' = s ∨ ∃ ix, s' = with_record env (record_of env conf ip ip6' ix) s).
Proof.
  intros Hr4 Hr6 Hf. unfold plumb.
  apply leaves_then; [keeps|by left|intros _]. apply leaves_then; [keeps|by left|intros _].
  apply leaves_then; [keeps|by left|intros mac]. do 2 (apply leaves_then; [keeps|by left|intros _]).
  eapply leaves_bind; [by apply leaves_coded, create_endpoint_leaves|by left|].
  intros _ s' [ix ->]. apply leaves_then; [keeps|right; by exists ix|intros _].
  apply leaves_then; [keeps|right; by exists ix|intros pod_mac].
  apply leaves_ret. split; [by destruct ip6'|by exists ix].
Qed.

(** ** Giving back *)

Lemma filter_grant owner x (m : gmap Z string) : (∀ a, m !! a ≠ Some owner) → from_option (λ a, m !! a = None) True x →
  filter (keeps_alloc owner x) m = m.
Proof.
  intros Ho Hx. apply map_filter_id. intros a o Ha. unfold keeps_alloc. cbn.
  intros [<-|[_ ->]]; [cbn in Hx; congruence|by apply (Ho a)].
Qed.
Lemma filter_granted owner x ip (m : gmap Z string) : owner ≠ ""%string → (∀ a, m !! a ≠ Some owner) → m !! ip = None →
  from_option (λ a, m !! a = None) True x → filter (keeps_alloc owner x) (<[ip := owner]> m) = m.
Proof.
  intros Hne Ho Hip Hx. rewrite map_filter_insert_False, delete_id by (done || (intros Hk; apply Hk; by right)).
  by apply filter_grant.
Qed.

(** A release by the owner, with the address and the IPv6 address or
    without, undoes the grant. *)
Lemma release_grant s s1 owner ip ip6' x : newcomer owner s → unheld ip ip6' s → owner ≠ ""%string → x = None ∨ x = ip6' →
  st_ipam s1 = st_ipam (grant owner ip ip6' s) → st_faults s1 = [] →
  release_ip owner (Some ip) x s1 = (set_ipam (st_ipam s) s1, Ok tt).
Proof.
  intros (_ & Ho4 & Ho6) ([Hip _] & Hip6) Hne Hx Es Hf. unfold release_ip, mbind, M_bind, gets. rewrite Es.
  assert (from_option (λ a, allocations6 (st_ipam s) !! a = None) True x) as Hx6.
  { destruct Hx as [-> | ->]; [done|]. destruct ip6'; [apply Hip6|done]. }
  assert (allocations (st_ipam (grant owner ip ip6' s)) = <[ip := owner]> (allocations (st_ipam s))) as -> by by destruct ip6'.
  rewrite (filter_granted owner (Some ip) ip) by done.
  assert (filter (keeps_alloc owner x) (allocations6 (st_ipam (grant owner ip ip6' s))) = allocations6 (st_ipam s)) as ->.
  { destruct ip6' as [a|]; [by apply filter_granted; [..|apply Hip6|]|by apply filter_grant]. }
  rewrite map_size_insert_None by done. rewrite (proj2 (Nat.eqb_neq _ _)) by lia. cbn [andb].
  unfold write_store. rewrite Hf. by destruct (st_ipam s).
Qed.
Lemma owner_key_set cid ifn : owner_key cid ifn ≠ ""%string.
Proof. by destruct cid. Qed.

(** What the store holds after a successful ADD, and after one that failed. *)
Definition attached (env : CniEnv) (conf : NetConf) (s : Store) (ip : Z) (ip6' : option Z) (s' : Store) : Prop :=
  ∃ ix, s' = with_record env (record_of env conf ip ip6' ix) (grant (owner_key (ce_container_id env) (ce_ifname env)) ip ip6' s).
Definition turned_down (env : CniEnv) (conf : NetConf) (s s' : Store) : Prop :=
  s' = s ∨ (∃ ip ip6' ix, s' = with_record env (record_of env conf ip ip6' ix) s) ∨
  ic_subnet6 (nc_ipam conf) ≠ ""%string ∧
    ∃ ip, unheld ip None s ∧ s' = take4 (owner_key (ce_container_id env) (ce_ifname env)) ip s.

Lemma or_undo_leaves {A} s (m : M Control PluginErr A) undo Q R R' :
  leaves s m Q R' → (∀ s', R' s' → leaves s' undo (λ _, R) R) → leaves s (or_undo m undo) Q R.
Proof.
  intros Hm Hu c Hc. specialize (Hm c Hc). unfold or_undo. destruct (m c) as [c1 [a|e]]; [done|].
  specialize (Hu _ Hm c1 eq_refl). by destruct (undo c1) as [c2 []].
Qed.

(** Undoing a failed ADD gives the addresses back; a record written before
    the failure stays. *)
Lemma undo_leaves env conf s ip ip6' s' (owner := owner_key (ce_container_id env) (ce_ifname env)) :
  newcomer owner s → unheld ip ip6' s →
  s' = grant owner ip ip6' s ∨ attached env conf s ip ip6' s' →
  leaves s' (_ ← del_host_link env; best_effort (rpc_release_ip (mk_pb_ReleaseIpRequest owner (show_ipv4 (ip4 ip)))))
    (λ _, turned_down env conf s) (turned_down env conf s).
Proof.
  intros Hnew Hu Hs'. pose proof (owner_key_set (ce_container_id env) (ce_ifname env) : owner ≠ ""%string) as Hne.
  destruct (read_ip4 ip (proj2 (proj1 Hu))) as [E4 E4'].
  assert (turned_down env conf s (set_ipam (st_ipam s) s')) as Hdown.
  { destruct Hs' as [->|[ix ->]]; [left|right; left; exists ip, ip6', ix]; by destruct s, ip6'. }
  assert (release_ip owner (Some ip) None s' = (set_ipam (st_ipam s) s', Ok tt)) as Er.
  { apply (release_grant s s' owner ip ip6' None); [done..|by left| |]; destruct Hs' as [->|[ix ->]]; destruct Hnew; by destruct ip6'. }
  apply (leaves_bind _ _ _ (λ _ s'', s'' = s') _ _ (λ _, False)); [|done|].
  { by intros c <-. }
  intros _ _ ->. apply leaves_best_effort. unfold rpc_release_ip. cbn [ReleaseIpRequest_ip ReleaseIpRequest_owner].
  assert (opt_str parse_ipv4 (show_ipv4 (ip4 ip)) = Some (Some (ip4 ip))) as ->.
  { unfold opt_str, is_set. case_bool_decide as Es; [by rewrite Es in E4|]. by rewrite E4. }
  apply leaves_some. cbn [option_fmap option_map fmap]. rewrite E4'. apply leaves_call, leaves_on_cni. by rewrite Er.
Qed.

Lemma cmd_add_leaves up env conf s (owner := owner_key (ce_container_id env) (ce_ifname env)) : newcomer owner s →
  leaves s (cmd_add up env conf)
    (λ res s', ∃ ip ip6', unheld ip ip6' s ∧ in_pool (ic_subnet (nc_ipam conf)) (ic_subnet6 (nc_ipam conf)) ip ip6' ∧
       (is_Some ip6' ↔ ic_subnet6 (nc_ipam conf) ≠ ""%string) ∧ ar_ips res = reported ip ip6' ∧ attached env conf s ip ip6' s')
    (turned_down env conf s).
Proof.
  intros Hnew. pose proof (owner_key_set (ce_container_id env) (ce_ifname env) : owner ≠ ""%string) as Hne.
  pose proof Hnew as [Hf _]. unfold cmd_add.
  destruct (negb _); [apply leaves_bail; by left|].
  apply leaves_option; [by left|intros ns _]. apply leaves_then; [keeps|by left|intros _].
  eapply leaves_bind; [apply leaves_coded, rpc_alloc_ip_leaves, Hnew| |].
  { intros s' [->|(H6 & ip & Hu & ->)]; [by left|right; right]. split; [exact H6|]. by exists ip. }
  intros reply s' (ip & ip6' & [E4 E6] & Hu & Hin & -> & H6). cbn [AllocIpRequest_pool AllocIpRequest_pool6 AllocIpRequest_owner] in *.
  assert (in_range 32 ip) as Hr4 by apply Hu. assert (from_option (in_range 128) True ip6') as Hr6.
  { destruct Hu as [_ Hu6]. by destruct ip6'; [apply Hu6|]. }
  assert (from_option (λ a, show_ipv6 (ip6 a)) "" ip6' = from_option show_ipv6 "" (ip6 <$> ip6'))%string as Em by by destruct ip6'.
  rewrite E4, E6, Em, (proj1 (read_ip4 ip Hr4)), (proj1 (read_ip6 ip6' Hr6)).
  do 2 apply leaves_some.
  assert (st_faults (grant owner ip ip6' s) = []) as Hfg by by destruct ip6'.
  eapply or_undo_leaves; [eapply leaves_impl; [by apply plumb_leaves|cbn beta|intros s' Hs'; exact Hs']|].
  - intros res s' (Hips & ix & ->). exists ip, ip6'. split_and!; [done..|]. by exists ix.
  - intros s' Hs'. by apply (undo_leaves env conf s ip ip6').
Qed.

(** ** DEL *)

(** A step of the teardown never fails. *)
Definition settles {E} (m : M Control E unit) : Prop := ∀ c, (m c).2 = Ok tt.
Lemma settles_bind {E} (m : M Control E unit) (f : unit → M Control E unit) : settles m → settles (f tt) → settles (m ≫= f).
Proof. intros Hm Hn c. specialize (Hm c). unfold mbind, M_bind. destruct (m c) as [c' r]. cbn in Hm. subst r. apply Hn. Qed.
Lemma settles_mfold {E A} (f : A → M Control E unit) l : (∀ x, settles (f x)) → settles (mfold (λ _ x, f x) l tt).
Proof. intros Hf. induction l as [|x l IH]; [done|]. cbn [mfold]. by apply settles_bind. Qed.
Lemma leaves_settled {E B} s (m : M Control E unit) (f : unit → M Control E B) Q R :
  moves kept m → settles m → leaves s (f tt) Q R → leaves s (m ≫= f) Q R.
Proof.
  intros Hk Hm Hf c <-. specialize (Hk c). specialize (Hm c). unfold kept, mbind, M_bind in *.
  destruct (m c) as [c' r]. cbn in *. subst r. by apply Hf.
Qed.
Lemma settles_ignore (m : Ctl unit) : settles (on_dp (ignore m)).
Proof. intros c. unfold on_dp, ignore, catch, mbind, M_bind. by destruct (m (c_run c)) as [s []]. Qed.
Lemma settles_detach ix : settles (detach ix).
Proof. intros c. unfold detach, mbind, M_bind, get. by destruct (c_attached c !! ix). Qed.
Lemma cmd_del_settles up env conf : settles (cmd_del up env conf).
Proof.
  apply settles_bind; [|done]. destruct up; [|done]. apply settles_bind; [done|].
  unfold remove_host_ports, each_mapping. destruct (is_set _); [|done]. by apply settles_mfold.
Qed.

Lemma set_endpoints_back env ep s : st_endpoints s !! file_of env = None →
  set_endpoints (delete (file_of env) (st_endpoints (with_record env ep s))) s = s.
Proof. intros He. cbn. rewrite delete_insert_eq, delete_id by done. by destruct s. Qed.

Lemma delete_endpoint_leaves env conf s ip ip6' s' : newcomer (owner_key (ce_container_id env) (ce_ifname env)) s →
  unheld ip ip6' s → st_endpoints s !! file_of env = None → attached env conf s ip ip6' s' →
  leaves s' (rpc_delete_endpoint (mk_pb_CniEndpointKey (ce_container_id env) (ce_ifname env))) (λ _ s'', s'' = s) (λ _, False).
Proof.
  intros Hnew Hu He [ix ->]. set (owner := owner_key _ _) in *. set (ep := record_of env conf ip ip6' ix).
  set (s' := with_record env ep (grant owner ip ip6' s)). pose proof (owner_key_set (ce_container_id env) (ce_ifname env) : owner ≠ ""%string) as Hne.
  apply leaves_call. cbn [CniEndpointKey_container_id CniEndpointKey_ifname]. unfold cni_delete_endpoint.
  apply (leaves_bind _ _ _ (λ o s'', o = Some ep ∧ s'' = s') _ _ (λ _, False)); [|done|].
  { apply leaves_on_cni. cbn. split; [|done]. apply lookup_insert_eq. }
  intros _ _ [-> ->].
  do 2 (apply leaves_settled; [keeps|try (cbn [ep_ip6 ep record_of]; destruct ip6'; [|done]); apply settles_ignore|]).
  apply leaves_settled; [keeps|done|]. apply leaves_settled; [keeps|cbn [ep_ip6 ep record_of]; by destruct ip6'|].
  apply leaves_settled; [keeps|apply settles_detach|].
  apply (leaves_bind _ _ _ (λ _ s'', s'' = set_ipam (st_ipam s) s') _ _ (λ _, False)); [|done|].
  { apply leaves_on_cni. change (match release_ip owner (Some ip) ip6' s' with (s'', Ok _) => s'' = set_ipam (st_ipam s) s' | _ => False end).
    rewrite (release_grant s s' owner ip ip6' ip6'); try done; [by right|destruct Hnew; by destruct ip6']. }
  intros _ _ ->. apply leaves_on_cni. unfold remove_endpoint, mbind, M_bind, get.
  change (endpoint_path _ _) with (file_of env). subst s'. cbn. rewrite lookup_insert_eq, bool_decide_false by done.
  unfold write_store. replace (st_faults _) with (@nil bool) by (destruct Hnew as [Hf _]; by destruct ip6').
  assert (st_endpoints (grant owner ip ip6' s) = st_endpoints s) as -> by by destruct ip6'.
  rewrite delete_insert_eq, delete_id by done. destruct Hnew as [Hf _]. destruct s as [[] eps fs]. cbn in Hf. subst fs. by destruct ip6'.
Qed.

Lemma cmd_del_leaves env conf s ip ip6' s' : newcomer (owner_key (ce_container_id env) (ce_ifname env)) s →
  unheld ip ip6' s → st_endpoints s !! file_of env = None → attached env conf s ip ip6' s' →
  leaves s' (cmd_del true env conf) (λ _ s'', s'' = s) (λ _, True).
Proof.
  intros Hnew Hu He Hatt. unfold cmd_del.
  apply (leaves_bind _ _ _ (λ _ s'', s'' = s) _ _ (λ _, False)); [|done|].
  - apply (leaves_bind _ _ _ (λ _ s'', s'' = s) _ _ (λ _, False)); [|done|].
    + apply leaves_best_effort. eapply leaves_impl; [by apply (delete_endpoint_leaves env conf s ip ip6')|done|done].
    + intros _ _ ->. intros c <-. assert (settles (remove_host_ports conf)) as Hs.
      { unfold remove_host_ports, each_mapping. destruct (is_set _); [|done]. by apply settles_mfold. }
      assert (moves kept (remove_host_ports conf)) as Hk by keeps.
      specialize (Hs c). specialize (Hk c). destruct (remove_host_ports conf c) as [c' r]. cbn in *. by subst r.
  - intros _ _ ->. by intros c <-.
Qed.

(** C12: attaching a pod and detaching it.  Let the daemon's state directory
    work, and let the attachment be new: no record, and no address held in
    its name.  When ADD succeeds, the pod has one free address of the pod
    CIDR, and one of the IPv6 CIDR exactly when the configuration names one;
    ADD reports them, and the store differs from before by the grant of
    these addresses and the attachment's record alone.  From any later state
    with that store, DEL succeeds and restores the store to what it was.
    When ADD fails, the store is as before, or keeps the record written
    before the failure, or, in a dual-stack network, keeps the IPv4 address
    of the attachment whose IPv6 allocation failed. *)
Theorem cni_attach_detach up env conf c (s := c_cni c) :
  newcomer (owner_key (ce_container_id env) (ce_ifname env)) s → st_endpoints s !! file_of env = None →
  let '(c1, r) := cmd_add up env conf c in
  match r with
  | Ok res => ∃ ip ip6', unheld ip ip6' s ∧ in_pool (ic_subnet (nc_ipam conf)) (ic_subnet6 (nc_ipam conf)) ip ip6' ∧
      (is_Some ip6' ↔ ic_subnet6 (nc_ipam conf) ≠ ""%string) ∧ ar_ips res = reported ip ip6' ∧
      attached env conf s ip ip6' (c_cni c1) ∧
      ∀ c2, c_cni c2 = c_cni c1 → (cmd_del true env conf c2).2 = Ok tt ∧ c_cni (cmd_del true env conf c2).1 = s
  | Err _ => turned_down env conf s (c_cni c1)
  end.
Proof.
  intros Hnew He. pose proof (cmd_add_leaves up env conf s Hnew c eq_refl) as Ha.
  destruct (cmd_add up env conf c) as [c1 [res|e]]; [|exact Ha]. destruct Ha as (ip & ip6' & Hu & Hin & H6 & Hips & Hatt).
  exists ip, ip6'. split_and!; try done. intros c2 Hc2.
  pose proof (cmd_del_leaves env conf s ip ip6' _ Hnew Hu He Hatt c2 Hc2) as Hd.
  pose proof (cmd_del_settles true env conf c2) as Hs. by destruct (cmd_del true env conf c2) as [c3 [u|e]].
Qed.
End store.

(** ** An instance *)

(** [ip] on the reference host: links come and go, the rest succeeds. *)
Definition ref_ip : @IpTool ref_host := {|
  ip_run args (h : @Host ref_host) :=
    match args with
    | "link" :: "add" :: n :: _ => (set_links (λ m, <[n := rh_next h]> m) 1 h, true)
    | "link" :: "del" :: n :: _ => (set_links (delete n) 0 h, true)
    | _ => (h, true)
    end%string;
  ip_stdout _ _ := Some "2: eth0@if100: <UP> mtu 1500 link/ether 02:00:00:00:00:07 brd ff:ff:ff:ff:ff:ff"%string;
  sys_address n (h : @Host ref_host) := (λ _, "02:00:00:00:00:64"%string) <$> rh_links h !! n;
  sys_exists n (h : @Host ref_host) := bool_decide (is_Some (rh_links h !! n));
|}.

Definition ex_conf (subnet6 : string) : NetConf :=
  mkNetConf "1.1.0" (mkIpamConf "10.244.0.0/24" subnet6) 0 false "192.0.2.1" [mkPortMapping 8080 80 "TCP"] [].
Definition ex_pod : CniEnv := mkCniEnv "c1" "/run/netns/pod1" "eth0" "web" "default".
(** Another pod holds the first address. *)
Definition ex_store : Store := mkStore (mkIpamFile {[ 0x0af40002 := "c0/eth0"%string ]} ∅) ∅ [].
Definition ex_daemon0 : @Control ref_host literal_regex := fresh_control (host_with ∅ []) empty_dp ex_store.

Lemma cni_attach_detach_witness :
  let '(c1, r) := @cmd_add ref_host literal_regex ref_sys ref_ip true ex_pod (ex_conf "fd00::/64") ex_daemon0 in
  match r with Ok res => ar_ips res = [("10.244.0.3/32", POD_GW); ("fd00::2/128", POD_GW6)]%string | Err _ => False end ∧
  c_cni (@cmd_del ref_host literal_regex ref_sys ref_ip true ex_pod (ex_conf "fd00::/64") c1).1 = ex_store.
Proof.
  assert (newcomer (owner_key (ce_container_id ex_pod) (ce_ifname ex_pod)) (c_cni ex_daemon0)) as Hnew.
  { split_and!; [reflexivity| |]; intros a; cbn; [|done]. intros [_ [=]]%lookup_singleton_Some. }
  pose proof (@cni_attach_detach ref_host literal_regex ref_sys ref_ip true ex_pod (ex_conf "fd00::/64") ex_daemon0 Hnew
    ltac:(reflexivity)) as Ht.
  assert (match (@cmd_add ref_host literal_regex ref_sys ref_ip true ex_pod (ex_conf "fd00::/64") ex_daemon0).2 with
          | Ok res => ar_ips res = [("10.244.0.3/32", POD_GW); ("fd00::2/128", POD_GW6)]%string | Err _ => False end) as Hips
    by (vm_compute; reflexivity).
  destruct (cmd_add _ _ _ _) as [c1 [res|e]]; [|done]. split; [exact Hips|].
  destruct Ht as (ip & ip6' & _ & _ & _ & _ & _ & Hd). by destruct (Hd c1 eq_refl).
Defined.

(** A host port the daemon refuses fails the ADD after [CreateEndpoint]: the
    address is free again, the record is still there. *)
Lemma failed_add_keeps_record :
  let conf := mkNetConf "1.1.0" (mkIpamConf "10.244.0.0/24" "") 0 false "192.0.2.1" [mkPortMapping 8080 80 "SCTP"] [] in
  let '(c1, r) := @cmd_add ref_host literal_regex ref_sys ref_ip true ex_pod conf ex_daemon0 in
  r = Err (Coded ERR_INTERNAL) ∧ st_ipam (c_cni c1) = st_ipam ex_store ∧
  ep_ip <$> st_endpoints (c_cni c1) !! file_of ex_pod = Some 0x0af40003.
Proof. vm_compute. split_and!; reflexivity. Qed.

(** An IPv6 pool too small to allocate from fails the ADD, and the IPv4
    address stays granted: DEL finds no record to release it by. *)
Lemma failed_add_keeps_address :
  let '(c1, r) := @cmd_add ref_host literal_regex ref_sys ref_ip true ex_pod (ex_conf "fd00::/127") ex_daemon0 in
  let c2 := (@cmd_del ref_host literal_regex ref_sys ref_ip true ex_pod (ex_conf "fd00::/127") c1).1 in
  r = Err (Coded ERR_INTERNAL) ∧ allocations (st_ipam (c_cni c2)) !! 0x0af40003 = Some "c1/eth0"%string.
Proof. vm_compute. split; reflexivity. Qed.

(** The Cilium API allocates for the owner ["cilium"] when the request names
    none: the second such pod is given the address of the first. *)
Definition ex_handle (m : Method) (path : string) (query : option string) : M Control False Response :=
  @handle ref_host literal_regex ref_sys ref_ip (λ _, None) (λ _, None) "10.244.0.0/24" m path query (Some ""%string).
Lemma ownerless_share :
  let '(c1, r1) := ex_handle POST "/v1/ipam" None ex_daemon0 in
  let '(c2, r2) := ex_handle POST "/v1/ipam" None c1 in
  r1 = r2 ∧ c_cni c1 = c_cni c2 ∧ match r1 with Ok (code, _) => code = S_CREATED | Err _ => False end.
Proof. vm_compute. split_and!; reflexivity. Qed.
